(* ===== verification/_CoqProject ===== *)
-Q . S2P
Prelude.v
GoFloat.v
GoStrings.v
Numerals.v
Errors.v
Http.v
Protocol.v
Registry.v
Scheduler.v
CapabilityCache.v
QueueStats.v
CallCounter.v
RequestTracker.v
Selection.v
Dispatch.v
Breaker.v
Estimator.v
InferenceStats.v
Relay.v
Aliases.v
AutoRouting.v
Pending.v
Hub.v
HubCore.v
HubSystem.v
HubSpec.v
Proxy.v
Meta.v
Discovery.v
Backend.v
WorkerServer.v
WorkerClient.v
HttpClient.v
Security.v
Flags.v
WorkerRun.v
Capabilities.v
RouterMain.v
DesktopConfig.v
DesktopArgs.v
DesktopWorker.v
RouterClient.v
DesktopView.v
Supervisor.v
Activation.v
Autostart.v
Wsutil.v
RelayLink.v
DesktopShell.v
Report.v
Regex.v
Classifier.v
Certs.v
RouterServer.v
WorkerLink.v
