(* ===== verification/Prelude.v ===== *)
(** * InferMesh: a verification development of its router, worker, relay and desktop application

    InferMesh shares local inference servers over a network.  A worker announces
    itself (by mDNS, over HTTP, or over a WebSocket, possibly through a relay);
    the router keeps a registry of workers, scores them for each request, and
    dispatches the request with failover; the worker guards its backend with a
    circuit breaker and adapts its own concurrency cap; the desktop application
    configures, starts and watches both.  This library models these programs,
    from their command lines to the frames they exchange, and proves what makes
    them correct.

    ** Parts and how they interact

    Discovery events ([Discovery]) and registrations ([WorkerRun], [Meta]) enter
    the registry ([Registry]); its notifications feed the capability cache
    ([CapabilityCache]); selection ([Selection]) projects the cached workers onto
    the scheduler's view, with load numbers from the queue statistics
    ([QueueStats]), and asks the scheduler ([Scheduler]) for the best one;
    dispatch ([Dispatch]) repeats selection with the workers that failed excluded
    and keeps the accounts ([CallCounter], [RequestTracker]).  Before that, the
    request's model name is rewritten ([AutoRouting], [Classifier], [Aliases]);
    around it, the inference endpoints ([Proxy]) parse, answer and stream.  A
    dispatch reaches a worker over HTTP ([HttpClient]) or through the hub of
    WebSocket connections ([Pending], [Hub], [HubCore], [HubSystem], [HubSpec]),
    itself perhaps behind a relay ([Relay], [RelayLink]).  On the other side the
    worker ([WorkerLink], [WorkerClient], [WorkerServer]) hands it to its backend
    ([Backend]), guarded and measured by [Breaker], [Estimator] and
    [InferenceStats], whose numbers come back as capabilities.  [Security] and
    [RouterServer] decide who reaches an endpoint, with the certificates of
    [Certs].  The desktop application keeps its settings and secrets
    ([DesktopConfig]), turns them into command lines ([DesktopArgs],
    [DesktopWorker]), runs the programs ([Supervisor]), and shows what the router
    tells ([RouterClient], [DesktopView]).

    ** Files

    - [Prelude]: notations, tactics, machine integers, time, list and map
      lemmas, stable sorting, buffered channels, invariants of step relations.
      [GoFloat]: Go's float64 as executable binary64.  [GoStrings], [Numerals]:
      the functions of strings and strconv that the programs use.  [Regex]:
      regular expressions over bytes, an inductive language and its decision.
      [Flags]: Go's flag package.  [Http]: response writers of net/http.
    - [Errors]: error values, errors.Is and errors.As.  [Protocol]: the wire
      types of pkg/protocol.
    - [Registry]: internal/registry/memory.go; the record [memoryRegistry] and
      one function per method, [broadcast] and [sweep] included.
    - [Scheduler]: pkg/scheduler/scheduler.go; [WeightedScore] term by term in
      float64, [SelectWorker] against the interface [ScoringAlgorithm].
    - [CapabilityCache], [QueueStats], [CallCounter], [RequestTracker]: the files
      of those names in pkg/router.
    - [Selection]: selectWorkerExcluding and what it calls in
      pkg/router/dispatch.go, and the scorer setters of server.go, over the
      interface [Backend] with its laws [BackendLaws].  [Dispatch]:
      dispatchWithFailover and the error responses, over [Transport].
    - [Aliases], [AutoRouting], [Classifier]: aliases.go, routing_config.go,
      classifier.go and the resolution functions of server.go.
    - [Pending], [Hub], [HubCore], [HubSystem], [HubSpec]: ws_hub.go, ws_conn.go,
      ws_relay.go and ws_stats.go: a call in flight, every operation of the hub
      over its heaps of connections and calls, its goroutines as steps, and the
      theorems about every reachable hub.  [RelayLink]: runRelay and the loops of
      a relay connection of the router.
    - [Proxy]: handlers_chat.go and proxyStream.  [Meta]: handlers_meta.go and
      the setters of server.go.  [HttpClient]: worker_client.go.
      [RouterServer]: Start and buildServer of server.go and the routes.
      [RouterMain]: cmd/router/main.go.
    - [Security]: pkg/security/middleware.go, security.go and the wrapping of
      both servers.  [Certs]: pkg/security/certgen.go.
    - [Breaker], [Estimator], [InferenceStats], [Backend], [WorkerServer],
      [WorkerClient], [WorkerLink], [WorkerRun], [Report]: the files of
      pkg/worker: the breaker and retries, the cap, throughput, the OpenAI
      backends, the HTTP server, the messages of the WebSocket client, its
      connection, start-up with reloads, and the capability report.
    - [Capabilities]: pkg/capabilities and pkg/platform.  [Discovery]:
      pkg/discovery.  [Relay]: cmd/relay/main.go; [exec] gives what each event of
      its goroutines does.  [Wsutil]: internal/wsutil.
    - [DesktopConfig], [DesktopArgs], [DesktopWorker], [RouterClient],
      [DesktopView], [Supervisor], [Activation], [Autostart], [DesktopShell]:
      src/app: settings and the keyring, arguments and certificate files, the
      worker that is started, the client of the router, what is shown, the
      supervised processes, the single instance, the login item, start-up and
      the tray.

    ** Conventions

    A method under a mutex is a function of the state and of the instant it
    reads; goroutines are events or the steps of a relation, and a theorem about
    every run is about every interleaving of these events.  What can come
    between two critical sections of one event is left out; where it matters the
    code is a machine whose steps interleave with everything else, as the flush
    of the relay, which gives its locks back while it sends.  A range over a Go
    map takes its iteration order as an argument.  Random draws, clock readings,
    network answers and JSON codecs are arguments; codecs, keyrings and
    cryptography are classes with their laws where a theorem needs them.
    Integers are [Z] with [wrap64] where the code can overflow; durations
    saturate where Go's do.  Messages of errors and logs are left out unless a
    decision reads them.

    ** What the theorems show

    - Refinement: the registry over any run is one small automaton per worker
      ([registry_refines_tracks]); a stream goes from the backend to the client
      through worker, relay or HTTP, hub and proxy ([stream_end_to_end],
      [http_end_to_end]); what a worker posts is what the router lists
      ([worker_registers]); the processes the desktop starts read what its
      settings mean ([desktop_starts_router], [desktop_starts_worker]), and what
      it shows is what the router lists ([desktop_sees_router]); [Start] is the
      transport the access rules are stated of ([start_is_serving]).
    - Invariants: [registry_invariant], [relay_invariant], [hub_accounting],
      [slots_accounted], [registration_invariant], [relay_link_kept_up],
      [worker_link_kept_up], [breaker_invariant], [cap_in_bounds], [one_worker],
      [single_instance].
    - Selection and failover: the selected worker is willing, not excluded and
      the best ([selected_worker_allowed], [SelectWorker_best]); failover tries
      no worker twice, ends, does not give up before a worker that works unless
      the context is over or a failure forbids a retry, and keeps exact accounts
      ([failover_outcome], [failover_complete], [failover_accounts]).  What the
      expressions of the classifier find is said without expressions
      ([expressions_decide]).
    - Access: which requests reach a handler ([access_control],
      [no_way_around_key], [router_process_access]), with which certificates
      ([generated_certificates], [minted_client_served]); secrets stay out of
      files or are removed with them, where the system lets them
      ([config_invariant], [no_secret_left]).
    - Delivery: every request is answered once ([request_answered_once]); the
      relay's frames keep their order, and a register is lost only as the oldest
      entry of a full buffer ([router_stream_fifo], [register_not_lost],
      [flush_spec], [routerMessage_spec]).  The registry is given each event of
      the mDNS listener once, in order ([mdns_pipeline]); what comes of an
      announcement depends on the text that the library hands over
      ([announcement_heard]).  The login item on Linux is that of the last
      request obeyed, whatever fails ([linux_login_item]).
    - Round trips: a request through the hub ([request_round_trip]), settings
      ([save_then_load]), aliases and the auto-routing configuration
      ([ParseModelAliases_print], [auto_config_roundtrip]), generated
      certificates ([generated_certificates]).
    - Departures from what the code intends, proved as such, among them
      [stale_reader_unregisters], [buffer_unbounded], [half_open_admits_all],
      [unknown_throughput_scores_zero], [idle_worker_decays],
      [finished_stream_may_be_cut], [late_loops], [watcher_may_leave],
      [system_prompt_hides_question], [interrupted_authority].

    ** Bounds and fuel

    [failover] and [retry_loop] recurse on the number of attempts left, which
    the code's loops count.  [relay_frames] takes [relay_fuel], two more than the
    lines of the answer ([relay_fuel_enough]).  [trim_front] and [fields_from]
    of [GoStrings] and [runes_from] of [Autostart] recurse on the length of the
    text, of which every step removes a byte, as every PEM block of [blocks] in
    [Certs] does.  [flush_run] takes three steps more than the buffer has
    messages ([flushBufferedMessages_ends]).  Regular expressions recurse on the text.  The buffer sizes
    (256 frames, 1024 samples, 200 records) are the constants of the code.

    ** Not modelled

    Left out for good: the libraries below the code (sockets and their framing,
    TLS handshakes, HTTP connections, mDNS packets, JSON, the GUI toolkit,
    cryptography), which are arguments or classes; the dialogs of the platforms,
    commands whose outcome is only logged; the build scripts and generated entry
    points; the file audit log of pkg/security, which no program opens; the texts
    of errors that nothing reads.  Unicode lower-casing is an argument of the
    classifier; the address parsing of the relay is an argument of its
    handler. *)

From stdpp Require Export base tactics list gmap strings sorting relations.
From Stdlib Require Export ZArith Lia.

#[global] Open Scope Z_scope.
#[global] Set Default Goal Selector "!".

(** ** Scope and notations *)

Declare Scope infermesh_scope.
Delimit Scope infermesh_scope with im.

(** A Go map read with the zero value of the element type as default. *)
Definition map_or {V} (d : V) (m : gmap string V) (k : string) : V := default d (m !! k).

Notation "m '@[' k '|' d ']'" := (map_or d m k)
  (at level 1, k at level 200, d at level 200, format "m @[ k | d ]") : infermesh_scope.
#[global] Open Scope infermesh_scope.

(** ** Tactics *)

Create HintDb infermesh.
Create Rewrite HintDb infermesh.

(** Splits on the boolean tests and matches left in the goal. *)
Ltac case_if :=
  match goal with
  | |- context [if ?b then _ else _] => destruct b eqn:?
  | |- context [match ?x with _ => _ end] => destruct x eqn:?
  end.

Ltac case_ifs := repeat (case_if; simpl in *; try congruence; try done).

(** Turns the boolean order tests of the context into propositions [lia] reads. *)
Ltac zbool :=
  repeat match goal with
  | H : (_ <? _) = true |- _ => apply Z.ltb_lt in H
  | H : (_ <? _) = false |- _ => apply Z.ltb_ge in H
  | H : (_ <=? _) = true |- _ => apply Z.leb_le in H
  | H : (_ <=? _) = false |- _ => apply Z.leb_gt in H
  | H : (_ =? _) = true |- _ => apply Z.eqb_eq in H
  | H : (_ =? _) = false |- _ => apply Z.eqb_neq in H
  | H : _ && _ = true |- _ => apply andb_prop in H; destruct H
  | H : _ || _ = false |- _ => apply orb_false_elim in H; destruct H
  | H : negb _ = true |- _ => apply negb_true_iff in H
  | H : negb _ = false |- _ => apply negb_false_iff in H
  end.

Ltac zbool_lia := zbool; try lia.

(** ** Machine integers: Go's [int] and [int64] are 64 bits wide *)

Definition max_int64 : Z := 2 ^ 63 - 1.
Definition min_int64 : Z := - 2 ^ 63.

Definition in_int64 (z : Z) : Prop := min_int64 <= z <= max_int64.

(** Two's-complement wrap-around of an arithmetic result. *)
Definition wrap64 (z : Z) : Z := (z + 2 ^ 63) mod 2 ^ 64 - 2 ^ 63.

Definition sat64 (z : Z) : Z := Z.max min_int64 (Z.min max_int64 z).

Lemma wrap64_id z : in_int64 z -> wrap64 z = z.
Proof.
  unfold in_int64, wrap64, min_int64, max_int64. intros ?.
  rewrite Z.mod_small; lia.
Qed.

Lemma wrap64_range z : in_int64 (wrap64 z).
Proof.
  unfold in_int64, wrap64, min_int64, max_int64.
  pose proof (Z.mod_pos_bound (z + 2 ^ 63) (2 ^ 64)). lia.
Qed.

Lemma sat64_id z : in_int64 z -> sat64 z = z.
Proof. unfold in_int64, sat64. lia. Qed.

Lemma sat64_range z : in_int64 (sat64 z).
Proof. unfold in_int64, sat64, min_int64, max_int64. lia. Qed.

Lemma sat64_mono a b : a <= b -> sat64 a <= sat64 b.
Proof. unfold sat64. lia. Qed.

#[export] Hint Resolve wrap64_range sat64_range : infermesh.
#[export] Hint Rewrite wrap64_id sat64_id using (unfold in_int64, min_int64, max_int64 in *; lia) : infermesh.

(** ** Time

    A [time.Time] is its instant in nanoseconds (no width: the wall clock of Go
    keeps seconds and nanoseconds apart), a [time.Duration] an [int64] of
    nanoseconds.  [t.Sub(u)] saturates at the bounds of [Duration]. *)

Abbreviation Time := Z (only parsing).
Abbreviation Duration := Z (only parsing).

Definition millisecond : Duration := 1000000.
Definition second : Duration := 1000 * millisecond.
Definition minute : Duration := 60 * second.

(** The instant of the zero [time.Time] (1 January of year 1). *)
Definition zero_time : Time := - 62135596800 * second.

Definition time_sub (t u : Time) : Duration := sat64 (t - u).
Definition time_add (t : Time) (d : Duration) : Time := t + d.
Definition before (t u : Time) : bool := t <? u.
Definition after (t u : Time) : bool := u <? t.

Lemma time_sub_le t u d : in_int64 d -> d < max_int64 -> (time_sub t u <= d <-> t - u <= d).
Proof. unfold time_sub, sat64, in_int64. lia. Qed.

Lemma time_sub_ge t u d : min_int64 < d -> d <= max_int64 -> (d <= time_sub t u <-> d <= t - u).
Proof. unfold time_sub, sat64. lia. Qed.

(** ** Lists *)

(** The front-pruning loop [for i < len(l) && old(l[i]) { i++ }; l = l[i:]]. *)
Fixpoint drop_while {A} (f : A -> bool) (l : list A) : list A :=
  match l with
  | [] => []
  | x :: l' => if f x then drop_while f l' else l
  end.

(** The prefix [drop_while] removes. *)
Fixpoint take_while {A} (f : A -> bool) (l : list A) : list A :=
  match l with
  | [] => []
  | x :: l' => if f x then x :: take_while f l' else []
  end.

Section while.
Context {A : Type}.
Implicit Types (f : A -> bool) (l : list A).

Lemma take_drop_while f l : take_while f l ++ drop_while f l = l.
Proof. induction l as [|x l IH]; simpl; [done|]. case_if; simpl; [by rewrite IH|done]. Qed.

Lemma take_while_Forall f l : Forall (fun x => f x = true) (take_while f l).
Proof. induction l as [|x l IH]; simpl; [constructor|]. case_if; by constructor. Qed.

Lemma drop_while_Forall (P : A -> Prop) f l : Forall P l -> Forall P (drop_while f l).
Proof. induction 1; simpl; [constructor|]. case_if; [done|by constructor]. Qed.

Lemma drop_while_head f l x l' : drop_while f l = x :: l' -> f x = false.
Proof. induction l as [|y l IH]; simpl; [done|]. case_if; intros ?; simplify_eq; auto. Qed.

Lemma drop_while_suffix f l : exists k, drop_while f l = drop k l.
Proof.
  induction l as [|x l [k IH]]; simpl; [by exists 0%nat|].
  destruct (f x); [by exists (S k)|by exists 0%nat].
Qed.

(** On a list where [f] is monotone along [R], pruning the front is filtering. *)
Lemma drop_while_filter (R : relation A) f l :
  (forall x y, R x y -> f y = true -> f x = true) ->
  StronglySorted R l -> drop_while f l = List.filter (fun x => negb (f x)) l.
Proof.
  intros Hf. induction 1 as [|x l Hl IH Hx]; simpl; [done|].
  destruct (f x) eqn:E; simpl; [done|]. f_equal.
  clear IH. induction Hx as [|y l Hxy Hx IH']; simpl; [done|].
  destruct (f y) eqn:Ey; simpl; [rewrite (Hf _ _ Hxy Ey) in E; done|].
  f_equal. apply IH'. by inv Hl.
Qed.
End while.

Lemma elem_of_filter_b {A} (f : A -> bool) l x : x ∈ List.filter f l <-> x ∈ l /\ f x = true.
Proof. rewrite !list_elem_of_In. apply filter_In. Qed.

Lemma filter_b_app {A} (f : A -> bool) l1 l2 :
  List.filter f (l1 ++ l2) = List.filter f l1 ++ List.filter f l2.
Proof. apply List.filter_app. Qed.

Lemma filter_b_sublist {A} (f : A -> bool) l : List.filter f l `sublist_of` l.
Proof. induction l; simpl; [constructor|]. case_if; by constructor. Qed.

Lemma NoDup_filter_b {A} (f : A -> bool) l : NoDup l -> NoDup (List.filter f l).
Proof. intros H. eapply sublist_NoDup; [done|apply filter_b_sublist]. Qed.

#[export] Hint Resolve NoDup_filter_b filter_b_sublist : infermesh.

(** Removing what a first pass removed is a single pass. *)
Lemma filter_b_idemp {A} (f : A -> bool) l : List.filter f (List.filter f l) = List.filter f l.
Proof. induction l as [|x l IH]; simpl; [done|]. destruct (f x) eqn:E; simpl; rewrite ?E, ?IH; done. Qed.

Lemma filter_b_map {A C} (f : A -> C) (p : C -> bool) l :
  List.filter p (map f l) = map f (List.filter (fun x => p (f x)) l).
Proof. induction l as [|x l IH]; simpl; [done|]. rewrite IH. by destruct (p (f x)). Qed.

Lemma filter_b_ext {A} (f g : A -> bool) l :
  (forall x, x ∈ l -> f x = g x) -> List.filter f l = List.filter g l.
Proof.
  induction l as [|x l IH]; intros H; simpl; [done|].
  rewrite (H x) by set_solver. case_if; rewrite IH by set_solver; done.
Qed.

Lemma filter_all {A} (f : A -> bool) l : Forall (fun x => f x = true) l -> List.filter f l = l.
Proof. induction 1 as [|x l Hx _ IH]; simpl; [done|]. by rewrite Hx, IH. Qed.

(** Members of a list without duplicates under [f] are told apart by [f]. *)
Lemma NoDup_map_eq {A B} (f : A -> B) l x y :
  NoDup (map f l) -> x ∈ l -> y ∈ l -> f x = f y -> x = y.
Proof.
  intros Hd Hx Hy Hf. apply list_elem_of_lookup in Hx as [i Hi], Hy as [j Hj].
  assert (i = j) as ->; [|congruence].
  apply (NoDup_lookup (map f l) i j (f x)); [done|..]; rewrite list_lookup_fmap; rewrite ?Hi, ?Hj; simpl; congruence.
Qed.

Lemma omap_length_le {A B} (f : A -> option B) l : (length (omap f l) <= length l)%nat.
Proof. induction l as [|x l IH]; [done|]. 
  change (omap f (x :: l)) with (match f x with Some y => y :: omap f l | None => omap f l end).
  destruct (f x); simpl; lia. Qed.

Lemma sublist_sorted {A} (R : relation A) l k : l `sublist_of` k -> StronglySorted R k -> StronglySorted R l.
Proof.
  induction 1 as [|x l k Hs IH|x l k Hs IH]; intros Hk; [constructor|..];
    apply StronglySorted_inv in Hk as [Hk Hx]; [|by apply IH].
  constructor; [by apply IH|]. rewrite Forall_forall in *. intros y Hy. by eapply Hx, elem_of_sublist.
Qed.

Lemma sorted_snoc {A} (R : relation A) l x :
  StronglySorted R l -> Forall (fun y => R y x) l -> StronglySorted R (l ++ [x]).
Proof.
  induction 1 as [|y l Hl IH Hy]; intros Hx; simpl; [repeat constructor|].
  apply Forall_cons in Hx as [Hyx Hx]. constructor; [by apply IH|]. by rewrite Forall_app, Forall_singleton.
Qed.

Lemma sorted_snoc_inv {A} (R : relation A) l x :
  StronglySorted R (l ++ [x]) -> StronglySorted R l /\ Forall (fun y => R y x) l.
Proof.
  induction l as [|y l IH]; simpl; intros H; [by split; constructor|].
  apply StronglySorted_inv in H as [[Hl Hx]%IH Hy]. rewrite Forall_app, Forall_singleton in Hy.
  destruct Hy. split; by constructor.
Qed.

Lemma sorted_lookup {A} (R : relation A) l i j x y :
  StronglySorted R l -> l !! i = Some x -> l !! j = Some y -> (i < j)%nat -> R x y.
Proof.
  intros Hs. revert i j. induction Hs as [|z l Hl IH Hz]; intros [|i] [|j] Hx Hy Hij; simplify_eq/=; try lia.
  - rewrite Forall_forall in Hz. apply Hz. by eapply list_elem_of_lookup_2.
  - eapply IH; [done..|lia].
Qed.

(** *** Stable sorting by a boolean order ([sort.Slice], [sort.SliceStable]) *)

Fixpoint insert_by {A} (le : A -> A -> bool) (x : A) (l : list A) : list A :=
  match l with
  | [] => [x]
  | y :: l' => if le x y then x :: l else y :: insert_by le x l'
  end.

Definition sort_by {A} (le : A -> A -> bool) (l : list A) : list A := foldr (insert_by le) [] l.

Section sort_by.
Context {A : Type} (le : A -> A -> bool).

Lemma insert_by_perm x l : insert_by le x l ≡ₚ x :: l.
Proof.
  induction l as [|y l IH]; simpl; [done|]. case_if; [done|].
  rewrite IH. by constructor.
Qed.

Lemma sort_by_perm l : sort_by le l ≡ₚ l.
Proof. induction l as [|x l IH]; simpl; [done|]. by rewrite insert_by_perm, IH. Qed.

Lemma elem_of_sort_by x l : x ∈ sort_by le l <-> x ∈ l.
Proof. by rewrite sort_by_perm. Qed.

Lemma sort_by_length l : length (sort_by le l) = length l.
Proof. by rewrite sort_by_perm. Qed.

Context (le_total : forall x y, le x y = true \/ le y x = true).
Context (le_trans : forall x y z, le x y = true -> le y z = true -> le x z = true).

Lemma insert_by_sorted x l :
  StronglySorted (fun a b => le a b = true) l ->
  StronglySorted (fun a b => le a b = true) (insert_by le x l).
Proof using le_total le_trans.
  induction 1 as [|y l Hl IH Hy]; simpl; [repeat constructor|].
  destruct (le x y) eqn:E.
  - constructor; [by constructor|]. constructor; [done|].
    eapply Forall_impl; [done|]. simpl. eauto.
  - constructor; [done|]. rewrite insert_by_perm. constructor; [|done].
    destruct (le_total x y); congruence.
Qed.

Lemma sort_by_sorted l : StronglySorted (fun a b => le a b = true) (sort_by le l).
Proof using le_total le_trans. induction l; simpl; [constructor|by apply insert_by_sorted]. Qed.

(** When the order separates the members, the result does not depend on the
    order (Go's map iteration, an unstable sort) the input comes in. *)
Lemma sort_by_unique l1 l2 :
  (forall x y, x ∈ l1 -> y ∈ l2 -> le x y = true -> le y x = true -> x = y) ->
  l1 ≡ₚ l2 -> sort_by le l1 = sort_by le l2.
Proof using le_total le_trans.
  intros Hanti Hp.
  eapply (StronglySorted_unique_strong (fun a b => le a b = true));
    [|apply sort_by_sorted..|by rewrite !sort_by_perm].
  intros x y. rewrite !elem_of_sort_by. auto.
Qed.
End sort_by.

(** *** Buffered channels

    A channel with a buffer is its queued values; a non-blocking send
    ([select] with a [default]) fails when the buffer is full. *)

Definition try_send {A} (cap : nat) (x : A) (buf : list A) : option (list A) :=
  if (length buf <? cap)%nat then Some (buf ++ [x]) else None.

Lemma try_send_Some {A} cap (x : A) buf buf' :
  try_send cap x buf = Some buf' <-> (length buf < cap)%nat /\ buf' = buf ++ [x].
Proof. unfold try_send. destruct (Nat.ltb_spec (length buf) cap); naive_solver lia. Qed.

Lemma try_send_None {A} cap (x : A) buf :
  try_send cap x buf = None <-> (cap <= length buf)%nat.
Proof. unfold try_send. destruct (Nat.ltb_spec (length buf) cap); naive_solver lia. Qed.

(** ** Step relations *)

(** An invariant of the initial states that every step keeps holds of every
    reachable state. *)
Lemma rtc_invariant {S} (step : relation S) (P : S -> Prop) s s' :
  (forall a b, P a -> step a b -> P b) -> P s -> rtc step s s' -> P s'.
Proof. intros Hstep Hs. induction 1; eauto. Qed.

(** ** Maps *)

Section maps.
Context {V : Type}.
Implicit Types (m : gmap string V).

Lemma map_or_insert_eq (d : V) m k v : map_or d (<[k:=v]> m) k = v.
Proof. unfold map_or. by rewrite lookup_insert_eq. Qed.

Lemma map_or_insert_ne (d : V) m k k' v : k <> k' -> map_or d (<[k:=v]> m) k' = map_or d m k'.
Proof. intros. unfold map_or. by rewrite lookup_insert_ne. Qed.

Lemma map_or_delete_eq (d : V) m k : map_or d (delete k m) k = d.
Proof. unfold map_or. by rewrite lookup_delete_eq. Qed.

Lemma map_or_delete_ne (d : V) m k k' : k <> k' -> map_or d (delete k m) k' = map_or d m k'.
Proof. intros. unfold map_or. by rewrite lookup_delete_ne. Qed.
End maps.

#[export] Hint Rewrite @map_or_insert_eq @map_or_delete_eq : infermesh.
#[export] Hint Rewrite @map_or_insert_ne @map_or_delete_ne using done : infermesh.

(** The order of [<] on Go strings is the byte order of [String.leb]. *)
Lemma string_leb_total s t : String.leb s t = true \/ String.leb t s = true.
Proof. apply String.leb_total. Qed.

Lemma string_leb_trans s t u :
  String.leb s t = true -> String.leb t u = true -> String.leb s u = true.
Proof.
  intros H1%Is_true_true H2%Is_true_true. apply Is_true_true.
  change (String.le s u). change (String.le s t) in H1. change (String.le t u) in H2.
  by transitivity t.
Qed.

Lemma string_leb_antisym s t : String.leb s t = true -> String.leb t s = true -> s = t.
Proof. apply String.leb_antisym. Qed.

#[export] Hint Resolve string_leb_total string_leb_trans string_leb_antisym : infermesh.
