(* ===== verification/GoFloat.v ===== *)
(** * GoFloat: Go's [float64]

    IEEE 754 binary64 with round-to-nearest-even, computed by the executable
    specification [SpecFloat] of the core library (precision 53, exponent bound
    1024).  The file gives the operations the router uses, the order of Go's
    comparison operators as a lexicographic order on a key, and the sign and
    NaN facts that the scorer's range theorems rest on.  Go compilers for some
    platforms may fuse [x*y + z]; the model is the unfused evaluation. *)

From S2P Require Import Prelude.
From Stdlib Require Import SpecFloat.

Abbreviation float64 := spec_float.

Definition fadd : float64 -> float64 -> float64 := SFadd 53 1024.
Definition fsub : float64 -> float64 -> float64 := SFsub 53 1024.
Definition fmul : float64 -> float64 -> float64 := SFmul 53 1024.
Definition fdiv : float64 -> float64 -> float64 := SFdiv 53 1024.

Definition flt (x y : float64) : bool := SFltb x y.
Definition fle (x y : float64) : bool := SFleb x y.
Definition feq (x y : float64) : bool := SFeqb x y.

(** [float64(n)] of an integer. *)
Definition of_int (n : Z) : float64 := binary_normalize 53 1024 n 0 false.

(** The decimal constant [n / d] of the source: the division of two exact
    integers is correctly rounded, as the compiler's conversion is. *)
Definition dec (n d : Z) : float64 := fdiv (of_int n) (of_int d).

Definition f0 : float64 := S754_zero false.
Definition f1 : float64 := of_int 1.
Definition f05 : float64 := dec 5 10.

Definition is_nan (x : float64) : bool := match x with S754_nan => true | _ => false end.

(** [math.Min]. *)
Definition math_min (x y : float64) : float64 :=
  match x, y with
  | S754_infinity true, _ | _, S754_infinity true => S754_infinity true
  | S754_nan, _ | _, S754_nan => S754_nan
  | S754_zero s, S754_zero _ => if s then x else y
  | _, _ => if flt x y then x else y
  end.

(** [int(x)]: truncation towards zero; a value out of range gives the integer
    the amd64 conversion instruction gives. *)
Definition to_int (x : float64) : Z :=
  match x with
  | S754_zero _ => 0
  | S754_finite s m e =>
      let a := if 0 <=? e then Z.pos m * 2 ^ e else Z.pos m / 2 ^ (- e) in
      let z := if s then - a else a in
      if (min_int64 <=? z) && (z <=? max_int64) then z else min_int64
  | S754_infinity _ | S754_nan => min_int64
  end.

(** ** The order *)

(** Comparison is lexicographic on this key (sign class, exponent, mantissa). *)
Definition fkey (x : float64) : Z * Z * Z :=
  match x with
  | S754_zero _ => (0, 0, 0)
  | S754_infinity s => (if s then -2 else 2, 0, 0)
  | S754_nan => (3, 0, 0)
  | S754_finite false m e => (1, e, Z.pos m)
  | S754_finite true m e => (-1, - e, - Z.pos m)
  end.

Definition lex_lt (a b : Z * Z * Z) : Prop :=
  let '(a1, a2, a3) := a in
  let '(b1, b2, b3) := b in
  a1 < b1 \/ (a1 = b1 /\ (a2 < b2 \/ (a2 = b2 /\ a3 < b3))).

Lemma flt_key x y : is_nan x = false -> is_nan y = false -> (flt x y = true <-> lex_lt (fkey x) (fkey y)).
Proof.
  unfold flt, SFltb.
  destruct x as [[]|[]| |[] m1 e1], y as [[]|[]| |[] m2 e2]; intros ??; try done;
    simpl; try (split; [done|lia]); try (split; [lia|done]).
  - destruct (Z.compare_spec e1 e2); [|split; [done|lia]|split; [lia|done]].
    change (Pos.compare_cont Eq m1 m2) with (Pos.compare m1 m2).
    destruct (Pos.compare_spec m1 m2); simpl; split; try done; lia.
  - destruct (Z.compare_spec e1 e2); [|split; [lia|done]|split; [done|lia]].
    change (Pos.compare_cont Eq m1 m2) with (Pos.compare m1 m2).
    destruct (Pos.compare_spec m1 m2); simpl; split; try done; lia.
Qed.

Lemma fle_key x y : is_nan x = false -> is_nan y = false -> (fle x y = true <-> ~ lex_lt (fkey y) (fkey x)).
Proof.
  unfold fle, SFleb.
  destruct x as [[]|[]| |[] m1 e1], y as [[]|[]| |[] m2 e2]; intros ??; try done;
    simpl; try (split; [done|lia]); try (split; [lia|done]).
  - destruct (Z.compare_spec e1 e2); [|split; [done|lia]|split; [lia|done]].
    change (Pos.compare_cont Eq m1 m2) with (Pos.compare m1 m2).
    destruct (Pos.compare_spec m1 m2); simpl; split; try done; lia.
  - destruct (Z.compare_spec e1 e2); [|split; [lia|done]|split; [done|lia]].
    change (Pos.compare_cont Eq m1 m2) with (Pos.compare m1 m2).
    destruct (Pos.compare_spec m1 m2); simpl; split; try done; lia.
Qed.

Lemma flt_nan_l y : flt S754_nan y = false.
Proof. done. Qed.

Lemma flt_nan_r x : flt x S754_nan = false.
Proof. by destruct x. Qed.

Lemma fle_nan_false x y : fle x y = true -> is_nan x = false /\ is_nan y = false.
Proof. by destruct x, y. Qed.

Lemma fle_refl x : is_nan x = false -> fle x x = true.
Proof. intros H. apply fle_key; [done..|]. destruct (fkey x) as [[??]?]. simpl. lia. Qed.

Lemma fle_trans x y z : fle x y = true -> fle y z = true -> fle x z = true.
Proof.
  intros Hxy Hyz. destruct (fle_nan_false _ _ Hxy), (fle_nan_false _ _ Hyz).
  rewrite fle_key in * by done.
  destruct (fkey x) as [[??]?], (fkey y) as [[??]?], (fkey z) as [[??]?]. simpl in *. lia.
Qed.

(** Not above is at most, when neither side is NaN. *)
Lemma flt_false_fle x y : is_nan x = false -> is_nan y = false -> flt x y = false -> fle y x = true.
Proof.
  intros ?? H. apply fle_key; [done..|]. intros Hlt%flt_key; [congruence|done..].
Qed.

Lemma flt_fle x y : flt x y = true -> fle x y = true.
Proof.
  unfold flt, fle, SFltb, SFleb. by destruct (SFcompare x y) as [[]|].
Qed.

Lemma flt_irrefl x : flt x x = false.
Proof.
  destruct (is_nan x) eqn:E; [by destruct x|]. apply not_true_is_false.
  intros H%flt_key; [|done..]. destruct (fkey x) as [[??]?]. simpl in H. lia.
Qed.

#[export] Hint Resolve fle_refl fle_trans flt_fle : infermesh.

(** ** Clamps *)

Definition clamp_low (lo x : float64) : float64 := if flt x lo then lo else x.
Definition clamp_high (hi x : float64) : float64 := if flt hi x then hi else x.

(** A pair of clamps gives a value between the bounds, or lets a NaN through:
    every comparison with a NaN is false. *)
Lemma clamp_range lo hi x :
  is_nan lo = false -> is_nan hi = false -> fle lo hi = true -> is_nan x = false ->
  fle lo (clamp_high hi (clamp_low lo x)) = true /\ fle (clamp_high hi (clamp_low lo x)) hi = true.
Proof.
  intros Hlo Hhi Hle Hx. unfold clamp_high, clamp_low.
  destruct (flt x lo) eqn:E1.
  - destruct (flt hi lo) eqn:E2; auto with infermesh.
  - destruct (flt hi x) eqn:E2; [auto with infermesh|].
    split; apply flt_false_fle; done.
Qed.

Lemma clamp_nan lo hi : clamp_high hi (clamp_low lo S754_nan) = S754_nan.
Proof. unfold clamp_high, clamp_low. by rewrite flt_nan_l, flt_nan_r. Qed.

(** ** Signs: arithmetic on non-negative numbers gives no NaN *)

(** Not a NaN and not below zero. *)
Definition nonneg (x : float64) : Prop :=
  match x with
  | S754_zero _ | S754_infinity false | S754_finite false _ _ => True
  | _ => False
  end.

Definition finite (x : float64) : Prop :=
  match x with S754_zero _ | S754_finite _ _ _ => True | _ => False end.

Lemma nonneg_not_nan x : nonneg x -> is_nan x = false.
Proof. by destruct x. Qed.

Lemma nonneg_spec x : nonneg x <-> is_nan x = false /\ flt x f0 = false.
Proof. destruct x as [[]|[]| |[]]; simpl; split; try done; intros [??]; done. Qed.

Lemma shr_1_nonneg mrs : 0 <= shr_m mrs -> 0 <= shr_m (shr_1 mrs).
Proof. destruct mrs as [[|[]|[]] ??]; simpl; lia. Qed.

Lemma iter_pos_inv {A} (P : A -> Prop) (f : A -> A) n x :
  (forall a, P a -> P (f a)) -> P x -> P (iter_pos f n x).
Proof. intros Hf. revert x. induction n; simpl; auto. Qed.

Lemma shr_nonneg mrs e n : 0 <= shr_m mrs -> 0 <= shr_m (shr mrs e n).1.
Proof. intros H. destruct n; simpl; [done| |done]. apply iter_pos_inv; [apply shr_1_nonneg|done]. Qed.

Lemma shr_record_of_loc_m m l : shr_m (shr_record_of_loc m l) = m.
Proof. by destruct l as [|[]]. Qed.

Lemma round_nearest_even_nonneg m l : 0 <= m -> 0 <= round_nearest_even m l.
Proof. destruct l as [|[]]; simpl; try lia. case_if; lia. Qed.

Lemma binary_round_aux_sign s m e l :
  0 <= m ->
  match binary_round_aux 53 1024 s m e l with
  | S754_zero s' | S754_infinity s' | S754_finite s' _ _ => s' = s
  | S754_nan => False
  end.
Proof.
  intros Hm. unfold binary_round_aux, shr_fexp.
  pose proof (shr_nonneg (shr_record_of_loc m l) e (fexp 53 1024 (Zdigits2 m + e) - e)) as H1.
  rewrite shr_record_of_loc_m in H1. specialize (H1 Hm).
  destruct (shr _ e _) as [mrs' e'] eqn:E1. simpl in H1.
  set (m' := round_nearest_even _ _).
  assert (0 <= m') as Hm' by (by apply round_nearest_even_nonneg).
  pose proof (shr_nonneg (shr_record_of_loc m' loc_Exact) e' (fexp 53 1024 (Zdigits2 m' + e') - e')) as H2.
  rewrite shr_record_of_loc_m in H2. specialize (H2 Hm').
  destruct (shr _ e' _) as [mrs'' e''] eqn:E2. simpl in H2.
  destruct (shr_m mrs''); [done|by case_if|lia].
Qed.

Lemma binary_round_sign s m e :
  match binary_round 53 1024 s m e with
  | S754_zero s' | S754_infinity s' | S754_finite s' _ _ => s' = s
  | S754_nan => False
  end.
Proof.
  unfold binary_round. destruct (shl_align _ _ _). by apply binary_round_aux_sign.
Qed.

Lemma of_int_nonneg n : 0 <= n -> nonneg (of_int n).
Proof.
  intros H. unfold of_int, binary_normalize. destruct n; [done| |lia].
  pose proof (binary_round_sign false p 0). destruct (binary_round _ _ _ _ _); simpl; by subst.
Qed.

Lemma fmul_nonneg x y : nonneg x -> finite x -> nonneg y -> finite y -> nonneg (fmul x y).
Proof.
  destruct x as [|[]| |[]], y as [|[]| |[]]; try done. intros _ _ _ _. simpl.
  pose proof (binary_round_aux_sign false (Z.pos (m * m0)) (e + e0) loc_Exact).
  destruct (binary_round_aux _ _ _ _ _); simpl; naive_solver lia.
Qed.

Lemma fadd_nonneg x y : nonneg x -> nonneg y -> nonneg (fadd x y).
Proof.
  destruct x as [[]|[]| |[]], y as [[]|[]| |[]]; try done. intros _ _.
  unfold fadd, SFadd, binary_normalize.
  set (z := _ + _). assert (0 <= z) as Hz by (subst z; simpl; lia).
  destruct z; [done| |lia].
  pose proof (binary_round_sign false p (Z.min e e0)).
  destruct (binary_round _ _ _ _ _); simpl; naive_solver.
Qed.

Lemma fsub_zero_r x s : nonneg x -> nonneg (fsub x (S754_zero s)).
Proof. by destruct x as [[]|[]| |[]], s. Qed.

(** The difference of two finite numbers is not a NaN. *)
Lemma fsub_not_nan x y : finite x -> finite y -> is_nan (fsub x y) = false.
Proof.
  destruct x as [[]|[]| |s1 m1 e1], y as [[]|[]| |s2 m2 e2]; try done. intros _ _.
  unfold fsub, SFsub, binary_normalize. set (z := _ - _). destruct z as [|p|p]; [done|..].
  - pose proof (binary_round_sign false p (Z.min e1 e2)). by destruct (binary_round _ _ _ _ _).
  - pose proof (binary_round_sign true p (Z.min e1 e2)). by destruct (binary_round _ _ _ _ _).
Qed.

(** A non-negative number over a positive finite one. *)
Lemma fdiv_nonneg x m e : nonneg x -> nonneg (fdiv x (S754_finite false m e)).
Proof.
  destruct x as [|[]| |[] mx ex]; try done. intros _. unfold fdiv, SFdiv.
  assert (forall q e' l, SFdiv_core_binary 53 1024 (Z.pos mx) ex (Z.pos m) e = (q, e', l) -> 0 <= q) as Hq.
  { unfold SFdiv_core_binary. intros q e' l.
    set (m' := match _ with Z0 => _ | Zpos _ => _ | Zneg _ => _ end).
    assert (0 <= m') as Hm'.
    { subst m'. destruct (_ - _ - _); [lia| |lia]. apply Z.shiftl_nonneg. lia. }
    pose proof (Z.div_pos m' (Z.pos m) Hm' eq_refl) as Hd. unfold Z.div in Hd.
    destruct (Z.div_eucl m' (Z.pos m)). intros [= -> _ _]. done. }
  destruct (SFdiv_core_binary _ _ _ _ _ _) as [[q e'] l]. specialize (Hq _ _ _ eq_refl).
  pose proof (binary_round_aux_sign (xorb false false) q e' l Hq).
  destruct (binary_round_aux _ _ _ _ _); simpl in *; naive_solver.
Qed.

(** Between zero and a finite bound lie only finite non-negative numbers. *)
Lemma between_finite x b : fle f0 x = true -> fle x b = true -> finite b -> nonneg x /\ finite x.
Proof. destruct x as [[]|[]| |[]], b as [[]|[]| |[]]; done. Qed.

Lemma clamp01_finite x :
  is_nan x = false ->
  nonneg (clamp_high f1 (clamp_low f0 x)) /\ finite (clamp_high f1 (clamp_low f0 x)).
Proof.
  intros H. destruct (clamp_range f0 f1 x) as [H0 H1]; [done..|].
  by eapply between_finite.
Qed.

(** The minimum of a non-negative number and a finite one is finite. *)
Lemma math_min_finite x b :
  nonneg x -> nonneg b -> finite b -> nonneg (math_min x b) /\ finite (math_min x b).
Proof.
  intros Hx Hb Hf. unfold math_min.
  destruct x as [[]|[]| |[]], b as [[]|[]| |[]]; simpl in *; try done;
    destruct (flt _ _) eqn:E; done.
Qed.

#[export] Hint Resolve fmul_nonneg fadd_nonneg of_int_nonneg nonneg_not_nan : infermesh.

(** ** Small integers are exact *)

Lemma digits2_pos_iter_xO p k :
  digits2_pos (Pos.iter xO p k) = (digits2_pos p + k)%positive.
Proof.
  induction k using Pos.peano_ind; simpl; [lia|]. rewrite Pos.iter_succ. simpl. lia.
Qed.

Lemma digits2_pos_lower p : 2 ^ (Z.pos (digits2_pos p) - 1) <= Z.pos p.
Proof.
  induction p as [p IH|p IH|]; cbn [digits2_pos]; [..|done];
    rewrite Pos2Z.inj_succ; replace (Z.succ _ - 1) with (Z.succ (Z.pos (digits2_pos p) - 1)) by lia;
    rewrite Z.pow_succ_r by lia; lia.
Qed.

Lemma digits2_pos_bound p k : Z.pos p < 2 ^ k -> 0 <= k -> Z.pos (digits2_pos p) <= k.
Proof.
  intros Hp Hk. pose proof (digits2_pos_lower p) as H.
  destruct (decide (Z.pos (digits2_pos p) <= k)) as [|Hn]; [done|].
  pose proof (Z.pow_le_mono_r 2 k (Z.pos (digits2_pos p) - 1)). lia.
Qed.

(** A mantissa of exactly 53 digits at a normal exponent is not rounded. *)
Lemma binary_round_aux_exact s m e :
  Z.pos (digits2_pos m) = 53 -> -1074 <= e <= 971 ->
  binary_round_aux 53 1024 s (Z.pos m) e loc_Exact = S754_finite s m e.
Proof.
  intros Hd He.
  assert (forall mrs, shr_m mrs = Z.pos m -> shr mrs e (fexp 53 1024 (Z.pos (digits2_pos m) + e) - e) = (mrs, e)) as Hs.
  { intros mrs _. replace (fexp _ _ _ - e) with 0; [done|]. unfold fexp, emin. lia. }
  unfold binary_round_aux, shr_fexp. cbn [Zdigits2 shr_record_of_loc]. rewrite Hs by done. simpl.
  rewrite Hs by done. simpl. change (1024 - 53) with 971. by rewrite (proj2 (Z.leb_le e 971)) by lia.
Qed.

(** A positive integer below 2^53 converts to a positive finite number. *)
Lemma of_int_pos n : 0 < n < 2 ^ 53 -> exists m e, of_int n = S754_finite false m e.
Proof.
  intros Hn. destruct n as [|p|p]; [lia| |lia].
  pose proof (digits2_pos_bound p 53 ltac:(lia) ltac:(lia)) as Hd.
  unfold of_int, binary_normalize, binary_round.
  assert (fexp 53 1024 (Z.pos (digits2_pos p) + 0) = Z.pos (digits2_pos p) - 53) as -> by (unfold fexp, emin; lia).
  unfold shl_align. replace (Z.pos (digits2_pos p) - 53 - 0) with (Z.pos (digits2_pos p) - 53) by lia.
  destruct (Z.pos (digits2_pos p) - 53) as [|k|k] eqn:E; [|lia|].
  - exists p, 0. apply binary_round_aux_exact; lia.
  - exists (Pos.iter xO p k), (Z.neg k). apply binary_round_aux_exact; [|lia].
    rewrite digits2_pos_iter_xO. lia.
Qed.

(** A quotient of a count by a positive count is a non-negative number. *)
Lemma fdiv_int_nonneg x n : nonneg x -> 0 < n < 2 ^ 53 -> nonneg (fdiv x (of_int n)).
Proof. intros Hx Hn. destruct (of_int_pos n Hn) as (m & e & ->). by apply fdiv_nonneg. Qed.

#[export] Hint Resolve fdiv_int_nonneg : infermesh.
