(* ===== verification/GoStrings.v ===== *)
(** * GoStrings: the functions of Go's [strings] package the router uses

    A Go string is its bytes.  [TrimSpace] removes the UTF-8 encodings of the
    runes [unicode.IsSpace] accepts from both ends; [Split] and [Index] are at
    a one-byte separator; [Contains] looks for a substring. *)

From S2P Require Import Prelude.
From Stdlib Require Import Ascii.

#[local] Open Scope list_scope.

Abbreviation bytes := (list ascii) (only parsing).
Abbreviation to_bytes := String.list_ascii_of_string (only parsing).
Abbreviation of_bytes := String.string_of_list_ascii (only parsing).

Definition encoding (l : list nat) : bytes := map ascii_of_nat l.

(** The encodings of the white space runes: tab, newline, vertical tab, form
    feed, carriage return, space, U+0085, U+00A0, U+1680, U+2000 to U+200A,
    U+2028, U+2029, U+202F, U+205F and U+3000. *)
Definition spaces : list bytes :=
  map encoding
    ([[9]; [10]; [11]; [12]; [13]; [32]; [194; 133]; [194; 160]; [225; 154; 128]] ++
     map (fun n => [226; 128; n]) (seq 128 11) ++
     [[226; 128; 168]; [226; 128; 169]; [226; 128; 175]; [226; 129; 159]; [227; 128; 128]])%nat.

(** The rest of [l] after a prefix. *)
Fixpoint strip (p l : bytes) : option bytes :=
  match p, l with
  | [], _ => Some l
  | a :: p, b :: l => if ascii_dec a b then strip p l else None
  | _ :: _, [] => None
  end.

(** The rest of [l] after the first of [ps] it starts with. *)
Fixpoint strip_any (ps : list bytes) (l : bytes) : option bytes :=
  match ps with
  | [] => None
  | p :: ps => match strip p l with Some l' => Some l' | None => strip_any ps l end
  end.

Fixpoint trim_front (fuel : nat) (ps : list bytes) (l : bytes) : bytes :=
  match fuel with
  | O => l
  | S fuel => match strip_any ps l with Some l' => trim_front fuel ps l' | None => l end
  end.

(** The length is fuel enough: each step removes a byte. *)
Definition trim_left (ps : list bytes) (l : bytes) : bytes := trim_front (length l) ps l.

Definition trim_bytes (l : bytes) : bytes :=
  rev (trim_left (map (@rev ascii) spaces) (rev (trim_left spaces l))).

Definition TrimSpace (s : string) : string := of_bytes (trim_bytes (to_bytes s)).

(** [strings.Split(s, sep)] for a separator of one byte. *)
Fixpoint split_bytes (sep : ascii) (l : bytes) : list bytes :=
  match l with
  | [] => [[]]
  | c :: l =>
      match split_bytes sep l with
      | [] => [[c]]
      | p :: ps => if ascii_dec c sep then [] :: p :: ps else (c :: p) :: ps
      end
  end.

Definition Split (s : string) (sep : ascii) : list string := map of_bytes (split_bytes sep (to_bytes s)).

(** [s[:i]] and [s[i+1:]] for [i = strings.Index(s, sep)]; [None] for [i < 0]. *)
Fixpoint cut_bytes (sep : ascii) (l : bytes) : option (bytes * bytes) :=
  match l with
  | [] => None
  | c :: l =>
      if ascii_dec c sep then Some ([], l)
      else match cut_bytes sep l with Some (a, b) => Some (c :: a, b) | None => None end
  end.

Definition Cut (s : string) (sep : ascii) : option (string * string) :=
  match cut_bytes sep (to_bytes s) with Some (a, b) => Some (of_bytes a, of_bytes b) | None => None end.

(** [strings.Contains(s, sub)]. *)
Fixpoint contains_bytes (l sub : bytes) : bool :=
  match strip sub l with
  | Some _ => true
  | None => match l with [] => false | _ :: l => contains_bytes l sub end
  end.

Definition Contains (s sub : string) : bool := contains_bytes (to_bytes s) (to_bytes sub).

(** [strings.HasPrefix] and [strings.TrimPrefix]. *)
Definition HasPrefix (s p : string) : bool := if strip (to_bytes p) (to_bytes s) then true else false.
Definition TrimPrefix (s p : string) : string :=
  match strip (to_bytes p) (to_bytes s) with Some rest => of_bytes rest | None => s end.

(** [strings.TrimSuffix] and [strings.HasSuffix]. *)
Definition strip_suffix (p l : bytes) : option bytes := reverse <$> strip (reverse p) (reverse l).
Definition TrimSuffix (s p : string) : string :=
  match strip_suffix (to_bytes p) (to_bytes s) with Some l => of_bytes l | None => s end.
Definition HasSuffix (s p : string) : bool := if strip_suffix (to_bytes p) (to_bytes s) then true else false.

(** [strings.Fields]: the pieces between white space; the length is fuel enough. *)
Definition flush (cur : bytes) : list bytes := match cur with [] => [] | _ => [reverse cur] end.

Fixpoint fields_from (fuel : nat) (cur l : bytes) : list bytes :=
  match fuel, l with
  | S fuel, c :: l' =>
      match strip_any spaces l with
      | Some rest => flush cur ++ fields_from fuel [] rest
      | None => fields_from fuel (c :: cur) l'
      end
  | _, _ => flush cur
  end.

Definition Fields (s : string) : list string := map of_bytes (fields_from (String.length s) [] (to_bytes s)).

Example TrimSpace_ex : TrimSpace (String "009" " a b  ") = "a b".
Proof. reflexivity. Qed.

(** ** Trimming *)

Lemma strip_Some p l l' : strip p l = Some l' <-> l = p ++ l'.
Proof.
  revert l. induction p as [|a p IH]; intros [|b l]; simpl; try naive_solver.
  destruct (ascii_dec a b); naive_solver.
Qed.

Lemma strip_any_Some ps l l' : strip_any ps l = Some l' -> exists p, p ∈ ps /\ l = p ++ l'.
Proof.
  induction ps as [|p ps IH]; simpl; [done|]. destruct (strip p l) as [l''|] eqn:E.
  - intros [= ->]. exists p. split; [set_solver|by apply strip_Some].
  - intros (q & ? & ?)%IH. exists q. set_solver.
Qed.

Lemma strip_any_None ps l : strip_any ps l = None <-> forall p l', p ∈ ps -> l <> p ++ l'.
Proof.
  induction ps as [|p ps IH]; simpl; [split; [set_solver|done]|].
  destruct (strip p l) as [l'|] eqn:E.
  - split; [done|]. intros H. exfalso. apply (H p l'); [set_solver|by apply strip_Some].
  - rewrite IH. split; intros H q l' Hq; [|apply H; set_solver].
    apply elem_of_cons in Hq as [->|Hq]; [|by apply H]. intros ->. 
    assert (strip p (p ++ l') = Some l') by (by apply strip_Some). congruence.
Qed.

Section trim.
Context (ps : list bytes) (ps_nonempty : ~ [] ∈ ps).

Lemma trim_front_stable fuel l : (length l <= fuel)%nat -> strip_any ps (trim_front fuel ps l) = None.
Proof using ps_nonempty.
  revert l. induction fuel as [|fuel IH]; intros l Hl; simpl.
  - destruct l; [|simpl in Hl; lia]. apply strip_any_None. intros p l' Hp H.
    symmetry in H. apply app_eq_nil in H as [-> _]. by apply ps_nonempty.
  - destruct (strip_any ps l) as [l'|] eqn:E; [|done]. apply IH.
    apply strip_any_Some in E as (p & Hp & ->). destruct p as [|a p]; [by destruct ps_nonempty|].
    rewrite length_app in Hl. simpl in Hl. lia.
Qed.

Lemma trim_left_stable l : strip_any ps (trim_left ps l) = None.
Proof using ps_nonempty. by apply trim_front_stable. Qed.

Lemma trim_left_id l : strip_any ps l = None -> trim_left ps l = l.
Proof. unfold trim_left. destruct l; simpl; [done|]. by intros ->. Qed.

(** What is removed is made of encodings. *)
Lemma trim_left_suffix l : exists q, l = concat q ++ trim_left ps l /\ Forall (.∈ ps) q.
Proof.
  unfold trim_left. generalize (length l). intros n. revert l.
  induction n as [|n IH]; intros l; simpl; [by exists []|].
  destruct (strip_any ps l) as [l'|] eqn:E; [|by exists []].
  apply strip_any_Some in E as (p & Hp & ->). destruct (IH l') as (q & Hq & Hall).
  exists (p :: q). split; [simpl; by rewrite <-(assoc_L (++)), <-Hq|by constructor].
Qed.
End trim.

(** [l] neither starts nor ends with white space. *)
Definition trimmed_bytes (l : bytes) : Prop :=
  strip_any spaces l = None /\ strip_any (map (@rev ascii) spaces) (rev l) = None.

Lemma no_nil (ps : list bytes) :
  forallb (fun p => match p with [] => false | _ => true end) ps = true -> ~ [] ∈ ps.
Proof. rewrite forallb_forall. intros H Hin. apply list_elem_of_In in Hin. by specialize (H _ Hin). Qed.

Lemma spaces_nonempty : (~ [] ∈ spaces) /\ (~ [] ∈ map (@rev ascii) spaces).
Proof. split; by apply no_nil. Qed.

Lemma trim_bytes_id l : trimmed_bytes l -> trim_bytes l = l.
Proof. intros [H1 H2]. unfold trim_bytes. rewrite (trim_left_id spaces l H1), trim_left_id by done. apply rev_involutive. Qed.

Lemma trim_bytes_trimmed l : trimmed_bytes (trim_bytes l).
Proof.
  unfold trim_bytes, trimmed_bytes. rewrite rev_involutive.
  split; [|apply trim_left_stable, spaces_nonempty].
  pose proof (trim_left_stable spaces ltac:(apply spaces_nonempty) l) as H.
  destruct (trim_left_suffix (map (@rev ascii) spaces) (rev (trim_left spaces l))) as (q & Hq & _).
  apply strip_any_None. intros p l' Hp He. pose proof (proj1 (strip_any_None _ _) H p (l' ++ rev (concat q)) Hp) as Hn.
  apply Hn. rewrite (assoc_L (++)), <-He, <-rev_app_distr, <-Hq. by rewrite rev_involutive.
Qed.

Lemma trim_bytes_idemp l : trim_bytes (trim_bytes l) = trim_bytes l.
Proof. apply trim_bytes_id, trim_bytes_trimmed. Qed.

Lemma TrimSpace_idemp s : TrimSpace (TrimSpace s) = TrimSpace s.
Proof. unfold TrimSpace. by rewrite String.list_ascii_of_string_of_list_ascii, trim_bytes_idemp. Qed.

Lemma TrimSpace_id s : trimmed_bytes (to_bytes s) -> TrimSpace s = s.
Proof. intros H. unfold TrimSpace. by rewrite trim_bytes_id, String.string_of_list_ascii_of_string. Qed.

Lemma TrimSpace_id_inv s : TrimSpace s = s -> trimmed_bytes (to_bytes s).
Proof.
  intros H. rewrite <-H. unfold TrimSpace. rewrite String.list_ascii_of_string_of_list_ascii. apply trim_bytes_trimmed.
Qed.

(** A byte that is part of no white space rune stops the trimming. *)
Definition solid (c : ascii) : Prop := forall p, p ∈ spaces -> ~ c ∈ p.

Lemma solid_dec_true c : forallb (fun p => negb (bool_decide (c ∈ p))) spaces = true -> solid c.
Proof.
  rewrite forallb_forall. intros H p Hp. apply list_elem_of_In, H in Hp.
  by apply negb_true_iff, bool_decide_eq_false in Hp.
Qed.

Lemma elem_of_rev {A} (l : list A) x : x ∈ rev l <-> x ∈ l.
Proof. by rewrite !list_elem_of_In, <-in_rev. Qed.

Lemma solid_rev c p : solid c -> p ∈ map (@rev ascii) spaces -> ~ c ∈ p.
Proof.
  intros Hc. rewrite list_elem_of_fmap. intros (q & -> & Hq). rewrite elem_of_rev. by apply Hc.
Qed.

Lemma strip_any_app ps k c v :
  (forall p, p ∈ ps -> ~ c ∈ p) -> strip_any ps k = None -> strip_any ps (k ++ c :: v) = None.
Proof.
  intros Hc Hk. rewrite strip_any_None in *. intros p l' Hp He.
  apply app_eq_app in He as (m & [[-> Hm]|[-> Hm]]); [by eapply Hk|].
  destruct m as [|c' m]; [apply (Hk k []); by rewrite ?app_nil_r in *|].
  injection Hm as <- _. apply (Hc _ Hp). set_solver.
Qed.

Lemma trimmed_app k c v :
  solid c -> trimmed_bytes k -> trimmed_bytes v -> trimmed_bytes (k ++ c :: v).
Proof.
  intros Hc [Hk _] [_ Hv]. split; [by apply strip_any_app|].
  rewrite rev_app_distr. change (rev (c :: v)) with (rev v ++ [c]). rewrite <-(assoc_L (++)).
  change ([c] ++ rev k) with (c :: rev k).
  apply strip_any_app; [|done]. intros p. by apply solid_rev.
Qed.

Lemma trim_left_keeps ps c l : (forall p, p ∈ ps -> ~ c ∈ p) -> c ∈ l -> c ∈ trim_left ps l.
Proof.
  intros Hc. destruct (trim_left_suffix ps l) as (q & Hq & Hall). rewrite Hq at 1.
  intros [H|H]%elem_of_app; [|done]. exfalso. clear Hq.
  induction Hall as [|p q Hp _ IH]; simpl in H; [by apply elem_of_nil in H|].
  apply elem_of_app in H as [H|H]; [by eapply Hc|by apply IH].
Qed.

Lemma trim_bytes_keeps c l : solid c -> c ∈ l -> c ∈ trim_bytes l.
Proof.
  intros Hc Hin. unfold trim_bytes. rewrite elem_of_rev.
  apply trim_left_keeps; [intros p; by apply solid_rev|].
  rewrite elem_of_rev. by apply trim_left_keeps.
Qed.

(** ** Fields *)

Definition word (l : bytes) : Prop := l <> [] /\ Forall solid l.

Lemma solid_no_space c l : solid c -> strip_any spaces (c :: l) = None.
Proof.
  intros Hc. apply strip_any_None. intros p l' Hp He. destruct p as [|a p]; [by destruct spaces_nonempty|].
  injection He as <- _. apply (Hc _ Hp). set_solver.
Qed.

Lemma fields_word w : forall fuel cur l, Forall solid w -> fields_from (length w + fuel) cur (w ++ l) = fields_from fuel (reverse w ++ cur) l.
Proof.
  induction w as [|c w IH]; intros fuel cur l Hw; [done|]. inversion Hw as [|? ? Hc Hw']; subst. cbn [length Nat.add app fields_from].
  rewrite solid_no_space by done. rewrite IH by done. by rewrite reverse_cons, <-(assoc_L (++)).
Qed.

Lemma flush_word w : word w -> flush (reverse w) = [w].
Proof.
  intros [Hw _]. unfold flush. destruct (reverse w) as [|c l] eqn:E.
  - apply (f_equal reverse) in E. rewrite reverse_involutive in E. done.
  - by rewrite <-E, reverse_involutive.
Qed.

Definition space : ascii := ascii_of_nat 32.

Lemma fields_skip k : forall fuel l, fields_from (k + fuel) [] (repeat space k ++ l) = fields_from fuel [] l.
Proof. induction k as [|k IH]; intros fuel l; [done|]. apply IH. Qed.

(** A word, spaces and the rest. *)
Lemma fields_gap w k fuel l :
  word w -> fields_from (length w + (S k + fuel)) [] (w ++ repeat space (S k) ++ l) = w :: fields_from fuel [] l.
Proof.
  intros Hw. rewrite fields_word by apply Hw. rewrite app_nil_r. cbn [Nat.add repeat app fields_from].
  change (strip_any spaces (space :: repeat space k ++ l)) with (Some (repeat space k ++ l)). rewrite flush_word by done.
  simpl. f_equal. apply fields_skip.
Qed.

Lemma fields_last w fuel : word w -> fields_from (length w + fuel) [] w = [w].
Proof.
  intros Hw. rewrite <-(app_nil_r w) at 2. rewrite fields_word by apply Hw. rewrite app_nil_r. destruct fuel; by apply flush_word.
Qed.

(** Text between two solid bytes is not trimmed. *)
Lemma trimmed_solid a l b : solid a -> solid b -> trimmed_bytes (a :: l ++ [b]).
Proof.
  intros Ha Hb. split; [by apply solid_no_space|]. change (rev (a :: l ++ [b])) with (rev (l ++ [b]) ++ [a]). rewrite rev_app_distr. change (rev [b]) with [b]. cbn [app].
  apply strip_any_None. intros p l' Hp He. destruct p as [|c p]; [by apply (proj2 spaces_nonempty)|].
  injection He as <- _. apply (solid_rev _ _ Hb Hp). set_solver.
Qed.

Lemma trimmed_words w m v : word w -> word v -> trimmed_bytes (w ++ m ++ v).
Proof.
  intros [Hw Hsw] [Hv Hsv]. destruct w as [|a w]; [done|]. destruct v as [|b v _] using rev_ind; [done|].
  apply Forall_cons in Hsw as [Ha _]. rewrite Forall_app, Forall_singleton in Hsv. destruct Hsv as [_ Hb].
  replace ((a :: w) ++ m ++ v ++ [b]) with (a :: (w ++ m ++ v) ++ [b]) by (simpl; by rewrite <-!(assoc_L (++))).
  exact (trimmed_solid _ _ _ Ha Hb).
Qed.

(** ** Splitting *)

Lemma split_bytes_cons sep l : exists p ps, split_bytes sep l = p :: ps.
Proof.
  induction l as [|c l (p & ps & IH)]; simpl; [by eexists _, _|]. rewrite IH.
  destruct (ascii_dec c sep); by eexists _, _.
Qed.

Lemma split_bytes_last sep a : ~ sep ∈ a -> split_bytes sep a = [a].
Proof.
  induction a as [|c a IH]; simpl; intros H; [done|]. rewrite IH by set_solver.
  destruct (ascii_dec c sep) as [->|]; [set_solver|done].
Qed.

Lemma split_bytes_app sep a b : ~ sep ∈ a -> split_bytes sep (a ++ sep :: b) = a :: split_bytes sep b.
Proof.
  induction a as [|c a IH]; simpl; intros H.
  - destruct (split_bytes_cons sep b) as (p & ps & ->). destruct (ascii_dec sep sep); done.
  - rewrite IH by set_solver. destruct (ascii_dec c sep) as [->|]; [set_solver|done].
Qed.

Lemma cut_bytes_app sep a b : ~ sep ∈ a -> cut_bytes sep (a ++ sep :: b) = Some (a, b).
Proof.
  induction a as [|c a IH]; simpl; intros H.
  - by destruct (ascii_dec sep sep).
  - rewrite IH by set_solver. destruct (ascii_dec c sep) as [->|]; [set_solver|done].
Qed.

Lemma cut_bytes_Some sep l a b : cut_bytes sep l = Some (a, b) -> l = a ++ sep :: b /\ ~ sep ∈ a.
Proof.
  revert a b. induction l as [|c l IH]; simpl; intros a b; [done|].
  destruct (ascii_dec c sep) as [->|Hne]; [intros [= <- <-]; split; [done|set_solver]|].
  destruct (cut_bytes sep l) as [[a' b']|]; [|done]. intros [= <- <-].
  destruct (IH a' b' eq_refl) as [-> ?]. split; [done|set_solver].
Qed.

Lemma to_bytes_app s t : to_bytes (s +:+ t) = to_bytes s ++ to_bytes t.
Proof. induction s as [|c s IH]; simpl; [done|]. by rewrite IH. Qed.

Lemma of_to_bytes s : of_bytes (to_bytes s) = s.
Proof. apply String.string_of_list_ascii_of_string. Qed.

Lemma to_of_bytes l : to_bytes (of_bytes l) = l.
Proof. apply String.list_ascii_of_string_of_list_ascii. Qed.

Lemma append_assoc (s t u : string) : (s +:+ t) +:+ u = s +:+ (t +:+ u).
Proof. rewrite <-(of_to_bytes ((s +:+ t) +:+ u)), <-(of_to_bytes (s +:+ (t +:+ u))). f_equal. by rewrite !to_bytes_app, (assoc_L (++)). Qed.

#[export] Hint Rewrite to_bytes_app of_to_bytes to_of_bytes : infermesh.

Lemma to_bytes_nil s : to_bytes s = [] <-> s = "".
Proof. by destruct s. Qed.

Lemma Contains_spec s sub : Contains s sub = true <-> exists a b, s = a +:+ sub +:+ b.
Proof.
  unfold Contains. assert (H : forall l p, contains_bytes l p = true <-> exists a b, l = a ++ p ++ b).
  { intros l p. induction l as [|c l IH]; simpl.
    - destruct (strip p []) as [r|] eqn:E.
      + apply strip_Some in E. split; [intros _; by exists [], r|done].
      + split; [done|]. intros (a & b & H). symmetry in H. apply app_eq_nil in H as [_ [-> _]%app_eq_nil]. done.
    - destruct (strip p (c :: l)) as [r|] eqn:E.
      + apply strip_Some in E. split; [intros _; by exists [], r|done].
      + rewrite IH. split; intros (a & b & H); [exists (c :: a), b; by rewrite H|].
        destruct a as [|c' a]; simpl in H; [|by simplify_eq; exists a, b].
        assert (strip p (c :: l) = Some b) by (by apply strip_Some). congruence. }
  rewrite H. split; intros (a & b & Hs).
  - exists (of_bytes a), (of_bytes b). rewrite <-(of_to_bytes s), <-(of_to_bytes sub), Hs.
    rewrite <-(of_to_bytes (of_bytes a +:+ _)). rewrite !to_bytes_app, !to_of_bytes. done.
  - exists (to_bytes a), (to_bytes b). by rewrite Hs, !to_bytes_app.
Qed.

Lemma TrimSuffix_cases s p : TrimSuffix s p = s \/ s = TrimSuffix s p +:+ p.
Proof.
  unfold TrimSuffix, strip_suffix. destruct (strip _ _) as [l|] eqn:E; simpl; [|by left]. right.
  apply strip_Some in E. apply (f_equal reverse) in E. rewrite reverse_app, !reverse_involutive in E.
  rewrite <-(of_to_bytes s) at 1. rewrite E. rewrite <-(of_to_bytes (_ +:+ p)). by rewrite to_bytes_app, to_of_bytes.
Qed.
