(* ===== verification/Numerals.v ===== *)
(** * Numerals: decimal integers as [strconv] reads and writes them

    [strconv.Itoa] is [pretty]; [Atoi] reads an optional sign and decimal digits,
    within the range of a machine integer, and inverts it. *)

From S2P Require Import Prelude GoStrings.
From stdpp Require Import pretty.
From Stdlib Require Import Ascii.

#[local] Open Scope Z_scope.

Definition digit (c : ascii) : option N :=
  let n := N_of_ascii c in if (48 <=? n)%N && (n <=? 57)%N then Some (n - 48)%N else None.

(** The value of digits after [acc]. *)
Fixpoint digits (s : string) (acc : N) : option N :=
  match s with
  | String.EmptyString => Some acc
  | String.String c s => d ← digit c; digits s (acc * 10 + d)%N
  end.

Definition unsigned (s : string) : option N := if String.eqb s "" then None else digits s 0.

Definition in_range (z : Z) : option Z := if (min_int64 <=? z) && (z <=? max_int64) then Some z else None.

Definition Atoi (s : string) : option Z :=
  match s with
  | String.String "-" s => n ← unsigned s; in_range (- Z.of_N n)
  | String.String "+" s => n ← unsigned s; in_range (Z.of_N n)
  | _ => n ← unsigned s; in_range (Z.of_N n)
  end.

Lemma digit_char x : (x < 10)%N -> digit (pretty_N_char x) = Some x.
Proof.
  intros Hx. assert (x = 0 \/ x = 1 \/ x = 2 \/ x = 3 \/ x = 4 \/ x = 5 \/ x = 6 \/ x = 7 \/ x = 8 \/ x = 9)%N as H by lia.
  by repeat destruct H as [->|H]; [..|subst x].
Qed.

Lemma digits_go x s : digits (pretty_N_go x s) 0 = digits s x.
Proof.
  revert s. induction (N.lt_wf_0 x) as [x _ IH]; intros s.
  destruct (decide (x = 0%N)) as [->|Hx]; [by rewrite pretty_N_go_0|].
  rewrite pretty_N_go_step by lia. rewrite IH by (apply N.div_lt; lia). cbn [digits].
  rewrite digit_char by (by apply N.mod_lt). cbn. f_equal. pose proof (N.div_mod x 10 ltac:(done)). lia.
Qed.

Lemma go_nonempty x s : s <> "" -> pretty_N_go x s <> "".
Proof.
  revert s. induction (N.lt_wf_0 x) as [x _ IH]; intros s Hs.
  destruct (decide (x = 0%N)) as [->|Hx]; [by rewrite pretty_N_go_0|].
  rewrite pretty_N_go_step by lia. apply IH; [apply N.div_lt; lia|done].
Qed.

Lemma unsigned_pretty (n : N) : unsigned (pretty n) = Some n.
Proof.
  unfold unsigned, pretty, pretty_N. case_decide as Hn; [by subst|].
  assert (Hne : pretty_N_go n "" <> "").
  { rewrite pretty_N_go_step by lia. by apply go_nonempty. }
  apply String.eqb_neq in Hne. rewrite Hne. apply digits_go.
Qed.

(** The digits of a number do not begin with a sign. *)
Lemma go_head x s :
  (forall c s', s = String.String c s' -> digit c <> None) -> forall c s', pretty_N_go x s = String.String c s' -> digit c <> None.
Proof.
  revert s. induction (N.lt_wf_0 x) as [x _ IH]; intros s Hs.
  destruct (decide (x = 0%N)) as [->|Hx]; [by rewrite pretty_N_go_0|].
  rewrite pretty_N_go_step by lia. apply IH; [apply N.div_lt; lia|].
  intros c s' [= <- _]. rewrite digit_char by (by apply N.mod_lt). done.
Qed.

Lemma Atoi_unsigned (n : N) : Atoi (pretty n) = in_range (Z.of_N n).
Proof.
  pose proof (unsigned_pretty n) as Hu.
  assert (Hd : forall c s', pretty n = String.String c s' -> digit c <> None).
  { unfold pretty, pretty_N. case_decide; [by intros c s' [= <- _]|]. by apply go_head. }
  destruct (pretty n) as [|c s] eqn:E; [done|]. specialize (Hd c s eq_refl). unfold Atoi.
  destruct c as [[] [] [] [] [] [] [] []]; try done; by rewrite Hu.
Qed.

(** Reading what was written. *)
Lemma Atoi_pretty (n : Z) : in_int64 n -> Atoi (pretty n) = Some n.
Proof.
  intros Hn. assert (Hr : in_range n = Some n).
  { unfold in_range. unfold in_int64 in Hn. destruct (Z.leb_spec min_int64 n), (Z.leb_spec n max_int64); simpl; done || lia. }
  destruct n as [|p|p]; [done| |].
  - change (pretty (Z.pos p)) with (pretty (N.pos p)). by rewrite Atoi_unsigned.
  - change (pretty (Z.neg p)) with (String.String "-" (pretty (N.pos p))).
    unfold Atoi. rewrite unsigned_pretty. exact Hr.
Qed.

(** [strconv.ParseInt(s, 10, 64)]: the value and whether there is no error.  A value
    out of range is the nearest one in range. *)
Definition saturate (z : Z) : Z * bool :=
  if z <? min_int64 then (min_int64, false) else if max_int64 <? z then (max_int64, false) else (z, true).

Definition ParseInt (s : string) : Z * bool :=
  let read (neg : bool) (s : string) :=
    match unsigned s with None => (0, false) | Some n => saturate (if neg then - Z.of_N n else Z.of_N n) end in
  match s with
  | String.String "-" s => read true s
  | String.String "+" s => read false s
  | _ => read false s
  end.

Lemma ParseInt_unsigned (s : string) n : unsigned s = Some n -> ParseInt s = saturate (Z.of_N n).
Proof.
  intros Hs. assert (Hd : forall c s', s = String.String c s' -> digit c <> None).
  { intros c s' ->. unfold unsigned in Hs. simpl in Hs. by destruct (digit c). }
  destruct s as [|c s']; [done|]. specialize (Hd c s' eq_refl). unfold ParseInt.
  destruct c as [[] [] [] [] [] [] [] []]; try done; by rewrite Hs.
Qed.

Lemma ParseInt_pretty (n : N) : Z.of_N n <= max_int64 -> ParseInt (pretty n) = (Z.of_N n, true).
Proof.
  intros Hn. rewrite (ParseInt_unsigned _ n) by apply unsigned_pretty. unfold saturate.
  destruct (Z.ltb_spec (Z.of_N n) min_int64), (Z.ltb_spec max_int64 (Z.of_N n)); unfold min_int64 in *; done || lia.
Qed.

(** A byte that is no digit spoils a number. *)
Lemma digits_spoilt c s t acc : digit c = None -> digits (s +:+ String.String c t) acc = None.
Proof. intros Hc. revert acc. induction s as [|a s IH]; intros acc; simpl; [by rewrite Hc|]. destruct (digit a); [apply IH|done]. Qed.

Lemma ParseInt_spoilt c (n : N) t : digit c = None -> ParseInt (pretty n +:+ String.String c t) = (0, false).
Proof.
  intros Hc. assert (Hu : forall s, unsigned (s +:+ String.String c t) = None).
  { intros s. unfold unsigned. case_match; [done|]. by apply digits_spoilt. }
  assert (Hd : forall a s', pretty n = String.String a s' -> digit a <> None).
  { unfold pretty, pretty_N. case_decide; [by intros a s' [= <- _]|]. by apply go_head. }
  pose proof (unsigned_pretty n) as Hn. destruct (pretty n) as [|a s']; [done|]. specialize (Hd a s' eq_refl).
  unfold ParseInt. specialize (Hu (String.String a s')). destruct a as [[] [] [] [] [] [] [] []]; try done; by rewrite Hu.
Qed.
