(* ===== verification/Errors.v ===== *)
(** * Errors: Go error values

    An error is a sentinel, a worker's HTTP failure, a fresh message, or a
    [fmt.Errorf] that wraps others with [%w].  [errors.Is] and [errors.As] walk
    the wrapping tree depth first.  Message texts are not modelled: no decision
    of the router reads them.  The worker reads the texts of its backend's
    errors; those are the errors of [Backend]. *)

From S2P Require Import Prelude.

Inductive sentinel :=
| ErrNoMatchingWorkers
| ErrAllWorkersUnavailable
| ErrNoCapacity
| ErrWorkerUnavailable
| errRateLimited
| errConnLimit
| errConnClosed
| errWorkerInferenceError
| errRelayDisconnected
| errRelayQueueFull
| errTimeout
| errAllAttemptsFailed
| context_Canceled
| context_DeadlineExceeded.

#[export] Instance sentinel_eq_dec : EqDecision sentinel.
Proof. solve_decision. Defined.

Inductive goerr :=
| Sentinel (s : sentinel)
| WorkerHTTPError (status : Z)
| ErrorsNew (msg : string)
| Wrap (es : list goerr).

(** [errors.Is(err, target)] for a sentinel target. *)
Fixpoint errors_Is (target : sentinel) (e : goerr) : bool :=
  match e with
  | Sentinel s => bool_decide (s = target)
  | WorkerHTTPError _ | ErrorsNew _ => false
  | Wrap es => existsb (errors_Is target) es
  end.

(** [errors.As(err, &herr)] for [*WorkerHTTPError]: the status of the first one
    met in the depth-first walk. *)
Fixpoint errors_As_HTTP (e : goerr) : option Z :=
  match e with
  | WorkerHTTPError c => Some c
  | Sentinel _ | ErrorsNew _ => None
  | Wrap es =>
      (fix go l := match l with
                   | [] => None
                   | x :: l' => match errors_As_HTTP x with Some c => Some c | None => go l' end
                   end) es
  end.

Definition result (A : Type) : Type := A + goerr.

Lemma errors_Is_Wrap t es : errors_Is t (Wrap es) = true <-> exists e, e ∈ es /\ errors_Is t e = true.
Proof.
  simpl. rewrite existsb_exists. split; intros (e & H & ?); exists e;
    [rewrite list_elem_of_In|rewrite <- list_elem_of_In]; done.
Qed.

Lemma errors_Is_wrap2 t s e : errors_Is t (Wrap [Sentinel s; e]) = bool_decide (s = t) || errors_Is t e.
Proof. simpl. by rewrite orb_false_r. Qed.

Lemma errors_Is_wrap1 t s : errors_Is t (Wrap [Sentinel s]) = bool_decide (s = t).
Proof. simpl. by rewrite orb_false_r. Qed.
