(* ===== verification/Http.v ===== *)
(** * Http: the response of an HTTP handler ([net/http])

    A [ResponseWriter] as its content type, the status line once it is sent and
    what was written to the body.  The handlers of the router ([Proxy]) and of
    the worker ([WorkerServer]) write to it. *)

From S2P Require Import Prelude.

(** What is written to the body: bytes, an error object of the router (its
    code), an error object of the worker or the text of [http.Error] (its
    message). *)
Inductive written := Data (s : string) | ErrorObject (code : string) | ErrorMap (msg : string) | ErrorText (msg : string).

(** [rw_status] is the status line once it is sent. *)
Record ResponseWriter := mkWriter { rw_type : string; rw_status : option Z; rw_body : list written }.

Definition new_writer : ResponseWriter := mkWriter "" None [].

Definition set_type (t : string) (w : ResponseWriter) : ResponseWriter := mkWriter t (rw_status w) (rw_body w).

(** Only the first call counts. *)
Definition WriteHeader (code : Z) (w : ResponseWriter) : ResponseWriter :=
  match rw_status w with Some _ => w | None => mkWriter (rw_type w) (Some code) (rw_body w) end.

(** A write sends the status 200 when there is none. *)
Definition Write (x : written) (w : ResponseWriter) : ResponseWriter :=
  let w := WriteHeader 200 w in mkWriter (rw_type w) (rw_status w) (rw_body w ++ [x]).

(** [http.Error(w, msg, code)]. *)
Definition http_Error (msg : string) (code : Z) (w : ResponseWriter) : ResponseWriter :=
  Write (ErrorText msg) (WriteHeader code (set_type "text/plain; charset=utf-8" w)).

Lemma Write_started x t cs : Write x (mkWriter t (Some 200) cs) = mkWriter t (Some 200) (cs ++ [x]).
Proof. done. Qed.

Lemma Write_first x w : rw_status w = None -> Write x w = mkWriter (rw_type w) (Some 200) (rw_body w ++ [x]).
Proof. intros Hs. unfold Write, WriteHeader. by rewrite Hs. Qed.
