(* ===== verification/Protocol.v ===== *)
(** * Protocol: the shared wire types ([pkg/protocol])

    The records of [worker.go], [api.go] and [ws.go] field by field, their zero
    values, the functional updates the handlers make, and the operations of
    [serialize.go].  JSON encoding is a parameter ([JSON]). *)

From S2P Require Import Prelude GoFloat.

(** ** Worker description ([worker.go]) *)

(** A Go string type: any string can come off the wire. *)
Abbreviation WorkerStatus := string (only parsing).

Definition StatusAvailable : WorkerStatus := "available".
Definition StatusBusy : WorkerStatus := "busy".
Definition StatusUnassigned : WorkerStatus := "unassigned".
Definition StatusUnavailable : WorkerStatus := "unavailable".

Definition TransportHTTP : string := "http".
Definition TransportWS : string := "ws".

Record GPUInfo := {
  gpu_Vendor : string;
  gpu_Model : string;
  gpu_ComputeCore : Z;
  gpu_TotalVRAM : Z;
  gpu_FreeVRAM : Z;
}.

Record MemoryInfo := {
  mem_TotalMB : Z;
  mem_FreeMB : Z;
}.

Record ModelInfo := {
  mi_Name : string;
  mi_Size : Z;
  mi_Quantization : string;
  mi_MaxTokens : Z;
  mi_Backend : string;
  mi_Loaded : bool;
}.

Record InferenceStatsSnapshot := {
  iss_Model : string;
  iss_TokensPerSecond : float64;
  iss_AvgTTFTMs : float64;
  iss_AvgPromptTokens : float64;
  iss_AvgCompletionTokens : float64;
  iss_Samples : Z;
}.

Record Capabilities := {
  cap_GPU : GPUInfo;
  cap_Models : list ModelInfo;
  cap_Engines : list string;
  cap_VRAM : MemoryInfo;
  cap_System : MemoryInfo;
  cap_AllowedModels : list string;
  cap_ExcludedModels : list string;
  cap_ConcurrencyCap : Z;
  cap_Threads : Z;
  cap_InferenceStats : list InferenceStatsSnapshot;
}.

Record WorkerInfo := {
  wi_ID : string;
  wi_Hostname : string;
  wi_IP : string;
  wi_Port : Z;
  wi_Capabilities : Capabilities;
  wi_Status : WorkerStatus;
  wi_Version : string;
  wi_Transport : string;
  wi_APIKey : string;
  wi_LastSeen : Time;
}.

#[export] Instance float64_eq_dec : EqDecision float64.
Proof. solve_decision. Defined.
#[export] Instance GPUInfo_eq_dec : EqDecision GPUInfo.
Proof. solve_decision. Defined.
#[export] Instance MemoryInfo_eq_dec : EqDecision MemoryInfo.
Proof. solve_decision. Defined.
#[export] Instance ModelInfo_eq_dec : EqDecision ModelInfo.
Proof. solve_decision. Defined.
#[export] Instance InferenceStatsSnapshot_eq_dec : EqDecision InferenceStatsSnapshot.
Proof. solve_decision. Defined.
#[export] Instance Capabilities_eq_dec : EqDecision Capabilities.
Proof. solve_decision. Defined.
#[export] Instance WorkerInfo_eq_dec : EqDecision WorkerInfo.
Proof. solve_decision. Defined.

(** Zero values. *)
Definition zero_GPUInfo : GPUInfo :=
  {| gpu_Vendor := ""; gpu_Model := ""; gpu_ComputeCore := 0; gpu_TotalVRAM := 0; gpu_FreeVRAM := 0 |}.
Definition zero_MemoryInfo : MemoryInfo := {| mem_TotalMB := 0; mem_FreeMB := 0 |}.
Definition zero_Capabilities : Capabilities :=
  {| cap_GPU := zero_GPUInfo; cap_Models := []; cap_Engines := []; cap_VRAM := zero_MemoryInfo;
     cap_System := zero_MemoryInfo; cap_AllowedModels := []; cap_ExcludedModels := [];
     cap_ConcurrencyCap := 0; cap_Threads := 0; cap_InferenceStats := [] |}.
Definition zero_WorkerInfo : WorkerInfo :=
  {| wi_ID := ""; wi_Hostname := ""; wi_IP := ""; wi_Port := 0; wi_Capabilities := zero_Capabilities;
     wi_Status := ""; wi_Version := ""; wi_Transport := ""; wi_APIKey := ""; wi_LastSeen := zero_time |}.

(** Assignments to a field of a worker or model held by value. *)
Definition with_LastSeen (t : Time) (w : WorkerInfo) : WorkerInfo :=
  {| wi_ID := wi_ID w; wi_Hostname := wi_Hostname w; wi_IP := wi_IP w; wi_Port := wi_Port w;
     wi_Capabilities := wi_Capabilities w; wi_Status := wi_Status w; wi_Version := wi_Version w;
     wi_Transport := wi_Transport w; wi_APIKey := wi_APIKey w; wi_LastSeen := t |}.
Definition with_Status (s : WorkerStatus) (w : WorkerInfo) : WorkerInfo :=
  {| wi_ID := wi_ID w; wi_Hostname := wi_Hostname w; wi_IP := wi_IP w; wi_Port := wi_Port w;
     wi_Capabilities := wi_Capabilities w; wi_Status := s; wi_Version := wi_Version w;
     wi_Transport := wi_Transport w; wi_APIKey := wi_APIKey w; wi_LastSeen := wi_LastSeen w |}.
Definition with_Capabilities (c : Capabilities) (w : WorkerInfo) : WorkerInfo :=
  {| wi_ID := wi_ID w; wi_Hostname := wi_Hostname w; wi_IP := wi_IP w; wi_Port := wi_Port w;
     wi_Capabilities := c; wi_Status := wi_Status w; wi_Version := wi_Version w;
     wi_Transport := wi_Transport w; wi_APIKey := wi_APIKey w; wi_LastSeen := wi_LastSeen w |}.
Definition with_Transport (t : string) (w : WorkerInfo) : WorkerInfo :=
  {| wi_ID := wi_ID w; wi_Hostname := wi_Hostname w; wi_IP := wi_IP w; wi_Port := wi_Port w;
     wi_Capabilities := wi_Capabilities w; wi_Status := wi_Status w; wi_Version := wi_Version w;
     wi_Transport := t; wi_APIKey := wi_APIKey w; wi_LastSeen := wi_LastSeen w |}.
Definition with_IP (ip : string) (w : WorkerInfo) : WorkerInfo :=
  {| wi_ID := wi_ID w; wi_Hostname := wi_Hostname w; wi_IP := ip; wi_Port := wi_Port w;
     wi_Capabilities := wi_Capabilities w; wi_Status := wi_Status w; wi_Version := wi_Version w;
     wi_Transport := wi_Transport w; wi_APIKey := wi_APIKey w; wi_LastSeen := wi_LastSeen w |}.
Definition with_ID (id : string) (w : WorkerInfo) : WorkerInfo :=
  {| wi_ID := id; wi_Hostname := wi_Hostname w; wi_IP := wi_IP w; wi_Port := wi_Port w;
     wi_Capabilities := wi_Capabilities w; wi_Status := wi_Status w; wi_Version := wi_Version w;
     wi_Transport := wi_Transport w; wi_APIKey := wi_APIKey w; wi_LastSeen := wi_LastSeen w |}.
Definition with_Models (ms : list ModelInfo) (c : Capabilities) : Capabilities :=
  {| cap_GPU := cap_GPU c; cap_Models := ms; cap_Engines := cap_Engines c; cap_VRAM := cap_VRAM c;
     cap_System := cap_System c; cap_AllowedModels := cap_AllowedModels c;
     cap_ExcludedModels := cap_ExcludedModels c; cap_ConcurrencyCap := cap_ConcurrencyCap c;
     cap_Threads := cap_Threads c; cap_InferenceStats := cap_InferenceStats c |}.
Definition with_Loaded (b : bool) (m : ModelInfo) : ModelInfo :=
  {| mi_Name := mi_Name m; mi_Size := mi_Size m; mi_Quantization := mi_Quantization m;
     mi_MaxTokens := mi_MaxTokens m; mi_Backend := mi_Backend m; mi_Loaded := b |}.

(** ** Discovery events *)

Inductive DiscoveryEventType :=
| EventAdded
| EventUpdated
| EventRemoved
| EventExpired
| EventOther (s : string).

Record DiscoveryEvent := {
  de_Type : DiscoveryEventType;
  de_Worker : WorkerInfo;
  de_Time : Time;
}.

(** The payload of an mDNS TXT record. *)
Record DiscoveryInfo := {
  di_ID : string;
  di_Hostname : string;
  di_IP : string;
  di_Port : Z;
  di_Version : string;
  di_Status : WorkerStatus;
}.

Definition ToWorkerInfo (d : DiscoveryInfo) : WorkerInfo :=
  {| wi_ID := di_ID d; wi_Hostname := di_Hostname d; wi_IP := di_IP d; wi_Port := di_Port d;
     wi_Capabilities := zero_Capabilities; wi_Status := di_Status d; wi_Version := di_Version d;
     wi_Transport := ""; wi_APIKey := ""; wi_LastSeen := zero_time |}.

(** ** Requests ([api.go]) *)

Record ChatMessage := { cm_Role : string; cm_Content : string }.

Record ChatRequest := {
  cr_Model : string;
  cr_Messages : list ChatMessage;
  cr_Stream : bool;
  cr_MaxTokens : Z;
  cr_Temperature : float64;
}.

Record CompletionRequest := {
  cq_Model : string;
  cq_Prompt : string;
  cq_MaxTokens : Z;
  cq_Temperature : float64;
  cq_Stream : bool;
}.

(** The [InferenceRequest] interface and its two implementations. *)
Class InferenceRequest (T : Type) := {
  GetModel : T -> string;
  SetModel : string -> T -> T;
  GetStream : T -> bool;
}.

#[export] Instance ChatRequest_InferenceRequest : InferenceRequest ChatRequest := {
  GetModel r := cr_Model r;
  SetModel m r := {| cr_Model := m; cr_Messages := cr_Messages r; cr_Stream := cr_Stream r;
                     cr_MaxTokens := cr_MaxTokens r; cr_Temperature := cr_Temperature r |};
  GetStream r := cr_Stream r;
}.

#[export] Instance CompletionRequest_InferenceRequest : InferenceRequest CompletionRequest := {
  GetModel r := cq_Model r;
  SetModel m r := {| cq_Model := m; cq_Prompt := cq_Prompt r; cq_MaxTokens := cq_MaxTokens r;
                     cq_Temperature := cq_Temperature r; cq_Stream := cq_Stream r |};
  GetStream r := cq_Stream r;
}.

(** ** WebSocket messages ([ws.go]) *)

Inductive MessageType :=
| MsgRegister | MsgWelcome | MsgHeartbeat | MsgCapabilities
| MsgInferenceRequest | MsgInferenceChunk | MsgInferenceResponse | MsgInferenceCancel
| MsgModelLoadRequest | MsgModelLoadResponse
| MsgPing | MsgError | MsgClose | MsgRouterReady
| MsgOther (s : string).

#[export] Instance MessageType_eq_dec : EqDecision MessageType.
Proof. solve_decision. Defined.

Record RegisterPayload := { rp_Worker : WorkerInfo; rp_Relay : bool }.
Record HeartbeatPayload := { hp_Worker : WorkerInfo }.
Record CapabilitiesPayload := { cp_WorkerID : string; cp_Capabilities : Capabilities }.
Record ErrorPayload := { ep_Message : string; ep_Code : string; ep_ID : string }.

(** [json.RawMessage] is its bytes; nil and empty are not told apart, since the
    code only asks for the length. *)
Abbreviation raw := string (only parsing).

Record WelcomePayload := { wp_WorkerID : string; wp_Superseded : bool; wp_Message : string }.
Record InferenceRequestPayload := { irq_Kind : string; irq_Model : string; irq_Body : raw }.
Record InferenceChunkPayload := { icp_Kind : string; icp_Chunk : raw }.
Record InferenceResponsePayload := { irp_Kind : string; irp_Done : bool; irp_Error : string; irp_Response : raw }.
Record InferenceCancelPayload := { ican_ID : string }.
Record ModelLoadRequestPayload := { mlq_Model : string }.
Record ModelLoadResponsePayload := { mlr_Model : string; mlr_Loaded : bool; mlr_Error : string }.
Record PingPayload := { pp_Timestamp : Z }.
Record ClosePayload := { clp_Reason : string }.

(** The payloads a message is built from ([NewMessage]). *)
Inductive Payload :=
| PRegister (p : RegisterPayload) | PWelcome (p : WelcomePayload) | PHeartbeat (p : HeartbeatPayload)
| PCapabilities (p : CapabilitiesPayload) | PInferenceRequest (p : InferenceRequestPayload)
| PInferenceChunk (p : InferenceChunkPayload) | PInferenceResponse (p : InferenceResponsePayload)
| PInferenceCancel (p : InferenceCancelPayload) | PModelLoadRequest (p : ModelLoadRequestPayload)
| PModelLoadResponse (p : ModelLoadResponsePayload) | PPing (p : PingPayload) | PError (p : ErrorPayload)
| PClose (p : ClosePayload).

(** [encoding/json] on the payloads: [None] is an error. *)
Class JSON := {
  decode_register : raw -> option RegisterPayload;
  decode_heartbeat : raw -> option HeartbeatPayload;
  decode_capabilities : raw -> option CapabilitiesPayload;
  decode_error : raw -> option ErrorPayload;
  decode_inference_request : raw -> option InferenceRequestPayload;
  decode_chunk : raw -> option InferenceChunkPayload;
  decode_response : raw -> option InferenceResponsePayload;
  decode_cancel : raw -> option InferenceCancelPayload;
  decode_model_load_request : raw -> option ModelLoadRequestPayload;
  decode_model_load_response : raw -> option ModelLoadResponsePayload;
  decode_close : raw -> option ClosePayload;
  marshal_payload : Payload -> option raw;
}.

Record Message := {
  msg_ID : string;
  msg_Type : MessageType;
  msg_WorkerID : string;
  msg_Payload : raw;
}.

Definition zero_Message : Message := {| msg_ID := ""; msg_Type := MsgOther ""; msg_WorkerID := ""; msg_Payload := "" |}.

#[export] Instance Message_eq_dec : EqDecision Message.
Proof. solve_decision. Defined.

(** [NewMessage(mt, payload)] with the identifier it draws. *)
Definition NewMessage {J : JSON} (id : string) (mt : MessageType) (payload : option Payload) : option Message :=
  match payload with
  | None => Some {| msg_ID := id; msg_Type := mt; msg_WorkerID := ""; msg_Payload := "" |}
  | Some p =>
      match marshal_payload p with
      | None => None
      | Some data => Some {| msg_ID := id; msg_Type := mt; msg_WorkerID := ""; msg_Payload := data |}
      end
  end.

(** [m.DecodePayload(&v)] with [v] at its zero value: an empty payload leaves
    it there. *)
Definition DecodePayload {T} (zero : T) (decode : raw -> option T) (m : Message) : option T :=
  if decide (msg_Payload m = "") then Some zero else decode (msg_Payload m).

Definition with_WorkerID (id : string) (m : Message) : Message :=
  {| msg_ID := msg_ID m; msg_Type := msg_Type m; msg_WorkerID := id; msg_Payload := msg_Payload m |}.
Definition with_Payload (p : raw) (m : Message) : Message :=
  {| msg_ID := msg_ID m; msg_Type := msg_Type m; msg_WorkerID := msg_WorkerID m; msg_Payload := p |}.

Definition zero_RegisterPayload : RegisterPayload := {| rp_Worker := zero_WorkerInfo; rp_Relay := false |}.
Definition zero_HeartbeatPayload : HeartbeatPayload := {| hp_Worker := zero_WorkerInfo |}.
Definition zero_CapabilitiesPayload : CapabilitiesPayload :=
  {| cp_WorkerID := ""; cp_Capabilities := zero_Capabilities |}.
Definition zero_ErrorPayload : ErrorPayload := {| ep_Message := ""; ep_Code := ""; ep_ID := "" |}.
Definition zero_ChunkPayload : InferenceChunkPayload := {| icp_Kind := ""; icp_Chunk := "" |}.
Definition zero_RequestPayload : InferenceRequestPayload := {| irq_Kind := ""; irq_Model := ""; irq_Body := "" |}.
Definition zero_ResponsePayload : InferenceResponsePayload :=
  {| irp_Kind := ""; irp_Done := false; irp_Error := ""; irp_Response := "" |}.
Definition zero_CancelPayload : InferenceCancelPayload := {| ican_ID := "" |}.
Definition zero_ModelLoadRequest : ModelLoadRequestPayload := {| mlq_Model := "" |}.
Definition zero_ModelLoadResponse : ModelLoadResponsePayload := {| mlr_Model := ""; mlr_Loaded := false; mlr_Error := "" |}.
Definition zero_ClosePayload : ClosePayload := {| clp_Reason := "" |}.

(** ** Transport ([internal/wsutil]) *)

(** The capacity of every send queue and stream channel. *)
Definition SendQueueSize : nat := 256.

(** ** TXT records ([serialize.go]) *)

Definition MaxTXTRecordLength : Z := 255.

(** [None] is success, [Some n] the error for a string of [n] bytes. *)
Definition ValidateTXTRecord (s : string) : option Z :=
  let n := Z.of_nat (String.length s) in
  if n >? MaxTXTRecordLength then Some n else None.

Inductive serialize_result := SerOK (s : string) | SerMarshalErr | SerTooLong (n : Z).

Definition SerializeDiscoveryInfo (marshal : DiscoveryInfo -> option string) (d : DiscoveryInfo) : serialize_result :=
  match marshal d with
  | None => SerMarshalErr
  | Some s =>
      match ValidateTXTRecord s with
      | Some n => SerTooLong n
      | None => SerOK s
      end
  end.

(** Every setter leaves the identity of the worker alone but [with_ID]. *)
Lemma wi_ID_setters t s c tr ip w :
  wi_ID (with_LastSeen t w) = wi_ID w /\ wi_ID (with_Status s w) = wi_ID w /\
  wi_ID (with_Capabilities c w) = wi_ID w /\ wi_ID (with_Transport tr w) = wi_ID w /\
  wi_ID (with_IP ip w) = wi_ID w.
Proof. done. Qed.
