(* ===== verification/Registry.v ===== *)
(** * Registry: the in-memory worker registry ([internal/registry])

    [memoryRegistry] as a record: the worker table, the subscriber list, the
    heap of subscriber channels and the failure counters.  Each method is a
    function of the state and of the instant [time.Now()] returned; a range over
    the worker map takes the iteration order as an argument, so a theorem for
    every order is a theorem for every run.  The receive of a subscriber is a
    step of the environment. *)

From S2P Require Import Prelude GoFloat Protocol.

(** ** Configuration ([config.go]) *)

Record Config := {
  cfg_UnavailableTTL : Duration;
  cfg_RemoveTTL : Duration;
  cfg_CheckInterval : Duration;
}.

Definition Defaults : Config :=
  {| cfg_UnavailableTTL := 60 * second; cfg_RemoveTTL := 120 * second; cfg_CheckInterval := 5 * second |}.

Inductive config_error := ErrUnavailableTTL | ErrRemoveTTL | ErrCheckInterval.

Definition Validate (c : Config) : option config_error :=
  if cfg_UnavailableTTL c <? 1 * second then Some ErrUnavailableTTL
  else if cfg_RemoveTTL c <? cfg_UnavailableTTL c then Some ErrRemoveTTL
  else if cfg_CheckInterval c <? 500 * millisecond then Some ErrCheckInterval
  else None.

(** ** Events ([registry.go]) *)

(** [EventZero] is the empty type of the zero [Event] that [pruneSubs] sends. *)
Inductive EventType := RegisterAdded | RegistryUpdated | RegistryUnavailable | RegistryRemoved | EventZero.

#[export] Instance EventType_eq_dec : EqDecision EventType.
Proof. solve_decision. Defined.

Record Event := { ev_Type : EventType; ev_Worker : WorkerInfo }.

Definition zero_Event : Event := {| ev_Type := EventZero; ev_Worker := zero_WorkerInfo |}.

(** ** State ([memory.go]) *)

Record workerState := {
  ws_info : WorkerInfo;
  ws_lastSeen : Time;
  ws_available : bool;
}.

(** A channel is named by a number; [mr_chans] holds what is queued in it. *)
Record memoryRegistry := {
  mr_cfg : Config;
  mr_workers : gmap string workerState;
  mr_subs : list nat;
  mr_chans : gmap nat (list Event);
  mr_subFailures : gmap nat Z;
}.

Definition with_workers (ws : gmap string workerState) (r : memoryRegistry) : memoryRegistry :=
  {| mr_cfg := mr_cfg r; mr_workers := ws; mr_subs := mr_subs r; mr_chans := mr_chans r;
     mr_subFailures := mr_subFailures r |}.
Definition with_chans (cs : gmap nat (list Event)) (r : memoryRegistry) : memoryRegistry :=
  {| mr_cfg := mr_cfg r; mr_workers := mr_workers r; mr_subs := mr_subs r; mr_chans := cs;
     mr_subFailures := mr_subFailures r |}.

Definition New (c : Config) : memoryRegistry + config_error :=
  match Validate c with
  | Some e => inr e
  | None => inl {| mr_cfg := c; mr_workers := ∅; mr_subs := []; mr_chans := ∅; mr_subFailures := ∅ |}
  end.

(** Capacity of a subscription channel. *)
Definition subCap : nat := 32.

Definition maxSubFailures : Z := 12.

Definition Subscribe (r : memoryRegistry) : memoryRegistry * nat :=
  let ch := fresh (dom (mr_chans r)) in
  ({| mr_cfg := mr_cfg r; mr_workers := mr_workers r; mr_subs := mr_subs r ++ [ch];
      mr_chans := <[ch := []]> (mr_chans r); mr_subFailures := mr_subFailures r |}, ch).

(** Non-blocking send on channel [ch]: the new channel heap, or [None] when full. *)
Definition chan_send (cs : gmap nat (list Event)) (ch : nat) (e : Event) : option (gmap nat (list Event)) :=
  buf' ← try_send subCap e (default [] (cs !! ch)); Some (<[ch := buf']> cs).

Definition broadcast1 (e : Event) (cs : gmap nat (list Event)) (ch : nat) : gmap nat (list Event) :=
  match chan_send cs ch e with
  | Some cs' => cs'
  | None => cs
  end.

Definition broadcast (e : Event) (r : memoryRegistry) : memoryRegistry :=
  with_chans (foldl (broadcast1 e) (mr_chans r) (mr_subs r)) r.

(** ** Event handling *)

Definition HandleEvent (now : Time) (event : DiscoveryEvent) (r : memoryRegistry) : memoryRegistry :=
  let id := wi_ID (de_Worker event) in
  let state := mr_workers r !! id in
  let worker := with_LastSeen now (de_Worker event) in
  match de_Type event with
  | EventAdded | EventUpdated =>
      let ws' := {| ws_info := worker; ws_lastSeen := now; ws_available := true |} in
      let r' := with_workers (<[id := ws']> (mr_workers r)) r in
      match state with
      | None => broadcast {| ev_Type := RegisterAdded; ev_Worker := worker |} r'
      | Some st =>
          if negb (bool_decide (wi_Status (ws_info st) = StatusAvailable))
          then broadcast {| ev_Type := RegisterAdded; ev_Worker := worker |} r'
          else broadcast {| ev_Type := RegistryUpdated; ev_Worker := worker |} r'
      end
  | EventRemoved =>
      match state with
      | None => r
      | Some _ =>
          broadcast {| ev_Type := RegistryRemoved; ev_Worker := worker |}
            (with_workers (delete id (mr_workers r)) r)
      end
  | EventExpired =>
      match state with
      | None => r
      | Some st =>
          if ws_available st then
            let info' := with_Status StatusUnavailable (ws_info st) in
            let st' := {| ws_info := info'; ws_lastSeen := ws_lastSeen st; ws_available := false |} in
            broadcast {| ev_Type := RegistryUnavailable; ev_Worker := info' |}
              (with_workers (<[id := st']> (mr_workers r)) r)
          else r
      end
  | EventOther _ => r
  end.

(** ** The sweep *)

(** One iteration of the range loop of [checkStale], at worker [id]. *)
Definition checkStale1 (now : Time) (r : memoryRegistry) (id : string) : memoryRegistry :=
  match mr_workers r !! id with
  | None => r
  | Some st =>
      let since := time_sub now (ws_lastSeen st) in
      if cfg_RemoveTTL (mr_cfg r) <=? since then
        with_workers (delete id (mr_workers r))
          (broadcast {| ev_Type := RegistryRemoved; ev_Worker := ws_info st |} r)
      else if (cfg_UnavailableTTL (mr_cfg r) <=? since) && ws_available st then
        let info' := with_Status StatusUnavailable (ws_info st) in
        let st' := {| ws_info := info'; ws_lastSeen := ws_lastSeen st; ws_available := false |} in
        broadcast {| ev_Type := RegistryUnavailable; ev_Worker := info' |}
          (with_workers (<[id := st']> (mr_workers r)) r)
      else r
  end.

(** [order] is the order the range over the worker map visits its keys in. *)
Definition checkStale (now : Time) (order : list string) (r : memoryRegistry) : memoryRegistry :=
  foldl (checkStale1 now) r order.

Definition pruneSubs1 (acc : list nat * gmap nat (list Event) * gmap nat Z) (ch : nat) :
    list nat * gmap nat (list Event) * gmap nat Z :=
  let '(kept, cs, fails) := acc in
  match chan_send cs ch zero_Event with
  | Some cs' => (kept ++ [ch], cs', <[ch := 0]> fails)
  | None =>
      let failures := default 0 (fails !! ch) in
      if failures <? maxSubFailures then (kept ++ [ch], cs, <[ch := failures + 1]> fails)
      else (kept, cs, delete ch fails)
  end.

Definition pruneSubs (r : memoryRegistry) : memoryRegistry :=
  let '(kept, cs, fails) := foldl pruneSubs1 ([], mr_chans r, mr_subFailures r) (mr_subs r) in
  {| mr_cfg := mr_cfg r; mr_workers := mr_workers r; mr_subs := kept; mr_chans := cs;
     mr_subFailures := fails |}.

(** The body of [sweepLoop] at a tick. *)
Definition sweep (now : Time) (order : list string) (r : memoryRegistry) : memoryRegistry :=
  pruneSubs (checkStale now order r).

(** ** Queries *)

Definition Get (r : memoryRegistry) (id : string) : WorkerInfo * bool :=
  match mr_workers r !! id with
  | None => (zero_WorkerInfo, false)
  | Some st => (ws_info st, true)
  end.

(** [order] lists the table in the order the range visits it. *)
Definition List_ (order : list (string * workerState)) : list WorkerInfo :=
  (fun p => ws_info p.2) <$> order.

Definition ListAvailable (order : list (string * workerState)) : list WorkerInfo :=
  (fun p => ws_info p.2) <$> List.filter (fun p => ws_available p.2) order.

(** ** Runs

    The calls of the program on one registry, and a subscriber receiving. *)
Inductive rop :=
| OpEvent (now : Time) (e : DiscoveryEvent)
| OpSweep (now : Time) (order : list string)
| OpSubscribe
| OpReceive (ch : nat).

Definition exec (r : memoryRegistry) (o : rop) : memoryRegistry :=
  match o with
  | OpEvent now e => HandleEvent now e r
  | OpSweep now order => sweep now order r
  | OpSubscribe => (Subscribe r).1
  | OpReceive ch => with_chans (alter tail ch (mr_chans r)) r
  end.

(** The iteration order of a sweep is an enumeration of the table's keys. *)
Definition valid_op (r : memoryRegistry) (o : rop) : Prop :=
  match o with
  | OpSweep _ order => order ≡ₚ elements (dom (mr_workers r))
  | _ => True
  end.

Inductive rstep : memoryRegistry -> memoryRegistry -> Prop :=
| step_op o r : valid_op r o -> rstep r (exec r o).

Inductive run : memoryRegistry -> list rop -> memoryRegistry -> Prop :=
| run_nil r : run r [] r
| run_cons r o ops r' : valid_op r o -> run (exec r o) ops r' -> run r (o :: ops) r'.

Definition reachable (c : Config) (r : memoryRegistry) : Prop :=
  exists r0, New c = inl r0 /\ rtc rstep r0 r.

(** ** Specification: one automaton per worker

    What the registry promises about a worker does not mention the others, the
    subscribers or the order of a sweep: each operation moves the entry of one
    worker (absent, available, unavailable) on its own. *)

Definition expire (st : workerState) : workerState :=
  {| ws_info := with_Status StatusUnavailable (ws_info st); ws_lastSeen := ws_lastSeen st;
     ws_available := false |}.

Definition track_event (now : Time) (e : DiscoveryEvent) (st : option workerState) : option workerState :=
  match de_Type e with
  | EventAdded | EventUpdated =>
      Some {| ws_info := with_LastSeen now (de_Worker e); ws_lastSeen := now; ws_available := true |}
  | EventRemoved => None
  | EventExpired => (fun st => if ws_available st then expire st else st) <$> st
  | EventOther _ => st
  end.

Definition track_sweep (c : Config) (now : Time) (st : workerState) : option workerState :=
  let since := time_sub now (ws_lastSeen st) in
  if cfg_RemoveTTL c <=? since then None
  else if (cfg_UnavailableTTL c <=? since) && ws_available st then Some (expire st)
  else Some st.

Definition track (c : Config) (id : string) (st : option workerState) (o : rop) : option workerState :=
  match o with
  | OpEvent now e => if bool_decide (wi_ID (de_Worker e) = id) then track_event now e st else st
  | OpSweep now _ => st ≫= track_sweep c now
  | OpSubscribe | OpReceive _ => st
  end.

(** The registry event an announcement gives rise to. *)
Definition notification (now : Time) (e : DiscoveryEvent) (st : option workerState) : option Event :=
  let worker := with_LastSeen now (de_Worker e) in
  match de_Type e, st with
  | (EventAdded | EventUpdated), None => Some {| ev_Type := RegisterAdded; ev_Worker := worker |}
  | (EventAdded | EventUpdated), Some st =>
      Some {| ev_Type := if bool_decide (wi_Status (ws_info st) = StatusAvailable)
                         then RegistryUpdated else RegisterAdded;
              ev_Worker := worker |}
  | EventRemoved, Some _ => Some {| ev_Type := RegistryRemoved; ev_Worker := worker |}
  | EventExpired, Some st =>
      if ws_available st
      then Some {| ev_Type := RegistryUnavailable; ev_Worker := with_Status StatusUnavailable (ws_info st) |}
      else None
  | _, _ => None
  end.

(** ** Channels and broadcast *)

Lemma chan_send_Some cs ch e cs' :
  chan_send cs ch e = Some cs' <->
  (length (default [] (cs !! ch)) < subCap)%nat /\ cs' = <[ch := default [] (cs !! ch) ++ [e]]> cs.
Proof.
  unfold chan_send. split.
  - intros (buf & [? ->]%try_send_Some & [= <-])%bind_Some. done.
  - intros [? ->]. apply bind_Some. eexists. by rewrite try_send_Some.
Qed.

Lemma chan_send_None cs ch e :
  chan_send cs ch e = None <-> (subCap <= length (default [] (cs !! ch)))%nat.
Proof.
  unfold chan_send. rewrite <- try_send_None with (x := e).
  destruct (try_send _ _ _); simpl; naive_solver.
Qed.

(** What one broadcast leaves in a channel. *)
Definition delivered (e : Event) (buf : list Event) : list Event :=
  if (length buf <? subCap)%nat then buf ++ [e] else buf.

Lemma delivered_length e buf : (length buf <= subCap)%nat -> (length (delivered e buf) <= subCap)%nat.
Proof.
  unfold delivered. destruct (Nat.ltb_spec (length buf) subCap); [|done].
  rewrite length_app. simpl. lia.
Qed.

Lemma broadcast1_lookup e cs ch ch' :
  ch ∈ dom cs ->
  broadcast1 e cs ch !! ch' = if decide (ch = ch') then delivered e <$> cs !! ch' else cs !! ch'.
Proof.
  intros [buf Hbuf]%elem_of_dom. unfold broadcast1, delivered.
  destruct (chan_send cs ch e) as [cs'|] eqn:E.
  - apply chan_send_Some in E as [Hlen ->]. rewrite Hbuf in *. simpl in *.
    destruct (decide (ch = ch')) as [<-|]; simplify_map_eq; [|done].
    by rewrite (proj2 (Nat.ltb_lt _ _) Hlen).
  - apply chan_send_None in E. rewrite Hbuf in E. simpl in E.
    destruct (decide (ch = ch')) as [<-|]; [|done]. rewrite Hbuf. simpl.
    by rewrite (proj2 (Nat.ltb_ge _ _) E).
Qed.

Lemma broadcast1_dom e cs ch : ch ∈ dom cs -> dom (broadcast1 e cs ch) = dom cs.
Proof.
  intros H. unfold broadcast1. destruct (chan_send cs ch e) eqn:E; [|done].
  apply chan_send_Some in E as [_ ->]. rewrite dom_insert_L. set_solver.
Qed.

Lemma broadcast_fold_lookup e subs cs ch :
  NoDup subs -> Forall (fun c => c ∈ dom cs) subs ->
  foldl (broadcast1 e) cs subs !! ch =
    if decide (ch ∈ subs) then delivered e <$> cs !! ch else cs !! ch.
Proof.
  revert cs. induction subs as [|c subs IH]; intros cs Hnd Hin; cbn [foldl].
  { case_decide; [set_solver|done]. }
  apply NoDup_cons in Hnd as [Hc Hnd]. apply Forall_cons in Hin as [Hcd Hin].
  rewrite IH; [|done|by rewrite broadcast1_dom].
  rewrite broadcast1_lookup by done.
  repeat case_decide; subst; try done; set_solver.
Qed.

Lemma broadcast_fold_dom e subs cs :
  Forall (fun c => c ∈ dom cs) subs -> dom (foldl (broadcast1 e) cs subs) = dom cs.
Proof.
  revert cs. induction subs as [|c subs IH]; intros cs Hin; simpl; [done|].
  apply Forall_cons in Hin as [Hcd Hin].
  rewrite IH; by rewrite broadcast1_dom.
Qed.

(** ** Well-formedness *)

(** The table of workers. *)
Record wf_workers (ws : gmap string workerState) : Prop := {
  wf_key id st : ws !! id = Some st -> wi_ID (ws_info st) = id;
  wf_seen id st : ws !! id = Some st -> wi_LastSeen (ws_info st) = ws_lastSeen st;
  wf_unavailable id st :
    ws !! id = Some st -> ws_available st = false -> wi_Status (ws_info st) = StatusUnavailable;
}.

(** The subscribers: distinct live channels, bounded buffers and counters. *)
Record wf_subs (subs : list nat) (cs : gmap nat (list Event)) (fails : gmap nat Z) : Prop := {
  wf_nodup : NoDup subs;
  wf_dom : Forall (fun c => c ∈ dom cs) subs;
  wf_buf ch buf : cs !! ch = Some buf -> (length buf <= subCap)%nat;
  wf_fail ch n : fails !! ch = Some n -> 0 <= n <= maxSubFailures;
}.

Definition wf (r : memoryRegistry) : Prop :=
  wf_workers (mr_workers r) /\ wf_subs (mr_subs r) (mr_chans r) (mr_subFailures r).

Lemma wf_workers_insert ws id st :
  wf_workers ws -> wi_ID (ws_info st) = id -> wi_LastSeen (ws_info st) = ws_lastSeen st ->
  (ws_available st = false -> wi_Status (ws_info st) = StatusUnavailable) ->
  wf_workers (<[id := st]> ws).
Proof.
  intros [H1 H2 H3] ???. split; intros id' st'; (destruct (decide (id = id')) as [<-|];
    [rewrite lookup_insert_eq; intros [= <-]; auto|rewrite lookup_insert_ne by done; eauto]).
Qed.

Lemma wf_workers_delete ws id : wf_workers ws -> wf_workers (delete id ws).
Proof.
  intros [H1 H2 H3]. split; intros id' st' [? ?]%lookup_delete_Some; eauto.
Qed.

Lemma wf_workers_expire ws id st :
  wf_workers ws -> ws !! id = Some st ->
  wf_workers (<[id := {| ws_info := with_Status StatusUnavailable (ws_info st);
                         ws_lastSeen := ws_lastSeen st; ws_available := false |}]> ws).
Proof.
  intros H Hst. apply wf_workers_insert; simpl; [done|by eapply wf_key|by eapply wf_seen|done].
Qed.

Lemma wf_subs_broadcast e subs cs fails :
  wf_subs subs cs fails -> wf_subs subs (foldl (broadcast1 e) cs subs) fails.
Proof.
  intros [H1 H2 H3 H4]. split; [done|by rewrite broadcast_fold_dom| |done].
  intros ch buf. rewrite broadcast_fold_lookup by done.
  case_decide; [|by apply H3]. intros (b & ? & ->)%fmap_Some. eauto using delivered_length.
Qed.

#[export] Hint Resolve wf_workers_insert wf_workers_delete wf_workers_expire wf_subs_broadcast : infermesh.

Lemma wf_HandleEvent now e r : wf r -> wf (HandleEvent now e r).
Proof.
  intros [Hw Hs]. unfold HandleEvent.
  assert (wf_workers (<[wi_ID (de_Worker e) := {| ws_info := with_LastSeen now (de_Worker e);
            ws_lastSeen := now; ws_available := true |}]> (mr_workers r))) as Hins
    by (by apply wf_workers_insert).
  destruct (de_Type e); [| | | |done];
    destruct (mr_workers r !! wi_ID (de_Worker e)) eqn:E; try done;
    try (case_if; try done); split; simpl; eauto with infermesh.
Qed.

Lemma wf_checkStale1 now r id : wf r -> wf (checkStale1 now r id).
Proof.
  intros [Hw Hs]. unfold checkStale1. destruct (mr_workers r !! id) eqn:E; [|done].
  repeat (case_if; try done); split; simpl; eauto with infermesh.
Qed.

Lemma wf_checkStale now order r : wf r -> wf (checkStale now order r).
Proof.
  unfold checkStale. revert r. induction order; simpl; intros r H; [done|].
  apply IHorder. by apply wf_checkStale1.
Qed.

(** *** Pruning subscribers *)

Definition full (cs : gmap nat (list Event)) (ch : nat) : bool :=
  negb (length (default [] (cs !! ch)) <? subCap)%nat.

Definition keep_sub (cs : gmap nat (list Event)) (fails : gmap nat Z) (ch : nat) : bool :=
  negb (full cs ch) || (default 0 (fails !! ch) <? maxSubFailures).

(** The failure counter of a subscriber after a probe. *)
Definition next_fail (cs : gmap nat (list Event)) (fails : gmap nat Z) (ch : nat) : option Z :=
  if full cs ch then
    if default 0 (fails !! ch) <? maxSubFailures then Some (default 0 (fails !! ch) + 1) else None
  else Some 0.

Lemma pruneSubs1_spec kept cs fails ch :
  exists cs' fails',
    pruneSubs1 (kept, cs, fails) ch =
      (if keep_sub cs fails ch then kept ++ [ch] else kept, cs', fails') /\
    cs' = broadcast1 zero_Event cs ch /\
    (forall c, fails' !! c = if decide (c = ch) then next_fail cs fails ch else fails !! c).
Proof.
  unfold pruneSubs1, keep_sub, next_fail, full, broadcast1.
  destruct (chan_send cs ch zero_Event) as [cs'|] eqn:E.
  - apply chan_send_Some in E as [Hlen _].
    rewrite (proj2 (Nat.ltb_lt _ _) Hlen). simpl.
    do 2 eexists. split; [done|]. split; [done|]. intros c.
    case_decide; subst; simplify_map_eq; done.
  - apply chan_send_None in E. rewrite (proj2 (Nat.ltb_ge _ _) E). simpl.
    case_if; do 2 eexists; (split; [done|]; split; [done|]); intros c;
      case_decide; subst; simplify_map_eq; done.
Qed.

Lemma keep_sub_ext cs cs' fails fails' ch :
  cs' !! ch = cs !! ch -> fails' !! ch = fails !! ch ->
  keep_sub cs' fails' ch = keep_sub cs fails ch /\ next_fail cs' fails' ch = next_fail cs fails ch.
Proof. unfold keep_sub, next_fail, full. by intros -> ->. Qed.

Lemma pruneSubs_fold kept subs cs fails :
  NoDup subs -> Forall (fun c => c ∈ dom cs) subs ->
  exists cs' fails',
    foldl pruneSubs1 (kept, cs, fails) subs =
      (kept ++ List.filter (keep_sub cs fails) subs, cs', fails') /\
    cs' = foldl (broadcast1 zero_Event) cs subs /\
    (forall ch, fails' !! ch = if decide (ch ∈ subs) then next_fail cs fails ch else fails !! ch).
Proof.
  revert kept cs fails. induction subs as [|c subs IH]; intros kept cs fails Hnd Hin; cbn [foldl].
  { exists cs, fails. cbn [List.filter]. rewrite app_nil_r. split; [done|]. split; [done|].
    intros ch. case_decide; [set_solver|done]. }
  apply NoDup_cons in Hnd as [Hc Hnd]. apply Forall_cons in Hin as [Hcd Hin].
  destruct (pruneSubs1_spec kept cs fails c) as (cs1 & fails1 & -> & -> & Hf1).
  destruct (IH (if keep_sub cs fails c then kept ++ [c] else kept) (broadcast1 zero_Event cs c) fails1)
    as (cs2 & fails2 & -> & -> & Hf2); [done|by rewrite broadcast1_dom|].
  assert (forall ch, ch ∈ subs ->
    keep_sub (broadcast1 zero_Event cs c) fails1 ch = keep_sub cs fails ch /\
    next_fail (broadcast1 zero_Event cs c) fails1 ch = next_fail cs fails ch) as Hext.
  { intros ch Hch. apply keep_sub_ext; [rewrite broadcast1_lookup by done|rewrite Hf1];
      (case_decide; [set_solver|done]). }
  do 2 eexists. split; [|split; [done|]].
  - rewrite (filter_b_ext _ (keep_sub cs fails)) by (intros; by apply Hext). simpl.
    case_if; rewrite <- ?app_assoc; done.
  - intros ch. rewrite Hf2, Hf1. repeat case_decide; subst; try done; set_solver.
Qed.

(** [pruneSubs] keeps the subscribers that took the probe or have failed
    fewer than [maxSubFailures] times in a row. *)
Lemma pruneSubs_spec r :
  wf r ->
  mr_subs (pruneSubs r) = List.filter (keep_sub (mr_chans r) (mr_subFailures r)) (mr_subs r) /\
  mr_workers (pruneSubs r) = mr_workers r /\
  mr_cfg (pruneSubs r) = mr_cfg r /\
  mr_chans (pruneSubs r) = foldl (broadcast1 zero_Event) (mr_chans r) (mr_subs r) /\
  (forall ch, mr_subFailures (pruneSubs r) !! ch =
     if decide (ch ∈ mr_subs r) then next_fail (mr_chans r) (mr_subFailures r) ch
     else mr_subFailures r !! ch).
Proof.
  intros [_ [Hnd Hdom _ _]]. unfold pruneSubs.
  destruct (pruneSubs_fold [] (mr_subs r) (mr_chans r) (mr_subFailures r) Hnd Hdom)
    as (cs' & fails' & -> & -> & Hf). simpl. done.
Qed.

Lemma wf_pruneSubs r : wf r -> wf (pruneSubs r).
Proof.
  intros H. pose proof H as [Hw Hs]. destruct (pruneSubs_spec r H) as (E1 & E2 & _ & E4 & E5).
  split; [by rewrite E2|]. rewrite E1, E4. destruct (wf_subs_broadcast zero_Event _ _ _ Hs) as [N D B _].
  split; [auto with infermesh| |done|].
  - apply Forall_forall. intros ch [Hch _]%elem_of_filter_b.
    rewrite Forall_forall in D. auto.
  - intros ch n. rewrite E5. case_decide; [|by apply Hs].
    unfold next_fail, maxSubFailures. destruct Hs as [_ _ _ Hfail].
    destruct (mr_subFailures r !! ch) as [k|] eqn:Ek; simpl;
      [apply Hfail in Ek; unfold maxSubFailures in Ek|]; repeat case_if; intros [= <-]; zbool_lia.
Qed.

Lemma wf_Subscribe r : wf r -> wf (Subscribe r).1.
Proof.
  intros [Hw [N D B F]]. pose proof (is_fresh (dom (mr_chans r))) as Hfresh.
  set (ch := fresh (dom (mr_chans r))) in *.
  split; simpl; [done|]. fold ch. split; [| | |done].
  - apply NoDup_app. split; [done|]. split; [|by apply NoDup_singleton].
    intros x Hx ->%list_elem_of_singleton. rewrite Forall_forall in D. by apply Hfresh, D.
  - rewrite dom_insert_L. apply Forall_app. split; [|by repeat constructor; set_solver].
    eapply Forall_impl; [done|]. set_solver.
  - intros c buf. destruct (decide (ch = c)) as [<-|].
    + rewrite lookup_insert_eq. intros [= <-]. unfold subCap. simpl. lia.
    + rewrite lookup_insert_ne by done. apply B.
Qed.

Lemma wf_receive ch r : wf r -> wf (with_chans (alter tail ch (mr_chans r)) r).
Proof.
  intros [Hw [N D B F]]. split; [done|]. simpl. split; [done| |  |done].
  - by rewrite dom_alter_L.
  - intros c buf. rewrite lookup_alter. case_decide; [|apply B].
    intros (b & Hb & ->)%fmap_Some. apply B in Hb. destruct b; simpl in *; lia.
Qed.

Lemma wf_exec r o : wf r -> wf (exec r o).
Proof.
  intros H. destruct o; cbn [exec]; unfold sweep;
    auto using wf_HandleEvent, wf_pruneSubs, wf_checkStale, wf_Subscribe, wf_receive.
Qed.

Lemma wf_New c r : New c = inl r -> wf r.
Proof.
  unfold New. destruct (Validate c); [done|]. intros [= <-]. split; simpl.
  - split; intros ??; by rewrite lookup_empty.
  - split; [constructor|constructor|intros ??|intros ??]; by rewrite lookup_empty.
Qed.

(** ** The table under each operation *)

Lemma HandleEvent_lookup now e r id :
  mr_workers (HandleEvent now e r) !! id =
    if bool_decide (wi_ID (de_Worker e) = id) then track_event now e (mr_workers r !! id)
    else mr_workers r !! id.
Proof.
  unfold HandleEvent, track_event, broadcast, with_chans, with_workers.
  case_bool_decide as Hid; [subst|].
  - destruct (de_Type e); try (destruct (mr_workers r !! _) eqn:E; simpl; try case_if;
      simplify_map_eq; done).
  - destruct (de_Type e); [| | | |done]; destruct (mr_workers r !! wi_ID _); simpl;
      try case_if; simpl; by simplify_map_eq.
Qed.

Lemma HandleEvent_cfg now e r : mr_cfg (HandleEvent now e r) = mr_cfg r.
Proof.
  unfold HandleEvent, broadcast, with_chans, with_workers.
  destruct (de_Type e); [| | | |done]; destruct (mr_workers r !! _); simpl; try case_if; done.
Qed.

Lemma HandleEvent_subs now e r : mr_subs (HandleEvent now e r) = mr_subs r.
Proof.
  unfold HandleEvent, broadcast, with_chans, with_workers.
  destruct (de_Type e); [| | | |done]; destruct (mr_workers r !! _); simpl; try case_if; done.
Qed.

Lemma checkStale1_lookup now r id id' :
  mr_workers (checkStale1 now r id) !! id' =
    if decide (id = id') then mr_workers r !! id' ≫= track_sweep (mr_cfg r) now
    else mr_workers r !! id'.
Proof.
  unfold checkStale1, track_sweep, broadcast, with_chans, with_workers.
  destruct (mr_workers r !! id) as [st|] eqn:E; case_decide; subst;
    rewrite ?E; simpl; repeat case_if; simpl; by simplify_map_eq.
Qed.

Lemma checkStale1_cfg now r id : mr_cfg (checkStale1 now r id) = mr_cfg r.
Proof.
  unfold checkStale1, broadcast, with_chans, with_workers.
  destruct (mr_workers r !! id); repeat case_if; done.
Qed.

Lemma checkStale_cfg now order r : mr_cfg (checkStale now order r) = mr_cfg r.
Proof.
  unfold checkStale. revert r. induction order; intros r; simpl; [done|].
  by rewrite IHorder, checkStale1_cfg.
Qed.

Lemma checkStale_fold_lookup now order r id :
  NoDup order ->
  mr_workers (checkStale now order r) !! id =
    if decide (id ∈ order) then mr_workers r !! id ≫= track_sweep (mr_cfg r) now
    else mr_workers r !! id.
Proof.
  unfold checkStale. revert r. induction order as [|x order IH]; intros r Hnd; cbn [foldl].
  { case_decide; [set_solver|done]. }
  apply NoDup_cons in Hnd as [Hx Hnd].
  rewrite IH, checkStale1_cfg, checkStale1_lookup by done.
  repeat case_decide; subst; try done; set_solver.
Qed.

(** Whatever order the range visits the workers in, every entry makes its own step. *)
Lemma checkStale_lookup now order r id :
  order ≡ₚ elements (dom (mr_workers r)) ->
  mr_workers (checkStale now order r) !! id = mr_workers r !! id ≫= track_sweep (mr_cfg r) now.
Proof.
  intros Ho. rewrite checkStale_fold_lookup by (rewrite Ho; apply NoDup_elements).
  case_decide as Hid; [done|]. rewrite Ho, elem_of_elements, not_elem_of_dom in Hid. by rewrite Hid.
Qed.

Lemma exec_lookup r o id :
  wf r -> valid_op r o -> mr_workers (exec r o) !! id = track (mr_cfg r) id (mr_workers r !! id) o.
Proof.
  intros Hwf Ho. destruct o as [now e|now order| |ch]; simpl in *; [apply HandleEvent_lookup| |done..].
  unfold sweep. destruct (pruneSubs_spec (checkStale now order r)) as (_ & -> & _);
    [by apply wf_checkStale|by apply checkStale_lookup].
Qed.

Lemma exec_cfg r o : wf r -> mr_cfg (exec r o) = mr_cfg r.
Proof.
  intros Hwf. destruct o; simpl; [apply HandleEvent_cfg| |done..].
  unfold sweep. destruct (pruneSubs_spec (checkStale now order r)) as (_ & _ & -> & _);
    [by apply wf_checkStale|apply checkStale_cfg].
Qed.

Lemma run_lookup r ops r' id :
  wf r -> run r ops r' ->
  wf r' /\ mr_workers r' !! id = foldl (track (mr_cfg r) id) (mr_workers r !! id) ops.
Proof.
  intros Hwf Hrun. revert Hwf. induction Hrun as [r|r o ops r' Ho _ IH]; intros Hwf; [done|].
  destruct IH as [? ->]; [by apply wf_exec|]. split; [done|]. simpl.
  by rewrite exec_cfg, exec_lookup.
Qed.

(** ** Theorems *)

(** Well-formedness holds of every state the registry can reach: each entry
    is filed under its worker's ID, carries the instant it was last seen, and is
    marked [unavailable] when the registry considers it so; subscriptions are
    distinct live channels, no buffer exceeds its 32 places and no failure
    counter leaves 0..12. *)
Theorem registry_invariant c r : reachable c r -> wf r.
Proof.
  intros (r0 & H0 & Hrun). eapply (rtc_invariant rstep wf); [|by eapply wf_New|done].
  intros a b H Hs. destruct Hs. by apply wf_exec.
Qed.

(** C1: Refinement: over any run (announcements, sweeps in any iteration order,
    subscriptions, receives) the entry of a worker is the one its own automaton
    reaches on that run, whatever happens to the other workers. *)
Theorem registry_refines_tracks c r0 ops r id :
  New c = inl r0 -> run r0 ops r ->
  mr_workers r !! id = foldl (track c id) None ops.
Proof.
  intros H0 Hrun. destruct (run_lookup r0 ops r id (wf_New _ _ H0) Hrun) as [_ ->].
  unfold New in H0. destruct (Validate c); [done|]. by injection H0 as <-.
Qed.

(** Freshness: after a sweep no listed worker has been silent for
    [RemoveTTL], and none still available for [UnavailableTTL]; the sweep drops
    or demotes nothing else. *)
Theorem sweep_freshness now order r id st :
  wf r -> order ≡ₚ elements (dom (mr_workers r)) ->
  mr_workers (sweep now order r) !! id = Some st ->
  time_sub now (ws_lastSeen st) < cfg_RemoveTTL (mr_cfg r) /\
  (ws_available st = true -> time_sub now (ws_lastSeen st) < cfg_UnavailableTTL (mr_cfg r)) /\
  (exists st0, mr_workers r !! id = Some st0 /\ (st = st0 \/ st = expire st0)).
Proof.
  intros Hwf Ho Hst. change (sweep now order r) with (exec r (OpSweep now order)) in Hst.
  rewrite exec_lookup in Hst by done. simpl in Hst.
  destruct (mr_workers r !! id) as [st0|]; [|done]. simpl in Hst. unfold track_sweep in Hst.
  destruct (cfg_RemoveTTL (mr_cfg r) <=? _) eqn:E1; [done|].
  destruct (cfg_UnavailableTTL (mr_cfg r) <=? _) eqn:E2; simpl in Hst;
    [destruct (ws_available st0) eqn:E3|]; injection Hst as <-; simpl; zbool;
    (split; [done|]; split; [intros; congruence || done|eauto]).
Qed.

(** An announcement notifies every subscriber that has room, once, in order
    behind what it has not read yet, with the event the worker's transition
    calls for; a full subscriber loses the event and nobody blocks. *)
Theorem HandleEvent_notifies now e r ch buf :
  wf r -> ch ∈ mr_subs r -> mr_chans r !! ch = Some buf ->
  mr_chans (HandleEvent now e r) !! ch =
    Some match notification now e (mr_workers r !! wi_ID (de_Worker e)) with
         | Some ev => if (length buf <? subCap)%nat then buf ++ [ev] else buf
         | None => buf
         end.
Proof.
  intros [_ [N D _ _]] Hch Hbuf.
  assert (forall ev, foldl (broadcast1 ev) (mr_chans r) (mr_subs r) !! ch = Some (delivered ev buf)) as Hb.
  { intros ev. rewrite broadcast_fold_lookup by done. case_decide; [by rewrite Hbuf|done]. }
  unfold HandleEvent, notification, broadcast, with_chans, with_workers, delivered in *.
  destruct (de_Type e); [| | | |done]; destruct (mr_workers r !! _) as [st|]; simpl; try done;
    try (destruct (bool_decide _)); try (destruct (ws_available st)); simpl; try done; apply Hb.
Qed.

Lemma chan_full_prune r ch :
  wf r -> full (mr_chans r) ch = true -> full (mr_chans (pruneSubs r)) ch = true.
Proof.
  intros Hwf. destruct (pruneSubs_spec r Hwf) as (_ & _ & _ & -> & _). destruct Hwf as [_ [N D _ _]].
  unfold full. rewrite broadcast_fold_lookup by done. case_decide; [|done].
  destruct (mr_chans r !! ch) as [buf|]; simpl; [|done].
  unfold delivered. destruct (length buf <? subCap)%nat eqn:E; simpl; [done|by rewrite E].
Qed.

(** The state of a subscriber that never reads, after [n] sweeps. *)
Lemma prune_stuck r ch n :
  wf r -> ch ∈ mr_subs r -> full (mr_chans r) ch = true -> default 0 (mr_subFailures r !! ch) = 0 ->
  Z.of_nat n <= maxSubFailures ->
  let r' := Nat.iter n pruneSubs r in
  wf r' /\ ch ∈ mr_subs r' /\ full (mr_chans r') ch = true /\
  default 0 (mr_subFailures r' !! ch) = Z.of_nat n.
Proof.
  intros Hwf Hch Hfull H0. induction n as [|n IH]; intros Hn; [done|].
  destruct IH as (Hwf' & Hch' & Hfull' & Hn'); [lia|].
  intros r'. unfold r'. rewrite Nat.iter_succ. clear r'. set (r' := Nat.iter n pruneSubs r) in *.
  destruct (pruneSubs_spec r' Hwf') as (-> & _ & _ & _ & Hf).
  assert ((default 0 (mr_subFailures r' !! ch) <? maxSubFailures) = true) as Hlt
    by (apply Z.ltb_lt; lia).
  split; [by apply wf_pruneSubs|]. split; [|split; [by apply chan_full_prune|]].
  - apply elem_of_filter_b. split; [done|]. unfold keep_sub. rewrite Hfull', Hlt. done.
  - rewrite Hf. case_decide; [|done]. unfold next_fail. rewrite Hfull', Hlt. simpl. lia.
Qed.

Lemma prune_drop r ch n :
  wf r -> ch ∈ mr_subs r -> full (mr_chans r) ch = true -> default 0 (mr_subFailures r !! ch) = 0 ->
  Z.of_nat n = maxSubFailures -> ch ∉ mr_subs (Nat.iter (S n) pruneSubs r).
Proof.
  intros Hwf Hch Hfull H0 Hn.
  destruct (prune_stuck r ch n) as (Hwf' & Hch' & Hfull' & Hn'); [done..|lia|].
  rewrite Nat.iter_succ. set (r' := Nat.iter n pruneSubs r) in *. clearbody r'.
  destruct (pruneSubs_spec _ Hwf') as (-> & _). intros [_ Hk]%elem_of_filter_b.
  unfold keep_sub in Hk. rewrite Hfull', Hn', Hn in Hk. done.
Qed.

(** A subscriber whose channel stays full survives exactly 12 sweeps and is
    pruned by the 13th. *)
Theorem dead_subscriber_pruned r ch n :
  wf r -> ch ∈ mr_subs r -> full (mr_chans r) ch = true -> default 0 (mr_subFailures r !! ch) = 0 ->
  (n <= 13)%nat -> (ch ∈ mr_subs (Nat.iter n pruneSubs r) <-> (n <= 12)%nat).
Proof.
  intros Hwf Hch Hfull H0 Hn. destruct (decide (n <= 12)%nat) as [Hle|].
  { destruct (prune_stuck r ch n) as (_ & ? & _); [done..|unfold maxSubFailures; lia|done]. }
  split; [|lia]. intros Hin. exfalso. destruct n as [|n]; [lia|].
  apply (prune_drop r ch n) in Hin; [done..|]. unfold maxSubFailures. lia.
Qed.

(** The listings: [Get] and [List] show exactly the table, [ListAvailable]
    exactly the entries whose availability flag is set, in any iteration order. *)
Theorem listings_spec r order id w :
  wf r -> order ≡ₚ map_to_list (mr_workers r) ->
  (Get r id = (w, true) <-> w ∈ List_ order /\ wi_ID w = id) /\
  (w ∈ ListAvailable order <->
     exists st, mr_workers r !! wi_ID w = Some st /\ ws_info st = w /\ ws_available st = true).
Proof.
  intros [Hw _] Ho. split.
  - unfold Get, List_. split.
    + destruct (mr_workers r !! id) as [st|] eqn:E; intros [= <-].
      split; [|by eapply wf_key]. apply list_elem_of_fmap. exists (id, st). split; [done|].
      by rewrite Ho, elem_of_map_to_list.
    + intros [([id' st] & -> & Hin)%list_elem_of_fmap Hid].
      rewrite Ho, elem_of_map_to_list in Hin. simpl in *.
      rewrite (wf_key _ Hw _ _ Hin) in Hid. subst. by rewrite Hin.
  - unfold ListAvailable. rewrite list_elem_of_fmap. split.
    + intros ([id' st] & -> & [Hin Ha]%elem_of_filter_b).
      rewrite Ho, elem_of_map_to_list in Hin. simpl in *. exists st.
      by rewrite (wf_key _ Hw _ _ Hin).
    + intros (st & Hst & <- & Ha). exists (wi_ID (ws_info st), st). split; [done|].
      apply elem_of_filter_b. by rewrite Ho, elem_of_map_to_list.
Qed.

(** ** Concrete runs *)

Definition ex_registry : memoryRegistry :=
  {| mr_cfg := Defaults; mr_workers := ∅; mr_subs := []; mr_chans := ∅; mr_subFailures := ∅ |}.

Definition ex_worker (id status : string) : WorkerInfo := with_Status status (with_ID id zero_WorkerInfo).

Definition ex_announce (id status : string) : DiscoveryEvent :=
  {| de_Type := EventAdded; de_Worker := ex_worker id status; de_Time := 0 |}.

(** One subscriber, then worker [w1] announced at 1 s. *)
Definition ex_subscribed : memoryRegistry := (Subscribe ex_registry).1.
Definition ex_announced : memoryRegistry :=
  HandleEvent (1 * second) (ex_announce "w1" StatusAvailable) ex_subscribed.

Lemma ex_New : New Defaults = inl ex_registry.
Proof. reflexivity. Qed.

Lemma ex_reachable : reachable Defaults ex_announced.
Proof.
  exists ex_registry. split; [done|].
  apply (rtc_l _ _ ex_subscribed); [by apply (step_op OpSubscribe ex_registry)|].
  apply rtc_once. by apply (step_op (OpEvent (1 * second) (ex_announce "w1" StatusAvailable)) ex_subscribed).
Qed.

Lemma ex_wf : wf ex_announced.
Proof. apply wf_HandleEvent, wf_Subscribe, (wf_New _ _ ex_New). Qed.

Lemma registry_invariant_witness : reachable Defaults ex_announced /\ wf ex_announced.
Proof. split; [apply ex_reachable|]. apply (registry_invariant Defaults). apply ex_reachable. Defined.

Lemma registry_refines_tracks_witness :
  run ex_registry
    [OpSubscribe; OpEvent (1 * second) (ex_announce "w1" StatusAvailable); OpSweep (70 * second) ["w1"]]
    (exec ex_announced (OpSweep (70 * second) ["w1"])) /\
  ws_available <$> (mr_workers (exec ex_announced (OpSweep (70 * second) ["w1"])) !! "w1") = Some false.
Proof.
  assert (run ex_registry
    [OpSubscribe; OpEvent (1 * second) (ex_announce "w1" StatusAvailable); OpSweep (70 * second) ["w1"]]
    (exec ex_announced (OpSweep (70 * second) ["w1"]))) as Hrun.
  { apply run_cons; [done|]. apply run_cons; [done|]. apply run_cons; [|apply run_nil].
    vm_compute. reflexivity. }
  split; [exact Hrun|].
  rewrite (registry_refines_tracks Defaults _ _ _ "w1" ex_New Hrun). vm_compute. reflexivity.
Defined.

Lemma sweep_freshness_witness :
  exists st, mr_workers (sweep (70 * second) ["w1"] ex_announced) !! "w1" = Some st /\
    time_sub (70 * second) (ws_lastSeen st) < cfg_RemoveTTL Defaults.
Proof.
  eexists. split; [vm_compute; reflexivity|].
  apply (sweep_freshness (70 * second) ["w1"] ex_announced "w1");
    [apply ex_wf|vm_compute; reflexivity|vm_compute; reflexivity].
Defined.

Lemma HandleEvent_notifies_witness :
  option_map (map ev_Type)
    (mr_chans (HandleEvent (2 * second) (ex_announce "w1" StatusAvailable) ex_announced) !! 0%nat)
  = Some [RegisterAdded; RegistryUpdated].
Proof.
  rewrite (HandleEvent_notifies _ _ ex_announced 0%nat
    [{| ev_Type := RegisterAdded; ev_Worker := with_LastSeen (1 * second) (ex_worker "w1" StatusAvailable) |}]);
    [vm_compute; reflexivity|apply ex_wf|vm_compute; set_solver|vm_compute; reflexivity].
Defined.

(** A subscriber that has not read 32 events. *)
Definition ex_full : memoryRegistry :=
  {| mr_cfg := Defaults; mr_workers := ∅; mr_subs := [0%nat];
     mr_chans := {[0%nat := replicate 32 zero_Event]}; mr_subFailures := ∅ |}.

Lemma ex_full_wf : wf ex_full.
Proof.
  split; simpl.
  - split; intros ??; by rewrite lookup_empty.
  - split; [apply NoDup_singleton|repeat constructor; apply elem_of_dom_2 with (x := replicate 32 zero_Event); apply lookup_singleton_eq| |intros ??; by rewrite lookup_empty].
    intros ch buf [_ <-]%lookup_singleton_Some. simpl. unfold subCap. lia.
Qed.

Lemma dead_subscriber_pruned_witness :
  0%nat ∈ mr_subs (Nat.iter 12 pruneSubs ex_full) /\ ~ 0%nat ∈ mr_subs (Nat.iter 13 pruneSubs ex_full).
Proof.
  assert (0%nat ∈ mr_subs ex_full) as H0 by set_solver.
  assert (full (mr_chans ex_full) 0 = true) as H1 by (vm_compute; reflexivity).
  assert (default 0 (mr_subFailures ex_full !! 0%nat) = 0) as H2 by reflexivity.
  split.
  - refine (proj2 (dead_subscriber_pruned ex_full 0%nat 12 ex_full_wf H0 H1 H2 _) _); lia.
  - intros H. refine (_ (proj1 (dead_subscriber_pruned ex_full 0%nat 13 ex_full_wf H0 H1 H2 _) H)); lia.
Defined.

Lemma listings_spec_witness :
  Get ex_announced "w1" = (with_LastSeen (1 * second) (ex_worker "w1" StatusAvailable), true).
Proof.
  apply (listings_spec ex_announced (map_to_list (mr_workers ex_announced)) "w1"); [apply ex_wf|done|].
  vm_compute. set_solver.
Defined.

(** [ListAvailable] goes by the availability flag, not by [Status]: a worker
    that announces itself [busy] is listed, and every refresh of it is notified
    as a new registration. *)
Example busy_worker_listed_available :
  let r := HandleEvent (1 * second) (ex_announce "w1" StatusBusy) ex_subscribed in
  let r' := HandleEvent (2 * second) (ex_announce "w1" StatusBusy) r in
  wi_Status <$> ListAvailable (map_to_list (mr_workers r')) = [StatusBusy] /\
  option_map (map ev_Type) (mr_chans r' !! 0%nat) = Some [RegisterAdded; RegisterAdded].
Proof. vm_compute. done. Qed.
