(* ===== verification/Scheduler.v ===== *)
(** * Scheduler: scoring and selection of a worker ([pkg/scheduler])

    The interface [ScoringAlgorithm] is a class; [SelectWorker] is proved
    against it, and [WeightedScorer] is its implementation.  The instants that
    [time.Now()] returns within one call are taken equal ([now]).  Scores are
    binary64 ([GoFloat]).  The [Reason] text of a selection, which only logs
    read, is left out. *)

From S2P Require Import Prelude GoFloat Errors Protocol.
From Stdlib Require Import SpecFloat.

(** ** Data *)

Record ModelRequest := {
  rq_Model : string;
  rq_Quantization : string;
  rq_MaxVRAMMB : Z;
  rq_MinVRAMMB : Z;
}.

(** [scheduler.WorkerInfo]. *)
Record SchedWorker := {
  sw_ID : string;
  sw_Addr : string;
  sw_Models : list ModelInfo;
  sw_VRAMTotalMB : Z;
  sw_VRAMFreeMB : Z;
  sw_GPUUtilPct : float64;
  sw_QueueDepth : Z;
  sw_InFlight : Z;
  sw_MaxInFlight : Z;
  sw_AvgLatencyMS : float64;
  sw_LastHeartbeat : Time;
  sw_TokensPerSecond : float64;
  sw_AllowedModels : list string;
  sw_ExcludedModels : list string;
}.

Record SelectedWorker := {
  sel_Worker : SchedWorker;
  sel_Score : float64;
}.

Definition defaultUnavailableTTL : Duration := 30 * second.
Definition defaultMaxQueueDepth : Z := 10.

(** ** The interface *)

Class ScoringAlgorithm := {
  Name : string;
  Score : ModelRequest -> SchedWorker -> result float64;
  GetUnavailableTTL : Duration;
}.

(** ** The weighted scorer *)

Record WeightedScorer := {
  QuantMatchWeight : float64;
  VRAMFreeWeight : float64;
  GPUUtilWeight : float64;
  QueueDepthWeight : float64;
  LatencyWeight : float64;
  LoadedModelBonusWeight : float64;
  ColdLoadPenaltyWeight : float64;
  ThroughputWeight : float64;
  maxQueueDepth : Z;
  unavailableTTL : Duration;
}.

Definition NewWeightedScorer : WeightedScorer :=
  {| QuantMatchWeight := dec 40 100; VRAMFreeWeight := dec 25 100; GPUUtilWeight := dec 15 100;
     QueueDepthWeight := dec 10 100; LatencyWeight := dec 10 100; LoadedModelBonusWeight := f0;
     ColdLoadPenaltyWeight := f0; ThroughputWeight := f0; maxQueueDepth := defaultMaxQueueDepth;
     unavailableTTL := defaultUnavailableTTL |}.

Definition NewWeightedScorerWithConfig
    (quantMatch vramFree gpuUtil queueDepth latency loadedModelBonus coldLoadPenalty throughput : float64)
    (ttl : Duration) (maxDepth : Z) : WeightedScorer :=
  let maxDepth := if maxDepth <=? 0 then defaultMaxQueueDepth else maxDepth in
  {| QuantMatchWeight := quantMatch; VRAMFreeWeight := vramFree; GPUUtilWeight := gpuUtil;
     QueueDepthWeight := queueDepth; LatencyWeight := latency; LoadedModelBonusWeight := loadedModelBonus;
     ColdLoadPenaltyWeight := coldLoadPenalty; ThroughputWeight := throughput; maxQueueDepth := maxDepth;
     unavailableTTL := ttl |}.

Definition MaxQueueDepth (s : WeightedScorer) : Z :=
  if maxQueueDepth s <=? 0 then defaultMaxQueueDepth else maxQueueDepth s.

(** *** Quantization *)

Definition quantCapability : gmap string Z :=
  {[ "FP16" := 5; "Q8" := 4; "Q6" := 3; "Q5" := 2; "Q4" := 1 ]}.

Definition isQuantizationCompatible (requested actual : string) : bool :=
  if bool_decide (requested = "") then true
  else if bool_decide (requested = actual) then true
  else
    let reqCap := quantCapability@[requested|0] in
    let actCap := quantCapability@[actual|0] in
    if (reqCap =? 0) || (actCap =? 0) then false
    else reqCap <=? actCap.

Definition quantizationCompatibilityScore (requested actual : string) : float64 :=
  if bool_decide (requested = actual) then f1
  else
    let reqCap := quantCapability@[requested|0] in
    let actCap := quantCapability@[actual|0] in
    if (reqCap =? 0) || (actCap =? 0) then f0
    else if reqCap <? actCap then
      let extra := actCap - reqCap in
      math_min (dec 8 10) (fmul (of_int extra) (dec 2 10))
    else f0.

(** *** The components of the score *)

Definition quantMatchScore (request : ModelRequest) (model : ModelInfo) : float64 :=
  if bool_decide (rq_Quantization request = "") || bool_decide (rq_Quantization request = mi_Quantization model)
  then f1
  else quantizationCompatibilityScore (rq_Quantization request) (mi_Quantization model).

Definition vramFreeRatio (w : SchedWorker) : float64 :=
  if 0 <? sw_VRAMTotalMB w then
    clamp_high f1 (fdiv (of_int (sw_VRAMFreeMB w)) (of_int (sw_VRAMTotalMB w)))
  else f05.

Definition clamp01 (x : float64) : float64 := clamp_high f1 (clamp_low f0 x).

Definition gpuUtilScore (w : SchedWorker) : float64 :=
  if fle f0 (sw_GPUUtilPct w) then clamp01 (fsub f1 (fdiv (sw_GPUUtilPct w) (of_int 100))) else f05.

Definition queueDepthScore (s : WeightedScorer) (w : SchedWorker) : float64 :=
  let q :=
    if 0 <=? sw_QueueDepth w then
      clamp01 (fsub f1 (math_min (fdiv (of_int (sw_QueueDepth w)) (of_int (MaxQueueDepth s))) f1))
    else f05 in
  if (0 <=? sw_InFlight w) && (0 <? sw_MaxInFlight w) then
    let inFlightRatio := math_min (fdiv (of_int (sw_InFlight w)) (of_int (sw_MaxInFlight w))) f1 in
    let inFlightScore := clamp01 (fsub f1 inFlightRatio) in
    if flt inFlightScore q then inFlightScore else q
  else q.

Definition latencyScore (w : SchedWorker) : float64 :=
  if fle f0 (sw_AvgLatencyMS w) then
    clamp01 (fsub f1 (math_min (fdiv (sw_AvgLatencyMS w) (of_int 1000)) f1))
  else f05.

(** [(loadedBonusScore, coldLoadScore)]. *)
Definition loadScores (model : ModelInfo) (w : SchedWorker) : float64 * float64 :=
  if mi_Loaded model then (f1, f0)
  else if (0 <=? sw_InFlight w) && (0 <? sw_MaxInFlight w) then
    let inFlightRatio := math_min (fdiv (of_int (sw_InFlight w)) (of_int (sw_MaxInFlight w))) f1 in
    (f0, fadd f05 (fmul f05 inFlightRatio))
  else (f0, f05).

Definition throughputScore (s : WeightedScorer) (w : SchedWorker) : float64 :=
  if flt f0 (ThroughputWeight s) then
    if flt (sw_TokensPerSecond w) f0 then f05
    else clamp_low f0 (math_min (fdiv (sw_TokensPerSecond w) (of_int 100)) f1)
  else f0.

(** The weighted sum, associated to the left as Go evaluates it. *)
Definition weightedSum (s : WeightedScorer) (request : ModelRequest) (model : ModelInfo) (w : SchedWorker) : float64 :=
  let '(loadedBonusScore, coldLoadScore) := loadScores model w in
  let a := fmul (QuantMatchWeight s) (quantMatchScore request model) in
  let a := fadd a (fmul (VRAMFreeWeight s) (vramFreeRatio w)) in
  let a := fadd a (fmul (GPUUtilWeight s) (gpuUtilScore w)) in
  let a := fadd a (fmul (QueueDepthWeight s) (queueDepthScore s w)) in
  let a := fadd a (fmul (LatencyWeight s) (latencyScore w)) in
  let a := fadd a (fmul (LoadedModelBonusWeight s) loadedBonusScore) in
  let a := fsub a (fmul (ColdLoadPenaltyWeight s) coldLoadScore) in
  fadd a (fmul (ThroughputWeight s) (throughputScore s w)).

Definition findModel (name : string) (models : list ModelInfo) : option ModelInfo :=
  List.find (fun m => String.eqb (mi_Name m) name) models.

(** [WeightedScorer.Score] at the instant [now]. *)
Definition WeightedScore (now : Time) (s : WeightedScorer) (request : ModelRequest) (w : SchedWorker) : result float64 :=
  if unavailableTTL s <? time_sub now (sw_LastHeartbeat w) then inr (Wrap [Sentinel ErrWorkerUnavailable])
  else
    match findModel (rq_Model request) (sw_Models w) with
    | None => inr (Wrap [Sentinel ErrNoMatchingWorkers])
    | Some model =>
        if negb (mi_Loaded model) && feq (LoadedModelBonusWeight s) f0 && feq (ColdLoadPenaltyWeight s) f0
        then inr (Wrap [Sentinel ErrNoMatchingWorkers])
        else if negb (isQuantizationCompatible (rq_Quantization request) (mi_Quantization model))
        then inr (Wrap [Sentinel ErrNoMatchingWorkers])
        else if (0 <? rq_MaxVRAMMB request) && (sw_VRAMFreeMB w <? rq_MaxVRAMMB request)
        then inr (Wrap [Sentinel ErrNoCapacity])
        else if (0 <? rq_MinVRAMMB request) && (sw_VRAMFreeMB w <? rq_MinVRAMMB request)
        then inr (Wrap [Sentinel ErrNoCapacity])
        else inl (clamp01 (weightedSum s request model w))
    end.

(** The scorer as an instance of the interface. *)
Definition WeightedScorer_algo (now : Time) (s : WeightedScorer) : ScoringAlgorithm :=
  {| Name := "weighted"; Score := WeightedScore now s; GetUnavailableTTL := unavailableTTL s |}.

(** ** Filters *)

Definition FilterUnavailable (now : Time) (workers : list SchedWorker) (ttl : Duration) : list SchedWorker :=
  let ttl := if ttl <=? 0 then defaultUnavailableTTL else ttl in
  List.filter (fun w => time_sub now (sw_LastHeartbeat w) <=? ttl) workers.

Definition FilterByModel (workers : list SchedWorker) (modelName : string) : list SchedWorker :=
  List.filter (fun w => existsb (fun m => String.eqb (mi_Name m) modelName && mi_Loaded m) (sw_Models w)) workers.

Definition FilterByVRAM (request : ModelRequest) (workers : list SchedWorker) : list SchedWorker :=
  List.filter (fun w =>
    if (0 <? rq_MaxVRAMMB request) && (sw_VRAMFreeMB w <? rq_MaxVRAMMB request) then false
    else if (0 <? rq_MinVRAMMB request) && (sw_VRAMFreeMB w <? rq_MinVRAMMB request) then false
    else true) workers.

(** The body of the loop of [FilterByAllowedModels]: whether the worker stays. *)
Definition willing (model : string) (w : SchedWorker) : bool :=
  if (0 <? length (sw_AllowedModels w))%nat then existsb (fun m => String.eqb m model) (sw_AllowedModels w)
  else if (0 <? length (sw_ExcludedModels w))%nat then
    negb (existsb (fun m => String.eqb m model) (sw_ExcludedModels w))
  else true.

Definition FilterByAllowedModels (request : ModelRequest) (workers : list SchedWorker) : list SchedWorker :=
  List.filter (willing (rq_Model request)) workers.

(** ** Selection *)

(** One iteration of the scoring loop; the accumulator is [best, bestScore]
    when [found]. *)
Definition select_step (algo : ScoringAlgorithm) (request : ModelRequest)
    (acc : option (SchedWorker * float64)) (w : SchedWorker) : option (SchedWorker * float64) :=
  match Score request w with
  | inr _ => acc
  | inl score =>
      match acc with
      | None => Some (w, score)
      | Some (_, bestScore) => if flt bestScore score then Some (w, score) else acc
      end
  end.

Definition SelectWorker (now : Time) (algo : ScoringAlgorithm) (request : ModelRequest)
    (workers : list SchedWorker) (ttl : Duration) : result SelectedWorker :=
  if (length workers =? 0)%nat then inr (Sentinel ErrNoMatchingWorkers)
  else
    let available := FilterUnavailable now workers ttl in
    if (length available =? 0)%nat then inr (Sentinel ErrAllWorkersUnavailable)
    else
      let available := FilterByAllowedModels request available in
      if (length available =? 0)%nat then inr (Sentinel ErrNoMatchingWorkers)
      else
        match foldl (select_step algo request) None available with
        | None => inr (Sentinel ErrNoMatchingWorkers)
        | Some (best, bestScore) => inl {| sel_Worker := best; sel_Score := bestScore |}
        end.

Definition DefaultScoringAlgorithm (now : Time) : ScoringAlgorithm := WeightedScorer_algo now NewWeightedScorer.
Definition DefaultUnavailableTTL : Duration := defaultUnavailableTTL.

(** ** Selection against the interface *)

Section select.
Context (algo : ScoringAlgorithm) (request : ModelRequest).

(** The pairs (worker, score) the algorithm accepts, in order. *)
Definition scored (ws : list SchedWorker) : list (SchedWorker * float64) :=
  omap (fun w => match Score request w with inl s => Some (w, s) | inr _ => None end) ws.

(** [best] is the first of the pairs with the largest score. *)
Definition first_max (l : list (SchedWorker * float64)) (best : SchedWorker * float64) : Prop :=
  exists l1 l2, l = l1 ++ best :: l2 /\
    Forall (fun p => flt p.2 best.2 = true) l1 /\
    Forall (fun p => fle p.2 best.2 = true) l2.

Lemma flt_fle_trans x y z : flt x y = true -> fle y z = true -> flt x z = true.
Proof.
  intros H1 H2. destruct (fle_nan_false _ _ (flt_fle _ _ H1)), (fle_nan_false _ _ H2).
  rewrite flt_key, ?fle_key in * by done.
  destruct (fkey x) as [[??]?], (fkey y) as [[??]?], (fkey z) as [[??]?]. simpl in *. lia.
Qed.

Lemma first_max_snoc l best p :
  is_nan best.2 = false -> is_nan p.2 = false -> first_max l best ->
  first_max (l ++ [p]) (if flt best.2 p.2 then p else best).
Proof.
  intros Hb Hp (l1 & l2 & -> & H1 & H2). destruct (flt best.2 p.2) eqn:E.
  - exists (l1 ++ best :: l2), []. split; [done|]. split; [|done].
    apply Forall_app. split; [|constructor; [done|]].
    + eapply Forall_impl; [done|]. simpl. intros q Hq. eapply flt_fle_trans; [done|by apply flt_fle].
    + eapply Forall_impl; [done|]. simpl. intros q Hq.
      destruct (fle_nan_false _ _ Hq). rewrite flt_key, fle_key in * by done.
      destruct (fkey q.2) as [[??]?], (fkey best.2) as [[??]?], (fkey p.2) as [[??]?]. simpl in *. lia.
  - exists l1, (l2 ++ [p]). rewrite <- app_assoc. split; [done|]. split; [done|].
    apply Forall_app. split; [done|]. constructor; [|done]. by apply flt_false_fle.
Qed.

Lemma select_fold_spec ws :
  Forall (fun p => is_nan p.2 = false) (scored ws) ->
  match foldl (select_step algo request) None ws with
  | None => scored ws = []
  | Some best => first_max (scored ws) best
  end.
Proof.
  induction ws as [|w ws IH] using rev_ind; intros Hn; [done|].
  unfold scored in *. rewrite omap_app in *. apply Forall_app in Hn as [Hn1 Hn2].
  rewrite foldl_snoc. specialize (IH Hn1). unfold select_step at 1.
  simpl in *. destruct (Score request w) as [s|e]; simpl in *; [|by rewrite app_nil_r].
  apply Forall_cons in Hn2 as [Hs _]. simpl in Hs.
  destruct (foldl _ _ ws) as [[b bs]|] eqn:E.
  - assert (is_nan bs = false) as Hb.
    { destruct IH as (l1 & l2 & Hl & _). rewrite Hl in Hn1. by apply Forall_elt in Hn1. }
    pose proof (first_max_snoc _ (b, bs) (w, s) Hb Hs IH) as H. simpl in H. by destruct (flt bs s).
  - rewrite IH. simpl. exists [], []. done.
Qed.

(** The workers that reach the scoring loop. *)
Definition considered (now : Time) (ws : list SchedWorker) (ttl : Duration) : list SchedWorker :=
  FilterByAllowedModels request (FilterUnavailable now ws ttl).

Lemma SelectWorker_cases now ws ttl :
  SelectWorker now algo request ws ttl =
    match foldl (select_step algo request) None (considered now ws ttl) with
    | Some (best, s) => inl {| sel_Worker := best; sel_Score := s |}
    | None =>
        if (0 <? length ws)%nat && (length (FilterUnavailable now ws ttl) =? 0)%nat
        then inr (Sentinel ErrAllWorkersUnavailable) else inr (Sentinel ErrNoMatchingWorkers)
    end.
Proof.
  unfold SelectWorker, considered. destruct ws as [|w ws]; [done|]. set (l := w :: ws). simpl (length l =? 0)%nat.
  destruct (FilterUnavailable now l ttl) as [|a av] eqn:E; [done|]. simpl (length (a :: av) =? 0)%nat.
  rewrite andb_false_r. cbv iota.
  destruct (FilterByAllowedModels request (a :: av)) eqn:E2; [done|]. simpl (_ =? 0)%nat. cbv iota.
  destruct (foldl _ _ _) as [[]|]; done.
Qed.

Lemma select_fold_elem l acc b s :
  foldl (select_step algo request) acc l = Some (b, s) -> b ∈ l \/ acc = Some (b, s).
Proof.
  revert acc. induction l as [|w l IH]; intros acc; simpl; [by right|].
  intros [?|H]%IH; [left; by right|]. unfold select_step in H.
  destruct (Score request w) as [x|]; [|by right]. destruct acc as [[b' s']|].
  - destruct (flt s' x); [injection H as -> ->; left; by left|by right].
  - injection H as -> ->. left. by left.
Qed.

(** The worker selected is one of those given, fresh and willing. *)
Lemma SelectWorker_elem now ws ttl sel :
  SelectWorker now algo request ws ttl = inl sel -> sel_Worker sel ∈ considered now ws ttl.
Proof.
  rewrite SelectWorker_cases. destruct (foldl _ _ _) as [[b s]|] eqn:E; [|by destruct (_ && _)].
  intros [= <-]. by apply select_fold_elem in E as [|].
Qed.

Lemma considered_elem now ws ttl w : w ∈ considered now ws ttl -> w ∈ ws.
Proof.
  unfold considered, FilterByAllowedModels, FilterUnavailable. by intros [[]%elem_of_filter_b _]%elem_of_filter_b.
Qed.
End select.

(** C10: Selection is an arg-max: against any scoring algorithm that returns no
    NaN, the worker selected is fresh, willing and scored, every other such
    worker scores at most as much, and those before it in the list strictly
    less, so ties go to the first. *)
Theorem SelectWorker_best now (algo : ScoringAlgorithm) request ws ttl sel :
  Forall (fun p => is_nan p.2 = false) (scored algo request (considered request now ws ttl)) ->
  SelectWorker now algo request ws ttl = inl sel ->
  sel_Worker sel ∈ considered request now ws ttl /\
  Score request (sel_Worker sel) = inl (sel_Score sel) /\
  first_max (scored algo request (considered request now ws ttl)) (sel_Worker sel, sel_Score sel).
Proof.
  intros Hn Hsel. rewrite SelectWorker_cases in Hsel.
  pose proof (select_fold_spec algo request _ Hn) as H.
  destruct (foldl _ _ _) as [[b s]|]; [|by destruct (_ && _)].
  injection Hsel as <-. simpl. split_and!; [..|done].
  all: destruct H as (l1 & l2 & Hl & _);
    assert ((b, s) ∈ scored algo request (considered request now ws ttl)) as Hin by (rewrite Hl; set_solver);
    apply list_elem_of_omap in Hin as (w & Hw & Hs);
    destruct (Score request w) eqn:E; [|done]; injection Hs as -> ->; done.
Qed.

(** The errors of selection: it fails exactly when no fresh and willing
    worker can be scored; the error says whether there were workers and all of
    them were stale. *)
Theorem SelectWorker_error now (algo : ScoringAlgorithm) request ws ttl e :
  SelectWorker now algo request ws ttl = inr e <->
  (forall w s, w ∈ considered request now ws ttl -> Score request w <> inl s) /\
  e = Sentinel (if (0 <? length ws)%nat && (length (FilterUnavailable now ws ttl) =? 0)%nat
                then ErrAllWorkersUnavailable else ErrNoMatchingWorkers).
Proof.
  rewrite SelectWorker_cases.
  assert (forall l acc, foldl (select_step algo request) acc l = None <->
            acc = None /\ forall w s, w ∈ l -> Score request w <> inl s) as Hf.
  { induction l as [|w l IH]; intros acc; simpl; [set_solver|].
    rewrite IH. unfold select_step. destruct (Score request w) as [s|x] eqn:E.
    - split; [destruct acc as [[??]|]; [case_if; naive_solver|naive_solver]|].
      intros [-> H]. exfalso. by apply (H w s); [set_solver|].
    - split; intros [-> H]; (split; [done|]); intros w' s' Hw'; [|apply H; set_solver].
      apply elem_of_cons in Hw' as [->|]; [congruence|by apply H]. }
  specialize (Hf (considered request now ws ttl) None).
  destruct (foldl _ _ _) as [[b s]|].
  - split; [done|]. intros [H _]. destruct Hf as [_ Hf]. by discriminate Hf.
  - destruct Hf as [Hf _]. destruct (Hf eq_refl) as [_ H].
    split; [case_if; intros [= <-]; done|]. intros [_ ->]. by case_if.
Qed.

(** Opting out: a worker with a whitelist serves exactly the models on it,
    its blacklist then being ignored; one with only a blacklist serves all but
    those; one with neither serves any.  The filter keeps the order. *)
Theorem FilterByAllowedModels_spec request ws w :
  FilterByAllowedModels request ws `sublist_of` ws /\
  (w ∈ FilterByAllowedModels request ws <->
   w ∈ ws /\
   (sw_AllowedModels w <> [] -> rq_Model request ∈ sw_AllowedModels w) /\
   (sw_AllowedModels w = [] -> rq_Model request ∉ sw_ExcludedModels w)).
Proof.
  split; [apply filter_b_sublist|]. unfold FilterByAllowedModels. rewrite elem_of_filter_b.
  assert (forall l, existsb (fun m => String.eqb m (rq_Model request)) l = true <-> rq_Model request ∈ l) as Hex.
  { intros l. rewrite existsb_exists. setoid_rewrite String.eqb_eq. rewrite list_elem_of_In.
    naive_solver. }
  unfold willing. destruct (sw_AllowedModels w) as [|a al]; cbn [length Nat.ltb Nat.leb].
  - destruct (sw_ExcludedModels w) as [|x xl]; cbn [length Nat.ltb Nat.leb]; [set_solver|].
    rewrite negb_true_iff, <- not_true_iff_false, Hex. naive_solver.
  - rewrite Hex. naive_solver.
Qed.

(** ** The weighted scorer *)

(** What [Score] requires of a worker. *)
Definition eligible (now : Time) (s : WeightedScorer) (request : ModelRequest) (w : SchedWorker) (m : ModelInfo) : Prop :=
  time_sub now (sw_LastHeartbeat w) <= unavailableTTL s /\
  findModel (rq_Model request) (sw_Models w) = Some m /\
  (mi_Loaded m = true \/ feq (LoadedModelBonusWeight s) f0 = false \/ feq (ColdLoadPenaltyWeight s) f0 = false) /\
  isQuantizationCompatible (rq_Quantization request) (mi_Quantization m) = true /\
  (0 < rq_MaxVRAMMB request -> rq_MaxVRAMMB request <= sw_VRAMFreeMB w) /\
  (0 < rq_MinVRAMMB request -> rq_MinVRAMMB request <= sw_VRAMFreeMB w).

Lemma eligible_tests now s request w m :
  eligible now s request w m <->
  (unavailableTTL s <? time_sub now (sw_LastHeartbeat w)) = false /\
  findModel (rq_Model request) (sw_Models w) = Some m /\
  negb (mi_Loaded m) && feq (LoadedModelBonusWeight s) f0 && feq (ColdLoadPenaltyWeight s) f0 = false /\
  negb (isQuantizationCompatible (rq_Quantization request) (mi_Quantization m)) = false /\
  (0 <? rq_MaxVRAMMB request) && (sw_VRAMFreeMB w <? rq_MaxVRAMMB request) = false /\
  (0 <? rq_MinVRAMMB request) && (sw_VRAMFreeMB w <? rq_MinVRAMMB request) = false.
Proof.
  assert (forall b c, (0 <? b) && (c <? b) = false <-> (0 < b -> b <= c)) as Hv.
  { intros b c. destruct (Z.ltb_spec 0 b), (Z.ltb_spec c b); simpl; naive_solver lia. }
  assert (forall b1 b2 b3, negb b1 && b2 && b3 = false <-> b1 = true \/ b2 = false \/ b3 = false) as Hl.
  { intros [] [] []; simpl; naive_solver. }
  by rewrite !Hv, Hl, negb_false_iff, Z.ltb_ge.
Qed.

(** The weighted scorer scores exactly the eligible workers (fresh, listing
    the model, loaded unless a cold-load weight is set, of a compatible
    quantization, with the VRAM asked for), with the clamped weighted sum. *)
Theorem WeightedScore_spec now s request w x :
  WeightedScore now s request w = inl x <->
  exists m, eligible now s request w m /\ x = clamp01 (weightedSum s request m w).
Proof.
  setoid_rewrite eligible_tests. unfold WeightedScore.
  destruct (unavailableTTL s <? _); [naive_solver|].
  destruct (findModel _ _) as [m|]; [|naive_solver].
  repeat match goal with
  | |- (if ?b then _ else _) = _ <-> _ =>
      destruct b eqn:?; [split; [done|intros (m' & (_ & [= <-] & ?) & _); destruct_and!; congruence]|]
  end.
  split; [intros [= <-]; by exists m|intros (m' & (_ & [= <-] & _) & ->); done].
Qed.

(** *** The components lie in the unit interval *)

(** A finite number that is not negative. *)
Definition fin0 (x : float64) : Prop := nonneg x /\ finite x.

Lemma fsub_1_not_nan y : is_nan y = false -> is_nan (fsub f1 y) = false.
Proof. intros H. destruct y as [s|[]| |s m e]; try done; by apply fsub_not_nan. Qed.

Lemma clamp01_fin0 x : is_nan x = false -> fin0 (clamp01 x).
Proof. apply clamp01_finite. Qed.

Lemma math_min_1 x : nonneg x -> fin0 (math_min x f1).
Proof. intros H. by apply math_min_finite. Qed.

Lemma one_minus_fin0 y : nonneg y -> fin0 (clamp01 (fsub f1 y)).
Proof. intros H. apply clamp01_fin0, fsub_1_not_nan. by apply nonneg_not_nan. Qed.

Lemma fle_0_nonneg x : fle f0 x = true -> nonneg x.
Proof. by destruct x as [[]|[]| |[]]. Qed.

Lemma flt_0_nonneg x : is_nan x = false -> flt x f0 = false -> nonneg x.
Proof. intros. by apply nonneg_spec. Qed.

Lemma fin0_const : fin0 f0 /\ fin0 f1 /\ fin0 f05 /\ fin0 (dec 8 10).
Proof. vm_compute. done. Qed.

Lemma fdiv_count_fin0 a b : 0 <= a -> 0 < b < 2 ^ 53 -> fin0 (math_min (fdiv (of_int a) (of_int b)) f1).
Proof. intros. by apply math_min_1, fdiv_int_nonneg; [apply of_int_nonneg|]. Qed.

#[local] Hint Resolve clamp01_fin0 one_minus_fin0 fdiv_count_fin0 fle_0_nonneg of_int_nonneg : infermesh.

(** What a worker's report must satisfy for its score to be a number. *)
Definition sane_report (w : SchedWorker) : Prop :=
  0 <= sw_VRAMFreeMB w /\ sw_VRAMTotalMB w < 2 ^ 53 /\ sw_MaxInFlight w < 2 ^ 53 /\
  is_nan (sw_TokensPerSecond w) = false.

Lemma quantCapability_range q : 0 <= quantCapability@[q|0] <= 5.
Proof.
  unfold map_or. destruct (quantCapability !! q) as [n|] eqn:E; simpl; [|lia].
  unfold quantCapability in E. rewrite !lookup_insert_Some, lookup_singleton_Some in E. naive_solver lia.
Qed.

Lemma quantMatchScore_fin0 request m : fin0 (quantMatchScore request m).
Proof.
  unfold quantMatchScore, quantizationCompatibilityScore. case_if; [apply fin0_const|].
  case_if; [apply fin0_const|]. case_if; [apply fin0_const|].
  pose proof (quantCapability_range (rq_Quantization request)) as [H1 H2].
  pose proof (quantCapability_range (mi_Quantization m)) as [H3 H4].
  destruct (Z.ltb_spec (quantCapability@[rq_Quantization request|0]) (quantCapability@[mi_Quantization m|0]));
    [|apply fin0_const].
  assert (let d := quantCapability@[mi_Quantization m|0] - quantCapability@[rq_Quantization request|0] in
          d = 1 \/ d = 2 \/ d = 3 \/ d = 4 \/ d = 5) as Hd by (simpl; lia).
  simpl in Hd. destruct_or!; rewrite Hd; vm_compute; done.
Qed.

Lemma vramFreeRatio_fin0 w : sane_report w -> fin0 (vramFreeRatio w).
Proof.
  intros (H1 & H2 & _). unfold vramFreeRatio.
  destruct (Z.ltb_spec 0 (sw_VRAMTotalMB w)); [|apply fin0_const].
  assert (nonneg (fdiv (of_int (sw_VRAMFreeMB w)) (of_int (sw_VRAMTotalMB w)))) as Hn
    by (apply fdiv_int_nonneg; [by apply of_int_nonneg|lia]).
  pose proof (clamp01_fin0 _ (nonneg_not_nan _ Hn)) as Hc. revert Hc. unfold clamp01, clamp_low.
  by rewrite (proj2 (proj1 (nonneg_spec _) Hn)).
Qed.

Lemma gpuUtilScore_fin0 w : fin0 (gpuUtilScore w).
Proof.
  unfold gpuUtilScore. destruct (fle f0 _) eqn:E; [|apply fin0_const].
  apply one_minus_fin0, fdiv_int_nonneg; [by apply fle_0_nonneg|lia].
Qed.

Lemma MaxQueueDepth_pos s : 0 < MaxQueueDepth s.
Proof. unfold MaxQueueDepth, defaultMaxQueueDepth. case_if; zbool_lia. Qed.

Lemma queueDepthScore_fin0 s w : MaxQueueDepth s < 2 ^ 53 -> sane_report w -> fin0 (queueDepthScore s w).
Proof.
  intros Hm (_ & _ & Hi & _). pose proof (MaxQueueDepth_pos s). unfold queueDepthScore.
  set (q := if 0 <=? _ then _ else _).
  assert (fin0 q) as Hq.
  { subst q. destruct (Z.leb_spec 0 (sw_QueueDepth w)); [|apply fin0_const].
    apply one_minus_fin0, fdiv_count_fin0; lia. }
  destruct (_ && _) eqn:E; [|done]. zbool. case_if; [|done].
  apply one_minus_fin0, fdiv_count_fin0; lia.
Qed.

Lemma latencyScore_fin0 w : fin0 (latencyScore w).
Proof.
  unfold latencyScore. destruct (fle f0 _) eqn:E; [|apply fin0_const].
  apply one_minus_fin0, math_min_1, fdiv_int_nonneg; [by apply fle_0_nonneg|lia].
Qed.

Lemma loadedBonus_fin0 m w : fin0 (loadScores m w).1.
Proof. unfold loadScores. case_if; [apply fin0_const|]. case_if; apply fin0_const. Qed.

Lemma throughputScore_fin0 s w : sane_report w -> fin0 (throughputScore s w).
Proof.
  intros (_ & _ & _ & Ht). unfold throughputScore. case_if; [|apply fin0_const].
  destruct (flt (sw_TokensPerSecond w) f0) eqn:E; [apply fin0_const|].
  pose proof (flt_0_nonneg _ Ht E) as Hn.
  assert (fin0 (math_min (fdiv (sw_TokensPerSecond w) (of_int 100)) f1)) as H
    by (apply math_min_1, fdiv_int_nonneg; [done|lia]).
  unfold clamp_low. case_if; [apply fin0_const|done].
Qed.

(** Weights an operator may set: finite and not negative. *)
Definition sane_weights (s : WeightedScorer) : Prop :=
  Forall fin0 [QuantMatchWeight s; VRAMFreeWeight s; GPUUtilWeight s; QueueDepthWeight s;
               LatencyWeight s; LoadedModelBonusWeight s; ThroughputWeight s] /\
  MaxQueueDepth s < 2 ^ 53.

Lemma fmul_fin0 x y : fin0 x -> fin0 y -> nonneg (fmul x y).
Proof. intros [] []. by apply fmul_nonneg. Qed.

(** The sum of a number and a finite one is a number. *)
Lemma fadd_not_nan x y : is_nan y = false -> finite x -> is_nan (fadd y x) = false.
Proof.
  destruct x as [[]|[]| |[] m1 e1], y as [[]|[]| |[] m2 e2]; try done; intros _ _;
    unfold fadd, SFadd, binary_normalize; set (z := _ + _); destruct z as [|p|p]; try done;
    match goal with |- context [binary_round _ _ ?s ?p ?e] =>
      pose proof (binary_round_sign s p e); by destruct (binary_round _ _ _ _ _) end.
Qed.

(** The penalty and the throughput term do not overflow (weights near the top
    of the [float64] range could make them). *)
Definition terms_finite (s : WeightedScorer) (m : ModelInfo) (w : SchedWorker) : Prop :=
  finite (fmul (ColdLoadPenaltyWeight s) (loadScores m w).2) /\
  finite (fmul (ThroughputWeight s) (throughputScore s w)).

Lemma weightedSum_not_nan s request m w :
  sane_weights s -> sane_report w -> terms_finite s m w ->
  is_nan (weightedSum s request m w) = false.
Proof.
  intros [Hw Hq] Hr [Hp Ht]. rewrite !Forall_cons in Hw. destruct Hw as (? & ? & ? & ? & ? & ? & ? & _).
  unfold weightedSum. destruct (loadScores m w) as [lb cs] eqn:El. simpl in Hp.
  pose proof (loadedBonus_fin0 m w) as Hlb. rewrite El in Hlb. simpl in Hlb.
  set (a := fadd _ (fmul (LoadedModelBonusWeight s) lb)).
  assert (nonneg a) as Ha.
  { subst a. repeat apply fadd_nonneg; apply fmul_fin0; auto using quantMatchScore_fin0,
      vramFreeRatio_fin0, gpuUtilScore_fin0, queueDepthScore_fin0, latencyScore_fin0. }
  apply fadd_not_nan; [|done].
  destruct a as [sa|[]| |sa ma ea]; try done; destruct (fmul _ cs) as [sp|[]| |sp mp ep]; try done;
    by apply fsub_not_nan.
Qed.

(** A score lies between 0 and 1: for finite non-negative weights and a
    worker whose report holds no NaN, no negative VRAM and counts a float64
    represents, it is never NaN, so selection compares numbers. *)
Theorem WeightedScore_range now s request w x :
  sane_weights s -> sane_report w -> (forall m, m ∈ sw_Models w -> terms_finite s m w) ->
  WeightedScore now s request w = inl x ->
  is_nan x = false /\ fle f0 x = true /\ fle x f1 = true.
Proof.
  intros Hs Hr Ht Hx. unfold WeightedScore in Hx.
  destruct (findModel _ _) as [m|] eqn:Em; [|by destruct (_ <? _)].
  assert (m ∈ sw_Models w) as Hm by (apply list_elem_of_In; by eapply List.find_some).
  assert (x = clamp01 (weightedSum s request m w)) as -> by (repeat case_match; naive_solver).
  pose proof (weightedSum_not_nan s request m w Hs Hr (Ht m Hm)) as Hn.
  split; [apply nonneg_not_nan; by apply clamp01_fin0|].
  by apply clamp_range.
Qed.

(** ** Concrete instances *)

Definition ex_model : ModelInfo :=
  {| mi_Name := "llama"; mi_Size := 7; mi_Quantization := "Q8"; mi_MaxTokens := 4096; mi_Backend := "ollama";
     mi_Loaded := true |}.

Definition ex_worker (id : string) (depth : Z) : SchedWorker :=
  {| sw_ID := id; sw_Addr := "10.0.0.1:1"; sw_Models := [ex_model]; sw_VRAMTotalMB := 24000;
     sw_VRAMFreeMB := 12000; sw_GPUUtilPct := of_int 25; sw_QueueDepth := depth; sw_InFlight := 0;
     sw_MaxInFlight := 4; sw_AvgLatencyMS := of_int 200; sw_LastHeartbeat := 100; sw_TokensPerSecond := of_int 40;
     sw_AllowedModels := []; sw_ExcludedModels := ["mistral"] |}.

Definition ex_request : ModelRequest :=
  {| rq_Model := "llama"; rq_Quantization := "Q4"; rq_MaxVRAMMB := 8000; rq_MinVRAMMB := 0 |}.

Definition ex_workers : list SchedWorker := [ex_worker "a" 8; ex_worker "b" 1; ex_worker "c" 1].

Example select_idle :
  match SelectWorker 200 (DefaultScoringAlgorithm 200) ex_request ex_workers second with
  | inl sel => sw_ID (sel_Worker sel) = "b"
  | inr _ => False
  end.
Proof. vm_compute. done. Qed.

Lemma SelectWorker_best_witness :
  match SelectWorker 200 (DefaultScoringAlgorithm 200) ex_request ex_workers second with
  | inl sel => sel_Worker sel ∈ @considered ex_request 200 ex_workers second
  | inr _ => False
  end.
Proof.
  destruct (SelectWorker 200 (DefaultScoringAlgorithm 200) ex_request ex_workers second) as [sel|] eqn:E;
    [|vm_compute in E; discriminate].
  apply (SelectWorker_best 200 (DefaultScoringAlgorithm 200) ex_request ex_workers second sel); [|exact E].
  vm_compute. repeat constructor.
Defined.

Lemma WeightedScore_range_witness :
  match WeightedScore 200 NewWeightedScorer ex_request (ex_worker "a" 8) with
  | inl x => is_nan x = false /\ fle f0 x = true /\ fle x f1 = true
  | inr _ => False
  end.
Proof.
  destruct (WeightedScore 200 NewWeightedScorer ex_request (ex_worker "a" 8)) as [x|] eqn:E;
    [|vm_compute in E; discriminate].
  apply (WeightedScore_range 200 NewWeightedScorer ex_request (ex_worker "a" 8) x); [..|exact E].
  - split; [vm_compute; repeat constructor|reflexivity].
  - vm_compute. repeat split; discriminate.
  - clear E. intros m _. destruct (mi_Loaded m) eqn:Hm; unfold terms_finite, loadScores; rewrite Hm; vm_compute; done.
Defined.
