(* ===== verification/CapabilityCache.v ===== *)
(** * CapabilityCache: the router's view of the fleet ([capability_cache.go])

    The cache keeps, per worker, the last description with its capabilities,
    and apart from it the throughput snapshots the worker advertised.  The HTTP
    GET of [/capabilities] with the decoding of its body is a parameter.  The
    event loop of [Start] is [handleEvent], one registry event at a time;
    between its two critical sections another goroutine can read, so the
    intermediate states have names of their own. *)

From S2P Require Import Prelude GoFloat Errors Protocol Registry.

(** ** Data *)

Record WorkerInferenceStats := {
  wis_WorkerID : string;
  wis_Model : string;
  wis_TokensPerSecond : float64;
  wis_AvgTTFTMs : float64;
  wis_AvgPromptTokens : float64;
  wis_AvgCompletionTokens : float64;
  wis_Samples : Z;
}.

Definition zero_WorkerInferenceStats : WorkerInferenceStats :=
  {| wis_WorkerID := ""; wis_Model := ""; wis_TokensPerSecond := f0; wis_AvgTTFTMs := f0;
     wis_AvgPromptTokens := f0; wis_AvgCompletionTokens := f0; wis_Samples := 0 |}.

Definition workerInferenceStats (workerID : string) (s : InferenceStatsSnapshot) : WorkerInferenceStats :=
  {| wis_WorkerID := workerID; wis_Model := iss_Model s; wis_TokensPerSecond := iss_TokensPerSecond s;
     wis_AvgTTFTMs := iss_AvgTTFTMs s; wis_AvgPromptTokens := iss_AvgPromptTokens s;
     wis_AvgCompletionTokens := iss_AvgCompletionTokens s; wis_Samples := iss_Samples s |}.

Record CapabilityCache := {
  cc_cache : gmap string WorkerInfo;
  cc_stats : gmap string (gmap string WorkerInferenceStats);
}.

Definition NewCapabilityCache : CapabilityCache := {| cc_cache := ∅; cc_stats := ∅ |}.

(** ** Operations *)

Definition Get (c : CapabilityCache) (id : string) : WorkerInfo * bool :=
  match cc_cache c !! id with
  | Some w => (w, true)
  | None => (zero_WorkerInfo, false)
  end.

(** [order] is the order in which the loop meets the entries of the map. *)
Definition List_ (order : list (string * WorkerInfo)) : list WorkerInfo := map snd order.

Definition seed (w : WorkerInfo) (c : CapabilityCache) : CapabilityCache :=
  {| cc_cache := <[wi_ID w := w]> (cc_cache c); cc_stats := cc_stats c |}.

(** The loop of [setInferenceStats] that builds the map of one worker. *)
Definition hydrate (workerID : string) (snaps : list InferenceStatsSnapshot) : gmap string WorkerInferenceStats :=
  foldl (fun byModel s => <[iss_Model s := workerInferenceStats workerID s]> byModel) ∅ snaps.

Definition setInferenceStats (workerID : string) (snaps : list InferenceStatsSnapshot) (c : CapabilityCache) : CapabilityCache :=
  {| cc_cache := cc_cache c;
     cc_stats :=
       if (length snaps =? 0)%nat then delete workerID (cc_stats c)
       else <[workerID := hydrate workerID snaps]> (cc_stats c) |}.

Definition deleteWorkerInferenceStats (workerID : string) (c : CapabilityCache) : CapabilityCache :=
  {| cc_cache := cc_cache c; cc_stats := delete workerID (cc_stats c) |}.

Definition GetInferenceStats (c : CapabilityCache) (workerID model : string) : WorkerInferenceStats * bool :=
  match cc_stats c !! workerID with
  | None => (zero_WorkerInferenceStats, false)
  | Some byModel =>
      match byModel !! model with
      | Some s => (s, true)
      | None => (zero_WorkerInferenceStats, false)
      end
  end.

(** The order of [ListInferenceStats]: worker, then model. *)
Definition stats_le (a b : WorkerInferenceStats) : bool :=
  if bool_decide (wis_WorkerID a = wis_WorkerID b) then String.leb (wis_Model a) (wis_Model b)
  else String.leb (wis_WorkerID a) (wis_WorkerID b).

(** [order] holds, for each entry of the outer map in the order met, the entries
    of the inner one in the order met. *)
Definition ListInferenceStats (order : list (list (string * WorkerInferenceStats))) : list WorkerInferenceStats :=
  sort_by stats_le (concat (map (map snd) order)).

Section update.
(** [client.Get(url)] and [Decode]: a transport error, or the status with the
    decoding of the body. *)
Context (http_get : WorkerInfo -> result (Z * result WorkerInfo)).

Definition fetchCapabilities (w : WorkerInfo) : result Capabilities :=
  if bool_decide (wi_Transport w = TransportWS) then inl (wi_Capabilities w)
  else
    match http_get w with
    | inr e => inr (Wrap [e])
    | inl (status, body) =>
        if negb (status =? 200) then inr (ErrorsNew "unexpected status")
        else
          match body with
          | inr e => inr (Wrap [e])
          | inl workerResp => inl (wi_Capabilities workerResp)
          end
    end.

(** [Update]: the state after it, and whether it failed. *)
Definition Update (w : WorkerInfo) (c : CapabilityCache) : CapabilityCache * option goerr :=
  let c := seed w c in
  match fetchCapabilities w with
  | inr e => (c, Some e)
  | inl caps =>
      let w := with_Capabilities caps w in
      let c := seed w c in
      (setInferenceStats (wi_ID w) (cap_InferenceStats caps) c, None)
  end.

(** The body of the loop of [Start]. *)
Definition handleEvent (event : Event) (c : CapabilityCache) : CapabilityCache :=
  match ev_Type event with
  | RegisterAdded | RegistryUpdated => (Update (ev_Worker event) c).1
  | RegistryRemoved | RegistryUnavailable =>
      let c := {| cc_cache := delete (wi_ID (ev_Worker event)) (cc_cache c); cc_stats := cc_stats c |} in
      deleteWorkerInferenceStats (wi_ID (ev_Worker event)) c
  | EventZero => c
  end.
End update.

(** ** Invariant *)

(** Entries carry their key as ID; throughput is kept only for known workers,
    under the worker and model it is labelled with. *)
Definition wf_stats (c : CapabilityCache) : Prop :=
  map_Forall (fun id byModel => byModel <> ∅ /\
    map_Forall (fun m s => wis_WorkerID s = id /\ wis_Model s = m) byModel) (cc_stats c).

Definition wf (c : CapabilityCache) : Prop :=
  map_Forall (fun id w => wi_ID w = id) (cc_cache c) /\
  dom (cc_stats c) ⊆ dom (cc_cache c) /\
  wf_stats c.

(** The entry of a model is the last snapshot of the list that names it. *)
Lemma hydrate_lookup id snaps m :
  hydrate id snaps !! m =
    workerInferenceStats id <$> last (List.filter (fun s => String.eqb (iss_Model s) m) snaps).
Proof.
  unfold hydrate. induction snaps as [|s snaps IH] using rev_ind; [done|].
  rewrite foldl_snoc, filter_b_app. simpl. destruct (String.eqb_spec (iss_Model s) m) as [<-|Hne].
  - by rewrite lookup_insert_eq, last_snoc.
  - by rewrite lookup_insert_ne, app_nil_r, IH.
Qed.

Lemma hydrate_wf id snaps :
  map_Forall (fun m s => wis_WorkerID s = id /\ wis_Model s = m) (hydrate id snaps).
Proof.
  intros m s. rewrite hydrate_lookup. intros (x & Hx%last_Some_elem_of & ->)%fmap_Some.
  apply elem_of_filter_b in Hx as [_ Hx%String.eqb_eq]. done.
Qed.

Lemma hydrate_nonempty id snaps : snaps <> [] -> hydrate id snaps <> ∅.
Proof.
  destruct snaps as [|s snaps _] using rev_ind; [done|]. intros _ H.
  unfold hydrate in H. rewrite foldl_snoc in H. by apply insert_non_empty in H.
Qed.

Lemma wf_new : wf NewCapabilityCache.
Proof. split_and!; [apply map_Forall_empty|set_solver|apply map_Forall_empty]. Qed.

Lemma wf_seed w c : wf c -> wf (seed w c).
Proof.
  intros (H1 & H2 & H3). split_and!; simpl; [by apply map_Forall_insert_2|set_solver|done].
Qed.

Lemma wf_setInferenceStats id snaps c : id ∈ dom (cc_cache c) -> wf c -> wf (setInferenceStats id snaps c).
Proof.
  intros Hid (H1 & H2 & H3). unfold setInferenceStats. destruct snaps as [|s snaps].
  - split_and!; simpl; [done|set_solver|by apply map_Forall_delete].
  - change (_ =? _)%nat with false. cbv iota. split_and!; [done|simpl; set_solver|].
    apply map_Forall_insert_2; [|done]. split; [by apply hydrate_nonempty|apply hydrate_wf].
Qed.

Lemma wf_Update http_get w c : wf c -> wf (Update http_get w c).1.
Proof.
  intros H. unfold Update. destruct (fetchCapabilities _ _); simpl; [|by apply wf_seed].
  apply wf_setInferenceStats; [|by do 2 apply wf_seed]. simpl. set_solver.
Qed.

Lemma wf_forget id c : wf c -> wf {| cc_cache := delete id (cc_cache c); cc_stats := delete id (cc_stats c) |}.
Proof.
  intros (H1 & H2 & H3). split_and!; simpl; [by apply map_Forall_delete|set_solver|by apply map_Forall_delete].
Qed.

(** The events a registry delivers, each with the answers of the network to the
    fetch it may cause. *)
Abbreviation network := (WorkerInfo -> result (Z * result WorkerInfo)) (only parsing).

Definition run (events : list (network * Event)) (c : CapabilityCache) : CapabilityCache :=
  foldl (fun c p => handleEvent p.1 p.2 c) c events.

#[export] Hint Resolve wf_new wf_Update wf_forget : infermesh.

(** ** Theorems *)

(** Whatever the registry announces and whatever the network answers, the
    cache stays well-formed: a worker is stored under its ID, and throughput is
    kept only for a cached worker, under its own ID and model. *)
Theorem capability_cache_invariant events : wf (run events NewCapabilityCache).
Proof.
  unfold run. induction events as [|[net e] events IH] using rev_ind; [apply wf_new|].
  rewrite foldl_snoc. unfold handleEvent at 1. cbn [fst snd].
  destruct (ev_Type e); [by apply wf_Update|by apply wf_Update|exact (wf_forget _ _ IH)|exact (wf_forget _ _ IH)|done].
Qed.

(** The last event of a worker decides what the cache holds of it. *)
Definition entry_after (net : network) (e : Event) : option WorkerInfo :=
  match ev_Type e with
  | RegisterAdded | RegistryUpdated =>
      Some (match fetchCapabilities net (ev_Worker e) with
            | inl caps => with_Capabilities caps (ev_Worker e)
            | inr _ => ev_Worker e
            end)
  | _ => None
  end.

Definition concerns (id : string) (p : network * Event) : bool :=
  String.eqb (wi_ID (ev_Worker p.2)) id && negb (bool_decide (ev_Type p.2 = EventZero)).

Lemma handleEvent_cache net e c id :
  cc_cache (handleEvent net e c) !! id =
    if concerns id (net, e) then entry_after net e else cc_cache c !! id.
Proof.
  unfold handleEvent, concerns, entry_after, Update. simpl.
  destruct (String.eqb_spec (wi_ID (ev_Worker e)) id) as [<-|Hne];
    destruct (ev_Type e); simpl; try done; try (destruct (fetchCapabilities _ _); simpl);
    by rewrite ?lookup_insert_eq, ?lookup_delete_eq, ?lookup_insert_ne, ?lookup_delete_ne by done.
Qed.

(** The cache is a function of the last event about each worker: an
    announcement leaves the description announced, with the fetched
    capabilities when the fetch succeeded, a departure leaves nothing. *)
Theorem capability_cache_last_event events id :
  cc_cache (run events NewCapabilityCache) !! id =
    match last (List.filter (concerns id) events) with
    | Some (net, e) => entry_after net e
    | None => None
    end.
Proof.
  unfold run. induction events as [|[net e] events IH] using rev_ind; [done|].
  rewrite foldl_snoc, filter_b_app, handleEvent_cache. cbn [List.filter fst snd].
  destruct (concerns id (net, e)); [by rewrite last_snoc|]. by rewrite app_nil_r.
Qed.

(** [order] is a run of the two nested loops over the map. *)
Definition iterates (c : CapabilityCache) (order : list (list (string * WorkerInferenceStats))) : Prop :=
  exists l, l ≡ₚ map_to_list (cc_stats c) /\ Forall2 (fun p o => o ≡ₚ map_to_list p.2) l order.

Lemma stats_le_total a b : stats_le a b = true \/ stats_le b a = true.
Proof.
  unfold stats_le. destruct (decide (wis_WorkerID a = wis_WorkerID b)) as [E|E].
  - rewrite !bool_decide_true by congruence. apply string_leb_total.
  - rewrite !bool_decide_false by congruence. apply string_leb_total.
Qed.

Lemma stats_le_trans a b c : stats_le a b = true -> stats_le b c = true -> stats_le a c = true.
Proof.
  unfold stats_le. destruct (decide (wis_WorkerID a = wis_WorkerID b)) as [E1|E1].
  - rewrite E1, (bool_decide_true (_ = _)) by done. case_bool_decide; [apply string_leb_trans|auto].
  - rewrite (bool_decide_false (wis_WorkerID a = _)) by done.
    destruct (decide (wis_WorkerID b = wis_WorkerID c)) as [E2|E2].
    + rewrite <- E2, (bool_decide_true (wis_WorkerID b = _)), (bool_decide_false (wis_WorkerID a = _)) by done. auto.
    + rewrite (bool_decide_false (wis_WorkerID b = _)) by done. intros H1 H2.
      rewrite bool_decide_false; [by eapply string_leb_trans|].
      intros E3. destruct E1. apply string_leb_antisym; [done|]. by rewrite E3.
Qed.

Lemma stats_le_antisym a b :
  stats_le a b = true -> stats_le b a = true -> wis_WorkerID a = wis_WorkerID b /\ wis_Model a = wis_Model b.
Proof.
  unfold stats_le. intros H1 H2. destruct (decide (wis_WorkerID a = wis_WorkerID b)) as [E|E].
  - rewrite bool_decide_true in * by congruence. split; [done|]. by apply string_leb_antisym.
  - rewrite bool_decide_false in * by congruence. destruct E. by apply string_leb_antisym.
Qed.

Lemma iterates_elem c order s :
  iterates c order ->
  s ∈ concat (map (map snd) order) <->
  exists id byModel m, cc_stats c !! id = Some byModel /\ byModel !! m = Some s.
Proof.
  intros (l & Hl & HF).
  assert (s ∈ concat (map (map snd) order) <->
          exists p m, p ∈ map_to_list (cc_stats c) /\ p.2 !! m = Some s) as ->.
  { setoid_rewrite <- Hl. clear Hl. induction HF as [|p o l order Hp HF IH]; simpl; [set_solver|].
    rewrite elem_of_app, IH. setoid_rewrite elem_of_cons. rewrite list_elem_of_fmap.
    setoid_rewrite Hp. split.
    - intros [([m s'] & -> & Hm%elem_of_map_to_list)|(q & m & Hq & Hm)]; [exists p, m|exists q, m]; auto.
    - intros (q & m & [->|Hq] & Hm); [left; exists (m, s); by rewrite elem_of_map_to_list|right; eauto]. }
  split.
  - intros ([id byModel] & m & Hp%elem_of_map_to_list & Hm). eauto.
  - intros (id & byModel & m & Hid%elem_of_map_to_list & Hm). by exists (id, byModel), m.
Qed.

Lemma iterates_perm c order order' :
  iterates c order' -> iterates c order -> concat (map (map snd) order') ≡ₚ concat (map (map snd) order).
Proof.
  assert (forall o, iterates c o ->
    concat (map (map snd) o) ≡ₚ concat (map (fun p => map snd (map_to_list p.2)) (map_to_list (cc_stats c)))) as H.
  { intros o (l & <- & HF). induction HF as [|p q l o Hp HF IH]; simpl; [done|]. by rewrite Hp, IH. }
  intros H1%H H2%H. by rewrite H1, H2.
Qed.

(** The listing of throughput holds exactly the entries kept, strictly
    ordered by worker and model, and is the same whatever order the two map
    iterations take. *)
Theorem ListInferenceStats_spec c order :
  wf_stats c -> iterates c order ->
  (forall s, s ∈ ListInferenceStats order <-> GetInferenceStats c (wis_WorkerID s) (wis_Model s) = (s, true)) /\
  StronglySorted (fun a b => stats_le a b = true) (ListInferenceStats order) /\
  (forall order', iterates c order' -> ListInferenceStats order' = ListInferenceStats order).
Proof.
  intros Hwf Hit.
  assert (forall order s, iterates c order -> s ∈ concat (map (map snd) order) <->
            GetInferenceStats c (wis_WorkerID s) (wis_Model s) = (s, true)) as Hin.
  { intros o s Ho. rewrite (iterates_elem _ _ _ Ho). unfold GetInferenceStats. split.
    - intros (id & byModel & m & Hid & Hm). destruct (Hwf _ _ Hid) as [_ Hl].
      destruct (Hl _ _ Hm) as [-> ->]. by rewrite Hid, Hm.
    - destruct (cc_stats c !! wis_WorkerID s) as [byModel|] eqn:Hid; [|done].
      destruct (byModel !! wis_Model s) as [s'|] eqn:Hm; [|done]. intros [= ->]. eauto. }
  split_and!.
  - intros s. unfold ListInferenceStats. rewrite elem_of_sort_by. by apply Hin.
  - apply sort_by_sorted; [apply stats_le_total|apply stats_le_trans].
  - intros order' Hit'. apply sort_by_unique; [apply stats_le_total|apply stats_le_trans|..].
    + intros x y Hx%(Hin _ _ Hit') Hy%(Hin _ _ Hit) H1 H2.
      destruct (stats_le_antisym _ _ H1 H2) as [E1 E2]. rewrite E1, E2 in Hx. congruence.
    + by apply iterates_perm with c.
Qed.

(** ** Concrete instances *)

Definition ex_snap (m : string) (t : Z) : InferenceStatsSnapshot :=
  {| iss_Model := m; iss_TokensPerSecond := of_int t; iss_AvgTTFTMs := f0; iss_AvgPromptTokens := f0;
     iss_AvgCompletionTokens := f0; iss_Samples := 1 |}.

Definition ex_cache : CapabilityCache := setInferenceStats "w" [ex_snap "b" 10; ex_snap "a" 20; ex_snap "b" 30]
  (seed (with_ID "w" zero_WorkerInfo) NewCapabilityCache).

Example ex_last_wins : (GetInferenceStats ex_cache "w" "b").1 = workerInferenceStats "w" (ex_snap "b" 30).
Proof. reflexivity. Qed.

Lemma iterates_self c : iterates c (map (fun p => map_to_list p.2) (map_to_list (cc_stats c))).
Proof.
  eexists. split; [reflexivity|]. induction (map_to_list (cc_stats c)); simpl; by constructor.
Qed.

Lemma ListInferenceStats_spec_witness :
  map (fun s => wis_Model s)
    (ListInferenceStats (map (fun p => map_to_list p.2) (map_to_list (cc_stats ex_cache)))) = ["a"; "b"] /\
  StronglySorted (fun a b => stats_le a b = true)
    (ListInferenceStats (map (fun p => map_to_list p.2) (map_to_list (cc_stats ex_cache)))).
Proof.
  split; [vm_compute; reflexivity|].
  apply (ListInferenceStats_spec ex_cache); [|apply iterates_self].
  apply wf_setInferenceStats; [simpl; set_solver|]. apply wf_seed, wf_new.
Defined.
