(* ===== verification/QueueStats.v ===== *)
(** * QueueStats: the queue-wait reservoir and its percentiles ([queue_stats.go])

    Reservoir sampling over a fixed array, with the draw of the random generator
    as an argument of [record], and nearest-rank percentiles of a snapshot. *)

From S2P Require Import Prelude GoFloat.

Definition QueueStatsCapacity : nat := 1024.

Record WorkerQueueStats := {
  wqs_WorkerID : string;
  wqs_QueueDepth : Z;
  wqs_InFlight : Z;
  wqs_MaxInFlight : Z;
  wqs_AvgWaitMs : float64;
  wqs_Rejected429Total : Z;
  wqs_Rejected504Total : Z;
}.

Definition zero_WorkerQueueStats : WorkerQueueStats :=
  {| wqs_WorkerID := ""; wqs_QueueDepth := 0; wqs_InFlight := 0; wqs_MaxInFlight := 0; wqs_AvgWaitMs := f0;
     wqs_Rejected429Total := 0; wqs_Rejected504Total := 0 |}.

Record PoolQueueStats := {
  pqs_TotalQueued : Z;
  pqs_TotalInFlight : Z;
  pqs_TotalRejected429 : Z;
  pqs_TotalRejected504 : Z;
  pqs_QueueTimeP50Ms : float64;
  pqs_QueueTimeP95Ms : float64;
  pqs_QueueTimeP99Ms : float64;
}.

Record QueueStatsResponse := {
  qsr_Workers : list WorkerQueueStats;
  qsr_Pool : PoolQueueStats;
}.

(** ** The reservoir *)

Record reservoir := {
  samples : list Duration;
  count : Z;
}.

Definition newReservoir : reservoir := {| samples := replicate QueueStatsCapacity 0; count := 0 |}.

(** [record d]; [j] is what [rng.Int63n(i + 1)] returns, if it is drawn. *)
Definition record (d : Duration) (j : Z) (r : reservoir) : reservoir :=
  let i := count r in
  let r := {| samples := samples r; count := wrap64 (count r + 1) |} in
  if i <? Z.of_nat QueueStatsCapacity then
    {| samples := <[Z.to_nat i := d]> (samples r); count := count r |}
  else if j <? Z.of_nat QueueStatsCapacity then
    {| samples := <[Z.to_nat j := d]> (samples r); count := count r |}
  else r.

Definition snapshot (r : reservoir) : list Duration :=
  let n := Z.of_nat QueueStatsCapacity in
  let n := if count r <? n then count r else n in
  take (Z.to_nat n) (samples r).

Definition idx (n p : Z) : Z :=
  if n <=? 0 then 0
  else
    let i := Z.quot (n * p) 100 in
    if n <=? i then n - 1 else i.

Definition percentiles (r : reservoir) : Duration * Duration * Duration :=
  let samples := snapshot r in
  if (length samples =? 0)%nat then (0, 0, 0)
  else
    let samples := sort_by Z.leb samples in
    let n := Z.of_nat (length samples) in
    (nth (Z.to_nat (idx n 50)) samples 0, nth (Z.to_nat (idx n 95)) samples 0,
     nth (Z.to_nat (idx n 99)) samples 0).

(** [queueMetrics] is a possibly nil pointer to a reservoir. *)
Abbreviation queueMetrics := (option reservoir) (only parsing).

Definition recordWait (d : Duration) (j : Z) (q : queueMetrics) : queueMetrics := record d j <$> q.

Definition queue_percentiles (q : queueMetrics) : Duration * Duration * Duration :=
  match q with
  | None => (0, 0, 0)
  | Some r => percentiles r
  end.

Definition floatMs (d : Duration) : float64 := fdiv (of_int d) (of_int millisecond).

(** ** Recording a history *)

(** The waits recorded, oldest first, each with the draw made for it. *)
Definition record_all (h : list (Duration * Z)) : reservoir :=
  foldl (fun r p => record p.1 p.2 r) newReservoir h.

(** The draws [Int63n] may return: the [i]-th is at least 0. *)
Definition draws_ok (h : list (Duration * Z)) : Prop := Forall (fun p => 0 <= p.2) h.

(** The valid part of the array holds recorded waits only: all of them, in
    order, until the array is full. *)
Definition reservoir_inv (h : list (Duration * Z)) (r : reservoir) : Prop :=
  count r = Z.of_nat (length h) /\ length (samples r) = QueueStatsCapacity /\
  ((length h <= QueueStatsCapacity)%nat -> take (length h) (samples r) = h.*1) /\
  ((QueueStatsCapacity <= length h)%nat -> samples r ⊆ h.*1).

Lemma QueueStatsCapacity_pos : (0 < QueueStatsCapacity)%nat.
Proof. unfold QueueStatsCapacity. lia. Qed.

Opaque QueueStatsCapacity.

Lemma take_insert_snoc {A} (l : list A) n x :
  (n < length l)%nat -> take (S n) (<[n:=x]> l) = take n l ++ [x].
Proof.
  intros H. rewrite (take_S_r _ _ x) by by apply list_lookup_insert_eq. by rewrite take_insert_ge.
Qed.

Lemma insert_subseteq {A} (l k : list A) n x : x ∈ k -> l ⊆ k -> <[n:=x]> l ⊆ k.
Proof.
  intros Hx Hl y Hy. apply list_elem_of_lookup in Hy as [i Hi].
  apply list_lookup_insert_Some in Hi as [(-> & -> & _)|[_ Hi]]; [done|].
  apply Hl. by eapply list_elem_of_lookup_2.
Qed.

Lemma record_all_inv h :
  Z.of_nat (length h) < 2 ^ 63 -> draws_ok h -> reservoir_inv h (record_all h).
Proof.
  unfold record_all, draws_ok. induction h as [|[d j] h IH] using rev_ind; intros Hlen Hd.
  { pose proof QueueStatsCapacity_pos. split_and!; [done|apply length_replicate|done|simpl; lia]. }
  rewrite length_app in Hlen. simpl in Hlen. apply Forall_app in Hd as [Hd Hj].
  apply Forall_singleton in Hj. simpl in Hj.
  destruct (IH ltac:(lia) Hd) as (Hc & Hl & Hsmall & Hbig).
  rewrite foldl_snoc. cbn [fst snd]. set (r := foldl _ _ h) in *. clearbody r.
  assert (wrap64 (count r + 1) = Z.of_nat (length (h ++ [(d, j)]))) as Hw.
  { rewrite wrap64_id, length_app, Hc; cbn [length]; [lia|].
    unfold in_int64, min_int64, max_int64. lia. }
  unfold record, reservoir_inv. cbn [count samples]. rewrite Hw, fmap_app, length_app. simpl.
  destruct (Z.ltb_spec (count r) (Z.of_nat QueueStatsCapacity)) as [Hlt|Hge]; cbn [count samples].
  - rewrite Hc, Nat2Z.id, length_insert, Nat.add_1_r.
    assert (take (S (length h)) (<[length h:=d]> (samples r)) = h.*1 ++ [d]) as Ht
      by (rewrite take_insert_snoc, Hsmall by lia; done).
    split_and!; [done|done|done|]. intros ?. rewrite <- Ht, take_ge; [done|]. rewrite length_insert. lia.
  - destruct (Z.ltb_spec j (Z.of_nat QueueStatsCapacity)); cbn [count samples];
      rewrite ?length_insert; (split_and!; [done|done|lia|]); intros _.
    + apply insert_subseteq; [set_solver|]. etrans; [apply Hbig; lia|set_solver].
    + etrans; [apply Hbig; lia|set_solver].
Qed.

(** ** Ranks *)

(** How many of the samples satisfy a test. *)
Definition tally (f : Z -> bool) (l : list Z) : Z := Z.of_nat (length (List.filter f l)).

Lemma tally_perm f l k : l ≡ₚ k -> tally f l = tally f k.
Proof.
  intros H. unfold tally. f_equal. induction H; simpl; [done|..]; repeat case_match; simpl; congruence.
Qed.

Lemma tally_split f n l :
  tally f l = tally f (take n l) + tally f (drop n l).
Proof. unfold tally. rewrite <- (take_drop n l) at 1. rewrite filter_b_app, length_app. lia. Qed.

Lemma tally_bounds f l : 0 <= tally f l <= Z.of_nat (length l).
Proof. unfold tally. pose proof (sublist_length _ _ (filter_b_sublist f l)). lia. Qed.

Lemma tally_all f l : Forall (fun x => f x = true) l -> tally f l = Z.of_nat (length l).
Proof.
  unfold tally. induction 1 as [|x l Hx _ IH]; simpl; [done|]. rewrite Hx. simpl. lia.
Qed.

Lemma tally_none f l : Forall (fun x => f x = false) l -> tally f l = 0.
Proof. unfold tally. induction 1 as [|x l Hx _ IH]; simpl; [done|]. by rewrite Hx. Qed.

(** In a sorted list the element at [i] has more than [i] elements at most
    equal to it, and at most [i] elements below it. *)
Lemma sorted_rank l i v :
  StronglySorted (fun a b => (a <=? b) = true) l -> l !! i = Some v ->
  Z.of_nat i < tally (fun s => s <=? v) l /\ tally (fun s => s <? v) l <= Z.of_nat i.
Proof.
  intros Hs Hi. pose proof (lookup_lt_Some _ _ _ Hi) as Hlt. split.
  - rewrite (tally_split _ (S i)), (tally_all _ (take (S i) l)).
    + rewrite length_take. pose proof (tally_bounds (fun s => s <=? v) (drop (S i) l)). lia.
    + rewrite (take_S_r _ _ _ Hi), Forall_app, Forall_singleton. split; [|lia].
      apply Forall_lookup. intros k x [Hk Hki]%lookup_take_Some.
      exact (sorted_lookup _ _ k i x v Hs Hk Hi Hki).
  - rewrite (tally_split _ i), (tally_none _ (drop i l)).
    + pose proof (tally_bounds (fun s => s <? v) (take i l)) as H. rewrite length_take in H. lia.
    + apply Forall_lookup. intros k x Hk. rewrite lookup_drop in Hk.
      destruct k as [|k]; [rewrite Nat.add_0_r in Hk; simplify_eq; lia|].
      pose proof (sorted_lookup _ _ i (i + S k) v x Hs Hi Hk ltac:(lia)) as Hle. simpl in Hle. zbool. lia.
Qed.

(** [v] is the nearest-rank percentile [p] of the samples. *)
Definition is_percentile (l : list Duration) (p v : Z) : Prop :=
  v ∈ l /\ p * Z.of_nat (length l) < 100 * tally (fun s => s <=? v) l /\
  100 * tally (fun s => s <? v) l <= p * Z.of_nat (length l).

Lemma idx_spec n p : 0 < n -> 0 <= p < 100 -> 0 <= idx n p < n /\ 100 * idx n p <= p * n < 100 * (idx n p + 1).
Proof.
  intros Hn Hp. unfold idx. rewrite (proj2 (Z.leb_gt n 0)) by lia.
  rewrite Z.quot_div_nonneg by nia.
  pose proof (Z.div_mod (n * p) 100 ltac:(lia)). pose proof (Z.mod_pos_bound (n * p) 100 ltac:(lia)).
  rewrite (proj2 (Z.leb_gt _ _)) by nia. nia.
Qed.

Lemma Zleb_sorted l : StronglySorted (fun a b => (a <=? b) = true) (sort_by Z.leb l).
Proof. apply sort_by_sorted; intros; lia. Qed.

Lemma percentile_rank l p :
  l <> [] -> 0 <= p < 100 ->
  is_percentile l p (nth (Z.to_nat (idx (Z.of_nat (length l)) p)) (sort_by Z.leb l) 0).
Proof.
  intros Hl Hp. set (n := Z.of_nat (length l)).
  assert (0 < n) as Hn by (subst n; destruct l; simpl; [done|lia]).
  destruct (idx_spec n p Hn Hp) as [Hi Hr]. set (i := Z.to_nat (idx n p)).
  destruct (lookup_lt_is_Some_2 (sort_by Z.leb l) i) as [v Hv]; [rewrite sort_by_length; lia|].
  rewrite (nth_lookup_Some _ _ _ _ Hv).
  destruct (sorted_rank _ _ _ (Zleb_sorted l) Hv) as [H1 H2].
  rewrite !(tally_perm _ _ _ (sort_by_perm Z.leb l)) in *.
  split; [|subst i n; lia].
  rewrite <- (elem_of_sort_by Z.leb). by eapply list_elem_of_lookup_2.
Qed.

Lemma idx_mono n p q : 0 < n -> 0 <= p <= q -> q < 100 -> idx n p <= idx n q.
Proof.
  intros Hn Hp Hq. pose proof (idx_spec n p Hn ltac:(lia)). pose proof (idx_spec n q Hn ltac:(lia)). nia.
Qed.

Lemma sorted_nth_mono l i j :
  StronglySorted (fun a b => (a <=? b) = true) l -> (i <= j < length l)%nat -> nth i l 0 <= nth j l 0.
Proof.
  intros Hs Hij. destruct (decide (i = j)) as [->|]; [lia|].
  destruct (lookup_lt_is_Some_2 l i) as [x Hx]; [lia|]. destruct (lookup_lt_is_Some_2 l j) as [y Hy]; [lia|].
  rewrite (nth_lookup_Some _ _ _ _ Hx), (nth_lookup_Some _ _ _ _ Hy).
  pose proof (sorted_lookup _ _ i j x y Hs Hx Hy ltac:(lia)) as H. simpl in H. lia.
Qed.

(** ** Theorems *)

(** The percentiles of a non-empty reservoir are its nearest-rank
    percentiles (more than p percent of the samples are at most the value, at
    most p percent below it), and they are in order. *)
Theorem percentiles_spec r :
  snapshot r <> [] ->
  let '(p50, p95, p99) := percentiles r in
  Forall2 (is_percentile (snapshot r)) [50; 95; 99] [p50; p95; p99] /\ p50 <= p95 <= p99.
Proof.
  intros Hne. unfold percentiles. destruct (length (snapshot r) =? 0)%nat eqn:E.
  { apply Nat.eqb_eq, length_zero_iff_nil in E. done. }
  rewrite sort_by_length. set (l := snapshot r) in *. clearbody l.
  assert (0 < Z.of_nat (length l)) as Hn by (destruct l; simpl; [done|lia]).
  split; [repeat constructor; apply percentile_rank; done || lia|].
  pose proof (idx_mono _ 50 95 Hn ltac:(lia) ltac:(lia)).
  pose proof (idx_mono _ 95 99 Hn ltac:(lia) ltac:(lia)).
  pose proof (idx_spec _ 50 Hn ltac:(lia)). pose proof (idx_spec _ 95 Hn ltac:(lia)).
  pose proof (idx_spec _ 99 Hn ltac:(lia)).
  split; (apply sorted_nth_mono; [apply Zleb_sorted|]); rewrite sort_by_length; lia.
Qed.

(** The snapshot of the reservoir after any history of waits: all of them
    while they fit, and always [min(count, capacity)] of the waits recorded,
    whatever the random draws. *)
Theorem reservoir_snapshot h :
  Z.of_nat (length h) < 2 ^ 63 -> draws_ok h ->
  let r := record_all h in
  length (snapshot r) = Nat.min (length h) QueueStatsCapacity /\
  snapshot r ⊆ h.*1 /\
  ((length h <= QueueStatsCapacity)%nat -> snapshot r = h.*1).
Proof.
  intros Hh Hd. destruct (record_all_inv h Hh Hd) as (Hc & Hl & Hs & Hb). simpl. unfold snapshot.
  rewrite Hc. destruct (Z.ltb_spec (Z.of_nat (length h)) (Z.of_nat QueueStatsCapacity)).
  - rewrite Nat2Z.id, length_take, Hl. split; [lia|]. rewrite Hs by lia. split; [done|auto].
  - rewrite Nat2Z.id, length_take, Hl. split; [lia|]. rewrite take_ge by lia. split; [apply Hb; lia|].
    intros ?. rewrite <- Hs by lia. rewrite take_ge; [done|lia].
Qed.

(** ** Concrete instances *)

Definition ex_history : list (Duration * Z) := [(30, 0); (10, 0); (20, 0); (40, 0)].

Lemma percentiles_spec_witness :
  percentiles (record_all ex_history) = (30, 40, 40) /\
  (let '(p50, p95, p99) := percentiles (record_all ex_history) in p50 <= p95 <= p99).
Proof.
  split; [vm_compute; reflexivity|].
  pose proof (percentiles_spec (record_all ex_history)) as H.
  destruct (percentiles (record_all ex_history)) as [[p50 p95] p99]. apply H. vm_compute. discriminate.
Defined.

Lemma reservoir_snapshot_witness :
  snapshot (record_all ex_history) = ex_history.*1.
Proof.
  apply reservoir_snapshot; [reflexivity|repeat constructor; discriminate|].
  apply Nat.leb_le. vm_compute. reflexivity.
Defined.
