(* ===== verification/CallCounter.v ===== *)
(** * CallCounter: model calls over a rolling window ([call_counter.go])

    The mutex makes each method atomic, so a method is a function of the state
    and of the instant [time.Now()] returned while the lock was held.  The
    goroutine of [Start] is [Pruner] below, which [RequestTracker] shares. *)

From S2P Require Import Prelude.

Record callEvent := { ce_model : string; ce_when : Time }.

Record CallCounter := {
  counts : gmap string Z;
  window : Duration;
  events : list callEvent;
}.

Definition NewCallCounter (window : Duration) : CallCounter :=
  {| counts := ∅; window := window; events := [] |}.

(** The decrement in the body of the loop of [prune]. *)
Definition uncount (model : string) (counts : gmap string Z) : gmap string Z :=
  match counts !! model with
  | Some count => if count <=? 1 then delete model counts else <[model := wrap64 (count - 1)]> counts
  | None => counts
  end.

(** The loop of [prune]: what is left of the counts and of the events. *)
Fixpoint prune_loop (threshold : Time) (counts : gmap string Z) (events : list callEvent) :
    gmap string Z * list callEvent :=
  match events with
  | [] => (counts, [])
  | e :: events' =>
      if before (ce_when e) threshold then prune_loop threshold (uncount (ce_model e) counts) events'
      else (counts, events)
  end.

Definition prune (now : Time) (c : CallCounter) : CallCounter :=
  let threshold := time_add now (- window c) in
  let '(counts, events) := prune_loop threshold (counts c) (events c) in
  {| counts := counts; window := window c; events := events |}.

Definition Record_ (now : Time) (model : string) (c : CallCounter) : CallCounter :=
  let c := {| counts := <[model := wrap64 ((counts c)@[model|0] + 1)]> (counts c); window := window c;
              events := events c ++ [{| ce_model := model; ce_when := now |}] |} in
  prune now c.

(** The state after it, and the copy of the counts. *)
Definition Snapshot (now : Time) (c : CallCounter) : CallCounter * gmap string Z :=
  let c := prune now c in (c, counts c).

(** ** The pruning goroutine

    The [select] of [Start] as a step relation over the channel [pruneCh] and
    the context: a closed channel is always ready to receive from. *)
Module Pruner.

Record pruner := { running : bool; ticks : nat; closed : bool; cancelled : bool }.

Inductive label := Tick | Woken | Exit | StopCall | CancelCall.

(** [prunes] counts the passes made; [Tick] is the ticker, [Woken] the receive
    from [pruneCh], [Exit] the return on [ctx.Done()]; the last two are the
    steps of the owner. *)
Inductive step : pruner -> label -> pruner -> Prop :=
| step_tick p : running p = true ->
    step p Tick {| running := true; ticks := S (ticks p); closed := closed p; cancelled := cancelled p |}
| step_woken p : running p = true -> closed p = true ->
    step p Woken {| running := true; ticks := S (ticks p); closed := closed p; cancelled := cancelled p |}
| step_exit p : running p = true -> cancelled p = true ->
    step p Exit {| running := false; ticks := ticks p; closed := closed p; cancelled := cancelled p |}
| step_stop p : closed p = false ->
    step p StopCall {| running := running p; ticks := ticks p; closed := true; cancelled := cancelled p |}
| step_cancel p :
    step p CancelCall {| running := running p; ticks := ticks p; closed := closed p; cancelled := true |}.

Definition started : pruner := {| running := true; ticks := 0; closed := false; cancelled := false |}.

Definition reaches (p q : pruner) : Prop := rtc (fun a b => exists l, step a l b) p q.

Lemma exit_needs_cancel p :
  reaches started p -> cancelled p = false -> running p = true.
Proof.
  intros H. enough (cancelled p = false -> running p = true) by done. revert H.
  apply (rtc_invariant _ (fun p => cancelled p = false -> running p = true)); [|done].
  intros a b IH [l Hs]. destruct Hs; simpl in *; auto; congruence.
Qed.

(** After [Stop] the goroutine makes as many passes as one likes, without a tick. *)
Lemma spins p n :
  running p = true -> closed p = true ->
  exists q, nsteps (fun a b => step a Woken b) n p q /\ running q = true /\ closed q = true /\
    ticks q = (n + ticks p)%nat.
Proof.
  revert p. induction n as [|n IH]; intros p Hr Hc; [exists p; split_and!; [constructor|done..]|].
  destruct (IH {| running := true; ticks := S (ticks p); closed := closed p; cancelled := cancelled p |})
    as (q & Hq & ? & ? & Ht); [done..|].
  exists q. split_and!; [|done|done|simpl in Ht; lia]. econstructor; [by apply step_woken|done].
Qed.
End Pruner.

(** ** The counts are those of the events kept *)

(** Calls of a model in a list of events. *)
Definition occurrences (model : string) (es : list callEvent) : Z :=
  Z.of_nat (length (List.filter (fun e => String.eqb (ce_model e) model) es)).

Definition counted (cs : gmap string Z) (es : list callEvent) : Prop :=
  forall m, cs !! m = if 0 <? occurrences m es then Some (occurrences m es) else None.

Lemma occurrences_app m es es' : occurrences m (es ++ es') = occurrences m es + occurrences m es'.
Proof. unfold occurrences. rewrite filter_b_app, length_app. lia. Qed.

Lemma occurrences_cons m e es :
  occurrences m (e :: es) = (if String.eqb (ce_model e) m then 1 else 0) + occurrences m es.
Proof. unfold occurrences. simpl. destruct (String.eqb _ m); simpl; lia. Qed.

Lemma occurrences_bound m es : 0 <= occurrences m es <= Z.of_nat (length es).
Proof. unfold occurrences. pose proof (sublist_length _ _ (filter_b_sublist (fun e => String.eqb (ce_model e) m) es)). lia. Qed.

Lemma uncount_counted e es cs :
  Z.of_nat (S (length es)) < 2 ^ 63 -> counted cs (e :: es) -> counted (uncount (ce_model e) cs) es.
Proof.
  intros Hb Hc m. specialize (Hc m) as Hm. pose proof (Hc (ce_model e)) as He.
  rewrite occurrences_cons in Hm, He. rewrite String.eqb_refl in He.
  pose proof (occurrences_bound (ce_model e) es) as Ho.
  rewrite (proj2 (Z.ltb_lt 0 _)) in He by lia. unfold uncount. rewrite He.
  destruct (decide (ce_model e = m)) as [E|Hne]; [subst m|].
  - destruct (Z.leb_spec (1 + occurrences (ce_model e) es) 1).
    + rewrite lookup_delete_eq. by rewrite (proj2 (Z.ltb_ge 0 _)) by lia.
    + rewrite lookup_insert_eq, (proj2 (Z.ltb_lt 0 _)) by lia. f_equal.
      rewrite wrap64_id; [lia|]. unfold in_int64, min_int64, max_int64. lia.
  - rewrite (proj2 (String.eqb_neq _ _)), Z.add_0_l in Hm by done. case_if; by rewrite ?lookup_delete_ne, ?lookup_insert_ne.
Qed.

Lemma prune_loop_spec th cs es :
  Z.of_nat (length es) < 2 ^ 63 -> counted cs es ->
  counted (prune_loop th cs es).1 (prune_loop th cs es).2 /\
  (prune_loop th cs es).2 = drop_while (fun e => before (ce_when e) th) es.
Proof.
  revert cs. induction es as [|e es IH]; intros cs Hb Hc; simpl; [done|].
  destruct (before (ce_when e) th); [|done].
  apply IH; [simpl in Hb; lia|]. by apply uncount_counted.
Qed.

(** ** Histories *)

(** A call recorded, or a pass of the pruner or of a [Snapshot]. *)
Inductive cop := OpRecord (now : Time) (model : string) | OpPrune (now : Time).

Definition op_time (o : cop) : Time := match o with OpRecord t _ | OpPrune t => t end.

Definition exec (c : CallCounter) (o : cop) : CallCounter :=
  match o with
  | OpRecord now m => Record_ now m c
  | OpPrune now => prune now c
  end.

Definition run (w : Duration) (ops : list cop) : CallCounter := foldl exec (NewCallCounter w) ops.

(** The clock does not go back. *)
Definition monotone (ops : list cop) : Prop := StronglySorted Z.le (map op_time ops).

Definition calls (ops : list cop) : list callEvent :=
  omap (fun o => match o with OpRecord t m => Some {| ce_model := m; ce_when := t |} | OpPrune _ => None end) ops.

(** The calls at [th] or later. *)
Definition since (th : Time) (es : list callEvent) : list callEvent :=
  List.filter (fun e => negb (before (ce_when e) th)) es.

Definition by_time (a b : callEvent) : Prop := ce_when a <= ce_when b.

(** At time [t] the events kept are the calls not older than the window was at
    some earlier pass. *)
Definition counter_inv (w : Duration) (t : Time) (es : list callEvent) (c : CallCounter) : Prop :=
  window c = w /\ counted (counts c) (events c) /\ StronglySorted by_time es /\
  Z.of_nat (length es) < 2 ^ 63 /\ Forall (fun e => ce_when e <= t) es /\
  exists th, th <= t /\ events c = since (th - w) es.

Lemma since_since a b es : a <= b -> since b (since a es) = since b es.
Proof.
  intros Hab. unfold since, before. induction es as [|e es IH]; simpl; [done|].
  destruct (Z.ltb_spec (ce_when e) a) as [H|H]; simpl; rewrite IH; [|done].
  by rewrite (proj2 (Z.ltb_lt _ _)) by lia.
Qed.

Lemma prune_inv w t now es c :
  t <= now -> counter_inv w t es c ->
  counter_inv w now es (prune now c) /\ events (prune now c) = since (now - w) es.
Proof.
  intros Ht (Hw & Hc & Hs & Hlen & Ha & th & Hth & He). unfold prune.
  assert (Z.of_nat (length (events c)) < 2 ^ 63) as Hlen'.
  { rewrite He. pose proof (sublist_length _ _ (filter_b_sublist (fun e => negb (before (ce_when e) (th - w))) es)).
    unfold since. lia. }
  destruct (prune_loop_spec (time_add now (- window c)) _ _ Hlen' Hc) as [Hc' He'].
  destruct (prune_loop _ _ _) as [cs es'] eqn:E. simpl in Hc', He'.
  assert (es' = since (now - w) es) as ->.
  { rewrite He', He, Hw. rewrite <- (since_since (th - w) (now - w)) by lia.
    rewrite (drop_while_filter by_time); [done|..].
    - unfold by_time, before, time_add. intros x y. zbool_lia.
    - eapply sublist_sorted; [apply filter_b_sublist|done]. }
  unfold counter_inv. simpl. split; [|done]. split_and!; [done..| |by exists now].
  eapply Forall_impl; [done|]. simpl. lia.
Qed.

(** Appending the call of a later instant and counting it. *)
Lemma counted_snoc cs es e :
  Z.of_nat (S (length es)) < 2 ^ 63 -> counted cs es ->
  counted (<[ce_model e := wrap64 (cs@[ce_model e|0] + 1)]> cs) (es ++ [e]).
Proof.
  intros Hb Hc m. rewrite occurrences_app, occurrences_cons.
  pose proof (occurrences_bound m es) as Ho. change (occurrences m []) with 0.
  destruct (decide (ce_model e = m)) as [E|Hne].
  - subst m. rewrite String.eqb_refl, lookup_insert_eq, (proj2 (Z.ltb_lt 0 _)) by lia. f_equal.
    assert (cs@[ce_model e|0] = occurrences (ce_model e) es) as ->.
    { unfold map_or. rewrite Hc. destruct (Z.ltb_spec 0 (occurrences (ce_model e) es)); simpl; lia. }
    rewrite wrap64_id; [lia|]. unfold in_int64, min_int64, max_int64. lia.
  - rewrite (proj2 (String.eqb_neq _ _)), lookup_insert_ne, Hc by done. by rewrite !Z.add_0_r.
Qed.

Lemma Record_inv w t now m es c :
  0 <= w -> t <= now -> Z.of_nat (S (length es)) < 2 ^ 63 -> counter_inv w t es c ->
  let es' := es ++ [{| ce_model := m; ce_when := now |}] in
  counter_inv w now es' (Record_ now m c) /\ events (Record_ now m c) = since (now - w) es'.
Proof.
  intros Hw0 Ht Hlen (Hw & Hc & Hs & _ & Ha & th & Hth & He) es'. apply (prune_inv w now); [lia|].
  assert (Forall (fun e => ce_when e <= now) es) as Ha' by (eapply Forall_impl; [done|]; simpl; lia).
  assert (Z.of_nat (S (length (events c))) < 2 ^ 63) as Hlen'.
  { rewrite He. pose proof (sublist_length _ _ (filter_b_sublist (fun e => negb (before (ce_when e) (th - w))) es)).
    unfold since. lia. }
  unfold counter_inv. cbn [window counts events]. subst es'. split_and!; [done|..].
  - apply (counted_snoc _ _ {| ce_model := m; ce_when := now |}); done.
  - by apply sorted_snoc.
  - rewrite length_app. simpl. lia.
  - rewrite Forall_app, Forall_singleton. simpl. split; [done|lia].
  - exists th. split; [lia|]. rewrite He. unfold since. rewrite filter_b_app. simpl. unfold before.
    by rewrite (proj2 (Z.ltb_ge now (th - w))) by lia.
Qed.

Lemma counter_inv_later w t t' es c : t <= t' -> counter_inv w t es c -> counter_inv w t' es c.
Proof.
  intros Ht (? & ? & ? & ? & Ha & th & ? & ?). unfold counter_inv. split_and!; [done..| |].
  - eapply Forall_impl; [done|]. simpl. lia.
  - exists th. split; [lia|done].
Qed.

Lemma run_inv w ops t :
  0 <= w -> monotone ops -> Z.of_nat (length ops) < 2 ^ 63 -> Forall (fun s => s <= t) (map op_time ops) ->
  counter_inv w t (calls ops) (run w ops).
Proof.
  intros Hw. revert t. unfold run, monotone, calls. induction ops as [|o ops IH] using rev_ind; intros t Hs Hlen Ht.
  { unfold counter_inv. split_and!; simpl; [done|intros m; apply lookup_empty|constructor|lia|constructor|by exists t]. }
  rewrite map_app in Hs, Ht. apply sorted_snoc_inv in Hs as [Hs Ho].
  apply Forall_app in Ht as [_ Ht]. rewrite length_app in Hlen. simpl in Hlen. apply Forall_cons in Ht as [Ht _].
  rewrite foldl_snoc, omap_app. specialize (IH (op_time o) Hs ltac:(lia) Ho).
  apply (counter_inv_later _ (op_time o)); [exact Ht|]. pose proof IH as (_ & _ & _ & Hl & _).
  assert (length (calls ops) <= length ops)%nat as Hc.
  { apply omap_length_le. }
  destruct o as [now m|now]; simpl.
  - refine (proj1 (Record_inv w now now m _ _ Hw (Z.le_refl _) _ IH)). unfold calls in Hc. lia.
  - rewrite app_nil_r. exact (proj1 (prune_inv w now now _ _ (Z.le_refl _) IH)).
Qed.

(** ** Theorems *)

(** The counter refines its history: with a clock that does not go back,
    a snapshot at [now] counts, for each model, exactly the calls recorded not
    more than [window] before [now], and has no entry for other models. *)
Theorem call_counter_window w ops now m :
  0 <= w -> monotone (ops ++ [OpPrune now]) -> Z.of_nat (length ops) < 2 ^ 63 ->
  let n := occurrences m (since (now - w) (calls ops)) in
  (Snapshot now (run w ops)).2 !! m = if 0 <? n then Some n else None.
Proof.
  intros Hw Hm Hlen n. unfold monotone in Hm. rewrite map_app in Hm. apply sorted_snoc_inv in Hm as [Hm Hn].
  destruct (prune_inv w now now _ _ ltac:(lia) (run_inv w ops now Hw Hm Hlen Hn)) as [(_ & Hc & _) He].
  unfold Snapshot. simpl. rewrite (Hc m), He. done.
Qed.

(** [Stop] does not stop the pruning goroutine: it only returns when the
    context is cancelled, and from the close of [pruneCh] on it prunes in a
    loop without waiting for the ticker. *)
Theorem Stop_does_not_stop p :
  Pruner.reaches Pruner.started p -> Pruner.closed p = true -> Pruner.cancelled p = false ->
  (forall q, ~ Pruner.step p Pruner.Exit q) /\
  forall n, exists q, nsteps (fun a b => Pruner.step a Pruner.Woken b) n p q /\
    Pruner.ticks q = (n + Pruner.ticks p)%nat.
Proof.
  intros Hr Hc Hx. split; [intros q Hq; inv Hq; congruence|]. intros n.
  destruct (Pruner.spins p n) as (q & ? & _ & _ & ?); [by apply Pruner.exit_needs_cancel|done|by exists q].
Qed.

(** ** Concrete instances *)

Definition ex_ops : list cop :=
  [OpRecord 10 "a"; OpRecord 20 "b"; OpRecord 30 "a"; OpPrune 35; OpRecord 40 "a"].

Lemma call_counter_window_witness :
  (Snapshot 45 (run 20 ex_ops)).2 !! "a" = Some 2 /\ (Snapshot 45 (run 20 ex_ops)).2 !! "b" = None.
Proof.
  split; (rewrite call_counter_window; [reflexivity|discriminate|unfold monotone; simpl|reflexivity]);
    repeat constructor; discriminate.
Defined.

Lemma Stop_does_not_stop_witness :
  exists p q, Pruner.reaches Pruner.started p /\
    nsteps (fun a b => Pruner.step a Pruner.Woken b) 1000 p q /\ Pruner.ticks q = (1000 + Pruner.ticks p)%nat.
Proof.
  set (p := Pruner.Build_pruner true 0 true false).
  assert (Pruner.reaches Pruner.started p) as Hp.
  { apply rtc_once. exists Pruner.StopCall. by apply (Pruner.step_stop Pruner.started). }
  destruct (Stop_does_not_stop p Hp eq_refl eq_refl) as [_ H]. destruct (H 1000%nat) as (q & Hq & Ht).
  exists p, q. split; [exact Hp|split; [exact Hq|exact Ht]].
Defined.
