(* ===== verification/RequestTracker.v ===== *)
(** * RequestTracker: the trace of dispatched requests ([request_tracker.go])

    In-flight records in a map, finished ones in a bounded newest-first buffer.
    The mutex makes each method a function of the state; the process-wide
    counter [requestIDSeq] is threaded beside it.  The goroutine of [Start] is
    [CallCounter.Pruner] with [pruneLocked] as its pass. *)

From Stdlib Require Import Ascii.
From stdpp Require Import pretty.
From S2P Require Import Prelude.

Definition StatusInflight : string := "in-flight".
Definition StatusStreaming : string := "streaming".
Definition StatusDone : string := "done".
Definition StatusError : string := "error".

Definition defaultMaxCompletedRequests : Z := 200.
Definition defaultCompletedRequestTTL : Duration := 10 * minute.

Record RequestRecord := {
  rr_RequestID : string;
  rr_Model : string;
  rr_WorkerID : string;
  rr_WorkerHost : string;
  rr_Kind : string;
  rr_StartedAt : Time;
  rr_FinishedAt : Time;
  rr_Status : string;
  rr_DurationMs : Z;
}.

#[export] Instance RequestRecord_eq_dec : EqDecision RequestRecord.
Proof. solve_decision. Defined.

Record RequestTracker := {
  active : gmap string RequestRecord;
  completed : list RequestRecord;
  maxCompleted : Z;
  completedTTL : Duration;
}.

Definition NewRequestTracker (maxCompleted : Z) (completedTTL : Duration) : RequestTracker :=
  {| active := ∅; completed := [];
     maxCompleted := if maxCompleted <=? 0 then defaultMaxCompletedRequests else maxCompleted;
     completedTTL := if completedTTL <=? 0 then defaultCompletedRequestTTL else completedTTL |}.

(** [%d] of an integer. *)
Definition fmt_d (n : Z) : string := pretty n.

(** [nextRequestID]: the new value of the counter, and the ID. *)
Definition nextRequestID (now : Time) (seq : Z) : Z * string :=
  let n := wrap64 (seq + 1) in
  (n, "req-" +:+ fmt_d (wrap64 now) +:+ "-" +:+ fmt_d n).

(** [Begin]; [now_id] is the instant read by [nextRequestID], [now] the one of
    [StartedAt]. *)
Definition Begin (now_id now : Time) (model workerID workerHost kind : string) (st : Z * RequestTracker) :
    (Z * RequestTracker) * string :=
  let '(seq, t) := st in
  let '(seq, id) := nextRequestID now_id seq in
  let r := {| rr_RequestID := id; rr_Model := model; rr_WorkerID := workerID; rr_WorkerHost := workerHost;
              rr_Kind := kind; rr_StartedAt := now; rr_FinishedAt := zero_time; rr_Status := StatusInflight;
              rr_DurationMs := 0 |} in
  ((seq, {| active := <[id := r]> (active t); completed := completed t; maxCompleted := maxCompleted t;
            completedTTL := completedTTL t |}), id).

Definition BeginSimple (now_id now : Time) (model workerID kind : string) (st : Z * RequestTracker) :
    (Z * RequestTracker) * string :=
  Begin now_id now model workerID "" kind st.

Definition set_status (status : string) (r : RequestRecord) : RequestRecord :=
  {| rr_RequestID := rr_RequestID r; rr_Model := rr_Model r; rr_WorkerID := rr_WorkerID r;
     rr_WorkerHost := rr_WorkerHost r; rr_Kind := rr_Kind r; rr_StartedAt := rr_StartedAt r;
     rr_FinishedAt := rr_FinishedAt r; rr_Status := status; rr_DurationMs := rr_DurationMs r |}.

Definition SetStatus (id status : string) (t : RequestTracker) : RequestTracker :=
  match active t !! id with
  | Some r => {| active := <[id := set_status status r]> (active t); completed := completed t;
                 maxCompleted := maxCompleted t; completedTTL := completedTTL t |}
  | None => t
  end.

(** The loop of [pruneLocked] that moves [cut] down past expired records. *)
Fixpoint cut_expired (threshold : Time) (completed : list RequestRecord) (cut : nat) : nat :=
  match cut with
  | O => O
  | S k =>
      match completed !! k with
      | Some r => if before (rr_FinishedAt r) threshold then cut_expired threshold completed k else cut
      | None => cut
      end
  end.

Definition pruneLocked (now : Time) (t : RequestTracker) : RequestTracker :=
  let completed' :=
    if (Z.to_nat (maxCompleted t) <? length (completed t))%nat
    then take (Z.to_nat (maxCompleted t)) (completed t) else completed t in
  let threshold := time_add now (- completedTTL t) in
  let cut := cut_expired threshold completed' (length completed') in
  let completed' := if (cut <? length completed')%nat then take cut completed' else completed' in
  {| active := active t; completed := completed'; maxCompleted := maxCompleted t;
     completedTTL := completedTTL t |}.

(** The record as [Finish] leaves it. *)
Definition finish_record (now : Time) (status : string) (r : RequestRecord) : RequestRecord :=
  {| rr_RequestID := rr_RequestID r; rr_Model := rr_Model r; rr_WorkerID := rr_WorkerID r;
     rr_WorkerHost := rr_WorkerHost r; rr_Kind := rr_Kind r; rr_StartedAt := rr_StartedAt r;
     rr_FinishedAt := now; rr_Status := status;
     rr_DurationMs := Z.quot (time_sub now (rr_StartedAt r)) millisecond |}.

Definition Finish (now : Time) (id status : string) (t : RequestTracker) : RequestTracker :=
  match active t !! id with
  | None => t
  | Some r =>
      pruneLocked now
        {| active := delete id (active t); completed := finish_record now status r :: completed t;
           maxCompleted := maxCompleted t; completedTTL := completedTTL t |}
  end.

(** The order of a snapshot: newest first, then by request ID. *)
Definition newest_first (a b : RequestRecord) : bool :=
  if rr_StartedAt a =? rr_StartedAt b then String.leb (rr_RequestID a) (rr_RequestID b)
  else after (rr_StartedAt a) (rr_StartedAt b).

(** [order] is the order in which the range over [active] meets its entries. *)
Definition Snapshot (now : Time) (order : list (string * RequestRecord)) (t : RequestTracker) :
    RequestTracker * list RequestRecord :=
  let t := pruneLocked now t in
  (t, sort_by newest_first (map snd order ++ completed t)).

(** ** Pruning keeps the recent prefix *)

(** Finished at [th] or later, at most [n] of them. *)
Definition recent (th : Time) (n : nat) (l : list RequestRecord) : list RequestRecord :=
  take n (List.filter (fun r => negb (before (rr_FinishedAt r) th)) l).

Definition finished_later (a b : RequestRecord) : Prop := rr_FinishedAt b <= rr_FinishedAt a.

Definition fresh_enough (th : Time) (l : list RequestRecord) : list RequestRecord :=
  List.filter (fun r => negb (before (rr_FinishedAt r) th)) l.

Lemma cut_expired_spec th l k :
  StronglySorted finished_later l -> (k <= length l)%nat ->
  take (cut_expired th l k) l = fresh_enough th (take k l).
Proof.
  intros Hs. induction k as [|k IH]; intros Hk; [by rewrite take_0|]. simpl cut_expired.
  destruct (lookup_lt_is_Some_2 l k ltac:(lia)) as [r Hr]. rewrite Hr.
  unfold fresh_enough. rewrite (take_S_r _ _ _ Hr), filter_b_app. cbn [List.filter].
  destruct (before (rr_FinishedAt r) th) eqn:E; simpl.
  - rewrite app_nil_r. apply IH. lia.
  - rewrite filter_all; [by apply take_S_r|]. apply Forall_lookup. intros i x [Hx Hi]%lookup_take_Some.
    pose proof (sorted_lookup _ _ i k x r Hs Hx Hr Hi) as H. unfold finished_later, before in *. lia.
Qed.

Lemma sorted_take {A} (R : relation A) n l : StronglySorted R l -> StronglySorted R (take n l).
Proof. apply sublist_sorted, sublist_take. Qed.

(** A filter that keeps a prefix commutes with taking a prefix. *)
Lemma fresh_take th n l :
  StronglySorted finished_later l -> fresh_enough th (take n l) = take n (fresh_enough th l).
Proof.
  intros Hs. revert n. induction Hs as [|r l Hs IH Hr]; intros [|n]; simpl; try done.
  destruct (before (rr_FinishedAt r) th) eqn:E; simpl; [|by rewrite IH].
  assert (forall k, Forall (finished_later r) k -> fresh_enough th k = []) as Hnone.
  { clear -E. induction 1 as [|x k Hx _ IH]; simpl; [done|]. unfold finished_later, before in *.
    by rewrite (proj2 (Z.ltb_lt _ _)) by lia. }
  rewrite !Hnone; [by destruct n|done|by apply Forall_take].
Qed.

Lemma pruneLocked_completed now t :
  StronglySorted finished_later (completed t) ->
  completed (pruneLocked now t) = recent (now - completedTTL t) (Z.to_nat (maxCompleted t)) (completed t).
Proof.
  intros Hs. unfold pruneLocked, recent. cbn [completed].
  set (n := Z.to_nat (maxCompleted t)). fold (fresh_enough (now - completedTTL t) (completed t)).
  assert ((if (n <? length (completed t))%nat then take n (completed t) else completed t) = take n (completed t)) as ->.
  { destruct (Nat.ltb_spec n (length (completed t))); [done|]. by rewrite take_ge. }
  rewrite <- fresh_take by done. set (l := take n (completed t)).
  assert (take (cut_expired (now - completedTTL t) l (length l)) l = fresh_enough (now - completedTTL t) l) as <-.
  { rewrite cut_expired_spec; [by rewrite take_ge|by apply sorted_take|done]. }
  change (time_add now (- completedTTL t)) with (now - completedTTL t).
  case_if; [done|]. apply Nat.ltb_ge in Heqb. by rewrite take_ge.
Qed.

(** ** The abstract tracker: the full history

    The same operations on a state that forgets nothing: the requests in
    flight and every request finished, newest first. *)

Inductive top :=
| OpBegin (now_id now : Time) (model workerID workerHost kind : string)
| OpSetStatus (id status : string)
| OpFinish (now : Time) (id status : string)
| OpPrune (now : Time).

Definition exec (st : Z * RequestTracker) (o : top) : Z * RequestTracker :=
  match o with
  | OpBegin n1 n2 m w h k => (Begin n1 n2 m w h k st).1
  | OpSetStatus id s => (st.1, SetStatus id s st.2)
  | OpFinish now id s => (st.1, Finish now id s st.2)
  | OpPrune now => (st.1, pruneLocked now st.2)
  end.

Record trace := { tr_seq : Z; tr_active : gmap string RequestRecord; tr_finished : list RequestRecord }.

Definition trace_exec (s : trace) (o : top) : trace :=
  match o with
  | OpBegin n1 n2 m w h k =>
      let '(seq, id) := nextRequestID n1 (tr_seq s) in
      {| tr_seq := seq;
         tr_active := <[id := {| rr_RequestID := id; rr_Model := m; rr_WorkerID := w; rr_WorkerHost := h;
           rr_Kind := k; rr_StartedAt := n2; rr_FinishedAt := zero_time; rr_Status := StatusInflight;
           rr_DurationMs := 0 |}]> (tr_active s);
         tr_finished := tr_finished s |}
  | OpSetStatus id st =>
      {| tr_seq := tr_seq s; tr_active := alter (set_status st) id (tr_active s); tr_finished := tr_finished s |}
  | OpFinish now id st =>
      match tr_active s !! id with
      | Some r => {| tr_seq := tr_seq s; tr_active := delete id (tr_active s);
                     tr_finished := finish_record now st r :: tr_finished s |}
      | None => s
      end
  | OpPrune _ => s
  end.

Definition trace0 (seq : Z) : trace := {| tr_seq := seq; tr_active := ∅; tr_finished := [] |}.

(** The instants an operation reads while it holds the lock, but for the one
    that only goes into an ID. *)
Definition op_time (o : top) : option Time :=
  match o with
  | OpBegin _ now _ _ _ _ | OpFinish now _ _ | OpPrune now => Some now
  | OpSetStatus _ _ => None
  end.

Definition monotone (ops : list top) : Prop := StronglySorted Z.le (omap op_time ops).

(** At time [t] the tracker is the trace with its finished requests cut to the
    recent prefix of some earlier pass. *)
Definition sim (max : Z) (ttl : Duration) (t : Time) (s : trace) (c : Z * RequestTracker) : Prop :=
  c.1 = tr_seq s /\ active c.2 = tr_active s /\ maxCompleted c.2 = max /\ completedTTL c.2 = ttl /\
  StronglySorted finished_later (tr_finished s) /\
  Forall (fun r => rr_FinishedAt r <= t) (tr_finished s) /\
  exists th, th <= t /\ completed c.2 = recent (th - ttl) (Z.to_nat max) (tr_finished s).

Lemma fresh_fresh a b l : a <= b -> fresh_enough b (fresh_enough a l) = fresh_enough b l.
Proof.
  intros Hab. unfold fresh_enough, before. induction l as [|r l IH]; simpl; [done|].
  destruct (Z.ltb_spec (rr_FinishedAt r) a); simpl; rewrite IH; [|done].
  by rewrite (proj2 (Z.ltb_lt _ _)) by lia.
Qed.

Lemma sorted_fresh th l : StronglySorted finished_later l -> StronglySorted finished_later (fresh_enough th l).
Proof. apply sublist_sorted, filter_b_sublist. Qed.

Lemma recent_recent a b n l :
  a <= b -> StronglySorted finished_later l -> recent b n (recent a n l) = recent b n l.
Proof.
  intros Hab Hs. unfold recent at 1 2. fold (fresh_enough a l).
  fold (fresh_enough b (take n (fresh_enough a l))).
  rewrite fresh_take, fresh_fresh, take_take, Nat.min_id by auto using sorted_fresh. done.
Qed.

Lemma recent_cons_recent a b n r l :
  a <= b -> b <= rr_FinishedAt r -> StronglySorted finished_later l ->
  recent b n (r :: recent a n l) = recent b n (r :: l).
Proof.
  intros Hab Hr Hs. assert (before (rr_FinishedAt r) b = false) as E by (unfold before; lia).
  unfold recent. cbn [List.filter]. rewrite !E. cbn [negb]. destruct n as [|n]; [done|]. cbn [take]. f_equal.
  fold (fresh_enough a l). fold (fresh_enough b (take (S n) (fresh_enough a l))). fold (fresh_enough b l).
  rewrite fresh_take, fresh_fresh, take_take, Nat.min_l by (auto using sorted_fresh || lia). done.
Qed.

Lemma recent_sublist th n l : recent th n l `sublist_of` l.
Proof. unfold recent. etrans; [apply sublist_take|apply filter_b_sublist]. Qed.

Lemma sim_later max ttl t t' s c : t <= t' -> sim max ttl t s c -> sim max ttl t' s c.
Proof.
  intros Ht (? & ? & ? & ? & ? & Ha & th & ? & ?). unfold sim. split_and!; [done..| |].
  - eapply Forall_impl; [done|]. simpl. lia.
  - exists th. split; [lia|done].
Qed.

Lemma finish_sorted t now st r l :
  t <= now -> StronglySorted finished_later l -> Forall (fun r => rr_FinishedAt r <= t) l ->
  StronglySorted finished_later (finish_record now st r :: l).
Proof.
  intros Ht Hs Hf. constructor; [done|]. eapply Forall_impl; [exact Hf|]. intros x Hx. unfold finished_later.
  simpl in *. lia.
Qed.

Lemma sim_step max ttl t o s c :
  0 <= ttl -> (forall now, op_time o = Some now -> t <= now) -> sim max ttl t s c ->
  sim max ttl (default t (op_time o)) (trace_exec s o) (exec c o).
Proof.
  intros Httl Ht (Hq & Ha & Hm & Hl & Hs & Hf & th & Hth & Hc). destruct c as [seq tr]. simpl in *.
  destruct o as [n1 n2 m w h k|id st|now id st|now]; simpl in *.
  - specialize (Ht _ eq_refl). apply (sim_later _ _ t); [done|]. unfold sim. simpl.
    rewrite Hq, Ha. split_and!; auto. by exists th.
  - unfold SetStatus, sim. rewrite Ha. simpl. destruct (tr_active s !! id) as [r|] eqn:E; simpl.
    + split_and!; [done| |done..|by exists th]. apply map_eq. intros i.
      destruct (decide (id = i)) as [<-|]; [by rewrite lookup_insert_eq, lookup_alter_eq, E|].
      by rewrite lookup_insert_ne, lookup_alter_ne.
    + split_and!; [done| |done..|by exists th]. rewrite Ha. symmetry. apply alter_id. by rewrite E.
  - specialize (Ht _ eq_refl). unfold Finish. rewrite Ha. destruct (tr_active s !! id) as [r|] eqn:E.
    + pose proof (finish_sorted t now st r _ Ht Hs Hf) as Hs'.
      unfold sim. cbn [fst snd tr_seq tr_active tr_finished pruneLocked active maxCompleted completedTTL].
      split_and!; try done.
      { constructor; [simpl; lia|]. eapply Forall_impl; [done|]. simpl. lia. }
      exists now. split; [done|]. rewrite pruneLocked_completed; cbn [completed maxCompleted completedTTL].
      * rewrite Hc, Hm, Hl. apply recent_cons_recent; [lia|simpl; lia|done].
      * rewrite Hc. eapply sublist_sorted; [|exact Hs']. apply sublist_skip, recent_sublist.
    + apply (sim_later _ _ t); [done|]. unfold sim. simpl. split_and!; [done..|by exists th].
  - specialize (Ht _ eq_refl). unfold sim. cbn [fst snd pruneLocked active maxCompleted completedTTL].
    split_and!; try done.
    { eapply Forall_impl; [done|]. simpl. lia. }
    exists now. split; [done|]. rewrite pruneLocked_completed, Hc, Hm, Hl.
    + apply recent_recent; [lia|done].
    + rewrite Hc. eapply sublist_sorted; [apply recent_sublist|done].
Qed.

(** ** Request IDs are unique *)

Lemma chars_app s t :
  String.list_ascii_of_string (s +:+ t) = String.list_ascii_of_string s ++ String.list_ascii_of_string t.
Proof. induction s as [|c s IH]; [done|]. simpl. f_equal. exact IH. Qed.

Definition not_dash (c : Ascii.ascii) : bool := negb (Ascii.eqb c "-"%char).

(** The characters after the last dash, last first. *)
Definition last_segment (s : string) : list Ascii.ascii := take_while not_dash (rev (String.list_ascii_of_string s)).

Lemma take_while_stop {A} (f : A -> bool) l x k :
  Forall (fun y => f y = true) l -> f x = false -> take_while f (l ++ x :: k) = l.
Proof.
  induction 1 as [|y l Hy _ IH]; intros Hx; simpl; [by rewrite Hx|]. rewrite Hy. by rewrite IH.
Qed.

Lemma last_segment_app s t :
  Forall (fun c => not_dash c = true) (String.list_ascii_of_string t) ->
  last_segment (s +:+ "-" +:+ t) = rev (String.list_ascii_of_string t).
Proof.
  intros Ht. unfold last_segment. rewrite !chars_app, !rev_app_distr, <- app_assoc. simpl.
  apply take_while_stop; [|done]. by rewrite <- Permutation_rev.
Qed.

Lemma pretty_N_char_not_dash x : not_dash (pretty_N_char x) = true.
Proof. unfold pretty_N_char. by repeat case_match. Qed.

Lemma pretty_N_go_digits x s :
  Forall (fun c => not_dash c = true) (String.list_ascii_of_string s) ->
  Forall (fun c => not_dash c = true) (String.list_ascii_of_string (pretty_N_go x s)).
Proof.
  revert s. induction (N.lt_wf_0 x) as [x _ IH]; intros s Hs.
  destruct (decide (x = 0%N)) as [->|]; [by rewrite pretty_N_go_0|].
  rewrite pretty_N_go_step by lia. apply IH; [by apply N.div_lt; lia|].
  simpl. constructor; [apply pretty_N_char_not_dash|done].
Qed.

Lemma fmt_d_digits n : 0 <= n -> Forall (fun c => not_dash c = true) (String.list_ascii_of_string (fmt_d n)).
Proof.
  intros Hn. unfold fmt_d. destruct n as [|p|p]; [by repeat constructor| |lia].
  change (pretty (Z.pos p)) with (pretty (N.pos p)). unfold pretty, pretty_N.
  destruct (decide _); [by repeat constructor|]. by apply pretty_N_go_digits.
Qed.

Definition make_id (now : Time) (n : Z) : string := "req-" +:+ fmt_d (wrap64 now) +:+ "-" +:+ fmt_d n.

Lemma chars_inj s t : String.list_ascii_of_string s = String.list_ascii_of_string t -> s = t.
Proof. intros H. rewrite <- (String.string_of_list_ascii_of_string s), H. apply String.string_of_list_ascii_of_string. Qed.

(** The sequence number can be read back from an ID. *)
Lemma make_id_inj t t' n n' : 0 <= n -> 0 <= n' -> make_id t n = make_id t' n' -> n = n'.
Proof.
  intros Hn Hn' H%(f_equal last_segment). unfold make_id in H.
  assert (forall a b, "req-" +:+ a +:+ "-" +:+ b = ("req-" +:+ a) +:+ "-" +:+ b) as Ha by done.
  rewrite !Ha, !last_segment_app in H by by apply fmt_d_digits.
  apply (f_equal (@rev _)) in H. rewrite !rev_involutive in H.
  apply chars_inj in H. unfold fmt_d in H. by apply (inj pretty) in H.
Qed.

(** Every request of the trace, in flight or finished, by ID. *)
Definition ids (s : trace) : list string :=
  map (fun p => rr_RequestID p.2) (map_to_list (tr_active s)) ++ map rr_RequestID (tr_finished s).

(** IDs are made with sequence numbers already drawn, no two the same, and a
    request in flight is stored under its ID. *)
Definition trace_wf (seq0 : Z) (s : trace) : Prop :=
  seq0 <= tr_seq s /\
  map_Forall (fun id r => rr_RequestID r = id) (tr_active s) /\
  NoDup (ids s) /\
  Forall (fun id => exists t n, seq0 < n <= tr_seq s /\ id = make_id t n) (ids s).

Lemma ids_insert_fresh s id r :
  tr_active s !! id = None ->
  map (fun p => rr_RequestID p.2) (map_to_list (<[id:=r]> (tr_active s))) ≡ₚ
  rr_RequestID r :: map (fun p => rr_RequestID p.2) (map_to_list (tr_active s)).
Proof. intros H. by rewrite map_to_list_insert. Qed.

Lemma in_ids_active s id r :
  tr_active s !! id = Some r -> rr_RequestID r ∈ ids s.
Proof.
  intros H%elem_of_map_to_list. unfold ids. rewrite elem_of_app. left.
  apply list_elem_of_fmap. by exists (id, r).
Qed.

Lemma ids_finish s id r r' :
  tr_active s !! id = Some r -> rr_RequestID r' = rr_RequestID r ->
  ids {| tr_seq := tr_seq s; tr_active := delete id (tr_active s); tr_finished := r' :: tr_finished s |} ≡ₚ ids s.
Proof.
  intros H Hr. unfold ids. cbn [tr_active tr_finished]. rewrite map_cons, Hr.
  rewrite <- Permutation_middle. rewrite <- (insert_delete_id (tr_active s) id r) at 2 by done.
  rewrite map_to_list_insert by apply lookup_delete_eq. done.
Qed.

Lemma ids_alter s f id l :
  (forall r, rr_RequestID (f r) = rr_RequestID r) ->
  ids {| tr_seq := tr_seq s; tr_active := alter f id (tr_active s); tr_finished := l |} ≡ₚ
  ids {| tr_seq := tr_seq s; tr_active := tr_active s; tr_finished := l |}.
Proof.
  intros Hf. unfold ids. cbn [tr_active tr_finished]. set (m := tr_active s).
  destruct (m !! id) as [r|] eqn:E.
  - assert (alter f id m = <[id:=f r]> (delete id m)) as ->.
    { apply map_eq. intros i. destruct (decide (id = i)) as [<-|].
      - by rewrite lookup_alter_eq, lookup_insert_eq, E.
      - by rewrite lookup_alter_ne, lookup_insert_ne, lookup_delete_ne. }
    rewrite <- (insert_delete_id m id r) at 2 by done.
    rewrite !map_to_list_insert by apply lookup_delete_eq. simpl. by rewrite Hf.
  - rewrite alter_id; [done|]. intros ?. by rewrite E.
Qed.

(** How many requests a run begins. *)
Definition begins (ops : list top) : Z :=
  Z.of_nat (length (List.filter (fun o => match o with OpBegin _ _ _ _ _ _ => true | _ => false end) ops)).

Lemma trace_wf_step seq0 s o :
  0 <= seq0 -> tr_seq s + begins [o] <= max_int64 -> trace_wf seq0 s -> trace_wf seq0 (trace_exec s o).
Proof.
  intros H0 Hseq (Hs & Hk & Hd & Hi). destruct o as [n1 n2 m w h k|id st|now id st|now]; cbn [trace_exec].
  - unfold begins in Hseq. simpl in Hseq. unfold nextRequestID. rewrite wrap64_id by (unfold in_int64, min_int64, max_int64 in *; lia).
    fold (make_id n1 (tr_seq s + 1)). set (id := make_id n1 (tr_seq s + 1)).
    assert (id ∉ ids s) as Hnew.
    { intros Hin. rewrite Forall_forall in Hi. destruct (Hi _ Hin) as (t & n & Hn & He).
      apply make_id_inj in He; lia. }
    assert (tr_active s !! id = None) as Hnone.
    { destruct (tr_active s !! id) as [r|] eqn:E; [|done]. destruct Hnew.
      rewrite <- (Hk _ _ E). by eapply in_ids_active. }
    assert (Forall (fun i => exists t n, seq0 < n <= tr_seq s + 1 /\ i = make_id t n) (id :: ids s)) as Hi'.
    { constructor; [exists n1, (tr_seq s + 1); split; [lia|done]|].
      eapply Forall_impl; [exact Hi|]. intros i (t & n & ? & ?). exists t, n. split; [lia|done]. }
    set (r := {| rr_RequestID := id |}). 
    assert (ids {| tr_seq := tr_seq s + 1; tr_active := <[id := r]> (tr_active s); tr_finished := tr_finished s |}
            ≡ₚ id :: ids s) as Hids by (unfold ids; simpl; by rewrite ids_insert_fresh).
    unfold trace_wf. rewrite Hids. cbn [tr_seq tr_active]. split_and!; [lia| |by constructor|done].
    by apply map_Forall_insert_2.
  - unfold trace_wf. rewrite ids_alter by done. destruct s. split_and!; try done. simpl.
    intros i r Hr. rewrite lookup_alter in Hr. case_decide as E; [subst i|by apply Hk].
    apply fmap_Some in Hr as (r' & Hr & ->). exact (Hk _ _ Hr).
  - destruct (tr_active s !! id) as [r|] eqn:E; [|done].
    unfold trace_wf. rewrite (ids_finish s id r) by done. split_and!; [done| |done..].
    by apply map_Forall_delete.
  - done.
Qed.

(** ** Theorems *)

Definition run (max : Z) (ttl : Duration) (seq : Z) (ops : list top) : Z * RequestTracker :=
  foldl exec (seq, NewRequestTracker max ttl) ops.

Definition trace_of (seq : Z) (ops : list top) : trace := foldl trace_exec (trace0 seq) ops.

Lemma trace_exec_seq s o :
  tr_seq s + begins [o] <= max_int64 -> 0 <= tr_seq s -> tr_seq (trace_exec s o) = tr_seq s + begins [o].
Proof.
  intros Hs H0. unfold begins in *. destruct o; simpl in *; try lia.
  - rewrite wrap64_id; [done|]. unfold in_int64, min_int64, max_int64 in *. lia.
  - case_match; simpl; lia.
Qed.

Lemma begins_snoc ops o : begins (ops ++ [o]) = begins ops + begins [o].
Proof. unfold begins. rewrite filter_b_app, length_app. lia. Qed.

Lemma begins_nonneg ops : 0 <= begins ops.
Proof. unfold begins. lia. Qed.

Lemma trace_of_wf seq ops :
  0 <= seq -> seq + begins ops <= max_int64 ->
  trace_wf seq (trace_of seq ops) /\ tr_seq (trace_of seq ops) = seq + begins ops.
Proof.
  intros H0. unfold trace_of. induction ops as [|o ops IH] using rev_ind; intros Hb.
  { split; [|simpl; unfold begins; simpl; lia]. unfold trace_wf, ids. simpl. rewrite map_to_list_empty. simpl.
    split_and!; [lia|apply map_Forall_empty|constructor|constructor]. }
  rewrite foldl_snoc. rewrite begins_snoc in *. pose proof (begins_nonneg ops). pose proof (begins_nonneg [o]).
  destruct IH as [Hwf Hseq]; [lia|]. split; [apply trace_wf_step; [done|lia|done]|].
  rewrite trace_exec_seq; lia.
Qed.

Lemma run_sim max ttl seq ops t :
  0 < max -> 0 < ttl -> StronglySorted Z.le (omap op_time ops) -> Forall (fun s => s <= t) (omap op_time ops) ->
  sim max ttl t (trace_of seq ops) (run max ttl seq ops).
Proof.
  intros Hmax Httl. unfold run, trace_of. revert t.
  induction ops as [|o ops IH] using rev_ind; intros t Hs Ht.
  { unfold sim. simpl. rewrite !(proj2 (Z.leb_gt _ 0)) by lia.
    split_and!; [done..|constructor|constructor|]. exists t. split; [lia|]. unfold recent. simpl. by destruct (Z.to_nat max). }
  rewrite !foldl_snoc. rewrite omap_app in Hs, Ht. apply Forall_app in Ht as [Ht Ho].
  destruct (op_time o) as [now|] eqn:E; simpl in Hs, Ho; rewrite E in Hs, Ho; simpl in Hs, Ho.
  - apply sorted_snoc_inv in Hs as [Hs Hn]. rewrite Forall_singleton in Ho.
    apply (sim_later _ _ now); [done|]. specialize (IH now Hs Hn).
    eapply sim_step in IH; [|lia|]; [by rewrite E in IH|]. rewrite E. intros ? [= <-]. lia.
  - rewrite app_nil_r in Hs. specialize (IH t Hs Ht).
    eapply sim_step in IH; [|lia|]; [by rewrite E in IH|]. by rewrite E.
Qed.

Lemma newest_first_total a b : newest_first a b = true \/ newest_first b a = true.
Proof.
  unfold newest_first, after. destruct (Z.eqb_spec (rr_StartedAt a) (rr_StartedAt b)) as [E|E].
  - rewrite E, Z.eqb_refl. apply string_leb_total.
  - rewrite (proj2 (Z.eqb_neq _ _)) by done. lia.
Qed.

Lemma newest_first_cases a b :
  newest_first a b = true <->
  rr_StartedAt b < rr_StartedAt a \/
  (rr_StartedAt a = rr_StartedAt b /\ String.leb (rr_RequestID a) (rr_RequestID b) = true).
Proof.
  unfold newest_first, after. destruct (Z.eqb_spec (rr_StartedAt a) (rr_StartedAt b)) as [E|E]; [|lia].
  split; [by right|]. intros [|[]]; [lia|done].
Qed.

Lemma newest_first_trans a b c :
  newest_first a b = true -> newest_first b c = true -> newest_first a c = true.
Proof.
  rewrite !newest_first_cases. intros [H1|[H1 H1']] [H2|[H2 H2']]; [left; lia..|].
  right. split; [lia|]. by eapply string_leb_trans.
Qed.

Lemma newest_first_antisym a b :
  newest_first a b = true -> newest_first b a = true -> rr_RequestID a = rr_RequestID b.
Proof.
  rewrite !newest_first_cases. intros [H1|[H1 H1']] [H2|[H2 H2']]; try lia. by apply string_leb_antisym.
Qed.

(** The tracker refines the full trace: at [now] a snapshot shows every
    request in flight and, of those finished, the newest [maxCompleted] that
    finished within the TTL; newest start first; whatever the order in which
    the map of requests in flight is iterated. *)
Theorem tracker_refines_trace max ttl seq ops now order :
  0 < max -> 0 < ttl -> 0 <= seq -> seq + begins ops <= max_int64 ->
  monotone (ops ++ [OpPrune now]) ->
  let s := trace_of seq ops in
  let t := (run max ttl seq ops).2 in
  order ≡ₚ map_to_list (active t) ->
  (Snapshot now order t).2 =
    sort_by newest_first
      (map snd (map_to_list (tr_active s)) ++ recent (now - ttl) (Z.to_nat max) (tr_finished s)) /\
  StronglySorted (fun a b => newest_first a b = true) (Snapshot now order t).2.
Proof.
  intros Hmax Httl Hseq Hb Hm s t Ho. unfold monotone in Hm. rewrite omap_app in Hm.
  apply sorted_snoc_inv in Hm as [Hm Hn].
  destruct (run_sim max ttl seq ops now Hmax Httl Hm Hn) as (_ & Ha & Hmx & Htl & Hs & _ & th & Hth & Hc).
  fold t in Ha, Hmx, Htl, Hc. fold s in Ha, Hs, Hc.
  destruct (trace_of_wf seq ops Hseq Hb) as [(_ & _ & Hd & _) _]. fold s in Hd.
  split; [|apply sort_by_sorted; [apply newest_first_total|apply newest_first_trans]].
  unfold Snapshot. cbn [snd]. rewrite pruneLocked_completed, Hc, Hmx, Htl, recent_recent; [|lia|done|].
  2:{ rewrite Hc. eapply sublist_sorted; [apply recent_sublist|done]. }
  apply sort_by_unique; [apply newest_first_total|apply newest_first_trans| |by rewrite Ho, Ha].
  unfold ids in Hd. rewrite <- map_map, <- map_app in Hd.
  assert (forall x, x ∈ map snd (map_to_list (tr_active s)) ++ recent (now - ttl) (Z.to_nat max) (tr_finished s) ->
            x ∈ map snd (map_to_list (tr_active s)) ++ tr_finished s) as Hin.
  { intros x. rewrite !elem_of_app. intros [?|Hx]; [by left|right].
    eapply elem_of_sublist; [exact Hx|apply recent_sublist]. }
  intros x y Hx Hy H1 H2. rewrite Ho, Ha in Hx. apply (NoDup_map_eq _ _ _ _ Hd); auto.
  by apply newest_first_antisym.
Qed.

(** No two requests share an ID: over any run in which the process-wide
    counter does not wrap, the records in flight and the finished ones have
    distinct IDs, a record in flight is stored under its ID, and the ID of the
    next request is new, so [Begin] never replaces a record. *)
Theorem request_ids_unique max ttl seq ops t now_id now m w h k :
  0 < max -> 0 < ttl -> 0 <= seq -> seq + begins ops < max_int64 -> monotone ops ->
  t = run max ttl seq ops ->
  NoDup (map rr_RequestID (map snd (map_to_list (active t.2)) ++ completed t.2)) /\
  map_Forall (fun id r => rr_RequestID r = id) (active t.2) /\
  let id := (Begin now_id now m w h k t).2 in
  active t.2 !! id = None /\ id ∉ map rr_RequestID (completed t.2).
Proof.
  intros Hmax Httl Hseq Hb Hm ->. set (s := trace_of seq ops).
  destruct (trace_of_wf seq ops Hseq ltac:(lia)) as [(_ & Hk & Hd & Hi) Hq]. fold s in Hk, Hd, Hi, Hq.
  pose proof (begins_nonneg ops) as Hb0.
  destruct (run_sim max ttl seq ops (foldr Z.max 0 (omap op_time ops)) Hmax Httl Hm)
    as (Hs & Ha & _ & _ & _ & _ & th & _ & Hc).
  { induction (omap op_time ops) as [|x l IH]; simpl; constructor; [lia|].
    eapply Forall_impl; [exact IH|]. simpl. lia. }
  fold s in Hs, Ha, Hc. rewrite Ha, Hc.
  assert (forall id, id ∈ map rr_RequestID (recent (th - ttl) (Z.to_nat max) (tr_finished s)) -> id ∈ ids s) as Hin.
  { intros id Hid. unfold ids. rewrite elem_of_app. right. apply list_elem_of_fmap in Hid as (r & -> & Hr).
    apply list_elem_of_fmap_2. eapply elem_of_sublist; [exact Hr|apply recent_sublist]. }
  assert (forall id, id = (Begin now_id now m w h k (run max ttl seq ops)).2 -> id ∉ ids s) as Hnew.
  { destruct (run max ttl seq ops) as [q tr]. simpl in Hs. subst q. simpl. intros id -> Hid.
    rewrite Forall_forall in Hi. destruct (Hi _ Hid) as (t & n & Hn & He).
    rewrite (wrap64_id (tr_seq s + 1)) in He by (unfold in_int64, min_int64, max_int64 in *; lia).
    fold (make_id now_id (tr_seq s + 1)) in He. apply make_id_inj in He; lia. }
  split; [|split; [|intros id; split]].
  - eapply sublist_NoDup; [exact Hd|]. unfold ids. rewrite map_app, map_map.
    apply sublist_app; [done|]. apply fmap_sublist, recent_sublist.
  - done.
  - destruct (tr_active s !! id) as [r|] eqn:E; [|done]. exfalso. apply (Hnew id); [done|].
    pose proof (in_ids_active _ _ _ E) as Hr. rewrite (Hk _ _ E) in Hr. exact Hr.
  - intros Hid. apply (Hnew id); [done|by apply Hin].
Qed.

(** ** Concrete instances *)

Definition ex_ops : list top :=
  [OpBegin 5 10 "llama" "w1" "host" "chat"; OpBegin 7 20 "llama" "w2" "" "chat";
   OpSetStatus (make_id 5 1) StatusStreaming; OpFinish 30 (make_id 7 2) StatusDone;
   OpFinish 35 (make_id 7 2) StatusError; OpBegin 40 40 "phi" "w1" "host" "completion"].

Lemma tracker_refines_trace_witness :
  map (fun r => (rr_WorkerID r, rr_Status r))
    (Snapshot 50 (map_to_list (active (run 2 60 0 ex_ops).2)) (run 2 60 0 ex_ops).2).2 =
  [("w1", StatusInflight); ("w2", StatusDone); ("w1", StatusStreaming)].
Proof.
  rewrite (proj1 (tracker_refines_trace 2 60 0 ex_ops 50 (map_to_list (active (run 2 60 0 ex_ops).2))
    eq_refl eq_refl ltac:(discriminate) ltac:(discriminate)
    ltac:(unfold monotone; simpl; repeat constructor; discriminate) (reflexivity _))).
  vm_compute. reflexivity.
Defined.

Lemma request_ids_unique_witness :
  NoDup (map rr_RequestID (map snd (map_to_list (active (run 2 60 0 ex_ops).2)) ++ completed (run 2 60 0 ex_ops).2)).
Proof.
  apply (request_ids_unique 2 60 0 ex_ops (run 2 60 0 ex_ops) 0 0 "" "" "" "");
    [reflexivity|reflexivity|discriminate|reflexivity| |reflexivity].
  unfold monotone. simpl. repeat constructor; discriminate.
Defined.
