(* ===== verification/Selection.v ===== *)
(** * Selection: the router's choice of a worker ([dispatch.go], [server.go])

    The scorer configuration of the server, the projection of a cached worker
    onto the scheduler's view, candidate building with auto-load, and
    [selectWorkerExcluding].  What happens outside the router while it selects
    (the other goroutines, the worker that is asked to load a model) is the
    interface [Backend]: each range over the cache is an observation of the
    world, and a load request is an action on it. *)

From S2P Require Import Prelude GoFloat Errors Protocol Scheduler CapabilityCache QueueStats.

(** ** Scorer configuration ([server.go]) *)

Record schedulerWeights := {
  w_QuantMatch : float64;
  w_VRAMFree : float64;
  w_GPUUtil : float64;
  w_QueueDepth : float64;
  w_Latency : float64;
  w_LoadedModelBonus : float64;
  w_ColdLoadPenalty : float64;
  w_MaxQueueDepth : Z;
  w_ThroughputWeight : float64;
}.

(** The two fields that [scorerWeightsMu] protects. *)
Record scoring := { sv_scorerWeights : schedulerWeights; sv_scorer : WeightedScorer }.

(** As [NewServer] sets them. *)
Definition NewScoring : scoring :=
  let scorer := NewWeightedScorer in
  {| sv_scorerWeights :=
       {| w_QuantMatch := QuantMatchWeight scorer; w_VRAMFree := VRAMFreeWeight scorer;
          w_GPUUtil := GPUUtilWeight scorer; w_QueueDepth := QueueDepthWeight scorer;
          w_Latency := LatencyWeight scorer; w_LoadedModelBonus := LoadedModelBonusWeight scorer;
          w_ColdLoadPenalty := ColdLoadPenaltyWeight scorer; w_MaxQueueDepth := MaxQueueDepth scorer;
          w_ThroughputWeight := f0 |};
     sv_scorer := scorer |}.

Definition scorer_of (w : schedulerWeights) : WeightedScorer :=
  NewWeightedScorerWithConfig (w_QuantMatch w) (w_VRAMFree w) (w_GPUUtil w) (w_QueueDepth w) (w_Latency w)
    (w_LoadedModelBonus w) (w_ColdLoadPenalty w) (w_ThroughputWeight w) DefaultUnavailableTTL (w_MaxQueueDepth w).

(** [if x > 0 { w.F = x }]. *)
Definition keep_unless_pos (x cur : float64) : float64 := if flt f0 x then x else cur.

Definition SetScorerWeights
    (quantMatch vramFree gpuUtil queueDepth latency loadedModelBonus coldLoadPenalty : float64)
    (maxQueueDepth : Z) (s : scoring) : scoring :=
  let w := sv_scorerWeights s in
  let w :=
    {| w_QuantMatch := keep_unless_pos quantMatch (w_QuantMatch w);
       w_VRAMFree := keep_unless_pos vramFree (w_VRAMFree w);
       w_GPUUtil := keep_unless_pos gpuUtil (w_GPUUtil w);
       w_QueueDepth := keep_unless_pos queueDepth (w_QueueDepth w);
       w_Latency := keep_unless_pos latency (w_Latency w);
       w_LoadedModelBonus := keep_unless_pos loadedModelBonus (w_LoadedModelBonus w);
       w_ColdLoadPenalty := keep_unless_pos coldLoadPenalty (w_ColdLoadPenalty w);
       w_MaxQueueDepth := if 0 <? maxQueueDepth then maxQueueDepth else w_MaxQueueDepth w;
       w_ThroughputWeight := w_ThroughputWeight w |} in
  {| sv_scorerWeights := w; sv_scorer := scorer_of w |}.

Definition SetScorerThroughputWeight (weight : float64) (s : scoring) : scoring :=
  let w := sv_scorerWeights s in
  let w :=
    {| w_QuantMatch := w_QuantMatch w; w_VRAMFree := w_VRAMFree w; w_GPUUtil := w_GPUUtil w;
       w_QueueDepth := w_QueueDepth w; w_Latency := w_Latency w; w_LoadedModelBonus := w_LoadedModelBonus w;
       w_ColdLoadPenalty := w_ColdLoadPenalty w; w_MaxQueueDepth := w_MaxQueueDepth w;
       w_ThroughputWeight := keep_unless_pos weight (w_ThroughputWeight w) |} in
  {| sv_scorerWeights := w; sv_scorer := scorer_of w |}.

Definition scorerWeightsEnabled (s : scoring) : bool :=
  flt f0 (w_LoadedModelBonus (sv_scorerWeights s)) || flt f0 (w_ColdLoadPenalty (sv_scorerWeights s)).

(** ** Projections of a worker ([dispatch.go]) *)

Definition busyThresholdPct : float64 := dec 80 100.

Definition busyStatus (cached : WorkerStatus) (load : WorkerQueueStats) : WorkerStatus :=
  if negb (String.eqb cached StatusAvailable) then cached
  else if wqs_MaxInFlight load <=? 0 then cached
  else
    let threshold := to_int (fmul busyThresholdPct (of_int (wqs_MaxInFlight load))) in
    if threshold <=? wqs_InFlight load then StatusBusy else cached.

Section projection.
(** [fmt.Sprintf] of the address; nothing reads it back. *)
Context (addr_string : string -> Z -> string).

Definition toSchedulerWorker (cache : CapabilityCache) (w : WorkerInfo) (load : WorkerQueueStats)
    (haveLoad : bool) (model : string) : SchedWorker :=
  let c := wi_Capabilities w in
  let '(vramTotal, vramFree) :=
    if 0 <? mem_TotalMB (cap_VRAM c) then (mem_TotalMB (cap_VRAM c), mem_FreeMB (cap_VRAM c)) else (0, 0) in
  let '(queueDepth, inFlight, maxInFlight, latency) :=
    if haveLoad then
      (wqs_QueueDepth load, wqs_InFlight load, wqs_MaxInFlight load,
       if fle f0 (wqs_AvgWaitMs load) then wqs_AvgWaitMs load else of_int (-1))
    else (-1, -1, -1, of_int (-1)) in
  let maxInFlight := if 0 <? cap_ConcurrencyCap c then cap_ConcurrencyCap c else maxInFlight in
  let maxInFlight := if haveLoad && (0 <? wqs_MaxInFlight load) then wqs_MaxInFlight load else maxInFlight in
  let tps :=
    if negb (String.eqb model "") then
      let '(stats, ok) := GetInferenceStats cache (wi_ID w) model in
      if ok then wis_TokensPerSecond stats else f0
    else f0 in
  {| sw_ID := wi_ID w; sw_Addr := addr_string (wi_IP w) (wi_Port w); sw_Models := cap_Models c;
     sw_VRAMTotalMB := vramTotal; sw_VRAMFreeMB := vramFree; sw_GPUUtilPct := of_int (-1);
     sw_QueueDepth := queueDepth; sw_InFlight := inFlight; sw_MaxInFlight := maxInFlight;
     sw_AvgLatencyMS := latency; sw_LastHeartbeat := wi_LastSeen w; sw_TokensPerSecond := tps;
     sw_AllowedModels := cap_AllowedModels c; sw_ExcludedModels := cap_ExcludedModels c |}.

(** [scheduler.ModelRequest{Model: model}]. *)
Definition plain_request (model : string) : ModelRequest :=
  {| rq_Model := model; rq_Quantization := ""; rq_MaxVRAMMB := 0; rq_MinVRAMMB := 0 |}.

Definition scoreCandidates (now : Time) (s : scoring) (cache : CapabilityCache) (model : string)
    (candidates : list WorkerInfo) (load : gmap string WorkerQueueStats) : result SelectedWorker :=
  let workers := map (fun w =>
    match load !! wi_ID w with
    | Some l => toSchedulerWorker cache w l true model
    | None => toSchedulerWorker cache w zero_WorkerQueueStats false model
    end) candidates in
  let sc := sv_scorer s in
  SelectWorker now (WeightedScorer_algo now sc) (plain_request model) workers (unavailableTTL sc).
End projection.

(** ** The world around a selection *)

(** [world] is everything outside the selecting goroutine.  [w_range k] is the
    order of the [k]-th range over the cache map, [w_load] the queue-load
    snapshot, [w_others] what other goroutines do between two critical
    sections, [post_load] the POST to [/v1/models/load] (the status, or a
    transport error). *)
Class Backend := {
  world : Type;
  w_now : world -> Time;
  w_cache : world -> CapabilityCache;
  w_range : nat -> world -> list WorkerInfo;
  w_load : world -> gmap string WorkerQueueStats;
  w_others : world -> world;
  post_load : WorkerInfo -> string -> world -> world * result Z;
  addr_string : string -> Z -> string;
}.

(** What the router relies on: a range meets each entry once, the cache is
    well-formed (the invariant of [CapabilityCache]), and it does not change
    while the router holds its read lock over a load request. *)
Class BackendLaws (B : Backend) : Prop := {
  range_perm k w : w_range k w ≡ₚ map snd (map_to_list (cc_cache (w_cache w)));
  cache_wf w : CapabilityCache.wf (w_cache w);
  post_load_cache wk m w : cc_cache (w_cache (post_load wk m w).1) = cc_cache (w_cache w);
}.

Section selection.
Context `{B : Backend}.

Definition loadModelOnWorker (worker : WorkerInfo) (modelName : string) (w : world) : world * bool :=
  let '(w, resp) := post_load worker modelName w in
  match resp with
  | inr _ => (w, false)
  | inl status => (w, status =? 200)
  end.

Definition has_loaded (model : string) (w : WorkerInfo) : bool :=
  existsb (fun m => String.eqb (mi_Name m) model && mi_Loaded m) (cap_Models (wi_Capabilities w)).

Definition advertises (model : string) (w : WorkerInfo) : bool :=
  existsb (fun m => String.eqb (mi_Name m) model) (cap_Models (wi_Capabilities w)).

(** The loop over the copied models: the first of that name becomes loaded. *)
Fixpoint mark_first (model : string) (ms : list ModelInfo) : list ModelInfo :=
  match ms with
  | [] => []
  | m :: ms' => if String.eqb (mi_Name m) model then with_Loaded true m :: ms' else m :: mark_first model ms'
  end.

Definition mark_loaded (model : string) (w : WorkerInfo) : WorkerInfo :=
  with_Capabilities (with_Models (mark_first model (cap_Models (wi_Capabilities w))) (wi_Capabilities w)) w.

(** The loop over the models of an advertiser: asks again for each entry of
    that name until a load succeeds. *)
Fixpoint try_load (worker : WorkerInfo) (model : string) (ms : list ModelInfo) (w : world) : world * bool :=
  match ms with
  | [] => (w, false)
  | m :: ms' =>
      if String.eqb (mi_Name m) model then
        let '(w, ok) := loadModelOnWorker worker model w in
        if ok then (w, true) else try_load worker model ms' w
      else try_load worker model ms' w
  end.

(** Loop 1: the loaded workers. *)
Definition collect_loaded (model : string) (workers : list WorkerInfo) : list WorkerInfo :=
  List.filter (has_loaded model) workers.

(** Loop 2: the auto-load path. *)
Fixpoint auto_load (model : string) (workers : list WorkerInfo) (added : gset string) (w : world) :
    world * list WorkerInfo * gset string :=
  match workers with
  | [] => (w, [], added)
  | worker :: workers' =>
      if bool_decide (wi_ID worker ∈ added) then auto_load model workers' added w
      else
        let '(w, ok) := try_load worker model (cap_Models (wi_Capabilities worker)) w in
        if ok then
          let '(w, candidates, added) := auto_load model workers' ({[wi_ID worker]} ∪ added) w in
          (w, mark_loaded model worker :: candidates, added)
        else auto_load model workers' added w
  end.

(** Loop 3: the other advertisers. *)
Fixpoint collect_unloaded (model : string) (workers : list WorkerInfo) (added : gset string) : list WorkerInfo :=
  match workers with
  | [] => []
  | worker :: workers' =>
      if bool_decide (wi_ID worker ∈ added) then collect_unloaded model workers' added
      else if advertises model worker then
        worker :: collect_unloaded model workers' ({[wi_ID worker]} ∪ added)
      else collect_unloaded model workers' added
  end.

Definition by_ID (a b : WorkerInfo) : bool := String.leb (wi_ID a) (wi_ID b).

Definition buildCandidates (s : scoring) (model : string) (w : world) : world * list WorkerInfo :=
  let includeUnloaded := scorerWeightsEnabled s in
  let candidates := collect_loaded model (w_range 0 w) in
  let added : gset string := list_to_set (map wi_ID candidates) in
  let '(w, candidates, added) :=
    if (length candidates =? 0)%nat then auto_load model (w_range 1 w) added w
    else (w, candidates, added) in
  let candidates :=
    if includeUnloaded then candidates ++ collect_unloaded model (w_range 2 w) added else candidates in
  (w, sort_by by_ID candidates).

(** The first worker of the list with this ID. *)
Definition find_ID (id : string) (ws : list WorkerInfo) : option WorkerInfo :=
  List.find (fun w => String.eqb (wi_ID w) id) ws.

(** [FilterByAllowedModels] on the scheduler's view of the workers. *)
Definition opt_out_filter (w : world) (model : string) (ws : list WorkerInfo) : list SchedWorker :=
  FilterByAllowedModels (plain_request model)
    (map (fun x => toSchedulerWorker addr_string (w_cache w) x zero_WorkerQueueStats false model) ws).

(** Mapping a filtered list back to the workers it came from, by ID. *)
Definition map_back (ws : list WorkerInfo) (sched : list SchedWorker) : list WorkerInfo :=
  omap (fun sc => find_ID (sw_ID sc) ws) sched.

Definition not_excluded (excluded : gset string) (w : WorkerInfo) : bool :=
  negb (bool_decide (wi_ID w ∈ excluded)).

(** The choice among the candidates left: the scorer's, else the lowest ID. *)
Definition choose (s : scoring) (model : string) (candidates : list WorkerInfo) (w : world) : option WorkerInfo :=
  let candidates := sort_by by_ID candidates in
  match scoreCandidates addr_string (w_now w) s (w_cache w) model candidates (w_load w) with
  | inl sel =>
      match find_ID (sw_ID (sel_Worker sel)) candidates with
      | Some x => Some x
      | None => head candidates
      end
  | inr _ => head candidates
  end.

(** The fallback paths under the second read lock. *)
Definition fallback (model : string) (excluded : gset string) (w : world) : result WorkerInfo :=
  let allProto := List.filter (not_excluded excluded) (w_range 3 w) in
  let adProto := List.filter (advertises model) allProto in
  let any (_ : unit) : result WorkerInfo :=
    match sort_by (fun a b => String.leb (sw_ID a) (sw_ID b)) (opt_out_filter w model allProto) with
    | [] => inr (Sentinel ErrNoMatchingWorkers)
    | sc :: _ =>
        match find_ID (sw_ID sc) allProto with
        | Some x => inl x
        | None => inr (Sentinel ErrNoMatchingWorkers)
        end
    end in
  match opt_out_filter w model adProto with
  | sc :: _ =>
      match find_ID (sw_ID sc) adProto with
      | Some x => inl x
      | None => any tt
      end
  | [] => any tt
  end.

Definition selectWorkerExcluding (s : scoring) (model : string) (excluded : gset string) (w : world) :
    world * result WorkerInfo :=
  let '(w, candidates) := buildCandidates s model w in
  let candidates := List.filter (not_excluded excluded) candidates in
  let w := w_others w in
  let candidates := map_back candidates (opt_out_filter w model candidates) in
  match choose s model candidates w with
  | Some x => (w, inl x)
  | None => let w := w_others w in (w, fallback model excluded w)
  end.

Definition selectWorker (s : scoring) (model : string) (w : world) : world * result WorkerInfo :=
  selectWorkerExcluding s model ∅ w.
End selection.

(** ** The opt-out filter *)

(** Whether a worker's own lists let it serve the model. *)
Definition serves (model : string) (x : WorkerInfo) : bool :=
  let c := wi_Capabilities x in
  if (0 <? length (cap_AllowedModels c))%nat then existsb (fun m => String.eqb m model) (cap_AllowedModels c)
  else if (0 <? length (cap_ExcludedModels c))%nat then
    negb (existsb (fun m => String.eqb m model) (cap_ExcludedModels c))
  else true.

Lemma toSchedulerWorker_fields f cache x l b m :
  let sw := toSchedulerWorker f cache x l b m in
  sw_ID sw = wi_ID x /\ sw_AllowedModels sw = cap_AllowedModels (wi_Capabilities x) /\
  sw_ExcludedModels sw = cap_ExcludedModels (wi_Capabilities x) /\
  sw_Models sw = cap_Models (wi_Capabilities x) /\ sw_LastHeartbeat sw = wi_LastSeen x.
Proof. unfold toSchedulerWorker. by repeat case_match. Qed.

Lemma toSchedulerWorker_ID f cache x l b m : sw_ID (toSchedulerWorker f cache x l b m) = wi_ID x.
Proof. apply toSchedulerWorker_fields. Qed.

Lemma willing_serves f cache x l b m model :
  willing model (toSchedulerWorker f cache x l b m) = serves model x.
Proof.
  unfold willing, serves. destruct (toSchedulerWorker_fields f cache x l b m) as (_ & -> & -> & _). done.
Qed.

Section filters.
Context `{B : Backend}.

Lemma opt_out_filter_map w model ws :
  opt_out_filter w model ws =
    map (fun x => toSchedulerWorker addr_string (w_cache w) x zero_WorkerQueueStats false model)
      (List.filter (serves model) ws).
Proof.
  unfold opt_out_filter, FilterByAllowedModels. rewrite filter_b_map. f_equal.
  apply filter_b_ext. intros x _. apply willing_serves.
Qed.

Lemma find_ID_elem ws x : NoDup (map wi_ID ws) -> x ∈ ws -> find_ID (wi_ID x) ws = Some x.
Proof.
  unfold find_ID. induction ws as [|y ws IH]; intros Hd Hx; [by apply not_elem_of_nil in Hx|].
  simpl in *. apply NoDup_cons in Hd as [Hy Hd]. apply elem_of_cons in Hx as [->|Hx]; [by rewrite String.eqb_refl|].
  destruct (String.eqb_spec (wi_ID y) (wi_ID x)) as [E|]; [|by apply IH].
  destruct Hy. rewrite E. by apply list_elem_of_fmap_2.
Qed.

Lemma find_ID_Some id ws x : find_ID id ws = Some x -> x ∈ ws /\ wi_ID x = id.
Proof. intros [H1 H2%String.eqb_eq]%List.find_some. by rewrite list_elem_of_In. Qed.

(** Mapping the filtered view back gives the willing workers. *)
Lemma map_back_filter w model ws :
  NoDup (map wi_ID ws) -> map_back ws (opt_out_filter w model ws) = List.filter (serves model) ws.
Proof.
  intros Hd. rewrite opt_out_filter_map. unfold map_back.
  assert (forall l, l ⊆ ws -> omap (fun sc => find_ID (sw_ID sc) ws)
            (map (fun x => toSchedulerWorker addr_string (w_cache w) x zero_WorkerQueueStats false model) l) = l) as H.
  { induction l as [|x l IH]; intros Hl; [done|]. simpl. rewrite toSchedulerWorker_ID, find_ID_elem by set_solver.
    f_equal. apply IH. set_solver. }
  apply H. intros x Hx%elem_of_filter_b. by destruct Hx.
Qed.
End filters.

(** ** What is a candidate *)

Section candidates.
Context `{B : Backend} {L : BackendLaws B}.

Definition in_cache (w : world) (x : WorkerInfo) : Prop := cc_cache (w_cache w) !! wi_ID x = Some x.

Lemma elem_of_range k w x : x ∈ w_range k w <-> in_cache w x.
Proof using L.
  rewrite range_perm, list_elem_of_fmap. unfold in_cache. destruct (cache_wf w) as [Hid _]. split.
  - intros ([id y] & -> & H%elem_of_map_to_list). simpl. by rewrite (Hid _ _ H).
  - intros H%elem_of_map_to_list. by exists (wi_ID x, x).
Qed.

Lemma range_NoDup k w : NoDup (map wi_ID (w_range k w)).
Proof using L.
  rewrite range_perm, map_map. destruct (cache_wf w) as [Hid _].
  replace (map (fun p => wi_ID p.2) (map_to_list (cc_cache (w_cache w)))) with (map_to_list (cc_cache (w_cache w))).*1;
    [apply NoDup_fst_map_to_list|].
  apply map_ext_in. intros [id x] Hp%list_elem_of_In%elem_of_map_to_list. symmetry. exact (Hid _ _ Hp).
Qed.

Lemma in_cache_ext w w' x : cc_cache (w_cache w') = cc_cache (w_cache w) -> in_cache w' x <-> in_cache w x.
Proof. unfold in_cache. by intros ->. Qed.

Lemma mark_first_loaded model ms :
  existsb (fun m => String.eqb (mi_Name m) model) ms = true ->
  existsb (fun m => String.eqb (mi_Name m) model && mi_Loaded m) (mark_first model ms) = true.
Proof.
  induction ms as [|m ms IH]; simpl; [done|]. destruct (String.eqb (mi_Name m) model) eqn:E; simpl; rewrite ?E; auto.
Qed.

Lemma mark_loaded_spec model x :
  wi_ID (mark_loaded model x) = wi_ID x /\ serves model (mark_loaded model x) = serves model x /\
  (advertises model x = true -> has_loaded model (mark_loaded model x) = true).
Proof. split; [done|]. split; [done|]. apply mark_first_loaded. Qed.

Lemma has_loaded_advertises model x : has_loaded model x = true -> advertises model x = true.
Proof.
  unfold has_loaded, advertises. rewrite !existsb_exists. intros (m & ? & [? ?]%andb_prop). by exists m.
Qed.

Lemma loadModelOnWorker_cache x model w :
  cc_cache (w_cache (loadModelOnWorker x model w).1) = cc_cache (w_cache w).
Proof using L.
  unfold loadModelOnWorker. rewrite <- (post_load_cache x model w).
  destruct (post_load x model w) as [w' [st|e]]; done.
Qed.

Lemma try_load_spec x model ms w :
  cc_cache (w_cache (try_load x model ms w).1) = cc_cache (w_cache w) /\
  ((try_load x model ms w).2 = true -> existsb (fun m => String.eqb (mi_Name m) model) ms = true).
Proof using L.
  revert w. induction ms as [|m ms IH]; intros w; simpl; [done|].
  destruct (String.eqb (mi_Name m) model); simpl; [|apply IH].
  pose proof (loadModelOnWorker_cache x model w) as H. destruct (loadModelOnWorker x model w) as [w' []]; simpl in *; [done|].
  destruct (IH w') as [-> _]. done.
Qed.

(** What the auto-load loop adds: advertisers not added before, now loaded. *)
Lemma auto_load_spec model ws added w :
  NoDup (map wi_ID ws) ->
  let '(w', cs, added') := auto_load model ws added w in
  cc_cache (w_cache w') = cc_cache (w_cache w) /\
  map wi_ID cs `sublist_of` map wi_ID ws /\
  added' = added ∪ list_to_set (map wi_ID cs) /\
  Forall (fun c => exists x, x ∈ ws /\ advertises model x = true /\ c = mark_loaded model x) cs.
Proof using L.
  revert added w. induction ws as [|x ws IH]; intros added w Hd; simpl.
  { split_and!; [done|constructor|set_solver|constructor]. }
  simpl in Hd. apply NoDup_cons in Hd as [Hx Hd].
  assert (forall (cs : list WorkerInfo),
    Forall (fun c => exists y, y ∈ ws /\ advertises model y = true /\ c = mark_loaded model y) cs ->
    Forall (fun c => exists y, y ∈ x :: ws /\ advertises model y = true /\ c = mark_loaded model y) cs) as Hmore.
  { intros cs H. eapply Forall_impl; [exact H|]. intros c (y & ? & ? & ?). exists y. split; [by right|done]. }
  case_bool_decide as Hin.
  { specialize (IH added w Hd). destruct (auto_load model ws added w) as [[w' cs] added'].
    destruct IH as (? & ? & ? & ?). split_and!; auto. by constructor. }
  destruct (try_load_spec x model (cap_Models (wi_Capabilities x)) w) as [Hc Hadv].
  destruct (try_load x model _ w) as [w1 []]; simpl in Hc, Hadv.
  - specialize (IH ({[wi_ID x]} ∪ added) w1 Hd). destruct (auto_load model ws _ w1) as [[w' cs] added'].
    destruct IH as (H1 & H2 & H3 & H4). split_and!; [congruence|by constructor|set_solver|].
    constructor; [|by apply Hmore]. exists x. split; [by left|]. split; [by apply Hadv|done].
  - specialize (IH added w1 Hd). destruct (auto_load model ws added w1) as [[w' cs] added'].
    destruct IH as (H1 & H2 & H3 & H4). split_and!; [congruence|by constructor|done|by apply Hmore].
Qed.

(** What the last loop adds: the advertisers not added before. *)
Lemma collect_unloaded_spec model ws added :
  NoDup (map wi_ID ws) ->
  collect_unloaded model ws added =
    List.filter (fun x => negb (bool_decide (wi_ID x ∈ added)) && advertises model x) ws.
Proof.
  revert added. induction ws as [|x ws IH]; intros added Hd; simpl; [done|].
  simpl in Hd. apply NoDup_cons in Hd as [Hx Hd].
  case_bool_decide; simpl; [by apply IH|]. destruct (advertises model x); [|by apply IH].
  f_equal. rewrite IH by done. apply filter_b_ext. intros y Hy.
  assert (wi_ID y <> wi_ID x) by (intros E; apply Hx; rewrite <- E; by apply list_elem_of_fmap_2).
  f_equal. f_equal. apply bool_decide_ext. set_solver.
Qed.

(** A candidate is a cached advertiser, possibly just loaded. *)
Definition candidate_of (w : world) (model : string) (c : WorkerInfo) : Prop :=
  exists x, in_cache w x /\ advertises model x = true /\ (c = x \/ c = mark_loaded model x).

Lemma candidate_of_ext w w' model c :
  cc_cache (w_cache w') = cc_cache (w_cache w) -> candidate_of w' model c <-> candidate_of w model c.
Proof. intros H. unfold candidate_of. by setoid_rewrite (in_cache_ext _ _ _ H). Qed.

Lemma collect_loaded_elem model w x :
  x ∈ collect_loaded model (w_range 0 w) <-> in_cache w x /\ has_loaded model x = true.
Proof using L. unfold collect_loaded. by rewrite elem_of_filter_b, elem_of_range. Qed.

Lemma sublist_map_ID (f : WorkerInfo -> bool) ws : map wi_ID (List.filter f ws) `sublist_of` map wi_ID ws.
Proof. apply fmap_sublist, filter_b_sublist. Qed.

(** Candidates with pairwise distinct IDs, [added] being the set of them. *)
Definition good_candidates (w : world) (model : string) (cs : list WorkerInfo) (added : gset string) : Prop :=
  NoDup (map wi_ID cs) /\ added = list_to_set (map wi_ID cs) /\ Forall (candidate_of w model) cs.

Lemma first_candidates w model :
  let candidates := collect_loaded model (w_range 0 w) in
  let '(w', cs, added) :=
    if (length candidates =? 0)%nat then auto_load model (w_range 1 w) (list_to_set (map wi_ID candidates)) w
    else (w, candidates, list_to_set (map wi_ID candidates)) in
  cc_cache (w_cache w') = cc_cache (w_cache w) /\ good_candidates w model cs added /\
  Forall (fun c => has_loaded model c = true) cs /\
  (candidates <> [] -> w' = w /\ cs = candidates).
Proof using L.
  intros candidates. subst candidates. unfold good_candidates.
  destruct (collect_loaded model (w_range 0 w)) as [|c cs] eqn:E; cbn [length Nat.eqb].
  - pose proof (auto_load_spec model (w_range 1 w) ∅ w (range_NoDup 1 w)) as H. simpl.
    destruct (auto_load model _ ∅ w) as [[w' cs] added]. destruct H as (Hc & Hs & -> & Hf).
    split; [done|]. split_and!; [eapply sublist_NoDup; [apply (range_NoDup 1 w)|done]|set_solver| | |done].
    + eapply Forall_impl; [exact Hf|]. intros c (x & Hx%elem_of_range & Ha & ->). exists x. auto.
    + eapply Forall_impl; [exact Hf|]. intros c (x & _ & Ha & ->). by apply mark_loaded_spec.
  - split; [done|].
    assert (Forall (fun c => in_cache w c /\ has_loaded model c = true) (c :: cs)) as Hf.
    { apply Forall_forall. intros x Hx. rewrite <- E in Hx. by apply collect_loaded_elem. }
    split_and!; try done.
    + rewrite <- E. eapply sublist_NoDup; [apply (range_NoDup 0 w)|apply sublist_map_ID].
    + eapply Forall_impl; [exact Hf|]. intros x [Hx Hl]. exists x. auto using has_loaded_advertises.
    + eapply Forall_impl; [exact Hf|]. by intros x [].
Qed.

(** What [buildCandidates] returns: cached advertisers with distinct IDs, all
    loaded unless the weights say otherwise; when some worker has the model
    loaded, every such worker, and nobody was asked to load it. *)
Definition candidates_ok (s : scoring) (model : string) (w w' : world) (cs : list WorkerInfo) : Prop :=
  cc_cache (w_cache w') = cc_cache (w_cache w) /\
  NoDup (map wi_ID cs) /\ Forall (candidate_of w model) cs /\
  (scorerWeightsEnabled s = false -> Forall (fun c => has_loaded model c = true) cs) /\
  (collect_loaded model (w_range 0 w) <> [] ->
     w' = w /\ Forall (in_cache w) cs /\ collect_loaded model (w_range 0 w) ⊆ cs).

Lemma sorted_candidates s model w w' cs :
  candidates_ok s model w w' cs -> candidates_ok s model w w' (sort_by by_ID cs).
Proof using.
  pose proof (sort_by_perm by_ID cs) as Hp. unfold candidates_ok. intros (H1 & H2 & H3 & H4 & H5).
  assert (forall P, Forall P cs -> Forall P (sort_by by_ID cs)) as HF.
  { intros P HP. rewrite Forall_forall in *. intros x Hx%elem_of_sort_by. auto. }
  split_and!; auto.
  - by rewrite Hp.
  - intros Hne. destruct (H5 Hne) as (? & ? & Hs). split_and!; auto.
    intros x Hx. apply elem_of_sort_by. auto.
Qed.

Lemma buildCandidates_spec s model w :
  candidates_ok s model w (buildCandidates s model w).1 (buildCandidates s model w).2.
Proof using L.
  unfold buildCandidates. pose proof (first_candidates w model) as H. simpl in H.
  destruct (if (length _ =? 0)%nat then _ else _) as [[w' cs] added]. cbn [fst snd].
  destruct H as (Hc & (Hd & -> & Hcand) & Hl & Hfirst).
  assert (collect_loaded model (w_range 0 w) <> [] -> Forall (in_cache w) cs) as Hin.
  { intros [_ ->]%Hfirst. apply Forall_forall. intros x Hx. by apply collect_loaded_elem in Hx as []. }
  destruct (scorerWeightsEnabled s) eqn:Es.
  2:{ apply sorted_candidates. unfold candidates_ok. split_and!; auto. intros Hne. destruct (Hfirst Hne) as [-> <-]. auto. }
  apply sorted_candidates. rewrite collect_unloaded_spec by apply range_NoDup.
  set (more := List.filter _ _).
  assert (forall x, x ∈ more -> in_cache w x /\ advertises model x = true /\ wi_ID x ∉ map wi_ID cs) as Hmore.
  { intros x [Hx [Hn%negb_true_iff Ha]%andb_prop]%elem_of_filter_b. apply bool_decide_eq_false in Hn.
    rewrite elem_of_list_to_set in Hn. apply elem_of_range in Hx. rewrite (in_cache_ext w) in Hx by done. auto. }
  unfold candidates_ok. split_and!; [done| | |congruence|].
  - rewrite map_app. apply NoDup_app. split; [done|]. split.
    + intros id Hid (x & -> & Hx)%list_elem_of_fmap. by apply Hmore in Hx as (_ & _ & ?).
    + eapply sublist_NoDup; [apply (range_NoDup 2 w')|apply sublist_map_ID].
  - apply Forall_app. split; [done|]. apply Forall_forall. intros x (? & ? & _)%Hmore. exists x. auto.
  - intros Hne. destruct (Hfirst Hne) as [-> <-]. split; [done|].
    split; [|set_solver]. apply Forall_app. split; [by apply Hin|].
    apply Forall_forall. by intros x (? & _)%Hmore.
Qed.

(** *** The choice among candidates *)

Lemma choose_spec s model cs w :
  match choose s model cs w with
  | Some x => x ∈ cs
  | None => cs = []
  end.
Proof using.
  unfold choose. set (l := sort_by by_ID cs).
  assert (match head l with Some x => x ∈ cs | None => cs = [] end) as Hh.
  { destruct l as [|x l'] eqn:E; simpl.
    - apply Permutation_nil_r. by rewrite <- (sort_by_perm by_ID cs), <- E.
    - rewrite <- (elem_of_sort_by by_ID). fold l. rewrite E. by left. }
  destruct (scoreCandidates _ _ _ _ _ _ _) as [sel|]; [|done].
  destruct (find_ID _ l) as [x|] eqn:E; [|done]. apply find_ID_Some in E as [E _].
  by apply elem_of_sort_by in E.
Qed.

(** The fallback finds a willing worker that is not excluded if there is one. *)
Lemma fallback_spec model excluded w :
  match fallback model excluded w with
  | inl x => in_cache w x /\ wi_ID x ∉ excluded /\ serves model x = true
  | inr e => e = Sentinel ErrNoMatchingWorkers /\
      forall x, in_cache w x -> wi_ID x ∈ excluded \/ serves model x = false
  end.
Proof using L.
  unfold fallback. set (all := List.filter (not_excluded excluded) (w_range 3 w)).
  assert (forall x, x ∈ all <-> in_cache w x /\ wi_ID x ∉ excluded) as Hall.
  { intros x. unfold all. rewrite elem_of_filter_b, elem_of_range. unfold not_excluded.
    by rewrite negb_true_iff, bool_decide_eq_false. }
  assert (NoDup (map wi_ID all)) as Hd
    by (eapply sublist_NoDup; [apply (range_NoDup 3 w)|apply sublist_map_ID]).
  assert (forall ws sc, NoDup (map wi_ID ws) -> ws ⊆ all -> sc ∈ opt_out_filter w model ws ->
    exists x, find_ID (sw_ID sc) ws = Some x /\ in_cache w x /\ wi_ID x ∉ excluded /\ serves model x = true) as Hpick.
  { intros ws sc Hdw Hsub Hin.
    rewrite opt_out_filter_map in Hin. apply list_elem_of_fmap in Hin as (y & -> & [Hy Hs]%elem_of_filter_b).
    exists y. rewrite toSchedulerWorker_ID, find_ID_elem by done. destruct (proj1 (Hall y)); auto. }
  destruct (opt_out_filter w model (List.filter (advertises model) all)) as [|sc l] eqn:Ead.
  2:{ destruct (Hpick (List.filter (advertises model) all) sc) as (x & -> & ?); [| | |done].
      - eapply sublist_NoDup; [exact Hd|apply sublist_map_ID].
      - intros y Hy%elem_of_filter_b. by destruct Hy.
      - rewrite Ead. by left. }
  destruct (sort_by _ (opt_out_filter w model all)) as [|sc l] eqn:Eany.
  - split; [done|]. intros x Hx. destruct (decide (wi_ID x ∈ excluded)) as [|Hn]; [by left|right].
    apply not_true_is_false. intros Hs.
    assert (opt_out_filter w model all = []) as E.
    { apply Permutation_nil_r. by rewrite <- Eany, sort_by_perm. }
    rewrite opt_out_filter_map in E. apply map_eq_nil in E.
    assert (x ∈ List.filter (serves model) all) as Hin by (rewrite elem_of_filter_b, Hall; auto).
    rewrite E in Hin. by apply not_elem_of_nil in Hin.
  - destruct (Hpick all sc) as (x & -> & ?); [done|done| |done].
    rewrite <- (elem_of_sort_by (fun a b => String.leb (sw_ID a) (sw_ID b))), Eany. by left.
Qed.
End candidates.

Lemma scoreCandidates_elem f now s cache model cs load sel :
  scoreCandidates f now s cache model cs load = inl sel ->
  exists z, z ∈ cs /\ sw_ID (sel_Worker sel) = wi_ID z.
Proof.
  intros H%SelectWorker_elem%considered_elem. apply list_elem_of_fmap in H as (z & -> & Hz).
  exists z. split; [done|]. case_match; apply toSchedulerWorker_ID.
Qed.

(** ** Theorems *)

Section theorems.
Context `{B : Backend} {L : BackendLaws B}.

(** The candidates that reach the scorer. *)
Definition eligible_candidates (model : string) (excluded : gset string) (cs : list WorkerInfo) : list WorkerInfo :=
  List.filter (serves model) (List.filter (not_excluded excluded) cs).

Lemma eligible_elem model excluded cs x :
  x ∈ eligible_candidates model excluded cs <-> x ∈ cs /\ wi_ID x ∉ excluded /\ serves model x = true.
Proof.
  unfold eligible_candidates. rewrite !elem_of_filter_b. unfold not_excluded.
  rewrite negb_true_iff, bool_decide_eq_false. tauto.
Qed.

Lemma selectWorkerExcluding_cases s model excluded w :
  let w1 := (buildCandidates s model w).1 in
  let cs := eligible_candidates model excluded (buildCandidates s model w).2 in
  selectWorkerExcluding s model excluded w =
    match choose s model cs (w_others w1) with
    | Some x => (w_others w1, inl x)
    | None => (w_others (w_others w1), fallback model excluded (w_others (w_others w1)))
    end.
Proof using L.
  unfold selectWorkerExcluding. pose proof (buildCandidates_spec s model w) as H.
  destruct (buildCandidates s model w) as [w1 cs]. cbn [fst snd] in *. destruct H as (_ & Hd & _).
  rewrite map_back_filter; [done|]. eapply sublist_NoDup; [exact Hd|apply sublist_map_ID].
Qed.

(** What selection returns, in the world it leaves. *)
Lemma select_spec s model excluded w :
  let '(w', r) := selectWorkerExcluding s model excluded w in
  match r with
  | inl x => wi_ID x ∉ excluded /\ serves model x = true /\ (candidate_of w model x \/ in_cache w' x)
  | inr e => e = Sentinel ErrNoMatchingWorkers /\
      forall x, in_cache w' x -> wi_ID x ∈ excluded \/ serves model x = false
  end.
Proof using L.
  rewrite selectWorkerExcluding_cases. pose proof (buildCandidates_spec s model w) as (_ & _ & Hc & _).
  pose proof (choose_spec s model (eligible_candidates model excluded (buildCandidates s model w).2)
    (w_others (buildCandidates s model w).1)) as Hx.
  destruct (choose _ _ _ _) as [y|].
  - apply eligible_elem in Hx as (Hin & Hn & Hs). rewrite Forall_forall in Hc. auto.
  - pose proof (fallback_spec model excluded (w_others (w_others (buildCandidates s model w).1))) as H.
    destruct (fallback _ _ _); [|done]. destruct H as (? & ? & ?). auto.
Qed.

(** No other goroutine touches the worker cache. *)
Definition stable_cache : Prop := forall w, cc_cache (w_cache (w_others w)) = cc_cache (w_cache w).

Lemma select_cache s model excluded w :
  stable_cache -> cc_cache (w_cache (selectWorkerExcluding s model excluded w).1) = cc_cache (w_cache w).
Proof using L.
  intros Hst. rewrite selectWorkerExcluding_cases.
  pose proof (buildCandidates_spec s model w) as (Hc & _). destruct (choose _ _ _ _); simpl; by rewrite !Hst, Hc.
Qed.

(** Whoever is selected is, but for the load of its model, a cached worker. *)
Lemma selected_cached s model excluded w w' x :
  stable_cache -> selectWorkerExcluding s model excluded w = (w', inl x) ->
  exists y, in_cache w y /\ wi_ID x = wi_ID y /\ serves model y = true.
Proof using L.
  intros Hst E. pose proof (select_spec s model excluded w) as H. pose proof (select_cache s model excluded w Hst) as Hc.
  rewrite E in H, Hc. simpl in Hc. destruct H as (_ & Hs & [(y & Hy & _ & [->| ->])|Hin]).
  - eauto.
  - exists y. destruct (mark_loaded_spec model y) as (E1 & E2 & _). split_and!; [done|done|congruence].
  - exists x. apply (in_cache_ext _ _ _ Hc) in Hin. auto.
Qed.

(** C9: A selected worker is never excluded and always willing: it is a worker
    of the cache (as it was when the candidates were collected, possibly with
    the model it was just made to load, or as it is in the fallback), its ID is
    not in the exclusion set, and its own lists let it serve the model. *)
Theorem selected_worker_allowed s model excluded w w' x :
  selectWorkerExcluding s model excluded w = (w', inl x) ->
  wi_ID x ∉ excluded /\ serves model x = true /\
  (candidate_of w model x \/ in_cache w' x).
Proof using L. intros E. pose proof (select_spec s model excluded w) as H. by rewrite E in H. Qed.

(** Selection fails exactly when nobody may serve: as long as no other
    goroutine changes the worker cache meanwhile, it returns an error, always
    [ErrNoMatchingWorkers], if and only if every cached worker is excluded or
    has opted out of the model. *)
Theorem selection_fails_iff s model excluded w :
  stable_cache ->
  ((exists e, (selectWorkerExcluding s model excluded w).2 = inr e) <->
   forall x, in_cache w x -> wi_ID x ∈ excluded \/ serves model x = false) /\
  (forall e, (selectWorkerExcluding s model excluded w).2 = inr e -> e = Sentinel ErrNoMatchingWorkers).
Proof using L.
  intros Hst. pose proof (select_spec s model excluded w) as H.
  pose proof (select_cache s model excluded w Hst) as Hc. pose proof (selected_cached s model excluded w) as Hsel.
  destruct (selectWorkerExcluding s model excluded w) as [w' [x|e]]; simpl in *.
  - split; [|done]. split; [by intros [e He]|]. intros Hall. exfalso.
    destruct (Hsel w' x Hst eq_refl) as (y & Hy & E & Hs). destruct (Hall y Hy) as [Hin|?]; [|congruence].
    rewrite <- E in Hin. by apply H.
  - destruct H as [-> Hall]. split; [|by intros e [= <-]]. split; [|eauto].
    intros _ x Hx. apply Hall. by apply (in_cache_ext _ _ _ Hc).
Qed.

(** A worker that has the model loaded is preferred: if the cache holds one
    that may serve, the selected worker is a cached one, has the model loaded
    unless the load weights are enabled, no worker was asked to load anything,
    and the scorer's pick among the candidates is taken whenever it makes one. *)
Theorem loaded_worker_preferred s model excluded w y :
  in_cache w y -> has_loaded model y = true -> wi_ID y ∉ excluded -> serves model y = true ->
  exists x, selectWorkerExcluding s model excluded w = (w_others w, inl x) /\
    in_cache w x /\ (scorerWeightsEnabled s = false -> has_loaded model x = true) /\
    let cs := sort_by by_ID (eligible_candidates model excluded (buildCandidates s model w).2) in
    let w1 := w_others w in
    y ∈ cs /\
    match scoreCandidates addr_string (w_now w1) s (w_cache w1) model cs (w_load w1) with
    | inl sel => find_ID (sw_ID (sel_Worker sel)) cs = Some x
    | inr _ => head cs = Some x
    end.
Proof using L.
  intros Hy Hl Hn Hs. rewrite selectWorkerExcluding_cases.
  pose proof (buildCandidates_spec s model w) as (_ & Hd & _ & Hen & Hload).
  assert (y ∈ collect_loaded model (w_range 0 w)) as Hyc by by apply collect_loaded_elem.
  destruct Hload as (-> & Hcs & Hsub); [intros E; rewrite E in Hyc; by apply not_elem_of_nil in Hyc|].
  set (cs := eligible_candidates model excluded (buildCandidates s model w).2).
  assert (y ∈ cs) as Hyin by (apply eligible_elem; auto).
  pose proof (choose_spec s model cs (w_others w)) as Hx.
  destruct (choose s model cs (w_others w)) as [x|] eqn:Ex; [|rewrite Hx in Hyin; by apply not_elem_of_nil in Hyin].
  exists x. split; [done|]. apply eligible_elem in Hx as (Hxc & _).
  rewrite Forall_forall in Hcs. split; [by apply Hcs|].
  split; [intros E; specialize (Hen E); rewrite Forall_forall in Hen; by apply Hen|].
  cbv zeta. split; [by apply elem_of_sort_by|]. unfold choose in Ex.
  destruct (scoreCandidates _ _ _ _ _ _ _) as [sel|e] eqn:Esel; [|done].
  apply scoreCandidates_elem in Esel as (z & Hz & Ez). rewrite Ez in *.
  assert (NoDup (map wi_ID (sort_by by_ID cs))) as Hds.
  { rewrite (sort_by_perm by_ID cs). do 2 (eapply sublist_NoDup; [|apply sublist_map_ID]). done. }
  pose proof (find_ID_elem _ z Hds Hz) as Hf. rewrite Hf in *. done.
Qed.
End theorems.

(** *** Scorer configuration *)

Inductive config_op :=
| CSetScorerWeights (quantMatch vramFree gpuUtil queueDepth latency loadedModelBonus coldLoadPenalty : float64)
    (maxQueueDepth : Z)
| CSetScorerThroughputWeight (weight : float64).

Definition config_exec (s : scoring) (o : config_op) : scoring :=
  match o with
  | CSetScorerWeights a b c d e f g n => SetScorerWeights a b c d e f g n s
  | CSetScorerThroughputWeight x => SetScorerThroughputWeight x s
  end.

Definition configured (ops : list config_op) : scoring := foldl config_exec NewScoring ops.

(** Whether the scorer scores workers that have the model unloaded. *)
Definition accepts_unloaded (sc : WeightedScorer) : bool :=
  negb (feq (LoadedModelBonusWeight sc) f0 && feq (ColdLoadPenaltyWeight sc) f0).

Definition weights_nonneg (w : schedulerWeights) : Prop :=
  Forall nonneg [w_QuantMatch w; w_VRAMFree w; w_GPUUtil w; w_QueueDepth w; w_Latency w; w_LoadedModelBonus w;
                 w_ColdLoadPenalty w; w_ThroughputWeight w] /\ 0 < w_MaxQueueDepth w.

Lemma keep_unless_pos_nonneg x cur : nonneg cur -> nonneg (keep_unless_pos x cur).
Proof. unfold keep_unless_pos. destruct (flt f0 x) eqn:E; [|done]. intros _. by apply fle_0_nonneg, flt_fle. Qed.

Lemma nonneg_enabled x : nonneg x -> flt f0 x = negb (feq x f0).
Proof. by destruct x as [[]|[]| |[]]. Qed.

(** The scorer in use always is the one of the weights reported: after any
    sequence of settings no weight is negative or NaN, the queue threshold is
    positive, and unloaded workers are offered as candidates exactly when the
    scorer scores them. *)
Theorem scorer_configuration ops :
  let s := configured ops in
  sv_scorer s = scorer_of (sv_scorerWeights s) /\
  weights_nonneg (sv_scorerWeights s) /\
  maxQueueDepth (sv_scorer s) = w_MaxQueueDepth (sv_scorerWeights s) /\
  scorerWeightsEnabled s = accepts_unloaded (sv_scorer s).
Proof.
  enough (sv_scorer (configured ops) = scorer_of (sv_scorerWeights (configured ops)) /\
          weights_nonneg (sv_scorerWeights (configured ops))) as [H [Hw Hq]].
  { cbv zeta. split; [done|]. split; [done|]. rewrite H. unfold scorer_of, NewWeightedScorerWithConfig, accepts_unloaded,
      scorerWeightsEnabled. cbn [maxQueueDepth LoadedModelBonusWeight ColdLoadPenaltyWeight].
    split; [by rewrite (proj2 (Z.leb_gt _ 0)) by lia|].
    rewrite !Forall_cons in Hw. rewrite !nonneg_enabled by tauto. by rewrite negb_andb. }
  unfold configured. induction ops as [|o ops [IH [IHw IHq]]] using rev_ind.
  { split; [reflexivity|]. split; [|reflexivity]. repeat constructor. }
  rewrite foldl_snoc. set (s := foldl _ _ ops) in *. rewrite !Forall_cons in IHw.
  destruct o; (split; [reflexivity|]); split; cbn; rewrite ?Forall_cons;
    try (split_and!; try constructor; try apply keep_unless_pos_nonneg; tauto).
  - case_if; zbool_lia.
  - done.
Qed.

(** *** The busy overlay and the projected throughput *)

(** The busy overlay of [handleWorkersList]: only an available worker with
    a known cap becomes busy, and it does at 80 percent of the cap rounded
    down (caps up to 1000), so a worker with a cap of one is always busy. *)
Theorem busyStatus_spec cached load :
  (cached <> StatusAvailable \/ wqs_MaxInFlight load <= 0 -> busyStatus cached load = cached) /\
  (1 <= wqs_MaxInFlight load <= 1000 ->
   busyStatus StatusAvailable load =
     if 4 * wqs_MaxInFlight load / 5 <=? wqs_InFlight load then StatusBusy else StatusAvailable).
Proof.
  split.
  - unfold busyStatus. intros [H|H].
    + by rewrite (proj2 (String.eqb_neq _ _)).
    + rewrite (proj2 (Z.leb_le _ 0)) by lia. by case_if.
  - intros H. unfold busyStatus. rewrite String.eqb_refl, (proj2 (Z.leb_gt _ 0)) by lia. cbn [negb].
    assert (forallb (fun n => to_int (fmul busyThresholdPct (of_int (Z.of_nat n))) =? 4 * Z.of_nat n / 5) (seq 1 1000) = true)
      as Hall by (vm_compute; reflexivity).
    rewrite forallb_forall in Hall. specialize (Hall (Z.to_nat (wqs_MaxInFlight load))).
    rewrite in_seq, Z.eqb_eq, Z2Nat.id in Hall by lia. by rewrite Hall by lia.
Qed.

(** A worker that never reported throughput is not neutral: with a
    throughput weight set it scores 0 for throughput, as the slowest worker
    would, and not the 0.5 of an unknown signal. *)
Theorem unknown_throughput_scores_zero f cache x load haveLoad model sc :
  (GetInferenceStats cache (wi_ID x) model).2 = false -> flt f0 (ThroughputWeight sc) = true ->
  throughputScore sc (toSchedulerWorker f cache x load haveLoad model) = f0 /\ f0 <> f05.
Proof.
  intros Hs Hw. split; [|by vm_compute].
  assert (sw_TokensPerSecond (toSchedulerWorker f cache x load haveLoad model) = f0) as E.
  { unfold toSchedulerWorker. destruct (GetInferenceStats cache (wi_ID x) model) as [st ok]. simpl in Hs. subst ok.
    by repeat case_match. }
  unfold throughputScore. rewrite Hw, E. vm_compute. reflexivity.
Qed.

(** ** Concrete instances *)

(** A world whose cache does not change and whose workers refuse to load; the
    state counts the load requests. *)
Definition still_backend (cache : CapabilityCache) : Backend :=
  {| world := nat; w_now _ := 0; w_cache _ := cache;
     w_range _ _ := map snd (map_to_list (cc_cache cache)); w_load _ := ∅; w_others w := w;
     post_load _ _ w := (S w, inl 503); addr_string ip _ := ip |}.

Lemma still_laws cache : CapabilityCache.wf cache -> BackendLaws (still_backend cache).
Proof. intros H. split; simpl; done. Qed.

Definition ex_cached (id : string) (loaded : bool) (excluded : list string) : WorkerInfo :=
  with_LastSeen 0 (with_Transport TransportHTTP (with_ID id (with_Capabilities
    {| cap_GPU := zero_GPUInfo;
       cap_Models := [{| mi_Name := "llama"; mi_Size := 7; mi_Quantization := "Q4"; mi_MaxTokens := 0;
                         mi_Backend := "ollama"; mi_Loaded := loaded |}];
       cap_Engines := []; cap_VRAM := zero_MemoryInfo; cap_System := zero_MemoryInfo;
       cap_AllowedModels := []; cap_ExcludedModels := excluded; cap_ConcurrencyCap := 0; cap_Threads := 0;
       cap_InferenceStats := [] |} zero_WorkerInfo))).

Definition ex_fleet : CapabilityCache :=
  seed (ex_cached "a" true ["llama"]) (seed (ex_cached "b" true []) (seed (ex_cached "c" false []) NewCapabilityCache)).

Lemma ex_fleet_wf : CapabilityCache.wf ex_fleet.
Proof. do 3 apply wf_seed. apply wf_new. Qed.

#[local] Instance ex_backend : Backend := still_backend ex_fleet.
#[local] Instance ex_laws : BackendLaws ex_backend := still_laws _ ex_fleet_wf.

Lemma selected_worker_allowed_witness :
  (selectWorkerExcluding (B := ex_backend) NewScoring "llama" {["b"]} 0%nat).2 = inl (ex_cached "c" false []) /\
  serves "llama" (ex_cached "c" false []) = true.
Proof.
  assert (selectWorkerExcluding (B := ex_backend) NewScoring "llama" {["b"]} 0%nat =
          (0%nat, inl (ex_cached "c" false []))) as E by (vm_compute; reflexivity).
  split; [rewrite E; reflexivity|].
  apply (selected_worker_allowed (B := ex_backend) NewScoring "llama" {["b"]} 0%nat 0%nat (ex_cached "c" false [])).
  exact E.
Defined.

Lemma selection_fails_iff_witness :
  exists e, (selectWorkerExcluding (B := ex_backend) NewScoring "llama" {["b"; "c"]} 0%nat).2 = inr e.
Proof.
  apply (selection_fails_iff (B := ex_backend) NewScoring "llama" {["b"; "c"]} 0%nat); [intros w; reflexivity|].
  intros x Hx. apply (elem_of_range (B := ex_backend) 0%nat) in Hx.
  assert (w_range (Backend := ex_backend) 0%nat 0%nat =
          [ex_cached "c" false []; ex_cached "a" true ["llama"]; ex_cached "b" true []]) as E
    by (vm_compute; reflexivity).
  rewrite E, !elem_of_cons in Hx. destruct Hx as [->|[->|[->|Hx]]].
  - left. apply elem_of_union_r, elem_of_singleton. reflexivity.
  - right. reflexivity.
  - left. apply elem_of_union_l, elem_of_singleton. reflexivity.
  - destruct (not_elem_of_nil _ Hx).
Defined.

Lemma loaded_worker_preferred_witness :
  exists x, selectWorkerExcluding (B := ex_backend) NewScoring "llama" ∅ 0%nat = (0%nat, inl x) /\
    has_loaded "llama" x = true.
Proof.
  destruct (loaded_worker_preferred (B := ex_backend) NewScoring "llama" ∅ 0%nat (ex_cached "b" true []))
    as (x & Hx & _ & Hl & _); [reflexivity|reflexivity|apply not_elem_of_empty|reflexivity|].
  exists x. split; [exact Hx|apply Hl; reflexivity].
Defined.

Lemma unknown_throughput_scores_zero_witness :
  throughputScore (sv_scorer (SetScorerThroughputWeight f05 NewScoring))
    (toSchedulerWorker (fun ip _ => ip) ex_fleet (ex_cached "b" true []) zero_WorkerQueueStats false "llama") = f0.
Proof. apply unknown_throughput_scores_zero; reflexivity. Defined.

Example idle_single_slot_worker_is_busy :
  busyStatus StatusAvailable
    {| wqs_WorkerID := "w"; wqs_QueueDepth := 0; wqs_InFlight := 0; wqs_MaxInFlight := 1; wqs_AvgWaitMs := f0;
       wqs_Rejected429Total := 0; wqs_Rejected504Total := 0 |} = StatusBusy.
Proof. vm_compute. reflexivity. Qed.
