(* ===== verification/Dispatch.v ===== *)
(** * Dispatch: failover across workers ([dispatch.go], [worker_client.go])

    [dispatchWithFailover] over the interface [Transport]: the context, the hub
    and the worker clients are actions on the world of [Selection].  The
    function returns, beside its result, the trace of the workers it tried, in
    order; the trace is not part of the code. *)

From S2P Require Import Prelude GoFloat Errors Protocol Scheduler CapabilityCache QueueStats CallCounter RequestTracker Selection.

(** ** Classification of errors *)

Definition StatusTooManyRequests : Z := 429.

(** [None] is the nil error. *)
Definition isRetryableError (err : option goerr) : bool :=
  match err with
  | None => false
  | Some err =>
      if errors_Is context_Canceled err then false
      else if errors_Is ErrNoMatchingWorkers err || errors_Is ErrAllWorkersUnavailable err then false
      else if errors_Is errTimeout err then true
      else if errors_Is errConnClosed err then true
      else if errors_Is errRelayDisconnected err then true
      else if errors_Is errRateLimited err then true
      else if errors_Is errWorkerInferenceError err then true
      else if errors_Is context_DeadlineExceeded err then true
      else
        match errors_As_HTTP err with
        | Some code => if 500 <=? code then true else if code =? StatusTooManyRequests then true else false
        | None => false
        end
  end.

(** The status and the error code of the response of [writeFailoverError]. *)
Definition writeFailoverError (err : option goerr) : Z * string :=
  match err with
  | None => (500, "internal_error")
  | Some err =>
      if errors_Is errAllAttemptsFailed err then (503, "all_attempts_failed")
      else if errors_Is context_DeadlineExceeded err then (504, "timeout_error")
      else
        match errors_As_HTTP err with
        | Some code => (code, "worker_error")
        | None =>
            if errors_Is errTimeout err then (504, "timeout_error")
            else if errors_Is errConnClosed err || errors_Is errRelayDisconnected err then (503, "connection_error")
            else (503, "no_workers")
        end
  end.

(** ** Worker clients *)

(** What [clientFor] may return; [FactoryClient] is what [clientFactory]
    returns when one is set. *)
Inductive client := FactoryClient | ConnClient (id : string) | RelayClient | MTLSClient | HTTPClient.

(** [ctx_Err d] is the error of the request context with deadline [d]; the hub
    answers whether a worker is at its cap and counts rejections; [Complete] is
    the call on a worker client. *)
Class Transport (B : Backend) := {
  body : Type;
  ctx_Err : Time -> world -> option sentinel;
  hub_isRateLimited : string -> world -> bool;
  hub_recordRejection : string -> Z -> world -> world;
  hub_has_conn : string -> world -> bool;
  Complete : client -> WorkerInfo -> string -> body -> Time -> world -> world * result body;
}.

(** The fields of [Server] that dispatch reads. *)
Record Server := {
  sv_scoring : scoring;
  sv_hub : bool;
  sv_clientFactory : bool;
  sv_mTLS : bool;
}.

(** The state it changes: the world, the call counter and the request tracker
    (nil in a minimal server). *)
Record dstate {B : Backend} := {
  ds_world : world;
  ds_counter : option CallCounter;
  ds_tracker : option (Z * RequestTracker);
}.
Arguments dstate : clear implicits.

Section dispatch.
Context {B : Backend} {T : Transport B}.

Definition clientFor (s : Server) (worker : WorkerInfo) (w : world) : client :=
  if sv_clientFactory s then FactoryClient
  else if String.eqb (wi_Transport worker) TransportWS then
    if hub_has_conn (wi_ID worker) w then ConnClient (wi_ID worker) else RelayClient
  else if sv_mTLS s then MTLSClient else HTTPClient.

(** What happened with a worker: the call made and its result, or the rejection
    of a worker at its cap. *)
Inductive devent :=
| Called (worker : WorkerInfo) (r : result body)
| Rejected (worker : WorkerInfo).

Definition ev_worker (e : devent) : WorkerInfo := match e with Called w _ | Rejected w => w end.

Definition with_world (w : world) (st : dstate B) : dstate B :=
  {| ds_world := w; ds_counter := ds_counter st; ds_tracker := ds_tracker st |}.

(** [if !recorded && s.counter != nil { s.counter.Record(model); recorded = true }]. *)
Definition record_dispatch (model : string) (recorded : bool) (st : dstate B) : bool * dstate B :=
  match ds_counter st with
  | Some c =>
      if recorded then (recorded, st)
      else (true, {| ds_world := ds_world st; ds_counter := Some (Record_ (w_now (ds_world st)) model c);
                     ds_tracker := ds_tracker st |})
  | None => (recorded, st)
  end.

(** [Begin] when there is a tracker; the empty ID otherwise. *)
Definition begin_request (model : string) (worker : WorkerInfo) (kind : string) (st : dstate B) : dstate B * string :=
  match ds_tracker st with
  | None => (st, "")
  | Some t =>
      let now := w_now (ds_world st) in
      let '(t, id) := Begin now now model (wi_ID worker) (wi_Hostname worker) kind t in
      ({| ds_world := ds_world st; ds_counter := ds_counter st; ds_tracker := Some t |}, id)
  end.

Definition finish_request (id : string) (ok : bool) (st : dstate B) : dstate B :=
  match ds_tracker st with
  | None => st
  | Some (seq, t) =>
      if String.eqb id "" then st
      else {| ds_world := ds_world st; ds_counter := ds_counter st;
              ds_tracker := Some (seq, Finish (w_now (ds_world st)) id (if ok then StatusDone else StatusError) t) |}
  end.

(** The call to a worker, with its trace records. *)
Definition call_worker (s : Server) (model : string) (b : body) (kind : string) (deadline : Time)
    (worker : WorkerInfo) (st : dstate B) : dstate B * result body :=
  let '(st, reqID) := begin_request model worker kind st in
  let client := clientFor s worker (ds_world st) in
  let '(w, resp) := Complete client worker kind b deadline (ds_world st) in
  let st := with_world w st in
  (finish_request reqID (match resp with inl _ => true | inr _ => false end) st, resp).

(** The loop, with [n] attempts left. *)
Fixpoint failover (s : Server) (model : string) (b : body) (kind : string) (deadline : Time)
    (n : nat) (excluded : gset string) (lastErr : option goerr) (recorded : bool) (st : dstate B) :
    dstate B * result body * list devent :=
  match n with
  | O =>
      let lastErr := default (ErrorsNew "no worker available for model") lastErr in
      (st, inr (Wrap [Sentinel errAllAttemptsFailed; lastErr]), [])
  | S n =>
      match ctx_Err deadline (ds_world st) with
      | Some e => (st, inr (Wrap [Sentinel errAllAttemptsFailed; Sentinel e]), [])
      | None =>
          let '(w, sel) := selectWorkerExcluding (sv_scoring s) model excluded (ds_world st) in
          let st := with_world w st in
          match sel with
          | inr err => failover s model b kind deadline n excluded (Some err) recorded st
          | inl worker =>
              let '(recorded, st) := record_dispatch model recorded st in
              if sv_hub s && hub_isRateLimited (wi_ID worker) (ds_world st) then
                let st := with_world (hub_recordRejection (wi_ID worker) StatusTooManyRequests (ds_world st)) st in
                let '(st, r, tr) := failover s model b kind deadline n ({[wi_ID worker]} ∪ excluded)
                                      (Some (Sentinel errRateLimited)) recorded st in
                (st, r, Rejected worker :: tr)
              else
                let '(st, resp) := call_worker s model b kind deadline worker st in
                match resp with
                | inl x => (st, inl x, [Called worker resp])
                | inr err =>
                    if isRetryableError (Some err) then
                      let '(st, r, tr) := failover s model b kind deadline n ({[wi_ID worker]} ∪ excluded)
                                            (Some err) recorded st in
                      (st, r, Called worker resp :: tr)
                    else (st, inr err, [Called worker resp])
                end
          end
      end
  end.

Definition dispatchWithFailover (s : Server) (model : string) (b : body) (kind : string)
    (maxAttempts : Z) (budget : Duration) (st : dstate B) : dstate B * result body * list devent :=
  let maxAttempts := if maxAttempts <? 1 then 1 else maxAttempts in
  let deadline := time_add (w_now (ds_world st)) budget in
  failover s model b kind deadline (Z.to_nat maxAttempts) ∅ None false st.

(** ** The trace and the outcome *)

(** A worker that failed in a way that lets the next one be tried. *)
Definition transient (e : devent) : Prop :=
  match e with
  | Called _ (inr err) => isRetryableError (Some err) = true
  | Called _ (inl _) => False
  | Rejected _ => True
  end.

(** How a dispatch ends: with the response of the last worker tried, with its
    non-retryable error, or, after transient failures only, with exhaustion. *)
Definition outcome (r : result body) (tr : list devent) : Prop :=
  match r with
  | inl x => exists tr0 w, tr = tr0 ++ [Called w (inl x)] /\ Forall transient tr0
  | inr e =>
      (exists e', e = Wrap [Sentinel errAllAttemptsFailed; e'] /\ Forall transient tr) \/
      (exists tr0 w, tr = tr0 ++ [Called w (inr e)] /\ Forall transient tr0 /\ isRetryableError (Some e) = false)
  end.

Arguments isRetryableError : simpl never.

Lemma outcome_cons e r tr : transient e -> outcome r tr -> outcome r (e :: tr).
Proof.
  intros He. destruct r as [x|err]; simpl.
  - intros (tr0 & w & -> & H). exists (e :: tr0), w. split; [done|by constructor].
  - intros [(e' & -> & H)|(tr0 & w & -> & H & Hr)]; [left; exists e'; split; [done|by constructor]|].
    right. exists (e :: tr0), w. split; [done|]. split; [by constructor|done].
Qed.

Definition trace_ok (n : nat) (model : string) (excluded : gset string) (tr : list devent) : Prop :=
  (length tr <= n)%nat /\ NoDup (map (fun e => wi_ID (ev_worker e)) tr) /\
  Forall (fun e => wi_ID (ev_worker e) ∉ excluded /\ serves model (ev_worker e) = true) tr.

Lemma trace_ok_cons n model excluded e tr :
  wi_ID (ev_worker e) ∉ excluded -> serves model (ev_worker e) = true ->
  trace_ok n model ({[wi_ID (ev_worker e)]} ∪ excluded) tr -> trace_ok (S n) model excluded (e :: tr).
Proof.
  intros Hn Hs (Hl & Hd & Hf). unfold trace_ok. simpl. split_and!; [lia| |].
  - constructor; [|done]. intros (e' & He & Hin)%list_elem_of_fmap.
    rewrite Forall_forall in Hf. destruct (Hf _ Hin) as [H _]. rewrite He in H. set_solver.
  - constructor; [done|]. eapply Forall_impl; [exact Hf|]. simpl. intros e' [? ?]. split; [set_solver|done].
Qed.

Lemma trace_ok_S n model excluded tr : trace_ok n model excluded tr -> trace_ok (S n) model excluded tr.
Proof. intros (? & ? & ?). split_and!; [lia|done..]. Qed.

Context {L : BackendLaws B}.

Lemma failover_trace s model b kind deadline n excluded lastErr recorded st :
  let '(_, r, tr) := failover s model b kind deadline n excluded lastErr recorded st in
  trace_ok n model excluded tr /\ outcome r tr.
Proof using L.
  revert excluded lastErr recorded st. induction n as [|n IH]; intros excluded lastErr recorded st; cbn [failover].
  { split; [split_and!; [done|constructor..]|]. left. eauto. }
  destruct (ctx_Err deadline (ds_world st)) as [e|].
  { split; [split_and!; [simpl; lia|constructor..]|]. left. eauto. }
  pose proof (select_spec (sv_scoring s) model excluded (ds_world st)) as Hsel.
  destruct (selectWorkerExcluding _ _ _ _) as [w [worker|err]].
  2:{ specialize (IH excluded (Some err) recorded (with_world w st)).
      destruct (failover s model b kind deadline n _ _ _ _) as [[? ?] ?].
      destruct IH. split; [by apply trace_ok_S|done]. }
  destruct Hsel as (Hn & Hs & _). destruct (record_dispatch model recorded (with_world w st)) as [rec st1].
  destruct (sv_hub s && _).
  - match goal with |- context [failover s model b kind deadline n ?x ?y ?z ?t] => specialize (IH x y z t) end.
    destruct (failover s model b kind deadline n _ _ _ _) as [[? r] tr]. destruct IH.
    split; [by apply trace_ok_cons|by apply outcome_cons].
  - destruct (call_worker _ _ _ _ _ _ _) as [st2 [x|err]].
    { split; [apply trace_ok_cons; [done|done|split_and!; [simpl; lia|constructor..]]|]. by exists [], worker. }
    destruct (isRetryableError (Some err)) eqn:Er.
    + match goal with |- context [failover s model b kind deadline n ?x ?y ?z ?t] => specialize (IH x y z t) end.
      destruct (failover s model b kind deadline n _ _ _ _) as [[? r] tr]. destruct IH.
      split; [by apply trace_ok_cons|by apply outcome_cons].
    + split; [apply trace_ok_cons; [done|done|split_and!; [simpl; lia|constructor..]]|].
      right. exists [], worker. auto.
Qed.

(** C8: Failover: within one dispatch at most [max(1, maxAttempts)] workers are
    tried, no worker twice, each of them willing to serve the model; every
    worker tried but the last failed transiently (a retryable error, or it was
    at its cap); and the result is the response of the last worker, its
    non-retryable error, or the exhaustion error after transient failures
    only.  The loop always ends: it is bounded by the attempts. *)
Theorem failover_outcome s model b kind maxAttempts budget st :
  let '(_, r, tr) := dispatchWithFailover s model b kind maxAttempts budget st in
  Z.of_nat (length tr) <= Z.max 1 maxAttempts /\
  NoDup (map (fun e => wi_ID (ev_worker e)) tr) /\
  Forall (fun e => serves model (ev_worker e) = true) tr /\
  outcome r tr.
Proof using L.
  unfold dispatchWithFailover. set (n := Z.to_nat _).
  pose proof (failover_trace s model b kind (time_add (w_now (ds_world st)) budget) n ∅ None false st) as H.
  destruct (failover _ _ _ _ _ _ _ _ _ _) as [[st' r] tr]. destruct H as ((Hl & Hd & Hf) & Ho).
  split_and!; [|done| |done].
  - subst n. destruct (Z.ltb_spec maxAttempts 1); lia.
  - eapply Forall_impl; [exact Hf|]. by intros e [].
Qed.

(** ** Accounting *)

(** The record of a call, as [Finish] files it. *)
Definition call_record (model kind : string) (w : WorkerInfo) (r : result body) (id : string) (now1 now2 : Time) :
    RequestRecord :=
  finish_record now2 (match r with inl _ => StatusDone | inr _ => StatusError end)
    {| rr_RequestID := id; rr_Model := model; rr_WorkerID := wi_ID w; rr_WorkerHost := wi_Hostname w;
       rr_Kind := kind; rr_StartedAt := now1; rr_FinishedAt := zero_time; rr_Status := StatusInflight;
       rr_DurationMs := 0 |}.

(** The tracker after a trace: one finished record per call, in order, and
    nothing left in flight. *)
Inductive traced (model kind : string) : list devent -> Z * RequestTracker -> Z * RequestTracker -> Prop :=
| traced_nil ts : traced model kind [] ts ts
| traced_rejected w tr ts ts' : traced model kind tr ts ts' -> traced model kind (Rejected w :: tr) ts ts'
| traced_called w r tr seq t now1 now2 ts' :
    traced model kind tr
      (seq + 1, pruneLocked now2
        {| active := active t;
           completed := call_record model kind w r (make_id now1 (seq + 1)) now1 now2 :: completed t;
           maxCompleted := maxCompleted t; completedTTL := completedTTL t |}) ts' ->
    traced model kind (Called w r :: tr) (seq, t) ts'.

(** No request in flight has an ID still to be drawn. *)
Definition fresh_ids (ts : Z * RequestTracker) : Prop :=
  forall now n, ts.1 < n -> active ts.2 !! make_id now n = None.

Lemma call_worker_tracker s model b kind deadline worker st seq t :
  seq + 1 <= max_int64 -> 0 <= seq -> fresh_ids (seq, t) -> ds_tracker st = Some (seq, t) ->
  let '(st', r) := call_worker s model b kind deadline worker st in
  ds_counter st' = ds_counter st /\
  exists now1 now2, ds_tracker st' = Some (seq + 1, pruneLocked now2
    {| active := active t;
       completed := call_record model kind worker r (make_id now1 (seq + 1)) now1 now2 :: completed t;
       maxCompleted := maxCompleted t; completedTTL := completedTTL t |}).
Proof using.
  intros Hseq H0 Hf Ht. unfold call_worker, begin_request. rewrite Ht. unfold Begin, nextRequestID.
  rewrite (wrap64_id (seq + 1)) by (unfold in_int64, min_int64, max_int64 in *; lia).
  set (now1 := w_now (ds_world st)). fold (make_id now1 (seq + 1)).
  destruct (Complete _ _ _ _ _ _) as [w r]. split; [done|]. exists now1, (w_now w).
  unfold finish_request. cbn [with_world ds_tracker ds_world].
  change (String.eqb (make_id now1 (seq + 1)) "") with false. cbv iota. cbn [ds_tracker].
  unfold Finish. cbn [active]. rewrite lookup_insert_eq. cbn [completed maxCompleted completedTTL].
  rewrite delete_insert_id by (apply Hf; simpl; lia).
  unfold call_record. do 4 f_equal. destruct r; done.
Qed.

Lemma call_worker_no_tracker s model b kind deadline worker st :
  ds_tracker st = None ->
  let '(st', r) := call_worker s model b kind deadline worker st in
  ds_counter st' = ds_counter st /\ ds_tracker st' = None.
Proof using.
  intros Ht. unfold call_worker, begin_request. rewrite Ht. destruct (Complete _ _ _ _ _ _) as [w r].
  unfold finish_request. simpl. by rewrite Ht.
Qed.

(** What a trace does to the tracker, present or not. *)
Definition tracker_effect (model kind : string) (tr : list devent) (ts ts' : option (Z * RequestTracker)) : Prop :=
  match ts with
  | None => ts' = None
  | Some p => exists p', ts' = Some p' /\ traced model kind tr p p'
  end.

(** The counter records the dispatch once, if any worker was selected. *)
Definition counter_effect (model : string) (recorded : bool) (tr : list devent) (c c' : option CallCounter) : Prop :=
  match c with
  | None => c' = None
  | Some c =>
      if recorded || (length tr =? 0)%nat then c' = Some c
      else exists now, c' = Some (Record_ now model c)
  end.

Definition tracker_ok (n : nat) (ts : option (Z * RequestTracker)) : Prop :=
  match ts with
  | None => True
  | Some p => 0 <= p.1 /\ p.1 + Z.of_nat n <= max_int64 /\ fresh_ids p
  end.

Lemma record_dispatch_spec model recorded st :
  let '(rec, st') := record_dispatch model recorded st in
  ds_tracker st' = ds_tracker st /\
  match ds_counter st with
  | None => ds_counter st' = None
  | Some c =>
      rec = true /\
      if recorded then ds_counter st' = Some c else exists now, ds_counter st' = Some (Record_ now model c)
  end.
Proof using.
  unfold record_dispatch. destruct (ds_counter st) as [c|] eqn:E; [|done]. destruct recorded; [done|].
  simpl. split; [done|]. split; [done|]. eauto.
Qed.

Lemma counter_effect_step model recorded st e tr c' :
  let '(rec, st') := record_dispatch model recorded st in
  counter_effect model rec tr (ds_counter st') c' ->
  counter_effect model recorded (e :: tr) (ds_counter st) c'.
Proof using.
  pose proof (record_dispatch_spec model recorded st) as H. destruct (record_dispatch model recorded st) as [rec st'].
  destruct H as [_ H]. unfold counter_effect at 2. destruct (ds_counter st) as [c|].
  - destruct H as [-> H]. cbn [length Nat.eqb]. rewrite orb_false_r. intros Hc. destruct recorded.
    + rewrite H in Hc. exact Hc.
    + destruct H as [now H]. rewrite H in Hc. exists now. exact Hc.
  - rewrite H. done.
Qed.

Lemma tracker_ok_step model kind n worker r now1 now2 seq t :
  tracker_ok (S n) (Some (seq, t)) ->
  tracker_ok n (Some (seq + 1, pruneLocked now2
    {| active := active t;
       completed := call_record model kind worker r (make_id now1 (seq + 1)) now1 now2 :: completed t;
       maxCompleted := maxCompleted t; completedTTL := completedTTL t |})).
Proof using. simpl. intros (? & ? & Hf). split_and!; [lia|lia|]. intros now m Hm. apply Hf. simpl in *. lia. Qed.

(** A call, then the rest of the trace. *)
Lemma call_worker_effect s model b kind deadline worker n st :
  tracker_ok (S n) (ds_tracker st) ->
  let '(st', r) := call_worker s model b kind deadline worker st in
  ds_counter st' = ds_counter st /\ tracker_ok n (ds_tracker st') /\
  forall tr ts', tracker_effect model kind tr (ds_tracker st') ts' ->
    tracker_effect model kind (Called worker r :: tr) (ds_tracker st) ts'.
Proof using.
  destruct (ds_tracker st) as [[seq t]|] eqn:E; intros Hok.
  - pose proof Hok as (H0 & Hseq & Hf). simpl in H0, Hseq.
    pose proof (call_worker_tracker s model b kind deadline worker st seq t ltac:(lia) H0 Hf E) as H.
    destruct (call_worker _ _ _ _ _ _ _) as [st' r]. destruct H as (Hc & now1 & now2 & Ht).
    split; [done|]. rewrite Ht. split; [by apply tracker_ok_step|].
    intros tr ts' (p' & -> & Hp'). exists p'. split; [done|]. by apply (traced_called _ _ _ _ _ _ _ now1 now2).
  - pose proof (call_worker_no_tracker s model b kind deadline worker st E) as H.
    destruct (call_worker _ _ _ _ _ _ _) as [st' r]. destruct H as [? ->]. done.
Qed.

Lemma tracker_effect_nil model kind ts : tracker_effect model kind [] ts ts.
Proof using. unfold tracker_effect. destruct ts as [p|]; [|done]. eexists. split; [done|constructor]. Qed.

Lemma tracker_effect_rejected model kind w tr ts ts' :
  tracker_effect model kind tr ts ts' -> tracker_effect model kind (Rejected w :: tr) ts ts'.
Proof using.
  unfold tracker_effect. destruct ts as [p|]; [|done]. intros (p' & -> & H). exists p'. split; [done|by constructor].
Qed.

Lemma counter_effect_nil model recorded c : counter_effect model recorded [] c c.
Proof using. unfold counter_effect. destruct c; [|done]. by rewrite orb_true_r. Qed.

Lemma tracker_ok_S n ts : tracker_ok (S n) ts -> tracker_ok n ts.
Proof using. destruct ts as [p|]; simpl; [|done]. intros (? & ? & ?). split_and!; [done|lia|done]. Qed.

Lemma failover_accounting s model b kind deadline n excluded lastErr recorded st :
  tracker_ok n (ds_tracker st) ->
  let '(st', r, tr) := failover s model b kind deadline n excluded lastErr recorded st in
  tracker_effect model kind tr (ds_tracker st) (ds_tracker st') /\
  counter_effect model recorded tr (ds_counter st) (ds_counter st').
Proof using.
  revert excluded lastErr recorded st. induction n as [|n IH]; intros excluded lastErr recorded st Hok; cbn [failover].
  { auto using tracker_effect_nil, counter_effect_nil. }
  destruct (ctx_Err deadline (ds_world st)) as [e|]; [auto using tracker_effect_nil, counter_effect_nil|].
  destruct (selectWorkerExcluding _ _ _ _) as [w [worker|err]].
  2:{ apply (IH excluded (Some err) recorded (with_world w st)). by apply tracker_ok_S. }
  pose proof (record_dispatch_spec model recorded (with_world w st)) as Hrec.
  pose proof (fun e tr c' => counter_effect_step model recorded (with_world w st) e tr c') as Hstep.
  destruct (record_dispatch model recorded (with_world w st)) as [rec st1]. destruct Hrec as [Ht _].
  cbn [with_world ds_tracker ds_counter] in Ht, Hstep. rewrite <- Ht in Hok.
  destruct (sv_hub s && _).
  - match goal with |- context [failover s model b kind deadline n ?x ?y ?z ?t] => specialize (IH x y z t) end.
    destruct (failover s model b kind deadline n _ _ _ _) as [[st' r] tr].
    destruct IH as [IHt IHc]; [by apply tracker_ok_S|]. cbn [with_world ds_tracker ds_counter] in IHt, IHc.
    rewrite Ht in IHt. split; [by apply tracker_effect_rejected|by apply Hstep].
  - pose proof (call_worker_effect s model b kind deadline worker n st1 Hok) as Hcall.
    destruct (call_worker _ _ _ _ _ _ _) as [st2 resp]. destruct Hcall as (Hc & Hok2 & Heff). rewrite Ht in Heff.
    assert (forall tr c', counter_effect model rec tr (ds_counter st2) c' ->
              counter_effect model recorded (Called worker resp :: tr) (ds_counter st) c') as Hstep'
      by (rewrite Hc; intros tr c'; apply Hstep).
    destruct resp as [x|err].
    { split; [apply Heff, tracker_effect_nil|apply Hstep', counter_effect_nil]. }
    destruct (isRetryableError (Some err)).
    2:{ split; [apply Heff, tracker_effect_nil|apply Hstep', counter_effect_nil]. }
    match goal with |- context [failover s model b kind deadline n ?x ?y ?z ?t] => specialize (IH x y z t) end.
    destruct (failover s model b kind deadline n _ _ _ _) as [[st' r] tr].
    destruct IH as [IHt IHc]; [done|]. split; [by apply Heff|by apply Hstep'].
Qed.

Lemma traced_active model kind tr ts ts' : traced model kind tr ts ts' -> active ts'.2 = active ts.2.
Proof using. induction 1; auto. Qed.

(** Accounting of a dispatch: the popularity counter is bumped once if any
    worker was selected and not at all otherwise, however many were tried; the
    tracker files one finished record per call made, done for the call that
    succeeded and error for each that failed; and no request is left in
    flight. *)
Theorem failover_accounts s model b kind maxAttempts budget st :
  tracker_ok (Z.to_nat (Z.max 1 maxAttempts)) (ds_tracker st) ->
  let '(st', r, tr) := dispatchWithFailover s model b kind maxAttempts budget st in
  tracker_effect model kind tr (ds_tracker st) (ds_tracker st') /\
  counter_effect model false tr (ds_counter st) (ds_counter st') /\
  match ds_tracker st, ds_tracker st' with
  | Some p, Some p' => active p'.2 = active p.2
  | _, _ => True
  end.
Proof using.
  intros Hok. unfold dispatchWithFailover.
  replace (Z.max 1 maxAttempts) with (if maxAttempts <? 1 then 1 else maxAttempts) in Hok
    by (destruct (Z.ltb_spec maxAttempts 1); lia).
  pose proof (failover_accounting s model b kind (time_add (w_now (ds_world st)) budget) _ ∅ None false st Hok) as H.
  destruct (failover _ _ _ _ _ _ _ _ _ _) as [[st' r] tr]. destruct H as [Ht Hc]. split_and!; [done..|].
  unfold tracker_effect in Ht. destruct (ds_tracker st) as [p|]; [|done]. destruct Ht as (p' & -> & Ht).
  by eapply traced_active.
Qed.

(** ** The response to a failed dispatch *)

(** Exhaustion is 503: whatever made a dispatch give up (the attempts, the
    retry budget, no willing worker), the client gets 503 with the code
    [all_attempts_failed]; otherwise it gets the error of the last worker,
    which is not 504 unless that error wraps both a timeout and a cancellation
    or scheduler sentinel.  So a budget that runs out is never a 504. *)
Theorem failover_error_status s model b kind maxAttempts budget st e :
  (dispatchWithFailover s model b kind maxAttempts budget st).1.2 = inr e ->
  (exists e', e = Wrap [Sentinel errAllAttemptsFailed; e'] /\
     writeFailoverError (Some e) = (503, "all_attempts_failed")) \/
  (isRetryableError (Some e) = false /\
   ((writeFailoverError (Some e)).1 = 504 ->
    (errors_Is context_DeadlineExceeded e = true \/ errors_Is errTimeout e = true \/ errors_As_HTTP e = Some 504) /\
    (errors_Is context_Canceled e = true \/ errors_Is ErrNoMatchingWorkers e = true \/
     errors_Is ErrAllWorkersUnavailable e = true))).
Proof using L.
  unfold dispatchWithFailover. set (n := Z.to_nat _). set (d := time_add _ _).
  pose proof (failover_trace s model b kind d n ∅ None false st) as H.
  destruct (failover _ _ _ _ _ _ _ _ _ _) as [[st' r] tr]. simpl. intros ->. destruct H as [_ [H|H]].
  - left. destruct H as (e' & -> & _). by exists e'.
  - right. destruct H as (_ & _ & _ & _ & He). split; [done|]. clear -He.
    unfold isRetryableError, writeFailoverError in *.
    destruct (errors_Is context_Canceled e), (errors_Is ErrNoMatchingWorkers e), (errors_Is ErrAllWorkersUnavailable e),
      (errors_Is errTimeout e), (errors_Is context_DeadlineExceeded e), (errors_Is errAllAttemptsFailed e);
      simpl in *; try done; auto;
      repeat case_match; simpl in *; try done; intros; subst; auto; zbool; try lia.
Qed.

(** ** Failover finds a worker that works *)

(** The IDs of the cached workers willing to serve the model. *)
Definition willing_ids (model : string) (w : world) : gset string :=
  list_to_set (map wi_ID (List.filter (serves model) (w_range 0 w))).

Lemma elem_of_willing_ids model w id :
  id ∈ willing_ids model w <-> exists x, in_cache w x /\ serves model x = true /\ wi_ID x = id.
Proof using L.
  unfold willing_ids. rewrite elem_of_list_to_set, list_elem_of_fmap. setoid_rewrite elem_of_filter_b.
  setoid_rewrite elem_of_range. naive_solver.
Qed.

(** The worker cache stays as it is during the dispatch. *)
Definition quiet : Prop :=
  stable_cache /\
  (forall c x k b d w, cc_cache (w_cache (Complete c x k b d w).1) = cc_cache (w_cache w)) /\
  (forall id code w, cc_cache (w_cache (hub_recordRejection id code w)) = cc_cache (w_cache w)).

(** [g] always takes and completes a call. *)
Definition good_worker (deadline : Time) (g : WorkerInfo) : Prop :=
  (forall w, hub_isRateLimited (wi_ID g) w = false) /\
  (forall c x k b w, wi_ID x = wi_ID g -> exists y, (Complete c x k b deadline w).2 = inl y).

(** A dispatch that ends early: the request context is over, or a worker's
    failure is not worth a retry. *)
Definition ends_early (deadline : Time) (kind : string) (b : body) (e : goerr) : Prop :=
  (exists cause w, ctx_Err deadline w = Some cause /\ e = Wrap [Sentinel errAllAttemptsFailed; Sentinel cause]) \/
  (isRetryableError (Some e) = false /\ exists c x w, (Complete c x kind b deadline w).2 = inr e).

Definition answered (deadline : Time) (kind : string) (b : body) (r : result body) : Prop :=
  match r with inl _ => True | inr e => ends_early deadline kind b e end.

Lemma record_dispatch_world model recorded st : ds_world (record_dispatch model recorded st).2 = ds_world st.
Proof using. unfold record_dispatch. by repeat case_match. Qed.

Lemma call_worker_world s model b kind deadline worker st :
  exists c, let p := Complete c worker kind b deadline (ds_world st) in
    ds_world (call_worker s model b kind deadline worker st).1 = p.1 /\
    (call_worker s model b kind deadline worker st).2 = p.2.
Proof using.
  unfold call_worker, begin_request. destruct (ds_tracker st) as [t|].
  - destruct (Begin _ _ _ _ _ _ t) as [t' id]. cbn [ds_world].
    exists (clientFor s worker (ds_world st)). destruct (Complete _ _ _ _ _ _) as [w r].
    unfold finish_request. by repeat case_match.
  - exists (clientFor s worker (ds_world st)). destruct (Complete _ _ _ _ _ _) as [w r].
    unfold finish_request. by repeat case_match.
Qed.

Lemma failover_finds s model b kind deadline g n excluded lastErr recorded st :
  quiet -> good_worker deadline g -> in_cache (ds_world st) g -> serves model g = true ->
  wi_ID g ∉ excluded -> (size (willing_ids model (ds_world st) ∖ excluded) <= n)%nat ->
  answered deadline kind b (failover s model b kind deadline n excluded lastErr recorded st).1.2.
Proof using L.
  intros (Hst & Hcomp & Hrej) (Hlim & Hgood). revert excluded lastErr recorded st.
  induction n as [|n IH]; intros excluded lastErr recorded st Hg Hs Hn Hsize.
  { exfalso. apply Nat.le_0_r, size_empty_inv in Hsize.
    apply (not_elem_of_empty (C := gset string) (wi_ID g)), Hsize, elem_of_difference. split; [|done]. apply elem_of_willing_ids. eauto. }
  cbn [failover]. destruct (ctx_Err deadline (ds_world st)) as [cause|] eqn:Hctx; [left; eauto|].
  pose proof (select_spec (sv_scoring s) model excluded (ds_world st)) as Hsel.
  pose proof (select_cache (sv_scoring s) model excluded (ds_world st) Hst) as Hc.
  pose proof (selected_cached (sv_scoring s) model excluded (ds_world st)) as Hsc.
  destruct (selectWorkerExcluding _ _ _ _) as [w [x|err]]; simpl in Hc.
  2:{ exfalso. destruct Hsel as [_ Hall]. destruct (Hall g) as [?|?]; [by apply (in_cache_ext _ _ _ Hc)|done|congruence]. }
  destruct Hsel as (Hx & _). destruct (Hsc w x Hst eq_refl) as (y & Hy & Exy & Hys). clear Hsc.
  pose proof (record_dispatch_world model recorded (with_world w st)) as Hw.
  destruct (record_dispatch model recorded (with_world w st)) as [rec st1]. cbn [snd with_world ds_world] in Hw.
  assert (forall st2 lastErr', cc_cache (w_cache (ds_world st2)) = cc_cache (w_cache (ds_world st)) ->
            wi_ID x <> wi_ID g ->
            answered deadline kind b (failover s model b kind deadline n ({[wi_ID x]} ∪ excluded) lastErr' rec st2).1.2) as Hnext.
  { intros st2 le Hc2 Hne. apply IH; [by apply (in_cache_ext _ _ _ Hc2)|done|set_solver|].
    assert (willing_ids model (ds_world st2) = willing_ids model (ds_world st)) as ->.
    { apply set_eq. intros id. rewrite !elem_of_willing_ids. by setoid_rewrite (in_cache_ext _ _ _ Hc2). }
    apply Nat.lt_succ_r. eapply Nat.lt_le_trans; [|exact Hsize]. apply subset_size. split; [set_solver|].
    intros Hsub. assert (wi_ID x ∈ willing_ids model (ds_world st) ∖ excluded) as Hin.
    { apply elem_of_difference. split; [|done]. rewrite Exy. apply elem_of_willing_ids. eauto. }
    apply Hsub in Hin. set_solver. }
  destruct (sv_hub s && hub_isRateLimited (wi_ID x) (ds_world st1)) eqn:Elim.
  - assert (wi_ID x <> wi_ID g) as Hne.
    { intros E. rewrite E, Hlim, andb_false_r in Elim. done. }
    match goal with |- context [failover s model b kind deadline n _ ?e _ ?t] => pose proof (Hnext t e) as Hz end.
    specialize (Hz ltac:(cbn [with_world ds_world]; by rewrite Hrej, Hw) Hne).
    by destruct (failover _ _ _ _ _ n _ _ _ _) as [[? ?] ?].
  - destruct (call_worker_world s model b kind deadline x st1) as (c & Ew & Er).
    destruct (call_worker s model b kind deadline x st1) as [st2 resp]. simpl in Ew, Er.
    destruct resp as [z|err]; [done|]. symmetry in Er.
    destruct (isRetryableError (Some err)) eqn:Ert; [|right; eauto].
    assert (wi_ID x <> wi_ID g) as Hne.
    { intros E. destruct (Hgood c x kind b (ds_world st1) E) as [z Hz]. congruence. }
    match goal with |- context [failover s model b kind deadline n _ ?e _ ?t] => pose proof (Hnext t e) as Hz end.
    specialize (Hz ltac:(by rewrite Ew, Hcomp, Hw) Hne).
    by destruct (failover _ _ _ _ _ n _ _ _ _) as [[? ?] ?].
Qed.

(** C38: failover is complete: if some cached worker is willing, is never at its
    cap and completes every call, then a dispatch with as many attempts as there
    are willing workers never runs out of attempts or of workers, whatever the
    scorer prefers and however the others fail.  It has an answer, or it ended
    early, with the reason: the request context was over, or a worker failed in
    a way that [isRetryableError] does not retry.  The cache of workers is taken
    not to change during the dispatch. *)
Theorem failover_complete s model b kind maxAttempts budget st g :
  quiet -> good_worker (time_add (w_now (ds_world st)) budget) g ->
  in_cache (ds_world st) g -> serves model g = true ->
  Z.of_nat (size (willing_ids model (ds_world st))) <= maxAttempts ->
  match (dispatchWithFailover s model b kind maxAttempts budget st).1.2 with
  | inl _ => True
  | inr e => ends_early (time_add (w_now (ds_world st)) budget) kind b e
  end.
Proof using L.
  intros Hq Hgood Hg Hs Hsize. unfold dispatchWithFailover. eapply failover_finds; [done..|set_solver|].
  rewrite difference_empty_L. destruct (Z.ltb_spec maxAttempts 1); lia.
Qed.

(** ... so with transient failures only, and a context that lasts, it answers. *)
Corollary failover_succeeds s model b kind maxAttempts budget st g :
  quiet -> good_worker (time_add (w_now (ds_world st)) budget) g ->
  (forall w, ctx_Err (time_add (w_now (ds_world st)) budget) w = None) ->
  (forall c x w e, (Complete c x kind b (time_add (w_now (ds_world st)) budget) w).2 = inr e -> isRetryableError (Some e) = true) ->
  in_cache (ds_world st) g -> serves model g = true ->
  Z.of_nat (size (willing_ids model (ds_world st))) <= maxAttempts ->
  exists x, (dispatchWithFailover s model b kind maxAttempts budget st).1.2 = inl x.
Proof using L.
  intros Hq Hgood Hctx Htr Hg Hs Hsize.
  assert (H : answered (time_add (w_now (ds_world st)) budget) kind b (dispatchWithFailover s model b kind maxAttempts budget st).1.2).
  { unfold dispatchWithFailover. eapply failover_finds; [done..|set_solver|].
    rewrite difference_empty_L. destruct (Z.ltb_spec maxAttempts 1); lia. }
  destruct (_.1.2) as [x|e]; [by exists x|]. exfalso.
  destruct H as [(cause & w & E & _)|(Hf & c & x & w & E)]; [by rewrite Hctx in E|by rewrite (Htr _ _ _ _ E) in Hf].
Qed.
End dispatch.

(** ** Concrete instances *)

(** Workers that answer their ID, or time out. *)
Definition ex_transport (answers : string -> bool) : Transport ex_backend :=
  {| body := string; ctx_Err _ _ := None; hub_isRateLimited _ _ := false; hub_recordRejection _ _ w := w;
     hub_has_conn _ _ := false;
     Complete _ x _ _ _ w := (w, if answers (wi_ID x) then inl (wi_ID x) else inr (Wrap [Sentinel errTimeout])) |}.

Definition ex_server : Server :=
  {| sv_scoring := NewScoring; sv_hub := true; sv_clientFactory := false; sv_mTLS := false |}.

Definition ex_state : dstate ex_backend :=
  @Build_dstate ex_backend 0%nat (Some (NewCallCounter minute)) (Some (0, NewRequestTracker 0 0)).

Definition only_c : Transport ex_backend := ex_transport (fun id => String.eqb id "c").
Definition nobody : Transport ex_backend := ex_transport (fun _ => false).

Example fails_over_to_c :
  let '(_, r, tr) := dispatchWithFailover (T := only_c) ex_server "llama" "hi" "chat" 3 minute ex_state in
  r = inl "c" /\ map (fun e => wi_ID (ev_worker e)) tr = ["b"; "c"].
Proof. vm_compute. split; reflexivity. Qed.

Lemma failover_outcome_witness :
  let '(_, r, tr) := dispatchWithFailover (T := only_c) ex_server "llama" "hi" "chat" 3 minute ex_state in
  Z.of_nat (length tr) <= 3 /\ outcome (T := only_c) r tr.
Proof.
  pose proof (failover_outcome (T := only_c) (L := ex_laws) ex_server "llama" "hi" "chat" 3 minute ex_state) as H.
  destruct (dispatchWithFailover (T := only_c) ex_server "llama" "hi" "chat" 3 minute ex_state) as [[st' r] tr].
  destruct H as (H1 & _ & _ & H2). split; [exact H1|exact H2].
Defined.

Lemma ex_fresh_ids : fresh_ids (0, NewRequestTracker 0 0).
Proof. intros now n _. apply lookup_empty. Qed.

Lemma failover_accounts_witness :
  let '(st', _, tr) := dispatchWithFailover (T := only_c) ex_server "llama" "hi" "chat" 3 minute ex_state in
  tracker_effect (T := only_c) "llama" "chat" tr (ds_tracker ex_state) (ds_tracker st').
Proof.
  pose proof (failover_accounts (T := only_c) ex_server "llama" "hi" "chat" 3 minute ex_state) as H.
  destruct (dispatchWithFailover (T := only_c) ex_server "llama" "hi" "chat" 3 minute ex_state) as [[st' r] tr].
  apply H. split; [reflexivity|split; [discriminate|apply ex_fresh_ids]].
Defined.

Lemma failover_error_status_witness :
  exists e, (dispatchWithFailover (T := nobody) ex_server "llama" "hi" "chat" 1 minute ex_state).1.2 = inr e /\
    (writeFailoverError (Some e)).1 <> 504.
Proof.
  destruct ((dispatchWithFailover (T := nobody) ex_server "llama" "hi" "chat" 1 minute ex_state).1.2) as [x|e] eqn:E;
    [vm_compute in E; discriminate|].
  exists e. split; [reflexivity|].
  destruct (failover_error_status (T := nobody) (L := ex_laws) ex_server "llama" "hi" "chat" 1 minute ex_state e E)
    as [(e' & _ & H)|[H _]]; [rewrite H; discriminate|].
  vm_compute in E. injection E as <-. vm_compute in H |- *. discriminate.
Defined.

Lemma ex_quiet : quiet (T := only_c).
Proof. split; [intros w; reflexivity|split; intros; reflexivity]. Qed.

Lemma ex_good_worker d : good_worker (T := only_c) d (ex_cached "c" false []).
Proof.
  split; [reflexivity|]. intros c x k b w E. simpl. rewrite E. by exists "c".
Qed.

(** Here every other worker times out, which is retried, so there is an answer. *)
Lemma failover_complete_witness :
  exists x, (dispatchWithFailover (T := only_c) ex_server "llama" "hi" "chat" 3 minute ex_state).1.2 = inl x.
Proof.
  pose proof (failover_complete (T := only_c) (L := ex_laws) ex_server "llama" "hi" "chat" 3 minute ex_state (ex_cached "c" false [])
    ex_quiet (ex_good_worker _) eq_refl eq_refl ltac:(vm_compute; discriminate)) as H.
  destruct (_.1.2) as [x|e]; [by exists x|]. exfalso.
  destruct H as [(cause & w & E & _)|(Hf & c & x & w & E)]; [discriminate E|].
  simpl in E. destruct (String.eqb _ _); [discriminate E|]. injection E as <-. discriminate Hf.
Defined.
