(* ===== verification/Breaker.v ===== *)
(** * Breaker: the worker's circuit breaker ([pkg/worker/breaker.go])

    The breaker as a state machine over the instants its methods read, and the
    retry loop with exponential backoff over the answers of the operation and
    of the context. *)

From S2P Require Import Prelude.

Inductive CircuitState := CircuitClosed | CircuitHalfOpen | CircuitOpen.

#[export] Instance CircuitState_eq_dec : EqDecision CircuitState.
Proof. solve_decision. Defined.

Definition CircuitState_String (cs : CircuitState) : string :=
  match cs with CircuitClosed => "closed" | CircuitHalfOpen => "half-open" | CircuitOpen => "open" end.

Record CircuitBreaker := {
  state : CircuitState;
  failureCount : Z;
  failureThreshold : Z;
  successThreshold : Z;
  lastFailureTime : Time;
  cooldownPeriod : Duration;
}.

Definition NewCircuitBreaker (failureThreshold : Z) (cooldownPeriod : Duration) : CircuitBreaker :=
  {| state := CircuitClosed; failureCount := 0; failureThreshold := failureThreshold; successThreshold := 1;
     lastFailureTime := zero_time; cooldownPeriod := cooldownPeriod |}.

Definition with_state (s : CircuitState) (cb : CircuitBreaker) : CircuitBreaker :=
  {| state := s; failureCount := failureCount cb; failureThreshold := failureThreshold cb;
     successThreshold := successThreshold cb; lastFailureTime := lastFailureTime cb;
     cooldownPeriod := cooldownPeriod cb |}.

Definition RecordSuccess (cb : CircuitBreaker) : CircuitBreaker :=
  match state cb with
  | CircuitHalfOpen =>
      {| state := CircuitClosed; failureCount := 0; failureThreshold := failureThreshold cb;
         successThreshold := successThreshold cb; lastFailureTime := lastFailureTime cb;
         cooldownPeriod := cooldownPeriod cb |}
  | _ => cb
  end.

Definition RecordFailure (now : Time) (cb : CircuitBreaker) : CircuitBreaker :=
  let n := wrap64 (failureCount cb + 1) in
  {| state := if failureThreshold cb <=? n then CircuitOpen else state cb; failureCount := n;
     failureThreshold := failureThreshold cb; successThreshold := successThreshold cb; lastFailureTime := now;
     cooldownPeriod := cooldownPeriod cb |}.

Definition CanExecute (now : Time) (cb : CircuitBreaker) : CircuitBreaker * bool :=
  match state cb with
  | CircuitClosed => (cb, true)
  | CircuitHalfOpen => (cb, true)
  | CircuitOpen =>
      if cooldownPeriod cb <? time_sub now (lastFailureTime cb) then (with_state CircuitHalfOpen cb, true)
      else (cb, false)
  end.

Definition GetState (cb : CircuitBreaker) : CircuitState := state cb.

(** ** Runs *)

Inductive bop := Success | Failure (now : Time) | Ask (now : Time).

Definition exec (cb : CircuitBreaker) (o : bop) : CircuitBreaker :=
  match o with
  | Success => RecordSuccess cb
  | Failure now => RecordFailure now cb
  | Ask now => (CanExecute now cb).1
  end.

Definition run (cb : CircuitBreaker) (ops : list bop) : CircuitBreaker := foldl exec cb ops.

(** The admissions granted along a run. *)
Fixpoint admissions (cb : CircuitBreaker) (ops : list bop) : list bool :=
  match ops with
  | [] => []
  | Ask now :: ops' => (CanExecute now cb).2 :: admissions (exec cb (Ask now)) ops'
  | o :: ops' => admissions (exec cb o) ops'
  end.

Definition failures (ops : list bop) : Z :=
  Z.of_nat (length (List.filter (fun o => match o with Failure _ => true | _ => false end) ops)).

(** Closed below the threshold, open or half-open at it. *)
Definition breaker_inv (n : Z) (cb : CircuitBreaker) : Prop :=
  0 <= failureCount cb <= n /\
  match state cb with
  | CircuitClosed => failureCount cb < failureThreshold cb
  | _ => failureThreshold cb <= failureCount cb
  end.

Lemma exec_fixed cb o :
  failureThreshold (exec cb o) = failureThreshold cb /\ cooldownPeriod (exec cb o) = cooldownPeriod cb.
Proof.
  destruct o; simpl; unfold RecordSuccess, CanExecute; destruct (state cb); try done; by case_if.
Qed.

Lemma failures_snoc ops o : failures (ops ++ [o]) = failures ops + failures [o].
Proof. unfold failures. rewrite filter_b_app, length_app. lia. Qed.

Lemma failures_cons o ops : failures (o :: ops) = failures [o] + failures ops.
Proof. unfold failures. change (o :: ops) with ([o] ++ ops). rewrite filter_b_app, length_app. lia. Qed.

Lemma breaker_inv_step n cb o :
  0 < failureThreshold cb -> n + failures [o] <= max_int64 -> breaker_inv n cb ->
  breaker_inv (n + failures [o]) (exec cb o).
Proof.
  intros Ht Hb [Hc Hs]. unfold breaker_inv. destruct o; simpl in *; unfold failures in *; simpl in *.
  - unfold RecordSuccess. destruct (state cb) eqn:E; simpl; rewrite ?E; split; lia.
  - unfold RecordFailure. simpl. rewrite wrap64_id by (unfold in_int64, min_int64, max_int64 in *; lia).
    split; [lia|]. destruct (Z.leb_spec (failureThreshold cb) (failureCount cb + 1)); [lia|].
    destruct (state cb); lia.
  - unfold CanExecute. destruct (state cb) eqn:E; simpl; rewrite ?E; [split; lia..|].
    case_if; simpl; rewrite ?E; split; lia.
Qed.

(** The breaker's states mean what they say: with a positive threshold, in
    every run it is closed while the failures since it last closed are below
    the threshold, and open or half-open once they reach it. *)
Theorem breaker_invariant threshold cooldown ops :
  0 < threshold -> failures ops <= max_int64 ->
  let cb := run (NewCircuitBreaker threshold cooldown) ops in
  breaker_inv (failures ops) cb /\ failureThreshold cb = threshold /\ cooldownPeriod cb = cooldown.
Proof.
  intros Ht. unfold run. induction ops as [|o ops IH] using rev_ind; intros Hb.
  { split; [|done]. split; [simpl; unfold failures; simpl; lia|simpl; lia]. }
  rewrite failures_snoc in *. rewrite foldl_snoc.
  assert (0 <= failures [o]) by (unfold failures; lia).
  destruct IH as (Hi & E1 & E2); [lia|]. destruct (exec_fixed (foldl exec (NewCircuitBreaker threshold cooldown) ops) o) as [-> ->].
  split; [|done]. by apply breaker_inv_step; [rewrite E1|..].
Qed.

(** What happens within the cooldown of a failure. *)
Definition within (limit : Time) (o : bop) : Prop :=
  match o with
  | Success => True
  | Failure now | Ask now => now <= limit
  end.

(** An open breaker fails fast: from the failure at [f] that leaves it open,
    and whatever successes and failures are reported meanwhile, no execution is
    admitted until more than the cooldown has passed since [f]. *)
Theorem open_breaker_blocks cb f ops :
  state cb = CircuitOpen -> lastFailureTime cb = f -> breaker_inv max_int64 cb ->
  0 < failureThreshold cb -> failureCount cb + failures ops <= max_int64 ->
  0 <= cooldownPeriod cb < max_int64 ->
  Forall (within (f + cooldownPeriod cb)) ops -> Forall (fun o => match o with Failure now => f <= now | _ => True end) ops ->
  Forall (fun b => b = false) (admissions cb ops) /\ state (run cb ops) = CircuitOpen.
Proof.
  intros Hs Hf Hi Ht Hb Hc Hw Hlate.
  enough (forall limit cb, state cb = CircuitOpen ->
    breaker_inv max_int64 cb -> 0 < failureThreshold cb -> failureCount cb + failures ops <= max_int64 ->
    0 <= cooldownPeriod cb < max_int64 -> f <= lastFailureTime cb -> limit = f + cooldownPeriod cb ->
    Forall (within limit) ops ->
    Forall (fun b => b = false) (admissions cb ops) /\ state (run cb ops) = CircuitOpen) as H.
  { apply (H (f + cooldownPeriod cb)); auto; lia. }
  clear -Hlate. induction ops as [|o ops IH]; intros limit cb Hs Hi Ht Hb Hc Hf Hlim Hw; [done|].
  apply Forall_cons in Hw as [Ho Hw]. apply Forall_cons in Hlate as [Hof Hlate]. rewrite failures_cons in Hb.
  assert (0 <= failures ops) by (unfold failures; lia). specialize (IH Hlate limit).
  destruct o as [|now|now]; simpl in Ho, Hof; unfold run; simpl.
  - unfold RecordSuccess. rewrite Hs. by apply IH.
  - assert (failures [Failure now] = 1) as Ef by done. destruct Hi as [Hi1 Hi2]. rewrite Hs in Hi2.
    assert (wrap64 (failureCount cb + 1) = failureCount cb + 1) as Ew
      by (apply wrap64_id; unfold in_int64, min_int64, max_int64 in *; lia).
    apply (IH (RecordFailure now cb)); unfold RecordFailure; simpl; rewrite ?Ew; auto; try lia.
    + by rewrite (proj2 (Z.leb_le _ _)) by lia.
    + unfold breaker_inv. simpl. rewrite (proj2 (Z.leb_le (failureThreshold cb) (failureCount cb + 1))) by lia. lia.
  - unfold CanExecute. rewrite Hs.
    assert (cooldownPeriod cb <? time_sub now (lastFailureTime cb) = false) as ->.
    { apply Z.ltb_ge. apply time_sub_le; unfold in_int64, min_int64, max_int64 in *; lia. }
    cbn [fst snd]. destruct (IH cb) as [IH1 IH2]; auto.
Qed.

(** A success reported while the breaker is closed changes nothing. *)
Lemma closed_success cb : state cb = CircuitClosed -> RecordSuccess cb = cb.
Proof. intros H. unfold RecordSuccess. by rewrite H. Qed.

(** While closed the breaker counts failures that need not be consecutive:
    after any mix of successes and failures since it closed it is still closed
    exactly when the failures are below the threshold, so successes in between
    do not help. *)
Theorem closed_counts_all_failures cb ops :
  state cb = CircuitClosed -> failureCount cb = 0 -> 0 < failureThreshold cb -> failures ops <= max_int64 ->
  Forall (fun o => match o with Ask _ => False | _ => True end) ops ->
  (state (run cb ops) = CircuitClosed <-> failures ops < failureThreshold cb).
Proof.
  intros Hs Hc Ht Hb Hops. rewrite <- (Z.add_0_l (failures ops)), <- Hc. rewrite <- (Z.add_0_l (failures ops)), <- Hc in Hb.
  assert (0 <= failureCount cb) as H0 by lia. assert (failureCount cb < failureThreshold cb) as Hlt by lia. clear Hc.
  unfold run. revert cb Hs H0 Hlt Ht Hb. induction Hops as [|o ops Ho Hops IH]; intros cb Hs H0 Hlt Ht Hb.
  { simpl. unfold failures. simpl. split; [lia|done]. }
  rewrite failures_cons in *. assert (0 <= failures ops) by (unfold failures; lia). simpl foldl.
  destruct o as [|now|now]; [|clear Ho|done].
  - cbn [exec]. rewrite closed_success by done. change (failures [Success]) with 0 in *. by apply IH.
  - change (failures [Failure now]) with 1 in *. cbn [exec].
    assert (wrap64 (failureCount cb + 1) = failureCount cb + 1) as Ew
      by (apply wrap64_id; unfold in_int64, min_int64, max_int64 in *; lia).
    destruct (Z.leb_spec (failureThreshold cb) (failureCount cb + 1)) as [Hle|Hgt].
    + split; [|lia]. intros Hcl. exfalso. revert Hcl.
      assert (state (RecordFailure now cb) = CircuitOpen) as Ho.
      { unfold RecordFailure. simpl. by rewrite Ew, (proj2 (Z.leb_le _ _)). }
      revert Ho. generalize (RecordFailure now cb). clear -Hops. induction Hops as [|o ops Ho Hops IH]; intros cb Hs; simpl.
      { by rewrite Hs. }
      apply IH. destruct o; simpl; [by unfold RecordSuccess; rewrite Hs| |done]. by case_if.
    + replace (failureCount cb + (1 + failures ops)) with (failureCount (RecordFailure now cb) + failures ops)
        by (unfold RecordFailure; simpl; rewrite Ew; lia).
      apply (IH (RecordFailure now cb)); unfold RecordFailure; simpl; rewrite ?Ew; try lia.
      by rewrite (proj2 (Z.leb_gt _ _)) by lia.
Qed.

(** The half-open breaker admits every caller, not one probe, until an
    outcome is reported: a success closes it with the count reset, a failure
    reopens it at once. *)
Theorem half_open_admits_all cb asks now :
  state cb = CircuitHalfOpen -> 0 < failureThreshold cb -> breaker_inv max_int64 cb ->
  failureCount cb < max_int64 ->
  admissions cb (map Ask asks) = map (fun _ => true) asks /\
  state (run cb (map Ask asks)) = CircuitHalfOpen /\
  (let cb' := RecordSuccess cb in state cb' = CircuitClosed /\ failureCount cb' = 0) /\
  state (RecordFailure now cb) = CircuitOpen.
Proof.
  intros Hs Ht [Hc Hi] Hb. rewrite Hs in Hi.
  assert (forall t, CanExecute t cb = (cb, true)) as Hask by (intros t; unfold CanExecute; by rewrite Hs).
  split_and!.
  - induction asks as [|t asks IH]; simpl; [done|]. rewrite Hask. simpl. by rewrite IH.
  - unfold run. induction asks as [|t asks IH]; simpl; [done|]. by rewrite Hask.
  - unfold RecordSuccess. by rewrite Hs.
  - unfold RecordFailure. simpl. rewrite wrap64_id by (unfold in_int64, min_int64, max_int64 in *; lia).
    by rewrite (proj2 (Z.leb_le _ _)) by lia.
Qed.

(** ** Retry with exponential backoff

    [answers k] is what the [k]-th call of the operation returns, [cancelled k]
    the error of the context if it ends during the wait after it, [exceeded] the
    error of [fmt.Errorf] around the last one. *)
Section retry.
Context {E : Type} (exceeded : option E -> E) (answers : nat -> option E) (cancelled : nat -> option E).

(** [1 << attempt] seconds, in 64 bits. *)
Definition backoff (attempt : nat) : Duration := wrap64 (wrap64 (Z.shiftl 1 (Z.of_nat attempt)) * second).

(** The loop from [attempt] on, with [n] iterations left: the result and the
    backoffs waited or begun. *)
Fixpoint retry_loop (attempt n : nat) (lastErr : option E) : option E * list Duration :=
  match n with
  | O => (Some (exceeded lastErr), [])
  | S n =>
      match answers attempt with
      | None => (None, [])
      | Some err =>
          match cancelled attempt with
          | Some e => (Some e, [backoff attempt])
          | None =>
              let '(r, ws) := retry_loop (S attempt) n (Some err) in
              (r, backoff attempt :: ws)
          end
      end
  end.

Definition retryWithBackoff (maxRetries : Z) : option E * list Duration :=
  retry_loop 0 (Z.to_nat maxRetries) None.

(** The calls before [k] failed and their waits ended. *)
Definition failed_before (k : nat) : Prop := forall i, (i < k)%nat -> is_Some (answers i) /\ cancelled i = None.

(** How the loop ends when it ends at attempt [k] of [m]: success, a wait cut
    short by the context, or exhaustion with the last error. *)
Definition ended (m k : nat) (lastErr : option E) (r : option E) (waits : nat) : Prop :=
  ((k < m)%nat /\ answers k = None /\ r = None /\ waits = k) \/
  ((k < m)%nat /\ is_Some (answers k) /\ is_Some (cancelled k) /\ r = cancelled k /\ waits = S k) \/
  (k = m /\ r = Some (exceeded lastErr) /\ waits = m).

Lemma retry_loop_spec attempt n lastErr :
  failed_before attempt ->
  let '(r, ws) := retry_loop attempt n lastErr in
  exists k waits, (attempt <= k)%nat /\ failed_before k /\
    ended (attempt + n) k (if decide (k = attempt) then lastErr else answers (pred k)) r waits /\
    ws = map backoff (seq attempt (waits - attempt)).
Proof using.
  revert attempt lastErr. induction n as [|n IH]; intros attempt lastErr Hf; simpl.
  { exists attempt, attempt. split; [done|]. split; [done|]. rewrite decide_True, Nat.sub_diag by done.
    split; [|done]. right. right. by rewrite Nat.add_0_r. }
  destruct (answers attempt) as [err|] eqn:Ea.
  2:{ exists attempt, attempt. split; [done|]. split; [done|]. rewrite Nat.sub_diag.
      split; [|done]. left. split_and!; [lia|done..]. }
  destruct (cancelled attempt) as [e|] eqn:Ec.
  { exists attempt, (S attempt). split; [done|]. split; [done|]. replace (S attempt - attempt)%nat with 1%nat by lia.
    split; [|done]. right. left. rewrite Ea, Ec. split_and!; [lia|eauto..|done]. }
  assert (failed_before (S attempt)) as Hf'.
  { intros i Hi. destruct (decide (i = attempt)) as [->|]; [rewrite Ea; eauto|]. apply Hf. lia. }
  specialize (IH (S attempt) (Some err) Hf'). destruct (retry_loop (S attempt) n (Some err)) as [r ws].
  destruct IH as (k & waits & Hk & Hfk & He & ->). exists k, waits. split; [lia|]. split; [done|].
  rewrite decide_False by lia. rewrite Nat.add_succ_r in *. simpl in He. split.
  - destruct (decide (k = S attempt)) as [->|]; [|done]. simpl. by rewrite Ea.
  - assert (S attempt <= waits)%nat.
    { destruct He as [(? & _ & _ & ->)|[(? & _ & _ & _ & ->)|(-> & _ & ->)]]; lia. }
    by replace (waits - attempt)%nat with (S (waits - S attempt)) by lia.
Qed.

(** C40: retrying: the operation is called at most [maxRetries] times, until its
    first success, which is returned, or until the context ends during a
    backoff, whose error is returned; otherwise the last error is wrapped.
    The waits are 1, 2, 4, ... seconds, exact up to the 34th attempt. *)
Theorem retry_spec maxRetries :
  let '(r, ws) := retryWithBackoff maxRetries in
  exists k waits, failed_before k /\
    ended (Z.to_nat maxRetries) k (if decide (k = 0%nat) then None else answers (pred k)) r waits /\
    ws = map backoff (seq 0 waits) /\
    forall i, (i < 34)%nat -> backoff i = 2 ^ Z.of_nat i * second.
Proof using.
  unfold retryWithBackoff. pose proof (retry_loop_spec 0 (Z.to_nat maxRetries) None) as H.
  destruct (retry_loop 0 (Z.to_nat maxRetries) None) as [r ws].
  destruct H as (k & waits & _ & Hf & He & ->); [intros i Hi; lia|].
  exists k, waits. rewrite Nat.sub_0_r. split_and!; [done..|]. intros i Hi.
  unfold backoff. rewrite Z.shiftl_1_l.
  assert (0 < 2 ^ Z.of_nat i <= 2 ^ 33) as Hp.
  { split; [lia|]. apply Z.pow_le_mono_r; lia. }
  unfold second, millisecond. rewrite !wrap64_id; [done|unfold in_int64, min_int64, max_int64; lia..|].
  rewrite wrap64_id; unfold in_int64, min_int64, max_int64; lia.
Qed.
End retry.

(** ** Concrete instances *)

Definition ex_ops : list bop := [Failure 10; Success; Failure 20; Ask 25; Ask 60].

Lemma breaker_invariant_witness :
  breaker_inv (failures ex_ops) (run (NewCircuitBreaker 2 30) ex_ops) /\
  admissions (NewCircuitBreaker 2 30) ex_ops = [false; true].
Proof. split; [apply (breaker_invariant 2 30 ex_ops); [reflexivity|discriminate]|reflexivity]. Defined.

Definition ex_open : CircuitBreaker := run (NewCircuitBreaker 2 30) [Failure 10; Failure 20].

Lemma open_breaker_blocks_witness :
  state (run ex_open [Ask 30; Success; Failure 40; Ask 50]) = CircuitOpen.
Proof.
  apply (open_breaker_blocks ex_open 20); try reflexivity.
  - split; [split; discriminate|discriminate].
  - discriminate.
  - split; [discriminate|reflexivity].
  - repeat constructor; discriminate.
  - repeat constructor; discriminate.
Defined.

Lemma closed_counts_all_failures_witness :
  ~ (state (run (NewCircuitBreaker 2 30) [Failure 10; Success; Success; Failure 5000]) = CircuitClosed).
Proof.
  intros H. apply closed_counts_all_failures in H; [|reflexivity|reflexivity|reflexivity|discriminate|repeat constructor].
  discriminate H.
Defined.

Lemma half_open_admits_all_witness :
  admissions (with_state CircuitHalfOpen ex_open) (map Ask [60; 61; 62]) = [true; true; true].
Proof.
  apply (half_open_admits_all (with_state CircuitHalfOpen ex_open) [60; 61; 62] 0); try reflexivity.
  split; [split; discriminate|discriminate].
Defined.
