(* ===== verification/Estimator.v ===== *)
(** * Estimator: the worker's concurrency cap ([concurrency_estimator.go])

    The estimator as a record; its methods as functions of the instants they
    read.  The file holding the persisted cap is a parameter read once at
    construction; what [persist] would write is [persisted_value].  The timer is
    the instant at which it fires next. *)

From S2P Require Import Prelude GoFloat.

Definition defaultInitCap : Z := 4.
Definition minCap : Z := 1.
Definition windowDuration : Duration := 10 * second.
Definition persistInterval : Duration := 30 * second.
Definition latencySpikeMultiplier : float64 := dec 20 10.
Definition http429Threshold : nat := 2.

Record ConcurrencyEstimator := {
  cap : Z;
  window429 : list Time;
  latencies : list Duration;
  baselineLatency : Duration;
  lastCapChanged : Time;
  changedCh : bool;
  persistPath : string;
  persistTimer : option Time;
}.

Definition set_cap (c : Z) (changed : Time) (e : ConcurrencyEstimator) : ConcurrencyEstimator :=
  {| cap := c; window429 := window429 e; latencies := latencies e; baselineLatency := baselineLatency e;
     lastCapChanged := changed; changedCh := changedCh e; persistPath := persistPath e;
     persistTimer := persistTimer e |}.

(** The send to a channel with one slot: a second change is merged. *)
Definition notifyChanged (e : ConcurrencyEstimator) : ConcurrencyEstimator :=
  {| cap := cap e; window429 := window429 e; latencies := latencies e; baselineLatency := baselineLatency e;
     lastCapChanged := lastCapChanged e; changedCh := true; persistPath := persistPath e;
     persistTimer := persistTimer e |}.

Definition schedulePersist (now : Time) (e : ConcurrencyEstimator) : ConcurrencyEstimator :=
  {| cap := cap e; window429 := window429 e; latencies := latencies e; baselineLatency := baselineLatency e;
     lastCapChanged := lastCapChanged e; changedCh := changedCh e; persistPath := persistPath e;
     persistTimer := Some (time_add now persistInterval) |}.

(** [persist] (and [Stop]): the cap written to the file, if there is a path. *)
Definition persisted_value (e : ConcurrencyEstimator) : option Z :=
  if bool_decide (persistPath e = "") then None else Some (cap e).

Section load.
(** [os.ReadFile] and [json.Unmarshal] of the file. *)
Context (read_cap : string -> option Z).

Definition LoadPersisted (path : string) : Z := default 0 (read_cap path).

Definition NewConcurrencyEstimatorWithInit (persistPath : string) (initCap : Z) : ConcurrencyEstimator :=
  let initCap := if initCap <? minCap then minCap else initCap in
  let c := LoadPersisted persistPath in
  let cap := if 0 <? c then (if c <? minCap then minCap else c) else initCap in
  {| cap := cap; window429 := []; latencies := []; baselineLatency := 0; lastCapChanged := zero_time;
     changedCh := false; persistPath := persistPath; persistTimer := None |}.

Definition NewConcurrencyEstimator (persistPath : string) : ConcurrencyEstimator :=
  NewConcurrencyEstimatorWithInit persistPath defaultInitCap.
End load.

(** [time.Duration(f)] of a float. *)
Definition to_duration (x : float64) : Duration := to_int x.

Definition RecordRequest (now start : Time) (statusCode : Z) (e : ConcurrencyEstimator) : ConcurrencyEstimator :=
  let lat := time_sub now start in
  let latencies := latencies e ++ [lat] in
  let baseline :=
    if (baselineLatency e =? 0) || (length latencies <? 10)%nat then lat
    else to_duration (fadd (fmul (of_int (baselineLatency e)) (dec 9 10)) (fmul (of_int lat) (dec 1 10))) in
  schedulePersist now
    {| cap := cap e; window429 := if statusCode =? 429 then window429 e ++ [now] else window429 e;
       latencies := latencies; baselineLatency := baseline; lastCapChanged := lastCapChanged e;
       changedCh := changedCh e; persistPath := persistPath e; persistTimer := persistTimer e |}.

Definition RecordCircuitOpen (now : Time) (e : ConcurrencyEstimator) : ConcurrencyEstimator :=
  if negb (cap e =? 1) then schedulePersist now (notifyChanged (set_cap 1 now e)) else e.

Definition RecordCircuitClosed (now : Time) (e : ConcurrencyEstimator) : ConcurrencyEstimator :=
  if cap e =? 1 then schedulePersist now (notifyChanged (set_cap defaultInitCap now e)) else e.

Definition Cap (e : ConcurrencyEstimator) : Z := if cap e <? minCap then minCap else cap e.

(** ** Percentiles by insertion sort, as written *)

Definition at_ (l : list Duration) (i : nat) : Duration := nth i l 0.

Definition swap (l : list Duration) (j : nat) : list Duration :=
  <[(j - 1)%nat := at_ l j]> (<[j := at_ l (j - 1)]> l).

(** The inner loop: moves the element at [j] down. *)
Fixpoint sift_down (tmp : list Duration) (j : nat) : list Duration :=
  match j with
  | O => tmp
  | S k => if at_ tmp j <? at_ tmp k then sift_down (swap tmp j) k else tmp
  end.

Definition insertion_sort (d : list Duration) : list Duration :=
  foldl sift_down d (seq 1 (length d - 1)).

Definition percentile (d : list Duration) (p : float64) : Duration :=
  if (length d =? 0)%nat then 0
  else
    let tmp := insertion_sort d in
    let idx := to_int (fmul (of_int (Z.of_nat (length tmp) - 1)) p) in
    let idx := if idx <? 0 then 0 else idx in
    let idx := if Z.of_nat (length tmp) <=? idx then Z.of_nat (length tmp) - 1 else idx in
    at_ tmp (Z.to_nat idx).

(** ** Recomputation *)

Definition p95 : float64 := dec 95 100.

(** The pruning of both windows. *)
Definition prune_windows (now : Time) (e : ConcurrencyEstimator) : ConcurrencyEstimator :=
  let cutoff := time_add now (- windowDuration) in
  {| cap := cap e; window429 := List.filter (fun t => after t cutoff) (window429 e);
     latencies := if (200 <? length (latencies e))%nat then drop (length (latencies e) - 200) (latencies e)
                  else latencies e;
     baselineLatency := baselineLatency e; lastCapChanged := lastCapChanged e; changedCh := changedCh e;
     persistPath := persistPath e; persistTimer := persistTimer e |}.

(** [if e.cap > minCap { e.cap--; e.lastCapChanged = now }]. *)
Definition shrink (now : Time) (e : ConcurrencyEstimator) : ConcurrencyEstimator :=
  if minCap <? cap e then set_cap (cap e - 1) now e else e.

Definition too_many_429 (e : ConcurrencyEstimator) : bool := (http429Threshold <=? length (window429 e))%nat.

Definition latency_spike (e : ConcurrencyEstimator) : bool :=
  (5 <=? length (latencies e))%nat && (0 <? baselineLatency e) &&
  (to_duration (fmul (of_int (baselineLatency e)) latencySpikeMultiplier) <? percentile (latencies e) p95).

Definition recover (now : Time) (e : ConcurrencyEstimator) : ConcurrencyEstimator :=
  if (cap e <? defaultInitCap) && (60 * second <? time_sub now (lastCapChanged e)) then
    let recentCutoff := time_add now (- (30 * second)) in
    let hasRecent429 := existsb (fun t => after t recentCutoff) (window429 e) in
    if negb hasRecent429 then
      let c := cap e + 1 in
      set_cap (if defaultInitCap <? c then defaultInitCap else c) now e
    else e
  else e.

Definition recompute (now : Time) (e : ConcurrencyEstimator) : ConcurrencyEstimator :=
  let e := prune_windows now e in
  let originalCap := cap e in
  let e := if too_many_429 e then shrink now e else e in
  let e := if latency_spike e then shrink now e else e in
  let e := recover now e in
  if negb (cap e =? originalCap) then schedulePersist now (notifyChanged e) else e.

(** ** The insertion sort sorts *)

Abbreviation ordered := (StronglySorted Z.le) (only parsing).

Lemma at_app_r l x k : at_ (l ++ x :: k) (length l) = x.
Proof. unfold at_. rewrite app_nth2, Nat.sub_diag by lia. done. Qed.

Lemma swap_app l a b k : swap (l ++ a :: b :: k) (S (length l)) = l ++ b :: a :: k.
Proof.
  unfold swap. rewrite Nat.sub_succ, Nat.sub_0_r, at_app_r.
  replace (at_ (l ++ a :: b :: k) (S (length l))) with b.
  2:{ unfold at_. rewrite app_nth2 by lia. by replace (S (length l) - length l)%nat with 1%nat by lia. }
  rewrite insert_app_r_alt by lia. replace (S (length l) - length l)%nat with 1%nat by lia. simpl.
  by rewrite insert_app_r_alt, Nat.sub_diag by lia.
Qed.

(** Moving the element after a sorted prefix to its place. *)
Lemma sift_down_spec l x k :
  ordered l -> exists s, sift_down (l ++ x :: k) (length l) = s ++ k /\ s ≡ₚ x :: l /\ ordered s.
Proof.
  revert x k. induction l as [|y l IH] using rev_ind; intros x k Hl.
  { exists [x]. split; [done|]. split; [done|]. repeat constructor. }
  apply sorted_snoc_inv in Hl as [Hl Hy]. rewrite length_app, Nat.add_1_r. cbn [sift_down].
  rewrite <- app_assoc. change ([y] ++ x :: k) with (y :: x :: k). rewrite at_app_r.
  replace (at_ (l ++ y :: x :: k) (S (length l))) with x.
  2:{ unfold at_. rewrite app_nth2 by lia. by replace (S (length l) - length l)%nat with 1%nat by lia. }
  destruct (Z.ltb_spec x y) as [Hxy|Hxy].
  - rewrite swap_app. destruct (IH x (y :: k) Hl) as (s & -> & Hp & Hs).
    exists (s ++ [y]). split; [by rewrite <- app_assoc|]. split; [by rewrite Hp|].
    apply sorted_snoc; [done|]. rewrite Forall_forall in *. intros z Hz. rewrite Hp in Hz.
    apply elem_of_cons in Hz as [->|Hz]; [lia|by apply Hy].
  - exists (l ++ [y; x]). split; [by rewrite <- app_assoc|]. change [y; x] with ([y] ++ [x]).
    rewrite app_assoc. split; [symmetry; apply Permutation_cons_append|]. apply sorted_snoc; [by apply sorted_snoc|].
    rewrite Forall_app, Forall_singleton. split; [|done]. eapply Forall_impl; [exact Hy|]. simpl. lia.
Qed.

Lemma insertion_sort_loop d i :
  (i < length d)%nat ->
  exists s, foldl sift_down d (seq 1 i) = s ++ drop (S i) d /\ s ≡ₚ take (S i) d /\ ordered s.
Proof.
  induction i as [|i IH]; intros Hi.
  { destruct d as [|x d]; [simpl in Hi; lia|]. exists [x]. split; [done|]. split; [done|]. repeat constructor. }
  destruct IH as (s & Hs & Hp & Ho); [lia|].
  rewrite seq_S, foldl_snoc, Hs. destruct (lookup_lt_is_Some_2 d (S i) Hi) as [x Hx].
  rewrite (drop_S _ _ _ Hx). assert (1 + i = length s)%nat as ->.
  { rewrite Hp, length_take. lia. }
  destruct (sift_down_spec s x (drop (S (S i)) d) Ho) as (s' & -> & Hp' & Ho').
  exists s'. split; [done|]. split; [|done]. rewrite Hp', Hp, (take_S_r _ _ _ Hx). apply Permutation_cons_append.
Qed.

(** The loops compute the sorted list. *)
Lemma insertion_sort_correct d : insertion_sort d = sort_by Z.leb d.
Proof.
  destruct d as [|x d]; [done|]. set (l := x :: d).
  destruct (insertion_sort_loop l (length l - 1)) as (s & Hs & Hp & Ho); [simpl; lia|].
  unfold insertion_sort. rewrite Hs. replace (S (length l - 1)) with (length l) in * by (simpl; lia).
  rewrite drop_all, app_nil_r. rewrite take_ge in Hp by done.
  eapply (StronglySorted_unique_strong Z.le); [|exact Ho| |by rewrite sort_by_perm].
  - intros a b _ _ Hab Hba. lia.
  - pose proof (sort_by_sorted Z.leb ltac:(intros; lia) ltac:(intros; lia) l) as H. clear -H.
    induction H as [|a k Hk IH Ha]; constructor; [done|]. eapply Forall_impl; [exact Ha|]. simpl. lia.
Qed.

Lemma percentile_index n :
  (0 < n <= 200)%nat ->
  let i := to_int (fmul (of_int (Z.of_nat n - 1)) p95) in i = 95 * (Z.of_nat n - 1) / 100 /\ 0 <= i < Z.of_nat n.
Proof.
  intros Hn.
  assert (forallb (fun k => let i := to_int (fmul (of_int (Z.of_nat (S k) - 1)) p95) in
    (i =? 95 * (Z.of_nat (S k) - 1) / 100) && (0 <=? i) && (i <? Z.of_nat (S k))) (seq 0 200) = true) as H
    by (vm_compute; reflexivity).
  rewrite forallb_forall in H. specialize (H (n - 1)%nat). rewrite in_seq in H.
  replace (S (n - 1)) with n in H by lia. specialize (H ltac:(lia)). cbv zeta in *. zbool. lia.
Qed.

(** The hand-written percentile is right: on up to 200 samples, the most
    the window keeps, its in-place insertion sort gives the sorted list, and
    p95 is the element of rank [floor (0.95 (n - 1))] of it, the float index
    being exact. *)
Theorem percentile_correct d :
  d <> [] -> (length d <= 200)%nat ->
  insertion_sort d = sort_by Z.leb d /\
  percentile d p95 = at_ (sort_by Z.leb d) (Z.to_nat (95 * (Z.of_nat (length d) - 1) / 100)) /\
  percentile d p95 ∈ d.
Proof.
  intros Hd Hn. split; [apply insertion_sort_correct|].
  assert (0 < length d)%nat as Hpos by (destruct d; simpl; [done|lia]).
  destruct (percentile_index (length d)) as [Hi Hr]; [lia|]. cbv zeta in *.
  unfold percentile. rewrite (proj2 (Nat.eqb_neq _ 0)) by lia.
  rewrite insertion_sort_correct, sort_by_length.
  set (i := to_int _) in *. rewrite (proj2 (Z.ltb_ge i 0)), (proj2 (Z.leb_gt _ i)) by lia.
  rewrite Hi. split; [done|]. rewrite <- Hi.
  rewrite <- (elem_of_sort_by Z.leb). unfold at_.
  destruct (lookup_lt_is_Some_2 (sort_by Z.leb d) (Z.to_nat i)) as [v Hv]; [rewrite sort_by_length; lia|].
  rewrite (nth_lookup_Some _ _ _ _ Hv). by eapply list_elem_of_lookup_2.
Qed.

(** ** Runs *)

(** A finished request, the breaker's reports, a tick of [Start], and a receive
    from [changedCh]. *)
Inductive eop :=
| ORequest (now start : Time) (statusCode : Z)
| OCircuitOpen (now : Time)
| OCircuitClosed (now : Time)
| OTick (now : Time)
| ODrain.

Definition drain (e : ConcurrencyEstimator) : ConcurrencyEstimator :=
  {| cap := cap e; window429 := window429 e; latencies := latencies e; baselineLatency := baselineLatency e;
     lastCapChanged := lastCapChanged e; changedCh := false; persistPath := persistPath e;
     persistTimer := persistTimer e |}.

Definition exec (e : ConcurrencyEstimator) (o : eop) : ConcurrencyEstimator :=
  match o with
  | ORequest now start code => RecordRequest now start code e
  | OCircuitOpen now => RecordCircuitOpen now e
  | OCircuitClosed now => RecordCircuitClosed now e
  | OTick now => recompute now e
  | ODrain => drain e
  end.

(** The cap after the two tests that may shrink it. *)
Definition shrunk (now : Time) (e : ConcurrencyEstimator) : ConcurrencyEstimator :=
  let e := if too_many_429 e then shrink now e else e in
  if latency_spike e then shrink now e else e.

Lemma shrink_spec now e :
  1 <= cap e ->
  window429 (shrink now e) = window429 e /\ latencies (shrink now e) = latencies e /\
  baselineLatency (shrink now e) = baselineLatency e /\ changedCh (shrink now e) = changedCh e /\
  persistTimer (shrink now e) = persistTimer e /\
  cap (shrink now e) = Z.max 1 (cap e - 1) /\
  lastCapChanged (shrink now e) = if 1 <? cap e then now else lastCapChanged e.
Proof.
  intros Hc. unfold shrink, minCap. destruct (Z.ltb_spec 1 (cap e)); simpl; split_and!; try done; lia.
Qed.

Lemma recover_spec now e :
  window429 (recover now e) = window429 e /\ latencies (recover now e) = latencies e /\
  baselineLatency (recover now e) = baselineLatency e /\ changedCh (recover now e) = changedCh e /\
  persistTimer (recover now e) = persistTimer e /\
  (recover now e = e \/
   (cap e < 4 /\ 60 * second < time_sub now (lastCapChanged e) /\ cap (recover now e) = cap e + 1 /\
    lastCapChanged (recover now e) = now)).
Proof.
  unfold recover, defaultInitCap. destruct (Z.ltb_spec (cap e) 4), (Z.ltb_spec (60 * second) (time_sub now (lastCapChanged e)));
    simpl; try (split_and!; (done || by left)).
  destruct (existsb _ _); simpl; [split_and!; (done || by left)|].
  split_and!; try done. right. rewrite (proj2 (Z.ltb_ge 4 _)) by lia. done.
Qed.

Definition boolZ (b : bool) : Z := if b then 1 else 0.

Lemma shrunk_spec now e :
  1 <= cap e ->
  let e' := shrunk now e in
  window429 e' = window429 e /\ latencies e' = latencies e /\ baselineLatency e' = baselineLatency e /\
  changedCh e' = changedCh e /\ persistTimer e' = persistTimer e /\
  cap e' = Z.max 1 (cap e - boolZ (too_many_429 e) - boolZ (latency_spike e)) /\
  (cap e' <> cap e -> lastCapChanged e' = now) /\
  (cap e' = cap e -> lastCapChanged e' = lastCapChanged e).
Proof.
  intros Hc. unfold shrunk. cbv zeta.
  assert (forall e', window429 e' = window429 e -> latencies e' = latencies e -> baselineLatency e' = baselineLatency e ->
            latency_spike e' = latency_spike e) as Hspike by (unfold latency_spike; by intros e' _ -> ->).
  destruct (shrink_spec now e Hc) as (W1 & L1 & B1 & C1 & P1 & K1 & T1).
  destruct (too_many_429 e); cbn [boolZ].
  - rewrite (Hspike (shrink now e)) by done. destruct (latency_spike e); cbn [boolZ].
    + destruct (shrink_spec now (shrink now e)) as (W2 & L2 & B2 & C2 & P2 & K2 & T2); [lia|].
      rewrite W2, L2, B2, C2, P2, K2, T2, K1, T1. split_and!; try done; try lia;
        destruct (Z.ltb_spec 1 (cap e)), (Z.ltb_spec 1 (Z.max 1 (cap e - 1))); intros; done || lia.
    + rewrite W1, L1, B1, C1, P1, K1, T1. split_and!; try done; try lia;
        destruct (Z.ltb_spec 1 (cap e)); intros; done || lia.
  - destruct (latency_spike e); cbn [boolZ].
    + rewrite W1, L1, B1, C1, P1, K1, T1. split_and!; try done; try lia;
        destruct (Z.ltb_spec 1 (cap e)); intros; done || lia.
    + split_and!; try done; lia.
Qed.

Lemma recompute_unfold now e :
  recompute now e =
    let e0 := prune_windows now e in
    let e1 := recover now (shrunk now e0) in
    if negb (cap e1 =? cap e0) then schedulePersist now (notifyChanged e1) else e1.
Proof. reflexivity. Qed.

(** A recomputation moves the cap by at most two down and one up: down by
    one for two or more 429s in the last ten seconds and by one for a latency
    spike, never below 1; up by one, never above the default 4, only when it
    was not moved for a minute.  The change channel is filled and the persist
    timer set exactly when the cap changed. *)
Theorem recompute_spec now e :
  1 <= cap e ->
  let e0 := prune_windows now e in
  let e' := recompute now e in
  let down := Z.max 1 (cap e - boolZ (too_many_429 e0) - boolZ (latency_spike e0)) in
  (cap e' = down \/
   (cap e' = down + 1 /\ down = cap e /\ down < defaultInitCap /\ 60 * second < time_sub now (lastCapChanged e))) /\
  (if cap e' =? cap e then changedCh e' = changedCh e /\ persistTimer e' = persistTimer e
   else changedCh e' = true /\ persistTimer e' = Some (now + persistInterval) /\ lastCapChanged e' = now).
Proof.
  intros Hc. cbv zeta. rewrite recompute_unfold. cbv zeta. set (e0 := prune_windows now e).
  assert (cap e0 = cap e) as E0 by done.
  destruct (shrunk_spec now e0 Hc) as (_ & _ & _ & Hch & Hpt & Hcap & Hmoved & Hstill). rewrite E0 in *.
  destruct (recover_spec now (shrunk now e0)) as (_ & _ & _ & Hch' & Hpt' & Hr).
  set (e1 := recover now (shrunk now e0)) in *.
  assert (cap (if negb (cap e1 =? cap e) then schedulePersist now (notifyChanged e1) else e1) = cap e1) as -> by by case_if.
  split.
  - destruct Hr as [->|(Hlt & Hslow & -> & _)]; [by left|right].
    destruct (decide (cap (shrunk now e0) = cap e)) as [E|E].
    + rewrite Hstill in Hslow by done. unfold defaultInitCap. split_and!; [lia|lia|lia|done].
    + exfalso. rewrite Hmoved in Hslow by done. revert Hslow. unfold time_sub, sat64, second, millisecond, min_int64, max_int64. lia.
  - destruct (Z.eqb_spec (cap e1) (cap e)) as [E|E]; simpl.
    + rewrite Hch', Hpt', Hch, Hpt. done.
    + split_and!; [done|done|]. destruct Hr as [->|(_ & _ & _ & ?)]; [|done]. by apply Hmoved.
Qed.

Lemma recompute_cap now e :
  1 <= cap e -> 1 <= cap (recompute now e) <= Z.max (cap e) 4.
Proof.
  intros Hc. rewrite recompute_unfold. cbv zeta. set (e0 := prune_windows now e).
  destruct (shrunk_spec now e0 Hc) as (_ & _ & _ & _ & _ & Hcap & _).
  destruct (recover_spec now (shrunk now e0)) as (_ & _ & _ & _ & _ & Hr).
  assert (cap e0 = cap e) as E0 by done. rewrite E0 in Hcap.
  assert (forall b, 0 <= boolZ b) as Hb by (intros []; simpl; lia).
  pose proof (Hb (too_many_429 e0)). pose proof (Hb (latency_spike e0)).
  set (e1 := recover now (shrunk now e0)) in *.
  assert (cap (if negb (cap e1 =? cap e0) then schedulePersist now (notifyChanged e1) else e1) = cap e1) as -> by by case_if.
  destruct Hr as [->|(? & _ & -> & _)]; lia.
Qed.

(** C37: The cap stays in bounds: from construction on, whatever the persisted
    value, the requests, the breaker and the clock do, it is at least 1, at
    most the larger of its initial value and the default, what [Cap] returns is
    the cap itself, and so is what gets persisted. *)
Theorem cap_in_bounds read_cap path initCap ops :
  let e0 := NewConcurrencyEstimatorWithInit read_cap path initCap in
  let e := foldl exec e0 ops in
  1 <= cap e <= Z.max (cap e0) defaultInitCap /\ Cap e = cap e /\
  (persisted_value e = None \/ persisted_value e = Some (cap e)) /\
  cap e0 = (if 0 <? LoadPersisted read_cap path then LoadPersisted read_cap path else Z.max 1 initCap).
Proof.
  cbv zeta. set (e0 := NewConcurrencyEstimatorWithInit read_cap path initCap).
  assert (cap e0 = (if 0 <? LoadPersisted read_cap path then LoadPersisted read_cap path else Z.max 1 initCap)) as E0.
  { subst e0. unfold NewConcurrencyEstimatorWithInit, minCap. cbn [cap].
    destruct (Z.ltb_spec 0 (LoadPersisted read_cap path)); [destruct (Z.ltb_spec (LoadPersisted read_cap path) 1); lia|].
    destruct (Z.ltb_spec initCap 1); lia. }
  assert (1 <= cap e0) as H0 by (rewrite E0; destruct (Z.ltb_spec 0 (LoadPersisted read_cap path)); lia).
  assert (1 <= cap (foldl exec e0 ops) <= Z.max (cap e0) 4) as H.
  { clear E0. clearbody e0. induction ops as [|o ops IH] using rev_ind; [cbn [foldl]; lia|]. rewrite foldl_snoc.
    set (e := foldl exec e0 ops) in *. destruct o as [now start code|now|now|now|]; cbn [exec].
    - exact IH.
    - unfold RecordCircuitOpen. case_if; [simpl; lia|exact IH].
    - unfold RecordCircuitClosed, defaultInitCap. case_if; [simpl; lia|exact IH].
    - pose proof (recompute_cap now e ltac:(lia)). lia.
    - exact IH. }
  unfold defaultInitCap. split_and!; [lia|lia| | |done].
  - unfold Cap, minCap. rewrite (proj2 (Z.ltb_ge _ 1)) by lia. done.
  - unfold persisted_value. case_bool_decide; auto.
Qed.

Lemma spike_stable now e :
  (length (latencies e) <= 200)%nat -> 1 <= cap e ->
  latency_spike (recompute now e) = latency_spike e /\
  latencies (recompute now e) = latencies e.
Proof.
  intros Hl Hc. rewrite recompute_unfold. cbv zeta. set (e0 := prune_windows now e).
  assert (latencies e0 = latencies e) as E0.
  { unfold e0, prune_windows. simpl. by rewrite (proj2 (Nat.ltb_ge 200 _)). }
  assert (baselineLatency e0 = baselineLatency e) as B0 by done.
  destruct (shrunk_spec now e0 Hc) as (_ & L1 & B1 & _).
  destruct (recover_spec now (shrunk now e0)) as (_ & L2 & B2 & _).
  assert (forall e', latencies e' = latencies e -> baselineLatency e' = baselineLatency e -> latency_spike e' = latency_spike e)
    as Hs by (unfold latency_spike; by intros e' -> ->).
  case_if; [|split; [apply Hs|]; congruence].
  split; [apply Hs|]; simpl; congruence.
Qed.

Lemma shrinks_on_spike now e :
  latency_spike e = true -> (length (latencies e) <= 200)%nat -> 1 <= cap e ->
  cap (recompute now e) <= Z.max 2 (cap e - 1).
Proof.
  intros Hs Hl Hc. rewrite recompute_unfold. cbv zeta. set (e0 := prune_windows now e).
  assert (latency_spike e0 = true) as Hs0.
  { rewrite <- Hs. unfold latency_spike, e0, prune_windows. simpl. by rewrite (proj2 (Nat.ltb_ge 200 _)). }
  destruct (shrunk_spec now e0 Hc) as (_ & _ & _ & _ & _ & Hcap & Hmoved & _).
  assert (cap e0 = cap e) as E0 by done. rewrite E0, Hs0 in *. cbn [boolZ] in Hcap.
  assert (0 <= boolZ (too_many_429 e0)) by (destruct (too_many_429 e0); simpl; lia).
  destruct (recover_spec now (shrunk now e0)) as (_ & _ & _ & _ & _ & Hr).
  set (e1 := recover now (shrunk now e0)) in *.
  assert (cap (if negb (cap e1 =? cap e) then schedulePersist now (notifyChanged e1) else e1) = cap e1) as -> by by case_if.
  destruct Hr as [->|(_ & Hslow & -> & _)]; [lia|].
  destruct (decide (cap e = 1)); [lia|]. exfalso. rewrite Hmoved in Hslow by lia. revert Hslow.
  unfold time_sub, sat64, second, millisecond, min_int64, max_int64. lia.
Qed.

(** An idle worker loses its cap: the latency samples carry no time, so a
    spike seen once is seen at every tick until new requests come, and with no
    request at all the cap falls by at least one at each tick until it is at
    most 2, and stays there, however far apart the ticks are. *)
Theorem idle_worker_decays ticks e :
  latency_spike e = true -> (length (latencies e) <= 200)%nat -> 1 <= cap e ->
  cap (foldl exec e (map OTick ticks)) <= Z.max 2 (cap e - Z.of_nat (length ticks)).
Proof.
  revert e. induction ticks as [|now ticks IH]; intros e Hs Hl Hc; simpl foldl; [simpl; lia|].
  destruct (spike_stable now e Hl Hc) as [Hs' Hl'].
  pose proof (recompute_cap now e Hc) as Hone.
  assert (cap (recompute now e) <= Z.max 2 (cap e - 1)) as Hdown.
  { pose proof (shrinks_on_spike now e Hs Hl Hc). lia. }
  rewrite <- Hl' in Hl. specialize (IH (recompute now e) ltac:(congruence) Hl ltac:(lia)).
  cbn [length]. rewrite Nat2Z.inj_succ. cbn [exec map foldl] in *. lia.
Qed.

(** ** Concrete instances *)

Definition ex_estimator : ConcurrencyEstimator :=
  {| cap := 8; window429 := []; latencies := [10; 10; 10; 10; 500; 500]; baselineLatency := 10;
     lastCapChanged := 0; changedCh := false; persistPath := ""; persistTimer := None |}.

Lemma percentile_correct_witness : percentile (latencies ex_estimator) p95 = 500.
Proof.
  rewrite (proj1 (proj2 (percentile_correct (latencies ex_estimator) ltac:(discriminate) ltac:(apply Nat.leb_le; reflexivity)))).
  reflexivity.
Defined.

Lemma recompute_spec_witness : cap (recompute 5000000000 ex_estimator) = 7.
Proof.
  destruct (recompute_spec 5000000000 ex_estimator) as [[H|(H1 & H2 & H3 & H4)] _]; [discriminate|exact H|].
  vm_compute in H2. discriminate.
Defined.

Lemma idle_worker_decays_witness :
  cap (foldl exec ex_estimator (map OTick [5; 3600; 7200; 10800])) <= 4.
Proof.
  apply (idle_worker_decays [5; 3600; 7200; 10800] ex_estimator);
    [vm_compute; reflexivity|apply Nat.leb_le; reflexivity|discriminate].
Defined.
