(* ===== verification/InferenceStats.v ===== *)
(** * InferenceStats: the worker's throughput tracker ([inference_stats.go])

    Completed calls over a rolling window, aggregated per model in binary64.
    The mutex makes each method a function of the state and of the instant it
    reads; the range over the set of models is an argument. *)

From S2P Require Import Prelude GoFloat Protocol.
From Stdlib Require Import SpecFloat.

Definition DefaultInferenceWindow : Duration := 10 * minute.

Record inferenceSample := {
  is_model : string;
  is_promptTokens : Z;
  is_completionTokens : Z;
  is_ttft : Duration;
  is_total : Duration;
  is_when : Time;
}.

Record InferenceTracker := { window : Duration; samples : list inferenceSample }.

Definition NewInferenceTracker (window : Duration) : InferenceTracker :=
  {| window := if window <=? 0 then DefaultInferenceWindow else window; samples := [] |}.

Definition pruneLocked (now : Time) (t : InferenceTracker) : InferenceTracker :=
  let threshold := time_add now (- window t) in
  {| window := window t; samples := drop_while (fun s => before (is_when s) threshold) (samples t) |}.

Definition Record_ (now : Time) (model : string) (promptTokens completionTokens : Z) (ttft total : Duration)
    (t : InferenceTracker) : InferenceTracker :=
  let promptTokens := if promptTokens <? 0 then 0 else promptTokens in
  let completionTokens := if completionTokens <? 0 then 0 else completionTokens in
  pruneLocked now
    {| window := window t;
       samples := samples t ++ [{| is_model := model; is_promptTokens := promptTokens;
         is_completionTokens := completionTokens; is_ttft := ttft; is_total := total; is_when := now |}] |}.

Definition Prune (now : Time) (t : InferenceTracker) : InferenceTracker := pruneLocked now t.

(** Sums of [int]s and durations, 64 bits wide. *)
Definition sum64 (l : list Z) : Z := foldl (fun a x => wrap64 (a + x)) 0 l.

(** [d.Seconds()]. *)
Definition Seconds (d : Duration) : float64 :=
  fadd (of_int (Z.quot d second)) (fdiv (of_int (Z.rem d second)) (of_int 1000000000)).

Definition of_model (model : string) (samples : list inferenceSample) : list inferenceSample :=
  List.filter (fun s => String.eqb (is_model s) model) samples.

(** The samples the throughput is computed from: those with a duration. *)
Definition timed (samples : list inferenceSample) : list inferenceSample :=
  List.filter (fun s => negb (is_total s <=? 0)) samples.

Definition aggregate (samples : list inferenceSample) (model : string) : InferenceStatsSnapshot :=
  let mine := of_model model samples in
  let promptTotal := sum64 (map is_promptTokens mine) in
  let completionTotal := sum64 (map is_completionTokens mine) in
  let ttftSum := sum64 (map is_ttft mine) in
  let n := Z.of_nat (length mine) in
  if n =? 0 then
    {| iss_Model := model; iss_TokensPerSecond := f0; iss_AvgTTFTMs := f0; iss_AvgPromptTokens := f0;
       iss_AvgCompletionTokens := f0; iss_Samples := n |}
  else
    let avgTTFT := fdiv (fdiv (of_int ttftSum) (of_int n)) (of_int millisecond) in
    let totalTokens := sum64 (map is_completionTokens (timed mine)) in
    let totalTime := sum64 (map is_total (timed mine)) in
    {| iss_Model := model;
       iss_TokensPerSecond :=
         if (0 <? totalTime) && (0 <? totalTokens) then fdiv (of_int totalTokens) (Seconds totalTime) else f0;
       iss_AvgTTFTMs := avgTTFT;
       iss_AvgPromptTokens := fdiv (of_int promptTotal) (of_int n);
       iss_AvgCompletionTokens := fdiv (of_int completionTotal) (of_int n);
       iss_Samples := n |}.

Definition zero_snapshot : InferenceStatsSnapshot :=
  {| iss_Model := ""; iss_TokensPerSecond := f0; iss_AvgTTFTMs := f0; iss_AvgPromptTokens := f0;
     iss_AvgCompletionTokens := f0; iss_Samples := 0 |}.

Definition Snapshot (now : Time) (model : string) (t : InferenceTracker) :
    InferenceTracker * (InferenceStatsSnapshot * bool) :=
  let t := pruneLocked now t in
  (t, if existsb (fun s => String.eqb (is_model s) model) (samples t) then (aggregate (samples t) model, true)
      else (zero_snapshot, false)).

(** The set of models of the samples kept. *)
Definition models_of (t : InferenceTracker) : gset string := list_to_set (map is_model (samples t)).

Definition snap_le (a b : InferenceStatsSnapshot) : bool := String.leb (iss_Model a) (iss_Model b).

(** [order] is a range over the set of models. *)
Definition Snapshots (now : Time) (order : list string) (t : InferenceTracker) :
    InferenceTracker * list InferenceStatsSnapshot :=
  let t := pruneLocked now t in
  (t, sort_by snap_le (map (aggregate (samples t)) order)).

(** ** Histories *)

Inductive iop :=
| ORecord (now : Time) (model : string) (promptTokens completionTokens : Z) (ttft total : Duration)
| OPrune (now : Time).

Definition op_time (o : iop) : Time := match o with ORecord now _ _ _ _ _ | OPrune now => now end.

Definition exec (t : InferenceTracker) (o : iop) : InferenceTracker :=
  match o with
  | ORecord now m p c f d => Record_ now m p c f d t
  | OPrune now => Prune now t
  end.

Definition monotone (ops : list iop) : Prop := StronglySorted Z.le (map op_time ops).

(** The calls recorded, with negative token counts at zero. *)
Definition calls (ops : list iop) : list inferenceSample :=
  omap (fun o => match o with
                 | ORecord now m p c f d =>
                     Some {| is_model := m; is_promptTokens := Z.max 0 p; is_completionTokens := Z.max 0 c;
                             is_ttft := f; is_total := d; is_when := now |}
                 | OPrune _ => None
                 end) ops.

Definition since (th : Time) (l : list inferenceSample) : list inferenceSample :=
  List.filter (fun s => negb (before (is_when s) th)) l.

Definition by_time (a b : inferenceSample) : Prop := is_when a <= is_when b.

(** The samples kept at time [t] are the calls since some earlier pass. *)
Definition tracker_inv (w : Duration) (t : Time) (l : list inferenceSample) (tr : InferenceTracker) : Prop :=
  window tr = w /\ StronglySorted by_time l /\ Forall (fun s => is_when s <= t) l /\
  exists th, th <= t /\ samples tr = since (th - w) l.

Lemma since_later a b l : a <= b -> since b (since a l) = since b l.
Proof.
  intros Hab. unfold since, before. induction l as [|s l IH]; simpl; [done|].
  destruct (Z.ltb_spec (is_when s) a); simpl; rewrite IH; [|done].
  by rewrite (proj2 (Z.ltb_lt _ _)) by lia.
Qed.

Lemma prune_window_inv w t now l tr :
  t <= now -> tracker_inv w t l tr ->
  tracker_inv w now l (pruneLocked now tr) /\ samples (pruneLocked now tr) = since (now - w) l.
Proof.
  intros Ht (Hw & Hs & Hl & th & Hth & He).
  assert (samples (pruneLocked now tr) = since (now - w) l) as E.
  { unfold pruneLocked. cbn [samples]. rewrite (drop_while_filter by_time).
    - rewrite He, Hw. change (time_add now (- w)) with (now - w). apply since_later. lia.
    - unfold by_time, before. intros x y. zbool_lia.
    - rewrite He. eapply sublist_sorted; [apply filter_b_sublist|exact Hs]. }
  split; [|done]. split_and!; [done|done| |by exists now]. eapply Forall_impl; [exact Hl|]. simpl. lia.
Qed.

Lemma run_window_inv w ops t :
  0 < w -> monotone ops -> Forall (fun s => s <= t) (map op_time ops) ->
  tracker_inv w t (calls ops) (foldl exec (NewInferenceTracker w) ops).
Proof.
  intros Hw. unfold monotone, calls. revert t. induction ops as [|o ops IH] using rev_ind; intros t Hs Ht.
  { split_and!; simpl; [by rewrite (proj2 (Z.leb_gt w 0))|constructor|constructor|by exists t]. }
  rewrite map_app in Hs, Ht. apply sorted_snoc_inv in Hs as [Hs Ho].
  apply Forall_app in Ht as [_ Ht]. apply Forall_cons in Ht as [Ht _].
  rewrite foldl_snoc, omap_app. specialize (IH (op_time o) Hs Ho).
  assert (forall l tr, tracker_inv w (op_time o) l tr -> tracker_inv w t l tr) as Hlater.
  { intros l tr (? & ? & Hl & th & ? & ?). split_and!; [done|done| |exists th; split; [lia|done]].
    eapply Forall_impl; [exact Hl|]. simpl. lia. }
  apply Hlater. destruct o as [now m p c f d|now]; simpl in *.
  - refine (proj1 (prune_window_inv w now now _ _ (Z.le_refl _) _)). destruct IH as (Hw' & Hs' & Hl & th & Hth & He).
    replace (if p <? 0 then 0 else p) with (Z.max 0 p) by (destruct (Z.ltb_spec p 0); lia).
    replace (if c <? 0 then 0 else c) with (Z.max 0 c) by (destruct (Z.ltb_spec c 0); lia).
    split_and!; simpl; [done|by apply sorted_snoc| |].
    + rewrite Forall_app, Forall_singleton. simpl. split; [done|lia].
    + exists th. split; [done|]. rewrite He. unfold since. rewrite filter_b_app. simpl. unfold before.
      by rewrite (proj2 (Z.ltb_ge now (th - w))) by lia.
  - rewrite app_nil_r. exact (proj1 (prune_window_inv w now now _ _ (Z.le_refl _) IH)).
Qed.

(** ** Theorems *)

Lemma snap_le_total a b : snap_le a b = true \/ snap_le b a = true.
Proof. apply string_leb_total. Qed.

Lemma snap_le_trans a b c : snap_le a b = true -> snap_le b c = true -> snap_le a c = true.
Proof. apply string_leb_trans. Qed.

Lemma aggregate_model l m : iss_Model (aggregate l m) = m.
Proof. unfold aggregate. by case_if. Qed.

Lemma aggregate_samples l m : iss_Samples (aggregate l m) = Z.of_nat (length (of_model m l)).
Proof. unfold aggregate. by case_if. Qed.

(** The tracker refines its history: with a clock that does not go back, a
    listing at [now] has exactly one entry per model called within the window,
    in increasing order of names whatever the order of the map, aggregated
    from exactly the calls of the window, and [Snapshot] gives that entry. *)
Theorem inference_window w ops now order :
  0 < w -> monotone (ops ++ [OPrune now]) ->
  let tr := foldl exec (NewInferenceTracker w) ops in
  let recent := since (now - w) (calls ops) in
  order ≡ₚ elements (models_of (pruneLocked now tr)) ->
  let l := (Snapshots now order tr).2 in
  (forall s, s ∈ l <-> exists m, of_model m recent <> [] /\ s = aggregate recent m) /\
  NoDup (map iss_Model l) /\ StronglySorted (fun a b => snap_le a b = true) l /\
  (forall m, (Snapshot now m tr).2 =
     if (0 <? length (of_model m recent))%nat then (aggregate recent m, true) else (zero_snapshot, false)).
Proof.
  intros Hw Hm tr recent Ho l. unfold monotone in Hm. rewrite map_app in Hm.
  apply sorted_snoc_inv in Hm as [Hm Hn].
  destruct (prune_window_inv w now now _ _ (Z.le_refl _) (run_window_inv w ops now Hw Hm Hn)) as [_ E].
  fold tr in E. fold recent in E.
  assert (forall m, m ∈ order <-> of_model m recent <> []) as Hin.
  { intros m. rewrite Ho, elem_of_elements. unfold models_of. rewrite elem_of_list_to_set, E, list_elem_of_fmap. split.
    - intros (s & -> & Hs) Hnil. unfold of_model in Hnil.
      assert (s ∈ List.filter (fun s' => String.eqb (is_model s') (is_model s)) recent) as Hf
        by (apply elem_of_filter_b; split; [done|apply String.eqb_refl]).
      rewrite Hnil in Hf. by apply not_elem_of_nil in Hf.
    - destruct (of_model m recent) as [|s k] eqn:Ek; [done|]. intros _.
      assert (s ∈ of_model m recent) as [Hs Hsm%String.eqb_eq]%elem_of_filter_b by (rewrite Ek; by left). by exists s. }
  unfold Snapshots in l. subst l. cbn [snd]. rewrite E. split_and!.
  - intros s. rewrite elem_of_sort_by, list_elem_of_fmap. setoid_rewrite Hin. naive_solver.
  - rewrite sort_by_perm, map_map. rewrite (map_ext _ id) by apply aggregate_model. rewrite map_id, Ho. apply NoDup_elements.
  - apply sort_by_sorted; [apply snap_le_total|apply snap_le_trans].
  - intros m. unfold Snapshot. cbn [snd]. rewrite E.
    assert (existsb (fun s => String.eqb (is_model s) m) recent = (0 <? length (of_model m recent))%nat) as ->; [|done].
    unfold of_model. clear. induction recent as [|s k IH]; simpl; [done|].
    destruct (String.eqb (is_model s) m); simpl; [done|exact IH].
Qed.

(** A number without a minus sign. *)
Definition unsigned (x : float64) : Prop :=
  match x with
  | S754_zero s | S754_infinity s | S754_finite s _ _ => s = false
  | S754_nan => False
  end.

Lemma of_int_unsigned n : 0 <= n -> unsigned (of_int n).
Proof.
  intros H. unfold of_int, binary_normalize. destruct n as [|p|p]; [done| |lia].
  pose proof (binary_round_sign false p 0). by destruct (binary_round _ _ _ _ _).
Qed.

Lemma fadd_unsigned x y : unsigned x -> unsigned y -> unsigned (fadd x y).
Proof.
  destruct x as [[]|[]| |[] m1 e1], y as [[]|[]| |[] m2 e2]; try done; intros _ _.
  unfold fadd, SFadd, binary_normalize. set (z := _ + _). assert (0 <= z) as Hz by (subst z; simpl; lia).
  destruct z as [|p|p]; [done| |lia].
  pose proof (binary_round_sign false p (Z.min e1 e2)). by destruct (binary_round _ _ _ _ _).
Qed.

Lemma unsigned_nonneg x : unsigned x -> nonneg x.
Proof. by destruct x as [[]|[]| |[]]. Qed.

Lemma fdiv_unsigned x m e : unsigned x -> unsigned (fdiv x (S754_finite false m e)).
Proof.
  intros Hx. pose proof (fdiv_nonneg x m e (unsigned_nonneg _ Hx)) as Hn.
  destruct x as [[]|[]| |[] mx ex]; try done. unfold fdiv, SFdiv in *.
  destruct (SFdiv_core_binary _ _ _ _ _ _) as [[q e'] l] eqn:E.
  assert (0 <= q) as Hq.
  { revert E. unfold SFdiv_core_binary. set (m' := match _ with Z0 => _ | Zpos _ => _ | Zneg _ => _ end).
    assert (0 <= m') as Hm'.
    { subst m'. destruct (_ - _ - _); [lia| |lia]. apply Z.shiftl_nonneg. lia. }
    pose proof (Z.div_pos m' (Z.pos m) Hm' eq_refl) as Hd. unfold Z.div in Hd.
    destruct (Z.div_eucl m' (Z.pos m)). intros [= -> _ _]. done. }
  pose proof (binary_round_aux_sign (xorb false false) q e' l Hq) as Hs.
  by destruct (binary_round_aux _ _ _ _ _).
Qed.

Lemma Seconds_unsigned d : 0 <= d -> unsigned (Seconds d).
Proof.
  intros Hd. unfold Seconds. apply fadd_unsigned; [apply of_int_unsigned, Z.quot_pos; done|].
  destruct (of_int_pos 1000000000) as (m & e & ->); [lia|]. apply fdiv_unsigned, of_int_unsigned.
  apply Z.rem_nonneg; [done|lia].
Qed.

(** A positive number over an unsigned one, zero and infinity included. *)
Lemma fdiv_pos_nonneg m e y : unsigned y -> nonneg (fdiv (S754_finite false m e) y).
Proof. destruct y as [[]|[]| |[] my ey]; try done; intros _. by apply fdiv_nonneg. Qed.

(** The advertised throughput is a number: for token totals a float64
    represents exactly, [TokensPerSecond] is never NaN and never negative,
    whatever the durations reported, which is what the scheduler's score
    assumes of it. *)
Theorem throughput_is_a_number l model :
  sum64 (map is_completionTokens (timed (of_model model l))) < 2 ^ 53 ->
  nonneg (iss_TokensPerSecond (aggregate l model)) /\ is_nan (iss_TokensPerSecond (aggregate l model)) = false.
Proof.
  intros Hb. enough (nonneg (iss_TokensPerSecond (aggregate l model))) as H by (split; [done|by apply nonneg_not_nan]).
  unfold aggregate. case_if; [done|]. cbn [iss_TokensPerSecond]. case_if; [|done]. zbool.
  destruct (of_int_pos (sum64 (map is_completionTokens (timed (of_model model l))))) as (m & e & ->); [done|].
  apply fdiv_pos_nonneg, Seconds_unsigned. lia.
Qed.

(** ** Concrete instances *)

Definition ex_ops : list iop :=
  [ORecord 0 "phi" 5 10 1000000 2000000000; ORecord 50 "llama" 3 (-4) 2000000 1000000000;
   ORecord 60 "phi" 7 30 3000000 2000000000].

Lemma inference_window_witness :
  map (fun s => (iss_Model s, iss_Samples s))
    (Snapshots 70 (elements (models_of (pruneLocked 70 (foldl exec (NewInferenceTracker 65) ex_ops))))
      (foldl exec (NewInferenceTracker 65) ex_ops)).2 = [("llama", 1); ("phi", 1)] /\
  NoDup (map iss_Model (Snapshots 70 (elements (models_of (pruneLocked 70 (foldl exec (NewInferenceTracker 65) ex_ops))))
      (foldl exec (NewInferenceTracker 65) ex_ops)).2).
Proof.
  split; [vm_compute; reflexivity|].
  apply (inference_window 65 ex_ops 70); [reflexivity| |reflexivity].
  unfold monotone. simpl. repeat constructor; discriminate.
Defined.

Lemma throughput_is_a_number_witness :
  is_nan (iss_TokensPerSecond (aggregate (calls ex_ops) "phi")) = false.
Proof. apply (throughput_is_a_number (calls ex_ops) "phi"). reflexivity. Defined.
