(* ===== verification/Relay.v ===== *)
(** * Relay: the WebSocket broker between workers and the router ([cmd/relay/main.go])

    Connections, the state of [Relay] under its two mutexes, every handler as a
    function of that state, and the program as the events its goroutines make
    happen.  A router connection owns one outbound channel, so the channel is
    named by the connection; [wire] records what the relay did to its sockets.

    [flushBufferedMessages] gives its locks back between the snapshot, each send
    and the re-buffering: it is a machine of its own ([flush_step]), run by the
    goroutine that called it before that one reads, and its steps interleave
    with all other events.  The rest of a handler is one event: the few lines
    between two of its critical sections are not interleaved. *)

From S2P Require Import Prelude GoFloat Protocol.

Abbreviation Conn := nat (only parsing).

Inductive relay_error := ErrRouterNotConnected | ErrMarshalFrame | ErrQueueFull.

Section relay.
Context {J : JSON}.
(** A marshalled envelope and [json.Marshal] of one. *)
Context {frame : Type} (marshal : Message -> option frame).

(** What the relay does to a socket: a JSON message written to a worker, an
    attempt of the writer goroutine (with its outcome), a close. *)
Inductive Output :=
| ToWorker (c : Conn) (m : Message)
| Attempt (c : Conn) (f : frame) (ok : bool)
| CloseConn (c : Conn).

Record Relay := mkRelay {
  workers : gmap string Conn;
  routerConn : option Conn;
  workerQueue : list Message;
  routerSendCh : option Conn;
  chans : gmap Conn (list frame);
  wire : list Output;
}.

Definition newRelay : Relay := mkRelay ∅ None [] None ∅ [].

Definition chan (r : Relay) (c : Conn) : list frame := default [] (chans r !! c).

Definition set_workers (ws : gmap string Conn) (r : Relay) : Relay :=
  mkRelay ws (routerConn r) (workerQueue r) (routerSendCh r) (chans r) (wire r).
Definition set_queue (q : list Message) (r : Relay) : Relay :=
  mkRelay (workers r) (routerConn r) q (routerSendCh r) (chans r) (wire r).
Definition set_router (c : option Conn) (r : Relay) : Relay :=
  mkRelay (workers r) c (workerQueue r) (routerSendCh r) (chans r) (wire r).
Definition set_send (ch : option Conn) (r : Relay) : Relay :=
  mkRelay (workers r) (routerConn r) (workerQueue r) ch (chans r) (wire r).
Definition set_chan (c : Conn) (buf : list frame) (r : Relay) : Relay :=
  mkRelay (workers r) (routerConn r) (workerQueue r) (routerSendCh r) (<[c := buf]> (chans r)) (wire r).
Definition emit (o : Output) (r : Relay) : Relay :=
  mkRelay (workers r) (routerConn r) (workerQueue r) (routerSendCh r) (chans r) (wire r ++ [o]).

(** ** Sending to the router *)

(** [select { case ch <- data: default: }]; a send on a nil channel is never
    ready. *)
Definition chan_send (ch : option Conn) (data : frame) (r : Relay) : option Relay :=
  match ch with
  | None => None
  | Some c =>
      match try_send SendQueueSize data (chan r c) with
      | Some buf => Some (set_chan c buf r)
      | None => None
      end
  end.

(** Every caller passes [context.Background()], which is never done. *)
Definition enqueueRouter (msg : Message) (r : Relay) : Relay * option relay_error :=
  match routerConn r with
  | None => (r, Some ErrRouterNotConnected)
  | Some _ =>
      match marshal msg with
      | None => (r, Some ErrMarshalFrame)
      | Some data =>
          match chan_send (routerSendCh r) data r with
          | Some r' => (r', None)
          | None => (r, Some ErrQueueFull)
          end
      end
  end.

Definition sendToRouter (msg : Message) (r : Relay) : Relay * option relay_error :=
  enqueueRouter msg r.

Definition bufferWorkerMessage (msg : Message) (r : Relay) : Relay :=
  let q := if (SendQueueSize <=? length (workerQueue r))%nat then tail (workerQueue r) else workerQueue r in
  set_queue (q ++ [msg]) r.

(** Where a call of [flushBufferedMessages] is: it reads the router's
    connection and channel under one lock, copies and empties the buffer under
    the other, sends without a lock, and takes the lock again to put the rest
    back; [flushed] counts the frames sent. *)
Inductive flusher :=
| FlushStart
| FlushSnapped (ch : option Conn)
| FlushSending (ch : option Conn) (msgs : list Message) (flushed : nat) (todo : list Message)
| FlushRest (rest : list Message).

(** One of its critical sections or sends; [None] when it returns. *)
Definition flush_step (f : flusher) (r : Relay) : Relay * option flusher :=
  match f with
  | FlushStart =>
      match routerConn r with
      | None => (r, None)
      | Some _ => (r, Some (FlushSnapped (routerSendCh r)))
      end
  | FlushSnapped ch =>
      match workerQueue r with
      | [] => (r, None)
      | msgs => (set_queue [] r, Some (FlushSending ch msgs 0 msgs))
      end
  | FlushSending ch msgs flushed [] => (r, None)
  | FlushSending ch msgs flushed (msg :: todo) =>
      match marshal msg with
      | None => (r, Some (FlushSending ch msgs flushed todo))
      | Some data =>
          match chan_send ch data r with
          | Some r' => (r', Some (FlushSending ch msgs (S flushed) todo))
          | None => (r, Some (FlushRest (drop flushed msgs)))
          end
      end
  | FlushRest rest => (set_queue (workerQueue r ++ rest) r, None)
  end.

Fixpoint flush_run (fuel : nat) (f : flusher) (r : Relay) : Relay * option flusher :=
  match fuel with
  | O => (r, Some f)
  | S fuel =>
      match flush_step f r with
      | (r', Some f') => flush_run fuel f' r'
      | done => done
      end
  end.

(** A call that nothing interleaves with: two snapshots, at most one step for
    each message, and the end. *)
Definition flushBufferedMessages (r : Relay) : Relay :=
  fst (flush_run (3 + length (workerQueue r)) FlushStart r).

(** ** Workers *)

Definition with_worker_IP (ip : string) (p : RegisterPayload) : RegisterPayload :=
  {| rp_Worker := with_IP ip (rp_Worker p); rp_Relay := rp_Relay p |}.

(** The register as it goes on: the worker's address replaced by the one the
    relay sees ([routable], [""] when there is none), the sender stamped. *)
Definition rewrite_register (routable : string) (reg : RegisterPayload) (msg : Message) : Message :=
  with_WorkerID (wi_ID (rp_Worker reg))
    (if decide (routable = "") then msg
     else match marshal_payload (PRegister (with_worker_IP routable reg)) with
          | Some data => with_Payload data msg
          | None => msg
          end).

(** Up to the flush, which it starts when it returns a worker's id. *)
Definition handleWorker (ws : Conn) (routable : string) (msg : Message) (r : Relay) : Relay * option string :=
  match DecodePayload zero_RegisterPayload decode_register msg with
  | None => (emit (CloseConn ws) r, None)
  | Some reg =>
      let workerID := wi_ID (rp_Worker reg) in
      if decide (workerID = "") then (emit (CloseConn ws) r, None)
      else
        let msg := rewrite_register routable reg msg in
        let r := set_workers (<[workerID := ws]> (workers r)) r in
        let r :=
          match routerConn r with
          | Some _ =>
              match sendToRouter msg r with
              | (r, None) => r
              | (r, Some _) => bufferWorkerMessage msg r
              end
          | None => bufferWorkerMessage msg r
          end in
        (r, Some workerID)
  end.

(** One iteration of [workerReadLoop] on a received message; [echo_ok] tells
    whether the write of the echo succeeds; [false] is the early return. *)
Definition workerMessage (ws : Conn) (workerID : string) (echo_ok : bool) (msg : Message) (r : Relay) : Relay * bool :=
  let beat := bool_decide (msg_Type msg = MsgHeartbeat) in
  if beat && negb echo_ok then (r, false)
  else
    let r :=
      if beat
      then emit (ToWorker ws {| msg_ID := msg_ID msg; msg_Type := MsgHeartbeat;
                                msg_WorkerID := ""; msg_Payload := "" |}) r
      else r in
    let msg := with_WorkerID workerID msg in
    match routerConn r with
    | Some _ => (fst (sendToRouter msg r), true)
    | None => (bufferWorkerMessage msg r, true)
    end.

(** The deferred call of [workerReadLoop]. *)
Definition workerGone (workerID : string) (r : Relay) : Relay :=
  set_workers (delete workerID (workers r)) r.

(** ** The router *)

(** Up to the flush, which it then starts. *)
Definition handleRouter (ws : Conn) (r : Relay) : Relay :=
  let r := match routerConn r with Some old => emit (CloseConn old) r | None => r end in
  set_chan ws [] (set_send (Some ws) (set_router (Some ws) r)).

Definition write_worker (writes : Conn -> bool) (msg : Message) (c : Conn) (r : Relay) : Relay :=
  if writes c then emit (ToWorker c msg) r else r.

Definition forwardToWorker (writes : Conn -> bool) (msg : Message) (r : Relay) : Relay :=
  match workers r !! msg_WorkerID msg with
  | None => r
  | Some conn => write_worker writes msg conn r
  end.

(** [order] is the iteration order of the map of workers. *)
Definition broadcastToWorkers (writes : Conn -> bool) (order : list (string * Conn)) (msg : Message) (r : Relay) : Relay :=
  foldl (fun r c => write_worker writes msg c r) r (map snd order).

(** One iteration of [routerReadLoop]. *)
Definition routerMessage (writes : Conn -> bool) (order : list (string * Conn)) (msg : Message) (r : Relay) : Relay :=
  if decide (msg_WorkerID msg <> "") then forwardToWorker writes msg r
  else broadcastToWorkers writes order msg r.

(** The deferred call of [routerReadLoop]. *)
Definition routerGone (ws : Conn) (r : Relay) : Relay :=
  let r := if decide (routerConn r = Some ws) then set_router None r else r in
  emit (CloseConn ws) r.

(** One receive of [routerWriterLoop] and its write; [false] ends the loop. *)
Definition writer_deferred (ws : Conn) (r : Relay) : Relay :=
  if decide (routerSendCh r = Some ws) then set_send None r else r.

Definition writerStep (ws : Conn) (ok : bool) (r : Relay) : option (Relay * bool) :=
  match chan r ws with
  | [] => None
  | data :: rest =>
      let r := emit (Attempt ws data ok) (set_chan ws rest r) in
      if ok then Some (r, true)
      else Some (writer_deferred ws (emit (CloseConn ws) r), false)
  end.

(** A tick of [relayPingLoop]; [None] when the ping cannot be marshalled. *)
Definition pingTick (ping : option Message) (r : Relay) : Relay :=
  match ping with
  | None => r
  | Some msg => fst (enqueueRouter msg r)
  end.

(** ** The running relay

    The goroutines that are alive, by the connection they serve: workers with
    the id they registered, routers, writers and ping loops, the connections
    whose goroutine is still in its flush and does not read yet, and those whose
    [done] is closed.  [used] are the accepted sockets. *)

Record World := mkWorld {
  rl : Relay;
  wreaders : gmap Conn string;
  rreaders : gset Conn;
  writers : gset Conn;
  pingers : gset Conn;
  flushers : gmap Conn flusher;
  closed_done : gset Conn;
  used : gset Conn;
}.

Definition start : World := mkWorld newRelay ∅ ∅ ∅ ∅ ∅ ∅ ∅.

Inductive relay_event :=
| EvConnect (ws : Conn) (routable : string) (first : option Message)
| EvFlush (ws : Conn)
| EvWorkerMessage (ws : Conn) (echo_ok : bool) (msg : Message)
| EvWorkerReadError (ws : Conn)
| EvRouterMessage (ws : Conn) (writes : Conn -> bool) (order : list (string * Conn)) (msg : Message)
| EvRouterReadError (ws : Conn)
| EvWrite (ws : Conn) (ok : bool)
| EvWriterDone (ws : Conn)
| EvPing (ws : Conn) (ping : option Message)
| EvPingDone (ws : Conn).

Definition set_rl (r : Relay) (w : World) : World :=
  mkWorld r (wreaders w) (rreaders w) (writers w) (pingers w) (flushers w) (closed_done w) (used w).

(** [handleWS]: the first message decides what the connection is; [None] is a
    failed read. *)
Definition handleWS (ws : Conn) (routable : string) (first : option Message) (w : World) : World :=
  let u := {[ws]} ∪ used w in
  let rejected r := mkWorld r (wreaders w) (rreaders w) (writers w) (pingers w) (flushers w) (closed_done w) u in
  match first with
  | None => rejected (emit (CloseConn ws) (rl w))
  | Some msg =>
      match msg_Type msg with
      | MsgRegister =>
          match handleWorker ws routable msg (rl w) with
          | (r, Some id) => mkWorld r (<[ws := id]> (wreaders w)) (rreaders w) (writers w) (pingers w)
                              (<[ws := FlushStart]> (flushers w)) (closed_done w) u
          | (r, None) => rejected r
          end
      | MsgRouterReady =>
          mkWorld (handleRouter ws (rl w)) (wreaders w) ({[ws]} ∪ rreaders w) ({[ws]} ∪ writers w)
            (pingers w) (<[ws := FlushStart]> (flushers w)) (closed_done w) u
      | _ => rejected (emit (CloseConn ws) (rl w))
      end
  end.

(** A flush is at [next]; after its end the router's ping loop starts. *)
Definition set_flush (ws : Conn) (next : option flusher) (w : World) : World :=
  match next with
  | Some f =>
      mkWorld (rl w) (wreaders w) (rreaders w) (writers w) (pingers w) (<[ws := f]> (flushers w)) (closed_done w) (used w)
  | None =>
      mkWorld (rl w) (wreaders w) (rreaders w) (writers w)
        (if decide (ws ∈ rreaders w) then {[ws]} ∪ pingers w else pingers w)
        (delete ws (flushers w)) (closed_done w) (used w)
  end.

Definition flush_goes (ws : Conn) (f : flusher) (w : World) : World :=
  let '(r, next) := flush_step f (rl w) in set_flush ws next (set_rl r w).

(** The reader of a worker returns. *)
Definition worker_exit (ws : Conn) (id : string) (r : Relay) (w : World) : World :=
  mkWorld (workerGone id r) (delete ws (wreaders w)) (rreaders w) (writers w) (pingers w) (flushers w) (closed_done w) (used w).

(** The worker whose goroutine is in its read loop. *)
Definition reading_worker (w : World) (ws : Conn) : option string :=
  match flushers w !! ws with Some _ => None | None => wreaders w !! ws end.

(** What one event does; [None] when no goroutine can make it happen. *)
Definition exec (e : relay_event) (w : World) : option World :=
  match e with
  | EvConnect ws routable first =>
      if decide (ws ∈ used w) then None else Some (handleWS ws routable first w)
  | EvFlush ws =>
      match flushers w !! ws with
      | None => None
      | Some f => Some (flush_goes ws f w)
      end
  | EvWorkerMessage ws echo_ok msg =>
      match reading_worker w ws with
      | None => None
      | Some id =>
          match workerMessage ws id echo_ok msg (rl w) with
          | (r, true) => Some (set_rl r w)
          | (r, false) => Some (worker_exit ws id r w)
          end
      end
  | EvWorkerReadError ws =>
      match reading_worker w ws with
      | None => None
      | Some id => Some (worker_exit ws id (rl w) w)
      end
  | EvRouterMessage ws writes order msg =>
      if decide ((ws ∈ rreaders w /\ ~ is_Some (flushers w !! ws)) /\ order ≡ₚ map_to_list (workers (rl w)))
      then Some (set_rl (routerMessage writes order msg (rl w)) w) else None
  | EvRouterReadError ws =>
      if decide (ws ∈ rreaders w /\ ~ is_Some (flushers w !! ws))
      then Some (mkWorld (routerGone ws (rl w)) (wreaders w) (rreaders w ∖ {[ws]}) (writers w) (pingers w)
                   (flushers w) ({[ws]} ∪ closed_done w) (used w))
      else None
  | EvWrite ws ok =>
      if decide (ws ∈ writers w) then
        match writerStep ws ok (rl w) with
        | None => None
        | Some (r, true) => Some (set_rl r w)
        | Some (r, false) =>
            Some (mkWorld r (wreaders w) (rreaders w) (writers w ∖ {[ws]}) (pingers w) (flushers w) (closed_done w) (used w))
        end
      else None
  | EvWriterDone ws =>
      if decide (ws ∈ writers w /\ ws ∈ closed_done w)
      then Some (mkWorld (writer_deferred ws (rl w)) (wreaders w) (rreaders w) (writers w ∖ {[ws]}) (pingers w)
                   (flushers w) (closed_done w) (used w))
      else None
  | EvPing ws ping =>
      if decide (ws ∈ pingers w) then Some (set_rl (pingTick ping (rl w)) w) else None
  | EvPingDone ws =>
      if decide (ws ∈ pingers w /\ ws ∈ closed_done w)
      then Some (mkWorld (rl w) (wreaders w) (rreaders w) (writers w) (pingers w ∖ {[ws]}) (flushers w) (closed_done w) (used w))
      else None
  end.

Definition step (w w' : World) : Prop := exists e, exec e w = Some w'.

Fixpoint run (es : list relay_event) (w : World) : option World :=
  match es with
  | [] => Some w
  | e :: es => match exec e w with Some w' => run es w' | None => None end
  end.

Lemma run_reachable es w w' : run es w = Some w' -> rtc step w w'.
Proof.
  revert w. induction es as [|e es IH]; simpl; intros w H; [by simplify_eq|].
  destruct (exec e w) eqn:E; [|done]. eapply rtc_l; [by exists e|by apply IH].
Qed.

(** ** What every operation on the outbound side does

    [grows N r r'] : from [r] to [r'] the connections are the same, the bounds
    of the channels are kept, each router's stream (frames handed to the socket, then frames
    queued for it) grows at its end only, and a buffered message was buffered
    before or satisfies [N]. *)

Definition attempts (r : Relay) (c : Conn) : list (frame * bool) :=
  omap (fun o => match o with Attempt c' f ok => if decide (c' = c) then Some (f, ok) else None | _ => None end) (wire r).

Definition stream (r : Relay) (c : Conn) : list frame := map fst (attempts r c) ++ chan r c.

Definition bounded (r : Relay) : Prop := forall c, (length (chan r c) <= SendQueueSize)%nat.

Record grows (N : Message -> Prop) (r r' : Relay) : Prop := {
  gr_workers : workers r' = workers r;
  gr_conn : routerConn r' = routerConn r;
  gr_send : routerSendCh r' = routerSendCh r;
  gr_wire : exists os, wire r' = wire r ++ os /\ Forall (fun o => match o with Attempt _ _ _ => False | _ => True end) os;
  gr_stream : forall c, stream r c `prefix_of` stream r' c;
  gr_idle : forall c, routerSendCh r <> Some c -> chan r' c = chan r c;
  gr_bounded : bounded r -> bounded r';
  gr_new : forall m, m ∈ workerQueue r' -> m ∈ workerQueue r \/ N m;
}.

#[global] Instance grows_refl N : Reflexive (grows N).
Proof. intros r. split; eauto. exists []. by rewrite app_nil_r. Qed.

#[global] Instance grows_trans N : Transitive (grows N).
Proof.
  intros r1 r2 r3 [H1 H2 H3 (os & H4 & H4') H5 H6 H7 H8] [K1 K2 K3 (ks & K4 & K4') K5 K6 K7 K8]. split; [congruence..| | | | |].
  - exists (os ++ ks). rewrite K4, H4, (assoc_L (++)). split; [done|by apply Forall_app].
  - intros c. by transitivity (stream r2 c).
  - intros c Hc. rewrite K6 by congruence. by apply H6.
  - auto.
  - intros m [Hm|Hm]%K8; auto.
Qed.

Lemma grows_weaken (N N' : Message -> Prop) r r' : (forall m, N m -> N' m) -> grows N r r' -> grows N' r r'.
Proof. intros HN []. split; try done. intros m Hm. destruct (gr_new0 m Hm); auto. Qed.

Lemma attempts_app r r' os :
  wire r' = wire r ++ os -> Forall (fun o => match o with Attempt _ _ _ => False | _ => True end) os ->
  forall c, attempts r' c = attempts r c.
Proof.
  intros Hw Hos c. unfold attempts. rewrite Hw, omap_app.
  replace (omap _ os) with (@nil (frame * bool)); [by rewrite app_nil_r|].
  clear Hw. induction Hos as [|o os Ho _ IH]; [done|]. destruct o; [exact IH|destruct Ho|exact IH].
Qed.

Lemma grows_attempts N r r' : grows N r r' -> forall c, attempts r' c = attempts r c.
Proof. intros [_ _ _ (os & Hw & Hos) _ _ _ _]. by eapply attempts_app. Qed.

Lemma chan_set_chan c buf r c' : chan (set_chan c buf r) c' = if decide (c = c') then buf else chan r c'.
Proof.
  unfold chan, set_chan; simpl. case_decide; subst; [by rewrite lookup_insert_eq|by rewrite lookup_insert_ne].
Qed.

Lemma router_send_Some ch data r r' :
  chan_send ch data r = Some r' <->
  exists c, ch = Some c /\ (length (chan r c) < SendQueueSize)%nat /\ r' = set_chan c (chan r c ++ [data]) r.
Proof.
  unfold chan_send. destruct ch as [c|]; [|naive_solver].
  destruct (try_send _ _ _) as [buf|] eqn:E.
  - apply try_send_Some in E as [Hl ->]. naive_solver.
  - apply try_send_None in E. split; [done|]. intros (c' & [= ->] & ? & _). lia.
Qed.

Lemma router_send_None ch data r :
  chan_send ch data r = None <-> forall c, ch = Some c -> (SendQueueSize <= length (chan r c))%nat.
Proof.
  unfold chan_send. destruct ch as [c|]; [|naive_solver].
  destruct (try_send _ _ _) eqn:E; [apply try_send_Some in E|apply try_send_None in E]; naive_solver lia.
Qed.

Lemma chan_send_grows N data r r' : chan_send (routerSendCh r) data r = Some r' -> grows N r r'.
Proof.
  intros (c & Hc & Hl & ->)%router_send_Some. split; try done.
  - exists []. by rewrite app_nil_r.
  - intros c'. unfold stream. change (attempts (set_chan _ _ r) c') with (attempts r c').
    apply prefix_app. rewrite chan_set_chan. case_decide; subst; [by eexists|done].
  - intros c' Hc'. rewrite chan_set_chan. case_decide; [congruence|done].
  - intros Hch c'. rewrite chan_set_chan. case_decide; [rewrite length_app; simpl; lia|done].
  - auto.
Qed.

Lemma enqueue_grows N msg r : grows N r (fst (enqueueRouter msg r)).
Proof.
  unfold enqueueRouter. destruct (routerConn r); [|done]. destruct (marshal msg) as [data|]; [|done].
  destruct (chan_send _ _ _) eqn:E; [|done]. by eapply chan_send_grows.
Qed.

Lemma set_queue_grows (N : Message -> Prop) q r :
  (forall m, m ∈ q -> m ∈ workerQueue r \/ N m) -> grows N r (set_queue q r).
Proof.
  intros HN. split; try done. exists []. by rewrite app_nil_r.
Qed.

Lemma buffer_grows msg r : grows (eq msg) r (bufferWorkerMessage msg r).
Proof.
  apply set_queue_grows. intros m [Hm| ->%list_elem_of_singleton]%elem_of_app; [|by right].
  left. destruct (_ <=? _)%nat; [|done]. destruct (workerQueue r); [done|set_solver].
Qed.

Lemma emit_grows N o r : (match o with Attempt _ _ _ => False | _ => True end) -> grows N r (emit o r).
Proof.
  intros Ho. assert (Ha : forall c, attempts (emit o r) c = attempts r c).
  { eapply attempts_app; [done|]. by repeat constructor. }
  split; try done.
  - exists [o]. split; [done|by repeat constructor].
  - intros c. unfold stream. by rewrite Ha.
  - auto.
Qed.

(** *** Flushing *)

#[local] Arguments chan_send : simpl never.

(** The loop from the [k]-th message on, undisturbed: as many frames as the
    channel has room for, the rest back in the buffer. *)
Lemma flush_run_result c msgs k todo r fuel :
  todo = drop k msgs -> Forall (fun m => is_Some (marshal m)) todo -> (length todo < fuel)%nat ->
  let room := (SendQueueSize - length (chan r c))%nat in
  let r' := fst (flush_run fuel (FlushSending (Some c) msgs k todo) r) in
  chan r' c = chan r c ++ take room (omap marshal todo) /\
  workerQueue r' = workerQueue r ++ drop room todo.
Proof.
  revert k r fuel. induction todo as [|msg todo IH]; intros k r [|fuel] Hk Hm Hf; simpl in Hf; try lia; simpl.
  { by rewrite take_nil, drop_nil, !app_nil_r. }
  apply Forall_cons in Hm as [[data Hd] Hm]. rewrite !Hd.
  destruct (chan_send (Some c) data r) as [r2|] eqn:E.
  - apply router_send_Some in E as (c' & [= <-] & Hl & ->).
    assert (Htodo : todo = drop (S k) msgs).
    { by rewrite <-Nat.add_1_r, <-drop_drop, <-Hk. }
    destruct (IH (S k) (set_chan c (chan r c ++ [data]) r) fuel Htodo Hm) as [H1 H2]; [lia|].
    rewrite H1, H2, !chan_set_chan, decide_True by done. rewrite length_app. simpl.
    replace (SendQueueSize - length (chan r c))%nat
      with (S (SendQueueSize - (length (chan r c) + 1))) by lia.
    simpl. by rewrite <-(assoc_L (++)).
  - pose proof (proj1 (router_send_None _ _ _) E c eq_refl).
    replace (SendQueueSize - length (chan r c))%nat with 0%nat by lia.
    destruct fuel; [lia|]. simpl. by rewrite app_nil_r, <-Hk.
Qed.

(** The fuel of an undisturbed call is enough. *)
Lemma flush_run_ends ch msgs k todo r fuel :
  (length todo < fuel)%nat -> snd (flush_run fuel (FlushSending ch msgs k todo) r) = None.
Proof.
  revert k r fuel. induction todo as [|msg todo IH]; intros k r [|fuel] Hf; simpl in Hf; try lia; [done|].
  simpl. destruct (marshal msg) as [data|]; [|by apply IH; lia].
  destruct (chan_send _ _ _); [by apply IH; lia|]. by destruct fuel; [lia|].
Qed.

Lemma flushBufferedMessages_ends r : snd (flush_run (3 + length (workerQueue r)) FlushStart r) = None.
Proof.
  simpl. destruct (routerConn r); [|done]. simpl. destruct (workerQueue r) eqn:E; [done|].
  apply (flush_run_ends _ _ _ _ _ (S (length (m :: l)))). lia.
Qed.

(** One step, whatever happened since the step before: the connections stay,
    and it sends on the channel of its snapshot or changes the buffer only. *)
Variant flush_moves (r : Relay) (f : flusher) : Relay -> option flusher -> Prop :=
| moves_still next : flush_moves r f r next
| moves_send c msgs k msg todo data :
    f = FlushSending (Some c) msgs k (msg :: todo) -> marshal msg = Some data ->
    (length (chan r c) < SendQueueSize)%nat ->
    flush_moves r f (set_chan c (chan r c ++ [data]) r) (Some (FlushSending (Some c) msgs (S k) todo))
| moves_take ch :
    f = FlushSnapped ch ->
    flush_moves r f (set_queue [] r) (Some (FlushSending ch (workerQueue r) 0 (workerQueue r)))
| moves_rest rest : f = FlushRest rest -> flush_moves r f (set_queue (workerQueue r ++ rest) r) None.

Lemma flush_step_moves f r : let '(r', next) := flush_step f r in flush_moves r f r' next.
Proof.
  destruct f as [|ch|ch msgs k [|msg todo]|rest]; simpl; try (by constructor).
  - destruct (routerConn r); constructor.
  - destruct (workerQueue r) eqn:E; [constructor|]. rewrite <-E. by apply (moves_take r _ ch).
  - destruct (marshal msg) as [data|] eqn:Ed; [|constructor].
    destruct (chan_send _ _ _) eqn:E; [|constructor].
    apply router_send_Some in E as (c & -> & Hl & ->). by eapply moves_send.
Qed.

(** *** What the handlers do, up to the outbound side *)

Definition no_msg (_ : Message) : Prop := False.

(** Handing a worker's message on: to the channel, or else to the buffer. *)
Lemma handleWorker_Some ws routable msg r r' id :
  handleWorker ws routable msg r = (r', Some id) ->
  id <> "" /\ grows (fun m => msg_WorkerID m = id) (set_workers (<[id := ws]> (workers r)) r) r'.
Proof.
  unfold handleWorker. destruct (DecodePayload _ _ _) as [reg|]; [|done].
  destruct (decide (wi_ID (rp_Worker reg) = "")) as [He|He]; intros [= <- <-]; split; [done|].
  set (m := rewrite_register _ _ _). set (r0 := set_workers _ _).
  assert (Hm : msg_WorkerID m = wi_ID (rp_Worker reg)) by done.
  assert (Hb : forall r1, grows (fun m => msg_WorkerID m = wi_ID (rp_Worker reg)) r0 r1 ->
    grows (fun m => msg_WorkerID m = wi_ID (rp_Worker reg)) r0 (bufferWorkerMessage m r1)).
  { intros r1 H1. etransitivity; [done|]. eapply grows_weaken; [|apply buffer_grows]. by intros ? <-. }
  destruct (routerConn r); [|by apply Hb].
  pose proof (enqueue_grows (fun m => msg_WorkerID m = wi_ID (rp_Worker reg)) m r0) as Hs.
  unfold sendToRouter. destruct (enqueueRouter m r0) as [r1 [e|]]; [by apply Hb|done].
Qed.

Lemma handleWorker_None ws routable msg r r' :
  handleWorker ws routable msg r = (r', None) -> r' = emit (CloseConn ws) r.
Proof. unfold handleWorker. intros H. repeat case_match; by simplify_eq. Qed.

Lemma workerMessage_grows ws id echo_ok msg r :
  grows (fun m => msg_WorkerID m = id) r (fst (workerMessage ws id echo_ok msg r)).
Proof.
  unfold workerMessage. set (beat := bool_decide _). destruct (beat && negb echo_ok); [done|].
  set (r1 := if beat then _ else r).
  assert (Hr : grows (fun m => msg_WorkerID m = id) r r1) by (unfold r1; case_if; [by apply emit_grows|done]).
  destruct (routerConn r1); simpl; (etransitivity; [exact Hr|]).
  - apply enqueue_grows.
  - eapply grows_weaken; [|apply buffer_grows]. by intros ? <-.
Qed.

Lemma write_worker_grows writes msg c r : grows no_msg r (write_worker writes msg c r).
Proof. unfold write_worker. case_if; [by apply emit_grows|done]. Qed.

Lemma routerMessage_grows writes order msg r : grows no_msg r (routerMessage writes order msg r).
Proof.
  unfold routerMessage, forwardToWorker, broadcastToWorkers.
  destruct (decide _); [destruct (_ !! _); [apply write_worker_grows|done]|].
  generalize (map snd order). intros cs. revert r. induction cs as [|c cs IH]; intros r; simpl; [done|].
  etransitivity; [apply write_worker_grows|apply IH].
Qed.

Lemma pingTick_grows ping r : grows no_msg r (pingTick ping r).
Proof. destruct ping; simpl; [apply enqueue_grows|done]. Qed.

(** ** The invariant of the relay *)

(** Writes succeed but perhaps for the last. *)
Definition only_last_fails (l : list (frame * bool)) : Prop := Forall (fun a => a.2 = true) (removelast l).

Definition stamped (m : Message) : Prop := msg_WorkerID m <> "".

(** A flush holds stamped messages, sends on a channel of an accepted
    connection, and has yet to send a part of what it took. *)
Definition flusher_ok (U : gset Conn) (f : flusher) : Prop :=
  match f with
  | FlushStart => True
  | FlushSnapped ch => forall c, ch = Some c -> c ∈ U
  | FlushSending ch msgs k todo =>
      (forall c, ch = Some c -> c ∈ U) /\ Forall stamped msgs /\ exists j, (k <= j)%nat /\ todo = drop j msgs
  | FlushRest rest => Forall stamped rest
  end.

Record wf (w : World) : Prop := {
  wf_bounded : bounded (rl w);
  wf_stamped : forall m, m ∈ workerQueue (rl w) -> stamped m;
  wf_flush : forall c f, flushers w !! c = Some f ->
    flusher_ok (used w) f /\ (is_Some (wreaders w !! c) \/ c ∈ rreaders w) /\ c ∉ pingers w;
  wf_workers : forall id c, workers (rl w) !! id = Some c -> wreaders w !! c = Some id;
  wf_wreaders : forall c id, wreaders w !! c = Some id -> id <> "" /\ c ∈ used w;
  wf_router : forall c, routerConn (rl w) = Some c -> c ∈ rreaders w;
  wf_send : forall c, routerSendCh (rl w) = Some c -> c ∈ writers w;
  wf_pair : forall c c', routerConn (rl w) = Some c -> routerSendCh (rl w) = Some c' -> c' = c;
  wf_used : forall c, c ∈ rreaders w \/ c ∈ writers w \/ c ∈ pingers w \/ c ∈ closed_done w -> c ∈ used w;
  wf_done : forall c, c ∈ rreaders w -> c ∉ closed_done w;
  wf_live : forall c, c ∈ writers w -> Forall (fun a => a.2 = true) (attempts (rl w) c);
  wf_last : forall c, only_last_fails (attempts (rl w) c);
  wf_unused : forall c, c ∉ used w -> stream (rl w) c = [];
}.

Lemma wf_start : wf start.
Proof.
  split; try done; try set_solver.
  - intros c. unfold chan. simpl. rewrite lookup_empty. simpl. lia.
  - intros c. constructor.
Qed.

Lemma flusher_ok_mono U U' f : U ⊆ U' -> flusher_ok U f -> flusher_ok U' f.
Proof. intros HU. destruct f; simpl; set_solver. Qed.

(** The outbound side of a handler keeps the invariant. *)
Lemma wf_grows N w r :
  wf w -> grows N (rl w) r -> (forall m, N m -> stamped m) -> wf (set_rl r w).
Proof.
  intros [] Hg HN. pose proof (grows_attempts _ _ _ Hg) as Ha. destruct Hg.
  split; simpl; rewrite ?gr_workers0, ?gr_conn0, ?gr_send0; auto.
  - intros m [Hm|Hm]%gr_new0; auto.
  - intros c Hc. rewrite Ha. auto.
  - intros c. rewrite Ha. auto.
  - intros c Hc. pose proof (wf_unused0 c Hc) as Hs. unfold stream in *. rewrite Ha.
    apply app_eq_nil in Hs as [-> Hn]. simpl. rewrite gr_idle0; [done|].
    intros Hs%wf_send0. apply Hc, wf_used0. auto.
Qed.

(** Facts the events share. *)
Lemma wf_emit_used w o ws :
  wf w -> (match o with Attempt _ _ _ => False | _ => True end) ->
  wf (mkWorld (emit o (rl w)) (wreaders w) (rreaders w) (writers w) (pingers w) (flushers w) (closed_done w) ({[ws]} ∪ used w)).
Proof.
  intros Hw Ho. pose proof (wf_grows no_msg w (emit o (rl w)) Hw (emit_grows _ _ _ Ho) ltac:(done)) as [].
  split; simpl in *; auto.
  - intros c f (? & ? & ?)%wf_flush0. split_and!; try done. eapply flusher_ok_mono; [|done]. set_solver.
  - intros c id [? ?]%wf_wreaders0. set_solver.
  - set_solver.
  - intros c Hc. apply wf_unused0. set_solver.
Qed.

Lemma wf_register w ws id :
  wf w -> ws ∉ used w -> id <> "" ->
  wf (mkWorld (set_workers (<[id := ws]> (workers (rl w))) (rl w)) (<[ws := id]> (wreaders w)) (rreaders w)
        (writers w) (pingers w) (<[ws := FlushStart]> (flushers w)) (closed_done w) ({[ws]} ∪ used w)).
Proof.
  intros [] Hf Hid. split; simpl; auto.
  - intros c f. destruct (decide (c = ws)) as [->|Hne].
    + rewrite !lookup_insert_eq. intros [= <-]. split_and!; [done|by left; eexists|].
      intros Hp. apply Hf, wf_used0. auto.
    + rewrite !lookup_insert_ne by done. intros (? & ? & ?)%wf_flush0. split_and!; try done.
      eapply flusher_ok_mono; [|done]. set_solver.
  - intros id' c. destruct (decide (id' = id)) as [->|Hne].
    + rewrite lookup_insert_eq. intros [= ->]. by rewrite lookup_insert_eq.
    + rewrite lookup_insert_ne by done. intros Hc%wf_workers0.
      rewrite lookup_insert_ne; [done|]. intros ->. by apply wf_wreaders0 in Hc as [_ ?].
  - intros c id'. destruct (decide (c = ws)) as [->|Hne].
    + rewrite lookup_insert_eq. intros [= ->]. set_solver.
    + rewrite lookup_insert_ne by done. intros [? ?]%wf_wreaders0. set_solver.
  - set_solver.
  - intros c Hc. apply wf_unused0. set_solver.
Qed.

Lemma attempts_published ws r c : attempts (handleRouter ws r) c = attempts r c.
Proof.
  unfold handleRouter. destruct (routerConn r) as [old|]; [|done].
  change (attempts (emit (CloseConn old) r) c = attempts r c).
  eapply attempts_app; [done|]. by repeat constructor.
Qed.

Lemma chan_published ws r c : chan (handleRouter ws r) c = if decide (ws = c) then [] else chan r c.
Proof. unfold handleRouter. rewrite chan_set_chan. case_decide; [done|]. by destruct (routerConn r). Qed.

Lemma wf_published w ws :
  wf w -> ws ∉ used w ->
  wf (mkWorld (handleRouter ws (rl w)) (wreaders w) ({[ws]} ∪ rreaders w) ({[ws]} ∪ writers w)
        (pingers w) (<[ws := FlushStart]> (flushers w)) (closed_done w) ({[ws]} ∪ used w)).
Proof.
  intros [] Hf.
  assert (Hst : attempts (rl w) ws = []).
  { pose proof (wf_unused0 ws Hf) as Hs. apply app_eq_nil in Hs as [Hs _]. by apply map_eq_nil in Hs. }
  assert (Hsame : workers (handleRouter ws (rl w)) = workers (rl w) /\
                  workerQueue (handleRouter ws (rl w)) = workerQueue (rl w) /\
                  routerConn (handleRouter ws (rl w)) = Some ws /\
                  routerSendCh (handleRouter ws (rl w)) = Some ws).
  { unfold handleRouter. by destruct (routerConn (rl w)). }
  destruct Hsame as (Hws & Hq & Hc1 & Hc2).
  pose proof (attempts_published ws (rl w)) as Ha. pose proof (chan_published ws (rl w)) as Hch.
  generalize dependent (handleRouter ws (rl w)). intros r Hws Hq Hc1 Hc2 Ha Hch.
  split; simpl; rewrite ?Hws, ?Hq, ?Hc1, ?Hc2.
  - intros c. rewrite Hch. case_decide; simpl; [lia|done].
  - exact wf_stamped0.
  - intros c f. destruct (decide (c = ws)) as [->|Hne].
    + rewrite !lookup_insert_eq. intros [= <-]. split_and!; [done|right; set_solver|].
      intros Hp. apply Hf, wf_used0. auto.
    + rewrite !lookup_insert_ne by done. intros (? & ? & ?)%wf_flush0. split_and!; [|set_solver|done].
      eapply flusher_ok_mono; [|done]. set_solver.
  - exact wf_workers0.
  - intros c id Hc. destruct (wf_wreaders0 c id Hc). set_solver.
  - set_solver.
  - set_solver.
  - congruence.
  - intros c Hc. destruct (decide (c = ws)); [set_solver|]. specialize (wf_used0 c). set_solver.
  - intros c Hc Hd. specialize (wf_used0 c). specialize (wf_done0 c). set_solver.
  - intros c Hc. rewrite Ha. destruct (decide (c = ws)) as [->|]; [by rewrite Hst|].
    apply wf_live0. set_solver.
  - intros c. by rewrite Ha.
  - intros c Hc. unfold stream. rewrite Ha, Hch. case_decide; [set_solver|].
    apply wf_unused0. set_solver.
Qed.

Lemma reading_Some w ws id :
  reading_worker w ws = Some id <-> wreaders w !! ws = Some id /\ flushers w !! ws = None.
Proof. unfold reading_worker. destruct (flushers w !! ws); naive_solver. Qed.

Lemma wf_worker_exit w ws id :
  wf w -> reading_worker w ws = Some id -> wf (worker_exit ws id (rl w) w).
Proof.
  intros [] Hid. apply reading_Some in Hid as [Hid Hnf]. split; simpl; auto.
  - intros c f Hc. pose proof (wf_flush0 _ _ Hc) as (? & ? & ?). split_and!; try done.
    rewrite lookup_delete_ne by congruence. done.
  - intros id' c. rewrite lookup_delete_Some. intros [Hne Hc].
    apply wf_workers0 in Hc. rewrite lookup_delete_ne; [done|]. intros ->. congruence.
  - intros c id' [_ Hc]%lookup_delete_Some. eauto.
Qed.

Lemma wf_routerGone w ws :
  wf w -> ws ∈ rreaders w -> ~ is_Some (flushers w !! ws) ->
  wf (mkWorld (routerGone ws (rl w)) (wreaders w) (rreaders w ∖ {[ws]}) (writers w) (pingers w)
        (flushers w) ({[ws]} ∪ closed_done w) (used w)).
Proof.
  intros Hw Hws Hnf.
  assert (Hu : forall c, c ∈ rreaders w ∖ {[ws]} \/ c ∈ writers w \/ c ∈ pingers w \/ c ∈ {[ws]} ∪ closed_done w -> c ∈ used w).
  { intros c Hc. apply (wf_used _ Hw). set_solver. }
  assert (Hd : forall c, c ∈ rreaders w ∖ {[ws]} -> c ∉ {[ws]} ∪ closed_done w).
  { intros c Hc. pose proof (wf_done _ Hw c). set_solver. }
  pose proof (wf_grows no_msg w (emit (CloseConn ws) (rl w)) Hw ltac:(by apply emit_grows) ltac:(done)) as [].
  simpl in *. unfold routerGone.
  assert (Hfl : forall c f, flushers w !! c = Some f ->
    flusher_ok (used w) f /\ (is_Some (wreaders w !! c) \/ c ∈ rreaders w ∖ {[ws]}) /\ c ∉ pingers w).
  { intros c f Hc. pose proof (wf_flush0 c f Hc) as (? & Hr & ?). split_and!; try done.
    destruct Hr as [|Hr]; [by left|right]. apply elem_of_difference. split; [done|].
    intros ->%elem_of_singleton. apply Hnf. by eexists. }
  destruct (decide (routerConn (rl w) = Some ws)) as [He|Hne]; split; simpl in *; auto; [done..|].
  intros c Hc. apply elem_of_difference. split; [auto|]. rewrite elem_of_singleton. congruence.
Qed.

(** *** The writer goroutine *)

Lemma attempts_snoc ws data ok r c buf :
  attempts (emit (Attempt ws data ok) (set_chan ws buf r)) c =
  attempts r c ++ (if decide (ws = c) then [(data, ok)] else []).
Proof. unfold attempts. simpl. rewrite omap_app. simpl. by case_decide. Qed.

Lemma attempts_close ws r c : attempts (emit (CloseConn ws) r) c = attempts r c.
Proof. eapply attempts_app; [done|]. by repeat constructor. Qed.

Lemma attempts_deferred ws r c : attempts (writer_deferred ws r) c = attempts r c.
Proof. unfold writer_deferred. by case_decide. Qed.

Lemma chan_deferred ws r c : chan (writer_deferred ws r) c = chan r c.
Proof. unfold writer_deferred. by case_decide. Qed.

(** The frame written is the head of the queue: the stream does not move. *)
Lemma writerStep_stream ws ok r r' b :
  writerStep ws ok r = Some (r', b) -> forall c, stream r' c = stream r c.
Proof.
  unfold writerStep. destruct (chan r ws) as [|data rest] eqn:E; [done|].
  intros H c.
  assert (Hr : stream (emit (Attempt ws data ok) (set_chan ws rest r)) c = stream r c).
  { unfold stream. rewrite attempts_snoc, map_app.
    change (chan (emit ?o ?r) c) with (chan r c). rewrite chan_set_chan.
    case_decide; subst; simpl; [by rewrite E, <-(assoc_L (++))|by rewrite app_nil_r]. }
  destruct ok; simplify_eq; [done|].
  unfold stream in *. by rewrite attempts_deferred, chan_deferred, attempts_close.
Qed.

Lemma only_last_snoc l a : Forall (fun a => a.2 = true) l -> only_last_fails (l ++ [a]).
Proof. unfold only_last_fails. by rewrite removelast_last. Qed.

(** One write of a live writer: the bounds hold, and only a failed write, which
    ends the writer, leaves a failed attempt behind. *)
Lemma wf_write w ws data rest ok :
  wf w -> ws ∈ writers w -> chan (rl w) ws = data :: rest ->
  let r := emit (Attempt ws data ok) (set_chan ws rest (rl w)) in
  bounded r /\ (forall c, only_last_fails (attempts r c)) /\
  (forall c, c ∈ writers w -> c <> ws \/ ok = true -> Forall (fun a => a.2 = true) (attempts r c)).
Proof.
  intros [] Hws Hch r. repeat split.
  - intros c. change (chan r c) with (chan (set_chan ws rest (rl w)) c). rewrite chan_set_chan.
    case_decide; [|done]. specialize (wf_bounded0 ws). rewrite Hch in wf_bounded0. simpl in *. lia.
  - intros c. unfold r. rewrite attempts_snoc. case_decide; [|by rewrite app_nil_r].
    subst. by apply only_last_snoc, wf_live0.
  - intros c Hc Hok. unfold r. rewrite attempts_snoc. case_decide; [|rewrite app_nil_r; auto].
    subst. destruct Hok as [|Hok]; [done|]. rewrite Forall_app, Forall_singleton. auto.
Qed.

Lemma writer_ends w ws (r : Relay) :
  wf w -> bounded r -> workers r = workers (rl w) -> workerQueue r = workerQueue (rl w) ->
  routerConn r = routerConn (rl w) -> routerSendCh r = routerSendCh (rl w) ->
  (forall c, only_last_fails (attempts r c)) ->
  (forall c, c ∈ writers w -> c <> ws -> Forall (fun a => a.2 = true) (attempts r c)) ->
  (forall c, stream r c = stream (rl w) c) ->
  wf (mkWorld (writer_deferred ws r) (wreaders w) (rreaders w) (writers w ∖ {[ws]}) (pingers w)
        (flushers w) (closed_done w) (used w)).
Proof.
  intros [] Hb Hw Hq Hc Hs Hl Hf Hst.
  assert (Hd : workers (writer_deferred ws r) = workers (rl w) /\
    workerQueue (writer_deferred ws r) = workerQueue (rl w) /\
    routerConn (writer_deferred ws r) = routerConn (rl w) /\
    forall c, routerSendCh (writer_deferred ws r) = Some c -> routerSendCh (rl w) = Some c /\ c <> ws).
  { unfold writer_deferred. case_decide; simpl; repeat split; naive_solver congruence. }
  pose proof (attempts_deferred ws r) as Ha. pose proof (chan_deferred ws r) as Hch.
  generalize dependent (writer_deferred ws r). intros r' (Hw' & Hq' & Hc' & Hs') Ha Hch.
  split; simpl; rewrite ?Hw', ?Hq', ?Hc'; try done.
  - intros c. rewrite Hch. apply Hb.
  - intros c [Hc1 Hc2]%Hs'. specialize (wf_send0 c). set_solver.
  - intros c c' ? [? _]%Hs'. eauto.
  - intros c Hcc. apply wf_used0. set_solver.
  - intros c Hcc. rewrite Ha. apply Hf; set_solver.
  - intros c. by rewrite Ha.
  - intros c Hcc. unfold stream. rewrite Ha, Hch. change (stream r c = []). rewrite Hst. auto.
Qed.

Lemma wf_EvWrite w w' ws ok : wf w -> exec (EvWrite ws ok) w = Some w' -> wf w'.
Proof.
  intros Hw. simpl. case_decide as Hws; [|done]. 
  destruct (writerStep ws ok (rl w)) as [[r b]|] eqn:E; [|done].
  pose proof (writerStep_stream _ _ _ _ _ E) as Hst. unfold writerStep in E.
  destruct (chan (rl w) ws) as [|data rest] eqn:Ech; [done|].
  destruct (wf_write w ws data rest ok Hw Hws Ech) as (H1 & H2 & H3).
  destruct ok; simplify_eq; intros [= <-].
  - destruct Hw. split; simpl; auto. intros c Hc. rewrite Hst. auto.
  - eapply writer_ends; try done.
    + intros c. rewrite attempts_close. apply H2.
    + intros c Hc Hne. rewrite attempts_close. auto.
    + intros c. rewrite <-Hst. unfold stream. by rewrite attempts_deferred, chan_deferred.
Qed.

(** *** A step of a flush *)

Lemma wf_set_queue w q :
  wf w -> (forall m, m ∈ q -> stamped m) -> wf (set_rl (set_queue q (rl w)) w).
Proof.
  intros Hw Hq. apply (wf_grows stamped); [done| |done]. apply set_queue_grows. auto.
Qed.

Lemma wf_chan_send w c data :
  wf w -> c ∈ used w -> (length (chan (rl w) c) < SendQueueSize)%nat ->
  wf (set_rl (set_chan c (chan (rl w) c ++ [data]) (rl w)) w).
Proof.
  intros [] Hc Hl. split; simpl; auto.
  - intros c'. rewrite chan_set_chan. case_decide; [rewrite length_app; simpl; lia|done].
  - intros c' Hc'. unfold stream. rewrite chan_set_chan, decide_False by congruence. by apply wf_unused0.
Qed.

Lemma wf_set_flush w ws f next :
  wf w -> flushers w !! ws = Some f -> (forall f', next = Some f' -> flusher_ok (used w) f') ->
  wf (set_flush ws next w).
Proof.
  intros [] Hf Hn. destruct (wf_flush0 _ _ Hf) as (_ & Hr & Hp). destruct next as [f'|]; simpl.
  - split; simpl; auto. intros c f1. destruct (decide (c = ws)) as [->|Hne].
    + rewrite lookup_insert_eq. intros [= <-]. auto.
    + rewrite lookup_insert_ne by done. auto.
  - split; simpl; auto.
    + intros c f1 [Hne Hc]%lookup_delete_Some. apply wf_flush0 in Hc as (? & ? & ?). split_and!; try done.
      case_decide; set_solver.
    + intros c Hc. assert (c = ws /\ ws ∈ rreaders w \/ c ∈ rreaders w \/ c ∈ writers w \/ c ∈ pingers w \/ c ∈ closed_done w) as [[-> ?]|?]; [|auto..].
      case_decide; set_solver.
Qed.

Lemma wf_flush_goes w ws f : wf w -> flushers w !! ws = Some f -> wf (flush_goes ws f w).
Proof.
  intros Hw Hf. pose proof (wf_flush _ Hw _ _ Hf) as [Hok _].
  assert (Hset : forall r next, wf (set_rl r w) -> (forall f', next = Some f' -> flusher_ok (used w) f') ->
    wf (set_flush ws next (set_rl r w))) by (intros r next Hwr; by apply (wf_set_flush (set_rl r w) ws f)).
  unfold flush_goes. destruct f as [|ch|ch msgs k [|msg todo]|rest]; cbn [flush_step flusher_ok] in *.
  - destruct (routerConn (rl w)); apply Hset; try by destruct w. intros f' [= <-] c Hc.
    apply (wf_used _ Hw). right. left. by apply (wf_send _ Hw).
  - destruct (workerQueue (rl w)) as [|m q] eqn:E; apply Hset; try by destruct w.
    + apply wf_set_queue; [done|set_solver].
    + intros f' [= <-]. split_and!; [done| |by exists 0%nat].
      rewrite Forall_forall, <-E. apply (wf_stamped _ Hw).
  - apply Hset; [by destruct w|done].
  - destruct Hok as (Hch & Hst & j & Hkj & Htodo).
    assert (Hnext : todo = drop (S j) msgs) by (by rewrite <-Nat.add_1_r, <-drop_drop, <-Htodo).
    destruct (marshal msg) as [data|].
    + destruct (chan_send ch data (rl w)) as [r|] eqn:E; apply Hset; try by destruct w.
      * apply router_send_Some in E as (c & -> & Hl & ->). apply wf_chan_send; auto.
      * intros f' [= <-]. split_and!; try done. exists (S j). split; [lia|done].
      * intros f' [= <-]. by apply Forall_drop.
    + apply Hset; [by destruct w|]. intros f' [= <-]. split_and!; try done. exists (S j). split; [lia|done].
  - apply Hset; [|done]. apply wf_set_queue; [done|]. rewrite Forall_forall in Hok.
    intros m [Hm|Hm]%elem_of_app; [by apply (wf_stamped _ Hw)|auto].
Qed.

Lemma wf_event e w w' : wf w -> exec e w = Some w' -> wf w'.
Proof.
  destruct e as [ws routable first|ws|ws echo_ok msg|ws|ws wr order msg|ws|ws ok|ws|ws ping|ws]; intros Hw.
  - simpl. case_decide as Hf; [done|]. intros [= <-]. unfold handleWS.
    destruct first as [msg|]; [|by apply wf_emit_used].
    destruct (msg_Type msg); try by apply wf_emit_used.
    + destruct (handleWorker ws routable msg (rl w)) as [r [id|]] eqn:E.
      * apply handleWorker_Some in E as [Hid Hg].
        pose proof (wf_grows _ _ _ (wf_register w ws id Hw Hf Hid) Hg) as Hwf. apply Hwf. by intros m <-.
      * apply handleWorker_None in E as ->. by apply wf_emit_used.
    + by apply wf_published.
  - simpl. destruct (flushers w !! ws) as [f|] eqn:Hf; [|done]. intros [= <-]. by apply wf_flush_goes.
  - simpl. destruct (reading_worker w ws) as [id|] eqn:Hid; [|done].
    pose proof (workerMessage_grows ws id echo_ok msg (rl w)) as Hg.
    destruct (workerMessage ws id echo_ok msg (rl w)) as [r b]. simpl in Hg.
    assert (Hwf : wf (set_rl r w)).
    { eapply wf_grows; [done..|]. unfold stamped. intros m ->. apply reading_Some in Hid as [Hid _].
      by destruct (wf_wreaders _ Hw _ _ Hid). }
    destruct b; intros [= <-]; [done|]. by apply (wf_worker_exit (set_rl r w)).
  - simpl. destruct (reading_worker w ws) as [id|] eqn:Hid; [|done]. intros [= <-]. by apply wf_worker_exit.
  - simpl. case_decide; [|done]. intros [= <-]. eapply wf_grows; [done|apply routerMessage_grows|done].
  - simpl. case_decide as Hc; [|done]. intros [= <-]. by apply wf_routerGone; [|destruct Hc..].
  - by apply wf_EvWrite.
  - simpl. case_decide as Hc; [|done]. intros [= <-]. eapply writer_ends; try done; apply Hw || idtac.
    intros c Hcw _. by apply Hw.
  - simpl. case_decide; [|done]. intros [= <-]. eapply wf_grows; [done|apply pingTick_grows|done].
  - simpl. case_decide as Hc; [|done]. intros [= <-]. destruct Hw. split; simpl; auto.
    + intros c f (? & ? & ?)%wf_flush0. split_and!; [done..|set_solver].
    + intros c Hcc. apply wf_used0. set_solver.
Qed.

Lemma wf_reachable w : rtc step start w -> wf w.
Proof. apply rtc_invariant; [|apply wf_start]. intros a b Ha [e He]. by eapply wf_event. Qed.

(** ** Theorems *)

Lemma exec_stream e w w' :
  wf w -> exec e w = Some w' -> forall c, stream (rl w) c `prefix_of` stream (rl w') c.
Proof.
  intros Hw He c. revert He. destruct e as [ws routable first|ws|ws echo_ok msg|ws|ws wr order msg|ws|ws ok|ws|ws ping|ws]; simpl.
  - case_decide as Hf; [done|]. intros [= <-]. unfold handleWS.
    assert (Hrej : forall r, grows no_msg (rl w) r -> stream (rl w) c `prefix_of` stream r c) by (by intros r []).
    destruct first as [msg|]; [|by apply Hrej, emit_grows].
    destruct (msg_Type msg); try by apply Hrej, emit_grows.
    + destruct (handleWorker ws routable msg (rl w)) as [r [id|]] eqn:E.
      * apply handleWorker_Some in E as [_ Hg]. exact (gr_stream _ _ _ Hg c).
      * apply handleWorker_None in E as ->. by apply Hrej, emit_grows.
    + change (stream (rl w) c `prefix_of` stream (handleRouter ws (rl w)) c).
      unfold stream. rewrite attempts_published, chan_published.
      case_decide; [|done]. subst. change (stream (rl w) c `prefix_of` map fst (attempts (rl w) c) ++ []).
      rewrite (wf_unused _ Hw) by done. apply prefix_nil.
  - destruct (flushers w !! ws) as [f|]; [|done]. intros [= <-]. unfold flush_goes.
    pose proof (flush_step_moves f (rl w)) as Hm. destruct (flush_step f (rl w)) as [r next].
    assert (Hs : stream (rl w) c `prefix_of` stream r c).
    { destruct Hm as [|c' ? ? ? ? data|ch|rest]; [done| |done|done]. unfold stream. rewrite chan_set_chan.
      case_decide; [|done]. subst. apply prefix_app. by eexists. }
    by destruct next.
  - destruct (reading_worker w ws) as [id|]; [|done].
    pose proof (workerMessage_grows ws id echo_ok msg (rl w)) as [_ _ _ _ Hs _ _ _].
    destruct (workerMessage ws id echo_ok msg (rl w)) as [r [|]]; intros [= <-]; apply Hs.
  - destruct (reading_worker w ws); [|done]. by intros [= <-].
  - case_decide; [|done]. intros [= <-]. apply routerMessage_grows.
  - case_decide; [|done]. intros [= <-]. simpl. unfold routerGone.
    change (stream (rl w) c `prefix_of` stream (emit (CloseConn ws) (if decide (routerConn (rl w) = Some ws) then set_router None (rl w) else rl w)) c).
    etransitivity; [|apply (emit_grows no_msg); done]. by case_decide.
  - case_decide; [|done]. destruct (writerStep ws ok (rl w)) as [[r b]|] eqn:E; [|done].
    pose proof (writerStep_stream _ _ _ _ _ E c) as Hs. destruct b; intros [= <-]; simpl; by rewrite Hs.
  - case_decide; [|done]. intros [= <-]. simpl. unfold stream. by rewrite attempts_deferred, chan_deferred.
  - case_decide; [|done]. intros [= <-]. apply pingTick_grows.
  - case_decide; [|done]. by intros [= <-].
Qed.

Lemma enqueue_chans m r r' :
  routerConn r <> None -> r' = fst (enqueueRouter m r) ->
  workers r' = workers r /\ wire r' = wire r /\ workerQueue r' = workerQueue r /\
  forall c, chan r' c = chan r c ++
    (if decide (routerSendCh r = Some c /\ (length (chan r c) < SendQueueSize)%nat)
     then option_list (marshal m) else []).
Proof.
  intros Hc ->. unfold enqueueRouter. destruct (routerConn r); [|done].
  destruct (marshal m) as [data|]; simpl; [|split_and!; [done..|intros c; case_decide; by rewrite app_nil_r]].
  destruct (chan_send (routerSendCh r) data r) as [r'|] eqn:E; simpl.
  - apply router_send_Some in E as (c & Hs & Hl & ->). split_and!; try done.
    intros c'. rewrite chan_set_chan. destruct (decide (c = c')) as [->|Hne].
    + by rewrite decide_True.
    + rewrite decide_False, app_nil_r; [done|]. rewrite Hs. naive_solver.
  - split_and!; try done. intros c. rewrite decide_False, app_nil_r; [done|].
    intros [Hs Hl]. pose proof (proj1 (router_send_None _ _ _) E c Hs). lia.
Qed.

(** The buffer with one message more: at its cap it forgets its oldest one. *)
Definition buffered (m : Message) (q : list Message) : list Message :=
  (if decide (SendQueueSize <= length q)%nat then tail q else q) ++ [m].

Lemma buffer_queue m r : workerQueue (bufferWorkerMessage m r) = buffered m (workerQueue r).
Proof.
  unfold bufferWorkerMessage, buffered. cbn [workerQueue set_queue].
  destruct (Nat.leb_spec SendQueueSize (length (workerQueue r))); case_decide; done || lia.
Qed.

(** The end of an iteration of [workerReadLoop]. *)
Lemma handed_on m r0 r' alive :
  match routerConn r0 with
  | Some _ => (fst (sendToRouter m r0), true)
  | None => (bufferWorkerMessage m r0, true)
  end = (r', alive) ->
  alive = true /\ workers r' = workers r0 /\ wire r' = wire r0 /\
  (routerConn r0 = None -> chans r' = chans r0 /\
     workerQueue r' = buffered m (workerQueue r0)) /\
  (routerConn r0 <> None -> workerQueue r' = workerQueue r0 /\
     forall c, chan r' c = chan r0 c ++
       (if decide (routerSendCh r0 = Some c /\ (length (chan r0 c) < SendQueueSize)%nat)
        then option_list (marshal m) else [])).
Proof.
  intros H. pose proof (buffer_queue m r0) as Hb.
  pose proof (enqueue_chans m r0 (fst (enqueueRouter m r0))) as He.
  destruct (routerConn r0) as [conn|]; simplify_eq.
  - destruct (He ltac:(done) eq_refl) as (? & ? & ? & ?). split_and!; try done.
  - split_and!; done.
Qed.

(** C30: every reachable relay is well-formed, wherever its flushes are: every
    channel holds at most [SendQueueSize] frames; messages in the buffer and in
    the hands of a flush carry their sender; the worker table names living
    goroutines under the id they registered; the router connection has its
    goroutine and the outbound channel, when there is one, is that connection's
    and has its writer; a connection in its flush does not ping yet,
    and the flush sends on the channel of an accepted connection what it took
    and has not sent; a living writer has not failed.  (The buffer is bounded by
    nothing: [buffer_unbounded].) *)
Theorem relay_invariant w : rtc step start w -> wf w.
Proof. apply wf_reachable. Qed.

(** C29: on every run the stream of each router connection - the frames handed
    to its socket, then the frames queued - grows at its end only, so frames are
    neither reordered nor overtaken nor taken back, and all the writes on a
    connection but perhaps its last one succeeded. *)
Theorem router_stream_fifo w w' c :
  rtc step start w -> rtc step w w' ->
  (exists sent, stream (rl w') c = stream (rl w) c ++ sent) /\
  only_last_fails (attempts (rl w') c).
Proof.
  intros Hr Hs. split; [|by apply wf_last, wf_reachable; etransitivity].
  change (stream (rl w) c `prefix_of` stream (rl w') c).
  induction Hs as [|a b d [e He] _ IH]; [done|].
  etransitivity; [eapply exec_stream; [by apply wf_reachable|done]|].
  apply IH. eapply rtc_r; [done|by exists e].
Qed.

(** A flush that nothing interleaves with moves, to a live router, as many buffered messages, oldest first,
    as its channel has room for and keeps the others, in order: queued frames
    followed by buffered ones are the same before and after. *)
Theorem flush_spec r c r' :
  routerConn r = Some c -> routerSendCh r = Some c ->
  Forall (fun m => is_Some (marshal m)) (workerQueue r) ->
  r' = flushBufferedMessages r ->
  let room := (SendQueueSize - length (chan r c))%nat in
  chan r' c = chan r c ++ take room (omap marshal (workerQueue r)) /\
  workerQueue r' = drop room (workerQueue r) /\
  chan r' c ++ omap marshal (workerQueue r') = chan r c ++ omap marshal (workerQueue r).
Proof.
  intros Hc Hs Hm -> room.
  assert (H : chan (flushBufferedMessages r) c = chan r c ++ take room (omap marshal (workerQueue r)) /\
              workerQueue (flushBufferedMessages r) = drop room (workerQueue r)).
  { unfold flushBufferedMessages. cbn [flush_run flush_step plus]. rewrite Hc, Hs. cbn [flush_run flush_step].
    destruct (workerQueue r) as [|m q] eqn:Eq; [by simpl; rewrite Eq, take_nil, drop_nil, app_nil_r|].
    apply (flush_run_result c (m :: q) 0 (m :: q) (set_queue [] r) (S (length (m :: q)))); [done..|]. lia. }
  destruct H as [-> ->]. split_and!; [done..|]. rewrite <-(assoc_L (++)). f_equal.
  clearbody room. revert Hm. generalize (workerQueue r). clear Hs Hc. intros q Hm. revert room.
  induction Hm as [|m q [data Hd] Hm IH]; intros [|room]; simpl; rewrite ?Hd; simpl; [done..|].
  f_equal. apply IH.
Qed.

(** A message read from a worker is echoed when it is a heartbeat (a failed
    echo ends the reader and forwards nothing), and handed on as sent by the
    worker that registered the connection, whatever sender it names.  Without a
    router it joins the buffer, which forgets its oldest entry when full; with a
    router it joins the channel, and when the channel is gone or full, or the
    message does not marshal, it is dropped: it is not buffered. *)
Theorem workerMessage_spec ws id echo_ok msg r r' alive :
  workerMessage ws id echo_ok msg r = (r', alive) ->
  let m := with_WorkerID id msg in
  let beat := msg_Type msg = MsgHeartbeat in
  (beat /\ echo_ok = false -> r' = r /\ alive = false) /\
  (~ beat \/ echo_ok = true ->
     alive = true /\ workers r' = workers r /\
     (~ beat -> wire r' = wire r) /\
     (beat -> exists e, wire r' = wire r ++ [ToWorker ws e] /\ msg_ID e = msg_ID msg /\ msg_Type e = MsgHeartbeat) /\
     (routerConn r = None ->
        chans r' = chans r /\
        workerQueue r' = buffered m (workerQueue r)) /\
     (routerConn r <> None ->
        workerQueue r' = workerQueue r /\
        forall c, chan r' c = chan r c ++
          (if decide (routerSendCh r = Some c /\ (length (chan r c) < SendQueueSize)%nat)
           then option_list (marshal m) else []))).
Proof.
  intros H m beat. destruct (bool_decide_reflect (msg_Type msg = MsgHeartbeat)) as [Hb|Hb].
  all: unfold workerMessage in H; rewrite ?(bool_decide_true _ Hb), ?(bool_decide_false _ Hb) in H.
  - destruct echo_ok; cbn [andb negb] in H; [|by split; [intros _; simplify_eq|intros [?|?]]].
    split; [by intros [_ ?]|intros _]. apply handed_on in H as (-> & Hw & Hwire & Hnone & Hsome).
    split_and!; try done. intros _. eexists. split; [exact Hwire|done].
  - cbn [andb negb] in H. split; [by intros [? _]|intros _].
    apply handed_on in H as (-> & Hw & Hwire & Hnone & Hsome). by split_and!.
Qed.

(** Writing one message to a list of workers, in order. *)
Lemma write_workers_wire writes msg cs r :
  foldl (fun r c => write_worker writes msg c r) r cs =
  mkRelay (workers r) (routerConn r) (workerQueue r) (routerSendCh r) (chans r)
    (wire r ++ map (fun c => ToWorker c msg) (List.filter writes cs)).
Proof.
  revert r. induction cs as [|c cs IH]; intros r; simpl; [by destruct r; rewrite app_nil_r|].
  rewrite IH. unfold write_worker. destruct (writes c); simpl; [by rewrite <-(assoc_L (++))|done].
Qed.

(** A message of the router that names a worker goes to the connection last
    registered under that name, or nowhere; one that names nobody goes to every
    registered connection exactly once.  Nothing else of the relay changes, and
    a connection whose write fails does not stop the others. *)
Theorem routerMessage_spec w writes order msg :
  wf w -> order ≡ₚ map_to_list (workers (rl w)) ->
  let r := rl w in
  let r' := routerMessage writes order msg r in
  exists targets,
    wire r' = wire r ++ map (fun c => ToWorker c msg) (List.filter writes targets) /\
    (msg_WorkerID msg <> "" -> targets = option_list (workers r !! msg_WorkerID msg)) /\
    (msg_WorkerID msg = "" -> NoDup targets /\
       forall c, c ∈ targets <-> exists id, workers r !! id = Some c) /\
    workers r' = workers r /\ routerConn r' = routerConn r /\ chans r' = chans r /\
    workerQueue r' = workerQueue r.
Proof.
  intros Hw Ho r r'. unfold r', routerMessage, forwardToWorker, broadcastToWorkers. subst r.
  destruct (decide (msg_WorkerID msg <> "")) as [Hid|Hid].
  - exists (option_list (workers (rl w) !! msg_WorkerID msg)).
    destruct (workers (rl w) !! msg_WorkerID msg) as [c|]; simpl; [|by rewrite app_nil_r].
    unfold write_worker. destruct (writes c); simpl; [done|by rewrite app_nil_r].
  - exists (map snd order). rewrite write_workers_wire. split_and!; try done. intros _. split.
    + rewrite Ho. apply NoDup_fmap_2_strong; [|apply NoDup_map_to_list].
      intros [id c] [id' c'] H1%elem_of_map_to_list H2%elem_of_map_to_list ?; simpl in *; subst c'.
      apply (wf_workers _ Hw) in H1, H2. congruence.
    + intros c. rewrite Ho, list_elem_of_fmap. split.
      * intros ([id c'] & -> & H%elem_of_map_to_list). eauto.
      * intros [id H%elem_of_map_to_list]. by exists (id, c).
Qed.

(** *** What becomes of a message

    A message is kept while it is in the buffer, in the hands of a flush, or its
    frame is in the stream of a router connection. *)

Definition held (f : flusher) : list Message :=
  match f with FlushSending _ _ _ todo => todo | FlushRest rest => rest | _ => [] end.

Definition kept (m : Message) (data : frame) (w : World) : Prop :=
  m ∈ workerQueue (rl w) \/ (exists c, data ∈ stream (rl w) c) \/
  exists c f, flushers w !! c = Some f /\ m ∈ held f.

(** The next message to join the full buffer takes the place of [m]. *)
Definition next_out (m : Message) (w : World) : Prop :=
  (SendQueueSize <= length (workerQueue (rl w)))%nat /\ head (workerQueue (rl w)) = Some m.

Lemma handed_queue m (r r' : Relay) :
  r' = r \/ r' = fst (enqueueRouter m r) \/ r' = bufferWorkerMessage m r ->
  workerQueue r' = workerQueue r \/ workerQueue r' = buffered m (workerQueue r).
Proof.
  intros [->|[->| ->]]; [by left| |by right; apply buffer_queue]. left.
  unfold enqueueRouter. destruct (routerConn r); [|done]. destruct (marshal m); [|done].
  destruct (chan_send _ _ _) eqn:E; [|done]. by apply router_send_Some in E as (? & _ & _ & ->).
Qed.

Lemma handleWorker_registers ws routable msg r reg :
  DecodePayload zero_RegisterPayload decode_register msg = Some reg -> wi_ID (rp_Worker reg) <> "" ->
  let m := rewrite_register routable reg msg in
  exists r', handleWorker ws routable msg r = (r', Some (wi_ID (rp_Worker reg))) /\
    workers r' = <[wi_ID (rp_Worker reg) := ws]> (workers r) /\
    ((workerQueue r' = workerQueue r /\ exists c data, routerSendCh r = Some c /\ marshal m = Some data /\
        chan r' c = chan r c ++ [data]) \/
     workerQueue r' = buffered m (workerQueue r)).
Proof.
  intros Hd Hid m. unfold handleWorker. rewrite Hd, decide_False by done. fold m.
  set (r0 := set_workers _ r). eexists. split; [reflexivity|].
  unfold sendToRouter, enqueueRouter. change (routerConn r0) with (routerConn r).
  change (routerSendCh r0) with (routerSendCh r).
  destruct (routerConn r) as [c|]; [|split; [done|right; exact (buffer_queue m r0)]].
  destruct (marshal m) as [data|] eqn:Em; [|split; [done|right; exact (buffer_queue m r0)]].
  destruct (chan_send _ _ _) eqn:E; [|split; [done|right; exact (buffer_queue m r0)]].
  apply router_send_Some in E as (c' & Hs & _ & ->). split; [done|left]. split; [done|].
  exists c', data. split_and!; [done..|]. by rewrite chan_set_chan, decide_True.
Qed.

(** No event but a flush takes more out of the buffer than its oldest entry. *)
Lemma exec_queue e w w' :
  exec e w = Some w' -> (forall ws, e <> EvFlush ws) ->
  workerQueue (rl w') = workerQueue (rl w) \/ exists m, workerQueue (rl w') = buffered m (workerQueue (rl w)).
Proof.
  intros He Hn. destruct e as [ws routable first|ws|ws echo_ok msg|ws|ws wr order msg|ws|ws ok|ws|ws ping|ws];
    simpl in He; [|by destruct (Hn ws)|..].
  - case_decide; [done|]. injection He as <-. unfold handleWS. destruct first as [msg|]; [|by left].
    destruct (msg_Type msg); try by left.
    2: { left. simpl. unfold handleRouter. by destruct (routerConn (rl w)). }
    destruct (DecodePayload zero_RegisterPayload decode_register msg) as [reg|] eqn:Hd.
    2: { unfold handleWorker. rewrite Hd. by left. }
    destruct (decide (wi_ID (rp_Worker reg) = "")) as [Hid|Hid].
    { unfold handleWorker. rewrite Hd, decide_True by done. by left. }
    destruct (handleWorker_registers ws routable msg (rl w) reg Hd Hid) as (r' & -> & _ & [[Hq _]|Hq]); eauto.
  - destruct (reading_worker w ws) as [id|]; [|done].
    destruct (workerMessage ws id echo_ok msg (rl w)) as [r alive] eqn:E.
    assert (Hq : workerQueue r = workerQueue (rl w) \/ exists m, workerQueue r = buffered m (workerQueue (rl w))).
    { pose proof (workerMessage_spec _ _ _ _ _ _ _ E) as [H1 H2]. simpl in H1, H2.
      destruct (decide (msg_Type msg = MsgHeartbeat /\ echo_ok = false)) as [Hf|Hf]; [destruct (H1 Hf) as [-> _]; by left|].
      destruct H2 as (_ & _ & _ & _ & H3 & H4).
      { destruct (decide (msg_Type msg = MsgHeartbeat)); [right; destruct echo_ok; naive_solver|by left]. }
      destruct (routerConn (rl w)); [left; by apply H4|right; eexists; by apply H3]. }
    by destruct alive; injection He as <-.
  - destruct (reading_worker w ws); [|done]. injection He as <-. by left.
  - case_decide; [|done]. injection He as <-. left. simpl. unfold routerMessage, forwardToWorker, broadcastToWorkers.
    destruct (decide _); [unfold write_worker; repeat case_match; done|]. by rewrite write_workers_wire.
  - case_decide; [|done]. injection He as <-. left. simpl. unfold routerGone. by case_decide.
  - case_decide; [|done]. unfold writerStep in He. destruct (chan (rl w) ws); [done|].
    destruct ok; injection He as <-; left; [done|]. simpl. unfold writer_deferred. by case_decide.
  - case_decide; [|done]. injection He as <-. left. simpl. unfold writer_deferred. by case_decide.
  - case_decide; [|done]. injection He as <-. simpl. unfold pingTick. destruct ping as [m|]; [|by left].
    destruct (handed_queue m (rl w) _ (or_intror (or_introl eq_refl))); eauto.
  - case_decide; [|done]. injection He as <-. by left.
Qed.

(** ... and a goroutine in its flush stays there until it steps. *)
Lemma exec_flushers e w w' c f :
  wf w -> exec e w = Some w' -> (forall ws, e <> EvFlush ws) ->
  flushers w !! c = Some f -> flushers w' !! c = Some f.
Proof.
  intros Hw He Hn Hc. destruct e as [ws routable first|ws|ws echo_ok msg|ws|ws wr order msg|ws|ws ok|ws|ws ping|ws];
    simpl in He; [|by destruct (Hn ws)|..].
  - case_decide as Hu; [done|]. injection He as <-.
    assert (c <> ws).
    { intros ->. apply Hu. destruct (wf_flush _ Hw _ _ Hc) as (_ & [[id Hid]|Hr] & _).
      - by apply (wf_wreaders _ Hw) in Hid as [_ ?].
      - apply (wf_used _ Hw). auto. }
    unfold handleWS. destruct first as [msg|]; [|done]. destruct (msg_Type msg); try done; simpl.
    + destruct (handleWorker _ _ _ _) as [r [id|]]; simpl; [by rewrite lookup_insert_ne|done].
    + by rewrite lookup_insert_ne.
  - destruct (reading_worker w ws) as [id|]; [|done].
    destruct (workerMessage _ _ _ _ _) as [r [|]]; by injection He as <-.
  - destruct (reading_worker w ws); [|done]. by injection He as <-.
  - case_decide; [|done]. by injection He as <-.
  - case_decide; [|done]. by injection He as <-.
  - case_decide; [|done]. destruct (writerStep _ _ _) as [[r [|]]|]; [by injection He as <-..|done].
  - case_decide; [|done]. by injection He as <-.
  - case_decide; [|done]. by injection He as <-.
  - case_decide; [|done]. by injection He as <-.
Qed.

(** A step of a flush loses nothing. *)
Lemma flush_goes_kept ws f w m data :
  wf w -> flushers w !! ws = Some f -> marshal m = Some data ->
  m ∈ workerQueue (rl w) \/ (exists c f, flushers w !! c = Some f /\ m ∈ held f) ->
  kept m data (flush_goes ws f w).
Proof.
  intros Hw Hf Hd Hin. pose proof (wf_flush _ Hw _ _ Hf) as [Hok _]. unfold flush_goes.
  destruct (flush_step f (rl w)) as [r next] eqn:E.
  assert (Hgo : (m ∈ workerQueue (rl w) \/ m ∈ held f ->
      m ∈ workerQueue r \/ (exists c, data ∈ stream r c) \/ exists f', next = Some f' /\ m ∈ held f') ->
    kept m data (set_flush ws next (set_rl r w))).
  { intros Hgo. destruct (decide (m ∈ workerQueue (rl w) \/ m ∈ held f)) as [Hm|Hm].
    - destruct (Hgo Hm) as [H|[[c H]|(f' & -> & H)]].
      + left. by destruct next.
      + right. left. exists c. by destruct next.
      + right. right. exists ws, f'. simpl. by rewrite lookup_insert_eq.
    - destruct Hin as [Hin|(c & f1 & Hc & H1)]; [destruct Hm; by left|].
      assert (c <> ws) by (intros ->; simplify_eq; destruct Hm; by right).
      right. right. exists c, f1. destruct next; simpl; by rewrite ?lookup_insert_ne, ?lookup_delete_ne. }
  apply Hgo. clear Hgo Hin. intros Hin.
  destruct f as [|ch|ch msgs k [|msg todo]|rest]; simpl in *.
  - left. destruct (routerConn (rl w)); simplify_eq; set_solver.
  - destruct (workerQueue (rl w)) as [|m0 q] eqn:Eq; simplify_eq; [set_solver|].
    right. right. eexists. split; [done|]. simpl. set_solver.
  - left. simplify_eq. set_solver.
  - destruct Hok as (_ & _ & j & Hkj & Htodo). destruct (marshal msg) as [data'|] eqn:Em; simplify_eq.
    + destruct (chan_send ch data' (rl w)) as [r'|] eqn:Es; simplify_eq.
      * apply router_send_Some in Es as (c & -> & _ & ->). simpl.
        destruct Hin as [Hin|[->|Hin]%elem_of_cons]; [by left| |right; right; eauto].
        right. left. exists c. unfold stream. rewrite chan_set_chan, decide_True by done. simplify_eq. set_solver.
      * destruct Hin as [Hin|Hin]; [by left|]. right. right. eexists. split; [done|]. simpl.
        rewrite Htodo in Hin. replace j with (k + (j - k))%nat in Hin by lia. rewrite <-drop_drop in Hin.
        rewrite <-(take_drop (j - k) (drop k msgs)). set_solver.
    + destruct Hin as [Hin|[->|Hin]%elem_of_cons]; [by left|congruence|right; right; eauto].
  - left. simplify_eq. set_solver.
Qed.

Lemma flush_or_not e : (exists ws, e = EvFlush ws) \/ forall ws, e <> EvFlush ws.
Proof. destruct e; try (by right); left; eauto. Qed.

(** A message is lost only as the oldest entry of the full buffer. *)
Lemma exec_kept e w w' m data :
  wf w -> exec e w = Some w' -> marshal m = Some data -> kept m data w -> kept m data w' \/ next_out m w.
Proof.
  intros Hw He Hd Hk.
  assert (Hor : (exists c, data ∈ stream (rl w) c) \/
    (m ∈ workerQueue (rl w) \/ exists c f, flushers w !! c = Some f /\ m ∈ held f)) by (unfold kept in Hk; tauto).
  clear Hk. destruct Hor as [[c Hs]|Hin].
  { left. right. left. exists c. destruct (exec_stream _ _ _ Hw He c) as [l ->]. set_solver. }
  destruct (flush_or_not e) as [[ws ->]|Hn].
  { simpl in He. destruct (flushers w !! ws) as [f|] eqn:Hf; [|done]. simplify_eq. left. by eapply flush_goes_kept. }
  destruct Hin as [Hq|(c & f & Hc & Hm)].
  - destruct (exec_queue _ _ _ He Hn) as [Heq|[m' Heq]]; [left; left; by rewrite Heq|].
    unfold buffered in Heq. case_decide as Hl; [|left; left; rewrite Heq; set_solver].
    destruct (workerQueue (rl w)) as [|m0 q] eqn:E; [set_solver|].
    apply elem_of_cons in Hq as [->|Hq]; [right; unfold next_out; by rewrite E|].
    left. left. rewrite Heq. set_solver.
  - left. right. right. exists c, f. split; [|done]. by eapply exec_flushers.
Qed.

Lemma run_kept w w' m data :
  wf w -> rtc step w w' -> marshal m = Some data -> kept m data w ->
  kept m data w' \/ exists w1, rtc step w w1 /\ rtc step w1 w' /\ next_out m w1.
Proof.
  intros Hw Hs Hd. induction Hs as [w|a b c [e He] Hs IH]; [by left|]. intros Hk.
  destruct (exec_kept _ _ _ _ _ Hw He Hd Hk) as [Hb|Ho]; [|right; exists a; split_and!; [done| |done]].
  - destruct (IH (wf_event _ _ _ Hw He) Hb) as [?|(w1 & ? & ? & ?)]; [by left|right].
    exists w1. split_and!; try done. eapply rtc_l; [by exists e|done].
  - eapply rtc_l; [by exists e|done].
Qed.

(** What the relay makes of a register: the sender stamped, and, when it sees
    where the worker comes from, the payload with the address replaced and
    nothing else. *)
Lemma rewrite_register_spec routable reg msg :
  let m := rewrite_register routable reg msg in
  msg_ID m = msg_ID msg /\ msg_Type m = msg_Type msg /\ msg_WorkerID m = wi_ID (rp_Worker reg) /\
  exists seen,
    wi_IP (rp_Worker seen) = (if decide (routable = "") then wi_IP (rp_Worker reg) else routable) /\
    with_IP (wi_IP (rp_Worker reg)) (rp_Worker seen) = rp_Worker reg /\ rp_Relay seen = rp_Relay reg /\
    msg_Payload m = (if decide (routable = "") then msg_Payload msg
                     else default (msg_Payload msg) (marshal_payload (PRegister seen))).
Proof.
  unfold rewrite_register. destruct (decide (routable = "")) as [->|Hr].
  - split_and!; try done. exists reg. by destruct reg as [[] ?].
  - assert (Hs : with_IP (wi_IP (rp_Worker reg)) (rp_Worker (with_worker_IP routable reg)) = rp_Worker reg)
      by (by destruct reg as [[] ?]).
    destruct (marshal_payload (PRegister (with_worker_IP routable reg))) as [p|] eqn:E; split_and!; try done;
      exists (with_worker_IP routable reg); by rewrite E.
Qed.

(** C39: a worker that registers is in the table under its ID, and its register
    is not lost.  It goes on with the sender stamped and the address that the
    relay sees in place of the one it tells (when the relay sees one), is queued
    for the router or put in the buffer at once, and then, whatever the relay
    does, it stays in the buffer, in the hands of a flush or in the stream of a
    router, unless the buffer is full, it is its oldest entry, and another
    message is buffered. *)
Theorem register_not_lost w ws routable msg reg w1 :
  rtc step start w -> exec (EvConnect ws routable (Some msg)) w = Some w1 ->
  msg_Type msg = MsgRegister ->
  DecodePayload zero_RegisterPayload decode_register msg = Some reg -> wi_ID (rp_Worker reg) <> "" ->
  workers (rl w1) !! wi_ID (rp_Worker reg) = Some ws /\
  exists m seen,
    msg_Type m = MsgRegister /\ msg_WorkerID m = wi_ID (rp_Worker reg) /\
    wi_IP (rp_Worker seen) = (if decide (routable = "") then wi_IP (rp_Worker reg) else routable) /\
    with_IP (wi_IP (rp_Worker reg)) (rp_Worker seen) = rp_Worker reg /\ rp_Relay seen = rp_Relay reg /\
    msg_Payload m = (if decide (routable = "") then msg_Payload msg
                     else default (msg_Payload msg) (marshal_payload (PRegister seen))) /\
    forall data, marshal m = Some data ->
      (workerQueue (rl w1) = buffered m (workerQueue (rl w)) \/
       exists c, routerSendCh (rl w) = Some c /\ chan (rl w1) c = chan (rl w) c ++ [data]) /\
      forall w2, rtc step w1 w2 ->
        kept m data w2 \/ exists w3, rtc step w1 w3 /\ rtc step w3 w2 /\ next_out m w3.
Proof.
  intros Hr He Ht Hd Hid. pose proof (wf_reachable _ Hr) as Hw. pose proof (wf_event _ _ _ Hw He) as Hw1.
  pose proof (rewrite_register_spec routable reg msg) as (_ & Hmt & Hmw & seen & Hseen).
  destruct (handleWorker_registers ws routable msg (rl w) reg Hd Hid) as (r & E & Hws & Hq).
  simpl in He. destruct (decide (ws ∈ used w)); [done|]. injection He as <-. unfold handleWS in *. rewrite Ht, E in *. simpl.
  split; [by rewrite Hws, lookup_insert_eq|].
  exists (rewrite_register routable reg msg), seen. destruct Hseen as (? & ? & ? & ?). split_and!; [congruence|done..|].
  intros data Hm. split.
  - destruct Hq as [(_ & c & data' & Hs & Hm' & Hc)|Hq]; [right|by left]. exists c. split; [done|]. simplify_eq. done.
  - intros w2 Hs2. eapply run_kept; [exact Hw1|exact Hs2|exact Hm|].
    destruct Hq as [(_ & c & data' & Hs & Hm' & Hc)|Hq].
    + right. left. exists c. simplify_eq. unfold stream. simpl. rewrite Hc. set_solver.
    + left. simpl. rewrite Hq. unfold buffered. set_solver.
Qed.

(** A worker that reconnects and registers anew before the relay notices
    that its first connection is gone is forgotten when the first reader
    returns: its new connection is still read, but nothing the router sends to
    it is delivered. *)
Theorem stale_reader_unregisters w ws1 id w' writes order msg :
  wf w -> wreaders w !! ws1 = Some id ->
  exec (EvWorkerReadError ws1) w = Some w' ->
  msg_WorkerID msg = id ->
  workers (rl w') !! id = None /\
  wire (routerMessage writes order msg (rl w')) = wire (rl w') /\
  forall ws2, ws2 <> ws1 -> workers (rl w) !! id = Some ws2 -> wreaders w' !! ws2 = Some id.
Proof.
  intros Hw Hid He Hm. pose proof (wf_wreaders _ Hw _ _ Hid) as [Hne _].
  simpl in He. destruct (reading_worker w ws1) as [id'|] eqn:E; [|done].
  apply reading_Some in E as [Hid' _]. simplify_eq. simpl. split_and!.
  - by rewrite lookup_delete_eq.
  - unfold routerMessage. rewrite decide_True by done. unfold forwardToWorker. simpl.
    by rewrite lookup_delete_eq.
  - intros ws2 Hws2 H%(wf_workers _ Hw). by rewrite lookup_delete_ne.
Qed.

(** *** The buffer is not bounded

    [jammed n ws w] : the router does not take frames and its channel is full,
    [n] messages wait in the buffer, and the worker of [ws], which has just
    registered, is about to flush. *)

Definition marshals (m : Message) : Prop := is_Some (marshal m).

Record jammed (n : nat) (ws : Conn) (w : World) : Prop := {
  jm_wf : wf w;
  jm_router : exists c, routerConn (rl w) = Some c /\ routerSendCh (rl w) = Some c /\
                        (SendQueueSize <= length (chan (rl w) c))%nat;
  jm_queue : length (workerQueue (rl w)) = S n /\ Forall marshals (workerQueue (rl w));
  jm_flush : flushers w !! ws = Some FlushStart;
}.

(** A register that comes while the channel is full. *)
Lemma register_jammed c ws routable msg reg w :
  routerConn (rl w) = Some c -> routerSendCh (rl w) = Some c -> (SendQueueSize <= length (chan (rl w) c))%nat ->
  msg_Type msg = MsgRegister ->
  DecodePayload zero_RegisterPayload decode_register msg = Some reg -> wi_ID (rp_Worker reg) <> "" ->
  exists w', handleWS ws routable (Some msg) w = w' /\
    routerConn (rl w') = Some c /\ routerSendCh (rl w') = Some c /\ chan (rl w') c = chan (rl w) c /\
    workerQueue (rl w') = buffered (rewrite_register routable reg msg) (workerQueue (rl w)) /\
    flushers w' = <[ws := FlushStart]> (flushers w).
Proof.
  intros Hc Hs Hl Ht Hd Hid. eexists. split; [reflexivity|]. unfold handleWS. rewrite Ht.
  unfold handleWorker. rewrite Hd, decide_False by done. set (m := rewrite_register _ _ _).
  set (r0 := set_workers _ (rl w)). change (routerConn r0) with (routerConn (rl w)). rewrite Hc.
  unfold sendToRouter, enqueueRouter. change (routerConn r0) with (routerConn (rl w)). rewrite Hc.
  assert (Hn : forall data, chan_send (routerSendCh r0) data r0 = None).
  { intros data. apply router_send_None. intros c' [= <-]%(eq_trans (eq_sym Hs)). exact Hl. }
  destruct (marshal m) as [data|]; rewrite ?Hn; (split_and!; [done..|exact (buffer_queue m r0)|done]).
Qed.

(** While one worker flushes another registers, and the flush puts back what it
    took without looking at the cap. *)
Lemma jammed_grows n ws w routable msg reg :
  jammed n ws w -> msg_Type msg = MsgRegister ->
  DecodePayload zero_RegisterPayload decode_register msg = Some reg -> wi_ID (rp_Worker reg) <> "" ->
  marshals (rewrite_register routable reg msg) ->
  exists ws' w', rtc step w w' /\ jammed (S n) ws' w'.
Proof.
  intros [Hw (c & Hc & Hs & Hl) [Hn Hq] Hf] Ht Hd Hid Hm.
  destruct (workerQueue (rl w)) as [|m0 q] eqn:Eq; [done|]. inversion Hq as [|? ? [d0 Hd0] Hq']; subst.
  set (r1 := set_queue [] (rl w)).
  set (w1 := set_flush ws (Some (FlushSending (Some c) (m0 :: q) 0 (m0 :: q))) (set_rl r1 w)).
  set (ws' := fresh (used w)).
  assert (Hws' : ws' ∉ used w) by apply is_fresh.
  assert (Hne : ws <> ws').
  { intros <-. apply Hws'. destruct (wf_flush _ Hw _ _ Hf) as (_ & [[id Hid']|Hr] & _).
    - by apply (wf_wreaders _ Hw) in Hid' as [_ ?].
    - apply (wf_used _ Hw). auto. }
  destruct (register_jammed c ws' routable msg reg w1) as (w2 & E2 & Hc2 & Hs2 & Hch2 & Hq2 & Hf2); try done.
  set (w3 := set_flush ws None (set_rl (set_queue (workerQueue (rl w2) ++ m0 :: q) (rl w2)) w2)).
  assert (Hrun : rtc step w w3).
  { eapply (rtc_l _ _ (set_flush ws (Some (FlushSnapped (Some c))) w)).
    { exists (EvFlush ws). simpl. rewrite Hf. unfold flush_goes. simpl. rewrite Hc, Hs. by destruct w. }
    eapply (rtc_l _ _ w1).
    { exists (EvFlush ws). simpl. rewrite lookup_insert_eq. unfold flush_goes. simpl. rewrite Eq. simpl.
      unfold w1, set_flush, set_rl. simpl. by rewrite insert_insert_eq. }
    eapply (rtc_l _ _ w2).
    { exists (EvConnect ws' routable (Some msg)). cbn [exec]. rewrite decide_False by done. by rewrite E2. }
    eapply (rtc_l _ _ (set_flush ws (Some (FlushRest (m0 :: q))) w2)).
    { exists (EvFlush ws). cbn [exec]. rewrite Hf2, lookup_insert_ne by done.
      unfold w1. cbn [set_flush flushers]. rewrite lookup_insert_eq. unfold flush_goes. cbn [flush_step]. rewrite Hd0.
      rewrite (proj2 (router_send_None (Some c) d0 (rl w2))).
      - simpl. by destruct w2.
      - intros c' [= <-]. rewrite Hch2. exact Hl. }
    apply rtc_once. exists (EvFlush ws). simpl. rewrite lookup_insert_eq. unfold flush_goes. simpl.
    unfold w3, set_flush, set_rl. simpl. by rewrite delete_insert_eq. }
  exists ws', w3. split; [done|]. split.
  - clear -Hw Hrun. induction Hrun as [|a b d [e He] _ IH]; [done|]. apply IH. by eapply wf_event.
  - exists c. split_and!; [done..|]. change (SendQueueSize <= length (chan (rl w2) c))%nat. by rewrite Hch2.
  - simpl. rewrite Hq2. change (workerQueue (rl w1)) with (@nil Message). unfold buffered. simpl. split; [simpl in Hn; lia|].
    constructor; [done|]. constructor; [by eexists|done].
  - simpl. rewrite Hf2, lookup_delete_ne, lookup_insert_eq by done. done.
Qed.

(** The router connects, and its channel fills with pings that it does not
    take. *)
Definition ready : Message :=
  {| msg_ID := ""; msg_Type := MsgRouterReady; msg_WorkerID := ""; msg_Payload := "" |}.

Lemma router_filled ping data k :
  marshal ping = Some data -> (k <= SendQueueSize)%nat ->
  exists w, rtc step start w /\ routerConn (rl w) = Some 0%nat /\ routerSendCh (rl w) = Some 0%nat /\
    length (chan (rl w) 0%nat) = k /\ workerQueue (rl w) = [] /\ 0%nat ∈ pingers w /\ used w = {[0%nat]}.
Proof.
  intros Hd. induction k as [|k IH]; intros Hk.
  - eexists. split.
    { eapply (run_reachable [EvConnect 0%nat "" (Some ready); EvFlush 0%nat; EvFlush 0%nat]).
      cbn -[decide]. rewrite decide_False by set_solver. unfold handleWS. cbn [msg_Type ready].
      simpl. rewrite !lookup_insert_eq. simpl. rewrite lookup_insert_eq. simpl. reflexivity. }
    simpl. rewrite decide_True by set_solver. unfold chan. simpl. rewrite lookup_insert_eq. split_and!; try done; set_solver.
  - destruct IH as (w & Hw & Hc & Hs & Hl & Hq & Hp & Hu); [lia|].
    exists (set_rl (set_chan 0%nat (chan (rl w) 0%nat ++ [data]) (rl w)) w). split_and!; try done.
    + eapply rtc_r; [done|]. exists (EvPing 0%nat (Some ping)). simpl. rewrite decide_True by done.
      unfold enqueueRouter. rewrite Hc, Hd, Hs.
      rewrite (proj2 (router_send_Some (Some 0%nat) data (rl w) (set_chan 0%nat (chan (rl w) 0%nat ++ [data]) (rl w)))); [done|]. exists 0%nat. split_and!; [done|lia|done].
    + simpl. rewrite chan_set_chan, decide_True by done. rewrite length_app. simpl. lia.
Qed.

(** C28: the buffer has no bound, although every message that joins it drops the
    oldest one at the cap: while the router does not take frames, each worker
    that registers while another is flushing makes it longer by one, because a
    flush puts back what it could not send without looking at the cap. *)
Theorem buffer_unbounded ping routable msg reg n :
  marshals ping -> msg_Type msg = MsgRegister ->
  DecodePayload zero_RegisterPayload decode_register msg = Some reg -> wi_ID (rp_Worker reg) <> "" ->
  marshals (rewrite_register routable reg msg) ->
  exists w, rtc step start w /\ length (workerQueue (rl w)) = S n.
Proof.
  intros [data Hd] Ht Hdec Hid Hm.
  assert (exists w ws, rtc step start w /\ jammed n ws w) as (w & ws & Hw & Hj).
  { induction n as [|n (w & ws & Hw & Hj)].
    - destruct (router_filled ping data SendQueueSize Hd (le_n _)) as (w & Hw & Hc & Hs & Hl & Hq & _ & Hu).
      destruct (register_jammed 0%nat 1%nat routable msg reg w) as (w' & E & Hc' & Hs' & Hch & Hq' & Hf); try done; [lia|].
      assert (He : exec (EvConnect 1%nat routable (Some msg)) w = Some w').
      { cbn [exec]. rewrite decide_False by (rewrite Hu; set_solver). by rewrite E. }
      exists w', 1%nat. split; [eapply rtc_r; [done|by eexists]|]. split.
      + eapply wf_event; [by apply wf_reachable|done].
      + exists 0%nat. split_and!; [done..|]. rewrite Hch. lia.
      + rewrite Hq', Hq. unfold buffered. simpl. split; [done|by constructor].
      + by rewrite Hf, lookup_insert_eq.
    - destruct (jammed_grows n ws w routable msg reg Hj) as (ws' & w' & Hs & Hj'); try done.
      exists w', ws'. split; [by etransitivity|done]. }
  exists w. split; [done|]. by destruct (jm_queue _ _ _ Hj).
Qed.
End relay.

(** ** Witnesses

    The payload of a register is the worker's address, a slash and its ID;
    frames are the envelopes. *)

Definition demo_worker (ip id : string) : RegisterPayload :=
  {| rp_Worker := with_IP ip (with_ID id zero_WorkerInfo); rp_Relay := true |}.

#[local] Instance demo_JSON : JSON :=
  {| decode_register p :=
       match String.index 0 "/" p with
       | Some i => Some (demo_worker (String.substring 0 i p) (String.substring (S i) (String.length p) p))
       | None => None
       end;
     decode_heartbeat _ := None; decode_capabilities _ := None; decode_error _ := None;
     decode_inference_request _ := None; decode_chunk _ := None; decode_response _ := None;
     decode_cancel _ := None; decode_model_load_request _ := None; decode_model_load_response _ := None;
     decode_close _ := None;
     marshal_payload p := match p with PRegister r => Some (wi_IP (rp_Worker r) +:+ "/" +:+ wi_ID (rp_Worker r)) | _ => None end |}.

Definition demo_msg (t : MessageType) (id payload : string) : Message :=
  {| msg_ID := "m"; msg_Type := t; msg_WorkerID := id; msg_Payload := payload |}.

Definition demo_register (id : string) : Message := demo_msg MsgRegister "" ("192.168.0.5/" +:+ id).

Abbreviation demo_exec := (exec (frame := Message) Some).
Abbreviation demo_run := (run (frame := Message) Some).
Abbreviation demo_start := (start (frame := Message)).

(** A worker, the router, a heartbeat, a write; then the worker comes back. *)
Definition demo_events : list relay_event :=
  [ EvConnect 1%nat "10.0.0.7" (Some (demo_register "w")); EvFlush 1%nat;
    EvConnect 2%nat "" (Some (demo_msg MsgRouterReady "" ""));
    EvFlush 2%nat; EvFlush 2%nat; EvFlush 2%nat; EvFlush 2%nat;
    EvWorkerMessage 1%nat true (demo_msg MsgHeartbeat "liar" "");
    EvWrite 2%nat true;
    EvConnect 3%nat "" (Some (demo_register "w")) ].

Definition demo_world : World (frame := Message) := default demo_start (demo_run demo_events demo_start).

Lemma demo_world_eq : demo_run demo_events demo_start = Some demo_world.
Proof. vm_compute. reflexivity. Qed.

Lemma demo_world_reachable : rtc (step (frame := Message) Some) demo_start demo_world.
Proof. exact (run_reachable _ _ _ _ demo_world_eq). Qed.

Lemma relay_invariant_witness : wf demo_world.
Proof. exact (relay_invariant _ _ demo_world_reachable). Defined.

Lemma router_stream_fifo_witness :
  (exists sent, stream (rl demo_world) 2%nat = stream (rl demo_start) 2%nat ++ sent) /\
  only_last_fails (attempts (rl demo_world) 2%nat).
Proof. exact (router_stream_fifo Some demo_start demo_world 2%nat (rtc_refl _ _) demo_world_reachable). Defined.

(** A relay whose router's channel has [n] frames, with [k] buffered messages. *)
Definition demo_relay (n k : nat) : Relay (frame := Message) :=
  mkRelay ∅ (Some 2%nat) (replicate k (demo_msg MsgPing "w" "")) (Some 2%nat)
    {[2%nat := replicate n (demo_msg MsgPing "v" "")]} [].

Lemma demo_marshals (l : list Message) : Forall (fun m => is_Some (Some m)) l.
Proof. induction l; constructor; eauto. Qed.

Lemma flush_spec_witness :
  let r' := flushBufferedMessages Some (demo_relay 255 3) in
  workerQueue r' = drop 1 (replicate 3 (demo_msg MsgPing "w" "")).
Proof.
  intros r'. pose proof (flush_spec Some (demo_relay 255 3) 2%nat r' eq_refl eq_refl (demo_marshals _) eq_refl) as (_ & H & _).
  rewrite H. vm_compute. reflexivity.
Defined.

Lemma workerMessage_spec_witness :
  let r := mkRelay ∅ (Some 2%nat) [] None ∅ [] : Relay (frame := Message) in
  let m := demo_msg MsgCapabilities "liar" "" in
  workerQueue (fst (workerMessage Some 1%nat "w" true m r)) = [].
Proof.
  intros r m.
  destruct (workerMessage_spec Some 1%nat "w" true m r _ _ (surjective_pairing _)) as [_ H].
  destruct H as (_ & _ & _ & _ & _ & H); [by right|]. by destruct H as [H _].
Defined.

Lemma routerMessage_spec_witness :
  exists targets,
    wire (routerMessage (fun _ => true) [("w", 3%nat)] (demo_msg MsgPing "" "") (rl demo_world)) =
    wire (rl demo_world) ++ map (fun c => ToWorker c (demo_msg MsgPing "" "")) targets.
Proof.
  destruct (routerMessage_spec demo_world (fun _ => true) [("w", 3%nat)] (demo_msg MsgPing "" "")) as (t & H & _).
  - exact (wf_reachable _ _ demo_world_reachable).
  - vm_compute. reflexivity.
  - exists (List.filter (fun _ => true) t). exact H.
Defined.

(** With a router the register is queued for it, without one it is buffered. *)
Definition demo_registered (es : list relay_event) : World (frame := Message) :=
  default demo_start (demo_run (es ++ [EvConnect 1%nat "10.0.0.7" (Some (demo_register "w"))]) demo_start).

Definition demo_router : list relay_event :=
  [EvConnect 2%nat "" (Some (demo_msg MsgRouterReady "" "")); EvFlush 2%nat; EvFlush 2%nat].

Lemma register_not_lost_witness :
  let m := {| msg_ID := "m"; msg_Type := MsgRegister; msg_WorkerID := "w"; msg_Payload := "10.0.0.7/w" |} in
  let late := demo_registered demo_router in
  let early := demo_registered [] in
  chan (rl late) 2%nat = [m] /\ workers (rl late) !! "w" = Some 1%nat /\
  workerQueue (rl early) = [m] /\ workers (rl early) !! "w" = Some 1%nat /\
  forall w2, rtc (step (frame := Message) Some) late w2 ->
    kept m m w2 \/ exists w3, rtc (step (frame := Message) Some) late w3 /\ rtc (step (frame := Message) Some) w3 w2 /\ next_out m w3.
Proof.
  intros m late early.
  destruct (register_not_lost Some (default demo_start (demo_run demo_router demo_start)) 1%nat "10.0.0.7" (demo_register "w")
    (demo_worker "192.168.0.5" "w") late) as (Hl & m1 & seen & Ht & Hi & Hip & Hrest & Hrel & Hp & Hk).
  - apply (run_reachable _ demo_router). vm_compute. reflexivity.
  - vm_compute. reflexivity.
  - reflexivity.
  - vm_compute. reflexivity.
  - discriminate.
  - destruct (register_not_lost Some demo_start 1%nat "10.0.0.7" (demo_register "w")
      (demo_worker "192.168.0.5" "w") early) as (He & _); [constructor|vm_compute; reflexivity..|discriminate|].
    split_and!; [vm_compute; reflexivity|exact Hl|vm_compute; reflexivity|exact He|].
    intros w2 Hw2. destruct (Hk m1 eq_refl) as [_ Hkept].
    assert (m1 = m) as <-; [|by apply Hkept].
    destruct (Hk m1 eq_refl) as [[Hq|(c & Hc & Hq)] _]; [vm_compute in Hq; discriminate|].
    vm_compute in Hc. injection Hc as <-. vm_compute in Hq. by injection Hq as <-.
Defined.

Lemma stale_reader_unregisters_witness :
  exists w', demo_exec (EvWorkerReadError 1%nat) demo_world = Some w' /\
    workers (rl w') !! "w" = None /\ wreaders w' !! 3%nat = Some "w".
Proof.
  eexists. split; [vm_compute; reflexivity|].
  destruct (stale_reader_unregisters Some demo_world 1%nat "w" _ (fun _ => true) [] (demo_msg MsgPing "w" "")
    (wf_reachable _ _ demo_world_reachable) ltac:(vm_compute; reflexivity)
    ltac:(vm_compute; reflexivity) eq_refl) as (H1 & _ & H2).
  split; [exact H1|]. apply H2; [done|]. vm_compute. reflexivity.
Defined.

Lemma buffer_unbounded_witness :
  exists w, rtc (step (frame := Message) Some) demo_start w /\ length (workerQueue (rl w)) = 1000%nat.
Proof.
  apply (buffer_unbounded Some (demo_msg MsgPing "" "") "10.0.0.7" (demo_register "w")
           (demo_worker "192.168.0.5" "w") 999); [by eexists|done|done|discriminate|by eexists].
Defined.
