(* ===== verification/Aliases.v ===== *)
(** * Aliases: user-facing model names ([pkg/router/aliases.go], [server.go])

    A [ModelAliasConfig] is its map; [None] is the nil configuration, which
    disables aliasing. *)

From S2P Require Import Prelude GoStrings.
From Stdlib Require Import Ascii.

Record AliasTarget := { Canonical : string }.

Abbreviation ModelAliasConfig := (gmap string AliasTarget) (only parsing).

Definition comma : ascii := ",".
Definition equals : ascii := "=".

(** One entry of [buildAliasConfig]'s loop. *)
Definition add_alias (aliases : ModelAliasConfig) (entry : string * string) : ModelAliasConfig :=
  let alias := TrimSpace entry.1 in
  let canonical := TrimSpace entry.2 in
  if decide (alias = "" \/ canonical = "") then aliases
  else <[alias := {| Canonical := canonical |}]> aliases.

Definition some_aliases (aliases : ModelAliasConfig) : option ModelAliasConfig :=
  if decide (aliases = ∅) then None else Some aliases.

(** [raw] is the argument map in its iteration order. *)
Definition buildAliasConfig (raw : list (string * string)) : option ModelAliasConfig :=
  match raw with
  | [] => None
  | _ => some_aliases (foldl add_alias ∅ raw)
  end.

Definition modelAliasesActive (cfg : option ModelAliasConfig) : bool :=
  match cfg with
  | None => false
  | Some aliases => existsb (fun kt => bool_decide (Canonical kt.2 <> "")) (map_to_list aliases)
  end.

(** The body of [ParseModelAliases]'s loop. *)
Definition parse_part (aliases : ModelAliasConfig) (part : string) : ModelAliasConfig :=
  let part := TrimSpace part in
  if decide (part = "") then aliases
  else
    match Cut part equals with
    | None => aliases
    | Some (k, c) =>
        let key := TrimSpace k in
        let canonical := TrimSpace c in
        if decide (key = "" \/ canonical = "") then aliases
        else <[key := {| Canonical := canonical |}]> aliases
    end.

Definition ParseModelAliases (s : string) : option ModelAliasConfig :=
  if decide (TrimSpace s = "") then None
  else some_aliases (foldl parse_part ∅ (Split s comma)).

(** [Server.resolveAliasModel]. *)
Definition resolveAliasModel (cfg : option ModelAliasConfig) (model : string) : string :=
  if modelAliasesActive cfg then
    match cfg with
    | None => model
    | Some aliases =>
        match aliases !! model with
        | None => model
        | Some target => if decide (Canonical target = "") then model else Canonical target
        end
    end
  else model.

Example parse_ex :
  option_map map_to_list (ParseModelAliases " fast = llama@q4=x ,, bad , =y, fast=tiny") =
  Some [("fast", {| Canonical := "tiny" |})].
Proof. vm_compute. reflexivity. Qed.

(** ** Well-formed configurations *)

Definition clean (s : string) : Prop := s <> "" /\ TrimSpace s = s.

Definition alias_wf (aliases : ModelAliasConfig) : Prop :=
  forall k t, aliases !! k = Some t -> clean k /\ clean (Canonical t).

Lemma alias_wf_insert k c aliases :
  alias_wf aliases -> TrimSpace k <> "" -> TrimSpace c <> "" ->
  alias_wf (<[TrimSpace k := {| Canonical := TrimSpace c |}]> aliases).
Proof.
  intros Ha Hk Hc k' t [[<- <-]|[_ H]]%lookup_insert_Some; [|by apply Ha].
  split; (split; [done|apply TrimSpace_idemp]).
Qed.

Lemma alias_wf_foldl {A} (f : ModelAliasConfig -> A -> ModelAliasConfig) l aliases :
  (forall a x, alias_wf a -> alias_wf (f a x)) -> alias_wf aliases -> alias_wf (foldl f aliases l).
Proof. intros Hf. revert aliases. induction l; simpl; auto. Qed.

Lemma parse_part_wf a part : alias_wf a -> alias_wf (parse_part a part).
Proof.
  intros Ha. unfold parse_part. case_decide; [done|]. destruct (Cut _ _) as [[k c]|]; [|done].
  case_decide as Hd; [done|]. apply alias_wf_insert; tauto.
Qed.

Lemma add_alias_wf a e : alias_wf a -> alias_wf (add_alias a e).
Proof. intros Ha. unfold add_alias. case_decide as Hd; [done|]. apply alias_wf_insert; tauto. Qed.

Lemma alias_wf_empty : alias_wf ∅.
Proof. intros k t. by rewrite lookup_empty. Qed.

Lemma active_spec aliases :
  modelAliasesActive (Some aliases) = true <-> exists k t, aliases !! k = Some t /\ Canonical t <> "".
Proof.
  simpl. rewrite existsb_exists. split.
  - intros ([k t] & Hin & Ht). apply list_elem_of_In, elem_of_map_to_list in Hin.
    apply bool_decide_eq_true in Ht. eauto.
  - intros (k & t & Hkt & Ht). exists (k, t). rewrite <-list_elem_of_In, elem_of_map_to_list.
    split; [done|by apply bool_decide_eq_true].
Qed.

Lemma some_aliases_Some a a' :
  some_aliases a = Some a' <-> a' = a /\ a <> ∅.
Proof. unfold some_aliases. case_decide; naive_solver. Qed.

(** A configuration that parsing or building returns has at least one entry,
    its keys and canonical names are non-empty and trimmed, and it is active. *)
Theorem alias_config_wf s raw cfg :
  ParseModelAliases s = Some cfg \/ buildAliasConfig raw = Some cfg ->
  alias_wf cfg /\ cfg <> ∅ /\ modelAliasesActive (Some cfg) = true.
Proof.
  intros H. assert (Hcfg : alias_wf cfg /\ cfg <> ∅).
  { destruct H as [H|H].
    - unfold ParseModelAliases in H. case_decide; [done|]. apply some_aliases_Some in H as [-> Hne].
      split; [|done]. apply alias_wf_foldl; [apply parse_part_wf|apply alias_wf_empty].
    - unfold buildAliasConfig in H. destruct raw as [|e raw]; [done|]. apply some_aliases_Some in H as [-> Hne].
      split; [|done]. apply alias_wf_foldl; [apply add_alias_wf|apply alias_wf_empty]. }
  destruct Hcfg as [Hw Hne]. split_and!; [done..|]. apply active_spec.
  apply map_choose in Hne as (k & t & Hkt). exists k, t. split; [done|]. by destruct (Hw _ _ Hkt) as [_ [? _]].
Qed.

Lemma alias_config_wf_witness :
  modelAliasesActive (Some {[ "a" := {| Canonical := "m" |} ]}) = true.
Proof.
  apply (alias_config_wf " a = m" [] {[ "a" := {| Canonical := "m" |} ]}). left. vm_compute. reflexivity.
Defined.

(** Resolving never fails: a configured alias becomes its canonical name,
    every other model stays, nothing changes without a configuration, and a
    model name never becomes empty. *)
Theorem resolveAliasModel_spec cfg model :
  (forall k t, cfg ≫= (.!! k) = Some t -> Canonical t <> "") ->
  resolveAliasModel cfg model =
    match cfg ≫= (.!! model) with Some t => Canonical t | None => model end /\
  (model <> "" -> resolveAliasModel cfg model <> "").
Proof.
  intros Hc. assert (H : resolveAliasModel cfg model = match cfg ≫= (.!! model) with Some t => Canonical t | None => model end).
  { unfold resolveAliasModel. destruct cfg as [aliases|]; [|done]. simpl in *.
    destruct (aliases !! model) as [t|] eqn:E; [|by case_if].
    pose proof (Hc _ _ E). rewrite decide_False by done.
    pose proof (proj2 (active_spec aliases) (ex_intro _ model (ex_intro _ t (conj E H)))) as Ha.
    simpl in Ha. by rewrite Ha. }
  split; [done|]. rewrite H. intros Hm. destruct (cfg ≫= (.!! model)) as [t|] eqn:E; [by eapply Hc|done].
Qed.

Lemma resolveAliasModel_spec_witness :
  resolveAliasModel (Some {[ "a" := {| Canonical := "m" |} ]}) "a" = "m".
Proof.
  destruct (resolveAliasModel_spec (Some {[ "a" := {| Canonical := "m" |} ]}) "a") as [H _].
  - simpl. intros k t [<- <-]%lookup_singleton_Some. done.
  - rewrite H. vm_compute. reflexivity.
Defined.

(** ** Round trip *)

(** The specification an operator writes: alias=canonical, comma-separated. *)
Fixpoint print_bytes (kvs : list (string * string)) : list ascii :=
  match kvs with
  | [] => []
  | [(k, c)] => to_bytes k ++ equals :: to_bytes c
  | (k, c) :: kvs => (to_bytes k ++ equals :: to_bytes c) ++ comma :: print_bytes kvs
  end.

Definition print_aliases (kvs : list (string * string)) : string := of_bytes (print_bytes kvs).

(** Entries the syntax can express. *)
Definition writable (kv : string * string) : Prop :=
  clean kv.1 /\ clean kv.2 /\ ~ equals ∈ to_bytes kv.1 /\ ~ comma ∈ to_bytes kv.1 /\ ~ comma ∈ to_bytes kv.2.

Definition entry_bytes (kv : string * string) : list ascii := to_bytes kv.1 ++ equals :: to_bytes kv.2.

Lemma solid_equals : solid equals.
Proof. by apply solid_dec_true. Qed.

Lemma print_split kvs :
  kvs <> [] -> Forall writable kvs -> split_bytes comma (print_bytes kvs) = map entry_bytes kvs.
Proof.
  intros Hne. induction 1 as [|[k c] kvs (_ & _ & _ & Hk & Hc) Hw IH]; [done|].
  assert (He : ~ comma ∈ to_bytes k ++ equals :: to_bytes c).
  { rewrite elem_of_app, elem_of_cons. intros [?|[?|?]]; done. }
  destruct kvs as [|kv kvs]; simpl.
  - by apply split_bytes_last.
  - rewrite split_bytes_app by done. f_equal. by apply IH.
Qed.

Lemma parse_part_entry a kv :
  writable kv -> parse_part a (of_bytes (entry_bytes kv)) = <[kv.1 := {| Canonical := kv.2 |}]> a.
Proof.
  destruct kv as [k c]. intros ([Hk0 Hk] & [Hc0 Hc] & Heq & _ & _). simpl in *.
  assert (Ht : trimmed_bytes (entry_bytes (k, c))).
  { apply trimmed_app; [apply solid_equals|by apply TrimSpace_id_inv..]. }
  unfold parse_part. rewrite TrimSpace_id by by rewrite to_of_bytes.
  rewrite decide_False.
  2: { intros H%to_bytes_nil. rewrite to_of_bytes in H. by apply app_eq_nil in H as [_ ?]. }
  unfold Cut, entry_bytes. simpl. rewrite to_of_bytes, cut_bytes_app by done.
  rewrite !of_to_bytes, Hk, Hc, decide_False; [done|]. tauto.
Qed.

(** Printing a non-empty list of aliases and parsing it gives their map, the
    last entry of a key winning; a canonical name may itself contain equals
    signs. *)
Theorem ParseModelAliases_print kvs :
  kvs <> [] -> Forall writable kvs ->
  ParseModelAliases (print_aliases kvs) =
  Some (foldl (fun m kv => <[kv.1 := {| Canonical := kv.2 |}]> m) ∅ kvs).
Proof.
  intros Hne Hw. unfold ParseModelAliases, print_aliases.
  assert (Hin : equals ∈ print_bytes kvs).
  { destruct kvs as [|[k c] [|kv kvs]]; [done|simpl; set_solver..]. }
  rewrite decide_False.
  2: { intros H%to_bytes_nil. unfold TrimSpace in H. rewrite !to_of_bytes in H.
       apply (trim_bytes_keeps equals) in Hin; [|apply solid_equals]. rewrite H in Hin. by apply elem_of_nil in Hin. }
  unfold Split. rewrite to_of_bytes, print_split by done.
  assert (Hf : forall m, foldl parse_part m (map of_bytes (map entry_bytes kvs)) =
    foldl (fun m kv => <[kv.1 := {| Canonical := kv.2 |}]> m) m kvs).
  { clear Hne Hin. induction Hw as [|kv kvs Hkv _ IH]; intros m; simpl; [done|]. by rewrite parse_part_entry, IH. }
  rewrite Hf. apply some_aliases_Some. split; [done|].
  clear Hf Hin Hw. assert (Hgen : forall l (m : ModelAliasConfig), m <> ∅ ->
    foldl (fun m (kv : string * string) => <[kv.1 := {| Canonical := kv.2 |}]> m) m l <> ∅).
  { intros l. induction l as [|kv l IH]; intros m Hm; simpl; [done|]. apply IH, insert_non_empty. }
  destruct kvs as [|kv kvs]; [done|]. simpl. apply Hgen, insert_non_empty.
Qed.

Lemma ParseModelAliases_print_witness :
  ParseModelAliases "fast=m=k,b=x" = Some (<["b" := {| Canonical := "x" |}]> {[ "fast" := {| Canonical := "m=k" |} ]}).
Proof.
  assert (Hw : Forall writable [("fast", "m=k"); ("b", "x")]).
  { repeat constructor; simpl; try done; set_solver. }
  exact (ParseModelAliases_print [("fast", "m=k"); ("b", "x")] ltac:(done) Hw).
Defined.
