(* ===== verification/AutoRouting.v ===== *)
(** * AutoRouting: the model="auto" alias ([classifier.go], [routing_config.go], [server.go])

    The configuration and its wire form, the prompt classifier and the two
    resolution steps a request goes through before a worker is selected.
    [strings.ToLower] and the compiled regular expressions are arguments: every
    theorem holds whatever they match; [Classifier] gives the expressions.  Go
    maps are visited in the order given as an argument. *)

From S2P Require Import Prelude GoFloat GoStrings Protocol Aliases.
From Stdlib Require Import Ascii.

#[local] Open Scope list_scope.

(** ** Tiers *)

Abbreviation ComplexityTier := Z (only parsing).

Definition TierSimple : ComplexityTier := 0.
Definition TierMedium : ComplexityTier := 1.
Definition TierHard : ComplexityTier := 2.
Definition TierHardest : ComplexityTier := 3.
Definition TierComplex : ComplexityTier := TierHardest.

Definition tierToString (tier : ComplexityTier) : string :=
  if tier =? TierSimple then "simple" else if tier =? TierMedium then "medium"
  else if tier =? TierHard then "hard" else if tier =? TierHardest then "hardest" else "".

(** [None] is the [false] of the second result. *)
Definition stringToTier (name : string) : option ComplexityTier :=
  if decide (name = "simple") then Some TierSimple
  else if decide (name = "medium") then Some TierMedium
  else if decide (name = "hard") then Some TierHard
  else if decide (name = "hardest" \/ name = "complex") then Some TierHardest
  else None.

(** ** Configuration *)

Record AutoRoutingConfig := {
  Models : option (gmap Z string);
  SimpleMaxTokens : Z;
  MediumMaxTokens : Z;
  ReasoningKeywords : list string;
  ReasoningPhrases : list string;
  SimplePhrases : list string;
  UseFourTierMode : bool;
}.

Record AutoRoutingConfigRequest := {
  req_Enabled : bool;
  req_UseFourTier : bool;
  req_Models : option (gmap string string);
  req_SimpleMaxTokens : Z;
  req_MediumMaxTokens : Z;
}.

Definition autoRoutingActive (cfg : option AutoRoutingConfig) : bool :=
  match cfg with
  | None => false
  | Some c =>
      match Models c with
      | None => false
      | Some ms => existsb (fun tm => bool_decide (tm.2 <> "")) (map_to_list ms)
      end
  end.

Definition DefaultAutoRoutingConfig : AutoRoutingConfig :=
  {| Models := Some ∅; SimpleMaxTokens := 200; MediumMaxTokens := 600; ReasoningKeywords := [];
     ReasoningPhrases := []; SimplePhrases := []; UseFourTierMode := false |}.

(** Filling a map from the entries of another, in iteration order. *)
Definition fill {K K' V} `{Countable K'} (g : K * V -> option (K' * V)) (order : list (K * V)) : gmap K' V :=
  foldl (fun m e => match g e with Some kv => <[kv.1 := kv.2]> m | None => m end) ∅ order.

(** What the loop of [buildAutoRoutingConfig] does with one entry. *)
Definition tier_entry (e : string * string) : option (Z * string) :=
  let name := TrimSpace e.1 in
  let model := TrimSpace e.2 in
  if decide (name = "" \/ model = "") then None
  else match stringToTier name with Some tier => Some (tier, model) | None => None end.

Definition token_limit (max default : Z) : Z :=
  let max := if max <=? 0 then default else max in
  if max >? 1000000 then 1000000 else max.

(** [order] is the iteration order of [req_Models]. *)
Definition buildAutoRoutingConfig (order : list (string * string)) (req : option AutoRoutingConfigRequest) : option AutoRoutingConfig :=
  match req with
  | None => None
  | Some req =>
      if negb (req_Enabled req) then None
      else
        match req_Models req with
        | None => None
        | Some _ =>
            let models := fill tier_entry order in
            let hasModel := existsb (fun e => match tier_entry e with Some _ => true | None => false end) order in
            if negb hasModel then None
            else
              let simpleMax := token_limit (req_SimpleMaxTokens req) 200 in
              let mediumMax := token_limit (req_MediumMaxTokens req) 600 in
              let mediumMax := if mediumMax <=? simpleMax then simpleMax + 1 else mediumMax in
              Some {| Models := Some models; SimpleMaxTokens := simpleMax; MediumMaxTokens := mediumMax;
                      ReasoningKeywords := []; ReasoningPhrases := []; SimplePhrases := [];
                      UseFourTierMode := req_UseFourTier req |}
        end
  end.

Definition name_entry (e : Z * string) : option (string * string) :=
  let name := tierToString e.1 in
  if decide (name = "") then None else Some (name, e.2).

(** [order] is the iteration order of the configuration's models. *)
Definition toAutoRoutingConfigDTO (order : list (Z * string)) (cfg : option AutoRoutingConfig) : AutoRoutingConfigRequest :=
  let disabled :=
    {| req_Enabled := false; req_UseFourTier := false; req_Models := Some ∅;
       req_SimpleMaxTokens := 0; req_MediumMaxTokens := 0 |} in
  match cfg with
  | None => disabled
  | Some cfg =>
      match Models cfg with
      | None => disabled
      | Some _ =>
          {| req_Enabled := true; req_UseFourTier := UseFourTierMode cfg;
             req_Models := Some (fill name_entry order);
             req_SimpleMaxTokens := if SimpleMaxTokens cfg <=? 0 then 200 else SimpleMaxTokens cfg;
             req_MediumMaxTokens := if MediumMaxTokens cfg <=? 0 then 600 else MediumMaxTokens cfg |}
      end
  end.

Definition ResolveModel (cfg : option AutoRoutingConfig) (tier : ComplexityTier) : option string :=
  match cfg with
  | None => None
  | Some c =>
      match Models c with
      | None => None
      | Some ms =>
          match ms !! tier with
          | Some model => if decide (model = "") then None else Some model
          | None => None
          end
      end
  end.

(** ** Classification *)

Definition defaultReasoningPhrases : list string :=
  [ "explain why"; "explain how"; "analyze the"; "compare and contrast"; "evaluate the"; "critique";
    "prove that"; "show that"; "demonstrate"; "think step by step"; "chain of thought"; "work through this";
    "walk me through"; "what would happen if"; "what if"; "why does"; "how does"; "how would";
    "reason through"; "logical reasoning"; "step-by-step"; "show your work"; "derive the"; "calculate the" ].

Definition defaultSimplePhrases : list string :=
  [ "summarize"; "rewrite"; "paraphrase"; "translate to"; "what is"; "who is"; "when did"; "where is";
    "list the"; "give me"; "tell me"; "define"; "convert"; "format"; "fix the typo"; "spell check";
    "grammar check"; "copy paste"; "extract the" ].

Definition charsPerToken : Z := 4.

Definition estimateTokens (s : string) : Z :=
  if decide (s = "") then 0 else (Z.of_nat (String.length s) + charsPerToken - 1) `quot` charsPerToken.

Definition estimateChatTokens (req : ChatRequest) : Z :=
  foldl (fun total m => total + estimateTokens (cm_Content m)) 0 (cr_Messages req).

(** The compiled expressions: whether one matches somewhere
    ([MatchString]), or how many matches there are ([FindAllString]). *)
Record classifierRegexes := {
  codeBlock : string -> bool;
  mathNotation : string -> bool;
  numberedList : string -> bool;
  bulletPoints : string -> bool;
  fewShotPatterns : string -> bool;
  rolePatterns : string -> bool;
  whyHowQuestions : string -> nat;
  whatWhenQuestions : string -> nat;
}.

Record StructuralSignals := {
  HasCodeBlocks : bool;
  HasMathNotation : bool;
  HasNumberedList : bool;
  HasBulletPoints : bool;
  HasNestedStructure : bool;
}.

Definition newline : ascii := "010".

(** The blanks and tabs a line starts with. *)
Fixpoint indent_bytes (l : list ascii) : Z :=
  match l with
  | [] => 0
  | c :: l => if bool_decide (c = " "%char \/ c = "009"%char) then 1 + indent_bytes l else 0
  end.

Definition maxIndent (content : string) : Z :=
  foldl (fun m line => Z.max m (indent_bytes (to_bytes line))) 0 (Split content newline).

Section classifier.
Context (ToLower : string -> string) (regexes : classifierRegexes).

Definition detectStructuralSignals (content : string) : StructuralSignals :=
  {| HasCodeBlocks := codeBlock regexes content;
     HasMathNotation := mathNotation regexes content;
     HasNumberedList := numberedList regexes content;
     HasBulletPoints := bulletPoints regexes content;
     HasNestedStructure := 4 <=? maxIndent content |}.

Definition countPhraseMatches (content : string) (phrases : list string) : Z :=
  Z.of_nat (length (List.filter (fun p => Contains (ToLower content) (ToLower p)) phrases)).

Definition sign_adjust (up down : Z) : Z := if up >? down then 1 else if down >? up then -1 else 0.

Definition computeSemanticAdjustment (c : AutoRoutingConfig) (req : ChatRequest) : Z :=
  let fullContent := String.concat "" (map (fun m => cm_Content m +:+ " ") (cr_Messages req)) in
  let structural := detectStructuralSignals fullContent in
  let defaults := bool_decide (ReasoningKeywords c = []) in
  let reasoningPhrases :=
    if defaults && bool_decide (ReasoningPhrases c = []) then defaultReasoningPhrases else ReasoningPhrases c in
  let simplePhrases :=
    if defaults && bool_decide (SimplePhrases c = []) then defaultSimplePhrases else SimplePhrases c in
  Z.b2z (HasCodeBlocks structural) + Z.b2z (HasMathNotation structural) +
  Z.b2z (HasNumberedList structural || HasBulletPoints structural) + Z.b2z (HasNestedStructure structural) +
  sign_adjust (countPhraseMatches fullContent reasoningPhrases) (countPhraseMatches fullContent simplePhrases) +
  sign_adjust (Z.of_nat (whyHowQuestions regexes fullContent)) (Z.of_nat (whatWhenQuestions regexes fullContent)) +
  Z.b2z (fewShotPatterns regexes fullContent) + Z.b2z (rolePatterns regexes fullContent).

Definition classifyByTokens (c : AutoRoutingConfig) (tokens : Z) : ComplexityTier :=
  let simpleMax := if SimpleMaxTokens c <=? 0 then 200 else SimpleMaxTokens c in
  let mediumMax := if MediumMaxTokens c <=? 0 then 600 else MediumMaxTokens c in
  if tokens <? simpleMax then TierSimple
  else if tokens <? mediumMax then TierMedium
  else TierComplex.

Definition hasReasoningKeyword (c : AutoRoutingConfig) (req : ChatRequest) : bool :=
  if bool_decide (ReasoningKeywords c = []) then false
  else
    existsb (fun m =>
      existsb (fun kw => negb (bool_decide (kw = "")) && Contains (ToLower (cm_Content m)) (ToLower kw))
        (ReasoningKeywords c))
      (cr_Messages req).

Definition tier_ladder (c : AutoRoutingConfig) : list ComplexityTier :=
  if UseFourTierMode c then [TierSimple; TierMedium; TierHard; TierHardest]
  else [TierSimple; TierMedium; TierComplex].

(** The first index of a tier. *)
Fixpoint ladder_index (t : ComplexityTier) (l : list ComplexityTier) : option Z :=
  match l with
  | [] => None
  | t' :: l => if t' =? t then Some 0 else option_map (Z.add 1) (ladder_index t l)
  end.

(** The end of [Classify]: the baseline moved along the ladder. *)
Definition apply_adjust (c : AutoRoutingConfig) (baseline : ComplexityTier) (adjust : Z) : ComplexityTier :=
  let ladder := tier_ladder c in
  match ladder_index baseline ladder with
  | None => baseline
  | Some baseIdx =>
      let idx := baseIdx + adjust in
      let idx := if idx <? 0 then 0 else idx in
      let idx := if Z.of_nat (length ladder) <=? idx then Z.of_nat (length ladder) - 1 else idx in
      nth (Z.to_nat idx) ladder TierSimple
  end.

Definition request_tokens (req : ChatRequest) : Z :=
  let tokens := estimateChatTokens req in
  if cr_MaxTokens req >? 500 then tokens + 200 else tokens.

Definition request_adjust (c : AutoRoutingConfig) (req : ChatRequest) : Z :=
  let adjust := computeSemanticAdjustment c req in
  if negb (bool_decide (ReasoningKeywords c = [])) && hasReasoningKeyword c req then adjust + 1 else adjust.

Definition Classify (c : AutoRoutingConfig) (req : ChatRequest) : ComplexityTier :=
  apply_adjust c (classifyByTokens c (request_tokens req)) (request_adjust c req).

(** The single-message chat request of a completion. *)
Definition ClassifyCompletion (c : AutoRoutingConfig) (req : CompletionRequest) : ComplexityTier :=
  Classify c {| cr_Model := ""; cr_Messages := [ {| cm_Role := "user"; cm_Content := cq_Prompt req |} ];
                cr_Stream := false; cr_MaxTokens := cq_MaxTokens req; cr_Temperature := f0 |}.

(** ** Resolution ([server.go]); [inl tier] is the error for that tier *)

Definition autoModelAlias : string := "auto".

Definition resolve_auto (cfg : option AutoRoutingConfig) (model : string) (classify : AutoRoutingConfig -> ComplexityTier) : ComplexityTier + string :=
  if bool_decide (model <> autoModelAlias) || negb (autoRoutingActive cfg) then inr model
  else
    match cfg with
    | None => inr model
    | Some c =>
        let tier := classify c in
        match ResolveModel cfg tier with
        | Some model => inr model
        | None => inl tier
        end
    end.

Definition resolveAutoModelChat (cfg : option AutoRoutingConfig) (req : ChatRequest) : ComplexityTier + string :=
  resolve_auto cfg (cr_Model req) (fun c => Classify c req).

Definition resolveAutoModelCompletion (cfg : option AutoRoutingConfig) (req : CompletionRequest) : ComplexityTier + string :=
  resolve_auto cfg (cq_Model req) (fun c => ClassifyCompletion c req).

(** The model rewriting of [handleInference]: the auto alias, then the
    user's aliases. *)
Definition rewrite_model {T} `{InferenceRequest T} (resolveAuto : T -> ComplexityTier + string)
    (aliases : option (gmap string AliasTarget)) (req : T) : ComplexityTier + T :=
  match resolveAuto req with
  | inl tier => inl tier
  | inr model =>
      let req := SetModel model req in
      inr (SetModel (resolveAliasModel aliases (GetModel req)) req)
  end.

(** ** The classifier is a clamped, monotone ladder *)

Definition ladder_top (c : AutoRoutingConfig) : Z := if UseFourTierMode c then 3 else 2.

(** Where a baseline stands: [TierComplex] is the top rung in both modes. *)
Definition base_rung (c : AutoRoutingConfig) (t : ComplexityTier) : Z :=
  if t =? TierSimple then 0 else if t =? TierMedium then 1 else ladder_top c.

Definition rung_tier (c : AutoRoutingConfig) (i : Z) : ComplexityTier :=
  if UseFourTierMode c then i else if i =? 2 then TierComplex else i.

Lemma classifyByTokens_cases c tokens :
  classifyByTokens c tokens = TierSimple \/ classifyByTokens c tokens = TierMedium \/ classifyByTokens c tokens = TierComplex.
Proof. unfold classifyByTokens. repeat case_if; auto. Qed.

Lemma clamp_index k i :
  0 < k ->
  (if k <=? (if i <? 0 then 0 else i) then k - 1 else if i <? 0 then 0 else i) = Z.max 0 (Z.min (k - 1) i).
Proof. intros Hk. destruct (Z.ltb_spec i 0), (Z.leb_spec k 0), (Z.leb_spec k i); lia. Qed.

Lemma nth_rung c i :
  0 <= i <= ladder_top c -> nth (Z.to_nat i) (tier_ladder c) TierSimple = rung_tier c i.
Proof.
  unfold ladder_top, tier_ladder, rung_tier. destruct (UseFourTierMode c); intros Hi.
  - assert (i = 0 \/ i = 1 \/ i = 2 \/ i = 3) as H by lia. by destruct H as [->|[->|[->| ->]]].
  - assert (i = 0 \/ i = 1 \/ i = 2) as H by lia. by destruct H as [->|[->| ->]].
Qed.

Lemma ladder_length c : Z.of_nat (length (tier_ladder c)) = ladder_top c + 1.
Proof. unfold tier_ladder, ladder_top. by destruct (UseFourTierMode c). Qed.

Lemma ladder_index_base c baseline :
  baseline = TierSimple \/ baseline = TierMedium \/ baseline = TierComplex ->
  ladder_index baseline (tier_ladder c) = Some (base_rung c baseline).
Proof.
  intros Hb. unfold tier_ladder, base_rung, ladder_top.
  destruct Hb as [->|[->| ->]], (UseFourTierMode c); reflexivity.
Qed.

Lemma apply_adjust_rung c baseline adjust :
  baseline = TierSimple \/ baseline = TierMedium \/ baseline = TierComplex ->
  apply_adjust c baseline adjust = rung_tier c (Z.max 0 (Z.min (ladder_top c) (base_rung c baseline + adjust))).
Proof.
  intros Hb. assert (Ht : 0 < ladder_top c) by (unfold ladder_top; case_if; lia).
  unfold apply_adjust. rewrite ladder_index_base by done. cbv zeta.
  rewrite ladder_length, clamp_index by lia.
  replace (ladder_top c + 1 - 1) with (ladder_top c) by lia. apply nth_rung. lia.
Qed.

Lemma sign_adjust_range a b : -1 <= sign_adjust a b <= 1.
Proof. unfold sign_adjust. repeat case_if; lia. Qed.

Lemma request_adjust_range c req : -2 <= request_adjust c req <= 9.
Proof.
  unfold request_adjust, computeSemanticAdjustment. cbv zeta.
  repeat match goal with |- context [sign_adjust ?a ?b] => pose proof (sign_adjust_range a b); generalize dependent (sign_adjust a b); intros end.
  repeat match goal with |- context [Z.b2z ?b] => assert (0 <= Z.b2z b <= 1) by (by destruct b); generalize dependent (Z.b2z b); intros end.
  case_if; lia.
Qed.

Lemma rung_tier_mono c i j : 0 <= i <= j -> j <= ladder_top c -> rung_tier c i <= rung_tier c j.
Proof. unfold rung_tier, ladder_top, TierComplex, TierHardest. intros ? ?. repeat case_if; zbool; lia. Qed.

Lemma base_rung_mono c t1 t2 : t1 <= t2 -> base_rung c (classifyByTokens c t1) <= base_rung c (classifyByTokens c t2).
Proof.
  intros Ht. unfold classifyByTokens. cbv zeta.
  generalize (if SimpleMaxTokens c <=? 0 then 200 else SimpleMaxTokens c).
  generalize (if MediumMaxTokens c <=? 0 then 600 else MediumMaxTokens c). intros m s.
  destruct (Z.ltb_spec t1 s), (Z.ltb_spec t1 m), (Z.ltb_spec t2 s), (Z.ltb_spec t2 m);
    unfold base_rung, ladder_top; simpl; destruct (UseFourTierMode c); lia.
Qed.

(** The tier of a request is its length tier moved along the rungs of the
    mode by the adjustment, which is between -2 and 9, and stopped at both ends:
    three-tier mode never answers [TierHard]; a longer or more demanding request
    is never put on a lower tier than another one. *)
Theorem Classify_spec c req :
  let base := classifyByTokens c (request_tokens req) in
  let adjust := request_adjust c req in
  Classify c req = rung_tier c (Z.max 0 (Z.min (ladder_top c) (base_rung c base + adjust))) /\
  -2 <= adjust <= 9 /\
  (UseFourTierMode c = false -> Classify c req <> TierHard) /\
  forall req', request_tokens req <= request_tokens req' ->
    request_adjust c req <= request_adjust c req' -> Classify c req <= Classify c req'.
Proof.
  intros base adjust.
  assert (Hc : forall r, Classify c r = rung_tier c (Z.max 0 (Z.min (ladder_top c)
    (base_rung c (classifyByTokens c (request_tokens r)) + request_adjust c r)))).
  { intros r. apply apply_adjust_rung, classifyByTokens_cases. }
  assert (Ht : 0 < ladder_top c) by (unfold ladder_top; case_if; lia).
  split_and!; [apply Hc|apply request_adjust_range..| |].
  - intros H3 He. rewrite Hc in He. unfold rung_tier, ladder_top in He. rewrite H3 in He.
    unfold TierComplex, TierHardest, TierHard in He. destruct (_ =? 2) eqn:E; zbool; lia.
  - intros req' Htok Hadj. rewrite !Hc. apply rung_tier_mono; [|lia].
    pose proof (base_rung_mono c _ _ Htok). lia.
Qed.

(** Only the model auto is rewritten, and only when some tier has a model:
    then the request goes to the non-empty model of its own tier, or fails when
    that tier has none; no request is sent to another tier's model. *)
Theorem resolveAutoModelChat_spec cfg req :
  resolveAutoModelChat cfg req =
    match cfg with
    | Some c =>
        if decide (cr_Model req = autoModelAlias /\ autoRoutingActive cfg = true) then
          match Models c ≫= (.!! Classify c req) with
          | Some model => if decide (model = "") then inl (Classify c req) else inr model
          | None => inl (Classify c req)
          end
        else inr (cr_Model req)
    | None => inr (cr_Model req)
    end /\
  (forall model, resolveAutoModelChat cfg req = inr model -> cr_Model req <> "" -> model <> "").
Proof.
  assert (H : resolveAutoModelChat cfg req =
    match cfg with
    | Some c =>
        if decide (cr_Model req = autoModelAlias /\ autoRoutingActive cfg = true) then
          match Models c ≫= (.!! Classify c req) with
          | Some model => if decide (model = "") then inl (Classify c req) else inr model
          | None => inl (Classify c req)
          end
        else inr (cr_Model req)
    | None => inr (cr_Model req)
    end).
  { unfold resolveAutoModelChat, resolve_auto. destruct cfg as [c|]; [|simpl; by rewrite orb_true_r].
    destruct (decide (cr_Model req = autoModelAlias)) as [Hm|Hm].
    - rewrite bool_decide_false by (intros Hn; by apply Hn). destruct (autoRoutingActive (Some c)) eqn:Ha; cbn [orb negb].
      + rewrite decide_True by done. unfold ResolveModel. destruct (Models c) as [ms|]; [|done]. simpl.
        destruct (ms !! Classify c req) as [m|]; [|done]. by case_decide.
      + by rewrite decide_False by naive_solver.
    - rewrite bool_decide_true by done. cbn [orb negb]. by rewrite decide_False by naive_solver. }
  split; [done|]. rewrite H. intros model.
  destruct cfg as [c|]; [|by intros [= ->]]. case_decide; [|by intros [= ->]].
  destruct (Models c ≫= _); [|done]. case_decide; [done|]. by intros [= <-].
Qed.
End classifier.

(** ** The wire form *)

Section fill.
Context {K K' V : Type} `{Countable K'} (g : K * V -> option (K' * V)).

Lemma fill_lookup_gen l (m : gmap K' V) k v :
  NoDup (omap g l).*1 ->
  foldl (fun m e => match g e with Some kv => <[kv.1 := kv.2]> m | None => m end) m l !! k = Some v <->
  (k, v) ∈ omap g l \/ ((forall v', ~ (k, v') ∈ omap g l) /\ m !! k = Some v).
Proof.
  revert m. induction l as [|e l IH]; intros m Hd; simpl.
  - split; [intros Hm; right; split; [intros v' Hv; by apply elem_of_nil in Hv|exact Hm]|].
    intros [Hv|[_ Hm]]; [by apply elem_of_nil in Hv|exact Hm].
  - change (omap g (e :: l)) with (match g e with Some y => y :: omap g l | None => omap g l end) in *.
    destruct (g e) as [[k1 v1]|]; [|by apply IH].
    simpl in Hd. apply NoDup_cons in Hd as [Hn Hd]. rewrite IH by done.
    assert (Hk1 : forall v', ~ (k1, v') ∈ omap g l).
    { intros v' Hin. apply Hn, list_elem_of_fmap. by exists (k1, v'). }
    simpl. setoid_rewrite elem_of_cons. destruct (decide (k = k1)) as [->|Hne].
    + rewrite lookup_insert_eq. split; [|naive_solver].
      intros [Hin|[_ [= ->]]]; [by left; right|by left; left].
    + rewrite lookup_insert_ne by done. naive_solver.
Qed.

Lemma fill_lookup l k v : NoDup (omap g l).*1 -> fill g l !! k = Some v <-> (k, v) ∈ omap g l.
Proof.
  intros Hd. unfold fill. rewrite fill_lookup_gen by done. split; [|auto].
  intros [?|[_ Hn]]; [done|]. by rewrite lookup_empty in Hn.
Qed.
Lemma fill_elem_gen l (m : gmap K' V) k v :
  foldl (fun m e => match g e with Some kv => <[kv.1 := kv.2]> m | None => m end) m l !! k = Some v ->
  m !! k = Some v \/ exists e, e ∈ l /\ g e = Some (k, v).
Proof.
  revert m. induction l as [|e l IH]; intros m; simpl; [by left|].
  intros [Hm|(e' & He' & Hg)]%IH; [|right; exists e'; set_solver].
  destruct (g e) as [[k1 v1]|] eqn:E; [|by left].
  apply lookup_insert_Some in Hm as [[<- <-]|[_ Hm]]; [|by left]. right. exists e. set_solver.
Qed.

Lemma fill_elem l k v : fill g l !! k = Some v -> exists e, e ∈ l /\ g e = Some (k, v).
Proof. intros [Hm|?]%fill_elem_gen; [by rewrite lookup_empty in Hm|done]. Qed.

Lemma fill_nonempty_gen l (m : gmap K' V) :
  m <> ∅ \/ (exists e kv, e ∈ l /\ g e = Some kv) ->
  foldl (fun m e => match g e with Some kv => <[kv.1 := kv.2]> m | None => m end) m l <> ∅.
Proof.
  revert m. induction l as [|e l IH]; intros m; simpl.
  - intros [Hm|(e & kv & He & _)]; [done|by apply elem_of_nil in He].
  - intros Hm. apply IH. destruct (g e) as [kv|] eqn:E; [left; apply insert_non_empty|].
    destruct Hm as [Hm|(e' & kv & [->|He]%elem_of_cons & Hg)]; [by left|congruence|right; eauto].
Qed.

Lemma fill_nonempty l e kv : e ∈ l -> g e = Some kv -> fill g l <> ∅.
Proof. intros He Hg. apply fill_nonempty_gen. right. eauto. Qed.

Lemma NoDup_omap_keys l :
  NoDup l.*1 ->
  (forall e1 e2 k v1 v2, e1 ∈ l -> e2 ∈ l -> g e1 = Some (k, v1) -> g e2 = Some (k, v2) -> e1.1 = e2.1) ->
  NoDup (omap g l).*1.
Proof.
  induction l as [|e l IH]; intros Hd Hi; simpl; [constructor|].
  change (omap g (e :: l)) with (match g e with Some y => y :: omap g l | None => omap g l end).
  simpl in Hd. apply NoDup_cons in Hd as [Hn Hd].
  assert (HI : NoDup (omap g l).*1) by (apply IH; [done|intros; eapply Hi; set_solver]).
  destruct (g e) as [[k v]|] eqn:E; [|done]. simpl. constructor; [|done].
  rewrite list_elem_of_fmap. intros ([k' v'] & -> & Hin). apply list_elem_of_omap in Hin as (e' & He' & Hg').
  apply Hn, list_elem_of_fmap. exists e'. split; [|done]. eapply Hi; [set_solver..| |]; done.
Qed.
End fill.

(** What every configuration the router accepts satisfies. *)
Record config_wf (cfg : AutoRoutingConfig) : Prop := {
  cw_models : exists ms, Models cfg = Some ms /\ ms <> ∅ /\
    forall t m, ms !! t = Some m -> TierSimple <= t <= TierHardest /\ clean m;
  cw_simple : 1 <= SimpleMaxTokens cfg <= 1000000;
  cw_medium : SimpleMaxTokens cfg < MediumMaxTokens cfg /\
    (MediumMaxTokens cfg <= 1000000 \/ MediumMaxTokens cfg = SimpleMaxTokens cfg + 1);
  cw_lists : ReasoningKeywords cfg = [] /\ ReasoningPhrases cfg = [] /\ SimplePhrases cfg = [];
}.

Lemma stringToTier_range name t : stringToTier name = Some t -> TierSimple <= t <= TierHardest.
Proof.
  unfold stringToTier, TierSimple, TierMedium, TierHard, TierHardest.
  repeat (case_decide; [intros [= <-]; lia|]). done.
Qed.

Lemma tier_entry_Some e t m : tier_entry e = Some (t, m) -> TierSimple <= t <= TierHardest /\ clean m.
Proof.
  unfold tier_entry. case_decide as Hd; [done|]. destruct (stringToTier _) eqn:E; [|done]. intros [= <- <-].
  split; [by eapply stringToTier_range|]. split; [tauto|apply TrimSpace_idemp].
Qed.

Lemma token_limit_range max default : 1 <= default <= 1000000 -> 1 <= token_limit max default <= 1000000.
Proof.
  intros Hd. unfold token_limit. destruct (Z.leb_spec max 0).
  - destruct (Z.gtb_spec default 1000000); lia.
  - destruct (Z.gtb_spec max 1000000); lia.
Qed.

Lemma build_wf order req cfg : buildAutoRoutingConfig order req = Some cfg -> config_wf cfg.
Proof.
  unfold buildAutoRoutingConfig. destruct req as [req|]; [|done]. destruct (negb (req_Enabled req)); [done|].
  destruct (req_Models req); [|done]. destruct (existsb _ order) eqn:Ex; cbn [negb]; [|done]. intros [= <-].
  pose proof (token_limit_range (req_SimpleMaxTokens req) 200 ltac:(lia)).
  pose proof (token_limit_range (req_MediumMaxTokens req) 600 ltac:(lia)).
  split; cbn [Models SimpleMaxTokens MediumMaxTokens ReasoningKeywords ReasoningPhrases SimplePhrases]; [|done| |done].
  - exists (fill tier_entry order). split_and!; [done| |].
    + apply existsb_exists in Ex as (e & He & Hs). apply list_elem_of_In in He.
      destruct (tier_entry e) as [kv|] eqn:E; [|done]. by eapply fill_nonempty.
    + intros t m (e & _ & He)%fill_elem. by eapply tier_entry_Some.
  - destruct (Z.leb_spec (token_limit (req_MediumMaxTokens req) 600) (token_limit (req_SimpleMaxTokens req) 200)); lia.
Qed.

(** An auto-routing request that is accepted gives an active configuration
    with models for known tiers only, all trimmed and non-empty, and with
    thresholds in 1 to 1,000,001, the medium one above the simple one, whatever
    numbers and in whatever order the request has. *)
Theorem buildAutoRoutingConfig_spec order req cfg :
  buildAutoRoutingConfig order req = Some cfg ->
  config_wf cfg /\ autoRoutingActive (Some cfg) = true.
Proof.
  intros H%build_wf. split; [done|]. destruct H as [(ms & Hms & Hne & Hc) _ _ _].
  simpl. rewrite Hms. apply existsb_exists. apply map_choose in Hne as (t & m & Ht).
  exists (t, m). rewrite <-list_elem_of_In, elem_of_map_to_list. split; [done|].
  apply bool_decide_eq_true. by destruct (Hc _ _ Ht) as [_ [? _]].
Qed.

Lemma tier_name t : TierSimple <= t <= TierHardest ->
  stringToTier (tierToString t) = Some t /\ tierToString t <> "" /\ TrimSpace (tierToString t) = tierToString t.
Proof.
  unfold TierSimple, TierHardest. intros Ht. assert (t = 0 \/ t = 1 \/ t = 2 \/ t = 3) as H by lia.
  destruct H as [->|[->|[->| ->]]]; split_and!; by vm_compute.
Qed.

Lemma name_entry_Some t m name model :
  TierSimple <= t <= TierHardest -> name_entry (t, m) = Some (name, model) <-> name = tierToString t /\ model = m.
Proof.
  intros Ht. unfold name_entry. simpl. rewrite decide_False by (by apply tier_name). naive_solver.
Qed.

(** The configuration the router shows, sent back, is the configuration it
    has, in whatever order the two maps are visited. *)
Theorem auto_config_roundtrip order req cfg shown back :
  buildAutoRoutingConfig order req = Some cfg ->
  (forall ms, Models cfg = Some ms -> shown ≡ₚ map_to_list ms) ->
  (forall ms, req_Models (toAutoRoutingConfigDTO shown (Some cfg)) = Some ms -> back ≡ₚ map_to_list ms) ->
  buildAutoRoutingConfig back (Some (toAutoRoutingConfigDTO shown (Some cfg))) = Some cfg.
Proof.
  intros [(ms & Hms & Hne & Hc) Hs Hm (Hk & Hr & Hp)]%build_wf Hshown Hback.
  unfold toAutoRoutingConfigDTO in *. rewrite Hms in *. specialize (Hshown _ eq_refl). specialize (Hback _ eq_refl).
  assert (Hin : forall t m, (t, m) ∈ shown <-> ms !! t = Some m).
  { intros t m. by rewrite Hshown, elem_of_map_to_list. }
  assert (Hd1 : NoDup (omap name_entry shown).*1).
  { apply NoDup_omap_keys; [rewrite Hshown; apply NoDup_fst_map_to_list|].
    intros [t1 m1] [t2 m2] k v1 v2 H1%Hin H2%Hin. apply Hc in H1 as [H1 _], H2 as [H2 _].
    rewrite !name_entry_Some by done. intros [-> _] [Heq _]. simpl.
    apply tier_name in H1 as [H1 _], H2 as [H2 _]. congruence. }
  assert (Hin2 : forall name m, (name, m) ∈ back <-> exists t, ms !! t = Some m /\ name = tierToString t).
  { intros name m. rewrite Hback, elem_of_map_to_list, fill_lookup, list_elem_of_omap by done. split.
    - intros ([t m'] & H1%Hin & H2). apply name_entry_Some in H2 as [-> ->]; [eauto|by eapply Hc].
    - intros (t & Ht & ->). exists (t, m). split; [by apply Hin|]. apply name_entry_Some; [by eapply Hc|done]. }
  assert (Hte : forall t m, ms !! t = Some m -> tier_entry (tierToString t, m) = Some (t, m)).
  { intros t m Ht. destruct (Hc _ _ Ht) as [(H1 & H2 & H3)%tier_name [H4 H5]].
    unfold tier_entry. simpl. rewrite H3, H5, H1, decide_False; [done|tauto]. }
  assert (Hd2 : NoDup (omap tier_entry back).*1).
  { apply NoDup_omap_keys; [rewrite Hback; apply NoDup_fst_map_to_list|].
    intros [n1 m1] [n2 m2] k v1 v2 (t1 & H1 & ->)%Hin2 (t2 & H2 & ->)%Hin2.
    rewrite (Hte _ _ H1), (Hte _ _ H2). intros [= -> _] [= -> _]. done. }
  assert (Hfill : fill tier_entry back = ms).
  { apply map_eq. intros t. apply option_eq. intros m. rewrite fill_lookup, list_elem_of_omap by done. split.
    - intros ([n m'] & (t' & Ht' & ->)%Hin2 & He). rewrite (Hte _ _ Ht') in He. by simplify_eq.
    - intros Ht. exists (tierToString t, m). split; [apply Hin2; eauto|by apply Hte]. }
  unfold buildAutoRoutingConfig. cbn [req_Enabled req_Models req_SimpleMaxTokens req_MediumMaxTokens req_UseFourTier negb].
  assert (Hex : existsb (fun e => match tier_entry e with Some _ => true | None => false end) back = true).
  { apply existsb_exists. apply map_choose in Hne as (t & m & Ht). exists (tierToString t, m).
    rewrite <-list_elem_of_In, Hin2, (Hte _ _ Ht). eauto. }
  rewrite Hex, Hfill. cbn [negb]. destruct cfg as [Ms S M K R P F]; simpl in *; subst.
  assert (E1 : (S <=? 0) = false) by lia. assert (E2 : (M <=? 0) = false) by lia. unfold token_limit.
  rewrite E1, E2, E1, E2. assert (E3 : (S >? 1000000) = false) by lia. rewrite E3. repeat f_equal.
  destruct (Z.gtb_spec M 1000000).
  - assert (M = S + 1) as -> by lia. destruct (Z.leb_spec 1000000 S); lia.
  - by destruct (Z.leb_spec M S); [lia|].
Qed.

(** ** Witnesses *)

Definition demo_entries : list (string * string) := [(" simple", "tiny"); ("hardest", "big "); ("odd", "x")].

Definition demo_request : AutoRoutingConfigRequest :=
  {| req_Enabled := true; req_UseFourTier := false; req_Models := Some (list_to_map demo_entries);
     req_SimpleMaxTokens := 5000000; req_MediumMaxTokens := 0 |}.

Definition demo_config : AutoRoutingConfig :=
  {| Models := Some {[ 0 := "tiny"; 3 := "big" ]}; SimpleMaxTokens := 1000000; MediumMaxTokens := 1000001;
     ReasoningKeywords := []; ReasoningPhrases := []; SimplePhrases := []; UseFourTierMode := false |}.

Lemma demo_build : buildAutoRoutingConfig demo_entries (Some demo_request) = Some demo_config.
Proof. vm_compute. reflexivity. Qed.

Lemma buildAutoRoutingConfig_spec_witness : autoRoutingActive (Some demo_config) = true.
Proof. exact (proj2 (buildAutoRoutingConfig_spec _ _ _ demo_build)). Defined.

Lemma auto_config_roundtrip_witness :
  buildAutoRoutingConfig [("simple", "tiny"); ("hardest", "big")]
    (Some (toAutoRoutingConfigDTO [(3, "big"); (0, "tiny")] (Some demo_config))) = Some demo_config.
Proof.
  apply (auto_config_roundtrip demo_entries (Some demo_request)); [exact demo_build|..].
  - intros ms [= <-]. vm_compute. solve [reflexivity | apply perm_swap].
  - intros ms [= <-]. vm_compute. solve [reflexivity | apply perm_swap].
Defined.

(** The tier of both names depends on the order the map is visited in. *)
Example hardest_and_complex :
  tier_entry ("hardest", "a") = Some (3, "a") /\ tier_entry ("complex", "b") = Some (3, "b") /\
  fill tier_entry [("hardest", "a"); ("complex", "b")] <> fill tier_entry [("complex", "b"); ("hardest", "a")].
Proof. split_and!; [done..|]. intros H. apply (f_equal (lookup 3)) in H. vm_compute in H. discriminate. Qed.
