(* ===== verification/Pending.v ===== *)
(** * Pending: one call in flight on a WebSocket ([ws_pending.go], [ws_hub.go], [ws_conn.go])

    A [pendingCall] is its buffered channels and whether it is closed.  The
    functions of this file are what its methods and its message handler do to
    the channels; the maps it is registered in are in [Hub].  Go's [select]
    among several ready cases is free: the case taken is an argument. *)

From S2P Require Import Prelude Errors Protocol.

(** [select] with the outcomes of its ready cases, and of its [default] or of
    blocking when there is none; [pick] chooses. *)
Definition select {A} (ready : list A) (otherwise : A) (pick : nat) : A :=
  nth (pick mod length ready) ready otherwise.

Lemma select_nil {A} (d : A) pick : select [] d pick = d.
Proof. unfold select. by destruct (pick mod _)%nat. Qed.

Lemma select_one {A} (a d : A) pick : select [a] d pick = a.
Proof. unfold select. simpl length. by rewrite Nat.mod_1_r. Qed.

Lemma select_elem {A} (ready : list A) d pick : ready <> [] -> select ready d pick ∈ ready.
Proof.
  intros Hne. unfold select. apply list_elem_of_In, nth_In.
  apply Nat.mod_upper_bound. by destruct ready.
Qed.

Record StreamEvent := { se_Data : string; se_Done : bool }.

Record pendingCall := mkCall {
  pc_id : string;
  pc_conn : option nat;
  pc_hub : bool;
  pc_workerID : string;
  pc_queuedAt : Time;
  pc_stream : bool;
  pc_chunkCh : list StreamEvent;
  pc_respCh : list Message;
  pc_errCh : list goerr;
  pc_closed : bool;
}.

Definition set_chunks (l : list StreamEvent) (pc : pendingCall) : pendingCall :=
  mkCall (pc_id pc) (pc_conn pc) (pc_hub pc) (pc_workerID pc) (pc_queuedAt pc) (pc_stream pc) l (pc_respCh pc)
    (pc_errCh pc) (pc_closed pc).
Definition set_resps (l : list Message) (pc : pendingCall) : pendingCall :=
  mkCall (pc_id pc) (pc_conn pc) (pc_hub pc) (pc_workerID pc) (pc_queuedAt pc) (pc_stream pc) (pc_chunkCh pc) l
    (pc_errCh pc) (pc_closed pc).
Definition set_errs (l : list goerr) (pc : pendingCall) : pendingCall :=
  mkCall (pc_id pc) (pc_conn pc) (pc_hub pc) (pc_workerID pc) (pc_queuedAt pc) (pc_stream pc) (pc_chunkCh pc)
    (pc_respCh pc) l (pc_closed pc).
Definition set_closed (pc : pendingCall) : pendingCall :=
  mkCall (pc_id pc) (pc_conn pc) (pc_hub pc) (pc_workerID pc) (pc_queuedAt pc) (pc_stream pc) (pc_chunkCh pc)
    (pc_respCh pc) (pc_errCh pc) true.

(** Capacities of the channels the clients make; that of a stream is
    [SendQueueSize]. *)
Definition respCap : nat := 4.
Definition errCap : nat := 1.

(** A send that gives up when the buffer is full. *)
Definition best_effort {A} (cap : nat) (x : A) (buf : list A) : list A := default buf (try_send cap x buf).

Definition newline : string := String (Ascii.ascii_of_nat 10) "".

(** ["data: " + chunk + "\n\n"]. *)
Definition sse (chunk : string) : StreamEvent :=
  {| se_Data := "data: " +:+ chunk +:+ newline +:+ newline; se_Done := false |}.

Definition done_event : StreamEvent :=
  {| se_Data := "data: [DONE]" +:+ newline +:+ newline; se_Done := true |}.

(** ** Termination: each runs its body once ([closeOnce]) *)

Definition completeStream (pc : pendingCall) : pendingCall :=
  if pc_closed pc then pc
  else set_closed (set_chunks (best_effort SendQueueSize done_event (pc_chunkCh pc)) pc).

Definition completeCall (pc : pendingCall) : pendingCall :=
  if pc_closed pc then pc else set_closed pc.

Definition fail (e : goerr) (pc : pendingCall) : pendingCall :=
  if pc_closed pc then pc
  else set_closed (set_errs (best_effort errCap e (pc_errCh pc)) pc).

(** ** The message handlers: [None] is the panic of a send on a closed channel *)

(** [select { case pc.chunkCh <- ev: case <-pc.doneCh: default: }]. *)
Definition send_chunk (pick : nat) (ev : StreamEvent) (pc : pendingCall) : option pendingCall :=
  if pc_closed pc then select [None; Some pc] (Some pc) pick
  else Some (set_chunks (best_effort SendQueueSize ev (pc_chunkCh pc)) pc).

(** The same on [respCh], where a full channel fails the call. *)
Definition send_resp (pick : nat) (msg : Message) (pc : pendingCall) : option pendingCall :=
  if pc_closed pc then select [None; Some pc] (Some pc) pick
  else
    match try_send respCap msg (pc_respCh pc) with
    | Some buf => Some (set_resps buf pc)
    | None => Some (fail (ErrorsNew "response dropped: consumer not reading") pc)
    end.

Section handlers.
Context {J : JSON}.

(** The error of a [MsgError]; a payload that does not decode leaves it empty. *)
Definition message_error (msg : Message) : goerr :=
  ErrorsNew (ep_Message (default zero_ErrorPayload (DecodePayload zero_ErrorPayload decode_error msg))).

Definition streamPendingHandler (pick : nat) (msg : Message) (pc : pendingCall) : option pendingCall :=
  match msg_Type msg with
  | MsgInferenceChunk =>
      match DecodePayload zero_ChunkPayload decode_chunk msg with
      | None => Some (fail (ErrorsNew "bad chunk payload") pc)
      | Some p => send_chunk pick (sse (icp_Chunk p)) pc
      end
  | MsgInferenceResponse =>
      match DecodePayload zero_ResponsePayload decode_response msg with
      | None => Some (fail (ErrorsNew "bad response payload") pc)
      | Some p =>
          if decide (irp_Error p <> "") then Some (fail (ErrorsNew (irp_Error p)) pc)
          else
            pc ← (if decide (irp_Response p = "") then Some pc else send_chunk pick (sse (irp_Response p)) pc);
            Some (if irp_Done p then completeStream pc else pc)
      end
  | MsgError => Some (fail (message_error msg) pc)
  | _ => Some pc
  end.

Definition callPendingHandler (pick : nat) (msg : Message) (pc : pendingCall) : option pendingCall :=
  match msg_Type msg with
  | MsgInferenceResponse | MsgModelLoadResponse => pc ← send_resp pick msg pc; Some (completeCall pc)
  | MsgError => Some (fail (message_error msg) pc)
  | _ => Some pc
  end.

(** [pc.handle(msg)]. *)
Definition handle (pick : nat) (msg : Message) (pc : pendingCall) : option pendingCall :=
  if pc_stream pc then streamPendingHandler pick msg pc else callPendingHandler pick msg pc.

(** ** The caller's side *)

(** What [awaitResponse] makes of one response; [None] goes on waiting. *)
Definition response_result (m : Message) : option (result string) :=
  match DecodePayload zero_ResponsePayload decode_response m with
  | None => Some (inr (Wrap [ErrorsNew "decode inference response"]))
  | Some p =>
      if decide (irp_Error p <> "") then Some (inr (Wrap [Sentinel errWorkerInferenceError; ErrorsNew (irp_Error p)]))
      else if decide (irp_Response p <> "") then Some (inl (irp_Response p))
      else if irp_Done p then Some (inr (Wrap [Sentinel errWorkerInferenceError]))
      else None
  end.

(** The results [awaitResponse] may return at once with [resps] and [errs] in its
    channels: one per ready case; none when it blocks.  [ctx] is [ctx.Err()]. *)
Fixpoint awaitResponse (resps : list Message) (errs : list goerr) (closed : bool) (ctx : option sentinel) :
    list (result string) :=
  match resps with
  | [] => if closed then [inr (Sentinel errConnClosed)] else []
  | m :: resps =>
      match response_result m with
      | Some r => [r]
      | None => awaitResponse resps errs closed ctx
      end
  end ++
  match errs with [] => [] | e :: _ => [inr (Wrap [Sentinel errWorkerInferenceError; e])] end ++
  match ctx with None => [] | Some s => [inr (Sentinel s)] end.

Definition await_call (ctx : option sentinel) (pc : pendingCall) : list (result string) :=
  awaitResponse (pc_respCh pc) (pc_errCh pc) (pc_closed pc) ctx.

(** The same for [LoadModel]. *)
Definition load_result (m : Message) : result bool :=
  match DecodePayload zero_ModelLoadResponse decode_model_load_response m with
  | None => inr (Wrap [ErrorsNew "decode model load response"])
  | Some p => if decide (mlr_Error p <> "") then inr (ErrorsNew (mlr_Error p)) else inl (mlr_Loaded p)
  end.

Definition await_load (ctx : option sentinel) (pc : pendingCall) : list (result bool) :=
  match pc_respCh pc with
  | [] => if pc_closed pc then [inr (Sentinel errConnClosed)] else []
  | m :: _ => [load_result m]
  end ++
  match pc_errCh pc with [] => [] | e :: _ => [inr e] end ++
  match ctx with None => [] | Some s => [inr (Sentinel s)] end.

(** ** What a streaming message amounts to *)

Inductive ending := EndDone | EndError (e : goerr).

(** The frames a message carries and how it ends the stream, if it does. *)
Definition stream_effect (msg : Message) : list StreamEvent * option ending :=
  match msg_Type msg with
  | MsgInferenceChunk =>
      match DecodePayload zero_ChunkPayload decode_chunk msg with
      | None => ([], Some (EndError (ErrorsNew "bad chunk payload")))
      | Some p => ([sse (icp_Chunk p)], None)
      end
  | MsgInferenceResponse =>
      match DecodePayload zero_ResponsePayload decode_response msg with
      | None => ([], Some (EndError (ErrorsNew "bad response payload")))
      | Some p =>
          if decide (irp_Error p <> "") then ([], Some (EndError (ErrorsNew (irp_Error p))))
          else (if decide (irp_Response p = "") then [] else [sse (irp_Response p)],
                if irp_Done p then Some EndDone else None)
      end
  | MsgError => ([], Some (EndError (message_error msg)))
  | _ => ([], None)
  end.

Definition push_frames (evs : list StreamEvent) (pc : pendingCall) : pendingCall :=
  set_chunks (foldl (fun buf ev => best_effort SendQueueSize ev buf) (pc_chunkCh pc) evs) pc.

Definition end_call (en : option ending) (pc : pendingCall) : pendingCall :=
  match en with
  | None => pc
  | Some EndDone => completeStream pc
  | Some (EndError e) => fail e pc
  end.

Lemma set_chunks_id pc : set_chunks (pc_chunkCh pc) pc = pc.
Proof. by destruct pc. Qed.

(** On an open call the handler does just that, whatever [select] picks; in
    particular it does not panic. *)
Lemma stream_handler_effect pick msg pc :
  pc_closed pc = false ->
  streamPendingHandler pick msg pc =
  Some (end_call (stream_effect msg).2 (push_frames (stream_effect msg).1 pc)).
Proof.
  intros Ho. unfold streamPendingHandler, stream_effect, send_chunk, push_frames.
  destruct (msg_Type msg); simpl; rewrite ?set_chunks_id; try done.
  - destruct (DecodePayload _ _ _); simpl; rewrite ?set_chunks_id, ?Ho; done.
  - destruct (DecodePayload _ _ _) as [p|]; simpl; rewrite ?set_chunks_id; [|done].
    destruct (decide (irp_Error p <> "")); simpl; rewrite ?set_chunks_id; [done|].
    destruct (decide (irp_Response p = "")); simpl; rewrite ?Ho, ?set_chunks_id; by destruct (irp_Done p).
Qed.

(** ** The life of a streaming call *)

Inductive call_event :=
| Routed (pick : nat) (msg : Message)
| Failed (e : goerr)
| ReadChunk
| ReadErr.

(** A call with what its caller has received ([ac_got], [ac_errs]) and, for the
    statement, the frames routed to it, its ending and whether the caller ever
    left room for fewer than two events. *)
Record account := mkAccount {
  ac_pc : pendingCall;
  ac_got : list StreamEvent;
  ac_errs : list goerr;
  ac_sent : list StreamEvent;
  ac_end : option ending;
  ac_tight : bool;
}.

(** A message reaches a call through the map of pending calls, which a closed
    call has left. *)
Definition account_step (a : account) (e : call_event) : account :=
  let pc := ac_pc a in
  match e with
  | Routed pick msg =>
      if pc_closed pc then a
      else
        mkAccount (default pc (streamPendingHandler pick msg pc)) (ac_got a) (ac_errs a)
          (ac_sent a ++ (stream_effect msg).1) (stream_effect msg).2
          (ac_tight a || (SendQueueSize <? length (pc_chunkCh pc) + 2)%nat)
  | Failed err =>
      if pc_closed pc then a
      else mkAccount (fail err pc) (ac_got a) (ac_errs a) (ac_sent a) (Some (EndError err)) (ac_tight a)
  | ReadChunk =>
      match pc_chunkCh pc with
      | [] => a
      | ev :: evs => mkAccount (set_chunks evs pc) (ac_got a ++ [ev]) (ac_errs a) (ac_sent a) (ac_end a) (ac_tight a)
      end
  | ReadErr =>
      match pc_errCh pc with
      | [] => a
      | err :: errs => mkAccount (set_errs errs pc) (ac_got a) (ac_errs a ++ [err]) (ac_sent a) (ac_end a) (ac_tight a)
      end
  end.

Definition open_account (pc : pendingCall) : account := mkAccount pc [] [] [] None false.

(** A call as [registerStream] or [registerCall] makes it. *)
Definition fresh_call (pc : pendingCall) : Prop :=
  pc_chunkCh pc = [] /\ pc_respCh pc = [] /\ pc_errCh pc = [] /\ pc_closed pc = false.

(** All the events the caller got or can get, and all the errors. *)
Definition events_out (a : account) : list StreamEvent := ac_got a ++ pc_chunkCh (ac_pc a).
Definition errors_out (a : account) : list goerr := ac_errs a ++ pc_errCh (ac_pc a).

Record account_inv (a : account) : Prop := {
  ai_events : exists kept, kept `sublist_of` ac_sent a /\ (ac_tight a = false -> kept = ac_sent a) /\
    (events_out a = kept \/ events_out a = kept ++ [done_event] /\ ac_end a = Some EndDone) /\
    (ac_tight a = false -> ac_end a = Some EndDone -> events_out a = kept ++ [done_event]);
  ai_errors : errors_out a = match ac_end a with Some (EndError e) => [e] | _ => [] end;
  ai_closed : pc_closed (ac_pc a) = match ac_end a with Some _ => true | None => false end;
}.

Lemma best_effort_cases {A} cap (x : A) buf :
  best_effort cap x buf = buf ++ [x] \/ best_effort cap x buf = buf /\ (cap <= length buf)%nat.
Proof.
  unfold best_effort. destruct (try_send cap x buf) as [b|] eqn:E; simpl.
  - apply try_send_Some in E as [_ ->]. by left.
  - apply try_send_None in E. by right.
Qed.

Lemma best_effort_room {A} cap (x : A) buf : (length buf < cap)%nat -> best_effort cap x buf = buf ++ [x].
Proof. intros H. destruct (best_effort_cases cap x buf) as [?|[_ ?]]; [done|lia]. Qed.

Lemma push_frames_chunks evs pc :
  exists kept, pc_chunkCh (push_frames evs pc) = pc_chunkCh pc ++ kept /\ kept `sublist_of` evs /\
    ((length (pc_chunkCh pc) + length evs <= SendQueueSize)%nat -> kept = evs).
Proof.
  unfold push_frames. simpl. generalize (pc_chunkCh pc). intros buf. revert buf.
  induction evs as [|ev evs IH]; intros buf; cbn [foldl length].
  - exists []. rewrite app_nil_r. done.
  - destruct (IH (best_effort SendQueueSize ev buf)) as (kept & -> & Hs & Hr).
    destruct (best_effort_cases SendQueueSize ev buf) as [Hb|[Hb Hl]]; rewrite Hb in *.
    + exists (ev :: kept). rewrite <-(assoc_L (++)). split_and!; [done|by constructor|].
      intros Hl. f_equal. apply Hr. rewrite length_app. simpl. lia.
    + exists kept. split_and!; [done|by constructor|]. lia.
Qed.

Lemma stream_effect_short msg : (length (stream_effect msg).1 <= 1)%nat.
Proof. unfold stream_effect. repeat (case_match; simpl; try lia). Qed.

Lemma SendQueueSize_pos : (2 <= SendQueueSize)%nat.
Proof. unfold SendQueueSize. lia. Qed.

#[local] Opaque SendQueueSize.

Lemma account_inv_routed pick msg a :
  account_inv a -> pc_closed (ac_pc a) = false -> account_inv (account_step a (Routed pick msg)).
Proof.
  intros [(kept & Hk & Hfull & Hev & _) Herr Hcl] Ho. simpl. rewrite Ho in *.
  destruct (ac_end a) eqn:Een; [done|]. destruct Hev as [Hev|[_ ?]]; [|done].
  rewrite stream_handler_effect by done. simpl.
  destruct (push_frames_chunks (stream_effect msg).1 (ac_pc a)) as (new & Hnew & Hsub & Hroom).
  pose proof (stream_effect_short msg) as Hshort.
  set (pc' := push_frames (stream_effect msg).1 (ac_pc a)) in *.
  assert (Ho' : pc_closed pc' = false) by done.
  assert (Herr' : ac_errs a ++ pc_errCh pc' = []) by exact Herr. clearbody pc'.
  assert (Hout : ac_got a ++ pc_chunkCh pc' = kept ++ new).
  { rewrite Hnew, (assoc_L (++)). by rewrite <-Hev. }
  assert (Hsub' : kept ++ new `sublist_of` ac_sent a ++ (stream_effect msg).1) by by apply sublist_app.
  assert (Hfull' : ac_tight a || (SendQueueSize <? length (pc_chunkCh (ac_pc a)) + 2)%nat = false ->
    kept ++ new = ac_sent a ++ (stream_effect msg).1 /\ (length (pc_chunkCh pc') < SendQueueSize)%nat).
  { intros [Ht Hr]%orb_false_iff. apply Nat.ltb_ge in Hr.
    assert (Hn : new = (stream_effect msg).1) by (apply Hroom; lia).
    split; [f_equal; auto|]. rewrite Hnew, Hn, length_app. lia. }
  destruct (stream_effect msg).2 as [[|e]|]; simpl.
  - unfold completeStream. rewrite Ho'. split; [|done|done]. exists (kept ++ new).
    unfold events_out. simpl. split_and!; [done|intros Ht; by apply Hfull'|..].
    + destruct (best_effort_cases SendQueueSize done_event (pc_chunkCh pc')) as [Hb|[Hb _]]; rewrite Hb.
      * right. split; [|done]. by rewrite (assoc_L (++)), Hout.
      * by left.
    + intros Ht _. apply Hfull' in Ht as [_ Hl]. by rewrite best_effort_room, (assoc_L (++)), Hout.
  - unfold fail. rewrite Ho'. split; [| |done].
    + exists (kept ++ new). unfold events_out. simpl. split_and!; [done|intros Ht; by apply Hfull'|by left|done].
    + unfold errors_out. simpl. apply app_eq_nil in Herr' as [-> ->]. done.
  - split; [|done|done]. exists (kept ++ new). unfold events_out. split_and!; [done|intros Ht; by apply Hfull'|by left|done].
Qed.

Lemma account_inv_step e a : account_inv a -> account_inv (account_step a e).
Proof.
  intros Ha. destruct e as [pick msg|err| |]; simpl.
  - destruct (pc_closed (ac_pc a)) eqn:Ho; [done|]. pose proof (account_inv_routed pick msg a Ha Ho) as H.
    simpl in H. by rewrite Ho in H.
  - destruct (pc_closed (ac_pc a)) eqn:Ho; [done|]. destruct Ha as [(kept & Hk & Hfull & Hev & _) Herr Hcl].
    destruct (ac_end a) eqn:Een; [congruence|]. destruct Hev as [Hev|[_ ?]]; [|done].
    unfold fail. rewrite Ho. split; simpl; [|unfold errors_out in *; simpl|done].
    + exists kept. by split_and!; [..|left|].
    + apply app_eq_nil in Herr as [-> ->]. done.
  - destruct (pc_chunkCh (ac_pc a)) as [|ev evs] eqn:E; [done|].
    destruct Ha as [Hev Herr Hcl]. split; [|done|done].
    assert (Ho : events_out (mkAccount (set_chunks evs (ac_pc a)) (ac_got a ++ [ev]) (ac_errs a) (ac_sent a) (ac_end a) (ac_tight a)) = events_out a).
    { unfold events_out. simpl. by rewrite <-(assoc_L (++)), E. }
    simpl. by rewrite Ho.
  - destruct (pc_errCh (ac_pc a)) as [|e errs] eqn:E; [done|].
    destruct Ha as [Hev Herr Hcl]. split; [done| |done]. unfold errors_out in *. rewrite E in Herr. simpl.
    by rewrite <-(assoc_L (++)).
Qed.

Lemma account_inv_run evs a : account_inv a -> account_inv (foldl account_step a evs).
Proof. revert a. induction evs as [|e evs IH]; intros a Ha; simpl; [done|]. by apply IH, account_inv_step. Qed.

Lemma account_inv_open pc : fresh_call pc -> account_inv (open_account pc).
Proof.
  intros (H1 & H2 & H3 & H4). split; simpl; unfold events_out, errors_out; simpl; rewrite ?H1, ?H3, ?H4; [|done|done].
  exists []. by split_and!; auto.
Qed.

(** Whatever the worker sends, whatever fails and however slowly the client
    reads, the events of a stream are frames of the worker's messages, in order,
    possibly with the [DONE] sentinel after them; a stream ends at most once,
    with the sentinel or with one error and never with both; and when the
    client leaves room for two events, no frame and no sentinel is lost. *)
Theorem stream_delivery pc evs :
  fresh_call pc ->
  let a := foldl account_step (open_account pc) evs in
  exists kept tail,
    events_out a = kept ++ tail /\ kept `sublist_of` ac_sent a /\
    (tail = [] \/ tail = [done_event] /\ ac_end a = Some EndDone) /\
    errors_out a = match ac_end a with Some (EndError e) => [e] | _ => [] end /\
    (pc_closed (ac_pc a) = true <-> ac_end a <> None) /\
    (ac_tight a = false -> kept = ac_sent a /\ (ac_end a = Some EndDone -> tail = [done_event])).
Proof.
  intros Hf a. destruct (account_inv_run evs _ (account_inv_open _ Hf)) as [(kept & Hk & Hfull & Hev & Hdone) Herr Hcl].
  fold a in Hk, Hfull, Hev, Hdone, Herr, Hcl.
  assert (Hc : pc_closed (ac_pc a) = true <-> ac_end a <> None) by (rewrite Hcl; by destruct (ac_end a)).
  destruct Hev as [Hev|[Hev He]].
  - exists kept, []. rewrite app_nil_r. split_and!; [done|done|by left|done..|].
    intros Ht. split; [auto|]. intros He. rewrite Hdone in Hev by done.
    apply (f_equal length) in Hev. rewrite length_app in Hev. simpl in Hev. lia.
  - exists kept, [done_event]. split_and!; auto.
Qed.

(** ** The result of a single-response call *)

Definition call_step (pc : pendingCall) (e : call_event) : pendingCall :=
  match e with
  | Routed pick msg => if pc_closed pc then pc else default pc (callPendingHandler pick msg pc)
  | Failed err => fail err pc
  | _ => pc
  end.

Lemma call_steps_closed pc evs : pc_closed pc = true -> foldl call_step pc evs = pc.
Proof.
  intros Hc. induction evs as [|e evs IH]; simpl; [done|].
  assert (Hs : call_step pc e = pc) by (destruct e; simpl; unfold fail; by rewrite ?Hc).
  by rewrite Hs.
Qed.

(** A single-response call ends with the first event it gets.  A response
    gives exactly its result, whatever comes later: the body, the worker's
    error, or, when it has neither and is not final, a closed connection.  An
    error gives that error or, just as possibly, a closed connection: both
    channels are ready and [select] takes either. *)
Theorem call_result pc pick msg evs :
  fresh_call pc -> pc_stream pc = false ->
  let pc' := foldl call_step pc (Routed pick msg :: evs) in
  (msg_Type msg = MsgInferenceResponse ->
     await_call None pc' = [default (inr (Sentinel errConnClosed)) (response_result msg)]) /\
  (msg_Type msg = MsgModelLoadResponse -> await_load None pc' = [load_result msg]) /\
  (forall e, await_call None (foldl call_step pc (Failed e :: evs)) =
     [inr (Sentinel errConnClosed); inr (Wrap [Sentinel errWorkerInferenceError; e])]).
Proof.
  intros (_ & H2 & H3 & H4) _ pc'. subst pc'. simpl. rewrite H4. split_and!.
  1,2: intros Ht; unfold callPendingHandler, send_resp; rewrite Ht, H4; simpl; rewrite H2; simpl;
       unfold completeCall; simpl; rewrite H4, call_steps_closed by done;
       unfold await_call, await_load; simpl; rewrite H3; simpl.
  - by destruct (response_result msg).
  - done.
  - intros e. unfold fail. rewrite H4, call_steps_closed by done. unfold await_call. simpl.
    rewrite H2, H3. done.
Qed.

(** A call looked up before it was closed and handled after: the send on its
    closed channel may be the case taken, and panics. *)
Lemma late_message_panics msg pc p :
  pc_closed pc = true -> msg_Type msg = MsgInferenceChunk ->
  DecodePayload zero_ChunkPayload decode_chunk msg = Some p ->
  streamPendingHandler 0 msg pc = None.
Proof. intros Hc Ht Hp. unfold streamPendingHandler, send_chunk. by rewrite Ht, Hp, Hc. Qed.
End handlers.

(** ** A concrete stream: the payload of a chunk is the chunk *)

#[local] Instance demo_json : JSON :=
  {| decode_register _ := None; decode_heartbeat _ := None; decode_capabilities _ := None; decode_error _ := None;
     decode_inference_request _ := None; decode_chunk c := Some {| icp_Kind := ""; icp_Chunk := c |};
     decode_response c := Some {| irp_Kind := ""; irp_Done := true; irp_Error := ""; irp_Response := c |};
     decode_cancel _ := None; decode_model_load_request _ := None; decode_model_load_response _ := None;
     decode_close _ := None; marshal_payload _ := None |}.

Definition demo_call (stream : bool) : pendingCall :=
  mkCall "c" (Some O) false "" 0 stream [] [] [] false.

Definition demo_message (t : MessageType) (payload : string) : Message :=
  {| msg_ID := "c"; msg_Type := t; msg_WorkerID := "w"; msg_Payload := payload |}.

Definition demo_events : list call_event :=
  [Routed 0 (demo_message MsgInferenceChunk "a"); ReadChunk; Routed 0 (demo_message MsgInferenceResponse "b");
   Failed (ErrorsNew "late"); ReadErr].

Example demo_stream_events :
  let a := foldl account_step (open_account (demo_call true)) demo_events in
  events_out a = [sse "a"; sse "b"; done_event] /\ errors_out a = [] /\ ac_tight a = false.
Proof. vm_compute. done. Qed.

Lemma stream_delivery_witness :
  fresh_call (demo_call true) /\
  exists kept tail,
    events_out (foldl account_step (open_account (demo_call true)) demo_events) = kept ++ tail /\
    kept `sublist_of` ac_sent (foldl account_step (open_account (demo_call true)) demo_events).
Proof.
  split; [by vm_compute|].
  destruct (stream_delivery (demo_call true) demo_events ltac:(by vm_compute)) as (kept & tail & H1 & H2 & _).
  by exists kept, tail.
Defined.

Lemma call_result_witness :
  fresh_call (demo_call false) /\ pc_stream (demo_call false) = false /\
  await_call None (foldl call_step (demo_call false)
    [Routed 0 (demo_message MsgInferenceResponse "b"); Failed (Sentinel errConnClosed)]) = [inl "b"].
Proof.
  split; [by vm_compute|]. split; [done|].
  destruct (call_result (demo_call false) 0 (demo_message MsgInferenceResponse "b") [Failed (Sentinel errConnClosed)]
    ltac:(by vm_compute) ltac:(done)) as (H & _ & _).
  exact (H eq_refl).
Defined.
