(* ===== verification/Hub.v ===== *)
(** * Hub: the router's side of the workers' WebSockets ([ws_hub.go], [ws_conn.go], [ws_relay.go], [ws_stats.go])

    Connections and pending calls are objects several goroutines share: they
    live in two heaps, and the maps of the program hold references.  A method
    is atomic here; where the program releases a lock in the middle and it
    matters (the handshake, the loops) the pieces are operations of their own,
    which [System] interleaves.  What Go leaves open, the clock, the case a
    [select] takes, the order of a range over a map and the identifiers drawn,
    is the argument [ch].  A send on a closed channel panics and a second
    [Lock] of [h.mu] by its owner never returns: both are outcomes. *)

From S2P Require Import Prelude GoFloat Errors Protocol Registry QueueStats Pending.

(** ** Outcomes *)

Inductive out (A : Type) := OK (a : A) | Panicked | Deadlocked.
Arguments OK {A}.
Arguments Panicked {A}.
Arguments Deadlocked {A}.

Definition obind {A B} (x : out A) (f : A -> out B) : out B :=
  match x with OK a => f a | Panicked => Panicked | Deadlocked => Deadlocked end.

Notation "'do' x <- m ; k" := (obind m (fun x => k)) (at level 10, x pattern, m at level 100, k at level 200).

(** ** State *)

Record wsConnection := mkConn {
  c_id : string;
  c_socket : bool;
  c_sendCh : list raw;
  c_done : bool;
  c_queueDepth : Z;
  c_worker : WorkerInfo;
  c_pending : gmap string nat;
  c_rejected429 : Z;
  c_rejected504 : Z;
  c_slot : option nat;
  c_slotReleased : bool;
  c_grace : bool;
}.

Definition set_sendCh (q : list raw) (c : wsConnection) : wsConnection :=
  mkConn (c_id c) (c_socket c) q (c_done c) (c_queueDepth c) (c_worker c) (c_pending c) (c_rejected429 c)
    (c_rejected504 c) (c_slot c) (c_slotReleased c) (c_grace c).
Definition close_done (c : wsConnection) : wsConnection :=
  mkConn (c_id c) (c_socket c) (c_sendCh c) true (c_queueDepth c) (c_worker c) (c_pending c) (c_rejected429 c)
    (c_rejected504 c) (c_slot c) (c_slotReleased c) (c_grace c).
Definition add_depth (n : Z) (c : wsConnection) : wsConnection :=
  mkConn (c_id c) (c_socket c) (c_sendCh c) (c_done c) (wrap64 (c_queueDepth c + n)) (c_worker c) (c_pending c)
    (c_rejected429 c) (c_rejected504 c) (c_slot c) (c_slotReleased c) (c_grace c).
Definition setWorker (w : WorkerInfo) (c : wsConnection) : wsConnection :=
  mkConn (c_id c) (c_socket c) (c_sendCh c) (c_done c) (c_queueDepth c) w (c_pending c) (c_rejected429 c)
    (c_rejected504 c) (c_slot c) (c_slotReleased c) (c_grace c).
Definition set_pending (p : gmap string nat) (c : wsConnection) : wsConnection :=
  mkConn (c_id c) (c_socket c) (c_sendCh c) (c_done c) (c_queueDepth c) (c_worker c) p (c_rejected429 c)
    (c_rejected504 c) (c_slot c) (c_slotReleased c) (c_grace c).
Definition count429 (c : wsConnection) : wsConnection :=
  mkConn (c_id c) (c_socket c) (c_sendCh c) (c_done c) (c_queueDepth c) (c_worker c) (c_pending c)
    (wrap64 (c_rejected429 c + 1)) (c_rejected504 c) (c_slot c) (c_slotReleased c) (c_grace c).
Definition count504 (c : wsConnection) : wsConnection :=
  mkConn (c_id c) (c_socket c) (c_sendCh c) (c_done c) (c_queueDepth c) (c_worker c) (c_pending c)
    (c_rejected429 c) (wrap64 (c_rejected504 c + 1)) (c_slot c) (c_slotReleased c) (c_grace c).
Definition drop_slot (c : wsConnection) : wsConnection :=
  mkConn (c_id c) (c_socket c) (c_sendCh c) (c_done c) (c_queueDepth c) (c_worker c) (c_pending c)
    (c_rejected429 c) (c_rejected504 c) None true (c_grace c).
Definition start_grace (c : wsConnection) : wsConnection :=
  mkConn (c_id c) (c_socket c) (c_sendCh c) (c_done c) (c_queueDepth c) (c_worker c) (c_pending c)
    (c_rejected429 c) (c_rejected504 c) (c_slot c) (c_slotReleased c) true.

(** A semaphore channel: its capacity and how many tokens it holds. *)
Record semaphore := { sem_cap : Z; sem_held : Z }.

(** The fields that only the setters called before serving change. *)
Record hubConfig := {
  hc_apiKey : string;
  hc_maxInFlight : Z;
  hc_sendQueueSize : nat;
  hc_relayURL : string;
}.

(** The relay fields; [relayConn] is named by a number, [None] is nil. *)
Record relayLink := mkLink {
  relayConn : option nat;
  relaySendCh : list raw;
  relayPending : gmap string nat;
  relayInFlight : gmap string Z;
  relayRejected429 : gmap string Z;
  relayRejected504 : gmap string Z;
}.

Record WSHub := mkHub {
  h_cfg : hubConfig;
  h_reg : option memoryRegistry;
  h_conns : gmap string nat;
  h_heap : gmap nat wsConnection;
  h_calls : gmap nat pendingCall;
  h_relay : relayLink;
  h_qm : reservoir;
  h_workerMaxInFlight : gmap string Z;
  h_maxConnections : Z;
  h_connSem : option nat;
  h_sems : gmap nat semaphore;
}.

Definition set_cfg (c : hubConfig) (h : WSHub) : WSHub :=
  mkHub c (h_reg h) (h_conns h) (h_heap h) (h_calls h) (h_relay h) (h_qm h) (h_workerMaxInFlight h)
    (h_maxConnections h) (h_connSem h) (h_sems h).
Definition set_reg (r : option memoryRegistry) (h : WSHub) : WSHub :=
  mkHub (h_cfg h) r (h_conns h) (h_heap h) (h_calls h) (h_relay h) (h_qm h) (h_workerMaxInFlight h)
    (h_maxConnections h) (h_connSem h) (h_sems h).
Definition set_conns (m : gmap string nat) (h : WSHub) : WSHub :=
  mkHub (h_cfg h) (h_reg h) m (h_heap h) (h_calls h) (h_relay h) (h_qm h) (h_workerMaxInFlight h)
    (h_maxConnections h) (h_connSem h) (h_sems h).
Definition set_heap (m : gmap nat wsConnection) (h : WSHub) : WSHub :=
  mkHub (h_cfg h) (h_reg h) (h_conns h) m (h_calls h) (h_relay h) (h_qm h) (h_workerMaxInFlight h)
    (h_maxConnections h) (h_connSem h) (h_sems h).
Definition set_calls (m : gmap nat pendingCall) (h : WSHub) : WSHub :=
  mkHub (h_cfg h) (h_reg h) (h_conns h) (h_heap h) m (h_relay h) (h_qm h) (h_workerMaxInFlight h)
    (h_maxConnections h) (h_connSem h) (h_sems h).
Definition set_relay (l : relayLink) (h : WSHub) : WSHub :=
  mkHub (h_cfg h) (h_reg h) (h_conns h) (h_heap h) (h_calls h) l (h_qm h) (h_workerMaxInFlight h)
    (h_maxConnections h) (h_connSem h) (h_sems h).
Definition set_qm (q : reservoir) (h : WSHub) : WSHub :=
  mkHub (h_cfg h) (h_reg h) (h_conns h) (h_heap h) (h_calls h) (h_relay h) q (h_workerMaxInFlight h)
    (h_maxConnections h) (h_connSem h) (h_sems h).
Definition set_caps (m : gmap string Z) (h : WSHub) : WSHub :=
  mkHub (h_cfg h) (h_reg h) (h_conns h) (h_heap h) (h_calls h) (h_relay h) (h_qm h) m
    (h_maxConnections h) (h_connSem h) (h_sems h).
Definition set_sem (n : Z) (s : option nat) (m : gmap nat semaphore) (h : WSHub) : WSHub :=
  mkHub (h_cfg h) (h_reg h) (h_conns h) (h_heap h) (h_calls h) (h_relay h) (h_qm h) (h_workerMaxInFlight h)
    n s m.

Definition set_relayConn (c : option nat) (l : relayLink) : relayLink :=
  mkLink c (relaySendCh l) (relayPending l) (relayInFlight l) (relayRejected429 l) (relayRejected504 l).
Definition set_relaySendCh (q : list raw) (l : relayLink) : relayLink :=
  mkLink (relayConn l) q (relayPending l) (relayInFlight l) (relayRejected429 l) (relayRejected504 l).
Definition set_relayPending (p : gmap string nat) (l : relayLink) : relayLink :=
  mkLink (relayConn l) (relaySendCh l) p (relayInFlight l) (relayRejected429 l) (relayRejected504 l).
Definition set_relayInFlight (m : gmap string Z) (l : relayLink) : relayLink :=
  mkLink (relayConn l) (relaySendCh l) (relayPending l) m (relayRejected429 l) (relayRejected504 l).
Definition set_relayRejected (m429 m504 : gmap string Z) (l : relayLink) : relayLink :=
  mkLink (relayConn l) (relaySendCh l) (relayPending l) (relayInFlight l) m429 m504.

Definition upd_relay (f : relayLink -> relayLink) (h : WSHub) : WSHub := set_relay (f (h_relay h)) h.
Definition upd_conn (r : nat) (f : wsConnection -> wsConnection) (h : WSHub) : WSHub :=
  set_heap (alter f r (h_heap h)) h.
Definition set_call (k : nat) (pc : pendingCall) (h : WSHub) : WSHub := set_calls (<[k := pc]> (h_calls h)) h.

(** ** Construction and configuration *)

Definition defaultMaxInFlight : Z := 4.
Definition defaultMaxConnections : Z := 256.

Definition NewWSHub (reg : option memoryRegistry) : WSHub :=
  mkHub {| hc_apiKey := ""; hc_maxInFlight := defaultMaxInFlight; hc_sendQueueSize := SendQueueSize;
           hc_relayURL := "" |}
    reg ∅ ∅ ∅ (mkLink None [] ∅ ∅ ∅ ∅) newReservoir ∅ defaultMaxConnections None ∅.

Definition SetMaxInFlight (n : Z) (h : WSHub) : WSHub :=
  let c := h_cfg h in
  set_cfg {| hc_apiKey := hc_apiKey c; hc_maxInFlight := if n <=? 0 then defaultMaxInFlight else n;
             hc_sendQueueSize := hc_sendQueueSize c; hc_relayURL := hc_relayURL c |} h.

Definition SetAPIKey (key : string) (h : WSHub) : WSHub :=
  let c := h_cfg h in
  set_cfg {| hc_apiKey := key; hc_maxInFlight := hc_maxInFlight c;
             hc_sendQueueSize := hc_sendQueueSize c; hc_relayURL := hc_relayURL c |} h.

Definition SetRelayURL (url : string) (h : WSHub) : WSHub :=
  let c := h_cfg h in
  set_cfg {| hc_apiKey := hc_apiKey c; hc_maxInFlight := hc_maxInFlight c;
             hc_sendQueueSize := hc_sendQueueSize c; hc_relayURL := url |} h.

(** Whether [Handler] serves worker connections, or is nil. *)
Definition Handler (h : WSHub) : bool := bool_decide (hc_relayURL (h_cfg h) = "").

Definition SetWorkerMaxInFlight (workerID : string) (cap : Z) (h : WSHub) : WSHub :=
  if cap <=? 0 then set_caps (delete workerID (h_workerMaxInFlight h)) h
  else set_caps (<[workerID := cap]> (h_workerMaxInFlight h)) h.

Definition maxInFlightFor (h : WSHub) (workerID : string) : Z :=
  match h_workerMaxInFlight h !! workerID with
  | Some wcap =>
      if 0 <? wcap then wcap
      else if hc_maxInFlight (h_cfg h) <=? 0 then defaultMaxInFlight else hc_maxInFlight (h_cfg h)
  | None => if hc_maxInFlight (h_cfg h) <=? 0 then defaultMaxInFlight else hc_maxInFlight (h_cfg h)
  end.

Definition MaxInFlight (h : WSHub) : Z := maxInFlightFor h "".

(** [make(chan struct{}, n)], and [connSem] becomes it. *)
Definition make_connSem (n : Z) (h : WSHub) : WSHub :=
  let s := fresh (dom (h_sems h)) in
  set_sem n (Some s) (<[s := {| sem_cap := n; sem_held := 0 |}]> (h_sems h)) h.

Definition SetMaxConnections (n : Z) (h : WSHub) : WSHub :=
  make_connSem (if n <=? 0 then defaultMaxConnections else n) h.

Definition connSemFor (h : WSHub) : WSHub :=
  match h_connSem h with
  | None => make_connSem defaultMaxConnections h
  | Some _ => h
  end.

(** [ctx] is the error of the context that bounds the wait, if it is over. *)
Definition acquireConn (pick : nat) (ctx : option sentinel) (h : WSHub) : WSHub * (nat + goerr) :=
  let h := connSemFor h in
  let s := default O (h_connSem h) in
  let sem := default {| sem_cap := 0; sem_held := 0 |} (h_sems h !! s) in
  let acquired :=
    (set_sem (h_maxConnections h) (h_connSem h)
       (<[s := {| sem_cap := sem_cap sem; sem_held := sem_held sem + 1 |}]> (h_sems h)) h, inl s) in
  select ((if sem_held sem <? sem_cap sem then [acquired] else []) ++
          (match ctx with Some e => [(h, inr (Sentinel e))] | None => [] end))
    (h, inr (Sentinel errConnLimit)) pick.

(** [releaseSlot]: the receive takes a token if there is one. *)
Definition releaseSlot (r : nat) (h : WSHub) : WSHub :=
  match h_heap h !! r with
  | None => h
  | Some c =>
      if c_slotReleased c then h
      else
        let h := upd_conn r drop_slot h in
        match c_slot c with
        | None => h
        | Some s =>
            match h_sems h !! s with
            | None => h
            | Some sem =>
                if 0 <? sem_held sem then
                  set_sem (h_maxConnections h) (h_connSem h)
                    (<[s := {| sem_cap := sem_cap sem; sem_held := sem_held sem - 1 |}]> (h_sems h)) h
                else h
            end
        end
  end.

(** ** What Go leaves open *)

(** [encoding/json] on whole messages and request bodies, and the generator of
    the reservoir: [rng i] is the draw made at count [i].  An object is its
    fields' texts; [Some None] is the nil map that ["null"] decodes to. *)
Class Codec := {
  codec_json :: JSON;
  marshal : Message -> option raw;
  unmarshal_object : raw -> option (option (gmap string raw));
  marshal_object : gmap string raw -> option raw;
  request_model : raw -> option string;
  rng : Z -> Z;
}.

(** The choices made during one operation: the instant, the [select] case per
    connection or call, the order of a range over a map, the identifiers drawn
    and the state of the caller's context. *)
Record choices := {
  ch_now : Time;
  ch_pick : nat -> nat;
  ch_range : list nat -> list nat;
  ch_range_perm : forall l, ch_range l ≡ₚ l;
  ch_id : nat -> string;
  ch_ctx : option sentinel;
}.

(** The values of a map of references, in the order of the range. *)
Definition range_values (ch : choices) (m : gmap string nat) : list nat := ch_range ch (map snd (map_to_list m)).

Definition ctx_ready {A} (x : sentinel -> A) (ctx : option sentinel) : list A :=
  match ctx with Some e => [x e] | None => [] end.

Section hub.
Context `{C : Codec}.

Definition relayConnected (h : WSHub) : bool := bool_decide (is_Some (relayConn (h_relay h))).

(** ** Registry events *)

Definition HandleRegistryEvent (event : DiscoveryEvent) (h : WSHub) : WSHub :=
  set_caps (delete (wi_ID (de_Worker event)) (h_workerMaxInFlight h)) h.

Definition bridge (ch : choices) (event : DiscoveryEvent) (h : WSHub) : WSHub :=
  match h_reg h with
  | None => h
  | Some reg =>
      let h := set_reg (Some (HandleEvent (ch_now ch) event reg)) h in
      match de_Type event with
      | EventRemoved | EventExpired => HandleRegistryEvent event h
      | _ => h
      end
  end.

Definition discovery (t : DiscoveryEventType) (w : WorkerInfo) : DiscoveryEvent :=
  {| de_Type := t; de_Worker := w; de_Time := zero_time |}.

(** ** Pending calls *)

Definition recordWait (ch : choices) (queuedAt : Time) (h : WSHub) : WSHub :=
  set_qm (record (time_sub (ch_now ch) queuedAt) (rng (count (h_qm h))) (h_qm h)) h.

Definition decrementRelayInFlight (w : string) (l : relayLink) : relayLink :=
  let n := (relayInFlight l)@[w|0] in
  if n <=? 0 then l
  else
    let m := <[w := n - 1]> (relayInFlight l) in
    set_relayInFlight (if n - 1 =? 0 then delete w m else m) l.

(** [if cur, ok := m[id]; ok && cur == pc { delete(m, id) }]. *)
Definition delete_own (id : string) (k : nat) (m : gmap string nat) : gmap string nat :=
  if decide (m !! id = Some k) then delete id m else m.

Definition finish (ch : choices) (k : nat) (pc : pendingCall) (h : WSHub) : WSHub :=
  match pc_conn pc with
  | Some r =>
      let h := upd_conn r (fun c => set_pending (delete_own (pc_id pc) k (c_pending c)) c) h in
      if pc_hub pc then recordWait ch (pc_queuedAt pc) h else h
  | None =>
      if pc_hub pc then
        let h := upd_relay (fun l => set_relayPending (delete_own (pc_id pc) k (relayPending l)) l) h in
        if decide (pc_workerID pc <> "") then
          recordWait ch (pc_queuedAt pc) (upd_relay (decrementRelayInFlight (pc_workerID pc)) h)
        else h
      else h
  end.

(** Call [k] becomes [pc]; if that closes it, [finish] runs. *)
Definition update_call (ch : choices) (k : nat) (pc pc' : pendingCall) (h : WSHub) : WSHub :=
  let h := set_call k pc' h in
  if negb (pc_closed pc) && pc_closed pc' then finish ch k pc' h else h.

Definition fail_call (ch : choices) (e : goerr) (h : WSHub) (k : nat) : WSHub :=
  match h_calls h !! k with
  | None => h
  | Some pc => update_call ch k pc (fail e pc) h
  end.

Definition handle_call (ch : choices) (k : nat) (msg : Message) (h : WSHub) : out WSHub :=
  match h_calls h !! k with
  | None => OK h
  | Some pc =>
      match handle (ch_pick ch k) msg pc with
      | None => Panicked
      | Some pc' => OK (update_call ch k pc pc' h)
      end
  end.

Definition routeResponse (ch : choices) (r : nat) (msg : Message) (h : WSHub) : out WSHub :=
  match c ← h_heap h !! r; c_pending c !! msg_ID msg with
  | None => OK h
  | Some k => handle_call ch k msg h
  end.

Definition failPending (ch : choices) (r : nat) (id : string) (e : goerr) (h : WSHub) : WSHub :=
  match c ← h_heap h !! r; c_pending c !! id with
  | None => h
  | Some k => fail_call ch e h k
  end.

Definition new_call (id : string) (conn : option nat) (hub : bool) (workerID : string) (stream : bool) (now : Time) :
    pendingCall :=
  mkCall id conn hub workerID now stream [] [] [] false.

(** Registers a call of connection [r]; the result is its reference. *)
Definition addPending (ch : choices) (r : nat) (c : wsConnection) (id : string) (stream : bool) (h : WSHub) :
    WSHub * (nat + goerr) :=
  if decide (is_Some (c_pending c !! id)) then (h, inr (ErrorsNew "duplicate pending message id"))
  else if maxInFlightFor h (c_id c) <=? Z.of_nat (size (c_pending c)) then
    (upd_conn r count429 h, inr (Sentinel errRateLimited))
  else
    let k := fresh (dom (h_calls h)) in
    (upd_conn r (fun c => set_pending (<[id := k]> (c_pending c)) c)
       (set_call k (new_call id (Some r) false "" stream (ch_now ch)) h), inl k).

Definition registerStream (ch : choices) (r : nat) (c : wsConnection) (id : string) := addPending ch r c id true.
Definition registerCall (ch : choices) (r : nat) (c : wsConnection) (id : string) := addPending ch r c id false.

(** The common body of [registerRelayCall] and [registerRelayStream].  The count
    is below the cap, an [int], so counting up does not wrap. *)
Definition registerRelay (ch : choices) (id workerID : string) (stream : bool) (h : WSHub) : WSHub * (nat + goerr) :=
  let l := h_relay h in
  if maxInFlightFor h workerID <=? (relayInFlight l)@[workerID|0] then
    (set_relay (set_relayRejected (<[workerID := wrap64 ((relayRejected429 l)@[workerID|0] + 1)]> (relayRejected429 l))
                  (relayRejected504 l) l) h, inr (Sentinel errRateLimited))
  else if decide (is_Some (relayPending l !! id)) then (h, inr (ErrorsNew "duplicate relay pending message id"))
  else
    let k := fresh (dom (h_calls h)) in
    let l := set_relayInFlight (<[workerID := (relayInFlight l)@[workerID|0] + 1]> (relayInFlight l)) l in
    (set_call k (new_call id None true workerID stream (ch_now ch))
       (set_relay (set_relayPending (<[id := k]> (relayPending l)) l) h), inl k).

Definition registerRelayCall (ch : choices) (id workerID : string) := registerRelay ch id workerID false.
Definition registerRelayStream (ch : choices) (id workerID : string) := registerRelay ch id workerID true.

Definition routeRelayResponse (ch : choices) (msg : Message) (h : WSHub) : out (WSHub * bool) :=
  match relayPending (h_relay h) !! msg_ID msg with
  | None => OK (h, false)
  | Some k => do h <- handle_call ch k msg h; OK (h, true)
  end.

Definition failAllRelayPending (ch : choices) (e : goerr) (h : WSHub) : WSHub :=
  foldl (fail_call ch e) h (range_values ch (relayPending (h_relay h))).

(** The watcher goroutine of a call, when its context is over first. *)
Definition cancel_call (ch : choices) (k : nat) (e : sentinel) (h : WSHub) : WSHub := fail_call ch (Sentinel e) h k.

(** ** Outbound frames *)

(** The cases of [select { case relaySendCh <- data: ... }] that send. *)
Definition to_relay {A} (data : raw) (a : WSHub -> A) (h : WSHub) : list A :=
  match try_send SendQueueSize data (relaySendCh (h_relay h)) with
  | Some q => [a (upd_relay (set_relaySendCh q) h)]
  | None => []
  end.

Definition to_conn {A} (r : nat) (c : wsConnection) (data : raw) (a : WSHub -> A) (h : WSHub) : list A :=
  match try_send (hc_sendQueueSize (h_cfg h)) data (c_sendCh c) with
  | Some q => [a (upd_conn r (set_sendCh q) h)]
  | None => []
  end.

Definition send (ch : choices) (r : nat) (c : wsConnection) (msg : Message) (h : WSHub) : WSHub * option goerr :=
  if relayConnected h then
    match marshal (with_WorkerID (c_id c) msg) with
    | None => (h, Some (Wrap [ErrorsNew "marshal websocket message"]))
    | Some data =>
        select (to_relay data (fun h => (h, None)) h ++
                ctx_ready (fun e => (h, Some (Sentinel e))) (ch_ctx ch) ++
                (if c_done c then [(h, Some (Sentinel errConnClosed))] else []))
          (h, Some (ErrorsNew "relay send queue full")) (ch_pick ch r)
    end
  else
    match marshal msg with
    | None => (h, Some (Wrap [ErrorsNew "marshal websocket message"]))
    | Some data =>
        let h := upd_conn r (add_depth 1) h in
        let back := upd_conn r (add_depth (-1)) h in
        select (to_conn r c data (fun h => (h, None)) h ++
                ctx_ready (fun e => (back, Some (Sentinel e))) (ch_ctx ch) ++
                (if c_done c then [(back, Some (Sentinel errConnClosed))] else []))
          (back, Some (Sentinel errConnClosed)) (ch_pick ch r)
    end.

Definition enqueue (ch : choices) (r : nat) (msg : Message) (h : WSHub) : WSHub * bool :=
  match h_heap h !! r with
  | None => (h, false)
  | Some c =>
      if relayConnected h then
        match marshal (with_WorkerID (c_id c) msg) with
        | None => (h, false)
        | Some data =>
            select (to_relay data (fun h => (h, true)) h ++ (if c_done c then [(h, false)] else []))
              (h, false) (ch_pick ch r)
        end
      else
        match marshal msg with
        | None => (h, false)
        | Some data =>
            select (to_conn r c data (fun h => (h, true)) h ++ (if c_done c then [(h, false)] else []))
              (h, false) (ch_pick ch r)
        end
  end.

(** The goroutine that waits for the grace period is [start_grace]. *)
Definition enqueueClose (ch : choices) (r : nat) (reason : string) (h : WSHub) : WSHub * bool :=
  match NewMessage (ch_id ch 0) MsgClose (Some (PClose {| clp_Reason := reason |})) with
  | None => (h, false)
  | Some msg =>
      let '(h, ok) := enqueue ch r msg h in
      if relayConnected h then (h, ok) else (upd_conn r start_grace h, ok)
  end.

(** The same called with [h.mu] held, as both handshakes do: the relay branch
    of [enqueue] locks it again. *)
Definition enqueueClose_locked (ch : choices) (r : nat) (reason : string) (h : WSHub) : out WSHub :=
  match NewMessage (ch_id ch 0) MsgClose (Some (PClose {| clp_Reason := reason |})), h_heap h !! r with
  | Some msg, Some c =>
      if relayConnected h && bool_decide (is_Some (marshal (with_WorkerID (c_id c) msg))) then Deadlocked
      else OK (enqueueClose ch r reason h).1
  | _, _ => OK h
  end.

(** One tick of [Start]: a ping to every connection. *)
Definition ping_all (ch : choices) (h : WSHub) : WSHub :=
  match NewMessage (ch_id ch 0) MsgPing (Some (PPing {| pp_Timestamp := ch_now ch / second |})) with
  | None => h
  | Some msg => foldl (fun h r => (enqueue ch r msg h).1) h (range_values ch (h_conns h))
  end.

(** ** The end of a connection *)

Definition shutdown (ch : choices) (r : nat) (h : WSHub) : WSHub :=
  match h_heap h !! r with
  | None => h
  | Some c =>
      if c_done c then h
      else
        let h := upd_conn r close_done h in
        let h := set_conns (delete_own (c_id c) r (h_conns h)) h in
        let h := upd_conn r (set_pending ∅) h in
        let h := foldl (fail_call ch (Sentinel errConnClosed)) h (range_values ch (c_pending c)) in
        if decide (wi_ID (c_worker c) <> "") then bridge ch (discovery EventRemoved (c_worker c)) h else h
  end.

(** The timer of [enqueueClose] fires. *)
Definition grace_expired (ch : choices) (r : nat) (h : WSHub) : WSHub :=
  match h_heap h !! r with
  | Some c => if c_grace c then shutdown ch r h else h
  | None => h
  end.

(** The end of [readerLoop], then the deferred [releaseSlot] of [handleConn]. *)
Definition conn_ended (ch : choices) (r : nat) (h : WSHub) : WSHub := releaseSlot r (shutdown ch r h).

(** One round of [writerLoop]: [written] is whether the deadline and the write
    succeed; the boolean whether the loop goes on. *)
Definition writer_round (ch : choices) (r : nat) (written : bool) (h : WSHub) : WSHub * bool :=
  match h_heap h !! r with
  | None => (h, false)
  | Some c =>
      select (match c_sendCh c with
              | [] => []
              | _ :: q =>
                  let h := upd_conn r (add_depth (-1)) (upd_conn r (set_sendCh q) h) in
                  [if written then (h, true) else (shutdown ch r h, false)]
              end ++ (if c_done c then [(h, false)] else []))
        (h, true) (ch_pick ch r)
  end.

(** ** Inbound messages of a registered connection *)

Definition dispatch (ch : choices) (r : nat) (msg : Message) (h : WSHub) : out WSHub :=
  match h_heap h !! r with
  | None => OK h
  | Some c =>
      match msg_Type msg with
      | MsgHeartbeat =>
          match DecodePayload zero_HeartbeatPayload decode_heartbeat msg with
          | None => OK h
          | Some p =>
              let w := hp_Worker p in
              let w := if decide (wi_ID w = "") then with_ID (c_id c) w else w in
              let w := with_Transport TransportWS w in
              OK (bridge ch (discovery EventUpdated w) (upd_conn r (setWorker w) h))
          end
      | MsgCapabilities =>
          match DecodePayload zero_CapabilitiesPayload decode_capabilities msg with
          | None => OK h
          | Some p =>
              let w := with_Transport TransportWS (with_Capabilities (cp_Capabilities p) (c_worker c)) in
              let h := bridge ch (discovery EventUpdated w) (upd_conn r (setWorker w) h) in
              let cap := cap_ConcurrencyCap (cp_Capabilities p) in
              OK (if 0 <? cap then SetWorkerMaxInFlight (c_id c) cap h else h)
          end
      | MsgInferenceChunk | MsgInferenceResponse | MsgModelLoadResponse => routeResponse ch r msg h
      | MsgError =>
          let p := default zero_ErrorPayload (DecodePayload zero_ErrorPayload decode_error msg) in
          OK (if decide (ep_ID p <> "") then failPending ch r (ep_ID p) (ErrorsNew (ep_Message p)) h else h)
      | MsgClose => OK (shutdown ch r h)
      | _ => OK h
      end
  end.

(** ** The handshake ([handleConn])

    [first] is the first frame ([None] when it cannot be read) and [peerIP] the
    IPv4 address derived from the TCP peer, if it has one.  The refusals are
    the error message sent before the socket is closed. *)

Inductive refusal := NoFrame | NotRegister | BadPayload | NoWorkerID | BadKey | NoPeerIP | OtherPeer | MaxConnections.

Definition checkRegister (first : option Message) (peerIP : option string) (h : WSHub) : out (WorkerInfo + refusal) :=
  match first with
  | None => OK (inr NoFrame)
  | Some msg =>
      if decide (msg_Type msg <> MsgRegister) then OK (inr NotRegister)
      else
        match DecodePayload zero_RegisterPayload decode_register msg with
        | None => OK (inr BadPayload)
        | Some reg =>
            let worker := rp_Worker reg in
            if decide (wi_ID worker = "") then OK (inr NoWorkerID)
            else if decide (hc_apiKey (h_cfg h) <> "" /\ wi_APIKey worker <> hc_apiKey (h_cfg h)) then OK (inr BadKey)
            else
              match peerIP with
              | None => OK (inr NoPeerIP)
              | Some ip =>
                  match h_reg h with
                  | None => Panicked
                  | Some reg =>
                      let '(existing, ok) := Get reg (wi_ID worker) in
                      if decide (ok = true /\ wi_IP existing <> ip) then OK (inr OtherPeer)
                      else
                        let worker := with_Transport TransportWS (with_IP ip worker) in
                        OK (inl (if decide (wi_Status worker = "") then with_Status StatusAvailable worker else worker))
                  end
              end
        end
  end.

(** Under [h.mu]: an incumbent gives up its slot and is asked to close. *)
Definition supersede (ch : choices) (id : string) (h : WSHub) : out WSHub :=
  match h_conns h !! id with
  | None => OK h
  | Some old => enqueueClose_locked ch old "superseded" (releaseSlot old h)
  end.

Definition new_conn (worker : WorkerInfo) (socket : bool) (slot : option nat) : wsConnection :=
  mkConn (wi_ID worker) socket [] false 0 worker ∅ 0 0 slot false false.

(** [welcome, _ := protocol.NewMessage(...)]. *)
Definition welcome (id : string) (worker : WorkerInfo) (text : string) : Message :=
  default zero_Message (NewMessage id MsgWelcome
    (Some (PWelcome {| wp_WorkerID := wi_ID worker; wp_Superseded := false; wp_Message := text |}))).

(** From the allocation of the connection to the welcome; the reader loop is
    [dispatch] for each frame and then [conn_ended]. *)
Definition publish (ch : choices) (worker : WorkerInfo) (slot : nat) (h : WSHub) : WSHub * nat :=
  let r := fresh (dom (h_heap h)) in
  let h := set_heap (<[r := new_conn worker true (Some slot)]> (h_heap h)) h in
  let h := set_conns (<[wi_ID worker := r]> (h_conns h)) h in
  let h := bridge ch (discovery EventAdded worker) h in
  ((enqueue ch r (welcome (ch_id ch 1) worker "registered") h).1, r).

(** A handshake that nothing interrupts. *)
Definition handleConn (ch : choices) (first : option Message) (peerIP : option string) (h : WSHub) :
    out (WSHub * (nat + refusal)) :=
  do res <- checkRegister first peerIP h;
  match res with
  | inr e => OK (h, inr e)
  | inl worker =>
      do h <- supersede ch (wi_ID worker) h;
      let '(h, slot) := acquireConn (ch_pick ch O) None h in
      match slot with
      | inr _ => OK (h, inr MaxConnections)
      | inl slot => let '(h, r) := publish ch worker slot h in OK (h, inl r)
      end
  end.

(** ** The relay link *)

(** [DialRelay] once the socket is open: [gen] names it. *)
Definition relay_published (gen : nat) (h : WSHub) : WSHub := upd_relay (set_relayConn (Some gen)) h.

(** [if h.relayConn == conn { h.relayConn = nil }]. *)
Definition relay_dropped (gen : nat) (h : WSHub) : WSHub :=
  if decide (relayConn (h_relay h) = Some gen) then upd_relay (set_relayConn None) h else h.

Definition enqueueRelay (ch : choices) (ctx : option sentinel) (msg : Message) (h : WSHub) : WSHub * option goerr :=
  if negb (relayConnected h) then (h, Some (Sentinel errRelayDisconnected))
  else
    match marshal msg with
    | None => (h, Some (Wrap [ErrorsNew "marshal relay frame"]))
    | Some data =>
        select (to_relay data (fun h => (h, None)) h ++ ctx_ready (fun e => (h, Some (Sentinel e))) ctx)
          (h, Some (Sentinel errRelayQueueFull)) (ch_pick ch O)
    end.

(** One round of [relayWriterLoop] that takes a frame, [written] or not; its
    other cases end the loop with [relay_dropped]. *)
Definition relay_writer_round (ch : choices) (gen : nat) (written : bool) (h : WSHub) : WSHub * bool :=
  match relaySendCh (h_relay h) with
  | [] => (h, true)
  | _ :: q =>
      let h := upd_relay (set_relaySendCh q) h in
      if written then (h, true)
      else (relay_dropped gen (failAllRelayPending ch (Sentinel errRelayDisconnected) h), false)
  end.

Definition cleanupRelayMetrics (h : WSHub) : WSHub :=
  let nonzero := base.filter (fun p : string * Z => p.2 <> 0) in
  upd_relay (fun l =>
    set_relayRejected (nonzero (relayRejected429 l)) (nonzero (relayRejected504 l))
      (set_relayInFlight (nonzero (relayInFlight l)) l)) h.

(** The deferred function of [relayReaderLoop]. *)
Definition relay_reader_exit (ch : choices) (gen : nat) (h : WSHub) : WSHub :=
  cleanupRelayMetrics (failAllRelayPending ch (Sentinel errRelayDisconnected) (relay_dropped gen h)).

Definition handleRelayRegister (ch : choices) (msg : Message) (h : WSHub) : out WSHub :=
  match DecodePayload zero_RegisterPayload decode_register msg with
  | None => OK h
  | Some reg =>
      let worker := rp_Worker reg in
      if decide (wi_ID worker = "") then OK h
      else if decide (hc_apiKey (h_cfg h) <> "" /\ wi_APIKey worker <> hc_apiKey (h_cfg h)) then OK h
      else
        let worker := with_Transport TransportWS worker in
        let worker := if decide (wi_Status worker = "") then with_Status StatusAvailable worker else worker in
        let r := fresh (dom (h_heap h)) in
        let h := set_heap (<[r := new_conn worker false None]> (h_heap h)) h in
        do h <- match h_conns h !! wi_ID worker with
                | None => OK h
                | Some old => enqueueClose_locked ch old "superseded" h
                end;
        let h := set_conns (<[wi_ID worker := r]> (h_conns h)) h in
        let h := bridge ch (discovery EventAdded worker) h in
        OK (enqueue ch r (welcome (ch_id ch 1) worker "registered via relay") h).1
  end.

Definition dispatch_all (ch : choices) (msg : Message) (h : WSHub) : out WSHub :=
  foldl (fun h r => do h <- h; dispatch ch r msg h) (OK h) (range_values ch (h_conns h)).

(** Response-type messages go to the relay's pending calls first. *)
Definition relay_routed (ch : choices) (msg : Message) (h : WSHub) : out (WSHub * bool) :=
  match msg_Type msg with
  | MsgInferenceResponse | MsgModelLoadResponse | MsgError | MsgInferenceChunk => routeRelayResponse ch msg h
  | _ => OK (h, false)
  end.

(** One frame in [relayReaderLoop]; the boolean is whether the loop goes on. *)
Definition relay_receive (ch : choices) (msg : Message) (h : WSHub) : out (WSHub * bool) :=
  if decide (msg_Type msg = MsgRegister) then do h <- handleRelayRegister ch msg h; OK (h, true)
  else if decide (msg_Type msg = MsgPing) then
    let reply := {| msg_ID := msg_ID msg; msg_Type := MsgPing; msg_WorkerID := ""; msg_Payload := "" |} in
    match enqueueRelay ch None reply h with
    | (h, Some _) => OK (h, false)
    | (h, None) => OK (h, true)
    end
  else
    do (h, consumed) <- relay_routed ch msg h;
    do h <- (if decide (msg_WorkerID msg <> "") then
               if consumed then OK h
               else match h_conns h !! msg_WorkerID msg with
                    | Some r => dispatch ch r msg h
                    | None => OK h
                    end
             else dispatch_all ch msg h);
    OK (h, true).

(** ** Observability ([ws_stats.go]) *)

Definition workerInFlight (c : wsConnection) : Z := Z.of_nat (size (c_pending c)).

Definition connection (h : WSHub) (workerID : string) : option wsConnection := r ← h_conns h !! workerID; h_heap h !! r.

Definition isRateLimited (workerID : string) (h : WSHub) : bool :=
  match connection h workerID with
  | Some c => maxInFlightFor h workerID <=? workerInFlight c
  | None => maxInFlightFor h workerID <=? (relayInFlight (h_relay h))@[workerID|0]
  end.

Definition upd_worker (workerID : string) (f : wsConnection -> wsConnection) (h : WSHub) : WSHub :=
  match h_conns h !! workerID with Some r => upd_conn r f h | None => h end.

Definition recordRejection (workerID : string) (code : Z) : WSHub -> WSHub := upd_worker workerID count429.
Definition recordTimeout (workerID : string) : WSHub -> WSHub := upd_worker workerID count504.

Definition recordRelayTimeout (workerID : string) : WSHub -> WSHub :=
  upd_relay (fun l => set_relayRejected (relayRejected429 l)
    (<[workerID := wrap64 ((relayRejected504 l)@[workerID|0] + 1)]> (relayRejected504 l)) l).

Definition avgWaitFor (h : WSHub) (workerID : string) : Duration := let '(p50, _, _) := percentiles (h_qm h) in p50.

(** A sum of [int64]s. *)
Definition sum64 (l : list Z) : Z := foldl (fun acc v => wrap64 (acc + v)) 0 l.

Definition totals (m : gmap string Z) : Z := sum64 (map snd (map_to_list m)).

Definition worker_stats (h : WSHub) (c : wsConnection) : WorkerQueueStats :=
  {| wqs_WorkerID := c_id c; wqs_QueueDepth := c_queueDepth c; wqs_InFlight := workerInFlight c;
     wqs_MaxInFlight := maxInFlightFor h (c_id c);
     wqs_AvgWaitMs := if 0 <? workerInFlight c then floatMs (avgWaitFor h (c_id c)) else f0;
     wqs_Rejected429Total := c_rejected429 c; wqs_Rejected504Total := c_rejected504 c |}.

Definition QueueStats (ch : choices) (h : WSHub) : QueueStatsResponse :=
  let conns := omap (fun r => h_heap h !! r) (range_values ch (h_conns h)) in
  let workers := map (worker_stats h) conns in
  let '(p50, p95, p99) := percentiles (h_qm h) in
  {| qsr_Workers := workers;
     qsr_Pool :=
       {| pqs_TotalQueued := sum64 (map wqs_QueueDepth workers);
          pqs_TotalInFlight := wrap64 (sum64 (map wqs_InFlight workers) + totals (relayInFlight (h_relay h)));
          pqs_TotalRejected429 := wrap64 (sum64 (map wqs_Rejected429Total workers) + totals (relayRejected429 (h_relay h)));
          pqs_TotalRejected504 := wrap64 (sum64 (map wqs_Rejected504Total workers) + totals (relayRejected504 (h_relay h)));
          pqs_QueueTimeP50Ms := floatMs p50; pqs_QueueTimeP95Ms := floatMs p95; pqs_QueueTimeP99Ms := floatMs p99 |} |}.

(** ** Worker clients *)

Definition inferenceRequest (kind : string) (body : raw) : result InferenceRequestPayload :=
  match request_model body with
  | None => inr (Wrap [ErrorsNew "invalid request body"])
  | Some model => inl {| irq_Kind := kind; irq_Model := model; irq_Body := body |}
  end.

(** A body that is the JSON [null] leaves the map nil, and the assignment panics. *)
Definition forceNonStreaming (body : raw) : out (result raw) :=
  match unmarshal_object body with
  | None => OK (inr (Wrap [ErrorsNew "invalid request body"]))
  | Some None => Panicked
  | Some (Some m) =>
      match marshal_object (<["stream" := "false"]> m) with
      | None => OK (inr (ErrorsNew "marshal"))
      | Some body => OK (inl body)
      end
  end.

(** The message of a request, and its failure to marshal. *)
Definition new_message (ch : choices) (mt : MessageType) (p : Payload) : result Message :=
  match NewMessage (ch_id ch 0) mt (Some p) with
  | None => inr (Wrap [ErrorsNew "marshal payload"])
  | Some msg => inl msg
  end.

Definition request_message (ch : choices) (kind : string) (body : raw) : result Message :=
  match inferenceRequest kind body with
  | inr e => inr e
  | inl req => new_message ch MsgInferenceRequest (PInferenceRequest req)
  end.

(** Registers a call for [msg] on connection [r] and sends it; a send that
    fails fails the call.  The result is the call, or the error returned at
    once; [ctx] in [ch] is the caller's. *)
Definition start_call (ch : choices) (r : nat) (c : wsConnection) (stream : bool) (msg : Message) (h : WSHub) :
    WSHub * (nat + goerr) * option goerr :=
  let '(h, reg) := (if stream then registerStream else registerCall) ch r c (msg_ID msg) h in
  match reg with
  | inr e => (h, inr e, Some e)
  | inl k =>
      let '(h, err) := send ch r c msg h in
      match err with
      | Some e => (fail_call ch e h k, inl k, Some e)
      | None => (h, inl k, None)
      end
  end.

(** The same through the relay: the call's context is cut to
    [maxRelayCallTimeout], so [ctx] is that of the caller or its expiry. *)
Definition start_relay_call (ch : choices) (worker : WorkerInfo) (stream : bool) (msg : Message) (h : WSHub) :
    WSHub * (nat + goerr) * option goerr :=
  let msg := with_WorkerID (wi_ID worker) msg in
  let '(h, reg) := (if stream then registerRelayStream else registerRelayCall) ch (msg_ID msg) (wi_ID worker) h in
  match reg with
  | inr e => (h, inr e, Some e)
  | inl k =>
      let '(h, err) := enqueueRelay ch (ch_ctx ch) msg h in
      match err with
      | Some e => (fail_call ch e h k, inl k, Some e)
      | None => (h, inl k, None)
      end
  end.

(** A client call up to the point where it waits: it waits on call [k], or has
    returned an error. *)
Inductive started := Waiting (k : nat) | Returned (e : goerr).

Definition started_of (x : (nat + goerr) * option goerr) : started :=
  match x with
  | (inl k, None) => Waiting k
  | (_, Some e) => Returned e
  | (inr e, None) => Returned e
  end.

Definition client_start (start : Message -> WSHub -> WSHub * (nat + goerr) * option goerr) (msg : result Message)
    (h : WSHub) : WSHub * started :=
  match msg with
  | inr e => (h, Returned e)
  | inl msg => let '(h, k, e) := start msg h in (h, started_of (k, e))
  end.

(** [wsWorkerClient.Complete] and [LoadModel]; the caller then takes one of
    [await_call], [await_load]. *)
Definition ws_Complete (ch : choices) (r : nat) (c : wsConnection) (kind : string) (body : raw) (h : WSHub) :
    out (WSHub * started) :=
  do body <- forceNonStreaming body;
  match body with
  | inr e => OK (h, Returned e)
  | inl body => OK (client_start (start_call ch r c false) (request_message ch kind body) h)
  end.

Definition ws_LoadModel (ch : choices) (r : nat) (c : wsConnection) (model : string) (h : WSHub) : WSHub * started :=
  client_start (start_call ch r c false)
    (new_message ch MsgModelLoadRequest (PModelLoadRequest {| mlq_Model := model |})) h.

Definition relay_Complete (ch : choices) (worker : WorkerInfo) (kind : string) (body : raw) (h : WSHub) :
    out (WSHub * started) :=
  do body <- forceNonStreaming body;
  match body with
  | inr e => OK (h, Returned e)
  | inl body => OK (client_start (start_relay_call ch worker false) (request_message ch kind body) h)
  end.

Definition relay_LoadModel (ch : choices) (worker : WorkerInfo) (model : string) (h : WSHub) : WSHub * started :=
  client_start (start_relay_call ch worker false)
    (new_message ch MsgModelLoadRequest (PModelLoadRequest {| mlq_Model := model |})) h.

(** What [Stream] returns: a call whose channels the caller reads, or channels
    that hold one error. *)
Inductive stream := Streaming (k : nat) | StreamFailed (e : goerr).

Definition stream_start (start : Message -> WSHub -> WSHub * (nat + goerr) * option goerr) (msg : result Message)
    (h : WSHub) : WSHub * stream :=
  match msg with
  | inr e => (h, StreamFailed e)
  | inl msg =>
      let '(h, k, _) := start msg h in
      (h, match k with inl k => Streaming k | inr e => StreamFailed e end)
  end.

Definition ws_Stream (ch : choices) (r : nat) (c : wsConnection) (kind : string) (body : raw) (h : WSHub) :
    WSHub * stream :=
  stream_start (start_call ch r c true) (request_message ch kind body) h.

(** With the state of the context its watcher waits on: [defer cancel()] has
    run when [Stream] returns. *)
Definition relay_Stream (ch : choices) (worker : WorkerInfo) (kind : string) (body : raw) (h : WSHub) :
    WSHub * stream * option sentinel :=
  let '(h, s) := stream_start (start_relay_call ch worker true) (request_message ch kind body) h in
  (h, s, Some (default context_Canceled (ch_ctx ch))).

Definition ws_Capabilities (c : wsConnection) : Capabilities := wi_Capabilities (c_worker c).

Definition relay_Capabilities (worker : WorkerInfo) (h : WSHub) : result Capabilities :=
  match connection h (wi_ID worker) with
  | Some c => inl (wi_Capabilities (c_worker c))
  | None =>
      match h_reg h with
      | None => inr (ErrorsNew "worker not found")
      | Some reg =>
          let '(w, ok) := Get reg (wi_ID worker) in
          if ok then inl (wi_Capabilities w) else inr (ErrorsNew "worker not found")
      end
  end.

Definition ws_Close (ch : choices) (r : nat) (h : WSHub) : WSHub := (enqueueClose ch r "client close" h).1.

(** [Client(id)]. *)
Definition Client (h : WSHub) (id : string) : option nat := h_conns h !! id.
End hub.
