(* ===== verification/HubCore.v ===== *)
(** * HubCore: who holds what in the hub

    The abstract state of the hub is what its bookkeeping is about: which calls
    are open and whose, which connections are live, which hold a slot.  [core]
    extracts it from the full state; this file gives the abstract operations,
    the invariant and its preservation.  [HubSystem] shows that the operations
    of [Hub] refine these. *)

From S2P Require Import Prelude Pending Hub.

(** ** The abstract state *)

Record kcall := mkKCall { k_id : string; k_conn : option nat; k_hub : bool; k_worker : string; k_closed : bool }.
Record kconn := mkKConn { kc_id : string; kc_done : bool; kc_pending : gmap string nat; kc_slot : option nat }.

Record core := mkCore {
  s_heap : gmap nat kconn;
  s_calls : gmap nat kcall;
  s_conns : gmap string nat;
  s_relayPending : gmap string nat;
  s_inFlight : gmap string Z;
  s_sems : gmap nat semaphore;
  s_connSem : option nat;
}.

Definition call_core (pc : pendingCall) : kcall :=
  mkKCall (pc_id pc) (pc_conn pc) (pc_hub pc) (pc_workerID pc) (pc_closed pc).
Definition conn_core (c : wsConnection) : kconn := mkKConn (c_id c) (c_done c) (c_pending c) (c_slot c).

Definition core_of (h : WSHub) : core :=
  mkCore (conn_core <$> h_heap h) (call_core <$> h_calls h) (h_conns h) (relayPending (h_relay h))
    (relayInFlight (h_relay h)) (h_sems h) (h_connSem h).

Definition with_heap (m : gmap nat kconn) (s : core) : core :=
  mkCore m (s_calls s) (s_conns s) (s_relayPending s) (s_inFlight s) (s_sems s) (s_connSem s).
Definition with_calls (m : gmap nat kcall) (s : core) : core :=
  mkCore (s_heap s) m (s_conns s) (s_relayPending s) (s_inFlight s) (s_sems s) (s_connSem s).
Definition with_conns (m : gmap string nat) (s : core) : core :=
  mkCore (s_heap s) (s_calls s) m (s_relayPending s) (s_inFlight s) (s_sems s) (s_connSem s).
Definition with_relay (p : gmap string nat) (f : gmap string Z) (s : core) : core :=
  mkCore (s_heap s) (s_calls s) (s_conns s) p f (s_sems s) (s_connSem s).
Definition with_sems (m : gmap nat semaphore) (c : option nat) (s : core) : core :=
  mkCore (s_heap s) (s_calls s) (s_conns s) (s_relayPending s) (s_inFlight s) m c.

Definition k_close1 (c : kcall) : kcall := mkKCall (k_id c) (k_conn c) (k_hub c) (k_worker c) true.
Definition k_forget (id : string) (k : nat) (c : kconn) : kconn :=
  mkKConn (kc_id c) (kc_done c) (delete_own id k (kc_pending c)) (kc_slot c).
Definition k_remember (id : string) (k : nat) (c : kconn) : kconn :=
  mkKConn (kc_id c) (kc_done c) (<[id := k]> (kc_pending c)) (kc_slot c).
Definition k_end (c : kconn) : kconn := mkKConn (kc_id c) true ∅ (kc_slot c).
Definition k_unslot (c : kconn) : kconn := mkKConn (kc_id c) (kc_done c) (kc_pending c) None.

(** ** The abstract operations *)

(** One call of [w] less. *)
Definition count_down (w : string) (m : gmap string Z) : gmap string Z :=
  if m@[w|0] <=? 0 then m else if m@[w|0] - 1 =? 0 then delete w m else <[w := m@[w|0] - 1]> m.

(** Call [k] ends: it leaves the map of its owner. *)
Definition k_close (s : core) (k : nat) : core :=
  match s_calls s !! k with
  | None => s
  | Some c =>
      if k_closed c then s
      else
        let s := with_calls (<[k := k_close1 c]> (s_calls s)) s in
        match k_conn c with
        | Some r => with_heap (alter (k_forget (k_id c) k) r (s_heap s)) s
        | None =>
            if k_hub c then
              with_relay (delete_own (k_id c) k (s_relayPending s))
                (if decide (k_worker c <> "") then count_down (k_worker c) (s_inFlight s) else s_inFlight s) s
            else s
        end
  end.

Definition k_add (k r : nat) (id : string) (s : core) : core :=
  with_heap (alter (k_remember id k) r (s_heap s))
    (with_calls (<[k := mkKCall id (Some r) false "" false]> (s_calls s)) s).

Definition k_add_relay (k : nat) (id w : string) (s : core) : core :=
  with_relay (<[id := k]> (s_relayPending s)) (<[w := (s_inFlight s)@[w|0] + 1]> (s_inFlight s))
    (with_calls (<[k := mkKCall id None true w false]> (s_calls s)) s).

(** Connection [r] is over: it has left the map, with no call. *)
Definition k_mark (id : string) (r : nat) (s : core) : core :=
  with_conns (delete_own id r (s_conns s)) (with_heap (alter k_end r (s_heap s)) s).

Definition k_shutdown (r : nat) (c : kconn) (pend : list nat) (s : core) : core :=
  if kc_done c then s else foldl k_close (k_mark (kc_id c) r s) pend.

Definition k_publish (r : nat) (id : string) (slot : option nat) (s : core) : core :=
  with_conns (<[id := r]> (s_conns s)) (with_heap (<[r := mkKConn id false ∅ slot]> (s_heap s)) s).

(** ** The invariant *)

(** The open calls of relay worker [w]. *)
Definition relay_call (w : string) (p : nat * kcall) : bool :=
  bool_decide (k_conn p.2 = None) && negb (k_closed p.2) && String.eqb (k_worker p.2) w.
Definition relay_calls (w : string) (m : gmap nat kcall) : gmap nat kcall := base.filter (fun p => relay_call w p = true) m.

(** The connections that hold a token of semaphore [n]. *)
Definition slot_holders (n : nat) (m : gmap nat kconn) : gmap nat (option nat) :=
  base.filter (fun p : nat * option nat => p.2 = Some n) (kc_slot <$> m).

Record calls_ok (s : core) : Prop := {
  co_pending r c id k : s_heap s !! r = Some c -> kc_pending c !! id = Some k ->
    exists pc, s_calls s !! k = Some pc /\ k_conn pc = Some r /\ k_id pc = id /\ k_closed pc = false;
  co_open r k pc : s_calls s !! k = Some pc -> k_conn pc = Some r -> k_closed pc = false ->
    exists c, s_heap s !! r = Some c /\ kc_pending c !! k_id pc = Some k;
  co_relay id k : s_relayPending s !! id = Some k ->
    exists pc, s_calls s !! k = Some pc /\ k_conn pc = None /\ k_id pc = id /\ k_closed pc = false;
  co_relay_open k pc : s_calls s !! k = Some pc -> k_conn pc = None -> k_closed pc = false ->
    s_relayPending s !! k_id pc = Some k;
  co_hub k pc : s_calls s !! k = Some pc -> k_hub pc = bool_decide (k_conn pc = None);
}.

Definition flight_ok (s : core) : Prop :=
  forall w, w <> "" ->
    let n := Z.of_nat (size (relay_calls w (s_calls s))) in
    s_inFlight s !! w = if n =? 0 then None else Some n.

Definition conns_ok (s : core) : Prop :=
  forall id r, s_conns s !! id = Some r -> exists c, s_heap s !! r = Some c /\ kc_id c = id /\ kc_done c = false.

(** [taken n] counts the tokens of semaphore [n] held by handshakes on their way. *)
Record slots_ok (taken : nat -> nat) (s : core) : Prop := {
  so_held n sem : s_sems s !! n = Some sem ->
    sem_held sem = Z.of_nat (size (slot_holders n (s_heap s)) + taken n) /\ sem_held sem <= sem_cap sem;
  so_known n : (exists r c, s_heap s !! r = Some c /\ kc_slot c = Some n) \/ taken n <> O -> is_Some (s_sems s !! n);
  so_current n : s_connSem s = Some n -> is_Some (s_sems s !! n);
}.

Record core_ok (s : core) : Prop := {
  ok_calls : calls_ok s;
  ok_flight : flight_ok s;
  ok_conns : conns_ok s;
}.

(** ** Lemmas on maps *)

Lemma delete_own_Some id k m id' k' :
  delete_own id k m !! id' = Some k' -> m !! id' = Some k' /\ (id', k') <> (id, k).
Proof.
  unfold delete_own. case_decide as H; intros Hl.
  - apply lookup_delete_Some in Hl as [Hne Hl]. split; [done|]. intros [= -> ->]. done.
  - split; [done|]. intros [= -> ->]. done.
Qed.

Lemma delete_own_keep id k m id' k' :
  m !! id' = Some k' -> k' <> k -> delete_own id k m !! id' = Some k'.
Proof.
  unfold delete_own. intros Hl Hne. case_decide as H; [|done].
  rewrite lookup_delete_ne; [done|]. intros ->. congruence.
Qed.

Lemma delete_own_empty id k : delete_own id k ∅ = ∅.
Proof. unfold delete_own. case_decide; [apply delete_empty|done]. Qed.

Lemma relay_calls_insert_other w k pc m :
  relay_call w (k, pc) = false -> (forall pc', m !! k = Some pc' -> relay_call w (k, pc') = false) ->
  relay_calls w (<[k := pc]> m) = relay_calls w m.
Proof.
  intros Hn Ho. unfold relay_calls. rewrite map_filter_insert_False by congruence.
  apply map_eq. intros i. rewrite !map_lookup_filter. destruct (decide (i = k)) as [->|Hne].
  - rewrite lookup_delete_eq. simpl. destruct (m !! k) eqn:E; simpl; [|done].
    rewrite option_guard_False; [done|]. rewrite Ho; done.
  - by rewrite lookup_delete_ne.
Qed.

Lemma relay_calls_open w k pc m :
  m !! k = None -> relay_call w (k, pc) = true -> size (relay_calls w (<[k := pc]> m)) = S (size (relay_calls w m)).
Proof.
  intros Hm Hr. unfold relay_calls. rewrite map_filter_insert_True by done.
  rewrite map_size_insert_None; [done|]. apply map_lookup_filter_None. by left.
Qed.

Lemma relay_calls_close w k pc pc' m :
  m !! k = Some pc -> relay_call w (k, pc) = true -> relay_call w (k, pc') = false ->
  S (size (relay_calls w (<[k := pc']> m))) = size (relay_calls w m).
Proof.
  intros Hm Hr Hr'. unfold relay_calls. rewrite map_filter_insert_False by congruence.
  rewrite map_filter_delete, map_size_delete_Some.
  - assert (size (base.filter (fun p => relay_call w p = true) m) <> O); [|lia].
    rewrite map_size_ne_0_lookup. exists k. rewrite map_lookup_filter_Some_2 with (x := pc); done.
  - exists pc. by apply map_lookup_filter_Some_2.
Qed.

(** ** Preservation *)

Lemma calls_ok_close s k : calls_ok s -> calls_ok (k_close s k).
Proof.
  intros Hok. unfold k_close. destruct (s_calls s !! k) as [c|] eqn:Ek; [|done].
  destruct (k_closed c) eqn:Ec; [done|].
  destruct (k_conn c) as [r|] eqn:Er; [|rewrite (co_hub s Hok k c Ek), Er, bool_decide_true by done].
  - split; simpl.
    + intros r' c' id k' Hc' Hp. apply lookup_alter_Some in Hc' as [(-> & c0 & Hc0 & ->)|[Hne Hc0]].
      * apply delete_own_Some in Hp as [Hp Hne].
        destruct (co_pending s Hok _ _ _ _ Hc0 Hp) as (pc & Hpc & Hr & Hid & Ho).
        exists pc. rewrite lookup_insert_ne; [done|]. intros <-. apply Hne. congruence.
      * destruct (co_pending s Hok _ _ _ _ Hc0 Hp) as (pc & Hpc & Hr & Hid & Ho).
        exists pc. rewrite lookup_insert_ne; [done|]. congruence.
    + intros r' k' pc Hpc Hr Ho. apply lookup_insert_Some in Hpc as [[<- <-]|[Hne Hpc]]; [done|].
      destruct (co_open s Hok _ _ _ Hpc Hr Ho) as (c0 & Hc0 & Hp). destruct (decide (r' = r)) as [->|Hr'].
      * exists (k_forget (k_id c) k c0). rewrite lookup_alter_eq, Hc0. split; [done|]. by apply delete_own_keep.
      * exists c0. by rewrite lookup_alter_ne.
    + intros id k' Hp. destruct (co_relay s Hok _ _ Hp) as (pc & Hpc & Hr & Hid & Ho).
      exists pc. rewrite lookup_insert_ne; [done|]. congruence.
    + intros k' pc Hpc Hr Ho. apply lookup_insert_Some in Hpc as [[<- <-]|[Hne Hpc]]; [done|].
      by apply (co_relay_open s Hok).
    + intros k' pc Hpc. apply lookup_insert_Some in Hpc as [[<- <-]|[Hne Hpc]]; [exact (co_hub s Hok k c Ek)|].
      by apply (co_hub s Hok k').
  - split; simpl.
    + intros r' c' id k' Hc' Hp. destruct (co_pending s Hok _ _ _ _ Hc' Hp) as (pc & Hpc & Hr & Hid & Ho).
      exists pc. rewrite lookup_insert_ne; [done|]. congruence.
    + intros r' k' pc Hpc Hr Ho. apply lookup_insert_Some in Hpc as [[<- <-]|[Hne Hpc]]; [done|].
      by apply (co_open s Hok).
    + intros id k' Hp. apply delete_own_Some in Hp as [Hp Hne].
      destruct (co_relay s Hok _ _ Hp) as (pc & Hpc & Hr & Hid & Ho).
      exists pc. rewrite lookup_insert_ne; [done|]. intros <-. apply Hne. congruence.
    + intros k' pc Hpc Hr Ho. apply lookup_insert_Some in Hpc as [[<- <-]|[Hne Hpc]]; [done|].
      apply delete_own_keep; [|done]. by apply (co_relay_open s Hok).
    + intros k' pc Hpc. apply lookup_insert_Some in Hpc as [[<- <-]|[Hne Hpc]]; [exact (co_hub s Hok k c Ek)|].
      by apply (co_hub s Hok k').
Qed.

Lemma count_down_ne w w' m : w <> w' -> count_down w m !! w' = m !! w'.
Proof.
  intros Hne. unfold count_down. repeat case_if; rewrite ?lookup_delete_ne, ?lookup_insert_ne; done.
Qed.

Lemma count_down_spec w (n : nat) m :
  m !! w = Some (Z.of_nat (S n)) -> count_down w m !! w = if Z.of_nat n =? 0 then None else Some (Z.of_nat n).
Proof.
  intros Hm. unfold count_down, map_or. rewrite Hm. cbn [default from_option Datatypes.id].
  rewrite (proj2 (Z.leb_gt _ _)) by lia. replace (Z.of_nat (S n) - 1) with (Z.of_nat n) by lia.
  case_if; [by rewrite lookup_delete_eq|by rewrite lookup_insert_eq].
Qed.

Lemma flight_ok_close s k : calls_ok s -> flight_ok s -> flight_ok (k_close s k).
Proof.
  intros Hok Hf w Hw. unfold k_close. destruct (s_calls s !! k) as [c|] eqn:Ek; [|by apply Hf].
  destruct (k_closed c) eqn:Ec; [by apply Hf|].
  destruct (k_conn c) as [r|] eqn:Er; [|rewrite (co_hub s Hok k c Ek), Er, bool_decide_true by done]; simpl.
  - rewrite relay_calls_insert_other; [by apply Hf|..]; unfold relay_call; simpl.
    + by rewrite Er, bool_decide_false.
    + intros pc' Hpc. simplify_eq. by rewrite Er, bool_decide_false.
  - destruct (decide (k_worker c = w)) as [Hkw|Hne].
    + rewrite decide_True by congruence. rewrite Hkw.
      pose proof (relay_calls_close w k c (k_close1 c) (s_calls s) Ek) as Hs. unfold relay_call in Hs. simpl in Hs.
      rewrite Er, Ec, bool_decide_true, andb_false_r in Hs by done. simpl in Hs.
      specialize (Hs (proj2 (String.eqb_eq _ _) Hkw) eq_refl). specialize (Hf w Hw). cbv zeta in Hf.
      rewrite <-Hs in Hf. rewrite (proj2 (Z.eqb_neq _ _)) in Hf by lia. by apply count_down_spec.
    + rewrite relay_calls_insert_other; [|unfold relay_call; simpl..].
      * case_decide; [rewrite count_down_ne by done|]; by apply Hf.
      * by rewrite andb_false_r.
      * intros pc' Hpc. simplify_eq. rewrite (proj2 (String.eqb_neq _ _)) by done. by rewrite andb_false_r.
Qed.

Lemma conns_ok_close s k : conns_ok s -> conns_ok (k_close s k).
Proof.
  intros Hok id r. unfold k_close. destruct (s_calls s !! k) as [c|]; [|by apply Hok].
  destruct (k_closed c); [by apply Hok|]. destruct (k_conn c) as [r'|]; [|case_if; by apply Hok]. simpl.
  intros (c0 & Hc0 & Hid & Hd)%Hok. destruct (decide (r = r')) as [->|Hne].
  - exists (k_forget (k_id c) k c0). rewrite lookup_alter_eq, Hc0. done.
  - exists c0. by rewrite lookup_alter_ne.
Qed.

Lemma core_ok_close s k : core_ok s -> core_ok (k_close s k).
Proof. intros [H1 H2 H3]. split; auto using calls_ok_close, flight_ok_close, conns_ok_close. Qed.

Lemma core_ok_closes ks s : core_ok s -> core_ok (foldl k_close s ks).
Proof. revert s. induction ks as [|k ks IH]; intros s Hs; simpl; [done|]. by apply IH, core_ok_close. Qed.

(** *** A new call *)

Lemma core_ok_add k r id c s :
  core_ok s -> s_calls s !! k = None -> s_heap s !! r = Some c -> kc_pending c !! id = None ->
  core_ok (k_add k r id s).
Proof.
  intros [Hc Hf Ho] Hk Hr Hid. split.
  - split; simpl.
    + intros r' c' id' k' Hc' Hp. apply lookup_alter_Some in Hc' as [(-> & c0 & Hc0 & ->)|[Hne Hc0]].
      * simpl in Hp. apply lookup_insert_Some in Hp as [[<- <-]|[Hne Hp]].
        { eexists. rewrite lookup_insert_eq. done. }
        destruct (co_pending s Hc _ _ _ _ Hc0 Hp) as (pc & Hpc & ?). exists pc. rewrite lookup_insert_ne; [done|congruence].
      * destruct (co_pending s Hc _ _ _ _ Hc0 Hp) as (pc & Hpc & ?). exists pc. rewrite lookup_insert_ne; [done|congruence].
    + intros r' k' pc Hpc Hr' Hop. apply lookup_insert_Some in Hpc as [[<- <-]|[Hne Hpc]].
      * simpl in Hr'. simplify_eq. exists (k_remember id k c). rewrite lookup_alter_eq, Hr.
        split; [done|]. simpl. by rewrite lookup_insert_eq.
      * destruct (co_open s Hc _ _ _ Hpc Hr' Hop) as (c0 & Hc0 & Hp). destruct (decide (r' = r)) as [->|Hne'].
        -- exists (k_remember id k c0). rewrite lookup_alter_eq, Hc0. split; [done|]. simpl.
           rewrite lookup_insert_ne; [done|]. congruence.
        -- exists c0. by rewrite lookup_alter_ne.
    + intros id' k' Hp. destruct (co_relay s Hc _ _ Hp) as (pc & Hpc & ?). exists pc.
      rewrite lookup_insert_ne; [done|congruence].
    + intros k' pc Hpc Hr' Hop. apply lookup_insert_Some in Hpc as [[<- <-]|[Hne Hpc]]; [done|].
      by apply (co_relay_open s Hc).
    + intros k' pc Hpc. apply lookup_insert_Some in Hpc as [[<- <-]|[Hne Hpc]]; [done|]. by apply (co_hub s Hc k').
  - intros w Hw. simpl. rewrite relay_calls_insert_other; [by apply Hf|done|congruence].
  - intros id' r' (c0 & Hc0 & Hid' & Hd)%Ho. simpl. destruct (decide (r' = r)) as [->|Hne].
    + exists (k_remember id k c0). by rewrite lookup_alter_eq, Hc0.
    + exists c0. by rewrite lookup_alter_ne.
Qed.

Lemma core_ok_add_relay k id w s :
  core_ok s -> s_calls s !! k = None -> s_relayPending s !! id = None -> core_ok (k_add_relay k id w s).
Proof.
  intros [Hc Hf Ho] Hk Hid. split.
  - split; simpl.
    + intros r' c' id' k' Hc' Hp. destruct (co_pending s Hc _ _ _ _ Hc' Hp) as (pc & Hpc & ?).
      exists pc. rewrite lookup_insert_ne; [done|congruence].
    + intros r' k' pc Hpc Hr' Hop. apply lookup_insert_Some in Hpc as [[<- <-]|[Hne Hpc]]; [done|].
      by apply (co_open s Hc).
    + intros id' k' Hp. apply lookup_insert_Some in Hp as [[<- <-]|[Hne Hp]].
      { eexists. rewrite lookup_insert_eq. done. }
      destruct (co_relay s Hc _ _ Hp) as (pc & Hpc & ?). exists pc. rewrite lookup_insert_ne; [done|congruence].
    + intros k' pc Hpc Hr' Hop. apply lookup_insert_Some in Hpc as [[<- <-]|[Hne Hpc]]; simpl.
      { by rewrite lookup_insert_eq. }
      pose proof (co_relay_open s Hc _ _ Hpc Hr' Hop) as Hp. rewrite lookup_insert_ne; [done|]. congruence.
    + intros k' pc Hpc. apply lookup_insert_Some in Hpc as [[<- <-]|[Hne Hpc]]; [done|]. by apply (co_hub s Hc k').
  - intros w' Hw. simpl. destruct (decide (w = w')) as [<-|Hne].
    + rewrite relay_calls_open; [|done|unfold relay_call; simpl; by rewrite String.eqb_refl].
      rewrite lookup_insert_eq, (proj2 (Z.eqb_neq _ _)) by lia. f_equal. unfold map_or. rewrite Hf by done.
      case_if; zbool; simpl; lia.
    + rewrite lookup_insert_ne, relay_calls_insert_other; [by apply Hf| |congruence|done].
      unfold relay_call. simpl. by rewrite (proj2 (String.eqb_neq _ _)).
  - exact Ho.
Qed.

(** *** The end of a connection *)

Lemma k_forget_end id k c : k_forget id k (k_end c) = k_end (k_forget id k c).
Proof. unfold k_forget, k_end. simpl. by rewrite delete_own_empty. Qed.

Lemma k_close_mark id r s k : k_close (k_mark id r s) k = k_mark id r (k_close s k).
Proof.
  unfold k_close. simpl. destruct (s_calls s !! k) as [c|]; [|done]. destruct (k_closed c); [done|].
  destruct (k_conn c) as [r'|]; [|by destruct (k_hub c)].
  unfold k_mark, with_heap, with_conns. simpl. f_equal. destruct (decide (r' = r)) as [->|Hne].
  - rewrite !alter_alter_eq. apply alter_ext. intros c0 _. apply k_forget_end.
  - by rewrite alter_alter_ne.
Qed.

Lemma k_closes_mark id r ks s : foldl k_close (k_mark id r s) ks = k_mark id r (foldl k_close s ks).
Proof. revert s. induction ks as [|k ks IH]; intros s; simpl; [done|]. by rewrite k_close_mark, IH. Qed.

(** What closing calls does to the calls: their identity stays. *)
Definition call_open (s : core) (k : nat) : Prop := exists pc, s_calls s !! k = Some pc /\ k_closed pc = false.

Lemma k_close_calls s k k' pc :
  s_calls (k_close s k) !! k' = Some pc ->
  exists pc0, s_calls s !! k' = Some pc0 /\ (pc = pc0 \/ k = k' /\ pc = k_close1 pc0) /\ (k = k' -> k_closed pc = true).
Proof.
  unfold k_close. intros H. destruct (s_calls s !! k) as [c|] eqn:E.
  2: { exists pc. split_and!; [done|by left|]. intros ->. congruence. }
  destruct (k_closed c) eqn:Ec.
  { exists pc. split_and!; [done|by left|]. intros ->. congruence. }
  assert (H' : <[k:=k_close1 c]> (s_calls s) !! k' = Some pc) by (by destruct (k_conn c); [|destruct (k_hub c)]).
  apply lookup_insert_Some in H' as [[-> <-]|[Hne H']].
  - exists c. split_and!; [done|by right|done].
  - exists pc. split_and!; [done|by left|done].
Qed.

Lemma k_close_not_open s k : ~ call_open (k_close s k) k.
Proof. intros (pc & (pc0 & _ & _ & Hc)%k_close_calls & Ho). rewrite Hc in Ho; done. Qed.

Lemma k_close_still_open s k k' : call_open (k_close s k) k' -> call_open s k'.
Proof.
  intros (pc & (pc0 & H0 & [->|[_ ->]] & _)%k_close_calls & Ho); [|done]. by exists pc0.
Qed.

Lemma k_closes_still_open ks s k : call_open (foldl k_close s ks) k -> call_open s k.
Proof. revert s. induction ks as [|k' ks IH]; intros s; simpl; [done|]. by intros ?%IH%k_close_still_open. Qed.

Lemma k_closes_not_open ks s k : k ∈ ks -> ~ call_open (foldl k_close s ks) k.
Proof.
  revert s. induction ks as [|k' ks IH]; intros s; simpl; [by intros ?%elem_of_nil|].
  intros [->|Hin]%elem_of_cons; [|by apply IH]. intros H%k_closes_still_open. by apply k_close_not_open in H.
Qed.

(** Closing calls shrinks the pending maps and changes nothing else of a connection. *)
Definition conn_shrinks (c' c : kconn) : Prop :=
  kc_id c' = kc_id c /\ kc_done c' = kc_done c /\ kc_slot c' = kc_slot c /\
  forall id k, kc_pending c' !! id = Some k -> kc_pending c !! id = Some k.

Lemma k_close_heap s k r c' :
  s_heap (k_close s k) !! r = Some c' -> exists c, s_heap s !! r = Some c /\ conn_shrinks c' c.
Proof.
  unfold k_close. intros H. assert (Hid : forall c, conn_shrinks c c) by done.
  destruct (s_calls s !! k) as [c|]; [|eauto]. destruct (k_closed c); [eauto|].
  destruct (k_conn c) as [r'|]; [|destruct (k_hub c); eauto]. simpl in H.
  apply lookup_alter_Some in H as [(-> & c0 & Hc0 & ->)|[_ H]]; [|eauto]. exists c0. split; [done|].
  split_and!; [done..|]. by intros id k' [? _]%delete_own_Some.
Qed.

Lemma k_closes_heap ks s r c' :
  s_heap (foldl k_close s ks) !! r = Some c' -> exists c, s_heap s !! r = Some c /\ conn_shrinks c' c.
Proof.
  revert s. induction ks as [|k ks IH]; intros s; simpl; [by eexists|].
  intros (c1 & (c & Hc & H1)%k_close_heap & H2)%IH. exists c. split; [done|].
  destruct H1 as (?&?&?&?), H2 as (?&?&?&?). split_and!; [congruence..|]. auto.
Qed.

Lemma k_close_other_maps s k :
  s_conns (k_close s k) = s_conns s /\ s_sems (k_close s k) = s_sems s /\ s_connSem (k_close s k) = s_connSem s.
Proof. unfold k_close. repeat case_match; done. Qed.

Lemma k_closes_other_maps ks s :
  s_conns (foldl k_close s ks) = s_conns s /\ s_sems (foldl k_close s ks) = s_sems s /\
  s_connSem (foldl k_close s ks) = s_connSem s.
Proof.
  revert s. induction ks as [|k ks IH]; intros s; simpl; [done|].
  destruct (IH (k_close s k)) as (-> & -> & ->). apply k_close_other_maps.
Qed.

Lemma core_ok_mark id r c s :
  core_ok s -> s_heap s !! r = Some c -> kc_id c = id -> kc_pending c = ∅ -> core_ok (k_mark id r s).
Proof.
  intros [Hc Hf Ho] Hr Hid Hp. split; [|exact Hf|].
  - split; simpl.
    + intros r' c' id' k Hc' Hk. apply lookup_alter_Some in Hc' as [(-> & c0 & Hc0 & ->)|[Hne Hc0]].
      * simpl in Hk. by rewrite lookup_empty in Hk.
      * by apply (co_pending s Hc r' c').
    + intros r' k pc Hpc Hr' Hop. destruct (co_open s Hc _ _ _ Hpc Hr' Hop) as (c0 & Hc0 & Hk).
      destruct (decide (r' = r)) as [->|Hne].
      * simplify_eq. by rewrite Hp, lookup_empty in Hk.
      * exists c0. by rewrite lookup_alter_ne.
    + apply (co_relay s Hc).
    + apply (co_relay_open s Hc).
    + apply (co_hub s Hc).
  - intros id' r'. simpl. intros [(c0 & Hc0 & Hi & Hd)%Ho Hne]%delete_own_Some.
    exists c0. rewrite lookup_alter_ne; [done|]. intros <-. by simplify_eq.
Qed.

Lemma k_close_dom s k : dom (s_heap (k_close s k)) = dom (s_heap s).
Proof. unfold k_close. repeat case_match; simpl; by rewrite ?dom_alter_L. Qed.

Lemma k_closes_dom ks s : dom (s_heap (foldl k_close s ks)) = dom (s_heap s).
Proof. revert s. induction ks as [|k ks IH]; intros s; simpl; [done|]. by rewrite IH, k_close_dom. Qed.

Lemma core_ok_shutdown r c pend s :
  core_ok s -> s_heap s !! r = Some c -> pend ≡ₚ map snd (map_to_list (kc_pending c)) ->
  core_ok (k_shutdown r c pend s).
Proof.
  intros Hs Hr Hperm. unfold k_shutdown. destruct (kc_done c); [done|]. rewrite k_closes_mark.
  pose proof (core_ok_closes pend s Hs) as Hok.
  assert (is_Some (s_heap (foldl k_close s pend) !! r)) as [c' E].
  { apply elem_of_dom. rewrite k_closes_dom. apply elem_of_dom. by exists c. }
  destruct (k_closes_heap _ _ _ _ E) as (c0 & Hc0 & Hid & _ & _ & Hp). simplify_eq.
  apply (core_ok_mark _ _ c'); [done..|]. apply map_empty. intros id.
  destruct (kc_pending c' !! id) as [k|] eqn:Ek; [|done]. exfalso.
  destruct (co_pending _ (ok_calls _ Hok) _ _ _ _ E Ek) as (pc & Hpc & _ & _ & Ho).
  apply (k_closes_not_open pend s k); [|by exists pc]. rewrite Hperm. apply list_elem_of_fmap.
  exists (id, k). split; [done|]. apply elem_of_map_to_list. by apply Hp.
Qed.

(** *** A new connection *)

Lemma core_ok_publish r id slot s :
  core_ok s -> s_heap s !! r = None -> core_ok (k_publish r id slot s).
Proof.
  intros [Hc Hf Ho] Hr. split; [|exact Hf|].
  - split; simpl.
    + intros r' c id' k Hc' Hk. apply lookup_insert_Some in Hc' as [[<- <-]|[_ Hc']].
      * simpl in Hk. by rewrite lookup_empty in Hk.
      * by apply (co_pending s Hc r' c).
    + intros r' k pc Hpc Hr' Hop. destruct (co_open s Hc _ _ _ Hpc Hr' Hop) as (c0 & Hc0 & Hk).
      exists c0. rewrite lookup_insert_ne; [done|congruence].
    + apply (co_relay s Hc).
    + apply (co_relay_open s Hc).
    + apply (co_hub s Hc).
  - intros id' r'. simpl. intros [[<- <-]|[Hne (c0 & Hc0 & Hi & Hd)%Ho]]%lookup_insert_Some.
    + eexists. by rewrite lookup_insert_eq.
    + exists c0. rewrite lookup_insert_ne; [done|congruence].
Qed.

(** A connection that is allocated before it is in the map. *)
Lemma core_ok_alloc r id slot s :
  core_ok s -> s_heap s !! r = None -> core_ok (with_heap (<[r := mkKConn id false ∅ slot]> (s_heap s)) s).
Proof.
  intros Hs Hr. pose proof (core_ok_publish r id slot s Hs Hr) as [[H1 H2 H3 H4 H5] Hf _].
  split; [by split|exact Hf|]. intros id' r' (c0 & Hc0 & Hi)%(ok_conns _ Hs). exists c0. simpl.
  rewrite lookup_insert_ne; [done|congruence].
Qed.

Lemma core_ok_unslot r s : core_ok s -> core_ok (with_heap (alter k_unslot r (s_heap s)) s).
Proof.
  intros [[P1 P2 P3 P4 P5] Hf Ho]. split; [split|exact Hf|]; try done; simpl.
  - intros r' c' id k [(-> & c0 & Hc0 & ->)|[_ Hc0]]%lookup_alter_Some Hp; exact (P1 _ _ id k Hc0 Hp).
  - intros r' k pc Hpc Hr' Hop. destruct (P2 _ _ _ Hpc Hr' Hop) as (c0 & Hc0 & Hp).
    destruct (decide (r' = r)) as [->|Hne].
    + exists (k_unslot c0). by rewrite lookup_alter_eq, Hc0.
    + exists c0. by rewrite lookup_alter_ne.
  - intros id r' (c0 & Hc0 & Hi & Hdn)%Ho. simpl. destruct (decide (r' = r)) as [->|Hne].
    + exists (k_unslot c0). by rewrite lookup_alter_eq, Hc0.
    + exists c0. by rewrite lookup_alter_ne.
Qed.

Lemma core_ok_sems m c s : core_ok s -> core_ok (with_sems m c s).
Proof. intros [[P1 P2 P3 P4 P5] Hf Ho]. by split; [split|..]. Qed.

Lemma core_ok_inFlight f s :
  core_ok s -> (forall w, w <> "" -> f !! w = s_inFlight s !! w) -> core_ok (with_relay (s_relayPending s) f s).
Proof. intros [[P1 P2 P3 P4 P5] Hf Ho] He. split; [by split| |done]. intros w Hw. simpl. rewrite He by done. by apply Hf. Qed.

(** *** Slots *)

Lemma fmap_alter_same {A B} (g : A -> B) f r (m : gmap nat A) :
  (forall x, g (f x) = g x) -> g <$> alter f r m = g <$> m.
Proof.
  intros Hg. apply map_eq. intros i. rewrite !lookup_fmap. destruct (decide (i = r)) as [->|Hne].
  - rewrite lookup_alter_eq. destruct (m !! r); simpl; by rewrite ?Hg.
  - by rewrite lookup_alter_ne.
Qed.

Lemma k_close_slots s k : kc_slot <$> s_heap (k_close s k) = kc_slot <$> s_heap s.
Proof. unfold k_close. repeat case_match; simpl; by rewrite ?fmap_alter_same. Qed.

Lemma k_closes_slots ks s : kc_slot <$> s_heap (foldl k_close s ks) = kc_slot <$> s_heap s.
Proof. revert s. induction ks as [|k ks IH]; intros s; simpl; [done|]. by rewrite IH, k_close_slots. Qed.

(** Slots depend on the slots of the heap and the semaphores only. *)
Lemma slots_ok_same taken taken' s s' :
  kc_slot <$> s_heap s' = kc_slot <$> s_heap s -> s_sems s' = s_sems s -> s_connSem s' = s_connSem s ->
  (forall n, taken' n = taken n) -> slots_ok taken s -> slots_ok taken' s'.
Proof.
  intros Hh Hs Hc Ht [H1 H2 H3]. split; rewrite ?Hs, ?Hc; [|intros n Hn|done].
  - intros n sem. unfold slot_holders. rewrite Hh, Ht. apply H1.
  - apply H2. destruct Hn as [(r & c & Hr & Hn)|Hn]; [left|right; by rewrite <-Ht].
    assert (Hl : (kc_slot <$> s_heap s') !! r = Some (Some n)) by (rewrite lookup_fmap, Hr; simpl; by rewrite Hn).
    rewrite Hh, lookup_fmap in Hl. destruct (s_heap s !! r) as [c0|] eqn:E; [|done]. simpl in Hl.
    exists r, c0. split; [done|congruence].
Qed.

(** A token is taken, by a handshake. *)
Lemma slots_ok_acquire taken s n sem :
  slots_ok taken s -> s_sems s !! n = Some sem -> sem_held sem < sem_cap sem ->
  slots_ok (fun m => if decide (m = n) then S (taken m) else taken m)
    (with_sems (<[n := {| sem_cap := sem_cap sem; sem_held := sem_held sem + 1 |}]> (s_sems s)) (s_connSem s) s).
Proof.
  intros [H1 H2 H3] Hn Hlt. split; simpl.
  - intros m sem'. intros [[<- <-]|[Hne Hm]]%lookup_insert_Some; simpl.
    + rewrite decide_True by done. destruct (H1 _ _ Hn). lia.
    + rewrite decide_False by done. by apply H1.
  - intros m Hm. destruct (decide (m = n)) as [->|Hne]; [by rewrite lookup_insert_eq|].
    rewrite lookup_insert_ne by done. by apply H2.
  - intros m Hm. destruct (decide (m = n)) as [->|Hne]; [by rewrite lookup_insert_eq|].
    rewrite lookup_insert_ne by done. by apply H3.
Qed.

(** A new semaphore. *)
Lemma slots_ok_make taken s n cap :
  slots_ok taken s -> s_sems s !! n = None -> 0 <= cap ->
  slots_ok taken (with_sems (<[n := {| sem_cap := cap; sem_held := 0 |}]> (s_sems s)) (Some n) s).
Proof.
  intros [H1 H2 H3] Hn Hcap. split; simpl.
  - intros m sem'. intros [[<- <-]|[Hne Hm]]%lookup_insert_Some; simpl; [|by apply H1]. split; [|done].
    destruct (decide (size (slot_holders n (s_heap s)) + taken n = 0)%nat) as [->|Hz]; [done|exfalso].
    destruct (H2 n) as [? ?]; [|congruence].
    destruct (decide (taken n = O)) as [Ht|]; [left|by right].
    assert (Hs : size (slot_holders n (s_heap s)) <> O) by lia. apply map_size_ne_0_lookup in Hs as (r & o & Ho).
    unfold slot_holders in Ho. apply map_lookup_filter_Some in Ho as [Ho Heq]. simpl in Heq. subst o.
    rewrite lookup_fmap in Ho. destruct (s_heap s !! r) as [c|] eqn:E; [|done]. simpl in Ho. exists r, c.
    split; [done|congruence].
  - intros m Hm. destruct (decide (m = n)) as [->|Hne]; [by rewrite lookup_insert_eq|].
    rewrite lookup_insert_ne by done. by apply H2.
  - intros m [= ->]. by rewrite lookup_insert_eq.
Qed.

Lemma slot_holders_insert n r c m :
  m !! r = None ->
  size (slot_holders n (<[r := c]> m)) = (size (slot_holders n m) + if decide (kc_slot c = Some n) then 1 else 0)%nat.
Proof.
  intros Hr. unfold slot_holders. rewrite fmap_insert.
  assert (Hn : (kc_slot <$> m) !! r = None) by (by rewrite lookup_fmap, Hr). case_decide as Hs.
  - rewrite map_filter_insert_True, map_size_insert_None; [lia| |done]. apply map_lookup_filter_None. by left.
  - rewrite map_filter_insert_False, delete_id; [lia|done..].
Qed.

Lemma slot_holders_unslot n r c m :
  m !! r = Some c ->
  (size (slot_holders n (alter k_unslot r m)) + if decide (kc_slot c = Some n) then 1 else 0)%nat =
  size (slot_holders n m).
Proof.
  intros Hr. unfold slot_holders.
  assert (Heq : kc_slot <$> alter k_unslot r m = <[r := None]> (kc_slot <$> m)).
  { apply map_eq. intros i. rewrite lookup_fmap. destruct (decide (i = r)) as [->|Hne].
    - by rewrite lookup_alter_eq, Hr, lookup_insert_eq.
    - by rewrite lookup_alter_ne, lookup_insert_ne, lookup_fmap. }
  assert (Hs : (kc_slot <$> m) !! r = Some (kc_slot c)) by (by rewrite lookup_fmap, Hr).
  rewrite Heq, map_filter_insert_False by done. rewrite map_filter_delete. case_decide as Hd.
  - rewrite map_size_delete_Some.
    + assert (size (base.filter (fun p : nat * option nat => p.2 = Some n) (kc_slot <$> m)) <> O); [|lia].
      apply map_size_ne_0_lookup. exists r. rewrite map_lookup_filter_Some_2 with (x := kc_slot c); done.
    + exists (kc_slot c). by apply map_lookup_filter_Some_2.
  - rewrite map_size_delete_None; [lia|]. apply map_lookup_filter_None. right. intros x Hx. by simplify_eq.
Qed.

(** A handshake that holds a token of [n] becomes a connection. *)
Lemma slots_ok_publish taken s r id n :
  slots_ok (fun m => if decide (m = n) then S (taken m) else taken m) s -> s_heap s !! r = None ->
  slots_ok taken (k_publish r id (Some n) s).
Proof.
  intros [H1 H2 H3] Hr. split; simpl.
  - intros m sem Hm. destruct (H1 _ _ Hm) as [Hh Hc]. rewrite slot_holders_insert by done. simpl.
    split; [|done]. rewrite Hh. destruct (decide (m = n)) as [->|Hne]; [rewrite decide_True by done; lia|].
    rewrite decide_False by congruence. lia.
  - intros m [(r' & c & [[<- <-]|[_ Hc]]%lookup_insert_Some & Hs)|Ht]; apply H2.
    + simpl in Hs. simplify_eq. right. by rewrite decide_True.
    + left. by exists r', c.
    + right. case_decide; lia.
  - done.
Qed.

Lemma slots_ok_alloc taken s r c :
  slots_ok taken s -> s_heap s !! r = None -> kc_slot c = None -> slots_ok taken (with_heap (<[r := c]> (s_heap s)) s).
Proof.
  intros [H1 H2 H3] Hr Hc. split; simpl; [|intros m Hm|done].
  - intros m sem Hm. rewrite slot_holders_insert by done. rewrite Hc, decide_False, Nat.add_0_r by done. by apply H1.
  - apply H2. destruct Hm as [(r' & c' & [[<- <-]|[_ Hc']]%lookup_insert_Some & Hs)|Ht]; [congruence|left; by exists r', c'|by right].
Qed.

(** A connection gives its slot up: there is a token to take. *)
Lemma slots_ok_release taken s r c n :
  slots_ok taken s -> s_heap s !! r = Some c -> kc_slot c = Some n ->
  exists sem, s_sems s !! n = Some sem /\ 0 < sem_held sem /\
    slots_ok taken
      (with_sems (<[n := {| sem_cap := sem_cap sem; sem_held := sem_held sem - 1 |}]> (s_sems s)) (s_connSem s)
         (with_heap (alter k_unslot r (s_heap s)) s)).
Proof.
  intros [H1 H2 H3] Hr Hn. destruct (H2 n) as [sem Hsem]; [left; by exists r, c|].
  exists sem. split; [done|]. destruct (H1 _ _ Hsem) as [Hh Hcap].
  pose proof (slot_holders_unslot n r c (s_heap s) Hr) as Hu. rewrite decide_True in Hu by done.
  split; [lia|]. split; simpl.
  - intros m sem'. intros [[<- <-]|[Hne Hm]]%lookup_insert_Some; simpl; [lia|].
    destruct (H1 _ _ Hm) as [Hh' Hcap']. split; [|done]. rewrite Hh'.
    rewrite <-(slot_holders_unslot m r c (s_heap s) Hr). rewrite decide_False by congruence. lia.
  - intros m Hm. destruct (decide (m = n)) as [->|Hne]; [by rewrite lookup_insert_eq|].
    rewrite lookup_insert_ne by done. apply H2. destruct Hm as [(r' & c' & Hc' & Hs)|Ht]; [left|by right].
    apply lookup_alter_Some in Hc' as [(-> & c0 & Hc0 & ->)|[_ Hc']]; [done|by exists r', c'].
  - intros m Hm. destruct (decide (m = n)) as [->|Hne]; [by rewrite lookup_insert_eq|].
    rewrite lookup_insert_ne by done. by apply H3.
Qed.
