(* ===== verification/HubSystem.v ===== *)
(** * HubSystem: the hub in operation

    The goroutines of the hub as steps on one state, in any order: handshakes in
    their three critical sections, the reader and writer of every connection,
    the timers of [enqueueClose], the clients and the watchers of their
    contexts, the relay link, and the registry's other users.  Each step refines
    the abstract one of [HubCore]; the invariant of every reachable state and
    what follows from it are at the end. *)

From S2P Require Import Prelude GoFloat Errors Protocol Registry QueueStats Pending Hub HubCore.

(** ** Steps *)

(** Where a handshake is: its worker is checked, its incumbent is superseded,
    or it holds a slot. *)
Inductive phase := Checked | Superseded | HasSlot (slot : nat).

Record system := mkSystem { sys_hub : WSHub; sys_shakes : list (WorkerInfo * phase) }.

(** The reads of a caller on the channels of its call. *)
Inductive channel := ChunkCh | RespCh | ErrCh.

Definition take_from (c : channel) (pc : pendingCall) : pendingCall :=
  match c with
  | ChunkCh => set_chunks (tail (pc_chunkCh pc)) pc
  | RespCh => set_resps (tail (pc_respCh pc)) pc
  | ErrCh => set_errs (tail (pc_errCh pc)) pc
  end.

Inductive op :=
| OAccept (first : option Message) (peerIP : option string)
| OSupersede (i : nat)
| OAcquire (i : nat) (ctx : option sentinel)
| OPublish (i : nat)
| OFrame (r : nat) (msg : Message)
| OEnded (r : nat)
| OGrace (r : nat)
| OWriter (r : nat) (written : bool)
| OStart (r : nat) (stream : bool) (msg : Message)
| ORelayStart (worker : WorkerInfo) (stream : bool) (msg : Message)
| OCancel (k : nat) (e : sentinel)
| OTake (k : nat) (c : channel)
| OClose (r : nat)
| OPing
| ORelayUp (gen : nat)
| ORelayFrame (msg : Message)
| ORelayWriter (gen : nat) (written : bool)
| ORelayDropped (gen : nat)
| ORelayReaderExit (gen : nat)
| OSetWorkerMaxInFlight (workerID : string) (cap : Z)
| OSetMaxConnections (n : Z)
| ORecordRejection (workerID : string) (code : Z)
| ORecordTimeout (workerID : string)
| ORecordRelayTimeout (workerID : string)
| ORegistry (o : rop).

Section system.
Context `{C : Codec}.

Definition on_hub (f : WSHub -> WSHub) (s : system) : out system := OK (mkSystem (f (sys_hub s)) (sys_shakes s)).
Definition try_hub (f : WSHub -> out WSHub) (s : system) : out system :=
  do h <- f (sys_hub s); OK (mkSystem h (sys_shakes s)).

Definition step_op (ch : choices) (s : system) (o : op) : out system :=
  let h := sys_hub s in
  match o with
  | OAccept first peerIP =>
      do res <- checkRegister first peerIP h;
      OK (match res with inl w => mkSystem h (sys_shakes s ++ [(w, Checked)]) | inr _ => s end)
  | OSupersede i =>
      match sys_shakes s !! i with
      | Some (w, Checked) => do h <- supersede ch (wi_ID w) h; OK (mkSystem h (<[i := (w, Superseded)]> (sys_shakes s)))
      | _ => OK s
      end
  | OAcquire i ctx =>
      match sys_shakes s !! i with
      | Some (w, Superseded) =>
          let '(h, slot) := acquireConn (ch_pick ch O) ctx h in
          OK (mkSystem h (match slot with
                          | inl slot => <[i := (w, HasSlot slot)]> (sys_shakes s)
                          | inr _ => delete i (sys_shakes s)
                          end))
      | _ => OK s
      end
  | OPublish i =>
      match sys_shakes s !! i with
      | Some (w, HasSlot slot) => OK (mkSystem (publish ch w slot h).1 (delete i (sys_shakes s)))
      | _ => OK s
      end
  | OFrame r msg => try_hub (dispatch ch r msg) s
  | OEnded r => on_hub (conn_ended ch r) s
  | OGrace r => on_hub (grace_expired ch r) s
  | OWriter r written => on_hub (fun h => (writer_round ch r written h).1) s
  | OStart r stream msg =>
      match h_heap h !! r with
      | Some c => on_hub (fun h => (start_call ch r c stream msg h).1.1) s
      | None => OK s
      end
  | ORelayStart worker stream msg => on_hub (fun h => (start_relay_call ch worker stream msg h).1.1) s
  | OCancel k e => on_hub (cancel_call ch k e) s
  | OTake k c => on_hub (fun h => set_calls (alter (take_from c) k (h_calls h)) h) s
  | OClose r => on_hub (ws_Close ch r) s
  | OPing => on_hub (ping_all ch) s
  | ORelayUp gen => on_hub (relay_published gen) s
  | ORelayFrame msg => try_hub (fun h => do (h, _) <- relay_receive ch msg h; OK h) s
  | ORelayWriter gen written => on_hub (fun h => (relay_writer_round ch gen written h).1) s
  | ORelayDropped gen => on_hub (relay_dropped gen) s
  | ORelayReaderExit gen => on_hub (relay_reader_exit ch gen) s
  | OSetWorkerMaxInFlight w cap => on_hub (SetWorkerMaxInFlight w cap) s
  | OSetMaxConnections n => on_hub (SetMaxConnections n) s
  | ORecordRejection w code => on_hub (recordRejection w code) s
  | ORecordTimeout w => on_hub (recordTimeout w) s
  | ORecordRelayTimeout w => on_hub (recordRelayTimeout w) s
  | ORegistry o => on_hub (fun h => set_reg (flip Registry.exec o <$> h_reg h) h) s
  end.

Inductive sstep : system -> system -> Prop :=
| sstep_op ch o s s' : step_op ch s o = OK s' -> sstep s s'.

Definition initial (reg : option memoryRegistry) (cfg : hubConfig) : system :=
  mkSystem (set_cfg cfg (NewWSHub reg)) [].

Definition reachable_sys (s : system) : Prop := exists reg cfg, rtc sstep (initial reg cfg) s.

(** ** Operations that do not touch the core *)

Lemma core_upd_conn_same r f h :
  (forall c, conn_core (f c) = conn_core c) -> core_of (upd_conn r f h) = core_of h.
Proof. intros Hf. unfold core_of, upd_conn. simpl. by rewrite fmap_alter_same. Qed.

Lemma core_upd_conn r f g h :
  (forall c, conn_core (f c) = g (conn_core c)) ->
  core_of (upd_conn r f h) = with_heap (alter g r (s_heap (core_of h))) (core_of h).
Proof.
  intros Hf. unfold core_of, upd_conn, with_heap. simpl. f_equal. apply map_eq. intros i.
  rewrite lookup_fmap. destruct (decide (i = r)) as [->|Hne].
  - rewrite !lookup_alter_eq, lookup_fmap. destruct (h_heap h !! r); simpl; by rewrite ?Hf.
  - by rewrite !lookup_alter_ne, lookup_fmap by done.
Qed.

Lemma core_bridge ch e h : core_of (bridge ch e h) = core_of h.
Proof. unfold bridge. destruct (h_reg h); [|done]. by destruct (de_Type e). Qed.

Lemma core_recordWait ch q h : core_of (recordWait ch q h) = core_of h.
Proof. done. Qed.

(** A property of every case of a [select]. *)
Lemma select_all {A} (P : A -> Prop) ready d pick : Forall P ready -> P d -> P (select ready d pick).
Proof.
  intros Hr Hd. destruct ready as [|a ready]; [by rewrite select_nil|].
  rewrite Forall_forall in Hr. apply Hr, select_elem. done.
Qed.

Lemma core_to_relay {A} data (a : WSHub -> A) (P : A -> Prop) h :
  (forall h', core_of h' = core_of h -> P (a h')) -> Forall P (to_relay data a h).
Proof. intros H. unfold to_relay. case_match; [|constructor]. apply Forall_singleton. by apply H. Qed.

Lemma core_to_conn {A} r c data (a : WSHub -> A) (P : A -> Prop) h :
  (forall h', core_of h' = core_of h -> P (a h')) -> Forall P (to_conn r c data a h).
Proof.
  intros H. unfold to_conn. case_match; [|constructor]. apply Forall_singleton, H. by apply core_upd_conn_same.
Qed.

Lemma Forall_ctx_ready {A} (P : A -> Prop) x ctx : (forall e, P (x e)) -> Forall P (ctx_ready x ctx).
Proof. intros H. destruct ctx; simpl; [by apply Forall_singleton|constructor]. Qed.

Lemma Forall_if {A} (P : A -> Prop) (b : bool) x : P x -> Forall P (if b then [x] else []).
Proof. intros H. destruct b; [by apply Forall_singleton|constructor]. Qed.

Lemma core_enqueue ch r msg h : core_of (enqueue ch r msg h).1 = core_of h.
Proof.
  unfold enqueue. destruct (h_heap h !! r) as [c|]; [|done].
  destruct (relayConnected h); (case_match; [|done]); (apply (select_all (fun x => core_of x.1 = core_of h)); [|done]);
    (apply Forall_app; split; [by apply core_to_relay || by apply core_to_conn|by apply Forall_if]).
Qed.

Lemma core_depth r n h : core_of (upd_conn r (add_depth n) h) = core_of h.
Proof. by apply core_upd_conn_same. Qed.

Lemma core_send ch r c msg h : core_of (send ch r c msg h).1 = core_of h.
Proof.
  unfold send. destruct (relayConnected h); (case_match; [|done]);
    (apply (select_all (fun x => core_of x.1 = core_of h)); [|simpl; by rewrite ?core_depth]);
    rewrite !Forall_app; split_and!.
  - by apply core_to_relay.
  - by apply Forall_ctx_ready.
  - by apply Forall_if.
  - apply core_to_conn. intros h' Hh. simpl. by rewrite Hh, core_depth.
  - apply Forall_ctx_ready. intros e. simpl. by rewrite !core_depth.
  - apply Forall_if. simpl. by rewrite !core_depth.
Qed.

Lemma core_enqueueRelay ch ctx msg h : core_of (enqueueRelay ch ctx msg h).1 = core_of h.
Proof.
  unfold enqueueRelay. destruct (negb _); [done|]. case_match; [|done].
  apply (select_all (fun x => core_of x.1 = core_of h)); [|done]. apply Forall_app.
  split; [by apply core_to_relay|by apply Forall_ctx_ready].
Qed.

Lemma core_enqueueClose ch r reason h : core_of (enqueueClose ch r reason h).1 = core_of h.
Proof.
  unfold enqueueClose. case_match; [|done]. pose proof (core_enqueue ch r m h) as He.
  destruct (enqueue ch r m h) as [h' ok]. simpl in He. destruct (relayConnected h'); simpl; [done|].
  by rewrite core_upd_conn_same.
Qed.

Lemma core_enqueueClose_locked ch r reason h h' : enqueueClose_locked ch r reason h = OK h' -> core_of h' = core_of h.
Proof.
  unfold enqueueClose_locked. repeat case_match; intros [= <-]; auto using core_enqueueClose.
Qed.

Lemma core_ping_all ch h : core_of (ping_all ch h) = core_of h.
Proof.
  unfold ping_all. case_match; [|done]. generalize (range_values ch (h_conns h)). intros l. revert h.
  induction l as [|r l IH]; intros h; simpl; [done|]. by rewrite IH, core_enqueue.
Qed.

Lemma core_upd_worker w f h : (forall c, conn_core (f c) = conn_core c) -> core_of (upd_worker w f h) = core_of h.
Proof. intros Hf. unfold upd_worker. case_match; [|done]. by apply core_upd_conn_same. Qed.

Lemma core_SetWorkerMaxInFlight w cap h : core_of (SetWorkerMaxInFlight w cap h) = core_of h.
Proof. unfold SetWorkerMaxInFlight. by case_if. Qed.

Lemma core_relay_dropped gen h : core_of (relay_dropped gen h) = core_of h.
Proof. unfold relay_dropped. by case_decide. Qed.

Lemma core_take c k h : core_of (set_calls (alter (take_from c) k (h_calls h)) h) = core_of h.
Proof. unfold core_of. simpl. rewrite fmap_alter_same; [done|]. by intros []; destruct c. Qed.

(** ** Calls *)

(** What a method of a call does to its core: nothing, or close it. *)
Definition closes_at_most (pc pc' : pendingCall) : Prop :=
  call_core pc' = call_core pc \/ pc_closed pc = false /\ call_core pc' = k_close1 (call_core pc).

Lemma fail_core e pc : closes_at_most pc (fail e pc) /\ pc_closed (fail e pc) = true.
Proof. unfold fail. destruct (pc_closed pc) eqn:E; [split; [by left|done]|]. split; [by right|done]. Qed.

Lemma completeStream_core pc : closes_at_most pc (completeStream pc).
Proof. unfold completeStream. destruct (pc_closed pc) eqn:E; [by left|by right]. Qed.

Lemma completeCall_core pc : closes_at_most pc (completeCall pc).
Proof. unfold completeCall. destruct (pc_closed pc) eqn:E; [by left|by right]. Qed.

Lemma end_call_core en pc pc0 :
  call_core pc = call_core pc0 -> closes_at_most pc0 (end_call en pc).
Proof.
  intros Hc. assert (Hs : forall pc', closes_at_most pc pc' -> closes_at_most pc0 pc').
  { unfold closes_at_most. rewrite <-Hc. intros pc' [?|[Ho ?]]; [by left|right]. split; [|done].
    unfold call_core in Hc. injection Hc. intros. congruence. }
  apply Hs. destruct en as [[|e]|]; simpl; [apply completeStream_core|apply fail_core|by left].
Qed.

(** On an open call the handler does not panic and closes it at most. *)
Lemma handle_open pick msg pc :
  pc_closed pc = false -> exists pc', handle pick msg pc = Some pc' /\ closes_at_most pc pc'.
Proof.
  intros Ho. unfold handle. destruct (pc_stream pc).
  - rewrite stream_handler_effect by done. eexists. split; [done|]. by apply end_call_core.
  - unfold callPendingHandler, send_resp. rewrite Ho.
    destruct (msg_Type msg); try (eexists; split; [done|]; by left); simpl.
    3: { eexists. split; [done|]. apply fail_core. }
    all: destruct (try_send _ _ _); simpl; eexists; (split; [done|]).
    1,3: unfold completeCall; simpl; rewrite Ho; by right.
    all: unfold completeCall; rewrite (proj2 (fail_core _ pc)); apply fail_core.
Qed.

Lemma core_set_call k pc h :
  core_of (set_call k pc h) = with_calls (<[k := call_core pc]> (s_calls (core_of h))) (core_of h).
Proof. unfold core_of, set_call. simpl. by rewrite fmap_insert. Qed.

Lemma decrement_count_down w l : relayInFlight (decrementRelayInFlight w l) = count_down w (relayInFlight l).
Proof.
  unfold decrementRelayInFlight, count_down. case_if; [done|]. simpl. case_if; [|done].
  by rewrite delete_insert_eq.
Qed.

Lemma decrement_pending w l : relayPending (decrementRelayInFlight w l) = relayPending l.
Proof. unfold decrementRelayInFlight. by case_if. Qed.

Lemma core_update_call ch k pc pc' h :
  h_calls h !! k = Some pc -> closes_at_most pc pc' ->
  core_of (update_call ch k pc pc' h) = if pc_closed pc' then k_close (core_of h) k else core_of h.
Proof.
  intros Hk Hc. assert (Hl : s_calls (core_of h) !! k = Some (call_core pc)) by (simpl; by rewrite lookup_fmap, Hk).
  unfold update_call. destruct Hc as [Hc|[Ho Hc]].
  - assert (Hd : pc_closed pc' = pc_closed pc) by (unfold call_core in Hc; congruence). rewrite Hd.
    replace (negb _ && _) with false by (by destruct (pc_closed pc)).
    rewrite core_set_call, Hc, insert_id by done. destruct (pc_closed pc) eqn:E; [|done].
    unfold k_close. rewrite Hl. simpl. by rewrite E.
  - assert (Hd : pc_closed pc' = true) by (unfold call_core, k_close1 in Hc; simpl in Hc; congruence).
    rewrite Ho, Hd. simpl. unfold k_close. rewrite Hl. simpl k_closed. rewrite Ho.
    pose proof (core_set_call k pc' h) as Hs. rewrite Hc in Hs.
    assert (Hm : call_core <$> <[k := pc']> (h_calls h) = <[k := k_close1 (call_core pc)]> (call_core <$> h_calls h))
      by (by rewrite fmap_insert, Hc).
    unfold call_core, k_close1 in Hc. simpl in Hc.
    injection Hc as Hid Hconn Hhub Hw _. unfold finish. rewrite Hid, Hconn, Hhub, Hw. simpl k_conn. simpl k_hub.
    destruct (pc_conn pc) as [r|].
    + assert (Hu : core_of (upd_conn r (fun c => set_pending (delete_own (pc_id pc) k (c_pending c)) c) (set_call k pc' h)) =
        with_heap (alter (k_forget (pc_id pc) k) r (s_heap (core_of h)))
          (with_calls (<[k := k_close1 (call_core pc)]> (s_calls (core_of h))) (core_of h))).
      { rewrite (core_upd_conn _ _ (k_forget (pc_id pc) k)), Hs; done. }
      by destruct (pc_hub pc).
    + destruct (pc_hub pc); [|done]. simpl. case_decide.
      * rewrite core_recordWait. unfold core_of, upd_relay, with_relay in *. simpl in *. f_equal.
        -- exact Hm.
        -- by rewrite decrement_pending.
        -- by rewrite decrement_count_down.
      * unfold core_of, upd_relay, with_relay in *. simpl in *. f_equal. exact Hm.
Qed.

Lemma core_fail_call ch e h k : core_of (fail_call ch e h k) = k_close (core_of h) k.
Proof.
  unfold fail_call. destruct (h_calls h !! k) as [pc|] eqn:E.
  - rewrite (core_update_call _ _ pc) by (done || apply fail_core). by rewrite (proj2 (fail_core e pc)).
  - unfold k_close. simpl. by rewrite lookup_fmap, E.
Qed.

Lemma core_fail_calls ch e ks h : core_of (foldl (fail_call ch e) h ks) = foldl k_close (core_of h) ks.
Proof. revert h. induction ks as [|k ks IH]; intros h; simpl; [done|]. by rewrite IH, core_fail_call. Qed.

(** A message reaches an open call: it is consumed without a panic. *)
Lemma handle_call_open ch k msg h pc :
  h_calls h !! k = Some pc -> pc_closed pc = false ->
  exists h', handle_call ch k msg h = OK h' /\ (core_of h' = core_of h \/ core_of h' = k_close (core_of h) k).
Proof.
  intros Hk Ho. unfold handle_call. rewrite Hk. destruct (handle_open (ch_pick ch k) msg pc Ho) as (pc' & -> & Hc).
  eexists. split; [done|]. rewrite (core_update_call _ _ pc) by done. case_if; auto.
Qed.

(** ** Registration *)

Lemma fresh_call_None (h : WSHub) : h_calls h !! fresh (dom (h_calls h)) = None.
Proof. apply not_elem_of_dom, is_fresh. Qed.

Lemma fresh_heap_None (h : WSHub) : h_heap h !! fresh (dom (h_heap h)) = None.
Proof. apply not_elem_of_dom, is_fresh. Qed.

Lemma core_addPending ch r c id stream h :
  let '(h', res) := addPending ch r c id stream h in
  match res with
  | inr _ => core_of h' = core_of h
  | inl k => k = fresh (dom (h_calls h)) /\ core_of h' = k_add k r id (core_of h) /\ c_pending c !! id = None
  end.
Proof.
  unfold addPending. case_decide as Hd; [done|]. case_if; [by apply core_upd_conn_same|].
  split_and!; [done| |by destruct (c_pending c !! id); [destruct Hd|]].
  rewrite (core_upd_conn _ _ (k_remember id (fresh (dom (h_calls h))))), core_set_call; done.
Qed.

Lemma core_registerRelay ch id w stream h :
  let '(h', res) := registerRelay ch id w stream h in
  match res with
  | inr _ => core_of h' = core_of h
  | inl k => k = fresh (dom (h_calls h)) /\ core_of h' = k_add_relay k id w (core_of h) /\
      relayPending (h_relay h) !! id = None
  end.
Proof.
  unfold registerRelay. case_if; [done|]. case_decide as Hd; [done|].
  split_and!; [done| |by destruct (relayPending (h_relay h) !! id); [destruct Hd|]].
  rewrite core_set_call. done.
Qed.

(** ** The invariant of the hub *)

(** [taken n]: tokens of semaphore [n] held by handshakes on their way. *)
Definition hub_ok (taken : nat -> nat) (h : WSHub) : Prop := core_ok (core_of h) /\ slots_ok taken (core_of h).

Lemma hub_ok_same taken h h' : core_of h' = core_of h -> hub_ok taken h -> hub_ok taken h'.
Proof. unfold hub_ok. by intros ->. Qed.

Lemma hub_ok_closes taken ks h h' :
  core_of h' = foldl k_close (core_of h) ks -> hub_ok taken h -> hub_ok taken h'.
Proof.
  intros Hc [H1 H2]. unfold hub_ok. rewrite Hc. split; [by apply core_ok_closes|].
  destruct (k_closes_other_maps ks (core_of h)) as (_ & Hs & Hcs).
  by apply (slots_ok_same taken _ (core_of h)); [apply k_closes_slots|..].
Qed.

Lemma hub_ok_close taken k h h' : core_of h' = k_close (core_of h) k -> hub_ok taken h -> hub_ok taken h'.
Proof. intros Hc. by apply (hub_ok_closes taken [k]). Qed.

Lemma core_shutdown ch r c h :
  h_heap h !! r = Some c ->
  core_of (shutdown ch r h) = k_shutdown r (conn_core c) (range_values ch (c_pending c)) (core_of h).
Proof.
  intros Hr. unfold shutdown, k_shutdown. rewrite Hr. simpl. destruct (c_done c) eqn:Ed; [done|].
  set (h0 := set_conns _ _). set (h1 := upd_conn r (set_pending ∅) h0).
  assert (H1 : core_of h1 = k_mark (c_id c) r (core_of h)).
  { subst h1 h0. unfold k_mark, core_of, upd_conn, with_heap, with_conns. simpl. f_equal.
    rewrite alter_alter_eq. apply map_eq. intros i. rewrite lookup_fmap. destruct (decide (i = r)) as [->|Hne].
    - by rewrite !lookup_alter_eq, lookup_fmap, Hr.
    - by rewrite !lookup_alter_ne, lookup_fmap by done. }
  rewrite <-H1, <-(core_fail_calls ch (Sentinel errConnClosed)). case_decide; [apply core_bridge|done].
Qed.

Lemma hub_ok_shutdown taken ch r h : hub_ok taken h -> hub_ok taken (shutdown ch r h).
Proof.
  intros [H1 H2]. destruct (h_heap h !! r) as [c|] eqn:Hr; [|unfold shutdown; by rewrite Hr].
  unfold hub_ok. rewrite (core_shutdown ch r c h Hr).
  assert (Hl : s_heap (core_of h) !! r = Some (conn_core c)) by (simpl; by rewrite lookup_fmap, Hr). split.
  - apply core_ok_shutdown; [done..|]. simpl. apply ch_range_perm.
  - unfold k_shutdown. destruct (kc_done _); [done|].
    destruct (k_closes_other_maps (range_values ch (c_pending c)) (k_mark (kc_id (conn_core c)) r (core_of h))) as (_ & Hs & Hcs).
    apply (slots_ok_same taken _ (core_of h)); [|done..]. rewrite k_closes_slots. simpl. by apply fmap_alter_same.
Qed.

Lemma hub_ok_releaseSlot taken r h : hub_ok taken h -> hub_ok taken (releaseSlot r h).
Proof.
  intros [H1 H2]. unfold releaseSlot. destruct (h_heap h !! r) as [c|] eqn:Hr; [|done].
  destruct (c_slotReleased c); [done|].
  assert (Hl : s_heap (core_of h) !! r = Some (conn_core c)) by (simpl; by rewrite lookup_fmap, Hr).
  assert (Hd : core_of (upd_conn r drop_slot h) = with_heap (alter k_unslot r (s_heap (core_of h))) (core_of h))
    by by apply core_upd_conn.
  assert (Hok : core_ok (core_of (upd_conn r drop_slot h))) by (rewrite Hd; by apply core_ok_unslot).
  destruct (c_slot c) as [n|] eqn:Hn.
  - destruct (slots_ok_release taken (core_of h) r (conn_core c) n H2 Hl Hn) as (sem & Hsem & Hpos & Hs).
    simpl in Hsem. simpl. rewrite Hsem, (proj2 (Z.ltb_lt _ _)) by done.
    split; [exact (core_ok_sems _ _ _ Hok)|].
    unfold with_sems, with_heap in Hs, Hd. unfold core_of in *. simpl in *. injection Hd as Hd. by rewrite Hd.
  - split; [exact Hok|]. apply (slots_ok_same taken _ (core_of h)); try done. rewrite Hd. simpl.
    apply map_eq. intros i. rewrite !lookup_fmap. destruct (decide (i = r)) as [->|Hne].
    + rewrite lookup_alter_eq, lookup_fmap, Hr. simpl. by rewrite Hn.
    + by rewrite lookup_alter_ne, lookup_fmap.
Qed.

Lemma hub_ok_handle_call taken ch k msg h pc :
  h_calls h !! k = Some pc -> pc_closed pc = false -> hub_ok taken h ->
  exists h', handle_call ch k msg h = OK h' /\ hub_ok taken h'.
Proof.
  intros Hk Ho Hok. destruct (handle_call_open ch k msg h pc Hk Ho) as (h' & -> & [Hc|Hc]);
    exists h'; (split; [done|]); [by apply (hub_ok_same _ h)|by apply (hub_ok_close _ k h)].
Qed.

(** A call found in a map is open. *)
Lemma pending_open taken h r c id k :
  hub_ok taken h -> h_heap h !! r = Some c -> c_pending c !! id = Some k ->
  exists pc, h_calls h !! k = Some pc /\ pc_closed pc = false /\ pc_conn pc = Some r /\ pc_id pc = id.
Proof.
  intros [[Hc _ _] _] Hr Hp. destruct (co_pending _ Hc r (conn_core c) id k) as (kc & Hk & H1 & H2 & H3); [|done|].
  - simpl. by rewrite lookup_fmap, Hr.
  - simpl in Hk. rewrite lookup_fmap in Hk. destruct (h_calls h !! k) as [pc|]; [|done]. simpl in Hk. simplify_eq.
    by exists pc.
Qed.

Lemma relay_open taken h id k :
  hub_ok taken h -> relayPending (h_relay h) !! id = Some k ->
  exists pc, h_calls h !! k = Some pc /\ pc_closed pc = false /\ pc_conn pc = None /\ pc_id pc = id.
Proof.
  intros [[Hc _ _] _] Hp. destruct (co_relay _ Hc id k Hp) as (kc & Hk & H1 & H2 & H3).
  simpl in Hk. rewrite lookup_fmap in Hk. destruct (h_calls h !! k) as [pc|]; [|done]. simpl in Hk. simplify_eq.
  by exists pc.
Qed.

Lemma hub_ok_routeResponse taken ch r msg h :
  hub_ok taken h -> exists h', routeResponse ch r msg h = OK h' /\ hub_ok taken h'.
Proof.
  intros Hok. unfold routeResponse. destruct (h_heap h !! r) as [c|] eqn:Hr; simpl; [|by exists h].
  destruct (c_pending c !! msg_ID msg) as [k|] eqn:Hp; [|by exists h].
  destruct (pending_open _ _ _ _ _ _ Hok Hr Hp) as (pc & Hk & Ho & _). by apply (hub_ok_handle_call _ _ _ _ _ pc).
Qed.

Lemma hub_ok_failPending taken ch r id e h : hub_ok taken h -> hub_ok taken (failPending ch r id e h).
Proof.
  intros Hok. unfold failPending. destruct (c ← h_heap h !! r; c_pending c !! id); [|done].
  by eapply hub_ok_close; [apply core_fail_call|].
Qed.

Lemma hub_ok_dispatch taken ch r msg h :
  hub_ok taken h -> exists h', dispatch ch r msg h = OK h' /\ hub_ok taken h'.
Proof.
  intros Hok. unfold dispatch. destruct (h_heap h !! r) as [c|]; [|by exists h].
  destruct (msg_Type msg); try (by exists h); try (by apply hub_ok_routeResponse).
  - destruct (DecodePayload _ _ _) as [p|]; [|by exists h]. eexists. split; [done|].
    apply (hub_ok_same _ h); [|done]. by rewrite core_bridge, core_upd_conn_same.
  - destruct (DecodePayload _ _ _) as [p|]; [|by exists h]. eexists. split; [done|].
    apply (hub_ok_same _ h); [|done].
    case_if; rewrite ?core_SetWorkerMaxInFlight; by rewrite core_bridge, core_upd_conn_same.
  - eexists. split; [done|]. case_decide; [by apply hub_ok_failPending|done].
  - eexists. split; [done|]. by apply hub_ok_shutdown.
Qed.

Lemma hub_ok_dispatch_all taken ch msg h :
  hub_ok taken h -> exists h', dispatch_all ch msg h = OK h' /\ hub_ok taken h'.
Proof.
  unfold dispatch_all. generalize (range_values ch (h_conns h)). intros l. revert h.
  induction l as [|r l IH]; intros h Hok; simpl; [by exists h|].
  destruct (hub_ok_dispatch taken ch r msg h Hok) as (h' & -> & Hok'). by apply IH.
Qed.

Lemma hub_ok_failAllRelayPending taken ch e h : hub_ok taken h -> hub_ok taken (failAllRelayPending ch e h).
Proof. intros Hok. by eapply hub_ok_closes; [apply core_fail_calls|]. Qed.

Lemma hub_ok_start_call taken ch r c stream msg h :
  h_heap h !! r = Some c -> hub_ok taken h -> hub_ok taken (start_call ch r c stream msg h).1.1.
Proof.
  intros Hr Hok. unfold start_call.
  assert (Heq : (if stream then registerStream else registerCall) ch r c (msg_ID msg) h =
    addPending ch r c (msg_ID msg) stream h) by by destruct stream.
  rewrite Heq. pose proof (core_addPending ch r c (msg_ID msg) stream h) as Hadd.
  destruct (addPending ch r c (msg_ID msg) stream h) as [h1 [k|e]]; simpl; [|by apply (hub_ok_same _ h)].
  destruct Hadd as (-> & Hc & Hid). set (k := fresh _) in *.
  assert (Hok1 : hub_ok taken h1).
  { unfold hub_ok. rewrite Hc. destruct Hok as [H1 H2]. split.
    - apply (core_ok_add _ _ _ (conn_core c)); [done|..|done]; simpl; rewrite lookup_fmap.
      + subst k. by rewrite fresh_call_None.
      + by rewrite Hr.
    - apply (slots_ok_same taken _ (core_of h)); [|done..]. unfold k_add. simpl. by rewrite fmap_alter_same. }
  pose proof (core_send ch r c msg h1) as Hs. destruct (send ch r c msg h1) as [h2 [e|]]; simpl in *.
  - eapply hub_ok_close; [apply core_fail_call|]. by apply (hub_ok_same _ h1).
  - by apply (hub_ok_same _ h1).
Qed.

Lemma hub_ok_start_relay_call taken ch w stream msg h :
  hub_ok taken h -> hub_ok taken (start_relay_call ch w stream msg h).1.1.
Proof.
  intros Hok. unfold start_relay_call.
  assert (Heq : forall id, (if stream then registerRelayStream else registerRelayCall) ch id (wi_ID w) h =
    registerRelay ch id (wi_ID w) stream h) by by destruct stream.
  rewrite Heq. simpl msg_ID. pose proof (core_registerRelay ch (msg_ID msg) (wi_ID w) stream h) as Hadd.
  destruct (registerRelay ch (msg_ID msg) (wi_ID w) stream h) as [h1 [k|e]]; simpl; [|by apply (hub_ok_same _ h)].
  destruct Hadd as (-> & Hc & Hid). set (k := fresh _) in *.
  assert (Hok1 : hub_ok taken h1).
  { unfold hub_ok. rewrite Hc. destruct Hok as [H1 H2]. split.
    - apply core_ok_add_relay; [done| |done]. simpl. rewrite lookup_fmap. subst k. by rewrite fresh_call_None.
    - by apply (slots_ok_same taken _ (core_of h)). }
  pose proof (core_enqueueRelay ch (ch_ctx ch) (with_WorkerID (wi_ID w) msg) h1) as Hs.
  destruct (enqueueRelay _ _ _ h1) as [h2 [e|]]; simpl in *.
  - eapply hub_ok_close; [apply core_fail_call|]. by apply (hub_ok_same _ h1).
  - by apply (hub_ok_same _ h1).
Qed.

Lemma hub_ok_writer_round taken ch r written h : hub_ok taken h -> hub_ok taken (writer_round ch r written h).1.
Proof.
  intros Hok. unfold writer_round. destruct (h_heap h !! r) as [c|]; [|done].
  apply (select_all (fun x => hub_ok taken x.1)); [|done]. apply Forall_app. split; [|by apply Forall_if].
  destruct (c_sendCh c) as [|f q]; [constructor|]. apply Forall_singleton.
  assert (Hok' : hub_ok taken (upd_conn r (add_depth (-1)) (upd_conn r (set_sendCh q) h))).
  { apply (hub_ok_same _ h); [|done]. by rewrite core_depth, core_upd_conn_same. }
  destruct written; [done|]. by apply hub_ok_shutdown.
Qed.

Lemma hub_ok_acquire taken pick ctx h :
  hub_ok taken h ->
  let '(h', res) := acquireConn pick ctx h in
  match res with
  | inl n => hub_ok (fun m => if decide (m = n) then S (taken m) else taken m) h'
  | inr _ => hub_ok taken h'
  end.
Proof.
  intros Hok. assert (Hok1 : hub_ok taken (connSemFor h)).
  { unfold connSemFor. destruct (h_connSem h); [done|]. destruct Hok as [H1 H2]. split; [exact (core_ok_sems _ _ _ H1)|].
    apply (slots_ok_make taken (core_of h)); [done| |done]. apply not_elem_of_dom, is_fresh. }
  unfold acquireConn. assert (is_Some (h_connSem (connSemFor h))) as [n Hn].
  { unfold connSemFor. destruct (h_connSem h) eqn:E; [by rewrite E|done]. }
  revert Hok1 Hn. generalize (connSemFor h). clear h Hok. intros h Hok Hn. rewrite Hn. cbn [default from_option].
  destruct (so_current _ _ (proj2 Hok) n Hn) as [sem Hsem]. change (s_sems (core_of h)) with (h_sems h) in Hsem.
  unfold Datatypes.id. rewrite Hsem. cbn [default from_option]. unfold Datatypes.id.
  apply (select_all (fun x : WSHub * (nat + goerr) => let '(h', res) := x in match res with
    | inl n => hub_ok (fun m => if decide (m = n) then S (taken m) else taken m) h' | inr _ => hub_ok taken h' end)); [|done].
  apply Forall_app. split; [|by apply Forall_ctx_ready]. case_if; [|constructor]. zbool. apply Forall_singleton.
  destruct Hok as [H1 H2]. split; [exact (core_ok_sems _ _ _ H1)|]. rewrite <-Hn.
  by apply (slots_ok_acquire taken (core_of h) n sem).
Qed.

Lemma hub_ok_publish taken ch w n h :
  hub_ok (fun m => if decide (m = n) then S (taken m) else taken m) h -> hub_ok taken (publish ch w n h).1.
Proof.
  intros [H1 H2]. pose (r := fresh (dom (h_heap h))).
  assert (Hr : s_heap (core_of h) !! r = None) by (simpl; rewrite lookup_fmap; subst r; by rewrite fresh_heap_None).
  assert (Hc : core_of (publish ch w n h).1 = k_publish r (wi_ID w) (Some n) (core_of h)).
  { unfold publish. cbv zeta. cbn [fst]. rewrite core_enqueue, core_bridge.
    unfold core_of, k_publish, with_heap, with_conns. simpl. by rewrite fmap_insert. }
  unfold hub_ok. rewrite Hc. split; [by apply core_ok_publish|by apply slots_ok_publish].
Qed.

Lemma hub_ok_handleRelayRegister taken ch msg h h' :
  hub_ok taken h -> handleRelayRegister ch msg h = OK h' -> hub_ok taken h'.
Proof.
  intros Hok. unfold handleRelayRegister. destruct (DecodePayload _ _ _) as [reg|]; [|by intros [= <-]].
  case_decide; [by intros [= <-]|]. case_decide; [by intros [= <-]|]. set (w := if decide _ then _ else _).
  clearbody w. set (r := fresh (dom (h_heap h))). set (h1 := set_heap _ h).
  assert (Hr : s_heap (core_of h) !! r = None) by (simpl; rewrite lookup_fmap; subst r; by rewrite fresh_heap_None).
  intros Hs. assert (exists h2, core_of h2 = core_of h1 /\
    h' = (enqueue ch r (welcome (ch_id ch 1) w "registered via relay")
           (bridge ch (discovery EventAdded w) (set_conns (<[wi_ID w := r]> (h_conns h2)) h2))).1) as (h2 & H2 & ->).
  { destruct (h_conns h1 !! wi_ID w) as [old|].
    - destruct (enqueueClose_locked ch old "superseded" h1) as [h2| |] eqn:E; simpl in Hs; try done.
      exists h2. split; [by eapply core_enqueueClose_locked|by injection Hs as <-].
    - exists h1. split; [done|]. by injection Hs as <-. }
  unfold hub_ok. rewrite core_enqueue, core_bridge.
  assert (Hc : core_of (set_conns (<[wi_ID w := r]> (h_conns h2)) h2) = k_publish r (wi_ID w) None (core_of h)).
  { transitivity (with_conns (<[wi_ID w := r]> (s_conns (core_of h2))) (core_of h2)); [done|]. rewrite H2.
    unfold core_of, k_publish, with_heap, with_conns. simpl. by rewrite fmap_insert. }
  rewrite Hc. destruct Hok as [Ho Hs']. split; [by apply core_ok_publish|].
  pose proof (slots_ok_alloc taken (core_of h) r (mkKConn (wi_ID w) false ∅ None) Hs' Hr eq_refl) as Ha.
  revert Ha. by apply slots_ok_same.
Qed.

Lemma hub_ok_routed taken ch msg h :
  hub_ok taken h -> exists h1 consumed, relay_routed ch msg h = OK (h1, consumed) /\ hub_ok taken h1.
Proof.
  intros Hok.
  assert (Hroute : exists h1 consumed, routeRelayResponse ch msg h = OK (h1, consumed) /\ hub_ok taken h1).
  { unfold routeRelayResponse. destruct (relayPending (h_relay h) !! msg_ID msg) as [k|] eqn:Hp; [|by eexists _, _].
    destruct (relay_open _ _ _ _ Hok Hp) as (pc & Hk & Ho & _).
    destruct (hub_ok_handle_call taken ch k msg h pc Hk Ho Hok) as (h1 & -> & Hok1). by exists h1, true. }
  unfold relay_routed. destruct (msg_Type msg); try done; by eexists _, _.
Qed.

Lemma hub_ok_relay_receive taken ch msg h h' cont :
  hub_ok taken h -> relay_receive ch msg h = OK (h', cont) -> hub_ok taken h'.
Proof.
  intros Hok. unfold relay_receive. case_decide.
  { destruct (handleRelayRegister ch msg h) eqn:E; simpl; [|done..]. intros [= <- _].
    by eapply hub_ok_handleRelayRegister. }
  case_decide.
  { pose proof (core_enqueueRelay ch None {| msg_ID := msg_ID msg; msg_Type := MsgPing; msg_WorkerID := ""; msg_Payload := "" |} h) as Hc.
    destruct (enqueueRelay _ _ _ h) as [h1 [e|]]; simpl in Hc; intros [= <- _]; by apply (hub_ok_same _ h). }
  destruct (hub_ok_routed taken ch msg h Hok) as (h1 & consumed & E & Hok1). rewrite E.
  simpl. case_decide.
  - destruct consumed; [by intros [= <- _]|]. destruct (h_conns h1 !! msg_WorkerID msg) as [r|]; [|by intros [= <- _]].
    destruct (hub_ok_dispatch taken ch r msg h1 Hok1) as (h2 & -> & Hok2). by intros [= <- _].
  - destruct (hub_ok_dispatch_all taken ch msg h1 Hok1) as (h2 & -> & Hok2). by intros [= <- _].
Qed.

Lemma hub_ok_relay_writer_round taken ch gen written h :
  hub_ok taken h -> hub_ok taken (relay_writer_round ch gen written h).1.
Proof.
  intros Hok. unfold relay_writer_round. destruct (relaySendCh (h_relay h)) as [|f q]; [done|].
  assert (Hok' : hub_ok taken (upd_relay (set_relaySendCh q) h)) by by apply (hub_ok_same _ h).
  destruct written; [done|]. simpl. eapply hub_ok_same; [apply core_relay_dropped|]. by apply hub_ok_failAllRelayPending.
Qed.

Lemma hub_ok_relay_reader_exit taken ch gen h : hub_ok taken h -> hub_ok taken (relay_reader_exit ch gen h).
Proof.
  intros Hok. unfold relay_reader_exit.
  assert (Hok' : hub_ok taken (failAllRelayPending ch (Sentinel errRelayDisconnected) (relay_dropped gen h))).
  { apply hub_ok_failAllRelayPending. by apply (hub_ok_same _ h); [apply core_relay_dropped|]. }
  revert Hok'. generalize (failAllRelayPending ch (Sentinel errRelayDisconnected) (relay_dropped gen h)). clear.
  intros h [Ho Hs]. split; [|by apply (slots_ok_same taken _ (core_of h))].
  apply (core_ok_inFlight (base.filter (fun p : string * Z => p.2 <> 0) (relayInFlight (h_relay h))) (core_of h) Ho).
  intros w Hw. pose proof (ok_flight _ Ho w Hw) as Hf. cbv zeta in Hf. rewrite map_lookup_filter.
  change (s_inFlight (core_of h)) with (relayInFlight (h_relay h)) in *. rewrite Hf.
  case_if; simpl; [done|]. zbool. by rewrite option_guard_True.
Qed.

(** ** Every reachable state *)

Definition has_slot (n : nat) (p : phase) : nat :=
  match p with HasSlot m => if decide (m = n) then 1 else 0 | _ => 0 end.

(** Tokens of semaphore [n] that handshakes hold. *)
Fixpoint taken_by (l : list (WorkerInfo * phase)) (n : nat) : nat :=
  match l with
  | [] => 0
  | (_, p) :: l => has_slot n p + taken_by l n
  end.

Lemma taken_by_insert l i w p w' p' n :
  l !! i = Some (w, p) -> (taken_by (<[i := (w', p')]> l) n + has_slot n p = taken_by l n + has_slot n p')%nat.
Proof.
  revert i. induction l as [|[w0 p0] l IH]; intros [|i] Hi; simplify_eq/=; [lia|]. specialize (IH i Hi). lia.
Qed.

Lemma taken_by_delete l i w p n :
  l !! i = Some (w, p) -> (taken_by (delete i l) n + has_slot n p = taken_by l n)%nat.
Proof.
  revert i. induction l as [|[w0 p0] l IH]; intros [|i] Hi; simplify_eq/=; [lia|]. specialize (IH i Hi). lia.
Qed.

Lemma taken_by_app l l' n : taken_by (l ++ l') n = (taken_by l n + taken_by l' n)%nat.
Proof. induction l as [|[w p] l IH]; simpl; [done|]. lia. Qed.

Definition sys_ok (s : system) : Prop := hub_ok (taken_by (sys_shakes s)) (sys_hub s).

Lemma hub_ok_taken taken taken' h : (forall n, taken' n = taken n) -> hub_ok taken h -> hub_ok taken' h.
Proof. intros Ht [H1 H2]. split; [done|]. by apply (slots_ok_same taken _ (core_of h)). Qed.

Lemma supersede_ok taken ch id h h' : hub_ok taken h -> supersede ch id h = OK h' -> hub_ok taken h'.
Proof.
  intros Hok. unfold supersede. destruct (h_conns h !! id) as [old|]; [|by intros [= <-]].
  intros H%core_enqueueClose_locked. apply (hub_ok_same _ _ _ H). by apply hub_ok_releaseSlot.
Qed.

Lemma set_sem_ok taken n h : 0 <= n -> hub_ok taken h -> hub_ok taken (make_connSem n h).
Proof.
  intros Hn [H1 H2]. split; [exact (core_ok_sems _ _ _ H1)|].
  apply (slots_ok_make taken (core_of h)); [done| |done]. apply not_elem_of_dom, is_fresh.
Qed.

Lemma step_op_ok ch s o s' : sys_ok s -> step_op ch s o = OK s' -> sys_ok s'.
Proof.
  destruct s as [h l]. unfold sys_ok, step_op, on_hub, try_hub. simpl. intros Hok.
  destruct o; simpl; try (intros [= <-]; simpl).
  - destruct (checkRegister first peerIP h) as [[w|e]| |]; simpl; try done; intros [= <-]; [|done].
    apply (hub_ok_taken (taken_by l)); [|done]. intros n. simpl. rewrite taken_by_app. simpl. lia.
  - destruct (l !! i) as [[w []]|] eqn:Hi; try (by intros [= <-]).
    destruct (supersede ch (wi_ID w) h) as [h'| |] eqn:E; simpl; try done. intros [= <-]. simpl.
    apply (hub_ok_taken (taken_by l)); [|by eapply supersede_ok]. intros n.
    pose proof (taken_by_insert l i w Checked w Superseded n Hi). simpl in *. lia.
  - destruct (l !! i) as [[w []]|] eqn:Hi; try (by intros [= <-]).
    pose proof (hub_ok_acquire (taken_by l) (ch_pick ch 0) ctx h Hok) as Ha.
    destruct (acquireConn (ch_pick ch 0) ctx h) as [h' [slot|e]]; simpl; intros [= <-]; simpl;
      (eapply hub_ok_taken; [|exact Ha]); intros n.
    + pose proof (taken_by_insert l i w Superseded w (HasSlot slot) n Hi) as Ht. simpl in Ht.
      repeat case_decide; subst; done || lia.
    + pose proof (taken_by_delete l i w Superseded n Hi) as Ht. simpl in Ht. lia.
  - destruct (l !! i) as [[w [| |slot]]|] eqn:Hi; try (by intros [= <-]). intros [= <-]. simpl.
    apply hub_ok_publish. eapply hub_ok_taken; [|exact Hok]. intros n.
    pose proof (taken_by_delete l i w (HasSlot slot) n Hi) as Ht. simpl in Ht. repeat case_decide; subst; done || lia.
  - destruct (hub_ok_dispatch (taken_by l) ch r msg h Hok) as (h' & -> & Hok'). by intros [= <-].
  - by apply hub_ok_releaseSlot, hub_ok_shutdown.
  - unfold grace_expired. destruct (h_heap h !! r) as [c|]; [|done]. destruct (c_grace c); [|done].
    by apply hub_ok_shutdown.
  - by apply hub_ok_writer_round.
  - destruct (h_heap h !! r) as [c|] eqn:Hr; intros [= <-]; [|done]. by apply hub_ok_start_call.
  - by apply hub_ok_start_relay_call.
  - eapply hub_ok_close; [apply core_fail_call|done].
  - apply (hub_ok_same _ h); [apply core_take|done].
  - apply (hub_ok_same _ h); [apply core_enqueueClose|done].
  - apply (hub_ok_same _ h); [apply core_ping_all|done].
  - by apply (hub_ok_same _ h).
  - destruct (relay_receive ch msg h) as [[h' cont]| |] eqn:E; simpl; try done. intros [= <-].
    by eapply hub_ok_relay_receive.
  - by apply hub_ok_relay_writer_round.
  - apply (hub_ok_same _ h); [apply core_relay_dropped|done].
  - by apply hub_ok_relay_reader_exit.
  - apply (hub_ok_same _ h); [apply core_SetWorkerMaxInFlight|done].
  - apply set_sem_ok; [|done]. unfold defaultMaxConnections. case_if; lia.
  - apply (hub_ok_same _ h); [by apply core_upd_worker|done].
  - apply (hub_ok_same _ h); [by apply core_upd_worker|done].
  - by apply (hub_ok_same _ h).
  - by apply (hub_ok_same _ h).
Qed.

Lemma initial_ok reg cfg : sys_ok (initial reg cfg).
Proof.
  assert (Hh : s_heap (core_of (sys_hub (initial reg cfg))) = ∅) by apply fmap_empty.
  assert (Hc : s_calls (core_of (sys_hub (initial reg cfg))) = ∅) by apply fmap_empty.
  split; split; rewrite ?Hh, ?Hc; try done.
  intros n [(r & c & Hr & _)|Ht]; [by rewrite lookup_empty in Hr|done].
Qed.

Lemma reachable_ok s : reachable_sys s -> sys_ok s.
Proof.
  intros (reg & cfg & H). revert H. apply (rtc_invariant sstep sys_ok); [|apply initial_ok].
  intros a b Ha Hs. inv Hs. by eapply step_op_ok.
Qed.
End system.
