(* ===== verification/HubSpec.v ===== *)
(** * HubSpec: what the hub guarantees

    The theorems on the hub, from the invariant of [HubSystem]: the accounting
    of calls, in-flight counts and connection slots in every reachable state,
    the absence of panics, admission, isolation between workers, the round trip
    of a request, the end of a connection, and the faults the model shows. *)

From S2P Require Import Prelude GoFloat Errors Protocol Registry QueueStats Pending Hub HubCore HubSystem.

Section spec.
Context `{C : Codec}.

(** Call [pc] is an open relay call of worker [w]. *)
Definition relay_call_of (w : string) (pc : pendingCall) : bool :=
  bool_decide (pc_conn pc = None) && negb (pc_closed pc) && String.eqb (pc_workerID pc) w.

Definition relay_calls_of (w : string) (h : WSHub) : nat :=
  size (base.filter (fun p : nat * pendingCall => relay_call_of w p.2 = true) (h_calls h)).

Lemma relay_calls_of_core w h : size (relay_calls w (s_calls (core_of h))) = relay_calls_of w h.
Proof. unfold relay_calls, relay_calls_of. simpl. rewrite map_filter_fmap, map_size_fmap. done. Qed.

(** C5: in every reachable state of the hub, whatever the order of its
    goroutines: a call is in the pending map of its owner, under its own
    identifier, exactly while it is open; the in-flight count of a relay worker
    is the number of its open relay calls, with no entry at zero; and the
    connection map holds live connections under their own identifiers. *)
Theorem hub_accounting s :
  reachable_sys s ->
  let h := sys_hub s in
  (forall k pc r, h_calls h !! k = Some pc -> pc_conn pc = Some r ->
     (pc_closed pc = false <-> exists c id, h_heap h !! r = Some c /\ c_pending c !! id = Some k)) /\
  (forall r c id k, h_heap h !! r = Some c -> c_pending c !! id = Some k ->
     exists pc, h_calls h !! k = Some pc /\ pc_conn pc = Some r /\ pc_id pc = id) /\
  (forall k pc, h_calls h !! k = Some pc -> pc_conn pc = None ->
     (pc_closed pc = false <-> exists id, relayPending (h_relay h) !! id = Some k)) /\
  (forall w, w <> "" -> relayInFlight (h_relay h) !! w =
     if (relay_calls_of w h =? 0)%nat then None else Some (Z.of_nat (relay_calls_of w h))) /\
  (forall id r, h_conns h !! id = Some r -> exists c, h_heap h !! r = Some c /\ c_id c = id /\ c_done c = false).
Proof.
  intros Hs h. pose proof (reachable_ok s Hs) as Hok. fold h in Hok. unfold sys_ok in Hok. fold h in Hok.
  pose proof Hok as [[Hc Hf Ho] _]. split_and!.
  - intros k pc r Hk Hr. split.
    + intros Hop. destruct (co_open _ Hc r k (call_core pc)) as (c & Hc' & Hp); [|done..|].
      { simpl. by rewrite lookup_fmap, Hk. }
      simpl in Hc'. rewrite lookup_fmap in Hc'. destruct (h_heap h !! r) as [c0|]; [|done]. simpl in Hc'. simplify_eq.
      by exists c0, (pc_id pc).
    + intros (c & id & Hr' & Hp). destruct (pending_open _ _ _ _ _ _ Hok Hr' Hp) as (pc' & Hk' & ? & _). by simplify_eq.
  - intros r c id k Hr Hp. destruct (pending_open _ _ _ _ _ _ Hok Hr Hp) as (pc & ? & _ & ? & ?). by exists pc.
  - intros k pc Hk Hr. split.
    + intros Hop. exists (pc_id pc). apply (co_relay_open _ Hc k (call_core pc)); [|done..]. simpl. by rewrite lookup_fmap, Hk.
    + intros (id & Hp). destruct (relay_open _ _ _ _ Hok Hp) as (pc' & Hk' & ? & _). by simplify_eq.
  - intros w Hw. specialize (Hf w Hw). cbv zeta in Hf. rewrite relay_calls_of_core in Hf. simpl in Hf. rewrite Hf.
    destruct (relay_calls_of w h); done.
  - intros id r (c & Hr & Hid & Hd)%Ho. simpl in Hr. rewrite lookup_fmap in Hr.
    destruct (h_heap h !! r) as [c0|]; [|done]. simpl in Hr. simplify_eq. by exists c0.
Qed.

(** No frame, from a worker or from the relay, and no action of a client or
    a timer makes the router panic while its methods run one at a time: only a
    handshake does, in a hub built without a registry. *)
Theorem hub_no_panic ch s o :
  reachable_sys s -> step_op ch s o = Panicked ->
  exists first peerIP, o = OAccept first peerIP /\ h_reg (sys_hub s) = None.
Proof.
  intros Hs Hp. pose proof (reachable_ok s Hs) as Hok. destruct s as [h l]. unfold sys_ok in Hok. simpl in Hok.
  destruct o; simpl in Hp; unfold on_hub, try_hub in Hp; simpl in Hp; try done.
  - exists first, peerIP. split; [done|]. simpl. destruct (checkRegister first peerIP h) as [[]| |] eqn:E; simpl in Hp; try done.
    unfold checkRegister in E. repeat case_match; done.
  - destruct (l !! i) as [[w []]|]; try done. unfold supersede in Hp. destruct (h_conns h !! wi_ID w); [|done].
    unfold enqueueClose_locked in Hp. by repeat case_match.
  - destruct (l !! i) as [[w []]|]; try done. by destruct (acquireConn _ _ _).
  - destruct (l !! i) as [[w []]|]; try done.
  - by destruct (hub_ok_dispatch _ ch r msg h Hok) as (h' & E & _); rewrite E in Hp.
  - by destruct (h_heap h !! r).
  - exfalso. unfold relay_receive in Hp. case_decide.
    { unfold handleRelayRegister in Hp. destruct (DecodePayload _ _ _); [|done]. case_decide; [done|].
      case_decide; [done|]. destruct (h_conns _ !! _); [|done]. unfold enqueueClose_locked in Hp.
      by repeat case_match. }
    case_decide; [by destruct (enqueueRelay _ _ _ h) as [? []]|].
    destruct (hub_ok_routed (taken_by l) ch msg h Hok) as (h1 & consumed & E & Hok1).
    rewrite E in Hp. simpl in Hp. case_decide.
    + destruct consumed; [done|]. destruct (h_conns h1 !! msg_WorkerID msg) as [r|]; [|done].
      destruct (hub_ok_dispatch _ ch r msg h1 Hok1) as (h2 & E2 & _). by rewrite E2 in Hp.
    + destruct (hub_ok_dispatch_all _ ch msg h1 Hok1) as (h2 & E2 & _). by rewrite E2 in Hp.
Qed.

(** The connections that hold a token of semaphore [n]. *)
Definition slot_conns (n : nat) (h : WSHub) : gmap nat wsConnection :=
  base.filter (fun p : nat * wsConnection => c_slot p.2 = Some n) (h_heap h).

Lemma slot_conns_core n h : size (slot_holders n (s_heap (core_of h))) = size (slot_conns n h).
Proof.
  unfold slot_holders, slot_conns. simpl. rewrite <-map_fmap_compose, map_filter_fmap, map_size_fmap. done.
Qed.

(** C31: a semaphore holds exactly one token per connection and per handshake
    that has one, and never more than its capacity: no token is lost or
    released twice, whoever supersedes whom. *)
Theorem slots_accounted s n sem :
  reachable_sys s -> h_sems (sys_hub s) !! n = Some sem ->
  sem_held sem = Z.of_nat (size (slot_conns n (sys_hub s)) + taken_by (sys_shakes s) n) /\
  sem_held sem <= sem_cap sem.
Proof.
  intros Hs Hn. destruct (reachable_ok s Hs) as [_ Hok]. rewrite <-slot_conns_core. by apply (so_held _ _ Hok).
Qed.

(** ** Admission *)

(** A call on a connection is admitted exactly when its identifier is new
    and the worker has fewer calls in flight than its cap, its own or the
    hub's; it is then open and in the map, with one more call in flight.  At
    the cap the call is refused as rate limited and counted, and nothing else
    changes. *)
Theorem admission ch r c id stream h :
  h_heap h !! r = Some c ->
  let cap := maxInFlightFor h (c_id c) in
  let '(h', res) := addPending ch r c id stream h in
  0 < cap /\
  match res with
  | inl k =>
      c_pending c !! id = None /\ workerInFlight c < cap /\ h_calls h !! k = None /\
      h_calls h' !! k = Some (new_call id (Some r) false "" stream (ch_now ch)) /\
      exists c', h_heap h' !! r = Some c' /\ c_pending c' = <[id := k]> (c_pending c) /\
        workerInFlight c' = workerInFlight c + 1
  | inr e =>
      h_calls h' = h_calls h /\
      (e = Sentinel errRateLimited /\ cap <= workerInFlight c /\ h' = upd_conn r count429 h \/
       is_Some (c_pending c !! id) /\ h' = h)
  end.
Proof.
  intros Hr cap. unfold addPending. fold cap.
  assert (Hcap : 0 < cap).
  { unfold cap, maxInFlightFor, defaultMaxInFlight. repeat case_match; zbool; lia. }
  case_decide as Hd; [split; [done|]; split; [done|by right]|].
  assert (Hid : c_pending c !! id = None) by (destruct (c_pending c !! id); [by destruct Hd|done]).
  case_if; zbool; [split; [done|]; split; [done|by left]|]. split; [done|].
  set (k := fresh _). split_and!; [done..| | |].
  - subst k. apply fresh_call_None.
  - simpl. by rewrite lookup_insert_eq.
  - simpl. rewrite lookup_alter_eq, Hr. eexists. split; [done|]. split; [done|].
    unfold workerInFlight. simpl. rewrite map_size_insert_None by done. lia.
Qed.

(** ** Isolation *)

Lemma fail_call_other ch e h k k' : k <> k' -> h_calls (fail_call ch e h k) !! k' = h_calls h !! k'.
Proof.
  intros Hne. unfold fail_call. destruct (h_calls h !! k) as [pc|]; [|done]. unfold update_call, finish.
  repeat case_match; simpl; by rewrite lookup_insert_ne.
Qed.

Lemma fail_calls_other ch e ks h k' : k' ∉ ks -> h_calls (foldl (fail_call ch e) h ks) !! k' = h_calls h !! k'.
Proof.
  revert h. induction ks as [|k ks IH]; intros h Hk; simpl; [done|].
  rewrite IH by (intros ?; apply Hk; by right). apply fail_call_other. intros ->. apply Hk. by left.
Qed.

Lemma calls_bridge ch e h : h_calls (bridge ch e h) = h_calls h.
Proof. unfold bridge. destruct (h_reg h); [|done]. by destruct (de_Type e). Qed.

Lemma shutdown_other ch r c h k :
  h_heap h !! r = Some c -> (forall id, c_pending c !! id <> Some k) -> h_calls (shutdown ch r h) !! k = h_calls h !! k.
Proof.
  intros Hr Hk. unfold shutdown. rewrite Hr. destruct (c_done c); [done|]. cbv zeta.
  assert (Hnot : k ∉ range_values ch (c_pending c)).
  { unfold range_values. rewrite ch_range_perm, list_elem_of_fmap. intros ([id k'] & -> & Hp%elem_of_map_to_list).
    by apply (Hk id). }
  case_decide; rewrite ?calls_bridge, fail_calls_other; done.
Qed.

Lemma handle_call_other ch k msg h h' k' :
  handle_call ch k msg h = OK h' -> k <> k' -> h_calls h' !! k' = h_calls h !! k'.
Proof.
  unfold handle_call. intros H Hne. destruct (h_calls h !! k) as [pc|]; [|by injection H as <-].
  destruct (handle _ _ _) as [pc'|]; [|done]. injection H as <-. unfold update_call, finish.
  repeat case_match; simpl; by rewrite lookup_insert_ne.
Qed.

(** C36: a worker cannot touch the calls of another: a frame read from a
    connection leaves every call that is not that connection's as it is. *)
Theorem worker_isolation ch s r msg h' k pc :
  reachable_sys s -> dispatch ch r msg (sys_hub s) = OK h' ->
  h_calls (sys_hub s) !! k = Some pc -> pc_conn pc <> Some r -> h_calls h' !! k = Some pc.
Proof.
  intros Hs Hd Hk Hne. pose proof (reachable_ok s Hs) as Hok. unfold sys_ok in Hok. revert Hok Hd Hk.
  generalize (sys_hub s). intros h Hok Hd Hk. unfold dispatch in Hd.
  destruct (h_heap h !! r) as [c|] eqn:Hr; [|by injection Hd as <-].
  assert (Hnot : forall id, c_pending c !! id <> Some k).
  { intros id Hp. destruct (pending_open _ _ _ _ _ _ Hok Hr Hp) as (pc' & Hk' & _ & ? & _). congruence. }
  assert (Hroute : forall id k', c_pending c !! id = Some k' -> k' <> k) by (intros id k' Hp ->; by apply (Hnot id)).
  assert (Hresp : routeResponse ch r msg h = OK h' -> h_calls h' !! k = Some pc).
  { unfold routeResponse. rewrite Hr. simpl. destruct (c_pending c !! msg_ID msg) as [k'|] eqn:Hp; [|congruence].
    intros Hh. rewrite (handle_call_other _ _ _ _ _ k Hh); [done|by eapply Hroute]. }
  destruct (msg_Type msg); auto; try (injection Hd as <-); try done.
  - destruct (DecodePayload _ _ _); injection Hd as <-; [by rewrite calls_bridge|done].
  - destruct (DecodePayload _ _ _); injection Hd as <-; [|done].
    case_if; unfold SetWorkerMaxInFlight; repeat case_if; simpl; by rewrite calls_bridge.
  - case_decide; [|done]. unfold failPending. rewrite Hr. simpl. destruct (c_pending c !! _) as [k'|] eqn:Hp; [|done].
    rewrite fail_call_other; [done|by eapply Hroute].
  - by rewrite (shutdown_other ch r c).
Qed.

(** ** A request and its response *)

Lemma try_send_room {A} cap (x : A) buf : (length buf < cap)%nat -> try_send cap x buf = Some (buf ++ [x]).
Proof. intros H. by apply try_send_Some. Qed.

(** The call that [start_call] leaves when nothing stands in its way. *)
Lemma start_call_sent ch r c stream msg data h :
  h_heap h !! r = Some c -> c_done c = false -> relayConnected h = false -> ch_ctx ch = None ->
  c_pending c !! msg_ID msg = None -> workerInFlight c < maxInFlightFor h (c_id c) ->
  marshal msg = Some data -> (length (c_sendCh c) < hc_sendQueueSize (h_cfg h))%nat ->
  let k := fresh (dom (h_calls h)) in
  exists h' c',
    start_call ch r c stream msg h = (h', inl k, None) /\
    h_calls h' = <[k := new_call (msg_ID msg) (Some r) false "" stream (ch_now ch)]> (h_calls h) /\
    h_heap h' !! r = Some c' /\ c_pending c' = <[msg_ID msg := k]> (c_pending c) /\
    c_sendCh c' = c_sendCh c ++ [data].
Proof.
  intros Hr Hd Hrel Hctx Hid Hcap Hm Hroom k. unfold start_call.
  assert (Heq : (if stream then registerStream else registerCall) ch r c (msg_ID msg) h =
    addPending ch r c (msg_ID msg) stream h) by by destruct stream.
  rewrite Heq. unfold addPending. rewrite decide_False by (rewrite Hid; by intros [? ?]).
  rewrite (proj2 (Z.leb_gt _ _)) by exact Hcap. fold k. unfold send.
  assert (Hr' : relayConnected (upd_conn r (fun c => set_pending (<[msg_ID msg := k]> (c_pending c)) c)
    (set_call k (new_call (msg_ID msg) (Some r) false "" stream (ch_now ch)) h)) = false) by done.
  rewrite Hr', Hm, Hctx, Hd. unfold to_conn. cbn [h_cfg upd_conn set_heap set_call set_calls].
  rewrite try_send_room by done. simpl app. rewrite select_one. cbn [snd fst].
  eexists _, _. split; [done|]. split; [done|]. simpl.
  rewrite !lookup_alter_eq, Hr. simpl. done.
Qed.

(** C14: a request on a live connection with room reaches the worker and its
    response comes back: the frame is last in the connection's queue; whatever
    [select] picks, the worker's response with the same identifier ends the
    call, which has left the map, and the caller gets exactly that response's
    result. *)
Theorem request_round_trip ch s r c msg data :
  reachable_sys s -> let h := sys_hub s in
  h_heap h !! r = Some c -> c_done c = false -> relayConnected h = false -> ch_ctx ch = None ->
  c_pending c !! msg_ID msg = None -> workerInFlight c < maxInFlightFor h (c_id c) ->
  marshal msg = Some data -> (length (c_sendCh c) < hc_sendQueueSize (h_cfg h))%nat ->
  exists h' c' k,
    start_call ch r c false msg h = (h', inl k, None) /\
    h_heap h' !! r = Some c' /\ c_sendCh c' = c_sendCh c ++ [data] /\
    forall ch' resp, msg_Type resp = MsgInferenceResponse -> msg_ID resp = msg_ID msg ->
      exists h2 pc, dispatch ch' r resp h' = OK h2 /\ h_calls h2 !! k = Some pc /\
        await_call None pc = [default (inr (Sentinel errConnClosed)) (response_result resp)] /\
        exists c2, h_heap h2 !! r = Some c2 /\ c_pending c2 = c_pending c.
Proof.
  intros _ h Hr Hd Hrel Hctx Hid Hcap Hm Hroom.
  destruct (start_call_sent ch r c false msg data h Hr Hd Hrel Hctx Hid Hcap Hm Hroom)
    as (h' & c' & Hs & Hc & Hr' & Hp & Hq).
  exists h', c', (fresh (dom (h_calls h))). split_and!; [done..|]. intros ch' resp Ht Hresp.
  set (k := fresh _) in *. unfold dispatch. rewrite Hr', Ht. unfold routeResponse. rewrite Hr'. simpl.
  rewrite Hp, Hresp, lookup_insert_eq. unfold handle_call. rewrite Hc, lookup_insert_eq.
  unfold handle. simpl pc_stream. cbv iota. unfold callPendingHandler. rewrite Ht. unfold send_resp. simpl pc_closed.
  cbv iota. simpl pc_respCh. change (try_send respCap resp []) with (Some [resp]). simpl.
  eexists _, _. split; [done|]. unfold update_call. simpl. rewrite lookup_insert_eq. split; [done|]. split.
  - unfold await_call. simpl. by destruct (response_result resp).
  - rewrite lookup_alter_eq, Hr'. eexists. split; [done|]. simpl. rewrite Hp. unfold delete_own.
    rewrite decide_True by apply lookup_insert_eq. by rewrite delete_insert_id.
Qed.

(** ** The end of a connection *)

Lemma fail_idemp e pc : fail e (fail e pc) = fail e pc.
Proof. unfold fail at 1. by rewrite (proj2 (fail_core e pc)). Qed.

Lemma fail_call_lookup ch e h k : h_calls (fail_call ch e h k) !! k = fail e <$> h_calls h !! k.
Proof.
  unfold fail_call. destruct (h_calls h !! k) as [pc|] eqn:E; [|done]. unfold update_call, finish.
  repeat case_match; simpl; by rewrite lookup_insert_eq.
Qed.

Lemma fail_calls_lookup ch e ks h k : k ∈ ks -> h_calls (foldl (fail_call ch e) h ks) !! k = fail e <$> h_calls h !! k.
Proof.
  revert h. induction ks as [|k' ks IH]; intros h Hk; simpl; [by apply elem_of_nil in Hk|].
  destruct (decide (k ∈ ks)) as [Hin|Hn].
  - rewrite IH by done. destruct (decide (k' = k)) as [->|Hne].
    + rewrite fail_call_lookup. destruct (h_calls h !! k); simpl; by rewrite ?fail_idemp.
    + by rewrite fail_call_other.
  - rewrite fail_calls_other by done. apply elem_of_cons in Hk as [->|?]; [|done]. by apply fail_call_lookup.
Qed.

Lemma reg_fail_call ch e h k : h_reg (fail_call ch e h k) = h_reg h /\ h_conns (fail_call ch e h k) = h_conns h.
Proof. unfold fail_call, update_call, finish. repeat case_match; done. Qed.

Lemma reg_fail_calls ch e ks h :
  h_reg (foldl (fail_call ch e) h ks) = h_reg h /\ h_conns (foldl (fail_call ch e) h ks) = h_conns h.
Proof.
  revert h. induction ks as [|k ks IH]; intros h; simpl; [done|]. destruct (IH (fail_call ch e h k)) as [-> ->].
  apply reg_fail_call.
Qed.

Lemma conns_bridge ch e h : h_conns (bridge ch e h) = h_conns h.
Proof. unfold bridge. destruct (h_reg h); [|done]. by destruct (de_Type e). Qed.

Lemma reg_bridge ch e h : h_reg (bridge ch e h) = HandleEvent (ch_now ch) e <$> h_reg h.
Proof. unfold bridge. destruct (h_reg h) eqn:E; [|done]. by destruct (de_Type e). Qed.

(** What [shutdown] does to the registry and the map of connections. *)
Lemma shutdown_reg ch r c h :
  h_heap h !! r = Some c -> c_done c = false -> wi_ID (c_worker c) <> "" ->
  h_reg (shutdown ch r h) = HandleEvent (ch_now ch) (discovery EventRemoved (c_worker c)) <$> h_reg h /\
  h_conns (shutdown ch r h) = delete_own (c_id c) r (h_conns h).
Proof.
  intros Hr Hd Hw. unfold shutdown. rewrite Hr, Hd. cbv zeta. rewrite decide_True by done.
  rewrite reg_bridge, conns_bridge. by rewrite !(proj1 (reg_fail_calls _ _ _ _)), !(proj2 (reg_fail_calls _ _ _ _)).
Qed.

Lemma shutdown_done ch r c h :
  h_heap h !! r = Some c -> c_done c = false ->
  exists c', h_heap (shutdown ch r h) !! r = Some c' /\ c_done c' = true.
Proof.
  intros Hr Hd. pose proof (core_shutdown ch r c h Hr) as Hc. unfold k_shutdown in Hc. simpl in Hc. rewrite Hd in Hc.
  rewrite k_closes_mark in Hc. set (s' := foldl k_close (core_of h) (range_values ch (c_pending c))) in *.
  assert (is_Some (s_heap s' !! r)) as [kc Hkc].
  { subst s'. apply elem_of_dom. rewrite k_closes_dom. apply elem_of_dom. simpl. rewrite lookup_fmap, Hr. by eexists. }
  assert (Hl : s_heap (core_of (shutdown ch r h)) !! r = Some (k_end kc)).
  { rewrite Hc. simpl. by rewrite lookup_alter_eq, Hkc. }
  simpl in Hl. rewrite lookup_fmap in Hl. destruct (h_heap (shutdown ch r h) !! r) as [c'|]; [|done].
  exists c'. split; [done|]. simpl in Hl. unfold conn_core, k_end in Hl. congruence.
Qed.

(** C35: when a connection ends, each of its calls in flight fails with a closed
    connection and no other call changes; the connection leaves the map, which
    keeps every other; its worker is removed from the registry; and ending it
    again does nothing. *)
Theorem shutdown_ends ch s r c :
  reachable_sys s -> let h := sys_hub s in
  h_heap h !! r = Some c -> c_done c = false -> wi_ID (c_worker c) <> "" ->
  let h' := shutdown ch r h in
  (forall k pc, h_calls h !! k = Some pc ->
     h_calls h' !! k = Some (if bool_decide (pc_conn pc = Some r) then fail (Sentinel errConnClosed) pc else pc)) /\
  (forall id r', h_conns h' !! id = Some r' <-> h_conns h !! id = Some r' /\ r' <> r) /\
  h_reg h' = HandleEvent (ch_now ch) (discovery EventRemoved (c_worker c)) <$> h_reg h /\
  (forall ch', shutdown ch' r h' = h').
Proof.
  intros Hs h Hr Hd Hw h'. pose proof (reachable_ok s Hs) as Hok. unfold sys_ok in Hok. fold h in Hok.
  destruct (shutdown_reg ch r c h Hr Hd Hw) as [Hreg Hconns]. fold h' in Hreg, Hconns. split_and!; [..|done|].
  - intros k pc Hk. case_bool_decide as Hconn.
    + destruct (pc_closed pc) eqn:Hcl.
      * assert (Hnot : forall id, c_pending c !! id <> Some k).
        { intros id Hp. destruct (pending_open _ _ _ _ _ _ Hok Hr Hp) as (pc' & Hk' & Ho & _). congruence. }
        subst h'. rewrite (shutdown_other ch r c) by done. unfold fail. by rewrite Hcl.
      * assert (Hin : exists id, c_pending c !! id = Some k).
        { destruct Hok as [[Hc _ _] _]. destruct (co_open _ Hc r k (call_core pc)) as (c0 & Hc0 & Hp); [|done..|].
          - simpl. by rewrite lookup_fmap, Hk.
          - simpl in Hc0. rewrite lookup_fmap, Hr in Hc0. simpl in Hc0. simplify_eq. by exists (pc_id pc). }
        destruct Hin as [id Hp]. subst h'. unfold shutdown. rewrite Hr, Hd. cbv zeta. rewrite decide_True by done.
        rewrite calls_bridge, fail_calls_lookup; [simpl; by rewrite Hk|]. unfold range_values.
        rewrite ch_range_perm. apply list_elem_of_fmap. exists (id, k). split; [done|]. by apply elem_of_map_to_list.
    + subst h'. rewrite (shutdown_other ch r c); [done..|]. intros id Hp.
      destruct (pending_open _ _ _ _ _ _ Hok Hr Hp) as (pc' & Hk' & _ & ? & _). congruence.
  - intros id r'. rewrite Hconns. destruct Hok as [[_ _ Ho] _]. split.
    + intros [Hl Hne]%delete_own_Some. split; [done|]. intros ->. apply Hne.
      destruct (Ho _ _ Hl) as (c0 & Hc0 & Hid & _). simpl in Hc0. rewrite lookup_fmap, Hr in Hc0. simpl in Hc0.
      by simplify_eq.
    + intros [Hl Hne]. by apply delete_own_keep.
  - intros ch'. destruct (shutdown_done ch r c h Hr Hd) as (c' & Hc' & Hd'). fold h' in Hc'.
    unfold shutdown. by rewrite Hc', Hd'.
Qed.

(** ** Faults *)

(** A worker that reconnects disappears: when the connection it superseded
    ends, which it does after the grace period at the latest, the worker is
    removed from the registry although its new connection is live and still in
    the map. *)
Theorem superseded_end_removes_worker ch s old c new id reg :
  reachable_sys s -> let h := sys_hub s in
  h_heap h !! old = Some c -> c_done c = false -> wi_ID (c_worker c) = id -> id <> "" ->
  Client h id = Some new -> new <> old -> h_reg h = Some reg ->
  let h' := shutdown ch old h in
  Client h' id = Some new /\
  (exists c', h_heap h !! new = Some c' /\ c_id c' = id /\ c_done c' = false) /\
  exists reg', h_reg h' = Some reg' /\ (Get reg' id).2 = false.
Proof.
  intros Hs h Hr Hd Hid Hne Hnew Hno Hreg h'. pose proof (reachable_ok s Hs) as [[_ _ Ho] _]. fold h in Ho.
  assert (Hw : wi_ID (c_worker c) <> "") by congruence.
  destruct (shutdown_reg ch old c h Hr Hd Hw) as [H1 H2]. fold h' in H1, H2. split_and!.
  - unfold Client. rewrite H2. apply delete_own_keep; [exact Hnew|done].
  - destruct (Ho _ _ Hnew) as (c0 & Hc0 & Hi & Hdn). simpl in Hc0. rewrite lookup_fmap in Hc0.
    destruct (h_heap h !! new) as [c'|]; [|done]. simpl in Hc0. simplify_eq. by exists c'.
  - rewrite Hreg in H1. eexists. split; [exact H1|]. unfold Get, HandleEvent. simpl. rewrite Hid.
    destruct (mr_workers reg !! id) eqn:E; simpl; by rewrite ?lookup_delete_eq, ?E.
Qed.

(** A worker that registers again through the relay while the hub still has
    its connection stops the router: [handleRelayRegister] holds [h.mu] when
    [enqueueClose] locks it. *)
Theorem relay_reregister_deadlock ch msg reg close data h old c :
  relayConnected h = true -> msg_Type msg = MsgRegister ->
  DecodePayload zero_RegisterPayload decode_register msg = Some reg -> wi_ID (rp_Worker reg) <> "" ->
  (hc_apiKey (h_cfg h) = "" \/ wi_APIKey (rp_Worker reg) = hc_apiKey (h_cfg h)) ->
  Client h (wi_ID (rp_Worker reg)) = Some old -> h_heap h !! old = Some c ->
  NewMessage (ch_id ch 0) MsgClose (Some (PClose {| clp_Reason := "superseded" |})) = Some close ->
  marshal (with_WorkerID (c_id c) close) = Some data ->
  relay_receive ch msg h = Deadlocked.
Proof.
  intros Hrel Ht Hdec Hid Hkey Hc Hold Hclose Hm. unfold relay_receive. rewrite decide_True by done.
  unfold handleRelayRegister. rewrite Hdec, decide_False by done. rewrite decide_False by (intros [? ?]; by destruct Hkey).
  set (w := if decide _ then _ else _).
  assert (Hw : wi_ID w = wi_ID (rp_Worker reg)) by (subst w; by case_decide).
  simpl. rewrite Hw. unfold Client in Hc. rewrite Hc. unfold enqueueClose_locked. rewrite Hclose. simpl.
  rewrite lookup_insert_ne by (intros Heq; pose proof (fresh_heap_None h) as Hf; by rewrite Heq, Hold in Hf).
  rewrite Hold. change (relayConnected (set_heap _ h)) with (relayConnected h). by rewrite Hrel, Hm.
Qed.

(** A heartbeat registers whatever worker it names: the registry's entry of
    another worker takes the sender's information, address included. *)
Theorem heartbeat_overwrites_any_worker ch r c msg p reg h :
  h_heap h !! r = Some c -> msg_Type msg = MsgHeartbeat ->
  DecodePayload zero_HeartbeatPayload decode_heartbeat msg = Some p -> wi_ID (hp_Worker p) <> "" ->
  h_reg h = Some reg ->
  exists h' reg', dispatch ch r msg h = OK h' /\ h_reg h' = Some reg' /\
    Get reg' (wi_ID (hp_Worker p)) = (with_LastSeen (ch_now ch) (with_Transport TransportWS (hp_Worker p)), true).
Proof.
  intros Hr Ht Hdec Hid Hreg. unfold dispatch. rewrite Hr, Ht, Hdec. simpl. rewrite decide_False by done.
  eexists _, _. split; [done|]. rewrite reg_bridge. simpl. rewrite Hreg. split; [done|].
  unfold Get, HandleEvent. simpl. destruct (mr_workers reg !! wi_ID (hp_Worker p)) as [st|].
  - case_if; simpl; by rewrite lookup_insert_eq.
  - simpl. by rewrite lookup_insert_eq.
Qed.

(** The queue depth of a connection counts only requests going in but every
    frame going out: once the welcome is written, a new connection with an
    empty queue reports a depth of minus one. *)
Theorem queue_depth_drifts ch ch' w slot data h :
  relayConnected h = false -> (0 < hc_sendQueueSize (h_cfg h))%nat ->
  marshal (welcome (ch_id ch 1) w "registered") = Some data ->
  let '(h1, r) := publish ch w slot h in
  exists c, h_heap (writer_round ch' r true h1).1 !! r = Some c /\ c_sendCh c = [] /\ c_queueDepth c = -1.
Proof.
  intros Hrel Hroom Hm. unfold publish. set (r := fresh _). set (h0 := bridge _ _ _). cbv zeta.
  assert (Hh0 : h_heap h0 !! r = Some (new_conn w true (Some slot)) /\ relayConnected h0 = false /\
    hc_sendQueueSize (h_cfg h0) = hc_sendQueueSize (h_cfg h)).
  { subst h0. unfold bridge. destruct (h_reg _); simpl; rewrite lookup_insert_eq; done. }
  clearbody h0. destruct Hh0 as (Hr & Hrel0 & Hsz).
  unfold enqueue. rewrite Hr, Hrel0, Hm. unfold to_conn. rewrite Hsz. simpl c_sendCh. rewrite try_send_room by done.
  simpl app. rewrite select_one. unfold writer_round. simpl. rewrite lookup_alter_eq, Hr. simpl.
  rewrite !lookup_alter_eq, Hr. simpl. by eexists.
Qed.

(** A stream through the relay is cut off: the context its watcher waits on
    is already over when [Stream] returns, so the next thing the watcher does
    is to fail the call, unless the worker has finished it before. *)
Theorem relay_stream_is_cancelled ch w kind body h h' k e pc :
  ch_ctx ch = None -> relay_Stream ch w kind body h = (h', Streaming k, e) ->
  h_calls h' !! k = Some pc -> pc_closed pc = false -> pc_errCh pc = [] ->
  e = Some context_Canceled /\
  forall ch', h_calls (cancel_call ch' k context_Canceled h') !! k =
    Some (set_closed (set_errs [Sentinel context_Canceled] pc)).
Proof.
  intros Hctx. unfold relay_Stream. rewrite Hctx. destruct (stream_start _ _ _) as [h1 s1].
  intros [= -> -> <-] Hk Ho He. split; [done|]. intros ch'. unfold cancel_call. rewrite fail_call_lookup, Hk. simpl.
  unfold fail. rewrite Ho, He. done.
Qed.
End spec.

(** ** Concrete runs

    A payload is an identifier: a register or heartbeat is of that worker, a
    response has that body; a frame is its message's identifier. *)

#[local] Instance demo_codec : Codec :=
  {| codec_json :=
       {| decode_register id := Some {| rp_Worker := with_ID id zero_WorkerInfo; rp_Relay := false |};
          decode_heartbeat id := Some {| hp_Worker := with_ID id zero_WorkerInfo |};
          decode_capabilities _ := None; decode_error _ := None; decode_inference_request _ := None;
          decode_chunk c := Some {| icp_Kind := ""; icp_Chunk := c |};
          decode_response c := Some {| irp_Kind := ""; irp_Done := true; irp_Error := ""; irp_Response := c |};
          decode_cancel _ := None; decode_model_load_request _ := None; decode_model_load_response _ := None;
          decode_close _ := None; marshal_payload _ := Some "p" |};
     marshal m := Some (msg_ID m); unmarshal_object _ := Some (Some ∅); marshal_object _ := Some "{}";
     request_model _ := Some "m"; rng i := i |}.

Definition demo_choices (now : Time) : choices :=
  {| ch_now := now; ch_pick _ := O; ch_range l := l; ch_range_perm l := reflexivity l; ch_id n := "id"; ch_ctx := None |}.

Definition demo_reg : memoryRegistry :=
  {| mr_cfg := Defaults; mr_workers := ∅; mr_subs := []; mr_chans := ∅; mr_subFailures := ∅ |}.

Definition demo_msg (t : MessageType) (id payload : string) : Message :=
  {| msg_ID := id; msg_Type := t; msg_WorkerID := ""; msg_Payload := payload |}.

Definition demo_cfg : hubConfig :=
  {| hc_apiKey := ""; hc_maxInFlight := 4; hc_sendQueueSize := 256; hc_relayURL := "" |}.

(** The operations of a run, each at its instant; it stops at a panic or a deadlock. *)
Fixpoint run_ops (s : system) (ops : list op) (now : Time) : out system :=
  match ops with
  | [] => OK s
  | o :: ops => do s <- step_op (demo_choices now) s o; run_ops s ops (now + 1)
  end.

Lemma run_ops_reachable s s' ops now : reachable_sys s -> run_ops s ops now = OK s' -> reachable_sys s'.
Proof.
  revert s now. induction ops as [|o ops IH]; intros s now Hs H; simpl in H; [by injection H as <-|].
  destruct (step_op _ s o) as [s1| |] eqn:E; simpl in H; try done. apply (IH s1 (now + 1)); [|done].
  destruct Hs as (reg & cfg & Hr). exists reg, cfg. eapply rtc_r; [exact Hr|]. by econstructor.
Qed.

Lemma demo_run_reachable ops : forall s, run_ops (initial (Some demo_reg) demo_cfg) ops 1 = OK s -> reachable_sys s.
Proof. intros s. apply run_ops_reachable. exists (Some demo_reg), demo_cfg. constructor. Qed.

(** The state of a run, with the deadlocked and panicked ones as the initial state. *)
Definition demo_state (ops : list op) : system :=
  match run_ops (initial (Some demo_reg) demo_cfg) ops 1 with OK s => s | _ => initial (Some demo_reg) demo_cfg end.

Lemma demo_reachable ops : reachable_sys (demo_state ops).
Proof.
  unfold demo_state. destruct (run_ops _ ops 1) as [s| |] eqn:E; [by apply (demo_run_reachable ops)|..];
    exists (Some demo_reg), demo_cfg; constructor.
Qed.

(** Worker [w] connects from one address. *)
Definition demo_connect : list op :=
  [OAccept (Some (demo_msg MsgRegister "" "w")) (Some "10.0.0.1"); OSupersede 0; OAcquire 0 None; OPublish 0].

(** It connects twice: references 0 and 1. *)
Definition demo_twice : system := demo_state (demo_connect ++ demo_connect).

Definition demo_request : Message := demo_msg MsgInferenceRequest "q" "body".

(** A connection, a call on it and a call through the relay. *)
Definition demo_busy : system :=
  demo_state (demo_connect ++ [OStart 0 false demo_request; ORelayUp 7; ORelayStart (with_ID "v" zero_WorkerInfo) true demo_request]).

Example demo_busy_flight :
  relayInFlight (h_relay (sys_hub demo_busy)) !! "v" = Some 1 /\
  (workerInFlight <$> connection (sys_hub demo_busy) "w") = Some 1.
Proof. vm_compute. done. Qed.

Lemma hub_accounting_witness :
  reachable_sys demo_busy /\ relayInFlight (h_relay (sys_hub demo_busy)) !! "v" = Some 1.
Proof.
  split; [apply demo_reachable|].
  destruct (hub_accounting demo_busy (demo_reachable _)) as (_ & _ & _ & H & _).
  rewrite (H "v") by discriminate. vm_compute. reflexivity.
Defined.

Lemma hub_no_panic_witness :
  exists s, reachable_sys s /\ step_op (demo_choices 1) s (OAccept (Some (demo_msg MsgRegister "" "w")) (Some "ip")) = Panicked /\
  h_reg (sys_hub s) = None.
Proof.
  exists (initial None demo_cfg).
  assert (Hr : reachable_sys (initial None demo_cfg)) by (exists None, demo_cfg; constructor).
  assert (Hp : step_op (demo_choices 1) (initial None demo_cfg) (OAccept (Some (demo_msg MsgRegister "" "w")) (Some "ip")) = Panicked)
    by (vm_compute; reflexivity).
  destruct (hub_no_panic _ _ _ Hr Hp) as (_ & _ & _ & H). done.
Defined.

Lemma slots_accounted_witness :
  exists n sem, h_sems (sys_hub demo_twice) !! n = Some sem /\ sem_held sem = 1 /\ sem_held sem <= sem_cap sem.
Proof.
  destruct (h_connSem (sys_hub demo_twice)) as [n|] eqn:E; [|exfalso; revert E; vm_compute; discriminate].
  destruct (h_sems (sys_hub demo_twice) !! n) as [sem|] eqn:Es.
  - exists n, sem. destruct (slots_accounted demo_twice n sem (demo_reachable _) Es) as [H1 H2].
    split; [done|]. split; [|done]. rewrite H1. revert E. vm_compute. intros [= <-]. reflexivity.
  - exfalso. revert E Es. vm_compute. intros [= <-]. discriminate.
Defined.

Lemma demo_conn0 : { c | h_heap (sys_hub demo_busy) !! 0%nat = Some c }.
Proof. vm_compute. by eexists. Defined.

Lemma admission_witness :
  exists c, h_heap (sys_hub demo_busy) !! 0%nat = Some c /\
  0 < maxInFlightFor (sys_hub demo_busy) (c_id c).
Proof.
  exists (proj1_sig demo_conn0). split; [exact (proj2_sig demo_conn0)|].
  pose proof (admission (demo_choices 1) 0 _ "other" false _ (proj2_sig demo_conn0)) as H. cbv zeta in H.
  destruct (addPending _ _ _ _ _ _). exact (proj1 H).
Defined.

Lemma worker_isolation_witness :
  exists h', dispatch (demo_choices 1) 0 (demo_msg MsgClose "" "") (sys_hub demo_busy) = OK h' /\
  h_calls h' !! 1%nat = h_calls (sys_hub demo_busy) !! 1%nat.
Proof.
  destruct (dispatch (demo_choices 1) 0 (demo_msg MsgClose "" "") (sys_hub demo_busy)) as [h'| |] eqn:E;
    [|exfalso; revert E; vm_compute; discriminate..].
  exists h'. split; [done|]. destruct (h_calls (sys_hub demo_busy) !! 1%nat) as [pc|] eqn:Ek.
  - apply (worker_isolation (demo_choices 1) demo_busy 0 (demo_msg MsgClose "" "") h' 1 pc (demo_reachable _) E Ek).
    revert Ek. vm_compute. intros [= <-]. discriminate.
  - exfalso. revert Ek. vm_compute. discriminate.
Defined.

Definition demo_idle : system := demo_state demo_connect.

Definition demo_conn (s : system) (r : nat) : wsConnection :=
  default (new_conn zero_WorkerInfo false None) (h_heap (sys_hub s) !! r).

Lemma request_round_trip_witness :
  exists h' c' k,
    start_call (demo_choices 9) 0 (demo_conn demo_idle 0) false demo_request (sys_hub demo_idle) = (h', inl k, None) /\
    h_heap h' !! 0%nat = Some c' /\ c_sendCh c' = ["id"; "q"] /\
    exists h2 pc, dispatch (demo_choices 10) 0 (demo_msg MsgInferenceResponse "q" "hello") h' = OK h2 /\
      h_calls h2 !! k = Some pc /\ await_call None pc = [inl "hello"].
Proof.
  destruct (request_round_trip (demo_choices 9) demo_idle 0 (demo_conn demo_idle 0) demo_request "q" (demo_reachable _))
    as (h' & c' & k & H1 & H2 & H3 & H4).
  1,2,3,4,5,6,7: vm_compute; reflexivity.
  1: apply Nat.ltb_lt; vm_compute; reflexivity.
  exists h', c', k. split; [done|]. split; [done|]. split; [by rewrite H3; vm_compute|].
  destruct (H4 (demo_choices 10) (demo_msg MsgInferenceResponse "q" "hello") eq_refl eq_refl) as (h2 & pc & ? & ? & Ha & _).
  exists h2, pc. split; [done|]. split; [done|]. rewrite Ha. vm_compute. reflexivity.
Defined.

Lemma shutdown_ends_witness :
  exists pc, h_calls (shutdown (demo_choices 9) 0 (sys_hub demo_busy)) !! 0%nat = Some pc /\
    pc_closed pc = true /\ pc_errCh pc = [Sentinel errConnClosed].
Proof.
  destruct (shutdown_ends (demo_choices 9) demo_busy 0 (demo_conn demo_busy 0) (demo_reachable _)) as (H & _).
  1,2: vm_compute; reflexivity.
  1: vm_compute; discriminate.
  destruct (h_calls (sys_hub demo_busy) !! 0%nat) as [pc|] eqn:Ek; [|exfalso; revert Ek; vm_compute; discriminate].
  eexists. split; [exact (H 0%nat pc Ek)|]. revert Ek. vm_compute. intros [= <-]. split; reflexivity.
Defined.

Lemma superseded_end_removes_worker_witness :
  exists reg', h_reg (shutdown (demo_choices 9) 0 (sys_hub demo_twice)) = Some reg' /\ (Get reg' "w").2 = false /\
    Client (shutdown (demo_choices 9) 0 (sys_hub demo_twice)) "w" = Some 1%nat.
Proof.
  destruct (h_reg (sys_hub demo_twice)) as [reg|] eqn:Er; [|exfalso; revert Er; vm_compute; discriminate].
  destruct (superseded_end_removes_worker (demo_choices 9) demo_twice 0 (demo_conn demo_twice 0) 1 "w" reg (demo_reachable _))
    as (H1 & _ & reg' & H2 & H3).
  1,2,3,5: vm_compute; reflexivity.
  1,2: discriminate.
  1: exact Er.
  exists reg'. split; [exact H2|]. split; [exact H3|exact H1].
Defined.

Lemma relay_reregister_deadlock_witness :
  let s := demo_state [ORelayUp 7; ORelayFrame (demo_msg MsgRegister "" "w")] in
  reachable_sys s /\ relay_receive (demo_choices 9) (demo_msg MsgRegister "" "w") (sys_hub s) = Deadlocked.
Proof.
  intros s. split; [apply demo_reachable|].
  apply (relay_reregister_deadlock _ _ {| rp_Worker := with_ID "w" zero_WorkerInfo; rp_Relay := false |}
    {| msg_ID := "id"; msg_Type := MsgClose; msg_WorkerID := ""; msg_Payload := "p" |} "id" (sys_hub s) 0 (demo_conn s 0)).
  1,2,3,6,7,8,9: vm_compute; reflexivity.
  1: discriminate.
  by left.
Defined.

Lemma heartbeat_overwrites_any_worker_witness :
  exists h' reg', dispatch (demo_choices 9) 0 (demo_msg MsgHeartbeat "" "victim") (sys_hub demo_idle) = OK h' /\
    h_reg h' = Some reg' /\ (Get reg' "victim").2 = true.
Proof.
  destruct (h_reg (sys_hub demo_idle)) as [reg|] eqn:Er; [|exfalso; revert Er; vm_compute; discriminate].
  destruct (heartbeat_overwrites_any_worker (demo_choices 9) 0 (demo_conn demo_idle 0) (demo_msg MsgHeartbeat "" "victim")
    {| hp_Worker := with_ID "victim" zero_WorkerInfo |} reg (sys_hub demo_idle)) as (h' & reg' & H1 & H2 & H3).
  1,2,3: vm_compute; reflexivity.
  1: discriminate.
  1: exact Er.
  exists h', reg'. split; [exact H1|]. split; [exact H2|]. simpl in H3. by rewrite H3.
Defined.

Lemma queue_depth_drifts_witness :
  let '(h1, r) := publish (demo_choices 1) (with_ID "w" zero_WorkerInfo) 0 (NewWSHub (Some demo_reg)) in
  exists c, h_heap (writer_round (demo_choices 2) r true h1).1 !! r = Some c /\ c_sendCh c = [] /\ c_queueDepth c = -1.
Proof.
  apply (queue_depth_drifts _ _ _ _ "id"); [vm_compute; reflexivity|apply Nat.ltb_lt; vm_compute; reflexivity|vm_compute; reflexivity].
Defined.

Lemma relay_stream_is_cancelled_witness :
  exists h' k pc, relay_Stream (demo_choices 9) (with_ID "w" zero_WorkerInfo) "chat" "{}" (sys_hub (demo_state [ORelayUp 7])) =
      (h', Streaming k, Some context_Canceled) /\
    h_calls (cancel_call (demo_choices 10) k context_Canceled h') !! k = Some pc /\ pc_errCh pc = [Sentinel context_Canceled].
Proof.
  destruct (relay_Stream (demo_choices 9) (with_ID "w" zero_WorkerInfo) "chat" "{}" (sys_hub (demo_state [ORelayUp 7])))
    as [[h' [k|e]] c] eqn:E; [|exfalso; revert E; vm_compute; discriminate].
  destruct (h_calls h' !! k) as [pc|] eqn:Ek.
  - assert (Hpc : pc_closed pc = false /\ pc_errCh pc = []).
    { revert E Ek. vm_compute. intros [= <- <- _]. vm_compute. by intros [= <-]. }
    destruct (relay_stream_is_cancelled (demo_choices 9) _ _ _ _ _ _ _ pc eq_refl E Ek (proj1 Hpc) (proj2 Hpc)) as [-> H].
    exists h', k, (set_closed (set_errs [Sentinel context_Canceled] pc)). split; [done|]. split; [apply H|done].
  - exfalso. revert E Ek. vm_compute. intros [= <- <- _]. vm_compute. discriminate.
Defined.
