(* ===== verification/Proxy.v ===== *)
(** * Proxy: the inference endpoints and the streaming proxy ([handlers_chat.go])

    [handleInference] from the parsed request to the response, over the
    selection and dispatch of the other files.  The loop of [proxyStream] is a
    function of the cases its [select] takes; which of them can be taken at a
    moment follows from the channels of the call ([Pending]), the idle timer
    and the client's connection. *)

From S2P Require Import Prelude GoFloat Errors Http Protocol Scheduler CapabilityCache CallCounter RequestTracker Selection Dispatch Aliases AutoRouting Pending.

(** ** The response *)

Definition writeErrorResponse (status : Z) (code : string) (w : ResponseWriter) : ResponseWriter :=
  Write (ErrorObject code) (WriteHeader status (set_type "application/json" w)).

Definition writeRateLimitError (w : ResponseWriter) : ResponseWriter :=
  Write (ErrorObject "rate_limit_exceeded") (WriteHeader 429 (set_type "application/json" w)).

Definition eventStream (w : ResponseWriter) : ResponseWriter := set_type "text/event-stream" w.

(** ** The streaming loop *)

(** The cases of the [select] of [proxyStream]. *)
Inductive pevent :=
| EChunk (ev : StreamEvent)
| EChunksClosed
| EError (e : goerr)
| EErrsClosed
| EIdle
| EHangup.

(** The variables of the loop; [px_deadline] is when the idle timer fires,
    [px_timeouts] counts the calls of [RecordTimeout]. *)
Record proxy := mkProxy {
  px_writer : ResponseWriter;
  px_started : bool;
  px_sawDone : bool;
  px_completed : bool;
  px_deadline : Time;
  px_timeouts : nat;
}.

Definition proxy_timeout (configured : Duration) : Duration := if configured <=? 0 then 30 * second else configured.

Definition done_text : string := se_Data done_event.

(** [if !sawDone { write "data: [DONE]\n\n" }]. *)
Definition terminate (p : proxy) : proxy :=
  if px_sawDone p then p
  else mkProxy (Write (Data done_text) (px_writer p)) (px_started p) (px_sawDone p) (px_completed p) (px_deadline p) (px_timeouts p).

Definition with_writer (w : ResponseWriter) (p : proxy) : proxy :=
  mkProxy w (px_started p) (px_sawDone p) (px_completed p) (px_deadline p) (px_timeouts p).
Definition complete (p : proxy) : proxy :=
  mkProxy (px_writer p) (px_started p) (px_sawDone p) true (px_deadline p) (px_timeouts p).
Definition count_timeout (p : proxy) : proxy :=
  mkProxy (px_writer p) (px_started p) (px_sawDone p) (px_completed p) (px_deadline p) (S (px_timeouts p)).

(** The answer to an error before the first chunk. *)
Definition stream_error (err : goerr) (p : proxy) : proxy :=
  match errors_As_HTTP err with
  | Some status => with_writer (writeErrorResponse status "worker_error" (px_writer p)) p
  | None =>
      if errors_Is errTimeout err then
        count_timeout (with_writer (writeErrorResponse 504 "timeout_error" (px_writer p)) p)
      else with_writer (writeErrorResponse 503 "connection_error" (px_writer p)) p
  end.

(** One round of the loop at instant [now]; the boolean is whether it returns. *)
Definition proxy_round (timeout : Duration) (now : Time) (e : pevent) (p : proxy) : proxy * bool :=
  match e with
  | EChunk chunk =>
      let w := if px_started p then px_writer p else eventStream (px_writer p) in
      let p := mkProxy (Write (Data (se_Data chunk)) w) true (px_sawDone p || se_Done chunk) (px_completed p)
                 (time_add now timeout) (px_timeouts p) in
      if se_Done chunk then (complete p, true) else (p, false)
  | EChunksClosed => (complete (if px_started p then terminate p else p), true)
  | EError err => (if px_started p then terminate p else stream_error err p, true)
  | EErrsClosed => (p, false)
  | EIdle =>
      (if px_started p then terminate p
       else with_writer (writeErrorResponse 504 "timeout_error" (px_writer p)) p, true)
  | EHangup => (p, true)
  end.

(** The loop over the cases taken, with their instants: the state, and whether
    it returned or is still waiting. *)
Fixpoint proxy_loop (timeout : Duration) (evs : list (Time * pevent)) (p : proxy) : proxy * bool :=
  match evs with
  | [] => (p, false)
  | (now, e) :: evs =>
      let '(p, returned) := proxy_round timeout now e p in
      if returned then (p, true) else proxy_loop timeout evs p
  end.

Definition proxy_start (timeout : Duration) (now : Time) (w : ResponseWriter) : proxy :=
  mkProxy w false false false (time_add now timeout) 0.

(** ** What the loop amounts to *)

Definition chunk_data (e : Time * pevent) : option written :=
  match e.2 with EChunk c => Some (Data (se_Data c)) | _ => None end.

(** The events up to the one that ends the stream, and that one. *)
Fixpoint ended_by (evs : list (Time * pevent)) : list (Time * pevent) * option pevent :=
  match evs with
  | [] => ([], None)
  | (now, e) :: evs =>
      match e with
      | EErrsClosed => let '(l, x) := ended_by evs in ((now, e) :: l, x)
      | EChunk c => if se_Done c then ([], Some e) else let '(l, x) := ended_by evs in ((now, e) :: l, x)
      | _ => ([], Some e)
      end
  end.

(** The response to a stream, in one piece: the chunks [cs] that came, then what
    its end [x] adds. *)
Definition stream_response (cs : list written) (x : option pevent) : option Z * list written :=
  match x with
  | Some (EChunk c) => (Some 200, cs ++ [Data (se_Data c)])
  | Some EChunksClosed => match cs with [] => (None, []) | _ => (Some 200, cs ++ [Data done_text]) end
  | Some (EError err) =>
      match cs with
      | [] => match errors_As_HTTP err with
              | Some status => (Some status, [ErrorObject "worker_error"])
              | None => if errors_Is errTimeout err then (Some 504, [ErrorObject "timeout_error"])
                        else (Some 503, [ErrorObject "connection_error"])
              end
      | _ => (Some 200, cs ++ [Data done_text])
      end
  | Some EIdle => match cs with [] => (Some 504, [ErrorObject "timeout_error"]) | _ => (Some 200, cs ++ [Data done_text]) end
  | _ => match cs with [] => (None, []) | _ => (Some 200, cs) end
  end.

Definition is_done (x : option pevent) : bool :=
  match x with Some (EChunk _) | Some EChunksClosed => true | _ => false end.

(** The state after the chunks [cs], with nothing written before. *)
Definition proxy_inv (cs : list written) (p : proxy) : Prop :=
  px_sawDone p = false /\ px_completed p = false /\
  match cs with
  | [] => px_started p = false /\ rw_status (px_writer p) = None /\ rw_body (px_writer p) = []
  | _ => px_started p = true /\ rw_status (px_writer p) = Some 200 /\ rw_body (px_writer p) = cs
  end.

Lemma proxy_inv_chunk timeout now c cs p :
  proxy_inv cs p -> se_Done c = false ->
  let '(p', returned) := proxy_round timeout now (EChunk c) p in
  returned = false /\ proxy_inv (cs ++ [Data (se_Data c)]) p' /\ px_deadline p' = time_add now timeout.
Proof.
  intros (Hs & Hc & H) Hd. simpl. rewrite Hd, Hs. split; [done|]. split; [|done].
  split; [done|]. split; [done|]. destruct p as [[t st b] ? ? ? ? ?]. simpl in *.
  destruct cs as [|x cs]; destruct H as (-> & -> & ->); simpl; done.
Qed.

(** What the round that ends the stream leaves. *)
Lemma proxy_round_end timeout now e cs p :
  proxy_inv cs p -> (forall c, e = EChunk c -> se_Done c = true) -> e <> EErrsClosed ->
  let '(p', returned) := proxy_round timeout now e p in
  returned = true /\
  (rw_status (px_writer p'), rw_body (px_writer p')) = stream_response cs (Some e) /\
  px_completed p' = is_done (Some e).
Proof.
  intros (Hs & Hc & H) Hd Hne. destruct p as [[t st b] started saw compl dl to]. simpl in *. subst saw compl.
  destruct e as [c| |err| | |]; simpl; try done.
  - rewrite (Hd c eq_refl). split; [done|]. destruct cs as [|x cs]; destruct H as (-> & -> & ->); done.
  - destruct cs as [|x cs]; destruct H as (-> & -> & ->); done.
  - destruct cs as [|x cs]; destruct H as (-> & -> & ->); [|done]. unfold stream_error.
    destruct (errors_As_HTTP err); [done|]. by destruct (errors_Is errTimeout err).
  - destruct cs as [|x cs]; destruct H as (-> & -> & ->); done.
  - destruct cs as [|x cs]; destruct H as (-> & -> & ->); done.
Qed.

Lemma proxy_loop_spec timeout evs cs p :
  proxy_inv cs p ->
  let '(p', returned) := proxy_loop timeout evs p in
  let '(before, x) := ended_by evs in
  (rw_status (px_writer p'), rw_body (px_writer p')) = stream_response (cs ++ omap chunk_data before) x /\
  px_completed p' = is_done x /\ (returned = true <-> x <> None).
Proof.
  revert cs p. induction evs as [|[now e] evs IH]; intros cs p Hp; cbn [proxy_loop ended_by].
  - simpl. rewrite app_nil_r. destruct Hp as (_ & Hc & H).
    destruct cs as [|y cs]; destruct H as (_ & -> & ->); done.
  - assert (e = EErrsClosed \/ e <> EErrsClosed) as [->|Hne] by (destruct e; auto; by right).
    { simpl. specialize (IH cs p Hp). destruct (proxy_loop timeout evs p) as [p' r].
      destruct (ended_by evs) as [l x]. simpl. exact IH. }
    destruct (match e with EChunk c => negb (se_Done c) | _ => false end) eqn:Hgo.
    + destruct e as [c| | | | |]; try done. apply negb_true_iff in Hgo.
      pose proof (proxy_inv_chunk timeout now c cs p Hp Hgo) as Hr. rewrite Hgo.
      destruct (proxy_round timeout now (EChunk c) p) as [p1 r1]. destruct Hr as (-> & Hp1 & _).
      specialize (IH _ p1 Hp1). destruct (proxy_loop timeout evs p1) as [p' r].
      destruct (ended_by evs) as [l x]. simpl. by rewrite <-(assoc_L (++)) in IH.
    + pose proof (proxy_round_end timeout now e cs p Hp) as Hr.
      assert (Hd : forall c, e = EChunk c -> se_Done c = true) by (intros c ->; by apply negb_false_iff in Hgo).
      specialize (Hr Hd Hne). destruct (proxy_round timeout now e p) as [p1 r1]. destruct Hr as (-> & Hr & Hc).
      assert (He : (match e with
        | EErrsClosed => let '(l, x) := ended_by evs in ((now, e) :: l, x)
        | EChunk c => if se_Done c then ([], Some e) else let '(l, x) := ended_by evs in ((now, e) :: l, x)
        | _ => ([], Some e) end) = (@nil (Time * pevent), Some e)).
      { destruct e as [c| | | | |]; try done. by rewrite (Hd c eq_refl). }
      rewrite He. simpl. rewrite app_nil_r. done.
Qed.

(** ** The proxy and the call it reads from *)

Lemma ended_by_snoc evs now e :
  (ended_by evs).2 = None ->
  ended_by (evs ++ [(now, e)]) =
  match e with
  | EErrsClosed => (evs ++ [(now, e)], None)
  | EChunk c => if se_Done c then (evs, Some e) else (evs ++ [(now, e)], None)
  | _ => (evs, Some e)
  end /\ (ended_by evs).1 = evs.
Proof.
  induction evs as [|[t x] evs IH]; simpl.
  - intros _. split; [|done]. by destruct e.
  - destruct x as [c| | | | |]; try done.
    + destruct (se_Done c); [done|]. destruct (ended_by evs) as [l y]. simpl. intros Hx.
      destruct (IH Hx) as [-> Hl]. simpl in Hl. subst l. split; [|done].
      destruct e as [d| | | | |]; try done; by destruct (se_Done d).
    + destruct (ended_by evs) as [l y]. simpl. intros Hx. destruct (IH Hx) as [-> Hl]. simpl in Hl. subst l.
      split; [|done]. destruct e as [d| | | | |]; try done; by destruct (se_Done d).
Qed.

Section streaming.
Context {J : JSON}.

(** The call as its account, the worker's side and the proxy's taking turns: a
    case of the proxy's [select] is taken when it is ready, until the proxy
    returns.  The hub never closes the error channel. *)
Inductive serve : account * list (Time * pevent) -> account * list (Time * pevent) -> Prop :=
| serve_call a evs e : (match e with Routed _ _ | Failed _ => True | _ => False end) ->
    serve (a, evs) (account_step a e, evs)
| serve_chunk a evs now ev l : (ended_by evs).2 = None -> pc_chunkCh (ac_pc a) = ev :: l ->
    serve (a, evs) (account_step a ReadChunk, evs ++ [(now, EChunk ev)])
| serve_closed a evs now : (ended_by evs).2 = None -> pc_chunkCh (ac_pc a) = [] -> pc_closed (ac_pc a) = true ->
    serve (a, evs) (a, evs ++ [(now, EChunksClosed)])
| serve_error a evs now err l : (ended_by evs).2 = None -> pc_errCh (ac_pc a) = err :: l ->
    serve (a, evs) (account_step a ReadErr, evs ++ [(now, EError err)])
| serve_other a evs now e : (ended_by evs).2 = None -> e = EIdle \/ e = EHangup ->
    serve (a, evs) (a, evs ++ [(now, e)]).

Definition chunk_event (e : Time * pevent) : option StreamEvent :=
  match e.2 with EChunk c => Some c | _ => None end.

(** What the proxy took from the channel, and that the worker's frames never
    carry the sentinel's flag. *)
Definition serve_inv (s : account * list (Time * pevent)) : Prop :=
  let '(a, evs) := s in
  let '(before, x) := ended_by evs in
  account_inv a /\ Forall (fun c => se_Done c = false) (ac_sent a) /\
  Forall (fun c => se_Done c = false) (omap chunk_event before) /\
  (forall c, x = Some (EChunk c) -> se_Done c = true) /\
  ac_got a = omap chunk_event before ++ match x with Some (EChunk c) => [c] | _ => [] end.

Lemma stream_effect_frames msg : Forall (fun c => se_Done c = false) (stream_effect msg).1.
Proof. unfold stream_effect. repeat (case_match; simpl; try by repeat constructor). Qed.

Lemma account_step_call a e :
  (match e with Routed _ _ | Failed _ => True | _ => False end) ->
  ac_got (account_step a e) = ac_got a /\
  (Forall (fun c => se_Done c = false) (ac_sent a) -> Forall (fun c => se_Done c = false) (ac_sent (account_step a e))).
Proof.
  destruct e; try done; intros _; simpl; destruct (pc_closed (ac_pc a)); try done. split; [done|].
  intros H. apply Forall_app. split; [done|apply stream_effect_frames].
Qed.

(** A round that does not read a chunk. *)
Lemma serve_inv_snoc a a' evs now e :
  serve_inv (a, evs) -> (ended_by evs).2 = None -> account_inv a' -> ac_got a' = ac_got a -> ac_sent a' = ac_sent a ->
  (forall c, e <> EChunk c) -> serve_inv (a', evs ++ [(now, e)]).
Proof.
  unfold serve_inv. intros H Hx Ha' Hg Hs Hne. destruct (ended_by_snoc evs now e Hx) as [He Hb].
  destruct (ended_by evs) as [before x]. simpl in Hx, Hb. subst before x. destruct H as (Ha & H1 & H2 & H3 & H4).
  assert (Hcase : ended_by (evs ++ [(now, e)]) = (evs ++ [(now, e)], None) /\ e = EErrsClosed \/
    ended_by (evs ++ [(now, e)]) = (evs, Some e)).
  { rewrite He. destruct e as [c| | | | |]; auto. by destruct (Hne c). }
  destruct Hcase as [[-> ->]| ->]; rewrite Hs, Hg.
  - rewrite omap_app. simpl. rewrite app_nil_r. split_and!; done.
  - split_and!; try done; [intros c [= ->]; by destruct (Hne c)|]. rewrite H4. destruct e as [c| | | | |]; try done. by destruct (Hne c).
Qed.

Lemma serve_inv_step s s' : serve_inv s -> serve s s' -> serve_inv s'.
Proof.
  intros H Hst. destruct Hst as [a evs e He|a evs now ev l Hx Hc|a evs now Hx Hc Hcl|a evs now err l Hx Hc|a evs now e Hx He].
  - unfold serve_inv in *. destruct (ended_by evs) as [before x]. destruct H as (Ha & H1 & H2 & H3 & H4).
    destruct (account_step_call a e He) as [Hg Hs]. rewrite Hg. split_and!; auto. by apply account_inv_step.
  - unfold serve_inv in *. destruct (ended_by_snoc evs now (EChunk ev) Hx) as [He Hb].
    destruct (ended_by evs) as [before x]. simpl in Hx, Hb. subst before x. destruct H as (Ha & H1 & H2 & H3 & H4).
    rewrite app_nil_r in H4. pose proof (account_inv_step ReadChunk a Ha) as Ha'.
    assert (Hg : ac_got (account_step a ReadChunk) = ac_got a ++ [ev]) by (simpl; by rewrite Hc).
    assert (Hs : ac_sent (account_step a ReadChunk) = ac_sent a) by (simpl; by rewrite Hc).
    rewrite He. destruct (se_Done ev) eqn:Ed; rewrite Hg, Hs.
    + split_and!; try done; [by intros c [= <-]|]. by rewrite H4.
    + rewrite omap_app. simpl. rewrite app_nil_r. split_and!; try done; [|by rewrite H4].
      apply Forall_app. split; [done|by apply Forall_singleton].
  - apply (serve_inv_snoc a); try done. unfold serve_inv in H. destruct (ended_by evs). by destruct H.
  - assert (Ha : account_inv a) by (unfold serve_inv in H; destruct (ended_by evs); by destruct H).
    apply (serve_inv_snoc a); try done; [by apply account_inv_step|simpl; by rewrite Hc..].
  - apply (serve_inv_snoc a); try done; [unfold serve_inv in H; destruct (ended_by evs); by destruct H|].
    intros c. by destruct He as [-> | ->].
Qed.

Lemma serve_inv_reach pc a evs : fresh_call pc -> rtc serve (open_account pc, []) (a, evs) -> serve_inv (a, evs).
Proof.
  intros Hf. apply (rtc_invariant serve serve_inv); [apply serve_inv_step|].
  simpl. split_and!; try done. by apply account_inv_open.
Qed.

Lemma chunk_data_events evs : omap chunk_data evs = map (fun c => Data (se_Data c)) (omap chunk_event evs).
Proof. induction evs as [|[t e] evs IH]; [done|]. destruct e; simpl; [f_equal|..]; exact IH. Qed.

(** What was taken is a prefix of the frames that stayed, all of them when the
    sentinel came. *)
Lemma serve_frames a evs :
  serve_inv (a, evs) ->
  let '(before, x) := ended_by evs in
  let cs := omap chunk_event before in
  exists kept, kept `sublist_of` ac_sent a /\ (ac_tight a = false -> kept = ac_sent a) /\
    take (length cs) kept = cs /\
    (forall c, x = Some (EChunk c) -> cs = kept /\ c = done_event /\ ac_end a = Some EndDone).
Proof.
  unfold serve_inv. destruct (ended_by evs) as [before x].
  intros ([(kept & Hk & Hfull & Hev & _) _ _] & Hsent & Hnd & Hdone & Hgot).
  set (cs := omap chunk_event before) in *. clearbody cs. cbv zeta. exists kept.
  assert (Hkd : forall c, c ∈ kept -> se_Done c = false).
  { rewrite Forall_forall in Hsent. intros c Hc. apply Hsent. by eapply elem_of_sublist. }
  rewrite Forall_forall in Hnd. unfold events_out in Hev. rewrite Hgot, <-(assoc_L (++)) in Hev.
  split_and!; [done|done| |].
  - assert (Hpre : exists rest, cs ++ rest = kept \/ cs ++ rest = kept ++ [done_event]) by (eexists; destruct Hev as [?|[? _]]; eauto).
    destruct Hpre as (rest & [<-|Hpre]); [by rewrite take_app_length|].
    destruct (decide (length cs <= length kept)%nat) as [Hl|Hl].
    + rewrite <-(take_app_le kept [done_event]), <-Hpre by done. by rewrite take_app_length.
    + exfalso. assert (Hlast : (cs ++ rest) !! length kept = Some done_event) by (by rewrite Hpre, list_lookup_middle).
      rewrite lookup_app_l in Hlast by lia. by apply list_elem_of_lookup_2, Hnd in Hlast.
  - intros c ->. pose proof (Hdone c eq_refl) as Hcd.
    assert (Hno : c ∉ kept) by (intros Hc%Hkd; congruence).
    destruct Hev as [Hev|[Hev He]]; [exfalso; apply Hno; rewrite <-Hev; set_solver|].
    destruct (pc_chunkCh (ac_pc a)) as [|y l _] using rev_ind.
    + rewrite app_nil_r in Hev. by apply app_inj_tail in Hev as [-> ->].
    + exfalso. apply Hno. rewrite !(assoc_L (++)) in Hev. apply app_inj_tail in Hev as [<- _]. set_solver.
Qed.

(** What the end of a stream adds to the chunks written. *)
Lemma stream_response_tail cs x st body :
  (st, body) = stream_response cs x ->
  exists tl, body = cs ++ tl /\
    match x with
    | Some (EChunk c) => tl = [Data (se_Data c)]
    | _ => tl = [] \/ tl = [Data done_text] \/ cs = [] /\ exists code, tl = [ErrorObject code]
    end.
Proof.
  destruct x as [[c| |err| | |]|]; simpl; [intros [= _ ->]; eauto|..].
  2: destruct cs; [destruct (errors_As_HTTP err); [|destruct (errors_Is errTimeout err)]|].
  all: try destruct cs; intros [= _ ->]; eexists; (split; [done || by rewrite app_nil_r|]); eauto 6.
Qed.

(** A client of the streaming endpoint gets a prefix of the worker's frames,
    in order, of which none is missing unless the client let the buffer fill;
    then possibly the sentinel, or, when nothing came, an error.  A response
    that ends with the worker's own sentinel holds every frame and its call
    ended well. *)
Theorem client_stream timeout now pc a evs :
  fresh_call pc -> rtc serve (open_account pc, []) (a, evs) ->
  let p := (proxy_loop timeout evs (proxy_start timeout now new_writer)).1 in
  exists kept n tl,
    rw_body (px_writer p) = map (fun c => Data (se_Data c)) (take n kept) ++ tl /\
    kept `sublist_of` ac_sent a /\ (ac_tight a = false -> kept = ac_sent a) /\
    (tl = [] \/ tl = [Data done_text] \/ n = O /\ exists code, tl = [ErrorObject code]) /\
    forall c, (ended_by evs).2 = Some (EChunk c) -> c = done_event /\ take n kept = kept /\ tl = [Data done_text] /\
      ac_end a = Some EndDone.
Proof.
  intros Hf Hr p. pose proof (serve_frames a evs (serve_inv_reach pc a evs Hf Hr)) as H.
  pose proof (proxy_loop_spec timeout evs [] (proxy_start timeout now new_writer) ltac:(done)) as Hp.
  subst p. destruct (proxy_loop timeout evs _) as [p r]. destruct (ended_by evs) as [before x].
  destruct H as (kept & Hk & Hfull & Htake & Hend). destruct Hp as (Hp & _). rewrite app_nil_l, chunk_data_events in Hp.
  apply stream_response_tail in Hp as (tl & Hbody & Htl). cbv zeta in Htake.
  exists kept, (length (omap chunk_event before)), tl. rewrite Htake. cbn [fst snd].
  split_and!; [exact Hbody|done|done| |].
  - destruct x as [[c| |err| | |]|]; [destruct (Hend c eq_refl) as (_ & -> & _); auto|..];
      (destruct Htl as [?|[?|[Hnil ?]]]; [auto..|]; right; right; split; [|done]);
      apply map_eq_nil in Hnil; by rewrite Hnil.
  - intros c ->. by destruct (Hend c eq_refl) as (? & -> & ?).
Qed.
End streaming.

(** ** Faults of the loop *)

(** A failed stream may be answered as an empty success: [fail] closes the
    chunk channel with the error in the other one, and when [select] takes the
    closed channel the client gets no error and no body and the request is
    filed as done. *)
Theorem failed_stream_may_look_done `{J : JSON} timeout now pc e :
  fresh_call pc ->
  exists a evs, rtc serve (open_account pc, []) (a, evs) /\ ac_end a = Some (EndError e) /\
    errors_out a = [e] /\
    let '(p, returned) := proxy_loop timeout evs (proxy_start timeout now new_writer) in
    returned = true /\ px_completed p = true /\ rw_status (px_writer p) = None /\ rw_body (px_writer p) = [].
Proof.
  intros (H1 & H2 & H3 & H4).
  set (a := account_step (open_account pc) (Failed e)). exists a, [(now, EChunksClosed)].
  assert (Ha : a = mkAccount (set_closed (set_errs [e] pc)) [] [] [] (Some (EndError e)) false).
  { unfold a. simpl. rewrite H4. unfold fail. by rewrite H4, H3. }
  split; [|rewrite Ha; done]. eapply rtc_l; [by apply (serve_call _ _ (Failed e))|]. fold a.
  apply rtc_once. apply (serve_closed a [] now); [done|rewrite Ha..]; done.
Qed.

(** ** The idle timer *)

(** The timer fires at its deadline at the earliest; the clock does not go back. *)
Fixpoint timed (timeout : Duration) (t deadline : Time) (evs : list (Time * pevent)) : Prop :=
  match evs with
  | [] => True
  | (now, e) :: evs =>
      t <= now /\
      match e with
      | EIdle => deadline <= now /\ timed timeout now deadline evs
      | EChunk _ => timed timeout now (time_add now timeout) evs
      | _ => timed timeout now deadline evs
      end
  end.

(** Each chunk comes less than [timeout] after the one before, and so does
    whatever follows the last. *)
Fixpoint lively (timeout : Duration) (last : Time) (evs : list (Time * pevent)) : Prop :=
  match evs with
  | [] => True
  | (now, e) :: evs =>
      now < last + timeout /\
      match e with EChunk _ => lively timeout now evs | _ => lively timeout last evs end
  end.

(** A stream that keeps producing is never cut: while every event comes
    within the timeout of the last chunk, the idle timer does not end the
    stream, however long it runs. *)
Theorem lively_stream_not_cut timeout start evs :
  timed timeout start (time_add start timeout) evs -> lively timeout start evs -> (ended_by evs).2 <> Some EIdle.
Proof.
  intros Ht Hl. enough (H : forall t last, timed timeout t (time_add last timeout) evs -> lively timeout last evs ->
    (ended_by evs).2 <> Some EIdle) by eauto. clear start Ht Hl.
  induction evs as [|[now e] evs IH]; intros t last Ht Hl; simpl in *; [done|]. destruct Ht as [Hnow Ht], Hl as [Hlast Hl].
  destruct e as [c| | | | |]; try done.
  - destruct (se_Done c); [done|]. specialize (IH now now Ht Hl). by destruct (ended_by evs).
  - specialize (IH now last Ht Hl). by destruct (ended_by evs).
  - exfalso. unfold time_add in Ht. lia.
Qed.

(** ** The endpoints *)

Section endpoints.
Context {B : Backend} {T : Transport B}.

Definition mark_streaming (id : string) (st : dstate B) : dstate B :=
  match ds_tracker st with
  | Some (seq, t) =>
      if String.eqb id "" then st
      else {| ds_world := ds_world st; ds_counter := ds_counter st;
              ds_tracker := Some (seq, SetStatus id StatusStreaming t) |}
  | None => st
  end.

(** [proxyStream] with the cases its loop takes; other goroutines run while it
    waits.  The boolean is whether it returned. *)
Definition proxyStream (configured : Duration) (reqID : string) (evs : list (Time * pevent)) (w : ResponseWriter)
    (st : dstate B) : dstate B * ResponseWriter * bool :=
  let timeout := proxy_timeout configured in
  let '(p, returned) := proxy_loop timeout evs (proxy_start timeout (w_now (ds_world st)) w) in
  let st := if px_started p then mark_streaming reqID st else st in
  let st := with_world (w_others (ds_world st)) st in
  (if returned then finish_request reqID (px_completed p) st else st, px_writer p, returned).

(** The parts of the server and of the request the handler reads. *)
Record endpoint (R : Type) := {
  ep_resolveAuto : R -> ComplexityTier + string;
  ep_aliases : option ModelAliasConfig;
  ep_marshal : R -> option body;
  ep_show : body -> string;
  ep_kind : string;
  ep_registry : bool;
  ep_maxAttempts : Z;
  ep_retryBudget : Duration;
  ep_proxyTimeout : Duration;
}.

(** The streaming half: one worker, no failover. *)
Definition stream_inference {R} `{InferenceRequest R} (s : Server) (ep : endpoint R) (req : R)
    (evs : list (Time * pevent)) (w : ResponseWriter) (st : dstate B) : dstate B * ResponseWriter * bool :=
  let '(world, sel) := selectWorker (sv_scoring s) (GetModel req) (ds_world st) in
  let st := with_world world st in
  match sel with
  | inr _ => (st, writeErrorResponse 503 "no_workers" w, true)
  | inl worker =>
      let '(_, st) := record_dispatch (GetModel req) false st in
      if sv_hub s && hub_isRateLimited (wi_ID worker) (ds_world st) then
        (with_world (hub_recordRejection (wi_ID worker) 429 (ds_world st)) st, writeRateLimitError w, true)
      else
        let w := eventStream w in
        let '(st, reqID) := begin_request (GetModel req) worker (ep_kind _ ep) st in
        match ep_marshal _ ep req with
        | None => (st, writeErrorResponse 500 "marshal_error" w, true)
        | Some _ => proxyStream (ep_proxyTimeout _ ep) reqID evs w st
        end
  end.

(** [req] is the parsed request, [None] when it does not parse.  The boolean is
    whether the handler returned. *)
Definition handleInference {R} `{InferenceRequest R} (s : Server) (ep : endpoint R) (post : bool) (req : option R)
    (evs : list (Time * pevent)) (st : dstate B) : dstate B * ResponseWriter * bool :=
  let w := new_writer in
  if negb post then (st, writeErrorResponse 405 "method_not_allowed" w, true)
  else
    match req with
    | None => (st, writeErrorResponse 400 "parse_error" w, true)
    | Some req =>
        if negb (ep_registry _ ep) then (st, writeErrorResponse 500 "internal_error" w, true)
        else
          match rewrite_model (ep_resolveAuto _ ep) (ep_aliases _ ep) req with
          | inl _ => (st, writeErrorResponse 503 "auto_routing_error" w, true)
          | inr req =>
              match ep_marshal _ ep req with
              | None => (st, writeErrorResponse 500 "marshal_error" w, true)
              | Some b =>
                  if GetStream req then stream_inference s ep req evs w st
                  else
                    let '(st, resp, _) := dispatchWithFailover s (GetModel req) b (ep_kind _ ep)
                                            (ep_maxAttempts _ ep) (ep_retryBudget _ ep) st in
                    match resp with
                    | inr err => let '(status, code) := writeFailoverError (Some err) in
                                 (st, writeErrorResponse status code w, true)
                    | inl x => (st, Write (Data (ep_show _ ep x)) (WriteHeader 200 (set_type "application/json" w)), true)
                    end
              end
          end
    end.

#[local] Arguments writeFailoverError : simpl never.

(** A request the handler takes to dispatch or to a stream. *)
Definition accepted {R} `{InferenceRequest R} (ep : endpoint R) (post : bool) (req : option R) : option (R * body) :=
  if negb (post && ep_registry _ ep) then None
  else
    req ← req;
    match rewrite_model (ep_resolveAuto _ ep) (ep_aliases _ ep) req with
    | inl _ => None
    | inr req => b ← ep_marshal _ ep req; Some (req, b)
    end.

Context {L : BackendLaws B}.

(** A completion is answered with success exactly when a worker answered
    it: the body is the answer of a worker willing to serve the model the
    request resolves to, after auto routing and aliases, and the last of at
    most [maxAttempts] different workers; otherwise no worker answered, the
    error status is that of the failure and the body is the error alone.  A
    request that is not accepted changes nothing and gets a 4xx or 5xx. *)
Theorem completion_answer {R} `{InferenceRequest R} s (ep : endpoint R) post req evs st :
  let '(st', w, returned) := handleInference s ep post req evs st in
  match accepted ep post req with
  | None => st' = st /\ returned = true /\ exists status code, 400 <= status < 600 /\
      w = mkWriter "application/json" (Some status) [ErrorObject code]
  | Some (req', b) =>
      GetStream req' = false ->
      returned = true /\ exists tr,
        Z.of_nat (length tr) <= Z.max 1 (ep_maxAttempts _ ep) /\
        NoDup (map (fun e => wi_ID (ev_worker e)) tr) /\
        ((exists x tr0 worker, tr = tr0 ++ [Called worker (inl x)] /\ serves (GetModel req') worker = true /\
            w = mkWriter "application/json" (Some 200) [Data (ep_show _ ep x)]) \/
         (exists err, Forall (fun e => match e with Called _ (inl _) => False | _ => True end) tr /\
            w = mkWriter "application/json" (Some (writeFailoverError (Some err)).1)
                  [ErrorObject (writeFailoverError (Some err)).2]))
  end.
Proof using L.
  unfold handleInference, accepted. destruct post; simpl; [|split_and!; [done..|]; exists 405; eexists; by split].
  destruct req as [req|]; simpl.
  2: { destruct (negb (ep_registry _ ep)); (split_and!; [done..|]; exists 400; eexists; by split). }
  destruct (ep_registry _ ep); simpl; [|split_and!; [done..|]; exists 500; eexists; by split].
  destruct (rewrite_model _ _ req) as [tier|req']; simpl; [split_and!; [done..|]; exists 503; eexists; by split|].
  destruct (ep_marshal _ ep req') as [b|]; simpl; [|split_and!; [done..|]; exists 500; eexists; by split].
  destruct (GetStream req') eqn:Hs; [by destruct (stream_inference s ep req' evs new_writer st) as [[? ?] ?]|].
  pose proof (failover_trace s (GetModel req') b (ep_kind _ ep)
    (time_add (w_now (ds_world st)) (ep_retryBudget _ ep)) (Z.to_nat (if ep_maxAttempts _ ep <? 1 then 1 else ep_maxAttempts _ ep))
    ∅ None false st) as Ho. unfold dispatchWithFailover.
  destruct (failover _ _ _ _ _ _ _ _ _ st) as [[st' r] tr]. destruct Ho as ((Hl & Hd & Hf) & Ho).
  assert (Hlen : Z.of_nat (length tr) <= Z.max 1 (ep_maxAttempts _ ep)) by (destruct (Z.ltb_spec (ep_maxAttempts _ ep) 1); lia).
  assert (Htr : forall tr0, Forall transient tr0 ->
    Forall (fun e => match e with Called _ (inl _) => False | _ => True end) tr0).
  { intros tr0 H0. eapply Forall_impl; [exact H0|]. by intros [? []|]. }
  destruct r as [x|err].
  - intros _. split; [done|]. exists tr. split_and!; [done..|]. left. destruct Ho as (tr0 & worker & -> & _).
    exists x, tr0, worker. split_and!; [done| |done].
    apply Forall_app in Hf as [_ [[_ Hf] _]%Forall_cons]. exact Hf.
  - destruct (writeFailoverError (Some err)) as [status code] eqn:Ew. simpl. intros _. split; [done|]. exists tr.
    split_and!; [done..|]. right. exists err. rewrite Ew. split; [|done].
    destruct Ho as [(e' & -> & Ho)|(tr0 & worker & -> & Ho & _)]; [by apply Htr|].
    apply Forall_app. split; [by apply Htr|by apply Forall_singleton].
Qed.
End endpoints.

(** ** Concrete runs *)

#[local] Existing Instance demo_json.

(** The worker sends a frame and a final response; the proxy reads them. *)
Definition ex_evs : list (Time * pevent) :=
  [(1, EChunk (sse "a")); (2, EChunk (sse "b")); (3, EChunk done_event)].

Lemma client_stream_witness :
  fresh_call (demo_call true) /\
  let p := (proxy_loop second ex_evs (proxy_start second 0 new_writer)).1 in
  exists kept n tl, rw_body (px_writer p) = map (fun c => Data (se_Data c)) (take n kept) ++ tl /\
    tl = [Data done_text] /\ take n kept = kept.
Proof.
  split; [vm_compute; tauto|].
  set (a := foldl account_step (open_account (demo_call true))
    [Routed 0 (demo_message MsgInferenceChunk "a"); ReadChunk; Routed 0 (demo_message MsgInferenceResponse "b"); ReadChunk; ReadChunk]).
  pose proof (client_stream (J := demo_json) second 0 (demo_call true) a ex_evs) as H.
  destruct H as (kept & n & tl & H1 & H2 & H3 & H4 & H5).
  1: vm_compute; tauto.
  1: { eapply rtc_l; [apply (serve_call _ _ (Routed 0 (demo_message MsgInferenceChunk "a"))); exact I|].
       eapply rtc_l; [apply (serve_chunk _ _ 1 (sse "a") []); vm_compute; reflexivity|].
       eapply rtc_l; [apply (serve_call _ _ (Routed 0 (demo_message MsgInferenceResponse "b"))); exact I|].
       eapply rtc_l; [apply (serve_chunk _ _ 2 (sse "b") [done_event]); vm_compute; reflexivity|].
       eapply rtc_l; [apply (serve_chunk _ _ 3 done_event []); vm_compute; reflexivity|].
       apply rtc_refl. }
  destruct (H5 done_event eq_refl) as (_ & Hk & Ht & _). exists kept, n, tl. split; [exact H1|]. split; [exact Ht|exact Hk].
Defined.

Lemma failed_stream_may_look_done_witness :
  fresh_call (demo_call true) /\
  exists a evs, rtc (serve (J := demo_json)) (open_account (demo_call true), []) (a, evs) /\
    errors_out a = [Sentinel errConnClosed].
Proof.
  split; [vm_compute; tauto|].
  destruct (failed_stream_may_look_done (J := demo_json) second 0 (demo_call true) (Sentinel errConnClosed)
    ltac:(vm_compute; tauto)) as (a & evs & H1 & _ & H3 & _).
  exists a, evs. split; [exact H1|exact H3].
Defined.

(** Chunks just inside a timeout of ten, for longer than the timeout. *)
Lemma lively_stream_not_cut_witness :
  (ended_by [(9, EChunk (sse "a")); (18, EChunk (sse "b")); (27, EChunksClosed)]).2 <> Some EIdle.
Proof. apply (lively_stream_not_cut 10 0); vm_compute; intuition (discriminate || auto). Defined.

Definition ex_ep : endpoint (T := only_c) CompletionRequest :=
  {| ep_resolveAuto r := inr (cq_Model r); ep_aliases := None; ep_marshal r := Some (cq_Prompt r : @body _ only_c); ep_show b := (b : string);
     ep_kind := "completion"; ep_registry := true; ep_maxAttempts := 3; ep_retryBudget := minute; ep_proxyTimeout := 0 |}.

Definition ex_req : CompletionRequest :=
  {| cq_Model := "llama"; cq_Prompt := "hi"; cq_MaxTokens := 0; cq_Temperature := of_int 0; cq_Stream := false |}.

Lemma completion_answer_witness :
  let '(_, w, returned) := handleInference (T := only_c) ex_server ex_ep true (Some ex_req) [] ex_state in
  returned = true /\ w = mkWriter "application/json" (Some 200) [Data "c"].
Proof.
  pose proof (completion_answer (T := only_c) (L := ex_laws) ex_server ex_ep true (Some ex_req) [] ex_state) as H.
  destruct (handleInference (T := only_c) ex_server ex_ep true (Some ex_req) [] ex_state) as [[st' w] returned] eqn:E.
  cbn [accepted andb negb ex_ep ep_registry mbind option_bind rewrite_model ep_resolveAuto ep_marshal] in H.
  destruct H as [H _]; [reflexivity|]. split; [exact H|].
  apply (f_equal (fun x => x.1.2)) in E. vm_compute in E. symmetry. exact E.
Defined.
