(* ===== verification/Meta.v ===== *)
(** * Meta: the router's server and its metadata endpoints ([handlers_meta.go], [server.go])

    The router's server as the state of its parts, its setters, and the
    endpoints that show or replace that state: workers, models, aliases, auto
    routing, statistics and the registration over HTTP.  The order of a range
    over a map, JSON and the address functions of [net] are arguments. *)

From S2P Require Import Prelude GoFloat GoStrings Errors Http Protocol Registry QueueStats CallCounter RequestTracker CapabilityCache Scheduler Selection Aliases AutoRouting Hub Proxy.
From Stdlib Require Import Ascii.

#[local] Open Scope list_scope.

(** ** The server *)

(** The hub's registry is [rt_reg]; [set_registry] keeps them the same. *)
Record Server := mkServer {
  rt_reg : option memoryRegistry;
  rt_cache : option CapabilityCache;
  rt_dev : bool;
  rt_apiKey : string;
  rt_hub : option WSHub;
  rt_counter : CallCounter;
  rt_proxyTimeout : Duration;
  rt_maxAttempts : Z;
  rt_retryBudget : Duration;
  rt_modelLoadTimeout : Duration;
  rt_autoRouting : option AutoRoutingConfig;
  rt_modelAliases : option (gmap string AliasTarget);
  rt_tracker : option RequestTracker;
}.

(** The scoring fields are [Selection.NewScoring]. *)
Definition NewServer (reg : option memoryRegistry) (dev : bool) (apiKey : string) : Server :=
  mkServer reg (Some NewCapabilityCache) dev apiKey (Some (Hub.SetAPIKey apiKey (NewWSHub reg))) (NewCallCounter (10 * minute))
    (120 * second) 3 (60 * second) (120 * second) None None (Some (NewRequestTracker 0 0)).

Definition upd_hub (f : WSHub -> WSHub) (s : Server) : Server :=
  mkServer (rt_reg s) (rt_cache s) (rt_dev s) (rt_apiKey s) (f <$> rt_hub s) (rt_counter s) (rt_proxyTimeout s) (rt_maxAttempts s)
    (rt_retryBudget s) (rt_modelLoadTimeout s) (rt_autoRouting s) (rt_modelAliases s) (rt_tracker s).
Definition set_registry (r : option memoryRegistry) (s : Server) : Server :=
  mkServer r (rt_cache s) (rt_dev s) (rt_apiKey s) (Hub.set_reg r <$> rt_hub s) (rt_counter s) (rt_proxyTimeout s) (rt_maxAttempts s)
    (rt_retryBudget s) (rt_modelLoadTimeout s) (rt_autoRouting s) (rt_modelAliases s) (rt_tracker s).
Definition set_counter (c : CallCounter) (s : Server) : Server :=
  mkServer (rt_reg s) (rt_cache s) (rt_dev s) (rt_apiKey s) (rt_hub s) c (rt_proxyTimeout s) (rt_maxAttempts s)
    (rt_retryBudget s) (rt_modelLoadTimeout s) (rt_autoRouting s) (rt_modelAliases s) (rt_tracker s).
Definition set_tracker (t : option RequestTracker) (s : Server) : Server :=
  mkServer (rt_reg s) (rt_cache s) (rt_dev s) (rt_apiKey s) (rt_hub s) (rt_counter s) (rt_proxyTimeout s) (rt_maxAttempts s)
    (rt_retryBudget s) (rt_modelLoadTimeout s) (rt_autoRouting s) (rt_modelAliases s) t.
Definition set_key (key : string) (s : Server) : Server :=
  mkServer (rt_reg s) (rt_cache s) (rt_dev s) key (rt_hub s) (rt_counter s) (rt_proxyTimeout s) (rt_maxAttempts s)
    (rt_retryBudget s) (rt_modelLoadTimeout s) (rt_autoRouting s) (rt_modelAliases s) (rt_tracker s).

(** The setters that only pass on to the hub. *)
Definition SetAPIKey (key : string) (s : Server) : Server := set_key key (upd_hub (Hub.SetAPIKey key) s).
Definition SetMaxInFlight (n : Z) : Server -> Server := upd_hub (Hub.SetMaxInFlight n).
Definition SetWorkerMaxInFlight (workerID : string) (cap : Z) : Server -> Server := upd_hub (Hub.SetWorkerMaxInFlight workerID cap).
Definition SetMaxConnections (n : Z) : Server -> Server := upd_hub (Hub.SetMaxConnections n).

Definition SetProxyTimeout (d : Duration) (s : Server) : Server :=
  mkServer (rt_reg s) (rt_cache s) (rt_dev s) (rt_apiKey s) (rt_hub s) (rt_counter s) (if d <=? 0 then 120 * second else d)
    (rt_maxAttempts s) (rt_retryBudget s) (rt_modelLoadTimeout s) (rt_autoRouting s) (rt_modelAliases s) (rt_tracker s).
Definition SetMaxAttempts (n : Z) (s : Server) : Server :=
  mkServer (rt_reg s) (rt_cache s) (rt_dev s) (rt_apiKey s) (rt_hub s) (rt_counter s) (rt_proxyTimeout s) (if n <=? 0 then 3 else n)
    (rt_retryBudget s) (rt_modelLoadTimeout s) (rt_autoRouting s) (rt_modelAliases s) (rt_tracker s).
Definition SetRetryBudget (d : Duration) (s : Server) : Server :=
  mkServer (rt_reg s) (rt_cache s) (rt_dev s) (rt_apiKey s) (rt_hub s) (rt_counter s) (rt_proxyTimeout s) (rt_maxAttempts s)
    (if d <=? 0 then 60 * second else d) (rt_modelLoadTimeout s) (rt_autoRouting s) (rt_modelAliases s) (rt_tracker s).
Definition SetModelLoadTimeout (d : Duration) (s : Server) : Server :=
  mkServer (rt_reg s) (rt_cache s) (rt_dev s) (rt_apiKey s) (rt_hub s) (rt_counter s) (rt_proxyTimeout s) (rt_maxAttempts s)
    (rt_retryBudget s) (if d <=? 0 then 120 * second else d) (rt_autoRouting s) (rt_modelAliases s) (rt_tracker s).
Definition SetAutoRouting (cfg : option AutoRoutingConfig) (s : Server) : Server :=
  mkServer (rt_reg s) (rt_cache s) (rt_dev s) (rt_apiKey s) (rt_hub s) (rt_counter s) (rt_proxyTimeout s) (rt_maxAttempts s)
    (rt_retryBudget s) (rt_modelLoadTimeout s) cfg (rt_modelAliases s) (rt_tracker s).
Definition SetModelAliases (cfg : option (gmap string AliasTarget)) (s : Server) : Server :=
  mkServer (rt_reg s) (rt_cache s) (rt_dev s) (rt_apiKey s) (rt_hub s) (rt_counter s) (rt_proxyTimeout s) (rt_maxAttempts s)
    (rt_retryBudget s) (rt_modelLoadTimeout s) (rt_autoRouting s) cfg (rt_tracker s).

(** ** What the endpoints show *)

Record WorkerView := {
  wv_ID : string;
  wv_Hostname : string;
  wv_IP : string;
  wv_Port : Z;
  wv_Status : WorkerStatus;
  wv_Version : string;
  wv_LoadedModels : list string;
  wv_LastSeen : Time;
  wv_InFlight : Z;
  wv_MaxInFlight : Z;
  wv_TokensPerSecond : float64;
}.

Record PopularModelInfo := {
  pm_Model : string;
  pm_WorkerCount : Z;
  pm_LoadedWorkerCount : Z;
  pm_CallCount : Z;
}.

(** [encoding/json] for the bodies. *)
Class MetaJSON := {
  json_workers : list WorkerView -> option string;
  json_models : list ModelInfo -> option string;
  json_popular : list PopularModelInfo -> option string;
  json_ok : option string;
  json_auto : AutoRoutingConfigRequest -> option string;
  json_requests : list RequestRecord -> option string;
  json_count : Z -> option string;
  json_inference : list WorkerInferenceStats -> option string;
  json_queue : QueueStatsResponse -> option string;
}.

Inductive method := GET | POST | OtherMethod.

Definition method_not_allowed : ResponseWriter -> ResponseWriter := writeErrorResponse 405 "method_not_allowed".

(** A body, when it encodes; a failure is only logged. *)
Definition respond (json : option string) (w : ResponseWriter) : ResponseWriter :=
  match json with Some text => Write (Data text) w | None => w end.

Definition as_json : ResponseWriter -> ResponseWriter := set_type "application/json".

Definition getLoadedModelNames (models : list ModelInfo) : list string := map mi_Name (List.filter mi_Loaded models).

Section meta.
(** The [k]-th range over a map of a handler. *)
Context (range : nat -> forall A, gmap string A -> list (string * A)).
Context (addr_string : string -> Z -> string).

(** ** Workers *)

(** The capability cache, or the registry's available workers when it is empty. *)
Definition listed_workers (s : Server) : list WorkerInfo :=
  let cached := match rt_cache s with Some c => CapabilityCache.List_ (range 0 _ (cc_cache c)) | None => [] end in
  match cached, rt_reg s with
  | [], Some r => Registry.ListAvailable (range 1 _ (mr_workers r))
  | _, _ => cached
  end.

Definition workerCount (s : Server) : Z := Z.of_nat (length (listed_workers s)).

Definition hubBusySnapshot (ch : choices) (hub : option WSHub) : gmap string WorkerQueueStats :=
  match hub with
  | None => ∅
  | Some h => foldl (fun load ws => <[wqs_WorkerID ws := ws]> load) ∅ (qsr_Workers (Hub.QueueStats ch h))
  end.

Definition firstLoaded (models : list ModelInfo) : string :=
  match List.find mi_Loaded models with Some m => mi_Name m | None => "" end.

Definition worker_view (cache : CapabilityCache) (load : gmap string WorkerQueueStats) (w : WorkerInfo) : WorkerView :=
  let l := default zero_WorkerQueueStats (load !! wi_ID w) in
  let models := cap_Models (wi_Capabilities w) in
  let sw := toSchedulerWorker addr_string cache w l true (firstLoaded models) in
  {| wv_ID := wi_ID w; wv_Hostname := wi_Hostname w; wv_IP := wi_IP w; wv_Port := wi_Port w;
     wv_Status := busyStatus (wi_Status w) l; wv_Version := wi_Version w; wv_LoadedModels := getLoadedModelNames models;
     wv_LastSeen := wi_LastSeen w; wv_InFlight := wqs_InFlight l; wv_MaxInFlight := wqs_MaxInFlight l;
     wv_TokensPerSecond := sw_TokensPerSecond sw |}.

Definition worker_views (ch : choices) (s : Server) : list WorkerView :=
  map (worker_view (default NewCapabilityCache (rt_cache s)) (hubBusySnapshot ch (rt_hub s))) (listed_workers s).

(** ** Models *)

(** The canonical names an active configuration hides. *)
Definition hideCanonical (cfg : option (gmap string AliasTarget)) : gset string :=
  if modelAliasesActive cfg then
    match cfg with
    | None => ∅
    | Some aliases => list_to_set (List.filter (fun c => negb (String.eqb c "")) (map (fun kt => Canonical kt.2) (map_to_list aliases)))
    end
  else ∅.

Definition synthetic (name backend : string) : ModelInfo :=
  {| mi_Name := name; mi_Size := 0; mi_Quantization := ""; mi_MaxTokens := 0; mi_Backend := backend; mi_Loaded := true |}.

(** The models of the cached workers, in the order of a range. *)
Definition cached_models (order : list (string * WorkerInfo)) : list ModelInfo :=
  concat (map (fun kw => cap_Models (wi_Capabilities kw.2)) order).

Definition advertised_alias (kt : string * AliasTarget) : option ModelInfo :=
  if String.eqb (Canonical kt.2) "" then None else Some (synthetic kt.1 "alias").

Definition listed_models (s : Server) : list ModelInfo :=
  match rt_cache s with
  | None => []
  | Some c =>
      let hide := hideCanonical (rt_modelAliases s) in
      List.filter (fun m => mi_Loaded m && negb (bool_decide (mi_Name m ∈ hide))) (cached_models (range 0 _ (cc_cache c))) ++
      (if autoRoutingActive (rt_autoRouting s) then [synthetic autoModelAlias "auto"] else []) ++
      (if modelAliasesActive (rt_modelAliases s) then
         match rt_modelAliases s with Some aliases => omap advertised_alias (range 1 _ aliases) | None => [] end
       else [])
  end.

(** ** Popular models *)

(** One model of one worker. *)
Definition count_model (counts : gmap string Z) (stats : gmap string PopularModelInfo) (m : ModelInfo) :
    gmap string PopularModelInfo :=
  let p := default {| pm_Model := mi_Name m; pm_WorkerCount := 0; pm_LoadedWorkerCount := 0; pm_CallCount := counts@[mi_Name m|0] |}
             (stats !! mi_Name m) in
  <[mi_Name m :=
      {| pm_Model := pm_Model p; pm_WorkerCount := wrap64 (pm_WorkerCount p + 1);
         pm_LoadedWorkerCount := if mi_Loaded m then wrap64 (pm_LoadedWorkerCount p + 1) else pm_LoadedWorkerCount p;
         pm_CallCount := pm_CallCount p |}]> stats.

(** More workers with the model loaded first, then by name. *)
Definition popular_le (a b : PopularModelInfo) : bool :=
  if pm_LoadedWorkerCount a =? pm_LoadedWorkerCount b then String.leb (pm_Model a) (pm_Model b)
  else pm_LoadedWorkerCount b <? pm_LoadedWorkerCount a.

Definition popular_models (counts : gmap string Z) (cache : gmap string WorkerInfo) : list PopularModelInfo :=
  sort_by popular_le
    (map snd (range 1 _ (foldl (count_model counts) ∅ (cached_models (range 0 _ cache))))).

(** ** Handlers *)

Context {J : MetaJSON}.

Definition handleWorkersList (ch : choices) (m : method) (w : ResponseWriter) (s : Server) : ResponseWriter :=
  match m with
  | GET => respond (json_workers (worker_views ch s)) (as_json w)
  | _ => method_not_allowed w
  end.

Definition handleModelsList (m : method) (w : ResponseWriter) (s : Server) : ResponseWriter :=
  match m with
  | GET =>
      match rt_cache s, json_models (listed_models s) with
      | _, Some text => Write (Data text) (as_json w)
      | None, None => as_json w
      | Some _, None => writeErrorResponse 500 "encoding_error" (as_json w)
      end
  | _ => method_not_allowed w
  end.

(** A server without a cache panics: there is no check. *)
Definition handlePopularModels (now : Time) (m : method) (w : ResponseWriter) (s : Server) : option (Server * ResponseWriter) :=
  match m with
  | GET =>
      c ← rt_cache s;
      let '(counter, counts) := CallCounter.Snapshot now (rt_counter s) in
      Some (set_counter counter s, respond (json_popular (popular_models counts (cc_cache c))) (as_json w))
  | _ => Some (s, method_not_allowed w)
  end.

(** [body] is the map of the request in a range order, [None] when it does not parse. *)
Definition handleSetAliases (m : method) (body : option (list (string * string))) (w : ResponseWriter) (s : Server) :
    Server * ResponseWriter :=
  match m with
  | POST =>
      match body with
      | None => (s, writeErrorResponse 400 "parse_error" w)
      | Some raw => (SetModelAliases (buildAliasConfig raw) s, respond json_ok (WriteHeader 200 (as_json w)))
      end
  | _ => (s, method_not_allowed w)
  end.

(** A body of [/meta/auto-routing]: [EmptyBody] is the decoder's [io.EOF]. *)
Inductive auto_body := EmptyBody | BadBody | AutoBody (req : AutoRoutingConfigRequest).

Definition zero_auto_request : AutoRoutingConfigRequest :=
  {| req_Enabled := false; req_UseFourTier := false; req_Models := None; req_SimpleMaxTokens := 0; req_MediumMaxTokens := 0 |}.

(** [entries] and [tiers] are range orders over the request's and the
    configuration's models. *)
Definition handleAutoRouting (m : method) (body : auto_body) (entries : list (string * string)) (tiers : list (Z * string))
    (w : ResponseWriter) (s : Server) : Server * ResponseWriter :=
  match m with
  | GET => (s, respond (json_auto (toAutoRoutingConfigDTO tiers (rt_autoRouting s))) (WriteHeader 200 (as_json w)))
  | POST =>
      match body with
      | BadBody => (s, writeErrorResponse 400 "parse_error" w)
      | EmptyBody =>
          (SetAutoRouting (buildAutoRoutingConfig [] (Some zero_auto_request)) s, respond json_ok (WriteHeader 200 (as_json w)))
      | AutoBody req =>
          (SetAutoRouting (buildAutoRoutingConfig entries (Some req)) s, respond json_ok (WriteHeader 200 (as_json w)))
      end
  | OtherMethod => (s, method_not_allowed w)
  end.

Definition handleInflightRequests (now : Time) (m : method) (w : ResponseWriter) (s : Server) : Server * ResponseWriter :=
  match m with
  | GET =>
      match rt_tracker s with
      | Some t =>
          let '(t, reqs) := RequestTracker.Snapshot now (range 0 _ (active t)) t in
          (set_tracker (Some t) s, respond (json_requests reqs) (as_json w))
      | None => (s, respond (json_requests []) (as_json w))
      end
  | _ => (s, method_not_allowed w)
  end.

Definition handleConnectionCount (m : method) (w : ResponseWriter) (s : Server) : ResponseWriter :=
  match m with
  | GET => respond (json_count (workerCount s)) (as_json w)
  | _ => method_not_allowed w
  end.

Definition handleInferenceStats (m : method) (w : ResponseWriter) (s : Server) : ResponseWriter :=
  match m with
  | GET =>
      respond (json_inference match rt_cache s with
                              | None => []
                              | Some c => ListInferenceStats (map (fun kv => range 1 _ kv.2) (range 0 _ (cc_stats c)))
                              end) (as_json w)
  | _ => method_not_allowed w
  end.

Definition handleQueueStats (ch : choices) (m : method) (w : ResponseWriter) (s : Server) : ResponseWriter :=
  match m with
  | GET =>
      match rt_hub s with
      | None => writeErrorResponse 500 "internal_error" (as_json w)
      | Some h => respond (json_queue (Hub.QueueStats ch h)) (as_json w)
      end
  | _ => method_not_allowed w
  end.
End meta.

(** ** Registration over HTTP *)

(** What the code asks of a [net.IP]; [ip_v4] is [String()] when [To4()] is not nil. *)
Record ip := { ip_loopback : bool; ip_v4 : option string }.

Section register.
(** [net.SplitHostPort] (the host) and [net.ParseIP]. *)
Context (split_host : string -> option string) (parse_ip : string -> option ip).

Definition loopback4 : string := "127.0.0.1".

Definition routable_ip (RemoteAddr : string) : option string :=
  let host := default RemoteAddr (split_host RemoteAddr) in
  let host := if String.eqb host "localhost" then loopback4 else host in
  match parse_ip host with
  | None => None
  | Some ip => if ip_loopback ip then Some loopback4 else ip_v4 ip
  end.

(** The worker as it will be registered and the IP of its peer. *)
Definition peer_identity (dev : bool) (RemoteAddr : string) (worker : WorkerInfo) : (WorkerInfo * string) + (Z * string) :=
  if dev then
    match routable_ip RemoteAddr with
    | None => inr (400, "ip_validation_error")
    | Some ip => inl (with_IP ip worker, ip)
    end
  else if negb (String.eqb (wi_IP worker) "127.0.0.1") && negb (String.eqb (wi_IP worker) "localhost")
  then inr (403, "ip_validation_error")
  else inl (worker, wi_IP worker).

(** A server without a registry panics. *)
Definition handleDevRegister (now : Time) (m : method) (RemoteAddr : string) (body : option WorkerInfo) (w : ResponseWriter)
    (s : Server) : option (Server * ResponseWriter) :=
  match m with
  | POST =>
      match body with
      | None => Some (s, writeErrorResponse 400 "parse_error" w)
      | Some worker =>
          if String.eqb (wi_ID worker) "" then Some (s, writeErrorResponse 400 "validation_error" w)
          else if (wi_Port worker <=? 0) || (65535 <? wi_Port worker) then Some (s, writeErrorResponse 400 "validation_error" w)
          else
            match peer_identity (rt_dev s) RemoteAddr worker with
            | inr (status, code) => Some (s, writeErrorResponse status code w)
            | inl (worker, peerIP) =>
                r ← rt_reg s;
                let '(existing, ok) := Registry.Get r (wi_ID worker) in
                if ok && negb (String.eqb (wi_IP existing) peerIP) then Some (s, writeErrorResponse 409 "duplicate_id" w)
                else
                  let worker := with_Status StatusAvailable worker in
                  let r := HandleEvent now {| de_Type := EventAdded; de_Worker := worker; de_Time := zero_time |} r in
                  Some (set_registry (Some r) s, WriteHeader 200 w)
            end
      end
  | _ => Some (s, method_not_allowed w)
  end.
End register.

(** ** The list of models and the routing of requests *)

(** In a configuration that was parsed or built every entry is active. *)
Lemma hide_spec aliases c :
  alias_wf aliases -> c ∈ hideCanonical (Some aliases) <-> exists k t, aliases !! k = Some t /\ Canonical t = c.
Proof.
  intros Hwf. unfold hideCanonical. destruct (modelAliasesActive (Some aliases)) eqn:Ea.
  - rewrite elem_of_list_to_set, elem_of_filter_b, list_elem_of_In, in_map_iff. split.
    + intros [([k t] & <- & Hin) _]. apply list_elem_of_In, elem_of_map_to_list in Hin. eauto.
    + intros (k & t & Hkt & <-). split.
      * exists (k, t). by rewrite <-list_elem_of_In, elem_of_map_to_list.
      * apply negb_true_iff, String.eqb_neq. by destruct (Hwf _ _ Hkt) as [_ [? _]].
  - split; [set_solver|]. intros (k & t & Hkt & <-). exfalso.
    assert (modelAliasesActive (Some aliases) = true); [|congruence].
    apply active_spec. exists k, t. split; [done|]. by destruct (Hwf _ _ Hkt) as [_ [? _]].
Qed.

Lemma hide_cfg cfg c :
  alias_wf (default ∅ cfg) -> c ∈ hideCanonical cfg <-> exists k t, default ∅ cfg !! k = Some t /\ Canonical t = c.
Proof.
  destruct cfg as [aliases|]; [apply hide_spec|]. intros _. simpl. split; [set_solver|].
  intros (k & t & Hk & _). by rewrite lookup_empty in Hk.
Qed.

Lemma resolve_cfg cfg n :
  alias_wf (default ∅ cfg) ->
  resolveAliasModel cfg n = match default ∅ cfg !! n with Some t => Canonical t | None => n end.
Proof.
  intros Hwf. destruct (resolveAliasModel_spec cfg n) as [-> _].
  - destruct cfg as [aliases|]; [|done]. intros k t Hkt. by destruct (Hwf k t Hkt) as [_ [? _]].
  - destruct cfg as [aliases|]; [done|]. simpl. by rewrite lookup_empty.
Qed.

Section laws.
Context (range : nat -> forall A, gmap string A -> list (string * A)).
Context (range_perm : forall k A (m : gmap string A), range k A m ≡ₚ map_to_list m).

(** A model some cached worker has loaded. *)
Definition loaded_somewhere (c : CapabilityCache) (m : ModelInfo) : Prop :=
  exists id w, cc_cache c !! id = Some w /\ m ∈ cap_Models (wi_Capabilities w) /\ mi_Loaded m = true.

Lemma elem_of_cached_models k c m :
  m ∈ cached_models (range k _ c) <-> exists id w, c !! id = Some w /\ m ∈ cap_Models (wi_Capabilities w).
Proof using range_perm.
  unfold cached_models. rewrite list_elem_of_In, in_concat. split.
  - intros (l & (kw & <- & Hin)%in_map_iff & Hm). apply list_elem_of_In in Hin, Hm. destruct kw as [id w].
    rewrite range_perm, elem_of_map_to_list in Hin. eauto.
  - intros (id & w & Hw & Hm). exists (cap_Models (wi_Capabilities w)). split; [|by apply list_elem_of_In].
    apply in_map_iff. exists (id, w). split; [done|]. by rewrite <-list_elem_of_In, range_perm, elem_of_map_to_list.
Qed.


Lemma elem_of_advertised k aliases m :
  alias_wf aliases -> m ∈ omap advertised_alias (range k _ aliases) <->
  is_Some (aliases !! mi_Name m) /\ m = synthetic (mi_Name m) "alias".
Proof using range_perm.
  intros Hwf. rewrite list_elem_of_omap. split.
  - intros ([n t] & Hin & Ha). rewrite range_perm, elem_of_map_to_list in Hin. unfold advertised_alias in Ha. simpl in Ha.
    destruct (String.eqb _ _); [done|]. injection Ha as <-. simpl. eauto.
  - intros [[t Ht] ->]. exists (mi_Name m, t). rewrite range_perm, elem_of_map_to_list. simpl. split; [done|].
    unfold advertised_alias. simpl. destruct (Hwf _ _ Ht) as [_ [Hne _]]. by rewrite (proj2 (String.eqb_neq _ _) Hne).
Qed.

(** The models the router lists, with the aliases and the auto routing it
    was configured with: exactly the loaded models of the cached workers that no
    alias stands for, the aliases and, with auto routing, "auto".  A model that
    some worker has loaded can be had through one of the listed names unless an
    alias of another model shadows its name, whichever order the maps are
    visited in. *)
Theorem listed_models_routable s c :
  rt_cache s = Some c -> alias_wf (default ∅ (rt_modelAliases s)) ->
  let aliases := default ∅ (rt_modelAliases s) in
  let is_canonical n := exists k t, aliases !! k = Some t /\ Canonical t = n in
  (forall m, m ∈ listed_models range s <->
     loaded_somewhere c m /\ ~ is_canonical (mi_Name m) \/
     is_Some (aliases !! mi_Name m) /\ m = synthetic (mi_Name m) "alias" \/
     autoRoutingActive (rt_autoRouting s) = true /\ m = synthetic autoModelAlias "auto") /\
  (forall m, loaded_somewhere c m ->
     (exists m', m' ∈ listed_models range s /\ resolveAliasModel (rt_modelAliases s) (mi_Name m') = mi_Name m) <->
     aliases !! mi_Name m = None \/ is_canonical (mi_Name m)).
Proof using range_perm.
  intros Hc Hwf aliases is_canonical.
  assert (Hl : forall m, m ∈ listed_models range s <->
     loaded_somewhere c m /\ ~ is_canonical (mi_Name m) \/
     is_Some (aliases !! mi_Name m) /\ m = synthetic (mi_Name m) "alias" \/
     autoRoutingActive (rt_autoRouting s) = true /\ m = synthetic autoModelAlias "auto").
  { intros m. unfold listed_models. rewrite Hc, !elem_of_app, elem_of_filter_b, elem_of_cached_models.
    rewrite andb_true_iff, negb_true_iff, bool_decide_eq_false, hide_cfg by done. fold aliases.
    assert (Hauto : m ∈ (if autoRoutingActive (rt_autoRouting s) then [synthetic autoModelAlias "auto"] else []) <->
      autoRoutingActive (rt_autoRouting s) = true /\ m = synthetic autoModelAlias "auto")
      by (destruct (autoRoutingActive _); set_solver).
    assert (Halias : m ∈ (if modelAliasesActive (rt_modelAliases s) then
        match rt_modelAliases s with Some aliases => omap advertised_alias (range 1 _ aliases) | None => [] end else []) <->
      is_Some (aliases !! mi_Name m) /\ m = synthetic (mi_Name m) "alias").
    { subst aliases. destruct (rt_modelAliases s) as [al|]; simpl in *; [|rewrite lookup_empty; split; [set_solver|by intros [[? ?] _]]].
      rewrite <-(elem_of_advertised 1 al m Hwf). destruct (modelAliasesActive (Some al)) eqn:Ea; simpl in Ea; rewrite Ea; [done|].
      split; [set_solver|]. rewrite elem_of_advertised by done. intros [[t Ht] _].
      assert (modelAliasesActive (Some al) = true); [|simpl in *; congruence].
      apply active_spec. exists (mi_Name m), t. split; [done|]. by destruct (Hwf _ _ Ht) as [_ [? _]]. }
    rewrite Hauto, Halias. unfold loaded_somewhere. naive_solver. }
  split; [exact Hl|]. intros m Hm. setoid_rewrite resolve_cfg; [|done]. fold aliases. split.
  - intros (m' & _ & Hr). destruct (aliases !! mi_Name m') as [t|] eqn:E; [right; unfold is_canonical; eauto|].
    left. by rewrite <-Hr.
  - intros Hor. destruct (decide (mi_Name m ∈ hideCanonical (rt_modelAliases s))) as [Hin|Hout].
    + apply hide_cfg in Hin as (k & t & Hk & Ht); [|done]. fold aliases in Hk. exists (synthetic k "alias"). rewrite Hl. simpl.
      split; [right; left; by rewrite Hk|by rewrite Hk].
    + assert (Hnc : ~ is_canonical (mi_Name m)) by (intros H; by apply Hout, hide_cfg). destruct Hor as [Hn|]; [|done].
      exists m. rewrite Hl, Hn. split; [by left|done].
Qed.
End laws.

(** ** The list of popular models *)

Definition named (name : string) (m : ModelInfo) : bool := String.eqb (mi_Name m) name.

(** How many of the models have the name, and satisfy [p]. *)
Definition mtally (p : ModelInfo -> bool) (name : string) (ms : list ModelInfo) : Z :=
  Z.of_nat (length (List.filter (fun m => named name m && p m) ms)).

Definition popular_entry (counts : gmap string Z) (ms : list ModelInfo) (name : string) : PopularModelInfo :=
  {| pm_Model := name; pm_WorkerCount := mtally (fun _ => true) name ms; pm_LoadedWorkerCount := mtally mi_Loaded name ms;
     pm_CallCount := counts@[name|0] |}.

Lemma mtally_bound p name ms : 0 <= mtally p name ms <= Z.of_nat (length ms).
Proof. unfold mtally. pose proof (filter_length_le (fun m => named name m && p m) ms). lia. Qed.

Lemma mtally_snoc p name ms m :
  mtally p name (ms ++ [m]) = mtally p name ms + if named name m && p m then 1 else 0.
Proof. unfold mtally. rewrite filter_b_app, length_app. simpl. destruct (named name m && p m); simpl; lia. Qed.

Lemma mtally_perm p name ms ms' : ms ≡ₚ ms' -> mtally p name ms = mtally p name ms'.
Proof.
  intros Hp. unfold mtally. f_equal. apply Permutation_length.
  induction Hp as [|x l l' Hp IH|x y l|]; simpl; [done| |repeat case_match; try done; by constructor|by etrans].
  case_match; [by constructor|done].
Qed.

Lemma count_fold counts ms name :
  Z.of_nat (length ms) <= max_int64 ->
  foldl (count_model counts) ∅ ms !! name =
    if decide (name ∈ map mi_Name ms) then Some (popular_entry counts ms name) else None.
Proof.
  induction ms as [|m ms IH] using rev_ind; intros Hl; [cbn [foldl map]; rewrite lookup_empty, decide_False by set_solver; done|].
  rewrite length_app in Hl. simpl in Hl. specialize (IH ltac:(lia)). rewrite foldl_snoc.
  set (stats := foldl (count_model counts) ∅ ms) in *. clearbody stats. unfold count_model.
  rewrite map_app. simpl. unfold popular_entry. rewrite !mtally_snoc. unfold named at 1 2.
  pose proof (mtally_bound (fun _ => true) name ms). pose proof (mtally_bound mi_Loaded name ms).
  destruct (String.eqb_spec (mi_Name m) name) as [<-|Hne]; simpl.
  - rewrite lookup_insert_eq, decide_True by set_solver. f_equal. rewrite IH. case_decide as Hin; simpl.
    + rewrite !wrap64_id by (unfold in_int64, min_int64, max_int64 in *; lia). by destruct (mi_Loaded m); rewrite ?Z.add_0_r.
    + assert (Hz : forall p, mtally p (mi_Name m) ms = 0); [|rewrite !Hz; by destruct (mi_Loaded m)].
      intros p. unfold mtally. destruct (List.filter _ ms) as [|x l] eqn:E; [done|]. exfalso. apply Hin.
      assert (Hx : x ∈ List.filter (fun x => named (mi_Name m) x && p x) ms) by (rewrite E; left).
      apply elem_of_filter_b in Hx as [Hx [Hn _]%andb_true_iff]. apply String.eqb_eq in Hn. rewrite <-Hn.
      by apply list_elem_of_In, in_map, list_elem_of_In.
  - rewrite lookup_insert_ne, IH, !Z.add_0_r by done. by repeat case_decide; set_solver.
Qed.

Lemma popular_le_total a b : popular_le a b = true \/ popular_le b a = true.
Proof.
  unfold popular_le. rewrite (Z.eqb_sym (pm_LoadedWorkerCount b)).
  destruct (Z.eqb_spec (pm_LoadedWorkerCount a) (pm_LoadedWorkerCount b)); [apply string_leb_total|lia].
Qed.

Lemma popular_le_trans a b c : popular_le a b = true -> popular_le b c = true -> popular_le a c = true.
Proof.
  unfold popular_le.
  destruct (Z.eqb_spec (pm_LoadedWorkerCount a) (pm_LoadedWorkerCount b)), (Z.eqb_spec (pm_LoadedWorkerCount b) (pm_LoadedWorkerCount c)),
    (Z.eqb_spec (pm_LoadedWorkerCount a) (pm_LoadedWorkerCount c)); try lia. apply string_leb_trans.
Qed.

Lemma popular_le_name a b : popular_le a b = true -> popular_le b a = true -> pm_Model a = pm_Model b.
Proof.
  unfold popular_le. rewrite (Z.eqb_sym (pm_LoadedWorkerCount b)).
  destruct (Z.eqb_spec (pm_LoadedWorkerCount a) (pm_LoadedWorkerCount b)); [apply string_leb_antisym|lia].
Qed.

Lemma cached_models_perm o o' : o ≡ₚ o' -> cached_models o ≡ₚ cached_models o'.
Proof. intros Hp. unfold cached_models. rewrite <-!flat_map_concat_map. by apply Permutation_flat_map. Qed.

Section popular.
Context (range : nat -> forall A, gmap string A -> list (string * A)).
Context (range_perm : forall k A (m : gmap string A), range k A m ≡ₚ map_to_list m).

(** The entries are those of the names, whatever the order of the ranges. *)
Lemma popular_table counts cache ms :
  ms ≡ₚ cached_models (map_to_list cache) -> Z.of_nat (length ms) <= max_int64 ->
  map snd (range 1 _ (foldl (count_model counts) ∅ (cached_models (range 0 _ cache)))) ≡ₚ
  map (popular_entry counts ms) (remove_dups (map mi_Name ms)).
Proof using range_perm.
  intros Hms Hl. rewrite range_perm.
  assert (Hc : cached_models (range 0 _ cache) ≡ₚ ms) by (rewrite Hms; apply cached_models_perm, range_perm).
  set (stats := foldl (count_model counts) ∅ (cached_models (range 0 _ cache))).
  assert (Hs : forall name, stats !! name = if decide (name ∈ map mi_Name ms) then Some (popular_entry counts ms name) else None).
  { intros name. subst stats. rewrite count_fold by by rewrite Hc. unfold popular_entry.
    rewrite !(mtally_perm _ _ _ _ Hc). assert (Hin : name ∈ map mi_Name (cached_models (range 0 _ cache)) <-> name ∈ map mi_Name ms).
    { by rewrite Hc. }
    repeat case_decide; tauto. }
  apply NoDup_Permutation.
  - apply (NoDup_fmap_1 pm_Model). change (fmap (M := list) pm_Model) with (map pm_Model). rewrite map_map.
    rewrite (map_ext_in _ fst).
    + apply NoDup_fst_map_to_list.
    + intros [n p] Hin%list_elem_of_In%elem_of_map_to_list. rewrite Hs in Hin. case_decide; [|done]. by injection Hin as <-.
  - apply (NoDup_fmap_1 pm_Model). change (fmap (M := list) pm_Model) with (map pm_Model). rewrite map_map.
    rewrite (map_ext _ id) by done. rewrite map_id. apply NoDup_remove_dups.
  - intros p. rewrite !list_elem_of_In, !in_map_iff. split.
    + intros ([n x] & <- & Hin%list_elem_of_In%elem_of_map_to_list). rewrite Hs in Hin. case_decide as Hn; [|done].
      injection Hin as <-. exists n. split; [done|]. apply list_elem_of_In. by rewrite elem_of_remove_dups.
    + intros (n & <- & Hn%list_elem_of_In). rewrite elem_of_remove_dups in Hn. exists (n, popular_entry counts ms n). split; [done|].
      apply list_elem_of_In, elem_of_map_to_list. rewrite Hs, decide_True by done. done.
Qed.

Lemma popular_sorted counts cache :
  let ms := cached_models (map_to_list cache) in
  Z.of_nat (length ms) <= max_int64 ->
  popular_models range counts cache = sort_by popular_le (map (popular_entry counts ms) (remove_dups (map mi_Name ms))).
Proof using range_perm.
  intros ms Hms. pose proof (popular_table counts cache ms ltac:(done) Hms) as Hp.
  apply sort_by_unique; [apply popular_le_total|apply popular_le_trans| |exact Hp].
  intros x y Hx Hy H1 H2. rewrite Hp in Hx. pose proof (popular_le_name _ _ H1 H2) as Hn.
  apply list_elem_of_In, in_map_iff in Hx as (n & <- & _), Hy as (n' & <- & _). simpl in Hn. by rewrite Hn.
Qed.
End popular.

(** The list of popular models has one entry for each model that a cached
    worker advertises, with the exact number of advertisements, of loaded ones
    and of calls; it is sorted by loaded workers and name, and it does not
    depend on the order the maps are visited in. *)
Theorem popular_models_spec range range' counts cache :
  (forall k A (m : gmap string A), range k A m ≡ₚ map_to_list m) ->
  (forall k A (m : gmap string A), range' k A m ≡ₚ map_to_list m) ->
  let ms := cached_models (map_to_list cache) in
  Z.of_nat (length ms) <= max_int64 ->
  let l := popular_models range counts cache in
  (forall p, p ∈ l <-> exists m, m ∈ ms /\ p = popular_entry counts ms (mi_Name m)) /\
  NoDup (map pm_Model l) /\ StronglySorted (fun a b => popular_le a b = true) l /\
  popular_models range' counts cache = l.
Proof.
  intros Hr Hr' ms Hms l.
  assert (Hl : l = sort_by popular_le (map (popular_entry counts ms) (remove_dups (map mi_Name ms)))) by by apply popular_sorted.
  split_and!.
  - intros p. rewrite Hl, elem_of_sort_by, list_elem_of_In, in_map_iff. setoid_rewrite <-list_elem_of_In.
    setoid_rewrite elem_of_remove_dups. setoid_rewrite list_elem_of_In. setoid_rewrite in_map_iff.
    setoid_rewrite <-list_elem_of_In. naive_solver.
  - rewrite Hl, sort_by_perm, map_map, (map_ext _ id) by done. rewrite map_id. apply NoDup_remove_dups.
  - rewrite Hl. apply sort_by_sorted; [apply popular_le_total|apply popular_le_trans].
  - rewrite Hl. by apply popular_sorted.
Qed.

(** ** Registration over HTTP *)

Section registering.
Context (split_host : string -> option string) (parse_ip : string -> option ip).

Lemma peer_identity_spec dev remote worker worker' ip :
  peer_identity split_host parse_ip dev remote worker = inl (worker', ip) ->
  worker' = with_IP ip worker /\ if dev then routable_ip split_host parse_ip remote = Some ip else ip = wi_IP worker.
Proof using.
  unfold peer_identity. destruct dev.
  - destruct (routable_ip _ _ _); [|done]. by intros [= <- <-].
  - destruct (negb _ && negb _); [done|]. intros [= <- <-]. split; [by destruct worker|done].
Qed.

Lemma HandleEvent_added now worker r :
  mr_workers (HandleEvent now {| de_Type := EventAdded; de_Worker := worker; de_Time := zero_time |} r) =
  <[wi_ID worker := {| ws_info := with_LastSeen now worker; ws_lastSeen := now; ws_available := true |}]> (mr_workers r).
Proof using.
  apply map_eq. intros id. rewrite HandleEvent_lookup. simpl. case_bool_decide as Hid; [subst|].
  - by rewrite lookup_insert_eq.
  - by rewrite lookup_insert_ne.
Qed.

(** Registering over HTTP.  A request is accepted exactly when it is a POST
    of a worker with an ID and a port whose peer the server can name (in
    development by the address it connects from, in production by the loopback
    address it claims), and no worker with another address holds the ID.  It
    then replaces the entry of that ID alone, available, with the peer's
    address and seen now; a request that is refused changes nothing. *)
Theorem dev_register_spec now m remote worker s r :
  rt_reg s = Some r ->
  exists s' w, handleDevRegister split_host parse_ip now m remote (Some worker) new_writer s = Some (s', w) /\
    (rw_status w = Some 200 <->
       m = POST /\ wi_ID worker <> "" /\ 0 < wi_Port worker <= 65535 /\
       exists ip, peer_identity split_host parse_ip (rt_dev s) remote worker = inl (with_IP ip worker, ip) /\
         forall st, mr_workers r !! wi_ID worker = Some st -> wi_IP (ws_info st) = ip) /\
    (if decide (rw_status w = Some 200) then
       exists ip r', (if rt_dev s then routable_ip split_host parse_ip remote = Some ip else ip = wi_IP worker) /\
         s' = set_registry (Some r') s /\
         mr_workers r' = <[wi_ID worker :=
           {| ws_info := with_LastSeen now (with_Status StatusAvailable (with_IP ip worker));
              ws_lastSeen := now; ws_available := true |}]> (mr_workers r)
     else s' = s).
Proof using.
  intros Hr. unfold handleDevRegister. destruct m; [eexists _, _; split; [done|]; simpl; naive_solver| |eexists _, _; split; [done|]; simpl; naive_solver].
  destruct (String.eqb_spec (wi_ID worker) "") as [Hid|Hid]; [eexists _, _; split; [done|]; simpl; naive_solver|].
  destruct ((wi_Port worker <=? 0) || (65535 <? wi_Port worker)) eqn:Ep.
  { eexists _, _. split; [done|]. simpl. split; [|done]. split; [done|]. intros (_ & _ & ? & _). lia. }
  destruct (peer_identity split_host parse_ip (rt_dev s) remote worker) as [[worker' ip]|[status code]] eqn:Ei.
  - apply peer_identity_spec in Ei as Hpeer. destruct Hpeer as [-> Hip]. rewrite Hr. unfold Registry.Get.
    destruct (mr_workers r !! wi_ID worker) as [st|] eqn:Est.
    + simpl. rewrite Est. simpl. destruct (String.eqb_spec (wi_IP (ws_info st)) ip) as [Heq|Hne]; simpl.
      * eexists _, _. split; [done|]. simpl. split; [naive_solver lia|]. eexists ip, _. split_and!; [done|done|].
        by rewrite HandleEvent_added.
      * eexists _, _. split; [done|]. simpl. split; [|done]. naive_solver.
    + simpl. rewrite Est. simpl. eexists _, _. split; [done|]. simpl. split; [naive_solver lia|]. eexists ip, _.
      split_and!; [done|done|]. by rewrite HandleEvent_added.
  - assert (Hst : status <> 200).
    { unfold peer_identity in Ei. destruct (rt_dev s); [destruct (routable_ip _ _ _)|destruct (negb _ && negb _)]; naive_solver. }
    eexists _, _. split; [done|]. simpl. rewrite decide_False by congruence. split; [|done]. naive_solver.
Qed.
End registering.

(** ** Concrete servers *)

Definition ex_range (k : nat) (A : Type) (m : gmap string A) : list (string * A) := map_to_list m.

Lemma ex_range_perm k A (m : gmap string A) : ex_range k A m ≡ₚ map_to_list m.
Proof. done. Qed.

Definition ex_aliases : gmap string AliasTarget := {[ "fast" := {| Canonical := "llama" |} ]}.

Lemma ex_aliases_wf : alias_wf ex_aliases.
Proof. unfold ex_aliases. intros k t [<- <-]%lookup_singleton_Some. split; (split; [done|reflexivity]). Qed.

Definition ex_worker_with (id : string) (ms : list ModelInfo) : WorkerInfo :=
  with_Capabilities (with_Models ms (wi_Capabilities zero_WorkerInfo)) (with_ID id zero_WorkerInfo).

Definition ex_cache : CapabilityCache :=
  {| cc_cache := <["b" := ex_worker_with "b" [synthetic "llama" ""; synthetic "qwen" ""]]>
                   {[ "a" := ex_worker_with "a" [synthetic "llama" ""] ]};
     cc_stats := ∅ |}.

Definition ex_meta : Server :=
  let s := SetModelAliases (Some ex_aliases) (NewServer (Some ex_registry) true "") in
  mkServer (rt_reg s) (Some ex_cache) (rt_dev s) (rt_apiKey s) (rt_hub s) (rt_counter s) (rt_proxyTimeout s) (rt_maxAttempts s)
    (rt_retryBudget s) (rt_modelLoadTimeout s) (rt_autoRouting s) (rt_modelAliases s) (rt_tracker s).

Example ex_listed : map mi_Name (listed_models ex_range ex_meta) = ["qwen"; "fast"].
Proof. vm_compute. reflexivity. Qed.

Example ex_popular :
  map (fun p => (pm_Model p, pm_WorkerCount p, pm_CallCount p)) (popular_models ex_range {[ "llama" := 3 ]} (cc_cache ex_cache)) =
  [("llama", 2, 3); ("qwen", 1, 0)].
Proof. vm_compute. reflexivity. Qed.

Lemma listed_models_routable_witness : synthetic "fast" "alias" ∈ listed_models ex_range ex_meta.
Proof.
  destruct (listed_models_routable ex_range ex_range_perm ex_meta ex_cache eq_refl ex_aliases_wf) as [H _].
  apply H. right. left. split; [by eexists|done].
Defined.

Lemma popular_models_spec_witness :
  popular_entry ∅ (cached_models (map_to_list (cc_cache ex_cache))) "qwen" ∈ popular_models ex_range ∅ (cc_cache ex_cache).
Proof.
  destruct (popular_models_spec ex_range ex_range ∅ (cc_cache ex_cache) ex_range_perm ex_range_perm) as (H & _); [by vm_compute|].
  apply H. exists (synthetic "qwen" ""). split; [|done].
  apply (list_elem_of_lookup_2 _ 2%nat). vm_compute. reflexivity.
Defined.

Definition ex_split_host (s : string) : option string := fst <$> Cut s ":"%char.
Definition ex_parse_ip (s : string) : option ip := Some {| ip_loopback := false; ip_v4 := Some s |}.

Definition ex_dialled : WorkerInfo :=
  {| wi_ID := "w9"; wi_Hostname := "h"; wi_IP := "10.0.0.1"; wi_Port := 8081; wi_Capabilities := wi_Capabilities zero_WorkerInfo;
     wi_Status := StatusAvailable; wi_Version := "v1"; wi_Transport := ""; wi_APIKey := ""; wi_LastSeen := zero_time |}.

Lemma dev_register_spec_witness :
  exists s' w, handleDevRegister ex_split_host ex_parse_ip second POST "192.168.1.7:4711" (Some ex_dialled) new_writer ex_meta = Some (s', w) /\
    rw_status w = Some 200.
Proof.
  destruct (dev_register_spec ex_split_host ex_parse_ip second POST "192.168.1.7:4711" ex_dialled ex_meta ex_registry eq_refl) as (s' & w & H & [_ Hok] & _).
  exists s', w. split; [exact H|]. apply Hok. split_and!; [done|done|done|done|]. exists "192.168.1.7". split; [by vm_compute|]. by intros st ?.
Defined.
