(* ===== verification/Discovery.v ===== *)
(** * Discovery: workers found over mDNS ([pkg/discovery])

    What a worker announces, what the router's listener makes of the entries of
    a probe, and the pipeline from the listener through its channel to the
    registry.  The mDNS library, JSON and addresses are arguments. *)

From S2P Require Import Prelude GoStrings Protocol Registry.

#[local] Open Scope Z_scope.
#[local] Open Scope list_scope.

(** ** Configuration ([config.go]) *)

Record Config := mkConfig {
  dc_ServiceType : string;
  dc_Domain : string;
  dc_ProbeInterval : Duration;
  dc_ProbeTimeout : Duration;
  dc_HeartbeatTTL : Duration;
  dc_Interface : string;
  dc_LocalOnly : bool;
  dc_InstanceName : string;
}.

Definition Defaults : Config :=
  mkConfig "_infermesh-worker._tcp.local." "local." (5 * second) (2 * second) (30 * second) "" false "".

Definition DevDefaults : Config :=
  mkConfig "_infermesh-worker._tcp.local." "local." (5 * second) (2 * second) (30 * second) "" true "".

Inductive config_error := NoServiceType | NoDomain | ShortInterval | ShortTimeout | ShortTTL.

Definition Validate (c : Config) : option config_error :=
  if String.eqb (dc_ServiceType c) "" then Some NoServiceType
  else if String.eqb (dc_Domain c) "" then Some NoDomain
  else if dc_ProbeInterval c <? 1 * second then Some ShortInterval
  else if dc_ProbeTimeout c <? 100 * millisecond then Some ShortTimeout
  else if dc_HeartbeatTTL c <? 1 * second then Some ShortTTL
  else None.

Definition service_of (c : Config) : string := TrimSuffix (dc_ServiceType c) ".local.".

(** ** The announcer ([mdns_announcer.go]) *)

(** What is given to [mdns.NewMDNSService]. *)
Record announcement := {
  sv_Instance : string;
  sv_Service : string;
  sv_HostName : string;
  sv_Port : Z;
  sv_IPs : list string;
  sv_TXT : list string;
}.

(** [an_server] is what is served, [None] without a server. *)
Record mdnsAnnouncer := { an_config : Config; an_server : option announcement; an_info : WorkerInfo }.

Inductive backend := BackendMDNS | BackendCentralized | BackendOther (name : string).

Inductive discovery_error := BadConfig (e : config_error) | UnknownBackend | Serialize (e : serialize_result) | CreateService | CreateServer.

Definition NewAnnouncer (b : backend) (c : Config) : mdnsAnnouncer + discovery_error :=
  match b with
  | BackendMDNS =>
      match Validate c with
      | Some e => inr (BadConfig e)
      | None => inl {| an_config := c; an_server := None; an_info := zero_WorkerInfo |}
      end
  | _ => inr UnknownBackend
  end.

Definition discovery_info (w : WorkerInfo) : DiscoveryInfo :=
  {| di_ID := wi_ID w; di_Hostname := wi_Hostname w; di_IP := wi_IP w; di_Port := wi_Port w; di_Version := wi_Version w;
     di_Status := wi_Status w |}.

Section announce.
(** [parse_ip] is [net.ParseIP] followed by [String]; the last two tell whether
    the library refuses the service and the server. *)
Context (marshal : DiscoveryInfo -> option string) (parse_ip : string -> option string).
Context (bad_service bad_server : announcement -> bool).

Definition announcement_of (c : Config) (info : WorkerInfo) (txt : string) : announcement :=
  {| sv_Instance := wi_ID info +:+ "@" +:+ wi_Hostname info;
     sv_Service := service_of c;
     sv_HostName := if HasSuffix (wi_Hostname info) "." then wi_Hostname info else wi_Hostname info +:+ ".";
     sv_Port := wi_Port info;
     sv_IPs := match parse_ip (wi_IP info) with
               | Some ip => if String.eqb (wi_IP info) "" then ["127.0.0.1"] else [ip]
               | None => ["127.0.0.1"]
               end;
     sv_TXT := [txt] |}.

Definition Announce (now : Time) (info : WorkerInfo) (a : mdnsAnnouncer) : mdnsAnnouncer * option discovery_error :=
  let info := with_LastSeen now info in
  match SerializeDiscoveryInfo marshal (discovery_info info) with
  | SerOK txt =>
      let svc := announcement_of (an_config a) info txt in
      if bad_service svc then (a, Some CreateService)
      else if bad_server svc then (a, Some CreateServer)
      else ({| an_config := an_config a; an_server := Some svc; an_info := info |}, None)
  | e => (a, Some (Serialize e))
  end.
End announce.

(** [Stop]; [fault] is the error of the server's [Shutdown]. *)
Definition Stop_announcer (fault : bool) (a : mdnsAnnouncer) : bool := if an_server a then fault else false.

(** ** The listener ([mdns_listener.go]) *)

(** An entry of a query; [se_AddrV4] is the IPv4 address as a text. *)
Record ServiceEntry := { se_Name : string; se_Host : string; se_AddrV4 : option string; se_Port : Z; se_Info : string }.

(** Capacity of the channel of events. *)
Definition eventCap : nat := 128.

(** The loop runs, waits for its next tick ([Some []]) or has an entry to handle
    next; [None] when it has returned and closed [done]. *)
Record mdnsListener := {
  ls_config : Config;
  ls_events : list DiscoveryEvent;
  ls_probe : option (list ServiceEntry);
  ls_cancelled : bool;
}.

Definition NewListener (b : backend) (c : Config) : mdnsListener + discovery_error :=
  match b with
  | BackendMDNS =>
      match Validate c with
      | Some e => inr (BadConfig e)
      | None => inl {| ls_config := c; ls_events := []; ls_probe := Some []; ls_cancelled := false |}
      end
  | _ => inr UnknownBackend
  end.

Section listen.
Context (unmarshal : string -> option DiscoveryInfo).

Definition with_Port (port : Z) (w : WorkerInfo) : WorkerInfo :=
  {| wi_ID := wi_ID w; wi_Hostname := wi_Hostname w; wi_IP := wi_IP w; wi_Port := port; wi_Capabilities := wi_Capabilities w;
     wi_Status := wi_Status w; wi_Version := wi_Version w; wi_Transport := wi_Transport w; wi_APIKey := wi_APIKey w;
     wi_LastSeen := wi_LastSeen w |}.

(** The body of the loop of [doProbe] up to the send; [None] is a [continue]. *)
Definition event_of (c : Config) (now : Time) (e : ServiceEntry) : option DiscoveryEvent :=
  let servicePrefix := TrimSuffix (service_of c) ".local." in
  if negb (Contains (se_Name e) servicePrefix) then None
  else
    ip ← se_AddrV4 e;
    disc ← unmarshal (se_Info e);
    let info := with_IP ip (ToWorkerInfo disc) in
    let info := if 0 <? se_Port e then with_Port (se_Port e) info else info in
    Some {| de_Type := EventUpdated; de_Worker := with_LastSeen now info; de_Time := now |}.

Definition with_events (es : list DiscoveryEvent) (l : mdnsListener) : mdnsListener :=
  {| ls_config := ls_config l; ls_events := es; ls_probe := ls_probe l; ls_cancelled := ls_cancelled l |}.
Definition with_probe (p : option (list ServiceEntry)) (l : mdnsListener) : mdnsListener :=
  {| ls_config := ls_config l; ls_events := ls_events l; ls_probe := p; ls_cancelled := ls_cancelled l |}.
Definition Stop (l : mdnsListener) : mdnsListener :=
  {| ls_config := ls_config l; ls_events := ls_events l; ls_probe := ls_probe l; ls_cancelled := true |}.

(** What a step is seen to do: start a probe that finds entries, send the event of
    an entry, hand an event to the registry, or another operation on the
    registry. *)
Inductive action := Quiet | Probed (es : list ServiceEntry) | Found (e : ServiceEntry) (ev : DiscoveryEvent) | Bridged (now : Time) (ev : DiscoveryEvent) | On (o : rop).

(** The listener, the bridge of [cmd/router/main.go] and the registry, on which
    other operations run too.  A probe may start after [Stop]: when the ticker and
    the context are both ready the [select] takes either. *)
Inductive dstep : mdnsListener * memoryRegistry -> action -> mdnsListener * memoryRegistry -> Prop :=
| probe_starts l r es : ls_probe l = Some [] -> dstep (l, r) (Probed es) (with_probe (Some es) l, r)
| entry_skipped l r now e es :
    ls_probe l = Some (e :: es) -> event_of (ls_config l) now e = None -> dstep (l, r) Quiet (with_probe (Some es) l, r)
| entry_sent l r now e es ev buf :
    ls_probe l = Some (e :: es) -> event_of (ls_config l) now e = Some ev -> try_send eventCap ev (ls_events l) = Some buf ->
    dstep (l, r) (Found e ev) (with_events buf (with_probe (Some es) l), r)
| probe_cancelled l r now e es ev :
    ls_probe l = Some (e :: es) -> event_of (ls_config l) now e = Some ev -> ls_cancelled l = true ->
    dstep (l, r) Quiet (with_probe (Some []) l, r)
| loop_returns l r : ls_probe l = Some [] -> ls_cancelled l = true -> dstep (l, r) Quiet (with_probe None l, r)
| stopped l r : dstep (l, r) Quiet (Stop l, r)
| bridged l r now ev buf :
    ls_events l = ev :: buf -> dstep (l, r) (Bridged now ev) (with_events buf l, HandleEvent now ev r)
| other l r o : valid_op r o -> dstep (l, r) (On o) (l, exec r o).

Inductive druns : mdnsListener * memoryRegistry -> list action -> mdnsListener * memoryRegistry -> Prop :=
| druns_nil st : druns st [] st
| druns_cons st a st' l st'' : dstep st a st' -> druns st' l st'' -> druns st (a :: l) st''.

(** ** The pipeline keeps the events *)

Definition found_entries (l : list action) : list (ServiceEntry * DiscoveryEvent) :=
  omap (fun a => match a with Found e ev => Some (e, ev) | _ => None end) l.
Definition found (l : list action) : list DiscoveryEvent := map snd (found_entries l).
Definition probed (l : list action) : list ServiceEntry := concat (omap (fun a => match a with Probed es => Some es | _ => None end) l).
Definition bridged_events (l : list action) : list DiscoveryEvent := omap (fun a => match a with Bridged _ ev => Some ev | _ => None end) l.

(** The operations of a run on the registry. *)
Definition ops_of (l : list action) : list rop :=
  omap (fun a => match a with Bridged now ev => Some (OpEvent now ev) | On o => Some o | _ => None end) l.

(** The event of an entry of the service: an update of the worker of its record,
    at the IPv4 address of the entry and at its port if it has one, seen when it
    was found, and nothing else. *)
Definition announces (c : Config) (e : ServiceEntry) (ev : DiscoveryEvent) : Prop :=
  Contains (se_Name e) (TrimSuffix (service_of c) ".local.") = true /\ de_Type ev = EventUpdated /\
  exists ip disc, se_AddrV4 e = Some ip /\ unmarshal (se_Info e) = Some disc /\
    de_Worker ev = {| wi_ID := di_ID disc; wi_Hostname := di_Hostname disc; wi_IP := ip;
                      wi_Port := if 0 <? se_Port e then se_Port e else di_Port disc; wi_Capabilities := zero_Capabilities;
                      wi_Status := di_Status disc; wi_Version := di_Version disc; wi_Transport := ""; wi_APIKey := "";
                      wi_LastSeen := de_Time ev |}.

Lemma event_of_inv c now e ev : event_of c now e = Some ev -> announces c e ev.
Proof using.
  unfold event_of, announces. destruct (Contains _ _) eqn:Hc; [|done]. simpl.
  intros (ip & Hip & (disc & Hd & [= <-])%bind_Some)%bind_Some. split_and!; [done..|]. exists ip, disc. split_and!; [done..|].
  simpl. by case_match.
Qed.

Definition sound (st : mdnsListener * memoryRegistry) : Prop := (length (ls_events st.1) <= eventCap)%nat.

Lemma dstep_sound st a st' : dstep st a st' -> sound st -> sound st'.
Proof using.
  unfold sound. intros Hs Hl. destruct Hs as [l r es|l r now e es|l r now e es ev buf _ Hev Hb|l r now e es ev| | |l r now ev buf Hb|l r o]; try done.
  - apply try_send_Some in Hb as [Hlt ->]. simpl in *. rewrite length_app. simpl. lia.
  - simpl in Hl. rewrite Hb in Hl. simpl in *. lia.
Qed.

Lemma dstep_events st a st' : dstep st a st' -> ls_events st.1 ++ found [a] = bridged_events [a] ++ ls_events st'.1.
Proof using.
  intros Hs. destruct Hs as [l r es|l r now e es|l r now e es ev buf _ _ Hb|l r now e es ev| | |l r now ev buf Hb|l r o]; simpl; rewrite ?app_nil_r; try done.
  by apply try_send_Some in Hb as [_ ->].
Qed.

(** Every event is that of an entry of a probe. *)
Lemma druns_found c st l st' before :
  druns st l st' -> ls_config st.1 = c -> default [] (ls_probe st.1) ⊆ before ->
  Forall (fun p => p.1 ∈ before ++ probed l /\ announces c p.1 p.2) (found_entries l).
Proof using.
  intros Hr. revert before. induction Hr as [st|st a st' l st'' Hs _ IH]; intros before Hc Hb; [constructor|].
  change (a :: l) with ([a] ++ l). unfold found_entries, probed. rewrite !omap_app, concat_app. fold (found_entries l) (probed l).
  assert (Hc' : ls_config st'.1 = c) by by destruct Hs.
  assert (Hb' : default [] (ls_probe st'.1) ⊆ before ++ probed [a]).
  { destruct Hs; simpl in *; rewrite ?app_nil_r; try match goal with H : ls_probe _ = Some _ |- _ => rewrite H in Hb; simpl in Hb end; set_solver. }
  apply Forall_app. split.
  - destruct Hs as [l1 r1 es|l1 r1 now e es|l1 r1 now e es ev buf Hp Hev _|l1 r1 now e es ev| | | |]; simpl; try constructor; [|constructor].
    simpl in Hb, Hc. rewrite Hp in Hb. simpl in *. subst c. split; [set_solver|by eapply event_of_inv].
  - eapply Forall_impl; [exact (IH _ Hc' Hb')|]. intros p [Hp Ha]. split; [|done]. rewrite <-(assoc_L (++)) in Hp. exact Hp.
Qed.

Lemma dstep_registry st a st' : dstep st a st' -> exists ops, ops = ops_of [a] /\ run st.2 ops st'.2.
Proof using.
  intros Hs. eexists. split; [done|]. destruct Hs; simpl; try constructor; try done; try constructor.
Qed.

Lemma run_app r ops r' ops' r'' : run r ops r' -> run r' ops' r'' -> run r (ops ++ ops') r''.
Proof using. induction 1; [done|]. intros. simpl. econstructor; eauto. Qed.

Lemma druns_registry st l st' : druns st l st' -> run st.2 (ops_of l) st'.2.
Proof using.
  induction 1 as [|st a st' l st'' Hs _ IH]; [constructor|]. apply dstep_registry in Hs as (ops & -> & Hs).
  change (a :: l) with ([a] ++ l). unfold ops_of. rewrite omap_app. by eapply run_app.
Qed.

End listen.


(** ** What the registry keeps of a worker that is only heard over mDNS *)

(** The last event of a worker with the time it was handled, and the longest
    silence that a sweep has seen since. *)
Definition silence (id : string) (s : option (Time * DiscoveryEvent * Duration)) (o : rop) : option (Time * DiscoveryEvent * Duration) :=
  match o with
  | OpEvent now e => if String.eqb (wi_ID (de_Worker e)) id then Some (now, e, 0) else s
  | OpSweep now _ => '(t, e, d) ← s; Some (t, e, Z.max d (time_sub now t))
  | OpSubscribe | OpReceive _ => s
  end.

Definition verdict (c : Registry.Config) (s : option (Time * DiscoveryEvent * Duration)) : option workerState :=
  '(t, e, d) ← s;
  let st := {| ws_info := with_LastSeen t (de_Worker e); ws_lastSeen := t; ws_available := true |} in
  if cfg_RemoveTTL c <=? d then None else if cfg_UnavailableTTL c <=? d then Some (expire st) else Some st.

(** The events of a worker are announcements. *)
Definition only_heard (id : string) (o : rop) : Prop :=
  match o with OpEvent _ e => wi_ID (de_Worker e) = id -> de_Type e = EventUpdated \/ de_Type e = EventAdded | _ => True end.

Lemma verdict_step c id s o :
  0 < cfg_UnavailableTTL c <= cfg_RemoveTTL c -> only_heard id o -> track c id (verdict c s) o = verdict c (silence id s o).
Proof.
  intros Hc Ho. destruct o as [now e|now order| |ch]; simpl in *; [| |done..].
  - destruct (String.eqb_spec (wi_ID (de_Worker e)) id) as [He|He].
    + rewrite bool_decide_eq_true_2 by done. unfold track_event. simpl.
      rewrite !(proj2 (Z.leb_gt _ _)) by lia. by destruct (Ho He) as [-> | ->].
    + by rewrite bool_decide_eq_false_2 by done.
  - destruct s as [[[t e] d]|]; [|done]. simpl. unfold track_sweep.
    destruct (Z.leb_spec (cfg_RemoveTTL c) d), (Z.leb_spec (cfg_UnavailableTTL c) d); simpl; try lia;
      destruct (Z.leb_spec (cfg_RemoveTTL c) (time_sub now t)), (Z.leb_spec (cfg_UnavailableTTL c) (time_sub now t));
      destruct (Z.leb_spec (cfg_RemoveTTL c) (Z.max d (time_sub now t))), (Z.leb_spec (cfg_UnavailableTTL c) (Z.max d (time_sub now t)));
      simpl; try done; lia.
Qed.

Lemma verdict_fold c id ops : forall s,
  0 < cfg_UnavailableTTL c <= cfg_RemoveTTL c -> Forall (only_heard id) ops ->
  foldl (track c id) (verdict c s) ops = verdict c (foldl (silence id) s ops).
Proof.
  induction ops as [|o ops IH]; intros s Hc Ho; [done|]. inversion Ho as [|? ? H1 H2]; subst. simpl.
  rewrite verdict_step by done. by apply IH.
Qed.

(** Heard or forgotten.  In any run of a registry in which a worker is only
    announced, its entry is decided by its last announcement and the longest
    silence that a sweep has seen since: none before the first announcement;
    the announced worker, available, below the first limit; the same, marked
    unavailable, below the second; none from there on.  In particular a worker
    heard less than a minute before every sweep is never lost, and one that leaves,
    which no event tells, stays available until a sweep a minute later. *)
Theorem heard_or_forgotten c r0 ops r id :
  Registry.New c = inl r0 -> run r0 ops r -> Forall (only_heard id) ops ->
  mr_workers r !! id = verdict c (foldl (silence id) None ops).
Proof.
  intros Hn Hr Ho. pose proof (wf_New _ _ Hn) as Hwf. destruct (run_lookup _ _ _ id Hwf Hr) as [_ ->].
  unfold Registry.New in Hn. destruct (Registry.Validate c) as [|] eqn:Hv; [done|]. injection Hn as <-. simpl.
  rewrite lookup_empty. apply (verdict_fold c id ops None); [|done]. unfold Registry.Validate in Hv.
  repeat case_match; try done. unfold second, millisecond in *. lia.
Qed.

(** ** From the announcement to the entry *)

Section found.
Context (marshal : DiscoveryInfo -> option string) (unmarshal : string -> option DiscoveryInfo) (parse_ip : string -> option string).
Context (bad_service bad_server : announcement -> bool).

(** What a query finds of a service at an IPv4 address.  How the library writes
    the instance, and the text of the record, is left open: a library that hands
    names and strings over as a zone file has them escapes the at sign of the
    instance and the quotes of the record. *)
Definition entry_for (a : announcement) (ip : string) (e : ServiceEntry) : Prop :=
  (exists instance, se_Name e = instance +:+ "." +:+ sv_Service a +:+ ".local.") /\ se_AddrV4 e = Some ip /\ se_Port e = sv_Port a.

Lemma prefix_found s name : (exists a b, name = a +:+ s +:+ b) -> Contains name (TrimSuffix s ".local.") = true.
Proof using.
  intros (a & b & ->). apply Contains_spec. destruct (TrimSuffix_cases s ".local.") as [-> |Hs]; [by exists a, b|].
  exists a, (".local." +:+ b). rewrite Hs at 1. by rewrite !append_assoc.
Qed.

(** A worker that announces itself is found exactly when the router decodes the
    text that the library hands over of its record.  The record fits the 255 bytes
    of a TXT string.  If the text reads as the record, a router with the same
    service makes an event of it, and the registry that is given the event then
    has the announced worker, at the address and the port of the network,
    available and seen at that moment, without capabilities and without a
    transport, whatever worker had that ID before and wherever it was.  If the
    text does not decode, the entry is skipped and the worker is never known. *)
Theorem announcement_heard a a' c now info ip e t1 t2 r svc :
  Announce marshal parse_ip bad_service bad_server now info a = (a', None) ->
  dc_ServiceType c = dc_ServiceType (an_config a) -> 0 < wi_Port info ->
  an_server a' = Some svc -> entry_for svc ip e ->
  Forall (fun txt => Z.of_nat (String.length txt) <= 255 /\ marshal (discovery_info info) = Some txt) (sv_TXT svc) /\
  (unmarshal (se_Info e) = None -> event_of unmarshal c t1 e = None) /\
  (unmarshal (se_Info e) = Some (discovery_info info) -> exists ev, event_of unmarshal c t1 e = Some ev /\
    mr_workers (HandleEvent t2 ev r) =
      <[wi_ID info := {| ws_info := {| wi_ID := wi_ID info; wi_Hostname := wi_Hostname info; wi_IP := ip; wi_Port := wi_Port info;
                                       wi_Capabilities := zero_Capabilities; wi_Status := wi_Status info; wi_Version := wi_Version info;
                                       wi_Transport := ""; wi_APIKey := ""; wi_LastSeen := t2 |};
                         ws_lastSeen := t2; ws_available := true |}]> (mr_workers r)).
Proof using.
  unfold Announce, SerializeDiscoveryInfo. intros Ha Hty Hport Hsvc Hentry.
  change (discovery_info (with_LastSeen now info)) with (discovery_info info) in Ha.
  destruct (marshal _) as [txt|] eqn:Hm; [|done]. destruct (ValidateTXTRecord txt) as [|] eqn:Hv; [done|].
  set (svc' := announcement_of parse_ip (an_config a) (with_LastSeen now info) txt) in *.
  destruct (bad_service svc'); [done|]. destruct (bad_server svc'); [done|]. injection Ha as <-. simpl in Hsvc. injection Hsvc as <-.
  destruct Hentry as ([instance Hname] & Hip & Hpo). simpl in Hpo, Hname.
  assert (Hc : Contains (se_Name e) (TrimSuffix (service_of c) ".local.") = true).
  { apply prefix_found. rewrite Hname. unfold service_of. rewrite Hty.
    exists (instance +:+ "."), ".local.". exact (eq_sym (append_assoc instance "." _)). }
  unfold event_of. rewrite Hc, Hip. simpl. split_and!.
  - apply Forall_singleton. split; [|done].
    unfold ValidateTXTRecord in Hv. destruct (Z.gtb_spec (Z.of_nat (String.length txt)) MaxTXTRecordLength); [done|].
    unfold MaxTXTRecordLength in *. lia.
  - by intros ->.
  - intros ->. rewrite Hpo. simpl. rewrite (proj2 (Z.ltb_lt _ _)) by done. eexists. split; [done|].
    apply map_eq. intros id. rewrite HandleEvent_lookup. unfold track_event. simpl.
    case_bool_decide as Hid; [subst id; by simplify_map_eq|by rewrite lookup_insert_ne].
Qed.
End found.

(** ** A worker on the network *)

#[export] Instance DiscoveryInfo_eq_dec : EqDecision DiscoveryInfo.
Proof. solve_decision. Defined.

Definition ex_worker : WorkerInfo :=
  {| wi_ID := "worker-box-8081"; wi_Hostname := "box"; wi_IP := "10.0.0.7"; wi_Port := 8081; wi_Capabilities := zero_Capabilities;
     wi_Status := StatusAvailable; wi_Version := "1"; wi_Transport := "http"; wi_APIKey := "sesame"; wi_LastSeen := 0 |}.

Definition ex_info : DiscoveryInfo := discovery_info ex_worker.
(** Half a JSON: a text with quotes, read back exactly. *)
Definition ex_quote : string := String (Ascii.ascii_of_nat 34) "".
Definition ex_text : string := "{" +:+ ex_quote +:+ "id" +:+ ex_quote +:+ "}".
Definition ex_marshal (d : DiscoveryInfo) : option string := if decide (d = ex_info) then Some ex_text else None.
Definition ex_unmarshal (s : string) : option DiscoveryInfo := if String.eqb s ex_text then Some ex_info else None.

Definition ex_announcer : mdnsAnnouncer := {| an_config := Defaults; an_server := None; an_info := zero_WorkerInfo |}.
Definition ex_announced_by : mdnsAnnouncer := (Announce ex_marshal Some (fun _ => false) (fun _ => false) 5 ex_worker ex_announcer).1.

Definition ex_entry : ServiceEntry :=
  {| se_Name := "worker-box-8081@box._infermesh-worker._tcp.local."; se_Host := "box."; se_AddrV4 := Some "192.168.1.7"; se_Port := 8081;
     se_Info := ex_text |}.

(** The same from a library that escapes quotes and the at sign. *)
Definition ex_escaped : ServiceEntry :=
  {| se_Name := "worker-box-8081\@box._infermesh-worker._tcp.local."; se_Host := "box."; se_AddrV4 := Some "192.168.1.7"; se_Port := 8081;
     se_Info := "{\" +:+ ex_quote +:+ "id\" +:+ ex_quote +:+ "}" |}.

Definition ex_config : Registry.Config := Registry.Defaults.
Definition ex_empty : memoryRegistry := {| mr_cfg := ex_config; mr_workers := ∅; mr_subs := []; mr_chans := ∅; mr_subFailures := ∅ |}.

Definition ex_service : announcement := default (announcement_of Some Defaults ex_worker "") (an_server ex_announced_by).

(** The worker is found by a library that hands the text over as it is, and not by
    one that escapes it. *)
Lemma announcement_heard_witness :
  (exists ev, event_of ex_unmarshal Defaults 7 ex_entry = Some ev /\
    (ws_info <$> mr_workers (HandleEvent 9 ev ex_empty) !! "worker-box-8081") =
      Some {| wi_ID := "worker-box-8081"; wi_Hostname := "box"; wi_IP := "192.168.1.7"; wi_Port := 8081; wi_Capabilities := zero_Capabilities;
              wi_Status := StatusAvailable; wi_Version := "1"; wi_Transport := ""; wi_APIKey := ""; wi_LastSeen := 9 |}) /\
  event_of ex_unmarshal Defaults 7 ex_escaped = None.
Proof.
  pose proof (fun e => announcement_heard ex_marshal ex_unmarshal Some (fun _ => false) (fun _ => false) ex_announcer ex_announced_by Defaults 5
    ex_worker "192.168.1.7" e 7 9 ex_empty ex_service ltac:(vm_compute; reflexivity) eq_refl eq_refl ltac:(vm_compute; reflexivity)) as H.
  split.
  - destruct (H ex_entry) as (_ & _ & Hf).
    { split; [exists "worker-box-8081@box"; vm_compute; reflexivity|split; reflexivity]. }
    destruct (Hf ltac:(vm_compute; reflexivity)) as (ev & Hev & Hm). exists ev. split; [exact Hev|]. rewrite Hm. vm_compute. reflexivity.
  - destruct (H ex_escaped) as (_ & Hn & _).
    { split; [exists "worker-box-8081\@box"; vm_compute; reflexivity|split; reflexivity]. }
    apply Hn. vm_compute. reflexivity.
Defined.

Definition ex_event : DiscoveryEvent := default {| de_Type := EventAdded; de_Worker := zero_WorkerInfo; de_Time := 0 |} (event_of ex_unmarshal Defaults 7 ex_entry).

(** Heard once, and swept after 59 seconds, after one minute and after two. *)
Definition ex_silent (n : nat) : list rop :=
  OpEvent 0 ex_event :: take n [OpSweep (59 * second) ["worker-box-8081"]; OpSweep (60 * second) ["worker-box-8081"]; OpSweep (120 * second) ["worker-box-8081"]].

Fixpoint valid_ops (r : memoryRegistry) (ops : list rop) : Prop :=
  match ops with [] => True | o :: ops => valid_op r o /\ valid_ops (exec r o) ops end.

Lemma run_execs ops : forall r, valid_ops r ops -> run r ops (foldl exec r ops).
Proof. induction ops as [|o ops IH]; intros r Hv; [apply run_nil|]. destruct Hv as [Ho Hv]. by apply run_cons, IH. Qed.

Lemma ex_silent_run n : run ex_empty (ex_silent n) (foldl exec ex_empty (ex_silent n)).
Proof.
  apply run_execs. do 4 (destruct n as [|n]; [repeat (split; [exact I || (apply (bool_decide_unpack (_ ≡ₚ _)); vm_compute; exact I)|]); exact I|]).
  repeat (split; [exact I || (apply (bool_decide_unpack (_ ≡ₚ _)); vm_compute; exact I)|]). by destruct n.
Qed.

Lemma ex_silent_heard n : Forall (only_heard "worker-box-8081") (ex_silent n).
Proof. constructor; [by left|]. apply Forall_take. repeat constructor. Qed.

Lemma heard_or_forgotten_witness :
  (ws_available <$> mr_workers (foldl exec ex_empty (ex_silent 1)) !! "worker-box-8081") = Some true /\
  (ws_available <$> mr_workers (foldl exec ex_empty (ex_silent 2)) !! "worker-box-8081") = Some false /\
  mr_workers (foldl exec ex_empty (ex_silent 3)) !! "worker-box-8081" = None.
Proof.
  split_and!.
  - rewrite (heard_or_forgotten ex_config ex_empty _ _ _ eq_refl (ex_silent_run 1) (ex_silent_heard 1)). vm_compute. reflexivity.
  - rewrite (heard_or_forgotten ex_config ex_empty _ _ _ eq_refl (ex_silent_run 2) (ex_silent_heard 2)). vm_compute. reflexivity.
  - rewrite (heard_or_forgotten ex_config ex_empty _ _ _ eq_refl (ex_silent_run 3) (ex_silent_heard 3)). vm_compute. reflexivity.
Defined.

Definition ex_listener : mdnsListener := {| ls_config := Defaults; ls_events := []; ls_probe := Some []; ls_cancelled := false |}.

Lemma ex_pipeline :
  druns ex_unmarshal (ex_listener, ex_empty) [Probed [ex_entry]; Found ex_entry ex_event; Bridged 9 ex_event]
    (with_probe (Some []) ex_listener, HandleEvent 9 ex_event ex_empty).
Proof.
  eapply druns_cons; [by apply (probe_starts _ _ _ [ex_entry])|]. eapply druns_cons; [by eapply (entry_sent _ _ _ 7)|].
  eapply druns_cons; [by apply bridged|]. apply druns_nil.
Qed.

