(* ===== verification/Backend.v ===== *)
(** * Backend: the worker's inference backends ([openai.go], [openai_stream.go], [idle.go], [backend_factory.go])

    The OpenAI-compatible backend and its five wrappers.  A call is a function
    of what the HTTP client answers and of the instants it reads; the
    completion loop carries the circuit breaker of [Breaker] through its
    attempts.  A stream is the program its goroutine runs ([plan], computed from
    the lines of the response) over two buffered channels; the consumers are
    the handlers of [WorkerServer] and [WorkerClient].  JSON, URL syntax and the
    HTTP client are arguments. *)

From stdpp Require Import pretty.
From S2P Require Import Prelude GoFloat GoStrings Protocol Breaker.

#[local] Open Scope list_scope.

(** ** Errors, as what the worker reads of them: the text, the status
    [errors.As] finds in a [*BackendHTTPError] and whether [errors.Is] finds
    [context.DeadlineExceeded] *)

Record berr := mkErr { be_text : string; be_status : option Z; be_deadline : bool }.

(** [fmt.Errorf] without and with [%w] at its end. *)
Definition Errorf (text : string) : berr := mkErr text None false.
Definition wrapErr (text : string) (e : berr) : berr := mkErr (text +:+ be_text e) (be_status e) (be_deadline e).

Definition BackendHTTPError (status : Z) (msg : string) : berr :=
  mkErr ("backend returned " +:+ pretty status +:+ ": " +:+ msg) (Some status) false.

Definition res (A : Type) : Type := A + berr.

Definition ebind {A B} (f : A -> res B) (x : res A) : res B := match x with inl a => f a | inr e => inr e end.

Notation "'let?' x := e 'in' k" := (ebind (fun x => k) e) (at level 10, x name, e at level 100, k at level 200).

(** The error of a step with the caller's prefix. *)
Definition label {A} (text : string) (x : res A) : res A := match x with inl a => inl a | inr e => inr (wrapErr text e) end.

(** ** Wire types ([pkg/protocol/api.go]) *)

Record Usage := { us_PromptTokens : Z; us_CompletionTokens : Z; us_TotalTokens : Z }.

Record Choice := {
  ch_Index : Z;
  ch_Message : ChatMessage;
  ch_Delta : ChatMessage;
  ch_Text : string;
  ch_FinishReason : string;
}.

(** [ChatChunk] and [CompletionChunk] have the same fields. *)
Record Chunk := {
  ck_ID : string;
  ck_Object : string;
  ck_Created : Z;
  ck_Model : string;
  ck_Choices : list Choice;
  ck_Usage : option Usage;
}.

(** So do [ChatResponse] and [CompletionResponse]. *)
Record Response := {
  rs_ID : string;
  rs_Object : string;
  rs_Created : Z;
  rs_Choices : list Choice;
  rs_Usage : option Usage;
}.

(** ** Backends *)

Record OpenAICompatibleBackend := {
  ob_baseURL : string;
  ob_apiKey : string;
  ob_timeout : Duration;
  ob_breaker : CircuitBreaker;
  ob_maxTokens : Z;
}.

Definition with_breaker (cb : CircuitBreaker) (b : OpenAICompatibleBackend) : OpenAICompatibleBackend :=
  {| ob_baseURL := ob_baseURL b; ob_apiKey := ob_apiKey b; ob_timeout := ob_timeout b; ob_breaker := cb;
     ob_maxTokens := ob_maxTokens b |}.

Definition defaultBackendTimeout : Duration := 120 * second.

(** [ob_timeout] is the timeout of [client]; [streamClient] has none. *)
Definition NewOpenAICompatibleBackend (baseURL apiKey : string) (timeout : Duration) (maxTokens : Z) :
    OpenAICompatibleBackend :=
  {| ob_baseURL := baseURL; ob_apiKey := apiKey;
     ob_timeout := if timeout <=? 0 then defaultBackendTimeout else timeout;
     ob_breaker := NewCircuitBreaker 5 (30 * second); ob_maxTokens := maxTokens |}.

(** The wrappers, by their own fields. *)
Inductive adapter :=
| LlamaCppBackend (contextSize threads gpuLayers : Z)
| OllamaBackend (model : string)
| LMStudioBackend (modelPath : string)
| VLLMBackend (modelName : string)
| CustomBackend (providerName : string).

Definition Name (a : adapter) : string :=
  match a with
  | LlamaCppBackend _ _ _ => "llama-cpp"
  | OllamaBackend _ => "ollama"
  | LMStudioBackend _ => "lmstudio"
  | VLLMBackend _ => "vllm"
  | CustomBackend p => if String.eqb p "" then "custom" else p
  end.

Record Metrics := {
  mt_Requests : Z; mt_Errors : Z; mt_LatencyMs : Z; mt_ModelLoads : Z; mt_ModelUnloads : Z;
  mt_MemoryUsageMB : Z; mt_GPUUsagePct : Z; mt_Threads : Z;
}.

Definition zero_Metrics : Metrics :=
  {| mt_Requests := 0; mt_Errors := 0; mt_LatencyMs := 0; mt_ModelLoads := 0; mt_ModelUnloads := 0;
     mt_MemoryUsageMB := 0; mt_GPUUsagePct := 0; mt_Threads := 0 |}.

Definition with_Threads (n : Z) (m : Metrics) : Metrics :=
  {| mt_Requests := mt_Requests m; mt_Errors := mt_Errors m; mt_LatencyMs := mt_LatencyMs m;
     mt_ModelLoads := mt_ModelLoads m; mt_ModelUnloads := mt_ModelUnloads m; mt_MemoryUsageMB := mt_MemoryUsageMB m;
     mt_GPUUsagePct := mt_GPUUsagePct m; mt_Threads := n |}.

Definition GetMetrics (a : adapter) : Metrics :=
  match a with LlamaCppBackend _ threads _ => with_Threads threads zero_Metrics | _ => zero_Metrics end.

Definition default_url (backendName : string) : string :=
  if String.eqb backendName "llama-cpp" then "http://localhost:8080"
  else if String.eqb backendName "ollama" then "http://localhost:11434"
  else if String.eqb backendName "lmstudio" then "http://127.0.0.1:1234"
  else if String.eqb backendName "vllm" then "http://localhost:8000"
  else if String.eqb backendName "custom" then "http://localhost:8000"
  else "http://localhost:8080".

Definition NewBackendFromName (backendName modelPath backendURL : string) (timeout : Duration) (maxTokens threads : Z) :
    adapter * OpenAICompatibleBackend :=
  let defaultURL := if String.eqb backendURL "" then default_url backendName else backendURL in
  let threads := if threads <? 1 then 4 else threads in
  (if String.eqb backendName "llama-cpp" then LlamaCppBackend 2048 threads 1
   else if String.eqb backendName "ollama" then OllamaBackend modelPath
   else if String.eqb backendName "lmstudio" then LMStudioBackend modelPath
   else if String.eqb backendName "vllm" then VLLMBackend modelPath
   else if String.eqb backendName "custom" then CustomBackend "custom"
   else LlamaCppBackend 2048 threads 1,
   NewOpenAICompatibleBackend defaultURL "" timeout maxTokens).

Definition backendPort (backend : string) : Z :=
  if String.eqb backend "ollama" then 11434
  else if String.eqb backend "lmstudio" then 1234
  else if String.eqb backend "vllm" || String.eqb backend "custom" then 8000
  else 8080.

(** ** Requests *)

(** The JSON object of a backend request; the prompt is a list of messages or a
    text. *)
Record backend_request := {
  bq_model : string;
  bq_prompt : list ChatMessage + string;
  bq_stream : bool;
  bq_max_tokens : Z;
  bq_temperature : float64;
}.

(** The default for a request that names no limit. *)
Definition maxTokensFor (b : OpenAICompatibleBackend) (requested fallback : Z) : Z :=
  if requested <=? 0 then (if 0 <? ob_maxTokens b then ob_maxTokens b else fallback) else requested.

Definition buildChatRequest (stream : bool) (req : ChatRequest) (model : string) (maxTokens : Z) : backend_request :=
  {| bq_model := model; bq_prompt := inl (cr_Messages req); bq_stream := stream; bq_max_tokens := maxTokens;
     bq_temperature := cr_Temperature req |}.

Definition buildCompletionRequest (stream : bool) (req : CompletionRequest) (model : string) (maxTokens : Z) :
    backend_request :=
  {| bq_model := model; bq_prompt := inr (cq_Prompt req); bq_stream := stream; bq_max_tokens := maxTokens;
     bq_temperature := cq_Temperature req |}.

Record http_request := { hq_URL : string; hq_ContentType : string; hq_Authorization : string; hq_Body : string }.
Record http_response := { hr_StatusCode : Z; hr_Body : string }.

(** An entry of a backend's model list. *)
Record model_entry := {
  me_ID : string; me_Name : string; me_Backend : string; me_Quantization : string; me_Loaded : option bool;
}.

(** [encoding/json] and the syntax of URLs ([http.NewRequest]). *)
Class OpenAI := {
  marshal_request : backend_request -> res string;
  parse_url : string -> res unit;
  decode_body : string -> res Response;
  decode_models : string -> res (list model_entry);
  decode_stream_chunk : string -> option Chunk;
}.

Section backend.
Context `{OA : OpenAI}.

(** ** Single calls: [do] is what [client.Do] and [client.Get] answer *)

Definition healthProbeURL (b : OpenAICompatibleBackend) : string := ob_baseURL b +:+ "/v1/models".

Definition authorization (b : OpenAICompatibleBackend) : string :=
  if String.eqb (ob_apiKey b) "" then "" else "Bearer " +:+ ob_apiKey b.

(** The request a completion or a stream sends. *)
Definition newRequest (b : OpenAICompatibleBackend) (url : string) (q : backend_request) : res http_request :=
  let? body := label "failed to marshal request: " (marshal_request q) in
  let? _ := label "failed to create request: " (parse_url url) in
  inl {| hq_URL := url; hq_ContentType := "application/json"; hq_Authorization := authorization b; hq_Body := body |}.

(** The body both completions share, for their path and request. *)
Definition completeInternal (do : http_request -> res http_response) (b : OpenAICompatibleBackend) (path : string)
    (q : backend_request) : res Response :=
  let? httpReq := newRequest b (ob_baseURL b +:+ path) q in
  let? resp := label "backend request failed: " (do httpReq) in
  if hr_StatusCode resp =? 200 then label "failed to decode response: " (decode_body (hr_Body resp))
  else inr (BackendHTTPError (hr_StatusCode resp) (hr_Body resp)).

Definition completeChatInternal (do : http_request -> res http_response) (b : OpenAICompatibleBackend) (model : string)
    (req : ChatRequest) : res Response :=
  completeInternal do b "/v1/chat/completions" (buildChatRequest false req model (maxTokensFor b (cr_MaxTokens req) 100)).

Definition CompleteCompletions (do : http_request -> res http_response) (b : OpenAICompatibleBackend) (model : string)
    (req : CompletionRequest) : res Response :=
  completeInternal do b "/v1/completions" (buildCompletionRequest false req model (maxTokensFor b (cq_MaxTokens req) 100)).

(** ** Completions with retries *)

(** The loop of [retryWithBackoff] with the effects of its function on a state:
    [op k] is the [k]-th call, [cancelled k] the error of the context if it ends
    during the wait after it. *)
Fixpoint retry_op {A} (op : nat -> A -> A * option berr) (cancelled : nat -> option berr) (exceeded : option berr -> berr)
    (attempt n : nat) (lastErr : option berr) (st : A) : A * option berr :=
  match n with
  | O => (st, Some (exceeded lastErr))
  | S n =>
      let '(st, r) := op attempt st in
      match r with
      | None => (st, None)
      | Some err =>
          match cancelled attempt with
          | Some e => (st, Some e)
          | None => retry_op op cancelled exceeded (S attempt) n (Some err) st
          end
      end
  end.

Definition breaker_open_error (b : OpenAICompatibleBackend) : berr :=
  Errorf ("circuit breaker is open for backend " +:+ ob_baseURL b).

(** [fmt.Errorf("max retries (%d) exceeded: %w", ...)]; the error is nil when
    the function never ran. *)
Definition max_retries_error (maxRetries : Z) (lastErr : option berr) : berr :=
  wrapErr ("max retries (" +:+ pretty maxRetries +:+ ") exceeded: ") (default (Errorf "%!w(<nil>)") lastErr).

(** [start] is the instant of [CanExecute], [now k] the one of the [k]-th
    failure, [do k] what the client answers to the [k]-th request. *)
Definition CompleteChat (do : nat -> http_request -> res http_response) (start : Time) (now : nat -> Time)
    (cancelled : nat -> option berr) (model : string) (req : ChatRequest) (b : OpenAICompatibleBackend) :
    OpenAICompatibleBackend * res Response :=
  let '(cb, ok) := CanExecute start (ob_breaker b) in
  let b := with_breaker cb b in
  if negb ok then (b, inr (breaker_open_error b))
  else
    let op k (st : CircuitBreaker * option Response) :=
      match completeChatInternal (do k) b model req with
      | inr err => ((RecordFailure (now k) st.1, st.2), Some err)
      | inl resp => ((RecordSuccess st.1, Some resp), None)
      end in
    let '((cb, resp), err) := retry_op op cancelled (max_retries_error 3) 0 3 None (cb, None) in
    (with_breaker cb b, match err, resp with
                        | None, Some r => inl r
                        | None, None => inr (Errorf "")
                        | Some e, _ => inr e
                        end).

(** ** Health and models *)

(** A [Get] fails or answers with some status; the code does not look at it. *)
Definition IsHealthy (get : string -> res http_response) (b : OpenAICompatibleBackend) : bool :=
  match GetState (ob_breaker b) with
  | CircuitClosed | CircuitHalfOpen => match get (healthProbeURL b) with inl _ => true | inr _ => false end
  | CircuitOpen => false
  end.

Definition HealthCheck (get : string -> res http_response) (start now : Time) (b : OpenAICompatibleBackend) :
    OpenAICompatibleBackend * option berr :=
  let '(cb, ok) := CanExecute start (ob_breaker b) in
  if negb ok then (with_breaker cb b, Some (breaker_open_error b))
  else
    match get (healthProbeURL b) with
    | inr err => (with_breaker (RecordFailure now cb) b, Some (wrapErr ("health check failed for " +:+ ob_baseURL b +:+ ": ") err))
    | inl _ => (with_breaker (RecordSuccess cb) b, None)
    end.

Definition GetCircuitState (b : OpenAICompatibleBackend) : CircuitState := GetState (ob_breaker b).

Definition LoadModel (get : string -> res http_response) (b : OpenAICompatibleBackend) : bool * option berr :=
  match get (ob_baseURL b +:+ "/v1/models") with
  | inr err => (false, Some (wrapErr ("backend not reachable at " +:+ ob_baseURL b +:+ ": ") err))
  | inl _ => (true, None)
  end.

(** One entry of the list, [None] when it has neither name nor identifier. *)
Definition entry_model (m : model_entry) : option ModelInfo :=
  let name := if String.eqb (me_Name m) "" then me_ID m else me_Name m in
  if String.eqb name "" then None
  else Some {| mi_Name := name; mi_Size := 0; mi_Quantization := me_Quantization m; mi_MaxTokens := 0; mi_Backend := me_Backend m;
               mi_Loaded := default true (me_Loaded m) |}.

Definition ListModels (get : string -> res http_response) (b : OpenAICompatibleBackend) : res (list ModelInfo) :=
  let? resp := label "failed to list models: " (get (ob_baseURL b +:+ "/v1/models")) in
  if negb (hr_StatusCode resp =? 200) then inr (Errorf ("backend returned " +:+ pretty (hr_StatusCode resp)))
  else
    let? data := label "failed to decode models response: " (decode_models (hr_Body resp)) in
    inl (omap entry_model data).
End backend.

(** ** What a completion amounts to *)

(** When the answers do not depend on the state the loop is that of [Breaker],
    and the state has seen the calls it made, in order. *)
Lemma retry_op_loop {A} (op : nat -> A -> A * option berr) ans cancelled exceeded attempt n lastErr st :
  (forall k st, (op k st).2 = ans k) ->
  retry_op op cancelled exceeded attempt n lastErr st =
  let '(r, ws) := retry_loop exceeded ans cancelled attempt n lastErr in
  (foldl (fun st k => (op k st).1) st (seq attempt (length ws + if r then 0 else 1)), r).
Proof.
  intros Hans. revert attempt lastErr st. induction n as [|n IH]; intros attempt lastErr st; simpl; [done|].
  specialize (Hans attempt st). destruct (op attempt st) as [st' r] eqn:E. simpl in Hans. subst r.
  destruct (ans attempt) as [err|]; [|simpl; by rewrite E].
  destruct (cancelled attempt) as [e|]; [simpl; by rewrite E|]. rewrite IH.
  destruct (retry_loop _ _ _ (S attempt) n (Some err)) as [r ws]. simpl. by rewrite E.
Qed.

Section completions.
Context `{OA : OpenAI} (do : nat -> http_request -> res http_response) (start : Time) (now : nat -> Time)
  (cancelled : nat -> option berr) (model : string) (req : ChatRequest) (b : OpenAICompatibleBackend).

(** The answer to the [k]-th request. *)
Definition chat_answer (k : nat) : res Response := completeChatInternal (do k) b model req.

Definition chat_failure (k : nat) : option berr := match chat_answer k with inl _ => None | inr e => Some e end.

Definition failures_at (k : nat) : list bop := map (fun i => Failure (now i)) (seq 0 k).

(** The state of the loop after [k] failed calls. *)
Lemma chat_op_failures k cb0 :
  (forall i, (i < k)%nat -> is_Some (chat_failure i)) ->
  foldl (fun st i => (match chat_answer i with
                      | inr err => ((RecordFailure (now i) st.1, st.2), Some err)
                      | inl resp => ((RecordSuccess st.1, Some resp), None)
                      end : (CircuitBreaker * option Response) * option berr).1) (cb0, None) (seq 0 k) =
  (run cb0 (failures_at k), None).
Proof using.
  unfold run, failures_at. induction k as [|k IH]; intros Hf; [done|].
  rewrite seq_S, map_app, !foldl_app, IH by (intros; apply Hf; lia). simpl.
  destruct (Hf k) as [e He]; [lia|]. unfold chat_failure in He. by destruct (chat_answer k).
Qed.

(** A chat completion is the answer of the first of at most three requests
    that succeeds; the circuit breaker hears of every request, each once.  It
    fails without a request when the breaker does not admit it, with the
    context's error when a wait is cut short, and otherwise after three
    failures. *)
Theorem CompleteChat_spec :
  let '(b', r) := CompleteChat do start now cancelled model req b in
  let '(cb, ok) := CanExecute start (ob_breaker b) in
  ob_baseURL b' = ob_baseURL b /\ ob_maxTokens b' = ob_maxTokens b /\
  if negb ok then ob_breaker b' = cb /\ r = inr (breaker_open_error b)
  else
    match r with
    | inl x => exists k, (k < 3)%nat /\ chat_answer k = inl x /\
        (forall i, (i < k)%nat -> is_Some (chat_failure i) /\ cancelled i = None) /\
        ob_breaker b' = RecordSuccess (run cb (failures_at k))
    | inr e => exists k, (1 <= k <= 3)%nat /\ (forall i, (i < k)%nat -> is_Some (chat_failure i)) /\
        (forall i, (S i < k)%nat -> cancelled i = None) /\
        (cancelled (pred k) = Some e \/ k = 3%nat /\ e = max_retries_error 3 (chat_failure 2)) /\
        ob_breaker b' = run cb (failures_at k)
    end.
Proof using.
  unfold CompleteChat. destruct (CanExecute start (ob_breaker b)) as [cb ok]. destruct ok; simpl negb; cbn iota; [|done].
  set (op := fun k st => _). rewrite (retry_op_loop op chat_failure).
  2:{ intros k st. unfold op, chat_failure.
      change (completeChatInternal (do k) (with_breaker cb b) model req) with (chat_answer k). by destruct (chat_answer k). }
  pose proof (retry_loop_spec (max_retries_error 3) chat_failure cancelled 0 3 None) as H.
  destruct (retry_loop _ _ _ 0 3 None) as [r ws]. destruct H as (k & waits & _ & Hf & He & ->); [intros i Hi; lia|].
  rewrite length_map, length_seq, Nat.sub_0_r. rewrite Nat.add_0_l in He.
  assert (Hfold : forall n, (forall i, (i < n)%nat -> is_Some (chat_failure i)) ->
    foldl (fun st k => (op k st).1) (cb, None) (seq 0 n) = (run cb (failures_at n), None)).
  { intros n Hn. rewrite <-chat_op_failures by done. reflexivity. }
  destruct He as [(Hk & Ha & -> & ->)|[(Hk & [e Ha] & [c Hc] & -> & ->)|(-> & -> & ->)]].
  - rewrite Nat.add_1_r, seq_S, foldl_app, Hfold by (intros i Hi; by apply Hf).
    simpl. unfold chat_failure in Ha. destruct (chat_answer k) as [x|] eqn:Ek; [|done].
    unfold op.
    change (completeChatInternal (do k) (with_breaker cb b) model req) with (chat_answer k). rewrite Ek. simpl. split_and!; [done..|]. exists k. split_and!; try done; by apply Hf.
  - rewrite Hc, Nat.add_0_r, Hfold.
    { simpl. split_and!; [done..|]. exists (S k). simpl. split_and!; [lia|lia|..].
      - intros i Hi. destruct (decide (i = k)) as [->|]; [by rewrite Ha|]. apply Hf. lia.
      - intros i Hi. apply Hf. lia.
      - by left.
      - done. }
    intros i Hi. destruct (decide (i = k)) as [->|]; [by rewrite Ha|]. apply Hf. lia.
  - rewrite Nat.add_0_r, Hfold by (intros i Hi; by apply Hf). simpl. split_and!; [done..|]. exists 3%nat. simpl.
    split_and!; [lia|lia| | |by right|done]; intros i Hi; apply Hf; lia.
Qed.
End completions.

(** ** Streams *)

Section stream.
Context `{OA : OpenAI}.

(** What the goroutine of [streamOpenAI] does to its channels: [Send] gives up
    when the idle context ends, [SendFinal] does not. *)
Inductive pact := Send (c : Chunk) | SendFinal (c : Chunk) | Fail (e : berr) | CloseErr | CloseChunks.

(** The deferred closes, last deferred first. *)
Definition closers : list pact := [CloseErr; CloseChunks].

Inductive line_result := Skip | Stop | Parsed (c : Chunk).

Definition sse_line (text : string) : line_result :=
  let line := TrimSpace text in
  if String.eqb line "" || String.eqb line (String (Ascii.ascii_of_nat 13) "") then Skip
  else
    match strip (to_bytes "data: ") (to_bytes line) with
    | None => Skip
    | Some rest =>
        let dataStr := of_bytes rest in
        if String.eqb dataStr "[DONE]" then Stop
        else match decode_stream_chunk dataStr with Some c => Parsed c | None => Skip end
    end.

(** The end of the scan: end of file, or an error; the boolean is
    [idle.ctx.Err() != nil]. *)
Record scan_end := { sn_err : option berr; sn_idle : bool }.

(** [parseSSEStream] over the lines of the scanner, and the deferred closes. *)
Fixpoint parseSSEStream (idle_text : string) (doneChunk : Chunk) (lines : list string) (fin : scan_end) : list pact :=
  match lines with
  | [] =>
      match sn_err fin with
      | Some err =>
          Fail (if sn_idle fin then Errorf ("backend stream idle timeout: no data for " +:+ idle_text)
                else wrapErr "failed to read SSE stream: " err) :: closers
      | None => SendFinal doneChunk :: closers
      end
  | text :: lines =>
      match sse_line text with
      | Skip => parseSSEStream idle_text doneChunk lines fin
      | Stop => closers
      | Parsed c => Send c :: parseSSEStream idle_text doneChunk lines fin
      end
  end.

(** A response whose body is read as a stream. *)
Record stream_response := { sr_StatusCode : Z; sr_Body : string; sr_lines : list string; sr_end : scan_end }.

Definition idle_timeout_of (b : OpenAICompatibleBackend) : Duration :=
  if ob_timeout b <=? 0 then defaultBackendTimeout else ob_timeout b.

(** The answer of [streamClient.Do]; the boolean is [idle.ctx.Err() != nil]. *)
Definition executeHTTPRequest (do : http_request -> (stream_response + berr) * bool) (b : OpenAICompatibleBackend)
    (idle_text url : string) (q : backend_request) : res stream_response :=
  let? httpReq := newRequest b url q in
  match do httpReq with
  | (inl resp, _) => inl resp
  | (inr err, idle) =>
      inr (if idle then Errorf ("backend stream idle timeout: no response for " +:+ idle_text)
           else wrapErr "backend request failed: " err)
  end.

(** The goroutine of [streamOpenAI]; [show] is [%v] of a duration. *)
Definition streamOpenAI (do : http_request -> (stream_response + berr) * bool) (show : Duration -> string)
    (b : OpenAICompatibleBackend) (q : backend_request) (doneChunk : Chunk) (urlSuffix : string) : list pact :=
  let idle_text := show (idle_timeout_of b) in
  match executeHTTPRequest do b idle_text (ob_baseURL b +:+ urlSuffix) q with
  | inr err => Fail err :: closers
  | inl resp =>
      if negb (sr_StatusCode resp =? 200) then
        Fail (Errorf ("backend returned " +:+ pretty (sr_StatusCode resp) +:+ ": " +:+ sr_Body resp)) :: closers
      else parseSSEStream idle_text doneChunk (sr_lines resp) (sr_end resp)
  end.

Definition doneChunk_of (object model : string) (now : Z) : Chunk :=
  {| ck_ID := ""; ck_Object := object; ck_Created := now; ck_Model := model; ck_Choices := []; ck_Usage := None |}.

Definition StreamChat (do : http_request -> (stream_response + berr) * bool) (show : Duration -> string) (unix : Z)
    (b : OpenAICompatibleBackend) (model : string) (req : ChatRequest) : list pact :=
  streamOpenAI do show b (buildChatRequest true req model (maxTokensFor b (cr_MaxTokens req) 100))
    (doneChunk_of "chat.completion.chunk" model unix) "/v1/chat/completions".

Definition StreamCompletions (do : http_request -> (stream_response + berr) * bool) (show : Duration -> string) (unix : Z)
    (b : OpenAICompatibleBackend) (model : string) (req : CompletionRequest) : list pact :=
  streamOpenAI do show b (buildCompletionRequest true req model (maxTokensFor b (cq_MaxTokens req) 100))
    (doneChunk_of "text_completion" model unix) "/v1/completions".
End stream.

(** *** The channels *)

(** [bs_gaveUp] is that a send was abandoned. *)
Record bstream := mkStream {
  bs_todo : list pact;
  bs_chunkCh : list Chunk;
  bs_errCh : list berr;
  bs_chunkClosed : bool;
  bs_errClosed : bool;
  bs_gaveUp : bool;
}.

Definition open_stream (plan : list pact) : bstream := mkStream plan [] [] false false false.

(** [make(chan TChunk, 100)]. *)
Definition chunkCap : nat := 100.

(** The goroutine's next action; [None] when it waits or has ended.  The error
    channel has room for the one error of a plan. *)
Definition produce (s : bstream) : option bstream :=
  match bs_todo s with
  | [] => None
  | Send c :: todo | SendFinal c :: todo =>
      buf ← try_send chunkCap c (bs_chunkCh s);
      Some (mkStream todo buf (bs_errCh s) (bs_chunkClosed s) (bs_errClosed s) (bs_gaveUp s))
  | Fail e :: todo =>
      buf ← try_send 1 e (bs_errCh s);
      Some (mkStream todo (bs_chunkCh s) buf (bs_chunkClosed s) (bs_errClosed s) (bs_gaveUp s))
  | CloseErr :: todo => Some (mkStream todo (bs_chunkCh s) (bs_errCh s) (bs_chunkClosed s) true (bs_gaveUp s))
  | CloseChunks :: todo => Some (mkStream todo (bs_chunkCh s) (bs_errCh s) true (bs_errClosed s) (bs_gaveUp s))
  end.

(** The idle context ends while a send waits. *)
Definition abandon (s : bstream) : option bstream :=
  match bs_todo s with
  | Send _ :: _ => Some (mkStream closers (bs_chunkCh s) (bs_errCh s) (bs_chunkClosed s) (bs_errClosed s) true)
  | _ => None
  end.

Definition set_chunkCh (l : list Chunk) (s : bstream) : bstream :=
  mkStream (bs_todo s) l (bs_errCh s) (bs_chunkClosed s) (bs_errClosed s) (bs_gaveUp s).
Definition set_errCh (l : list berr) (s : bstream) : bstream :=
  mkStream (bs_todo s) (bs_chunkCh s) l (bs_chunkClosed s) (bs_errClosed s) (bs_gaveUp s).

(** A receive: a value, the closed channel, or waiting. *)
Inductive recv (A : Type) := Value (x : A) | Closed | Waits.
Arguments Value {A}. Arguments Closed {A}. Arguments Waits {A}.

Definition recv_chunk (s : bstream) : recv Chunk * bstream :=
  match bs_chunkCh s with
  | c :: l => (Value c, set_chunkCh l s)
  | [] => (if bs_chunkClosed s then Closed else Waits, s)
  end.

Definition recv_err (s : bstream) : recv berr * bstream :=
  match bs_errCh s with
  | e :: l => (Value e, set_errCh l s)
  | [] => (if bs_errClosed s then Closed else Waits, s)
  end.

(** *** Plans and the invariant of a stream *)

Definition sends (todo : list pact) : list Chunk :=
  omap (fun a => match a with Send c | SendFinal c => Some c | _ => None end) todo.
Definition fails (todo : list pact) : list berr :=
  omap (fun a => match a with Fail e => Some e | _ => None end) todo.

(** Chunks, then at most one final chunk or one error, then the closes. *)
Inductive good_plan : list pact -> Prop :=
| good_send c todo : good_plan todo -> good_plan (Send c :: todo)
| good_final c : good_plan (SendFinal c :: closers)
| good_fail e : good_plan (Fail e :: closers)
| good_closers : good_plan closers.

Lemma parse_good `{OA : OpenAI} idle_text d lines fin : good_plan (parseSSEStream idle_text d lines fin).
Proof.
  induction lines as [|text lines IH]; simpl; [destruct (sn_err fin); constructor|].
  destruct (sse_line text); [done|constructor|by constructor].
Qed.

Lemma streamOpenAI_good `{OA : OpenAI} do show b q d suffix : good_plan (streamOpenAI do show b q d suffix).
Proof.
  unfold streamOpenAI. destruct (executeHTTPRequest _ _ _ _ _); [|constructor].
  destruct (negb _); [constructor|apply parse_good].
Qed.

(** What is left to do at any moment. *)
Definition good_rest (todo : list pact) : Prop := good_plan todo \/ todo = [CloseChunks] \/ todo = [].

(** [taken] and [errs] are what was received. *)
Record stream_inv (plan : list pact) (taken : list Chunk) (errs : list berr) (s : bstream) : Prop := {
  si_rest : good_rest (bs_todo s);
  si_prefix : taken ++ bs_chunkCh s ++ sends (bs_todo s) `prefix_of` sends plan;
  si_all : bs_gaveUp s = false -> taken ++ bs_chunkCh s ++ sends (bs_todo s) = sends plan;
  si_errs : errs ++ bs_errCh s ++ fails (bs_todo s) = (if bs_gaveUp s then [] else fails plan);
  si_failed : errs ++ bs_errCh s <> [] -> sends (bs_todo s) = [];
  si_errClosed : bs_errClosed s = true <-> ~ good_plan (bs_todo s);
  si_chunkClosed : bs_chunkClosed s = true <-> bs_todo s = [];
}.

Lemma good_plan_nil : ~ good_plan [].
Proof. intros H. inv H. Qed.

Lemma good_plan_close : ~ good_plan [CloseChunks].
Proof. intros H. inv H. Qed.

#[local] Hint Resolve good_plan_nil good_plan_close : core.

Lemma stream_inv_open plan : good_plan plan -> stream_inv plan [] [] (open_stream plan).
Proof.
  intros Hp. constructor; simpl; try done; [by left|].
  split; [done|]. intros ->. by destruct good_plan_nil.
Qed.

Lemma produce_inv plan taken errs s s' : stream_inv plan taken errs s -> produce s = Some s' -> stream_inv plan taken errs s'.
Proof.
  intros [Hr Hp Ha He Hf Hec Hcc]. destruct s as [todo ch er cc ec gu]. simpl in *. unfold produce. simpl.
  destruct Hr as [Hr|[-> | ->]]; [destruct Hr as [c todo Hr|c|e|]|..]; simpl in *; try done.
  - destruct (try_send chunkCap c ch) as [buf|] eqn:Eb; [|done]. apply try_send_Some in Eb as [_ ->]. intros [= <-].
    constructor; simpl; rewrite <-?(assoc_L (++)); try done; [by left|..].
    + intros H. by specialize (Hf H).
    + rewrite Hec. split; [|done]. intros H Hg. by apply H, good_send.
    + rewrite Hcc. split; [done|]. intros ->. by apply good_plan_nil in Hr.
  - destruct (try_send chunkCap c ch) as [buf|] eqn:Eb; [|done]. apply try_send_Some in Eb as [_ ->]. intros [= <-].
    constructor; simpl; rewrite <-?(assoc_L (++)); try done; [left; constructor|..].
    + rewrite Hec. split; intros H Hg; apply H; constructor.
    + rewrite Hcc. done.
  - destruct (try_send 1 e er) as [buf|] eqn:Eb; [|done]. apply try_send_Some in Eb as [_ ->]. intros [= <-].
    constructor; simpl; rewrite <-?(assoc_L (++)); try done; [left; constructor|..].
    + rewrite Hec. split; intros H Hg; apply H; constructor.
    + rewrite Hcc. done.
  - intros [= <-]. constructor; simpl; try done; [by right; left|by rewrite Hcc].
  - intros [= <-]. constructor; simpl; try done; [by right; right|].
    rewrite Hec. split; [intros _; apply good_plan_nil|intros _; apply good_plan_close].
Qed.

Lemma abandon_inv plan taken errs s s' : stream_inv plan taken errs s -> abandon s = Some s' -> stream_inv plan taken errs s'.
Proof.
  intros [Hr Hp Ha He Hf Hec Hcc]. destruct s as [todo ch er cc ec gu]. simpl in *. unfold abandon. simpl.
  destruct todo as [|[c| | | |] todo]; try done. intros [= <-].
  assert (Hg : good_plan (Send c :: todo)) by (by destruct Hr as [?|[?|?]]).
  assert (Hn : errs ++ er = []) by (destruct (errs ++ er); [done|by ospecialize (Hf _)]).
  constructor; simpl; rewrite ?app_nil_r; try done; [left; constructor|..].
  - etrans; [|exact Hp]. rewrite (assoc_L (++)). by apply prefix_app_r.
  - rewrite Hec. split; intros H Hg'; apply H; [done|constructor].
  - by rewrite Hcc.
Qed.

(** One step of the goroutine. *)
Definition producer_step (s s' : bstream) : Prop := produce s = Some s' \/ abandon s = Some s'.

Lemma producer_inv plan taken errs s s' : stream_inv plan taken errs s -> producer_step s s' -> stream_inv plan taken errs s'.
Proof. intros H [?|?]; [by eapply produce_inv|by eapply abandon_inv]. Qed.

Lemma recv_chunk_inv plan taken errs s c s' :
  stream_inv plan taken errs s -> recv_chunk s = (Value c, s') -> stream_inv plan (taken ++ [c]) errs s'.
Proof.
  intros [Hr Hp Ha He Hf Hec Hcc]. destruct s as [todo ch er cc ec gu]. unfold recv_chunk. simpl in *.
  destruct ch as [|c' ch]; [by destruct cc|]. intros [= <- <-]. by constructor; simpl; rewrite <-?(assoc_L (++)).
Qed.

Lemma recv_err_inv plan taken errs s e s' :
  stream_inv plan taken errs s -> recv_err s = (Value e, s') -> stream_inv plan taken (errs ++ [e]) s'.
Proof.
  intros [Hr Hp Ha He Hf Hec Hcc]. destruct s as [todo ch er cc ec gu]. unfold recv_err. simpl in *.
  destruct er as [|e' er]; [by destruct ec|]. intros [= <- <-]. by constructor; simpl; rewrite <-?(assoc_L (++)).
Qed.

(** A closed chunk channel is the end of everything. *)
Lemma stream_inv_end plan taken errs s s' :
  stream_inv plan taken errs s -> recv_chunk s = (Closed, s') ->
  s' = s /\ bs_chunkCh s = [] /\ bs_todo s = [] /\ taken `prefix_of` sends plan /\
  (bs_gaveUp s = false -> taken = sends plan) /\ errs ++ bs_errCh s = (if bs_gaveUp s then [] else fails plan).
Proof.
  intros [Hr Hp Ha He Hf Hec Hcc]. unfold recv_chunk. destruct (bs_chunkCh s) as [|c ch] eqn:Ec; [|done].
  destruct (bs_chunkClosed s) eqn:Ecl; [|done]. intros [= <-]. assert (Ht : bs_todo s = []) by (by apply Hcc).
  rewrite Ht in *. simpl in *. rewrite !app_nil_r in *. done.
Qed.

(** An error means that every chunk was sent before it. *)
Lemma stream_inv_error plan taken errs s e s' :
  stream_inv plan taken errs s -> recv_err s = (Value e, s') ->
  e ∈ fails plan /\ taken `prefix_of` sends plan.
Proof.
  intros [Hr Hp Ha He Hf Hec Hcc]. unfold recv_err. destruct (bs_errCh s) as [|e' er] eqn:Ee; [by destruct (bs_errClosed s)|].
  intros [= -> <-]. split; [|by eapply prefix_app_l].
  destruct (bs_gaveUp s); [by destruct errs|]. rewrite <-He. set_solver.
Qed.

(** ** The idle timer of a stream ([idle.go])

    The watcher goroutine owns the timer: [it_deadline] is when it fires.
    [it_ended] is that the context is cancelled, [it_exited] that the watcher
    has returned. *)

Record idleTimeout := mkIdle {
  it_deadline : Time;
  it_resetCh : option Duration;
  it_ended : bool;
  it_exited : bool;
}.

Definition newIdleTimeout (now : Time) (d : Duration) : idleTimeout := mkIdle (time_add now d) None false false.

(** The three cases of the [select] of [reset]: with the watcher gone and room
    in the channel either may be taken. *)
Definition reset (taken : bool) (d : Duration) (it : idleTimeout) : idleTimeout :=
  match it_resetCh it with
  | Some _ => it
  | None => if it_exited it && negb taken then it else mkIdle (it_deadline it) (Some d) (it_ended it) (it_exited it)
  end.

Definition stop (it : idleTimeout) : idleTimeout := mkIdle (it_deadline it) (it_resetCh it) true true.

Inductive idle_event := Activity (taken : bool) (d : Duration) | TimerFires | Rearms | ContextEnds | Exits.

(** One event at instant [now]; [None] when its case is not ready. *)
Definition idle_step (now : Time) (e : idle_event) (it : idleTimeout) : option idleTimeout :=
  match e with
  | Activity taken d => Some (reset taken d it)
  | ContextEnds => Some (mkIdle (it_deadline it) (it_resetCh it) true (it_exited it))
  | TimerFires =>
      if negb (it_exited it) && (it_deadline it <=? now)
      then Some (mkIdle (it_deadline it) (it_resetCh it) true true) else None
  | Rearms =>
      match it_resetCh it with
      | Some d => if it_exited it then None else Some (mkIdle (time_add now d) None (it_ended it) false)
      | None => None
      end
  | Exits => if it_ended it && negb (it_exited it) then Some (mkIdle (it_deadline it) (it_resetCh it) true true) else None
  end.

Fixpoint idle_run (evs : list (Time * idle_event)) (it : idleTimeout) : option idleTimeout :=
  match evs with
  | [] => Some it
  | (now, e) :: evs => it ← idle_step now e it; idle_run evs it
  end.

(** The last time the timer was set before the events end, starting from [t0]. *)
Fixpoint armed_at (t0 : Time) (evs : list (Time * idle_event)) : Time :=
  match evs with
  | [] => t0
  | (now, Rearms) :: evs => armed_at now evs
  | _ :: evs => armed_at t0 evs
  end.

Definition same_timeout (d : Duration) (evs : list (Time * idle_event)) : Prop :=
  Forall (fun e => match e.2 with Activity _ d' => d' = d | _ => True end) evs.

Lemma idle_deadline d evs t0 it it' :
  it_deadline it = time_add t0 d -> (forall d', it_resetCh it = Some d' -> d' = d) -> same_timeout d evs ->
  idle_run evs it = Some it' -> it_deadline it' = time_add (armed_at t0 evs) d.
Proof.
  revert t0 it. induction evs as [|[now e] evs IH]; intros t0 it Hd Hp Hs Hr; [by injection Hr as <-|].
  apply Forall_cons in Hs as [He Hs]. cbn [idle_run] in Hr.
  destruct (idle_step now e it) as [it1|] eqn:E; [|done]. cbn in Hr.
  destruct e as [taken d'| | | |]; cbn in E, He |- *.
  - injection E as <-. subst d'. apply (IH _ (reset taken d it)); [..|done|done].
    + unfold reset. by repeat case_match.
    + unfold reset. intros d'. repeat case_match; simpl; naive_solver.
  - destruct (_ && _); [|done]. injection E as <-. refine (IH t0 _ _ _ Hs Hr); [exact Hd|exact Hp].
  - destruct (it_resetCh it) as [d'|] eqn:Er; [|done]. destruct (it_exited it); [done|]. injection E as <-.
    rewrite (Hp d' eq_refl) in Hr.
    refine (IH now _ _ _ Hs Hr); [reflexivity|by intros ?].
  - injection E as <-. refine (IH t0 _ _ _ Hs Hr); [exact Hd|exact Hp].
  - destruct (_ && _); [|done]. injection E as <-. refine (IH t0 _ _ _ Hs Hr); [exact Hd|exact Hp].
Qed.

(** The idle timer only cancels after the whole timeout has passed since it was
    last set, at the start or on a reset the watcher handled. *)
Theorem idle_cancels_late d start evs now it it' :
  same_timeout d evs -> idle_run evs (newIdleTimeout start d) = Some it ->
  idle_step now TimerFires it = Some it' -> armed_at start evs + d <= now.
Proof.
  intros Hs Hr Hf. apply (idle_deadline d evs start) in Hr; [|done|done|done]. cbn in Hf.
  destruct (negb _); [|done]. simpl in Hf. destruct (Z.leb_spec (it_deadline it) now) as [H|]; [|done].
  rewrite Hr in H. exact H.
Qed.

(** ** The interface the worker is written against ([backend.go]) *)

Class WorkerBackend := {
  wb_state : Type;
  wb_Name : string;
  wb_CompleteChat : string -> ChatRequest -> wb_state -> wb_state * res Response;
  wb_CompleteCompletions : string -> CompletionRequest -> wb_state -> wb_state * res Response;
  wb_StreamChat : string -> ChatRequest -> wb_state -> list pact;
  wb_StreamCompletions : string -> CompletionRequest -> wb_state -> list pact;
  wb_ListModels : wb_state -> res (list ModelInfo);
  wb_GetMetrics : wb_state -> res Metrics;
  wb_IsHealthy : wb_state -> bool;
  wb_HealthCheck : wb_state -> wb_state * option berr;
  wb_GetCircuitState : wb_state -> CircuitState;
}.

(** What the stream consumers rely on. *)
Class WorkerBackendLaws (B : WorkerBackend) := {
  wb_chat_plan : forall model req s, good_plan (wb_StreamChat model req s);
  wb_completion_plan : forall model req s, good_plan (wb_StreamCompletions model req s);
}.

(** What the world answers to a backend during one operation. *)
Record network := {
  nw_do : nat -> http_request -> res http_response;
  nw_stream : http_request -> (stream_response + berr) * bool;
  nw_get : string -> res http_response;
  nw_start : Time;
  nw_now : nat -> Time;
  nw_cancelled : nat -> option berr;
  nw_show : Duration -> string;
  nw_unix : Z;
}.

#[export] Instance openai_backend `{OA : OpenAI} (nw : network) (a : adapter) : WorkerBackend := {
  wb_state := OpenAICompatibleBackend;
  wb_Name := Name a;
  wb_CompleteChat model req b := CompleteChat (nw_do nw) (nw_start nw) (nw_now nw) (nw_cancelled nw) model req b;
  wb_CompleteCompletions model req b := (b, CompleteCompletions (nw_do nw 0%nat) b model req);
  wb_StreamChat model req b := StreamChat (nw_stream nw) (nw_show nw) (nw_unix nw) b model req;
  wb_StreamCompletions model req b := StreamCompletions (nw_stream nw) (nw_show nw) (nw_unix nw) b model req;
  wb_ListModels b := ListModels (nw_get nw) b;
  wb_GetMetrics b := inl (GetMetrics a);
  wb_IsHealthy b := IsHealthy (nw_get nw) b;
  wb_HealthCheck b := HealthCheck (nw_get nw) (nw_start nw) (nw_now nw 0%nat) b;
  wb_GetCircuitState b := GetCircuitState b;
}.

#[export] Instance openai_backend_laws `{OA : OpenAI} nw a : WorkerBackendLaws (openai_backend nw a).
Proof. split; intros; apply streamOpenAI_good. Qed.

(** ** Concrete instances *)

(** JSON where a request is its prompt and an answer or a chunk its text. *)
#[local] Instance ex_openai : OpenAI :=
  {| marshal_request q := inl (match bq_prompt q with inr s => s | inl ms => String.concat "" (map cm_Content ms) end);
     parse_url _ := inl tt;
     decode_body s := inl {| rs_ID := s; rs_Object := ""; rs_Created := 0; rs_Choices := []; rs_Usage := None |};
     decode_models _ := inl [];
     decode_stream_chunk s :=
       Some {| ck_ID := s; ck_Object := ""; ck_Created := 0; ck_Model := ""; ck_Choices := []; ck_Usage := None |} |}.

Definition ex_chunk (s : string) : Chunk :=
  {| ck_ID := s; ck_Object := ""; ck_Created := 0; ck_Model := ""; ck_Choices := []; ck_Usage := None |}.

Definition ex_backend_of (name : string) : OpenAICompatibleBackend := (NewBackendFromName name "" "" 0 0 0).2.

Definition ex_chat (stream : bool) : ChatRequest :=
  {| cr_Model := "llama"; cr_Messages := [{| cm_Role := "user"; cm_Content := "hi" |}]; cr_Stream := stream;
     cr_MaxTokens := 0; cr_Temperature := of_int 0 |}.

(** Down twice, then answering. *)
Example CompleteChat_third_try :
  (CompleteChat (fun k _ => if (k <? 2)%nat then inr (Errorf "refused") else inl {| hr_StatusCode := 200; hr_Body := "hello" |})
    0 Z.of_nat (fun _ => None) "llama" (ex_chat false) (ex_backend_of "ollama")).2 =
  inl {| rs_ID := "hello"; rs_Object := ""; rs_Created := 0; rs_Choices := []; rs_Usage := None |}.
Proof. vm_compute. reflexivity. Qed.

Example parse_sse :
  parseSSEStream "2m0s" (ex_chunk "done") ["data: a"; ""; ": ping"; "data:b"; "data: c"; "data: [DONE]"; "data: d"]
    {| sn_err := None; sn_idle := false |} = [Send (ex_chunk "a"); Send (ex_chunk "c"); CloseErr; CloseChunks].
Proof. vm_compute. reflexivity. Qed.

Lemma idle_cancels_late_witness : 7 + 10 <= 17.
Proof.
  apply (idle_cancels_late 10 0 [(5, Activity true 10); (7, Rearms)] 17 (mkIdle 17 None false false) (mkIdle 17 None true true));
    [repeat constructor|reflexivity|reflexivity].
Defined.
