(* ===== verification/WorkerServer.v ===== *)
(** * WorkerServer: the worker's HTTP server ([server.go], [handlers.go], [model_health.go], [model_refresh.go])

    The server's state and handlers, against the backend interface of
    [Backend].  A completion runs to its end in one step; a stream is the
    rounds of [streamSSE] taking turns with the backend's goroutine
    ([streaming]).  Instants, map orders and JSON are arguments. *)

From stdpp Require Import pretty.

From S2P Require Import Prelude GoFloat GoStrings Http Protocol Breaker Estimator InferenceStats Backend.

#[local] Open Scope list_scope.

(** ** Health tracking *)

Inductive HealthStatus := Healthy | Degraded | Unhealthy | Unknown.

Record ModelMetrics := {
  mm_LoadCount : Z; mm_UnloadCount : Z; mm_TotalLatency : Duration; mm_VramUsageMB : Z;
  mm_GpuUsagePct : Z; mm_RequestCount : Z; mm_ErrorCount : Z;
}.

Definition zero_ModelMetrics : ModelMetrics :=
  {| mm_LoadCount := 0; mm_UnloadCount := 0; mm_TotalLatency := 0; mm_VramUsageMB := 0; mm_GpuUsagePct := 0;
     mm_RequestCount := 0; mm_ErrorCount := 0 |}.

Record ModelHealthTracker := {
  ht_LastHealthCheck : Time;
  ht_HealthStatus : HealthStatus;
  ht_ConsecutiveFailures : Z;
  ht_Metrics : ModelMetrics;
  ht_Enabled : bool;
}.

Definition NewModelHealthTracker (enabled : bool) : ModelHealthTracker :=
  {| ht_LastHealthCheck := zero_time; ht_HealthStatus := Unknown; ht_ConsecutiveFailures := 0;
     ht_Metrics := zero_ModelMetrics; ht_Enabled := enabled |}.

Definition SetEnabled (enabled : bool) (t : ModelHealthTracker) : ModelHealthTracker :=
  {| ht_LastHealthCheck := ht_LastHealthCheck t; ht_HealthStatus := ht_HealthStatus t;
     ht_ConsecutiveFailures := ht_ConsecutiveFailures t; ht_Metrics := ht_Metrics t; ht_Enabled := enabled |}.

Definition RecordHealthCheck (now : Time) (status : HealthStatus) (metrics : ModelMetrics) (t : ModelHealthTracker) :
    ModelHealthTracker :=
  if negb (ht_Enabled t) then t
  else
    {| ht_LastHealthCheck := now; ht_HealthStatus := status;
       ht_ConsecutiveFailures := match status with Healthy => 0 | _ => wrap64 (ht_ConsecutiveFailures t + 1) end;
       ht_Metrics := metrics; ht_Enabled := ht_Enabled t |}.

(** [HealthCheckDetails] of a backend: the instants are those of [CanExecute],
    of the [Get] and of its answer. *)
Definition HealthCheckDetails (get : string -> res http_response) (start sent now : Time) (b : OpenAICompatibleBackend) :
    OpenAICompatibleBackend * (HealthStatus * ModelMetrics * option berr) :=
  let '(cb, ok) := CanExecute start (ob_breaker b) in
  if negb ok then (with_breaker cb b, (Unhealthy, zero_ModelMetrics, Some (breaker_open_error b)))
  else
    let m := {| mm_LoadCount := 0; mm_UnloadCount := 0; mm_TotalLatency := time_sub now sent; mm_VramUsageMB := 0;
                mm_GpuUsagePct := 0; mm_RequestCount := 0; mm_ErrorCount := 0 |} in
    match get (healthProbeURL b) with
    | inr err =>
        (with_breaker (RecordFailure now cb) b,
         (Unhealthy, m, Some (wrapErr ("health check failed for " +:+ ob_baseURL b +:+ ": ") err)))
    | inl _ => (with_breaker (RecordSuccess cb) b, (Healthy, m, None))
    end.

Definition DefaultHealthCheckInterval : Duration := 30 * second.
Definition effectiveHealthCheckInterval (d : Duration) : Duration := if d <=? 0 then DefaultHealthCheckInterval else d.

Definition DefaultModelRefreshInterval : Duration := 10 * second.
Definition effectiveModelRefreshInterval (d : Duration) : Duration := if d <=? 0 then DefaultModelRefreshInterval else d.

Section server.
Context `{B : WorkerBackend}.

(** ** State *)

Record Server := mkServer {
  sv_models : list ModelInfo;
  sv_chatHistory : list ChatRequest;
  sv_backend : option wb_state;
  sv_healthTracker : option ModelHealthTracker;
  sv_concurrencyEstimator : option ConcurrencyEstimator;
  sv_inferenceStats : option InferenceTracker;
  sv_allowedModels : list string;
  sv_excludedModels : list string;
  sv_apiKey : string;
}.

Definition NewServer (enableHealthChecks : bool) (apiKey : string) : Server :=
  mkServer [] [] None (Some (NewModelHealthTracker enableHealthChecks)) None (Some (NewInferenceTracker 0)) [] [] apiKey.

Definition SetModels (ms : list ModelInfo) (s : Server) : Server :=
  mkServer ms (sv_chatHistory s) (sv_backend s) (sv_healthTracker s) (sv_concurrencyEstimator s) (sv_inferenceStats s)
    (sv_allowedModels s) (sv_excludedModels s) (sv_apiKey s).
Definition set_history (h : list ChatRequest) (s : Server) : Server :=
  mkServer (sv_models s) h (sv_backend s) (sv_healthTracker s) (sv_concurrencyEstimator s) (sv_inferenceStats s)
    (sv_allowedModels s) (sv_excludedModels s) (sv_apiKey s).
Definition set_backend (b : wb_state) (s : Server) : Server :=
  mkServer (sv_models s) (sv_chatHistory s) (Some b) (sv_healthTracker s) (sv_concurrencyEstimator s) (sv_inferenceStats s)
    (sv_allowedModels s) (sv_excludedModels s) (sv_apiKey s).
Definition upd_health (f : ModelHealthTracker -> ModelHealthTracker) (s : Server) : Server :=
  mkServer (sv_models s) (sv_chatHistory s) (sv_backend s) (f <$> sv_healthTracker s) (sv_concurrencyEstimator s)
    (sv_inferenceStats s) (sv_allowedModels s) (sv_excludedModels s) (sv_apiKey s).
Definition upd_estimator (f : ConcurrencyEstimator -> ConcurrencyEstimator) (s : Server) : Server :=
  mkServer (sv_models s) (sv_chatHistory s) (sv_backend s) (sv_healthTracker s) (f <$> sv_concurrencyEstimator s)
    (sv_inferenceStats s) (sv_allowedModels s) (sv_excludedModels s) (sv_apiKey s).
Definition set_estimator (e : ConcurrencyEstimator) (s : Server) : Server :=
  mkServer (sv_models s) (sv_chatHistory s) (sv_backend s) (sv_healthTracker s) (Some e) (sv_inferenceStats s)
    (sv_allowedModels s) (sv_excludedModels s) (sv_apiKey s).
Definition set_stats (t : option InferenceTracker) (s : Server) : Server :=
  mkServer (sv_models s) (sv_chatHistory s) (sv_backend s) (sv_healthTracker s) (sv_concurrencyEstimator s) t
    (sv_allowedModels s) (sv_excludedModels s) (sv_apiKey s).

Definition SetModelFilters (allowed excluded : list string) (s : Server) : Server :=
  mkServer (sv_models s) (sv_chatHistory s) (sv_backend s) (sv_healthTracker s) (sv_concurrencyEstimator s)
    (sv_inferenceStats s) allowed excluded (sv_apiKey s).
Definition SetAPIKey (key : string) (s : Server) : Server :=
  mkServer (sv_models s) (sv_chatHistory s) (sv_backend s) (sv_healthTracker s) (sv_concurrencyEstimator s)
    (sv_inferenceStats s) (sv_allowedModels s) (sv_excludedModels s) key.
Definition SetInferenceWindow (d : Duration) (s : Server) : Server := set_stats (Some (NewInferenceTracker d)) s.

Definition ApplyModelFilters (s : Server) (caps : Capabilities) : Capabilities :=
  {| cap_GPU := cap_GPU caps; cap_Models := cap_Models caps; cap_Engines := cap_Engines caps; cap_VRAM := cap_VRAM caps;
     cap_System := cap_System caps; cap_AllowedModels := sv_allowedModels s; cap_ExcludedModels := sv_excludedModels s;
     cap_ConcurrencyCap := cap_ConcurrencyCap caps; cap_Threads := cap_Threads caps;
     cap_InferenceStats := cap_InferenceStats caps |}.

(** ** Models *)

(** The map of [mergeModels]: a later model replaces an earlier one of its name. *)
Definition by_name (ms : list ModelInfo) : gmap string ModelInfo :=
  foldl (fun seen m => <[mi_Name m := m]> seen) ∅ ms.

(** [range] is the order in which the map is visited. *)
Definition mergeModels (range : list (string * ModelInfo) -> list (string * ModelInfo)) (existing discovered : list ModelInfo) :
    list ModelInfo :=
  map snd (range (map_to_list (by_name (existing ++ discovered)))).

(** The first model of the name, marked as loaded. *)
Fixpoint mark_loaded (name : string) (ms : list ModelInfo) : option (list ModelInfo) :=
  match ms with
  | [] => None
  | m :: ms =>
      if String.eqb (mi_Name m) name then Some (with_Loaded true m :: ms)
      else (fun ms => m :: ms) <$> mark_loaded name ms
  end.

Definition loadModelByName (name : string) (s : Server) : Server * (bool * string) :=
  match mark_loaded name (sv_models s) with
  | Some ms => (SetModels ms s, (true, ""))
  | None => (s, (false, "model not found"))
  end.

(** [req] is the decoded body. *)
Definition loadModelHandler (post : bool) (req : option string) (w : ResponseWriter) (s : Server) : Server * ResponseWriter :=
  if negb post then (s, http_Error "method not allowed" 405 w)
  else
    match req with
    | None => (s, http_Error "invalid request" 400 w)
    | Some name =>
        match mark_loaded name (sv_models s) with
        | None => (s, http_Error "model not found" 404 w)
        | Some ms => (SetModels ms s, Write (Data "{status: loaded}") (set_type "application/json" w))
        end
    end.

(** The small endpoints; [encode] is the JSON of the list of models. *)
Definition health (w : ResponseWriter) : ResponseWriter := Write (Data "ok") (WriteHeader 200 w).

Definition newline : string := String (Ascii.ascii_of_nat 10) "".

Definition metrics (w : ResponseWriter) (s : Server) : ResponseWriter :=
  Write (Data (String.concat newline
                 ["# HELP workers_total Total number of registered workers"; "# TYPE workers_total gauge"; "workers_total 1";
                  "# HELP models_total Total number of available models"; "# TYPE models_total gauge";
                  "models_total " +:+ pretty (Z.of_nat (length (sv_models s))); ""]))
    (set_type "text/plain; version=0.0.4" w).

Definition modelsList (encode : list ModelInfo -> option string) (w : ResponseWriter) (s : Server) : ResponseWriter :=
  let w := set_type "application/json" w in
  match encode (sv_models s) with
  | Some json => Write (Data json) w
  | None => http_Error "failed to encode models" 500 w
  end.

(** One tick of [refreshModels]. *)
Definition refresh_tick (range : list (string * ModelInfo) -> list (string * ModelInfo)) (b : wb_state) (s : Server) : Server :=
  match wb_ListModels b with
  | inr _ | inl [] => s
  | inl models => SetModels (mergeModels range (sv_models s) models) s
  end.

(** [read_cap] reads the file of the estimator. *)
Definition SetBackend (read_cap : string -> option Z) (range : list (string * ModelInfo) -> list (string * ModelInfo))
    (b : wb_state) (s : Server) : Server :=
  let s := set_backend b s in
  let initCap := match wb_GetMetrics b with
                 | inl m => if 0 <? mt_Threads m then mt_Threads m else defaultInitCap
                 | inr _ => defaultInitCap
                 end in
  let s := set_estimator (NewConcurrencyEstimatorWithInit read_cap "/tmp/infermesh-concurrency-cache.json" initCap) s in
  match wb_ListModels b with
  | inl [] | inr _ => s
  | inl discovered => SetModels (mergeModels range (sv_models s) discovered) s
  end.

(** ** Capabilities *)

(** [detected] is what the aggregator reports; [order] a range over the models of
    the throughput tracker. *)
Definition handleCapabilities (now : Time) (order : list string) (detected : Capabilities) (s : Server) : Server * WorkerInfo :=
  let caps := with_Models (cap_Models detected ++ sv_models s) detected in
  let caps := ApplyModelFilters s caps in
  let cap := match sv_concurrencyEstimator s with Some e => Cap e | None => cap_ConcurrencyCap caps end in
  let threads := match sv_backend s with
                 | Some b => match wb_GetMetrics b with
                             | inl m => if 0 <? mt_Threads m then mt_Threads m else cap_Threads caps
                             | inr _ => cap_Threads caps
                             end
                 | None => cap_Threads caps
                 end in
  let '(stats, snaps) := match sv_inferenceStats s with
                         | Some t => let '(t, l) := Snapshots now order t in (Some t, l)
                         | None => (None, cap_InferenceStats caps)
                         end in
  (set_stats stats s,
   {| wi_ID := "worker-1"; wi_Hostname := "infermesh-worker"; wi_IP := "127.0.0.1"; wi_Port := 8081;
      wi_Capabilities :=
        {| cap_GPU := cap_GPU caps; cap_Models := cap_Models caps; cap_Engines := cap_Engines caps; cap_VRAM := cap_VRAM caps;
           cap_System := cap_System caps; cap_AllowedModels := cap_AllowedModels caps;
           cap_ExcludedModels := cap_ExcludedModels caps; cap_ConcurrencyCap := cap; cap_Threads := threads;
           cap_InferenceStats := snaps |};
      wi_Status := StatusAvailable; wi_Version := "v1"; wi_Transport := ""; wi_APIKey := ""; wi_LastSeen := zero_time |}).

(** ** Recording *)

Definition recordInference (now : Time) (model : string) (usage : option Usage) (ttft total : Duration) (s : Server) : Server :=
  match sv_inferenceStats s, usage with
  | Some t, Some u => set_stats (Some (Record_ now model (us_PromptTokens u) (us_CompletionTokens u) ttft total t)) s
  | _, _ => s
  end.

(** [time.Since(firstChunkAt)] and the instant of the sample are one read. *)
Definition recordStreamingInference (now : Time) (model : string) (usage : option Usage) (chunkCount : Z) (firstChunkAt : Time)
    (s : Server) : Server :=
  match sv_inferenceStats s with
  | None => s
  | Some t =>
      let ttft := time_sub now firstChunkAt in
      set_stats (Some match usage with
                      | Some u => Record_ now model (us_PromptTokens u) (us_CompletionTokens u) ttft ttft t
                      | None => Record_ now model 0 chunkCount ttft ttft t
                      end) s
  end.

Definition deriveStatusCode (err : option berr) : Z :=
  match err with None => 200 | Some e => default 0 (be_status e) end.

Definition isBackendTimeout (err : option berr) : bool :=
  match err with
  | None => false
  | Some e =>
      be_deadline e ||
      existsb (Contains (be_text e))
        ["deadline exceeded"; "context deadline exceeded"; "timeout"; "idle timeout"; "TLS handshake timeout"; "i/o timeout"]
  end.

(** One tick of [StartHealthCheckLoop]. *)
Definition health_tick (now : Time) (s : Server) : Server :=
  match sv_backend s with
  | None => s
  | Some b =>
      let '(b, err) := wb_HealthCheck b in
      let s := upd_health (RecordHealthCheck now (if err then Unhealthy else Healthy) zero_ModelMetrics) (set_backend b s) in
      match wb_GetCircuitState b with
      | CircuitOpen => upd_estimator (RecordCircuitOpen now) s
      | CircuitClosed => upd_estimator (RecordCircuitClosed now) s
      | CircuitHalfOpen => s
      end
  end.
End server.

(** ** Streaming *)

Definition nl2 : string := String (Ascii.ascii_of_nat 10) (String (Ascii.ascii_of_nat 10) "").

Definition sse_frame (json : string) : written := Data ("data: " +:+ json +:+ nl2).
Definition sse_done : written := Data ("data: [DONE]" +:+ nl2).

Definition ensureSSEHeaders (w : ResponseWriter) : ResponseWriter := set_type "text/event-stream" w.

Definition stream_error_status (err : berr) : Z := if isBackendTimeout (Some err) then 504 else 502.

Definition writeStreamBackendError (err : berr) (started : bool) (w : ResponseWriter) : ResponseWriter :=
  if negb started then
    Write (ErrorMap (be_text err)) (WriteHeader (stream_error_status err) (set_type "application/json" w))
  else Write sse_done w.

(** The variables of [streamSSE], with the response. *)
Record sse := mkSSE {
  ss_w : ResponseWriter;
  ss_started : bool;
  ss_firstChunkAt : Time;
  ss_chunkCount : Z;
  ss_finalUsage : option Usage;
}.

Definition set_w (w : ResponseWriter) (x : sse) : sse :=
  mkSSE w (ss_started x) (ss_firstChunkAt x) (ss_chunkCount x) (ss_finalUsage x).

Definition sse_start (w : ResponseWriter) : sse := mkSSE w false zero_time 0 None.

(** Why the loop returned. *)
Inductive stream_end := Cleanly | BackendError (e : berr) | NotMarshalled | ContextDone.

Definition checkAndHandlePendingError (b : bstream) (x : sse) : bstream * sse * option berr :=
  match recv_err b with
  | (Value e, b) => (b, set_w (writeStreamBackendError e (ss_started x) (ss_w x)) x, Some e)
  | (_, b) => (b, x, None)
  end.

Section streaming.
Context `{B : WorkerBackend} (marshal_chunk : Chunk -> option string).

(** The two cases of the [select]: [ctx] is that the context's end is taken;
    [None] is that it waits. *)
Definition handleChunkOrClose (ctx : bool) (now : Time) (model : string) (s : Server) (b : bstream) (x : sse) :
    option (Server * bstream * sse * option stream_end) :=
  if ctx then Some (s, b, x, Some ContextDone)
  else
    match recv_chunk b with
    | (Waits, _) => None
    | (Closed, b) =>
        match recv_err b with
        | (Value e, b) => Some (s, b, set_w (writeStreamBackendError e (ss_started x) (ss_w x)) x, Some (BackendError e))
        | (_, b) =>
            let w := if ss_started x then ss_w x else ensureSSEHeaders (ss_w x) in
            let s := if ss_started x
                     then recordStreamingInference now model (ss_finalUsage x) (ss_chunkCount x) (ss_firstChunkAt x) s
                     else s in
            Some (s, b, set_w (Write sse_done w) x, Some Cleanly)
        end
    | (Value chunk, b) =>
        let w := if ss_started x then ss_w x else ensureSSEHeaders (ss_w x) in
        let first := if ss_started x then ss_firstChunkAt x else now in
        let usage := match ck_Usage chunk with Some u => Some u | None => ss_finalUsage x end in
        let x := mkSSE w true first (wrap64 (ss_chunkCount x + 1)) usage in
        match marshal_chunk chunk with
        | None => Some (s, b, set_w (Write sse_done w) x, Some NotMarshalled)
        | Some json => Some (s, b, set_w (Write (sse_frame json) w) x, None)
        end
    end.

(** One round of [streamSSE]. *)
Definition stream_round (ctx : bool) (now : Time) (model : string) (s : Server) (b : bstream) (x : sse) :
    option (Server * bstream * sse * option stream_end) :=
  match checkAndHandlePendingError b x with
  | (b, x, Some e) => Some (s, b, x, Some (BackendError e))
  | (b, x, None) => handleChunkOrClose ctx now model s b x
  end.

(** The backend's goroutine and the loop taking turns; the server belongs to
    everyone. *)
Inductive streaming (model : string) : bstream * sse * option stream_end -> bstream * sse * option stream_end -> Prop :=
| streaming_backend b b' x : producer_step b b' -> streaming model (b, x, None) (b', x, None)
| streaming_round ctx now s s' b b' x x' r :
    stream_round ctx now model s b x = Some (s', b', x', r) -> streaming model (b, x, None) (b', x', r).

Definition frames (cs : list Chunk) : list written := omap (fun c => sse_frame <$> marshal_chunk c) cs.

(** What the loop adds to the response [w0] it starts from. *)
Definition added (w0 : ResponseWriter) (plan : list pact) (taken : list Chunk) (gaveUp : bool) (r : option stream_end)
    (w : ResponseWriter) : Prop :=
  match r with
  | None | Some ContextDone => rw_body w = rw_body w0 ++ frames taken
  | Some Cleanly =>
      rw_body w = rw_body w0 ++ frames taken ++ [sse_done] /\ (gaveUp = false -> taken = sends plan /\ fails plan = [])
  | Some (BackendError e) =>
      e ∈ fails plan /\
      match taken with
      | [] => w = Write (ErrorMap (be_text e)) (WriteHeader (stream_error_status e) (set_type "application/json" w0))
      | _ => rw_body w = rw_body w0 ++ frames taken ++ [sse_done]
      end
  | Some NotMarshalled =>
      exists cs c, taken = cs ++ [c] /\ marshal_chunk c = None /\ rw_body w = rw_body w0 ++ frames cs ++ [sse_done]
  end.

(** The state while the loop runs. *)
Definition sse_inv (w0 : ResponseWriter) (plan : list pact) (t : bstream * sse * option stream_end) : Prop :=
  let '(b, x, r) := t in
  exists taken errs, stream_inv plan taken errs b /\
    ss_started x = (if decide (taken = []) then false else true) /\
    added w0 plan taken (bs_gaveUp b) r (ss_w x) /\
    (r = None -> errs = [] /\ Forall (fun c => is_Some (marshal_chunk c)) taken /\ (taken = [] -> ss_w x = w0)).

Lemma rw_body_Write y w : rw_body (Write y w) = rw_body w ++ [y].
Proof. unfold Write, WriteHeader. by destruct (rw_status w). Qed.

Lemma write_error_body e started w0 w plan taken gu :
  started = (if decide (taken = []) then false else true) -> e ∈ fails plan ->
  rw_body w = rw_body w0 ++ frames taken -> (taken = [] -> w = w0) ->
  added w0 plan taken gu (Some (BackendError e)) (writeStreamBackendError e started w).
Proof.
  intros -> He Hw H0. unfold added, writeStreamBackendError. split; [done|].
  destruct (decide (taken = [])) as [->|Hne]; cbn [negb].
  - by rewrite H0.
  - destruct taken; [done|]. by rewrite rw_body_Write, Hw, <-(assoc_L (++)).
Qed.

Lemma frames_snoc cs c : frames (cs ++ [c]) = frames cs ++ match marshal_chunk c with Some j => [sse_frame j] | None => [] end.
Proof. unfold frames. rewrite omap_app. simpl. by destruct (marshal_chunk c). Qed.

Lemma recv_err_none b e b' : recv_err b = (e, b') -> (forall x, e <> Value x) -> b' = b.
Proof. unfold recv_err. destruct (bs_errCh b); intros [= <- <-]; [done|]. intros H. by destruct (H b0). Qed.

Lemma sse_inv_handle w0 plan ctx now model s s' b b' x x' r :
  sse_inv w0 plan (b, x, None) -> handleChunkOrClose ctx now model s b x = Some (s', b', x', r) ->
  sse_inv w0 plan (b', x', r).
Proof.
  intros (taken & errs & Hi & Hst & Hw & Hr) Hstep. destruct (Hr eq_refl) as (-> & Hm & H0). clear Hr. cbn [added] in Hw.
  unfold handleChunkOrClose in Hstep. destruct ctx; [injection Hstep as <- <- <- <-; exists taken, []; by split_and!|].
  destruct (recv_chunk b) as [c b2] eqn:Ec. destruct c as [c| |]; [| |done].
  - pose proof (recv_chunk_inv _ _ _ _ _ _ Hi Ec) as Hi'.
    set (w := if ss_started x then ss_w x else ensureSSEHeaders (ss_w x)) in *.
    assert (Hbw : rw_body w = rw_body w0 ++ frames taken) by (unfold w; rewrite <-Hw; by destruct (ss_started x)).
    clearbody w. assert (Hne : taken ++ [c] <> []) by (by destruct taken).
    destruct (marshal_chunk c) as [json|] eqn:Em; injection Hstep as <- <- <- <-; exists (taken ++ [c]), [];
      cbn [ss_started ss_w set_w]; rewrite decide_False by done; split_and!; try done.
    + cbn [added]. by rewrite rw_body_Write, Hbw, frames_snoc, Em, <-(assoc_L (++)).
    + intros _. split_and!; [done|by rewrite Forall_app, Forall_singleton, Em|done].
    + exists taken, c. split_and!; [done..|]. by rewrite rw_body_Write, Hbw, <-(assoc_L (++)).
  - destruct (stream_inv_end _ _ _ _ _ Hi Ec) as (-> & _ & _ & Hp & Hall & Herr).
    destruct (recv_err b) as [e b3] eqn:Ee. destruct e as [e| |].
    1: { injection Hstep as <- <- <- <-. destruct (stream_inv_error _ _ _ _ _ _ Hi Ee) as [He _].
         exists taken, [e]. split_and!; [by apply (recv_err_inv _ _ _ _ _ _ Hi Ee)|done| |done].
         cbn [ss_w set_w]. by apply write_error_body. }
    all: pose proof (recv_err_none _ _ _ Ee ltac:(done)) as ->; injection Hstep as <- <- <- <-; exists taken, [];
      split_and!; [done|done| |done]; cbn [ss_w set_w added]; split; [rewrite rw_body_Write, (assoc_L (++)); f_equal;
      rewrite <-Hw; by destruct (ss_started x)|].
    all: intros Hg; split; [by apply Hall|]; rewrite Hg in Herr; rewrite <-Herr; unfold recv_err in Ee;
      by destruct (bs_errCh b).
Qed.

Lemma sse_inv_round w0 plan ctx now model s s' b b' x x' r :
  sse_inv w0 plan (b, x, None) -> stream_round ctx now model s b x = Some (s', b', x', r) ->
  sse_inv w0 plan (b', x', r).
Proof.
  intros H Hstep. unfold stream_round, checkAndHandlePendingError in Hstep. destruct (recv_err b) as [e b1] eqn:Ee.
  destruct e as [e| |].
  { injection Hstep as <- <- <- <-. destruct H as (taken & errs & Hi & Hst & Hw & Hr). destruct (Hr eq_refl) as (-> & Hm & H0).
    destruct (stream_inv_error _ _ _ _ _ _ Hi Ee) as [He _].
    exists taken, [e]. split_and!; [by apply (recv_err_inv _ _ _ _ _ _ Hi Ee)|done| |done].
    cbn [ss_w set_w]. by apply write_error_body. }
  all: apply recv_err_none in Ee as ->; [|done]; by eapply sse_inv_handle.
Qed.

Lemma sse_inv_reach w0 plan model t :
  good_plan plan -> rtc (streaming model) (open_stream plan, sse_start w0, None) t -> sse_inv w0 plan t.
Proof.
  intros Hp. apply (rtc_invariant (streaming model) (sse_inv w0 plan)).
  - intros t1 t2 H Hst. destruct Hst as [b b' x Hb|ctx now s s' b b' x x' r Hround]; [|by eapply sse_inv_round].
    destruct H as (taken & errs & Hi & Hst & Hw & Hr). exists taken, errs. split_and!; [by eapply producer_inv|done| |done].
    exact Hw.
  - exists [], []. split_and!; [by apply stream_inv_open|done| |done]. cbn. by rewrite app_nil_r.
Qed.

(** A stream over HTTP is a prefix of the backend's chunks, in order, one
    frame each.  A loop that ends cleanly wrote every chunk, after which the
    backend reported no error, unless the backend itself gave up on a reader
    that was too slow; a backend error is that of the backend, answered with 502
    or 504 when nothing was sent and by the sentinel otherwise. *)
Theorem worker_stream w0 plan model b x r :
  good_plan plan -> rtc (streaming model) (open_stream plan, sse_start w0, None) (b, x, r) ->
  exists taken, taken `prefix_of` sends plan /\ added w0 plan taken (bs_gaveUp b) r (ss_w x).
Proof using.
  intros Hp Hr. apply sse_inv_reach in Hr as (taken & errs & Hi & _ & Hw & _); [|done].
  exists taken. split; [|done]. eapply prefix_app_l, Hi.
Qed.

#[local] Arguments Write : simpl never.

(** A status line that is sent stays. *)
Lemma status_stays w0 plan model b x r c :
  rw_status w0 = Some c -> rtc (streaming model) (open_stream plan, sse_start w0, None) (b, x, r) ->
  rw_status (ss_w x) = Some c.
Proof.
  intros Hc Hr. refine (rtc_invariant (streaming model) (fun t => rw_status (ss_w t.1.2) = Some c) (open_stream plan, sse_start w0, None) (b, x, r) _ Hc Hr).
  clear -Hc. intros t1 t2 H Hst. revert H. destruct Hst as [b b' x Hb|ctx now s s' b b' x x' r Hround]; cbn [fst snd]; intros H; [exact H|].
  assert (HW : forall w y, rw_status w = Some c -> rw_status (Write y w) = Some c).
  { intros w y E. unfold Write, WriteHeader. by rewrite E. }
  assert (HE : forall e st w, rw_status w = Some c -> rw_status (writeStreamBackendError e st w) = Some c).
  { intros e st w E. unfold writeStreamBackendError. destruct st; simpl negb; cbn iota; apply HW; [done|].
    unfold WriteHeader, set_type. simpl. by rewrite E. }
  unfold stream_round, checkAndHandlePendingError, handleChunkOrClose in Hround.
  repeat case_match; simplify_eq; cbn [ss_w set_w] in *; auto; apply HW; done.
Qed.
(** The status line of a stream: 200 with the first frame or the sentinel, the
    error's when it comes first. *)
Lemma status_sent plan model b x r :
  rtc (streaming model) (open_stream plan, sse_start new_writer, None) (b, x, r) ->
  rw_status (ss_w x) =
    match r with
    | Some Cleanly | Some NotMarshalled => Some 200
    | Some (BackendError e) => Some (if ss_started x then 200 else stream_error_status e)
    | _ => if ss_started x then Some 200 else None
    end.
Proof.
  intros Hr. refine (rtc_invariant (streaming model) (fun t => rw_status (ss_w t.1.2) = match t.2 with
    | Some Cleanly | Some NotMarshalled => Some 200
    | Some (BackendError e) => Some (if ss_started t.1.2 then 200 else stream_error_status e)
    | _ => if ss_started t.1.2 then Some 200 else None
    end) (open_stream plan, sse_start new_writer, None) (b, x, r) _ eq_refl Hr).
  clear. intros t1 t2 H Hst. revert H. destruct Hst as [b b' x Hb|ctx now s s' b b' x x' r Hround]; cbn [fst snd]; intros H; [exact H|].
  assert (HW : forall y w, rw_status w = (if ss_started x then Some 200 else None) -> rw_status (Write y w) = Some 200).
  { intros y w E. unfold Write, WriteHeader. rewrite E. by destruct (ss_started x). }
  assert (HE : forall e, rw_status (writeStreamBackendError e (ss_started x) (ss_w x)) =
    Some (if ss_started x then 200 else stream_error_status e)).
  { intros e. unfold writeStreamBackendError. destruct (ss_started x) eqn:Es; cbn [negb]; [by apply HW|].
    unfold Write, WriteHeader, set_type. simpl. by rewrite H. }
  unfold stream_round, checkAndHandlePendingError, handleChunkOrClose in Hround.
  repeat case_match; simplify_eq; cbn [ss_w set_w ss_started] in *; auto; try congruence; apply HW; done.
Qed.
End streaming.

(** ** Completions *)

Section completions.
Context `{B : WorkerBackend} (encode : Response -> option string) (marshal_chunk : Chunk -> option string).

(** The instants are those of the start and of the end of the call. *)
Definition dispatchNonStreaming (start now : Time) (model : string) (complete : wb_state -> wb_state * res Response)
    (b : wb_state) (w : ResponseWriter) (s : Server) : Server * ResponseWriter * bool :=
  let w := set_type "application/json" w in
  let '(b, resp) := complete b in
  let s := set_backend b s in
  let elapsed := time_sub now start in
  let err := match resp with inl _ => None | inr e => Some e end in
  let s := upd_estimator (RecordRequest now start (deriveStatusCode err)) s in
  match resp with
  | inr e => (s, http_Error (be_text e) 500 w, false)
  | inl r =>
      let s := recordInference now model (rs_Usage r) elapsed elapsed s in
      match encode r with
      | None => (s, http_Error "internal server error" 500 w, false)
      | Some json => (s, Write (Data json) w, true)
      end
  end.

(** What follows the parsing of a request: a whole response, or a response so
    far and the stream the loop [streaming] goes on with. *)
Definition serve_request (start now : Time) (stream flusher : bool) (model : string)
    (complete : wb_state -> wb_state * res Response) (open : wb_state -> list pact) (w : ResponseWriter) (s : Server) :
    Server * (ResponseWriter + list pact * ResponseWriter) :=
  match sv_backend s with
  | None => (s, inl (http_Error "backend not configured" 500 w))
  | Some b =>
      if negb (wb_IsHealthy b) then
        (upd_estimator (RecordCircuitOpen start) s, inl (http_Error "backend is unhealthy" 503 w))
      else
        let '(s, w, responded) := if negb stream then dispatchNonStreaming start now model complete b w s
                                  else (s, w, false) in
        if responded then (s, inl w)
        else if negb flusher then (s, inl (http_Error "streaming unsupported" 500 w))
        else (s, inr (open (default b (sv_backend s)), w))
  end.

Definition maxChatHistory : nat := 1000.

(** [req] is the parsed body, [None] when it does not parse. *)
Definition chatCompletions (start now : Time) (flusher : bool) (req : option ChatRequest) (s : Server) :
    Server * (ResponseWriter + list pact * ResponseWriter) :=
  let w := new_writer in
  match req with
  | None => (s, inl (http_Error "invalid request" 400 w))
  | Some req =>
      let h := sv_chatHistory s ++ [req] in
      let s := set_history (if (maxChatHistory <? length h)%nat then drop (length h - maxChatHistory) h else h) s in
      serve_request start now (cr_Stream req) flusher (cr_Model req) (wb_CompleteChat (cr_Model req) req)
        (wb_StreamChat (cr_Model req) req) w s
  end.

Definition completions (start now : Time) (flusher : bool) (req : option CompletionRequest) (s : Server) :
    Server * (ResponseWriter + list pact * ResponseWriter) :=
  let w := new_writer in
  match req with
  | None => (s, inl (http_Error "invalid request" 400 w))
  | Some req =>
      serve_request start now (cq_Stream req) flusher (cq_Model req) (wb_CompleteCompletions (cq_Model req) req)
        (wb_StreamCompletions (cq_Model req) req) w s
  end.

Context `{L : !WorkerBackendLaws B}.

(** A completion that succeeds is answered with it, status 200 by default,
    its usage recorded and the concurrency estimator told of the call.  A
    completion that fails is answered twice: the handler writes the error with
    status 500 and then, since only success returns, runs the request again
    as a stream, whose frames and sentinel follow the error in the same
    response. *)
Theorem failed_completion_streams start now req b s :
  cr_Stream req = false -> sv_backend s = Some b -> wb_IsHealthy b = true ->
  let '(b1, resp) := wb_CompleteChat (cr_Model req) req b in
  let '(s', r) := chatCompletions start now true (Some req) s in
  match resp with
  | inl x =>
      forall json, encode x = Some json ->
        r = inl (mkWriter "application/json" (Some 200) [Data json]) /\ sv_backend s' = Some b1 /\
        sv_concurrencyEstimator s' = RecordRequest now start 200 <$> sv_concurrencyEstimator s /\
        sv_inferenceStats s' =
          sv_inferenceStats (recordInference now (cr_Model req) (rs_Usage x) (time_sub now start) (time_sub now start) s)
  | inr e =>
      let plan := wb_StreamChat (cr_Model req) req b1 in
      exists w, r = inr (plan, w) /\
        forall st x, rtc (streaming marshal_chunk (cr_Model req)) (open_stream plan, sse_start w, None) (st, x, Some Cleanly) ->
          exists taken, rw_status (ss_w x) = Some 500 /\
            rw_body (ss_w x) = ErrorText (be_text e) :: frames marshal_chunk taken ++ [sse_done] /\
            (bs_gaveUp st = false -> taken = sends plan)
  end.
Proof using L.
  intros Hs Hb Hh. unfold chatCompletions, serve_request. rewrite Hs.
  cbn [set_history sv_backend]. rewrite Hb, Hh. cbn [negb]. unfold dispatchNonStreaming.
  destruct (wb_CompleteChat (cr_Model req) req b) as [b1 [x|e]].
  - destruct (encode x) as [json|] eqn:Ex; [|cbn; by intros ? [=]].
    intros json' [= <-]. split_and!; [done|..]; unfold recordInference; simpl;
      destruct (sv_inferenceStats s), (rs_Usage x); done.
  - cbn iota. set (w := http_Error (be_text e) 500 (set_type "application/json" new_writer)). exists w. split; [done|].
    intros st x Hr. pose proof (status_stays marshal_chunk w _ _ _ _ _ 500 eq_refl Hr) as Hst.
    apply worker_stream in Hr as (taken & _ & Hbody & Hall); [|apply wb_chat_plan].
    exists taken. split_and!; [done|done|]. intros Hg. by apply Hall.
Qed.
End completions.

(** ** Models: merging and loading *)

(** The last model of a name. *)
Definition last_named (name : string) (ms : list ModelInfo) : option ModelInfo :=
  List.find (fun m => String.eqb (mi_Name m) name) (rev ms).

Lemma by_name_snoc ms m : by_name (ms ++ [m]) = <[mi_Name m := m]> (by_name ms).
Proof. unfold by_name. by rewrite foldl_app. Qed.

Lemma by_name_lookup name ms : by_name ms !! name = last_named name ms.
Proof.
  unfold last_named. induction ms as [|m ms IH] using rev_ind; [apply lookup_empty|].
  rewrite by_name_snoc, rev_app_distr. simpl. destruct (String.eqb_spec (mi_Name m) name) as [->|Hne].
  - apply lookup_insert_eq.
  - by rewrite lookup_insert_ne.
Qed.

Lemma last_named_name name ms m : last_named name ms = Some m -> mi_Name m = name.
Proof. unfold last_named. intros H%List.find_some. by destruct H as [_ ?%String.eqb_eq]. Qed.

(** Merging keeps one model per name, the last one of the two lists, whatever
    order the map is visited in. *)
Theorem mergeModels_spec range existing discovered :
  (forall l, range l ≡ₚ l) ->
  let ms := mergeModels range existing discovered in
  NoDup (map mi_Name ms) /\
  forall m, m ∈ ms <-> last_named (mi_Name m) (existing ++ discovered) = Some m.
Proof.
  intros Hp ms. set (seen := by_name (existing ++ discovered)).
  assert (Hk : forall k m, seen !! k = Some m -> mi_Name m = k).
  { intros k m. unfold seen. rewrite by_name_lookup. apply last_named_name. }
  assert (Hms : ms ≡ₚ map snd (map_to_list seen)) by (unfold ms, mergeModels; by rewrite Hp).
  split.
  - rewrite Hms, map_map. rewrite (map_ext_in _ fst).
    + change (map fst (map_to_list seen)) with ((map_to_list seen).*1). apply NoDup_fst_map_to_list.
    + intros [k m] Hin. simpl. apply Hk, elem_of_map_to_list, list_elem_of_In. exact Hin.
  - intros m. rewrite Hms, <-by_name_lookup. fold seen. change (map snd) with (fmap (M := list) (@snd string ModelInfo)).
    rewrite list_elem_of_fmap. split.
    + intros ([k m'] & -> & Hin%elem_of_map_to_list). simpl. by rewrite (Hk _ _ Hin).
    + intros H. exists (mi_Name m, m). split; [done|by apply elem_of_map_to_list].
Qed.

(** Loading finds a model exactly when it is declared, marks the first of its
    name and changes nothing else. *)
Lemma mark_loaded_models name ms :
  match mark_loaded name ms with
  | None => Forall (fun m => mi_Name m <> name) ms
  | Some ms' => exists pre m post, ms = pre ++ m :: post /\ ms' = pre ++ with_Loaded true m :: post /\
      mi_Name m = name /\ Forall (fun m => mi_Name m <> name) pre
  end.
Proof.
  induction ms as [|m ms IH]; simpl; [done|]. destruct (String.eqb_spec (mi_Name m) name) as [He|He].
  - exists [], m, ms. done.
  - destruct (mark_loaded name ms) as [ms'|]; simpl; [|by constructor].
    destruct IH as (pre & m' & post & -> & -> & Hm & Hpre). exists (m :: pre), m', post. split_and!; try done. by constructor.
Qed.

(** ** Concrete instances *)

#[local] Existing Instance ex_openai.

(** A network on which completions are refused and streams deliver two chunks. *)
Definition ex_network : network :=
  {| nw_do _ _ := inr (Errorf "refused");
     nw_stream _ := (inl {| sr_StatusCode := 200; sr_Body := ""; sr_lines := ["data: a"; "data: b"; "data: [DONE]"];
                            sr_end := {| sn_err := None; sn_idle := false |} |}, false);
     nw_get _ := inl {| hr_StatusCode := 200; hr_Body := "" |};
     nw_start := 0; nw_now := Z.of_nat; nw_cancelled _ := None; nw_show _ := "2m0s"; nw_unix := 0 |}.

#[local] Instance ex_worker : WorkerBackend := openai_backend ex_network (OllamaBackend "llama").

Definition ex_marshal (c : Chunk) : option string := Some (ck_ID c).

(** [n] steps of the backend alone. *)
Fixpoint produce_n (n : nat) (b : bstream) : bstream :=
  match n with O => b | S n => produce_n n (default b (produce b)) end.

Lemma produce_n_steps n b x model :
  rtc (streaming ex_marshal model) (b, x, None) (produce_n n b, x, None).
Proof.
  revert b. induction n as [|n IH]; intros b; simpl; [apply rtc_refl|].
  destruct (produce b) as [b'|] eqn:E; simpl; [|apply IH]. eapply rtc_l; [apply streaming_backend; by left|]. apply IH.
Qed.

Definition ex_plan : list pact := wb_StreamChat (WorkerBackend := ex_worker) "llama" (ex_chat true) (ex_backend_of "ollama").

Definition ex_server_of : Server (B := ex_worker) := set_backend (ex_backend_of "ollama") (NewServer false "").

(** The loop at the given instants until it returns. *)
Fixpoint rounds (nows : list Time) (b : bstream) (x : sse) : option (bstream * sse * option stream_end) :=
  match nows with
  | [] => Some (b, x, None)
  | now :: nows =>
      match stream_round ex_marshal false now "llama" ex_server_of b x with
      | Some (_, b, x, None) => rounds nows b x
      | Some (_, b, x, r) => Some (b, x, r)
      | None => None
      end
  end.

Lemma rounds_reach nows b x t : rounds nows b x = Some t -> rtc (streaming ex_marshal "llama") (b, x, None) t.
Proof.
  revert b x. induction nows as [|now nows IH]; intros b x; simpl; [intros [= <-]; apply rtc_refl|].
  destruct (stream_round _ _ _ _ _ _ _) as [[[[s1 b1] x1] [r|]]|] eqn:E; [|intros H|done].
  - intros [= <-]. apply rtc_once. by eapply streaming_round.
  - eapply rtc_l; [by eapply streaming_round|]. by apply IH.
Qed.

(** The loop reads both chunks and the end of a stream that is all there. *)
Definition ex_rounds (w : ResponseWriter) : option (bstream * sse * option stream_end) :=
  rounds [1; 2; 3] (produce_n 4 (open_stream ex_plan)) (sse_start w).

Lemma ex_rounds_reach w t :
  ex_rounds w = Some t -> rtc (streaming ex_marshal "llama") (open_stream ex_plan, sse_start w, None) t.
Proof.
  unfold ex_rounds. generalize ex_plan. intros plan H%rounds_reach. etrans; [apply (produce_n_steps 4)|exact H].
Qed.

Lemma worker_stream_witness :
  exists b x, rtc (streaming ex_marshal "llama") (open_stream ex_plan, sse_start new_writer, None) (b, x, Some Cleanly) /\
    good_plan ex_plan /\
    exists taken, rw_body (ss_w x) = frames ex_marshal taken ++ [sse_done] /\ taken = [ex_chunk "a"; ex_chunk "b"].
Proof.
  destruct (ex_rounds new_writer) as [[[b x] r]|] eqn:E; [|vm_compute in E; discriminate].
  assert (Hr : r = Some Cleanly /\ bs_gaveUp b = false) by (vm_compute in E; injection E as <- <- <-; split; reflexivity).
  destruct Hr as [-> Hg]. apply ex_rounds_reach in E. exists b, x. split; [exact E|].
  assert (Hp : good_plan ex_plan) by apply wb_chat_plan. split; [exact Hp|].
  destruct (worker_stream ex_marshal new_writer ex_plan "llama" b x (Some Cleanly) Hp E) as (taken & _ & Hbody & Hall).
  exists taken. split; [exact Hbody|]. destruct (Hall Hg) as [-> _]. vm_compute. reflexivity.
Defined.

(** The refused completion is answered with the error and then with the stream. *)
Lemma failed_completion_streams_witness :
  exists plan w, (chatCompletions (fun _ => None) 0 5 true (Some (ex_chat false)) ex_server_of).2 = inr (plan, w) /\
    exists st x, rtc (streaming ex_marshal "llama") (open_stream plan, sse_start w, None) (st, x, Some Cleanly) /\
      rw_status (ss_w x) = Some 500.
Proof.
  pose proof (failed_completion_streams (fun _ => None) ex_marshal 0 5 (ex_chat false) (ex_backend_of "ollama") ex_server_of
    eq_refl eq_refl eq_refl) as H.
  destruct (wb_CompleteChat (WorkerBackend := ex_worker) (cr_Model (ex_chat false)) (ex_chat false) (ex_backend_of "ollama")) as [b1 resp] eqn:Eb.
  destruct (chatCompletions _ 0 5 true _ ex_server_of) as [s' r].
  destruct resp as [y|e]; [vm_compute in Eb; discriminate|].
  destruct H as (w & -> & Hrun).
  assert (Hplan : wb_StreamChat (WorkerBackend := ex_worker) (cr_Model (ex_chat false)) (ex_chat false) b1 = ex_plan).
  { vm_compute in Eb. injection Eb as <- _. vm_compute. reflexivity. }
  rewrite Hplan in *. exists ex_plan, w. split; [reflexivity|].
  destruct (ex_rounds w) as [[[b x] r]|] eqn:E; [|vm_compute in E; discriminate].
  assert (r = Some Cleanly) as -> by (vm_compute in E; injection E as <- <- <-; reflexivity).
  apply ex_rounds_reach in E. exists b, x. split; [exact E|]. by destruct (Hrun b x E) as (taken & Hst & _).
Defined.

Lemma mergeModels_spec_witness :
  NoDup (map mi_Name (mergeModels (fun l => rev l) [] [])).
Proof. apply (mergeModels_spec (fun l => rev l) [] []). intros l. symmetry. apply Permutation_rev. Defined.
