(* ===== verification/WorkerClient.v ===== *)
(** * WorkerClient: the worker's WebSocket client ([pkg/worker/ws_client.go])

    The reconnect loop, the handling of a router's message and the relaying of
    a backend stream as messages.  Every write goes through [send], whose
    outcome is an argument; JSON, URLs and the jitter's draws are arguments.
    The last part joins the worker's messages to the router's pending call. *)

From S2P Require Import Prelude GoFloat GoStrings Errors Protocol Breaker Backend WorkerServer Pending.

From Stdlib Require Import Ascii.

#[local] Open Scope list_scope.

(** ** Configuration and reconnecting *)

Definition wsRegisterBackoffBase : Duration := second.
Definition DefaultHeartbeatInterval : Duration := 30 * second.
Definition WriteTimeout : Duration := 30 * second.

Record WSConfig := {
  wc_RouterURL : string;
  wc_HeartbeatInterval : Duration;
  wc_MaxReconnectDelay : Duration;
  wc_WriteTimeout : Duration;
}.

Definition withDefaults (c : WSConfig) : WSConfig :=
  {| wc_RouterURL := wc_RouterURL c;
     wc_HeartbeatInterval := if wc_HeartbeatInterval c <=? 0 then DefaultHeartbeatInterval else wc_HeartbeatInterval c;
     wc_MaxReconnectDelay := if wc_MaxReconnectDelay c <=? 0 then 30 * second else wc_MaxReconnectDelay c;
     wc_WriteTimeout := if wc_WriteTimeout c <=? 0 then WriteTimeout else wc_WriteTimeout c |}.

(** A parsed URL: what the code reads and sets, and the rest of it. *)
Record URL := { u_Base : string; u_Path : string; u_RawQuery : string; u_Fragment : string }.

Definition canonicalConnectPath : string := "/v1/connect".

(** The scheme the code gives an address. *)
Definition ws_scheme (s : string) : string :=
  if HasPrefix s "http://" then "ws://" +:+ TrimPrefix s "http://"
  else if HasPrefix s "https://" then "wss://" +:+ TrimPrefix s "https://"
  else if negb (HasPrefix s "ws://") && negb (HasPrefix s "wss://") then "ws://" +:+ s
  else s.

(** [net/url] is the two arguments. *)
Definition normalizeConnectURL (parse : string -> option URL) (show : URL -> string) (raw : string) : option string :=
  u ← parse (ws_scheme (TrimSpace raw));
  let path := if String.eqb (u_Path u) canonicalConnectPath || String.eqb (u_Path u) (canonicalConnectPath +:+ "/")
              then "" else u_Path u in
  let path := if String.eqb path "" || String.eqb path "/" then canonicalConnectPath else path in
  Some (show {| u_Base := u_Base u; u_Path := path; u_RawQuery := ""; u_Fragment := "" |}).

(** [draw] is [rand.Float64()]. *)
Definition nextBackoff (draw : float64) (prev max : Duration) : Duration :=
  let prev := if prev <=? 0 then wsRegisterBackoffBase else prev in
  let next := wrap64 (prev * 2) in
  let next := if (0 <? max) && (max <? next) then max else next in
  let delta := Z.quot next 5 in
  wrap64 (next - delta + to_int (fmul draw (of_int (wrap64 (2 * delta))))).

(** A round of [WSRegisterLoop]: how long the connection served, 0 when it could
    not be made, and the draw of the backoff after it. *)
Record ws_round := { wr_served : Duration; wr_draw : float64 }.

(** The delays the loop waits after each round, starting with [delay]. *)
Fixpoint register_delays (max delay : Duration) (rounds : list ws_round) : list Duration :=
  match rounds with
  | [] => []
  | r :: rounds => delay :: register_delays max (nextBackoff (wr_draw r) delay max) rounds
  end.

Definition WSRegisterLoop (cfg : WSConfig) (rounds : list ws_round) : list Duration :=
  register_delays (wc_MaxReconnectDelay (withDefaults cfg)) wsRegisterBackoffBase rounds.

(** ** Writing *)

(** The frames on the wire and how many sends were tried. *)
Record wsOutbound := { wo_sent : list Message; wo_tried : nat }.

Section client.
Context {J : JSON} `{B : WorkerBackend}.

(** Whether the [k]-th write works; the text of a marshalling error; JSON of
    the request bodies, responses and chunks. *)
Context (works : nat -> bool) (marshal_text : string).
Context (decode_chat_request : raw -> res ChatRequest) (decode_completion_request : raw -> res CompletionRequest)
  (encode : Response -> res raw) (marshal_chunk : Chunk -> res raw).

(** The boolean is success. *)
Definition send (m : Message) (o : wsOutbound) : wsOutbound * bool :=
  if works (wo_tried o) then ({| wo_sent := wo_sent o ++ [m]; wo_tried := S (wo_tried o) |}, true)
  else ({| wo_sent := wo_sent o; wo_tried := S (wo_tried o) |}, false).

Definition reply (id : string) (t : MessageType) (payload : raw) : Message :=
  {| msg_ID := id; msg_Type := t; msg_WorkerID := ""; msg_Payload := payload |}.

(** A message of the payload, sent when it marshals. *)
Definition send_payload (id : string) (t : MessageType) (p : Payload) (o : wsOutbound) : wsOutbound * bool :=
  match marshal_payload p with None => (o, false) | Some raw => send (reply id t raw) o end.

Definition sendError (id text : string) (o : wsOutbound) : wsOutbound :=
  (send_payload id MsgError (PError {| ep_Message := text; ep_Code := "worker_error"; ep_ID := id |}) o).1.

Definition sendBackendError (id : string) (err : berr) (o : wsOutbound) : wsOutbound :=
  (send_payload id MsgInferenceResponse
     (PInferenceResponse {| irp_Kind := ""; irp_Done := true; irp_Error := be_text err; irp_Response := "" |}) o).1.

Definition sendInferenceDone (id : string) (response : raw) (o : wsOutbound) : wsOutbound :=
  (send_payload id MsgInferenceResponse
     (PInferenceResponse {| irp_Kind := ""; irp_Done := true; irp_Error := ""; irp_Response := response |}) o).1.

Definition sendChunk (id kind : string) (chunk : Chunk) (o : wsOutbound) : wsOutbound * bool :=
  match marshal_chunk chunk with
  | inr e => (sendError id ("marshal chunk: " +:+ be_text e) o, false)
  | inl raw =>
      match marshal_payload (PInferenceChunk {| icp_Kind := kind; icp_Chunk := raw |}) with
      | None => (sendError id ("marshal chunk envelope: " +:+ marshal_text) o, false)
      | Some payload => send (reply id MsgInferenceChunk payload) o
      end
  end.

(** A completion's result as the last message of its call. *)
Definition answer (id : string) (r : res Response) (o : wsOutbound) : wsOutbound :=
  match r with
  | inr err => sendBackendError id err o
  | inl resp =>
      match encode resp with
      | inr e => sendError id ("marshal response: " +:+ be_text e) o
      | inl raw => sendInferenceDone id raw o
      end
  end.

(** ** Relaying a stream *)

(** The cases of the [select]s of [streamOrFallback]; the first one alone has
    the timer. *)
Inductive ws_case := OnChunk | OnErr | OnGrace | OnCtx.

Inductive ws_end := Finished | FailedWith (e : berr) | FellBack | SendFailed | CtxDone.

(** One [select]: [None] when the case is not ready.  [complete] is the fallback. *)
Definition ws_select (id kind : string) (complete : wb_state -> wb_state * res Response) (first : bool) (case : ws_case)
    (b : bstream) (o : wsOutbound) (backend : wb_state) : option (bstream * wsOutbound * wb_state * option ws_end) :=
  match case with
  | OnChunk =>
      match recv_chunk b with
      | (Waits, _) => None
      | (Closed, b) => Some (b, sendInferenceDone id "" o, backend, Some Finished)
      | (Value chunk, b) =>
          let '(o, ok) := sendChunk id kind chunk o in
          Some (b, o, backend, if ok then None else Some SendFailed)
      end
  | OnErr =>
      match recv_err b with
      | (Waits, _) => None
      | (Value err, b) => Some (b, sendBackendError id err o, backend, Some (FailedWith err))
      | (Closed, b) => Some (b, sendInferenceDone id "" o, backend, Some Finished)
      end
  | OnGrace =>
      if negb first then None
      else let '(backend, r) := complete backend in Some (b, answer id r o, backend, Some FellBack)
  | OnCtx => Some (b, o, backend, Some CtxDone)
  end.

Record relayed := mkRelayed {
  re_stream : bstream;
  re_out : wsOutbound;
  re_backend : wb_state;
  re_first : bool;
  re_end : option ws_end;
}.

(** The backend's goroutine and [streamOrFallback] taking turns. *)
Inductive relaying (id kind : string) (complete : wb_state -> wb_state * res Response) : relayed -> relayed -> Prop :=
| relaying_backend b b' o w first : producer_step b b' ->
    relaying id kind complete (mkRelayed b o w first None) (mkRelayed b' o w first None)
| relaying_select b b' o o' w w' first case r : ws_select id kind complete first case b o w = Some (b', o', w', r) ->
    relaying id kind complete (mkRelayed b o w first None) (mkRelayed b' o' w' false r).

Definition streamOrFallback_start (plan : list pact) (o : wsOutbound) (w : wb_state) : relayed :=
  mkRelayed (open_stream plan) o w true None.

(** ** Dispatching *)

(** A request that is answered, or a stream to relay: its kind, plan and
    fallback. *)
Inductive dispatched :=
| Answered (o : wsOutbound) (s : option Server)
| Relays (kind : string) (plan : list pact) (complete : wb_state -> wb_state * res Response).

Definition dispatchChat (id : string) (p : InferenceRequestPayload) (b : wb_state) (s : Server) (o : wsOutbound) : dispatched :=
  match decode_chat_request (irq_Body p) with
  | inr e => Answered (sendError id ("invalid chat request body: " +:+ be_text e) o) (Some s)
  | inl req =>
      if cr_Stream req then Relays "chat" (wb_StreamChat (cr_Model req) req b) (wb_CompleteChat (cr_Model req) req)
      else let '(b, r) := wb_CompleteChat (cr_Model req) req b in Answered (answer id r o) (Some (set_backend b s))
  end.

Definition dispatchCompletion (id : string) (p : InferenceRequestPayload) (b : wb_state) (s : Server) (o : wsOutbound) :
    dispatched :=
  match decode_completion_request (irq_Body p) with
  | inr e => Answered (sendError id ("invalid completion request body: " +:+ be_text e) o) (Some s)
  | inl req =>
      if cq_Stream req then
        Relays "completion" (wb_StreamCompletions (cq_Model req) req b) (wb_CompleteCompletions (cq_Model req) req)
      else let '(b, r) := wb_CompleteCompletions (cq_Model req) req b in Answered (answer id r o) (Some (set_backend b s))
  end.

(** [quote] is [%q]. *)
Definition dispatchInferenceRequest (quote : string -> string) (msg : Message) (s : option Server) (o : wsOutbound) : dispatched :=
  match s with
  | None => Answered (sendError (msg_ID msg) "worker backend not configured" o) s
  | Some srv =>
      match sv_backend srv with
      | None => Answered (sendError (msg_ID msg) "worker backend not configured" o) s
      | Some b =>
          match DecodePayload zero_RequestPayload decode_inference_request msg with
          | None => Answered (sendError (msg_ID msg) ("bad inference request: " +:+ marshal_text) o) s
          | Some p =>
              if String.eqb (irq_Kind p) "chat" then dispatchChat (msg_ID msg) p b srv o
              else if String.eqb (irq_Kind p) "completion" then dispatchCompletion (msg_ID msg) p b srv o
              else Answered (sendError (msg_ID msg) ("unknown inference kind " +:+ quote (irq_Kind p)) o) s
          end
      end
  end.

(** [drawn] is the identifier [NewMessage] draws, replaced by the request's. *)
Definition dispatchModelLoadRequest (drawn : string) (msg : Message) (s : option Server) (o : wsOutbound) :
    option Server * wsOutbound :=
  match DecodePayload zero_ModelLoadRequest decode_model_load_request msg with
  | None => (s, sendError (msg_ID msg) ("bad model load request: " +:+ marshal_text) o)
  | Some p =>
      let '(s, loaded, err) :=
        match s with
        | None => (None, false, "worker server not configured")
        | Some srv => let '(srv, (loaded, err)) := loadModelByName (mlq_Model p) srv in (Some srv, loaded, err)
        end in
      match NewMessage drawn MsgModelLoadResponse
              (Some (PModelLoadResponse {| mlr_Model := mlq_Model p; mlr_Loaded := loaded; mlr_Error := err |})) with
      | None => (s, sendError (msg_ID msg) ("marshal model load response: " +:+ marshal_text) o)
      | Some resp => (s, (send (reply (msg_ID msg) (msg_Type resp) (msg_Payload resp)) o).1)
      end
  end.

(** What a message makes the reader loop do: go on, stop, or start a goroutine. *)
Inductive handled :=
| GoOn (o : wsOutbound) | Stops (o : wsOutbound) (failed : bool)
| StartInference (msg : Message) | StartModelLoad (msg : Message).

Definition handleWSMessage (msg : Message) (o : wsOutbound) : handled :=
  match msg_Type msg with
  | MsgPing => let '(o, ok) := send (reply (msg_ID msg) MsgPing "") o in if ok then GoOn o else Stops o true
  | MsgInferenceRequest => StartInference msg
  | MsgModelLoadRequest => StartModelLoad msg
  | MsgClose => Stops o false
  | _ => GoOn o
  end.

(** The first message of a connection; the boolean is whether the connection
    goes on to serve.  A tick of the heartbeat is the same with its own type. *)
Definition send_register (drawn : string) (info : WorkerInfo) (o : wsOutbound) : wsOutbound * bool :=
  match NewMessage drawn MsgRegister (Some (PRegister {| rp_Worker := info; rp_Relay := false |})) with
  | None => (o, false)
  | Some m => send m o
  end.

(** The boolean is whether the heartbeat goroutine goes on. *)
Definition heartbeat_tick (drawn : string) (info : WorkerInfo) (o : wsOutbound) : wsOutbound * bool :=
  match NewMessage drawn MsgHeartbeat (Some (PHeartbeat {| hp_Worker := info |})) with
  | None => (o, true)
  | Some m => send m o
  end.
End client.

(** ** The router's side of a call that nothing fails *)

Definition routed (e : call_event) : option Message := match e with Routed _ m => Some m | _ => None end.

(** Messages and the caller's reads alone. *)
Definition unfailed (evs : list call_event) : Prop := Forall (fun e => match e with Failed _ => False | _ => True end) evs.

Section router.
Context {J : JSON}.

Definition effect_frames (ms : list Message) : list StreamEvent := concat (map (fun m => (stream_effect m).1) ms).

Lemma stream_effect_closed pick m pc :
  pc_closed pc = false ->
  pc_closed (default pc (streamPendingHandler pick m pc)) = match (stream_effect m).2 with Some _ => true | None => false end.
Proof.
  intros Ho. rewrite stream_handler_effect by done. cbn [default]. unfold end_call, completeStream, fail, push_frames.
  destruct (stream_effect m) as [evs [[|e]|]]; cbn [fst snd]; simpl; by rewrite Ho.
Qed.

(** An open call takes every frame of messages that do not end it. *)
Lemma account_running evs a :
  unfailed evs -> pc_closed (ac_pc a) = false -> Forall (fun m => (stream_effect m).2 = None) (omap routed evs) ->
  let a' := foldl account_step a evs in
  pc_closed (ac_pc a') = false /\ ac_sent a' = ac_sent a ++ effect_frames (omap routed evs) /\
  (ac_end a = None -> ac_end a' = None).
Proof.
  intros Hu Ho Hn. cbv zeta. revert a Ho. induction Hu as [|e evs He Hu IH]; intros a Ho; simpl.
  - split_and!; [done|by rewrite app_nil_r|done].
  - destruct e as [pick m|e| |]; [|done| |]; cbn [omap list_omap routed] in Hn.
    + apply Forall_cons in Hn as [Hm Hn].
      destruct (IH Hn (account_step a (Routed pick m))) as (H1 & H2 & H3).
      { simpl. rewrite Ho. simpl. by rewrite stream_effect_closed, Hm. }
      split_and!; [exact H1| |intros _; apply H3; simpl; by rewrite Ho].
      rewrite H2. simpl. rewrite Ho. simpl. by rewrite <-(assoc_L (++)).
    + destruct (IH Hn (account_step a ReadChunk)) as (H1 & H2 & H3).
      { simpl. by destruct (pc_chunkCh (ac_pc a)). }
      split_and!; [exact H1| |]; simpl in *; destruct (pc_chunkCh (ac_pc a)); done.
    + destruct (IH Hn (account_step a ReadErr)) as (H1 & H2 & H3).
      { simpl. by destruct (pc_errCh (ac_pc a)). }
      split_and!; [exact H1| |]; simpl in *; destruct (pc_errCh (ac_pc a)); done.
Qed.

(** Nothing is added to a closed call. *)
Lemma account_closed evs a :
  pc_closed (ac_pc a) = true ->
  ac_sent (foldl account_step a evs) = ac_sent a /\ ac_end (foldl account_step a evs) = ac_end a.
Proof.
  revert a. induction evs as [|e evs IH]; intros a Hc; simpl; [done|].
  assert (H : pc_closed (ac_pc (account_step a e)) = true /\ ac_sent (account_step a e) = ac_sent a /\
    ac_end (account_step a e) = ac_end a).
  { destruct e; simpl; rewrite ?Hc; try done; by case_match. }
  destruct H as (H1 & H2 & H3). destruct (IH _ H1) as [-> ->]. done.
Qed.

Lemma routed_cons e evs :
  omap routed (e :: evs) = match routed e with Some m => m :: omap routed evs | None => omap routed evs end.
Proof. done. Qed.

Lemma routed_split evs ms m :
  omap routed evs = ms ++ [m] ->
  exists evs1 pick evs2, evs = evs1 ++ Routed pick m :: evs2 /\ omap routed evs1 = ms.
Proof.
  revert ms. induction evs as [|e evs IH]; intros ms H; [by destruct ms|]. rewrite routed_cons in H.
  destruct (routed e) as [m'|] eqn:E.
  - destruct ms as [|y ms]; simpl in H.
    + injection H as -> _. destruct e; try done. injection E as ->. by exists [], pick, evs.
    + injection H as <- H. destruct (IH ms H) as (evs1 & pick & evs2 & -> & Hr). exists (e :: evs1), pick, evs2.
      split; [done|]. by rewrite routed_cons, E, Hr.
  - destruct (IH ms H) as (evs1 & pick & evs2 & -> & Hr). exists (e :: evs1), pick, evs2. split; [done|]. simpl. by rewrite E.
Qed.

(** The call after messages of which only the last ends it. *)
Lemma account_ended evs a ms m en :
  unfailed evs -> pc_closed (ac_pc a) = false -> omap routed evs = ms ++ [m] ->
  Forall (fun m => (stream_effect m).2 = None) ms -> (stream_effect m).2 = Some en ->
  let a' := foldl account_step a evs in
  ac_sent a' = ac_sent a ++ effect_frames ms ++ (stream_effect m).1 /\ ac_end a' = Some en.
Proof.
  intros Hu Ho Hr Hn Hm. destruct (routed_split _ _ _ Hr) as (evs1 & pick & evs2 & -> & <-).
  apply Forall_app in Hu as [Hu1 _]. cbv zeta. rewrite foldl_app. cbn [foldl].
  destruct (account_running evs1 a Hu1 Ho Hn) as (Ho1 & Hs1 & _). set (a1 := foldl account_step a evs1) in *.
  clearbody a1. destruct (account_closed evs2 (account_step a1 (Routed pick m))) as [H1 H2].
  { simpl. rewrite Ho1. simpl. by rewrite stream_effect_closed, Hm. }
  rewrite H1, H2. simpl. rewrite Ho1. simpl. by rewrite Hs1, <-(assoc_L (++)).
Qed.

(** All the events of a call whose client leaves room. *)
Lemma events_of_account pc evs :
  fresh_call pc ->
  let a := foldl account_step (open_account pc) evs in
  ac_tight a = false -> events_out a = ac_sent a ++ match ac_end a with Some EndDone => [done_event] | _ => [] end.
Proof.
  intros Hf a Ht. destruct (account_inv_run evs _ (account_inv_open _ Hf)) as [(kept & _ & Hfull & Hev & Hdone) _ _].
  fold a in Hfull, Hev, Hdone. rewrite (Hfull Ht) in *. destruct (ac_end a) as [[|e]|] eqn:E; [by apply Hdone|..];
    (destruct Hev as [Hev|[_ ?]]; [by rewrite app_nil_r|done]).
Qed.
End router.

(** ** From the backend to the router *)

(** What [encoding/json] makes of the worker's payloads: texts that are already
    JSON survive, and an error text arrives as [json_text] makes it: invalid
    UTF-8 is replaced, nothing is emptied. *)
Class PayloadLaws (J : JSON) (compact : raw -> Prop) (json_text : string -> string) := {
  pl_chunk kind raw : compact raw -> exists p, p <> "" /\
    marshal_payload (PInferenceChunk {| icp_Kind := kind; icp_Chunk := raw |}) = Some p /\
    decode_chunk p = Some {| icp_Kind := kind; icp_Chunk := raw |};
  pl_done response : response = "" \/ compact response -> exists p, p <> "" /\
    marshal_payload (PInferenceResponse {| irp_Kind := ""; irp_Done := true; irp_Error := ""; irp_Response := response |}) = Some p /\
    decode_response p = Some {| irp_Kind := ""; irp_Done := true; irp_Error := ""; irp_Response := response |};
  pl_failed text : text <> "" -> exists p, p <> "" /\
    marshal_payload (PInferenceResponse {| irp_Kind := ""; irp_Done := true; irp_Error := text; irp_Response := "" |}) = Some p /\
    decode_response p = Some {| irp_Kind := ""; irp_Done := true; irp_Error := json_text text; irp_Response := "" |} /\
    json_text text <> "";
  pl_error text id : exists p q, p <> "" /\
    marshal_payload (PError {| ep_Message := text; ep_Code := "worker_error"; ep_ID := id |}) = Some p /\
    decode_error p = Some q /\ ep_Message q = json_text text;
}.

Section relay.
Context {J : JSON} {compact : raw -> Prop} {json_text : string -> string} {L : PayloadLaws J compact json_text} `{B : WorkerBackend}.
Context (works : nat -> bool) (encode : Response -> res raw) (json : Chunk -> raw) (marshal_text : string).
Context (json_compact : forall c, compact (json c)).

(** Chunks marshal. *)
Definition marshal_json (c : Chunk) : res raw := inl (json c).

(** The messages of a response. *)
Lemma sendChunk_effect id kind c o :
  exists m, sendChunk works marshal_text marshal_json id kind c o = send works m o /\ stream_effect m = ([sse (json c)], None).
Proof using L json_compact.
  destruct (pl_chunk kind (json c) (json_compact c)) as (p & Hp & Hm & Hd). unfold sendChunk, marshal_json. rewrite Hm.
  eexists. split; [done|]. unfold stream_effect, DecodePayload. simpl. by rewrite decide_False, Hd.
Qed.

Lemma sendDone_effect id response o :
  response = "" \/ compact response ->
  exists m, sendInferenceDone works id response o = (send works m o).1 /\
    stream_effect m = (if decide (response = "") then [] else [sse response], Some EndDone).
Proof using L.
  intros Hr. destruct (pl_done response Hr) as (p & Hp & Hm & Hd). unfold sendInferenceDone, send_payload. rewrite Hm.
  eexists. split; [done|]. unfold stream_effect, DecodePayload. simpl. by rewrite decide_False, Hd.
Qed.

Lemma sendBackendError_effect id e o :
  be_text e <> "" ->
  exists m, sendBackendError works id e o = (send works m o).1 /\
    stream_effect m = ([], Some (EndError (ErrorsNew (json_text (be_text e))))).
Proof using L.
  intros Hr. destruct (pl_failed _ Hr) as (p & Hp & Hm & Hd & Hq). unfold sendBackendError, send_payload. rewrite Hm.
  eexists. split; [done|]. unfold stream_effect, DecodePayload. simpl. by rewrite decide_False, Hd, decide_True.
Qed.

(** The frames a router makes of chunks. *)
Definition json_frames (cs : list Chunk) : list StreamEvent := map (fun c => sse (json c)) cs.

(** The messages sent so far, when every write works, and what they amount to. *)
Definition out_effect (o : wsOutbound) (ms : list Message) (cs : list Chunk) : Prop :=
  wo_sent o = ms /\ Forall (fun m => (stream_effect m).2 = None) ms /\ effect_frames ms = json_frames cs.

Definition ended_effect (o : wsOutbound) (cs : list Chunk) (last : list StreamEvent) (en : ending -> Prop) : Prop :=
  exists ms m e, wo_sent o = ms ++ [m] /\ Forall (fun m => (stream_effect m).2 = None) ms /\
    effect_frames ms = json_frames cs /\ stream_effect m = (last, Some e) /\ en e.

(** The frames and the end that a router makes of the fallback's result. *)
Definition fallback_frames (r : res Response) : list StreamEvent :=
  match r with inl x => match encode x with inl raw => [sse raw] | inr _ => [] end | inr _ => [] end.
Definition fallback_end (r : res Response) : ending :=
  match r with inl _ => EndDone | inr e => EndError (ErrorsNew (json_text (be_text e))) end.

Context (complete : wb_state -> wb_state * res Response).

(** What the end [r] of the loop means after the chunks [taken], for the backend
    in the state [w]. *)
Definition relayed_end (plan : list pact) (taken : list Chunk) (o : wsOutbound) (w : wb_state) (r : option ws_end) : Prop :=
  match r with
  | None | Some CtxDone => exists ms, out_effect o ms taken
  | Some Finished => ended_effect o taken [] (fun e => e = EndDone)
  | Some (FailedWith err) =>
      err ∈ fails plan /\ ended_effect o taken [] (fun e => e = EndError (ErrorsNew (json_text (be_text err))))
  | Some FellBack =>
      taken = [] /\ ended_effect o [] (fallback_frames (complete w).2) (fun e => e = fallback_end (complete w).2)
  | Some SendFailed => False
  end.

Definition relay_inv (plan : list pact) (w : wb_state) (t : relayed) : Prop :=
  exists taken errs, stream_inv plan taken errs (re_stream t) /\ relayed_end plan taken (re_out t) w (re_end t) /\
    (re_end t = None -> errs = [] /\ re_backend t = w) /\ (re_first t = true -> taken = []) /\
    (re_end t = Some FellBack -> re_backend t = (complete w).1).

Context (all_work : forall k, works k = true).
Context (answers : forall w, match (complete w).2 with
  | inl x => exists raw, encode x = inl raw /\ raw <> "" /\ compact raw
  | inr e => be_text e <> ""
  end).

Lemma send_works m o : send works m o = ({| wo_sent := wo_sent o ++ [m]; wo_tried := S (wo_tried o) |}, true).
Proof using all_work. unfold send. by rewrite all_work. Qed.

Lemma ended_by_one o ms cs m last e (en : ending -> Prop) :
  out_effect o ms cs -> stream_effect m = (last, Some e) -> en e -> ended_effect (send works m o).1 cs last en.
Proof using all_work.
  intros (Ho & Hn & Hf) Hm He. exists ms, m, e. rewrite send_works. simpl. by rewrite Ho.
Qed.

(** The end of the fallback. *)
Lemma answer_effect id r o :
  match r with inl x => exists raw, encode x = inl raw /\ raw <> "" /\ compact raw | inr e => be_text e <> "" end ->
  exists m, answer works encode id r o = (send works m o).1 /\ stream_effect m = (fallback_frames r, Some (fallback_end r)).
Proof using L.
  destruct r as [x|e]; simpl.
  - intros (raw & -> & Hne & Hc). destruct (sendDone_effect id raw o (or_intror Hc)) as (m & -> & Hm).
    exists m. split; [done|]. by rewrite Hm, decide_False.
  - intros He. destruct (sendBackendError_effect id e o He) as (m & -> & Hm). eauto.
Qed.

Lemma relay_inv_select plan id kind first case b b' o o' w0 w w' r :
  good_plan plan -> Forall (fun e => be_text e <> "") (fails plan) ->
  relay_inv plan w0 (mkRelayed b o w first None) ->
  ws_select works marshal_text encode marshal_json id kind complete first case b o w = Some (b', o', w', r) ->
  relay_inv plan w0 (mkRelayed b' o' w' false r).
Proof using L json_compact all_work answers.
  intros Hp Ht (taken & errs & Hi & [ms Ho] & Hn & Hf & _) Hs. cbn [re_stream re_out re_end re_first re_backend] in *.
  destruct (Hn eq_refl) as [-> ->]. clear Hn. unfold ws_select in Hs. destruct case.
  - destruct (recv_chunk b) as [c b1] eqn:Ec. destruct c as [c| |]; [| |done].
    + destruct (sendChunk_effect id kind c o) as (m & Hm & He). rewrite Hm, send_works in Hs. injection Hs as <- <- <- <-.
      exists (taken ++ [c]), []. split_and!; [by eapply recv_chunk_inv| |done|done|done].
      exists (ms ++ [m]). destruct Ho as (Ho & Hall & Hfr). split_and!; simpl; [by rewrite Ho| |].
      * by rewrite Forall_app, Forall_singleton, He.
      * unfold effect_frames, json_frames in *. rewrite !map_app, concat_app, Hfr. simpl. by rewrite He.
    + injection Hs as <- <- <- <-. destruct (stream_inv_end _ _ _ _ _ Hi Ec) as (-> & _).
      exists taken, []. split_and!; [done| |done|done|done]. destruct (sendDone_effect id "" o (or_introl eq_refl)) as (m & -> & He).
      by eapply ended_by_one.
  - destruct (recv_err b) as [e b1] eqn:Ee. destruct e as [e| |]; [| |done].
    + injection Hs as <- <- <- <-. destruct (stream_inv_error _ _ _ _ _ _ Hi Ee) as [He _].
      exists taken, [e]. split_and!; [by apply (recv_err_inv _ _ _ _ _ _ Hi Ee)| |done|done|done].
      split; [done|]. rewrite Forall_forall in Ht. destruct (sendBackendError_effect id e o (Ht _ He)) as (m & -> & Hm).
      by eapply ended_by_one.
    + injection Hs as <- <- <- <-. pose proof (recv_err_none _ _ _ Ee ltac:(done)) as ->.
      exists taken, []. split_and!; [done| |done|done|done]. destruct (sendDone_effect id "" o (or_introl eq_refl)) as (m & -> & He).
      by eapply ended_by_one.
  - destruct first; [|done]. simpl in Hs. pose proof (answers w0) as Hr. destruct (complete w0) as [w1 res] eqn:Ew.
    injection Hs as <- <- <- <-. exists taken, []. split_and!; [done| |done|done|by rewrite Ew]. rewrite (Hf eq_refl) in *. split; [done|].
    rewrite Ew. destruct (answer_effect id res o Hr) as (m & -> & Hm). by eapply ended_by_one.
  - injection Hs as <- <- <- <-. exists taken, []. split_and!; [done|by exists ms|done|done|done].
Qed.

Lemma relay_inv_reach plan id kind w t :
  good_plan plan -> Forall (fun e => be_text e <> "") (fails plan) ->
  rtc (relaying works marshal_text encode marshal_json id kind complete)
    (streamOrFallback_start plan {| wo_sent := []; wo_tried := 0 |} w) t ->
  relay_inv plan w t.
Proof using L json_compact all_work answers.
  intros Hp Ht. apply rtc_invariant.
  - intros t1 t2 H Hst. destruct Hst as [b b' o w1 first Hb|b b' o o' w1 w2 first case r Hs]; [|by eapply relay_inv_select].
    destruct H as (taken & errs & Hi & Hr). exists taken, errs. split; [by eapply producer_inv|done].
  - exists [], []. split_and!; [by apply stream_inv_open| |done|done|done]. by exists [].
Qed.

(** C2: a stream from end to end, over a connection that works: whatever turns
    the backend, the worker's relay loop, the router's reader and the client
    take, the router's call gets exactly the backend's chunks the relay took, in
    order, each as one frame, and ends when the relay does: well when the relay
    finished; with the text of the backend's error when it failed; and when it
    fell back, before any chunk, with the one frame of the completion's response,
    or with the text of its error.  The client gets all of that, then the
    sentinel, unless it lets the buffer fill. *)
Theorem stream_end_to_end plan id kind w t pc evs :
  good_plan plan -> Forall (fun e => be_text e <> "") (fails plan) ->
  rtc (relaying works marshal_text encode marshal_json id kind complete)
    (streamOrFallback_start plan {| wo_sent := []; wo_tried := 0 |} w) t ->
  fresh_call pc -> unfailed evs -> omap routed evs = wo_sent (re_out t) ->
  let a := foldl account_step (open_account pc) evs in
  exists taken last, taken `prefix_of` sends plan /\ ac_sent a = json_frames taken ++ last /\
    (match re_end t with
     | None | Some CtxDone => last = [] /\ ac_end a = None
     | Some Finished => last = [] /\ ac_end a = Some EndDone
     | Some (FailedWith e) => e ∈ fails plan /\ last = [] /\ ac_end a = Some (EndError (ErrorsNew (json_text (be_text e))))
     | Some FellBack =>
         taken = [] /\ re_backend t = (complete w).1 /\
         match (complete w).2 with
         | inl x => exists raw, encode x = inl raw /\ last = [sse raw] /\ ac_end a = Some EndDone
         | inr e => last = [] /\ ac_end a = Some (EndError (ErrorsNew (json_text (be_text e))))
         end
     | Some SendFailed => False
     end) /\
    (ac_tight a = false ->
      events_out a = json_frames taken ++ last ++ match ac_end a with Some EndDone => [done_event] | _ => [] end).
Proof using L json_compact all_work answers.
  intros Hp Ht Hr Hf Hu Hm a. apply relay_inv_reach in Hr as (taken & errs & Hi & Hend & _ & _ & Hw); [|done..].
  assert (Hpre : taken `prefix_of` sends plan) by (eapply prefix_app_l, Hi).
  assert (Ho : pc_closed (ac_pc (open_account pc)) = false) by apply Hf.
  pose proof (events_of_account pc evs Hf) as Hev. cbv zeta in Hev. fold a in Hev.
  assert (Hrun : forall ms, out_effect (re_out t) ms taken -> ac_sent a = json_frames taken /\ ac_end a = None).
  { intros ms (Hms & Hn & Hfr). rewrite <-Hms, <-Hm in Hn, Hfr.
    destruct (account_running evs _ Hu Ho Hn) as (_ & Hs & He). unfold a. split; [by rewrite Hs, Hfr|by apply He]. }
  assert (Hfin : forall cs last e, ended_effect (re_out t) cs last (fun e' => e' = e) ->
    ac_sent a = json_frames cs ++ last /\ ac_end a = Some e).
  { intros cs last e (ms & m & e' & Hms & Hn & Hfr & He & ->). rewrite Hms in Hm.
    destruct (account_ended evs _ ms m e Hu Ho Hm Hn ltac:(by rewrite He)) as [Hs Hend'].
    unfold a. by rewrite Hs, Hend', Hfr, He. }
  assert (Hout : forall last, ac_sent a = json_frames taken ++ last -> ac_tight a = false ->
    events_out a = json_frames taken ++ last ++ match ac_end a with Some EndDone => [done_event] | _ => [] end).
  { intros last Hs Htight. by rewrite Hev, Hs, <-(assoc_L (++)). }
  unfold relayed_end in Hend. destruct (re_end t) as [[|err| | |]|] eqn:Er.
  - destruct (Hfin _ _ _ Hend) as [Hs He]. exists taken, []. split_and!; [done..|by apply Hout].
  - destruct Hend as [Hin Hend]. destruct (Hfin _ _ _ Hend) as [Hs He]. exists taken, []. split_and!; [done..|by apply Hout].
  - destruct Hend as (-> & Hend). destruct (Hfin _ _ _ Hend) as [Hs He]. exists [], (fallback_frames (complete w).2).
    split_and!; [done|done|done|by apply Hw| |by apply Hout]. pose proof (answers w) as Hans.
    destruct (complete w) as [w1 [x|e]]; simpl in *; [|done]. destruct Hans as (raw & -> & _). by exists raw.
  - done.
  - destruct Hend as [ms Hms]. destruct (Hrun ms Hms) as [Hs He]. exists taken, []. rewrite <-(app_nil_r (json_frames taken)) in Hs.
    split_and!; [done..|by apply Hout].
  - destruct Hend as [ms Hms]. destruct (Hrun ms Hms) as [Hs He]. exists taken, []. rewrite <-(app_nil_r (json_frames taken)) in Hs.
    split_and!; [done..|by apply Hout].
Qed.

(** The goroutine of a short stream without an error runs to its end with nobody
    reading. *)
Lemma produce_all plan buf :
  good_plan plan -> fails plan = [] -> (length buf + length (sends plan) <= chunkCap)%nat ->
  rtc producer_step (mkStream plan buf [] false false false) (mkStream [] (buf ++ sends plan) [] true true false).
Proof using.
  intros Hp. revert buf. induction Hp as [c todo Hp IH|c|e|]; intros buf Hf Hl; simpl in *; try done.
  - assert (E : try_send chunkCap c buf = Some (buf ++ [c])) by (apply try_send_Some; split; [lia|done]).
    eapply rtc_l; [left; unfold produce; simpl; by rewrite E|].
    replace (buf ++ c :: sends todo) with ((buf ++ [c]) ++ sends todo) by (by rewrite <-(assoc_L (++))).
    apply IH; [done|]. rewrite length_app. simpl. lia.
  - assert (E : try_send chunkCap c buf = Some (buf ++ [c])) by (apply try_send_Some; split; [lia|done]).
    eapply rtc_l; [left; unfold produce; simpl; by rewrite E|].
    eapply rtc_l; [by left|]. by apply rtc_once; left.
  - rewrite app_nil_r. eapply rtc_l; [by left|]. by apply rtc_once; left.
Qed.

(** The loop takes the next [n] chunks. *)
Lemma relay_reads id kind n l o w first :
  (n <= length l)%nat -> exists o' first',
  rtc (relaying works marshal_text encode marshal_json id kind complete)
    (mkRelayed (mkStream [] l [] true true false) o w first None)
    (mkRelayed (mkStream [] (drop n l) [] true true false) o' w first' None).
Proof using L json_compact all_work.
  revert l o first. induction n as [|n IH]; intros l o first Hl; [by exists o, first|].
  destruct l as [|c l]; simpl in Hl; [lia|].
  destruct (sendChunk_effect id kind c o) as (m & Hm & _).
  destruct (IH l (send works m o).1 false ltac:(lia)) as (o' & first' & Hr). exists o', first'.
  eapply rtc_l; [|exact Hr]. apply (relaying_select _ _ _ _ _ _ _ _ _ _ _ _ _ _ OnChunk). simpl.
  unfold set_chunkCh. simpl. by rewrite Hm, send_works.
Qed.

(** The backend done, the loop takes [n] chunks and then the closed error channel. *)
Lemma relay_cut plan id kind w n :
  good_plan plan -> fails plan = [] -> (length (sends plan) <= chunkCap)%nat -> (n <= length (sends plan))%nat ->
  exists t,
    rtc (relaying works marshal_text encode marshal_json id kind complete)
      (streamOrFallback_start plan {| wo_sent := []; wo_tried := 0 |} w) t /\
    re_end t = Some Finished /\ bs_gaveUp (re_stream t) = false /\
    ended_effect (re_out t) (take n (sends plan)) [] (fun e => e = EndDone).
Proof using L json_compact all_work answers.
  intros Hp Hf Hl Hn. unfold streamOrFallback_start, open_stream.
  set (o := {| wo_sent := []; wo_tried := 0 |}).
  assert (H1 : rtc (relaying works marshal_text encode marshal_json id kind complete)
    (mkRelayed (mkStream plan [] [] false false false) o w true None)
    (mkRelayed (mkStream [] (sends plan) [] true true false) o w true None)).
  { apply (rtc_congruence (R := producer_step) (fun b => mkRelayed b o w true None)); [|by apply (produce_all plan [])].
    intros b b' Hb. by constructor. }
  destruct (relay_reads id kind n (sends plan) o w true Hn) as (o1 & first & H2).
  set (t := mkRelayed (mkStream [] (drop n (sends plan)) [] true true false) (sendInferenceDone works id "" o1) w false (Some Finished)).
  assert (Hr : rtc (relaying works marshal_text encode marshal_json id kind complete)
    (streamOrFallback_start plan o w) t).
  { etrans; [exact H1|]. etrans; [exact H2|]. apply rtc_once.
    by apply (relaying_select _ _ _ _ _ _ _ _ _ _ _ _ _ _ OnErr). }
  exists t. split_and!; [exact Hr|done|done|].
  apply relay_inv_reach in Hr as (taken & errs & Hi & Hend & _); [|done|by rewrite Hf].
  simpl in Hend. assert (Htk : taken = take n (sends plan)); [|by rewrite <-Htk].
  pose proof (si_all _ _ _ _ Hi eq_refl) as Hall. simpl in Hall. rewrite app_nil_r in Hall.
  rewrite <-(take_drop n (sends plan)) in Hall at 2. by apply app_inv_tail in Hall.
Qed.

(** A stream may be cut and reported as complete: the backend closes its
    error channel before its chunk channel, and [select] may take the closed
    error channel while chunks are waiting.  A stream without an error of at
    most a hundred chunks, all delivered by the backend, may be relayed as any
    number of its first chunks and the final message of success. *)
Theorem finished_stream_may_be_cut plan id kind w n :
  good_plan plan -> fails plan = [] -> (length (sends plan) <= chunkCap)%nat -> (n <= length (sends plan))%nat ->
  exists t,
    rtc (relaying works marshal_text encode marshal_json id kind complete)
      (streamOrFallback_start plan {| wo_sent := []; wo_tried := 0 |} w) t /\
    re_end t = Some Finished /\ bs_gaveUp (re_stream t) = false /\
    ended_effect (re_out t) (take n (sends plan)) [] (fun e => e = EndDone).
Proof using L json_compact all_work answers. apply relay_cut. Qed.
End relay.

(** ** Requests are answered once *)

Section requests.
Context {J : JSON} {compact : raw -> Prop} {json_text : string -> string} {L : PayloadLaws J compact json_text} `{B : WorkerBackend}.
Context (works : nat -> bool) (encode : Response -> res raw) (marshal_text : string) (quote : string -> string).
Context (decode_chat_request : raw -> res ChatRequest) (decode_completion_request : raw -> res CompletionRequest).
Context (all_work : forall k, works k = true).

(** A response that marshals has a text; so has a backend's error. *)
Definition reported (r : res Response) : Prop :=
  match r with inl x => forall raw, encode x = inl raw -> raw <> "" /\ compact raw | inr e => be_text e <> "" end.

Context (chat_reported : forall model req b, reported (wb_CompleteChat model req b).2).
Context (completion_reported : forall model req b, reported (wb_CompleteCompletions model req b).2).

(** What the caller of a single-response call gets of a message of the worker:
    a response, or an error through the channel of errors. *)
Definition caller_reads (m : Message) : option (result string) :=
  match msg_Type m with
  | MsgInferenceResponse => response_result m
  | MsgError => Some (inr (Wrap [Sentinel errWorkerInferenceError; message_error m]))
  | _ => None
  end.

(** [o'] is [o] and one final message of the call [id] that gives the caller [r]. *)
Definition sent_final (id : string) (o o' : wsOutbound) (r : result string) : Prop :=
  exists m, wo_sent o' = wo_sent o ++ [m] /\ msg_ID m = id /\ is_Some (stream_effect m).2 /\ caller_reads m = Some r.

(** The error that a text of the worker is to the router's caller. *)
Definition worker_said (text : string) : result string := inr (Wrap [Sentinel errWorkerInferenceError; ErrorsNew (json_text text)]).

(** The result of a completion as the caller gets it. *)
Definition completion_result (r : res Response) : result string :=
  match r with
  | inr e => worker_said (be_text e)
  | inl x => match encode x with inl raw => inl raw | inr e => worker_said ("marshal response: " +:+ be_text e) end
  end.

(** What a message asks of the worker: nothing that it can do, and why; a
    completion, with the backend after it; or a stream. *)
Inductive asked :=
| Refused (why : string)
| Completion (after : Server) (r : res Response)
| Stream (kind : string) (plan : list pact).

Definition asks (msg : Message) (s : option Server) : asked :=
  match s ≫= fun srv => (fun b => (srv, b)) <$> sv_backend srv with
  | None => Refused "worker backend not configured"
  | Some (srv, b) =>
      match DecodePayload zero_RequestPayload decode_inference_request msg with
      | None => Refused ("bad inference request: " +:+ marshal_text)
      | Some p =>
          let completed r := Completion (set_backend r.1 srv) r.2 in
          if String.eqb (irq_Kind p) "chat" then
            match decode_chat_request (irq_Body p) with
            | inr e => Refused ("invalid chat request body: " +:+ be_text e)
            | inl req =>
                if cr_Stream req then Stream "chat" (wb_StreamChat (cr_Model req) req b) else completed (wb_CompleteChat (cr_Model req) req b)
            end
          else if String.eqb (irq_Kind p) "completion" then
            match decode_completion_request (irq_Body p) with
            | inr e => Refused ("invalid completion request body: " +:+ be_text e)
            | inl req =>
                if cq_Stream req then Stream "completion" (wb_StreamCompletions (cq_Model req) req b)
                else completed (wb_CompleteCompletions (cq_Model req) req b)
            end
          else Refused ("unknown inference kind " +:+ quote (irq_Kind p))
      end
  end.

Lemma sendError_final id text o : sent_final id o (sendError works id text o) (worker_said text).
Proof using L all_work.
  destruct (pl_error text id) as (p & q & Hp & Hm & Hd & Hq). unfold sendError, send_payload. rewrite Hm, (send_works _ all_work).
  eexists. split; [done|]. split_and!; [done|by eexists|]. unfold caller_reads, message_error, DecodePayload, worker_said. simpl.
  by rewrite decide_False, Hd, <-Hq.
Qed.

Lemma answer_final id r o : reported r -> sent_final id o (answer works encode id r o) (completion_result r).
Proof using L all_work.
  destruct r as [y|e]; simpl.
  - intros Hr. destruct (encode y) as [raw|e]; [|apply sendError_final]. destruct (Hr raw eq_refl) as [Hne Hc].
    destruct (pl_done raw (or_intror Hc)) as (p & Hp & Hm & Hd). unfold sendInferenceDone, send_payload. rewrite Hm, (send_works _ all_work).
    eexists. split; [done|]. unfold stream_effect, caller_reads, response_result, DecodePayload. simpl.
    rewrite decide_False, Hd by done. split_and!; [done|by eexists|]. simpl. by rewrite (decide_True (P := raw <> "")).
  - intros He. destruct (pl_failed _ He) as (p & Hp & Hm & Hd & Hq). unfold sendBackendError, send_payload. rewrite Hm, (send_works _ all_work).
    eexists. split; [done|]. unfold stream_effect, caller_reads, response_result, DecodePayload. simpl.
    rewrite decide_False, Hd by done. simpl. rewrite !(decide_True (P := json_text (be_text e) <> "")) by done.
    split_and!; [done|by eexists|done].
Qed.

(** C15: over a connection that works, the worker answers every inference request
    that is not a stream with exactly one message, which is final and carries
    the request's ID.  The router's caller gets of it what was asked: the
    response of the backend's completion or the text of its error; and for a
    request without a backend, with a wrong payload, kind or body, the text that
    says so.  The backend is used for completions alone, and a stream is relayed
    exactly when one is asked for. *)
Theorem request_answered_once msg (s : option Server) o :
  match dispatchInferenceRequest works marshal_text decode_chat_request decode_completion_request encode quote msg s o, asks msg s with
  | Answered o' s', Refused why => sent_final (msg_ID msg) o o' (worker_said why) /\ s' = s
  | Answered o' s', Completion after r => sent_final (msg_ID msg) o o' (completion_result r) /\ s' = Some after
  | Relays kind plan _, Stream kind' plan' => kind = kind' /\ plan = plan'
  | _, _ => False
  end.
Proof using L all_work chat_reported completion_reported.
  unfold dispatchInferenceRequest, asks. destruct s as [srv|]; simpl; [|split; [apply sendError_final|done]].
  destruct (sv_backend srv) as [b|] eqn:Eb; simpl; [|split; [apply sendError_final|done]].
  destruct (DecodePayload _ _ msg) as [p|] eqn:Ep; [|split; [apply sendError_final|done]].
  destruct (String.eqb (irq_Kind p) "chat"); [|destruct (String.eqb (irq_Kind p) "completion"); [|split; [apply sendError_final|done]]].
  - unfold dispatchChat. destruct (decode_chat_request (irq_Body p)) as [req|e]; [|split; [apply sendError_final|done]].
    destruct (cr_Stream req); [done|]. pose proof (answer_final (msg_ID msg) _ o (chat_reported (cr_Model req) req b)) as H.
    by destruct (wb_CompleteChat _ req b).
  - unfold dispatchCompletion. destruct (decode_completion_request (irq_Body p)) as [req|e]; [|split; [apply sendError_final|done]].
    destruct (cq_Stream req); [done|]. pose proof (answer_final (msg_ID msg) _ o (completion_reported (cq_Model req) req b)) as H.
    by destruct (wb_CompleteCompletions _ req b).
Qed.
End requests.

(** ** The delays between connections *)

(** A connection that served changes nothing: the delays depend on the draws
    alone. *)
Lemma register_delays_draws max delay rounds rounds' :
  map wr_draw rounds = map wr_draw rounds' -> register_delays max delay rounds = register_delays max delay rounds'.
Proof.
  revert delay rounds'. induction rounds as [|r rounds IH]; intros delay [|r' rounds'] H; simpl in *; try done.
  injection H as Hd H. rewrite Hd. f_equal. by apply IH.
Qed.

Definition half : float64 := dec 5 10.

Definition failed_rounds (n : nat) : list ws_round := replicate n {| wr_served := 0; wr_draw := half |}.

(** The delay is never reset: it starts at a second and doubles with every
    connection, however long the connection served, so a worker that was
    connected for a day is away for the capped delay when the connection
    drops; and the jitter takes a delay beyond the configured maximum. *)
Theorem backoff_never_resets cfg rounds rounds' :
  map wr_draw rounds = map wr_draw rounds' ->
  WSRegisterLoop cfg rounds = WSRegisterLoop cfg rounds' /\
  WSRegisterLoop {| wc_RouterURL := ""; wc_HeartbeatInterval := 0; wc_MaxReconnectDelay := 0; wc_WriteTimeout := 0 |}
    (failed_rounds 5 ++ [{| wr_served := 24 * 60 * minute; wr_draw := half |}]) =
    map (fun s => s * second) [1; 2; 4; 8; 16; 30] /\
  30 * second < nextBackoff (dec 9 10) (30 * second) (30 * second).
Proof.
  intros H. split; [by apply register_delays_draws|]. split; [vm_compute; reflexivity|vm_compute; reflexivity].
Qed.

(** ** A JSON that keeps what it is given: texts with their lengths in front *)

Fixpoint tally (n : nat) (rest : string) : string := match n with O => String "0"%char rest | S n => String "1"%char (tally n rest) end.

Fixpoint untally (s : string) : option (nat * string) :=
  match s with
  | EmptyString => None
  | String c rest =>
      if Ascii.eqb c "1"%char then '(n, rest) ← untally rest; Some (S n, rest) else Some (O, rest)
  end.

Fixpoint cut_at (n : nat) (s : string) : string * string :=
  match n, s with
  | S n, String c s => let '(a, b) := cut_at n s in (String c a, b)
  | _, _ => ("", s)
  end.

Definition pair_text (a b : string) : string := tally (String.length a) (a +:+ b).
Definition unpair_text (s : string) : option (string * string) := '(n, rest) ← untally s; Some (cut_at n rest).

Lemma unpair_pair a b : unpair_text (pair_text a b) = Some (a, b).
Proof.
  unfold unpair_text, pair_text.
  assert (H : forall n rest, untally (tally n rest) = Some (n, rest)).
  { induction n as [|n IH]; intros rest; simpl; [done|]. by rewrite IH. }
  rewrite H. simpl. f_equal. clear H. induction a as [|c a IH]; simpl; [done|]. change (EmptyString +:+ b) with b in *.
  change (String c a +:+ b) with (String c (a +:+ b)). by rewrite IH.
Qed.

Lemma pair_text_nonempty a b : pair_text a b <> "".
Proof. unfold pair_text. by destruct (String.length a). Qed.

#[local] Instance ex_json : JSON :=
  {| decode_register _ := None; decode_heartbeat _ := None; decode_capabilities _ := None;
     decode_error s := '(m, id) ← unpair_text s; Some {| ep_Message := m; ep_Code := "worker_error"; ep_ID := id |};
     decode_inference_request s := '(k, b) ← unpair_text s; Some {| irq_Kind := k; irq_Model := ""; irq_Body := b |};
     decode_chunk s := '(k, c) ← unpair_text s; Some {| icp_Kind := k; icp_Chunk := c |};
     decode_response s := '(e, r) ← unpair_text s; Some {| irp_Kind := ""; irp_Done := true; irp_Error := e; irp_Response := r |};
     decode_cancel _ := None; decode_model_load_request _ := None; decode_model_load_response _ := None;
     decode_close _ := None;
     marshal_payload p :=
       match p with
       | PInferenceChunk p => Some (pair_text (icp_Kind p) (icp_Chunk p))
       | PInferenceResponse p => Some (pair_text (irp_Error p) (irp_Response p))
       | PError p => Some (pair_text (ep_Message p) (ep_ID p))
       | _ => None
       end |}.

#[local] Instance ex_payloads : PayloadLaws ex_json (fun _ => True) (fun text => text).
Proof.
  split; simpl.
  - intros kind raw _. eexists. split; [apply pair_text_nonempty|]. split; [done|]. by rewrite unpair_pair.
  - intros response _. eexists. split; [apply pair_text_nonempty|]. split; [done|]. by rewrite unpair_pair.
  - intros text Ht. eexists. split; [apply pair_text_nonempty|]. split; [done|]. split; [by rewrite unpair_pair|done].
  - intros text id. eexists _, _. split; [apply pair_text_nonempty|]. split; [done|]. by rewrite unpair_pair.
Qed.

#[local] Existing Instances ex_openai ex_worker.

(** ** Concrete instances *)

Definition ex_encode (r : Response) : res raw := inl (pair_text (rs_ID r) "").

(** A backend that answers chats and no completions, and counts both. *)
Definition plain_worker : WorkerBackend := {|
  wb_state := nat; wb_Name := "plain";
  wb_CompleteChat _ _ n := (S n, inl {| rs_ID := "r1"; rs_Object := ""; rs_Created := 0; rs_Choices := []; rs_Usage := None |});
  wb_CompleteCompletions _ _ n := (S n, inr (Errorf "no text models"));
  wb_StreamChat _ _ _ := []; wb_StreamCompletions _ _ _ := []; wb_ListModels _ := inl []; wb_GetMetrics _ := inl zero_Metrics;
  wb_IsHealthy _ := true; wb_HealthCheck n := (n, None); wb_GetCircuitState _ := CircuitClosed |}.

Definition ex_completion : CompletionRequest :=
  {| cq_Model := "m"; cq_Prompt := "p"; cq_MaxTokens := 0; cq_Temperature := f0; cq_Stream := false |}.
Definition no_frames : wsOutbound := {| wo_sent := []; wo_tried := 0 |}.

Section plain.
#[local] Existing Instance plain_worker.

Definition ex_plain_server : Server := set_backend (0%nat : wb_state) (NewServer false "").
Definition ex_request (kind : string) : Message := reply "7" MsgInferenceRequest (pair_text kind "hi").

Definition ex_dispatched (kind : string) : dispatched :=
  dispatchInferenceRequest (fun _ => true) "" (fun _ => inl (ex_chat false)) (fun _ => inl ex_completion) ex_encode
    (fun s => s) (ex_request kind) (Some ex_plain_server) no_frames.
Definition ex_asked (kind : string) : asked :=
  asks "" (fun s => s) (fun _ => inl (ex_chat false)) (fun _ => inl ex_completion) (ex_request kind) (Some ex_plain_server).

Definition ex_answered (kind : string) (r : result string) : Prop :=
  match ex_dispatched kind with Answered o' _ => sent_final "7" no_frames o' r | Relays _ _ _ => False end.

Lemma ex_reported (model : string) (req : ChatRequest) (b : wb_state) :
  reported (compact := fun _ => True) ex_encode (wb_CompleteChat model req b).2.
Proof. intros raw [= <-]. split; [discriminate|exact I]. Qed.

Lemma request_answered_once_witness :
  ex_answered "chat" (inl (pair_text "r1" "")) /\
  ex_answered "completion" (inr (Wrap [Sentinel errWorkerInferenceError; ErrorsNew "no text models"])) /\
  ex_answered "image" (inr (Wrap [Sentinel errWorkerInferenceError; ErrorsNew "unknown inference kind image"])).
Proof.
  assert (H : forall kind, match ex_dispatched kind, ex_asked kind with
    | Answered o' s', Refused why => sent_final "7" no_frames o' (worker_said (json_text := fun text => text) why) /\ s' = Some ex_plain_server
    | Answered o' s', Completion after r => sent_final "7" no_frames o' (completion_result (json_text := fun text => text) ex_encode r) /\ s' = Some after
    | Relays kind plan _, Stream kind' plan' => kind = kind' /\ plan = plan'
    | _, _ => False
    end).
  { intros kind. exact (request_answered_once (compact := fun _ => True) (fun _ => true) ex_encode "" (fun s => s)
      (fun _ => inl (ex_chat false)) (fun _ => inl ex_completion) (fun _ => eq_refl) ex_reported
      (fun _ _ _ => ltac:(discriminate)) (ex_request kind) (Some ex_plain_server) no_frames). }
  unfold ex_answered. split; [|split]; [specialize (H "chat")|specialize (H "completion")|specialize (H "image")];
    destruct (ex_dispatched _) as [o' s'|kind plan complete]; destruct (ex_asked _) as [why|after r|kind' plan'] eqn:E;
    vm_compute in E; try discriminate E; try contradiction H; injection E as <-; try subst; exact (proj1 H).
Defined.
End plain.

Lemma backoff_never_resets_witness :
  30 * second < nextBackoff (dec 9 10) (30 * second) (30 * second).
Proof.
  apply (backoff_never_resets {| wc_RouterURL := ""; wc_HeartbeatInterval := 0; wc_MaxReconnectDelay := 0; wc_WriteTimeout := 0 |}
    [] [] eq_refl).
Defined.

(** A fallback of each outcome. *)
Definition ex_complete (fine : bool) (b : wb_state (WorkerBackend := ex_worker)) :
    wb_state (WorkerBackend := ex_worker) * res Response :=
  (b, if fine then inl {| rs_ID := "r1"; rs_Object := ""; rs_Created := 0; rs_Choices := []; rs_Usage := None |} else inr (Errorf "down")).

Definition ex_relaying (fine : bool) :=
  relaying (B := ex_worker) (fun _ => true) "" ex_encode (marshal_json ck_ID) "7" "chat" (ex_complete fine).

Definition ex_relay_start : relayed :=
  streamOrFallback_start (B := ex_worker) ex_plan {| wo_sent := []; wo_tried := 0 |} (ex_backend_of "ollama").

Lemma ex_answers fine w :
  match (ex_complete fine w).2 with
  | inl x => exists raw, ex_encode x = inl raw /\ raw <> "" /\ True
  | inr e => be_text e <> ""
  end.
Proof. destruct fine; [|discriminate]. by exists (pair_text "r1" ""). Qed.

Lemma ex_plan_good : good_plan ex_plan.
Proof. apply (wb_chat_plan (B := ex_worker)). Qed.

Lemma ex_finishes n :
  (n <= 2)%nat ->
  exists t, rtc (ex_relaying true) ex_relay_start t /\ re_end t = Some Finished.
Proof.
  intros Hn. destruct (relay_cut (compact := fun _ => True) (fun _ => true) ex_encode ck_ID "" (fun _ => I)
    (ex_complete true) (fun _ => eq_refl) (ex_answers true) ex_plan "7" "chat" (ex_backend_of "ollama") n ex_plan_good)
    as (t & Hr & He & _); [vm_compute; reflexivity|vm_compute; lia|exact Hn|]. by exists t.
Qed.

(** The timer fires first. *)
Lemma ex_falls_back fine : exists t, rtc (ex_relaying fine) ex_relay_start t /\ re_end t = Some FellBack.
Proof.
  destruct (ws_select (B := ex_worker) (fun _ => true) "" ex_encode (marshal_json ck_ID) "7" "chat" (ex_complete fine) true OnGrace
    (re_stream ex_relay_start) (re_out ex_relay_start) (re_backend ex_relay_start)) as [[[[b o] w] r]|] eqn:E; [|discriminate].
  exists (mkRelayed b o w false r). split; [apply rtc_once; exact (relaying_select _ _ _ _ _ _ _ _ _ _ _ _ _ true OnGrace _ E)|].
  by injection E as _ _ _ <-.
Qed.

(** Nothing is relayed of a stream of two chunks. *)
Lemma finished_stream_may_be_cut_witness :
  length (sends ex_plan) = 2%nat /\
  exists t, rtc (ex_relaying true) ex_relay_start t /\ re_end t = Some Finished /\
    exists ms m, wo_sent (re_out t) = ms ++ [m] /\ effect_frames ms = [].
Proof.
  split; [vm_compute; reflexivity|].
  destruct (finished_stream_may_be_cut (compact := fun _ => True) (fun _ => true) ex_encode ck_ID "" (fun _ => I)
    (ex_complete true) (fun _ => eq_refl) (ex_answers true) ex_plan "7" "chat" (ex_backend_of "ollama") 0 ex_plan_good)
    as (t & Hr & He & _ & ms & m & e & Hs & _ & Hf & _).
  - vm_compute. reflexivity.
  - vm_compute. lia.
  - lia.
  - exists t. split; [exact Hr|]. split; [exact He|]. exists ms, m. split; [exact Hs|exact Hf].
Defined.

(** The router's call after it is given everything the worker sent. *)
Definition ex_account (t : relayed (B := ex_worker)) : account :=
  foldl account_step (open_account (demo_call true)) (map (Routed 0) (wo_sent (re_out t))).

Lemma stream_end_to_end_witness :
  (exists t, rtc (ex_relaying true) ex_relay_start t /\ re_end t = Some Finished /\ ac_end (ex_account t) = Some EndDone) /\
  (exists t, rtc (ex_relaying true) ex_relay_start t /\ re_end t = Some FellBack /\
    ac_sent (ex_account t) = [sse (pair_text "r1" "")] /\ ac_end (ex_account t) = Some EndDone) /\
  (exists t, rtc (ex_relaying false) ex_relay_start t /\ re_end t = Some FellBack /\
    ac_sent (ex_account t) = [] /\ ac_end (ex_account t) = Some (EndError (ErrorsNew "down"))).
Proof.
  assert (Hf : fresh_call (demo_call true)) by (repeat split).
  assert (Ho : forall ms, omap routed (map (Routed 0) ms) = ms).
  { intros ms. induction ms as [|m ms IH]; [reflexivity|]. change (m :: omap routed (map (Routed 0) ms) = m :: ms). f_equal. exact IH. }
  assert (Hu : forall ms, unfailed (map (Routed 0) ms)).
  { intros ms. induction ms; constructor; [exact I|assumption]. }
  assert (Ht : Forall (fun e => be_text e <> "") (fails ex_plan)) by (vm_compute; constructor).
  pose proof (fun fine t (Hr : rtc (ex_relaying fine) ex_relay_start t) =>
    stream_end_to_end (compact := fun _ => True) (fun _ => true) ex_encode ck_ID "" (fun _ => I)
    (ex_complete fine) (fun _ => eq_refl) (ex_answers fine) ex_plan "7" "chat" (ex_backend_of "ollama") t (demo_call true)
    (map (Routed 0) (wo_sent (re_out t))) ex_plan_good Ht Hr Hf (Hu _) (Ho _)) as H.
  split; [|split].
  - destruct (ex_finishes 2 (le_n 2)) as (t & Hr & He). exists t. split; [exact Hr|]. split; [exact He|].
    destruct (H true t Hr) as (taken & last & _ & _ & H' & _). rewrite He in H'. exact (proj2 H').
  - destruct (ex_falls_back true) as (t & Hr & He). exists t. split; [exact Hr|]. split; [exact He|].
    destruct (H true t Hr) as (taken & last & _ & Hs & H' & _). rewrite He in H'.
    destruct H' as (-> & _ & raw & Hraw & -> & Hend). injection Hraw as <-. split; [exact Hs|exact Hend].
  - destruct (ex_falls_back false) as (t & Hr & He). exists t. split; [exact Hr|]. split; [exact He|].
    destruct (H false t Hr) as (taken & last & _ & Hs & H' & _). rewrite He in H'.
    destruct H' as (-> & _ & -> & Hend). split; [exact Hs|exact Hend].
Defined.
