(* ===== verification/HttpClient.v ===== *)
(** * HttpClient: the router's HTTP client of a worker ([worker_client.go])

    The dial-back path: requests with retries, and the goroutine that relays a
    worker's event stream frame by frame.  What the network answers is an
    argument.  The last parts put the client between a worker's HTTP server
    ([WorkerServer]) and the streaming proxy ([Proxy]), and under the failover
    loop ([Dispatch]). *)

From stdpp Require Import pretty.
From S2P Require Import Prelude GoStrings GoFloat Errors Http Protocol Scheduler Selection Dispatch Backend WorkerServer Pending Proxy.
From Stdlib Require Import Ascii.

#[local] Open Scope list_scope.

(** ** The client *)

(** [hw_prod] is that [prodClient] is set. *)
Record httpWorkerClient := { hw_prod : bool }.

Definition newHTTPWorkerClient : httpWorkerClient := {| hw_prod := false |}.

(** For the certificate and the pool being there. *)
Definition newHTTPWorkerClientWithCerts (routerCert workerCAPool : bool) : httpWorkerClient :=
  {| hw_prod := routerCert && workerCAPool |}.

(** The timeout of [client()]; 0 is none, as for the streaming client. *)
Definition client_timeout (c : httpWorkerClient) : Duration := if hw_prod c then 0 else 30 * second.

Definition scheme (c : httpWorkerClient) : string := if hw_prod c then "https" else "http".

Definition base_url (c : httpWorkerClient) (worker : WorkerInfo) : string :=
  scheme c +:+ "://" +:+ wi_IP worker +:+ ":" +:+ pretty (wi_Port worker).

Definition endpoint (c : httpWorkerClient) (worker : WorkerInfo) (kind : string) : string :=
  base_url c worker +:+ (if String.eqb kind "completion" then "/v1/completions" else "/v1/chat/completions").

(** ** Requests *)

Section requests.
(** The answer to the [k]-th request ([client.Do]), and the failure of
    [http.NewRequestWithContext]. *)
Context {R : Type} (do : nat -> result R) (new_request : option goerr).

(** The loop of [postWithRetry] with [n] attempts left, and its sleeps. *)
Fixpoint post_loop (attempt n : nat) (lastErr : goerr) : result R * list Duration :=
  match n with
  | O => (inr (Wrap [lastErr]), [])
  | S n =>
      match new_request with
      | Some err => (inr err, [])
      | None =>
          match do attempt with
          | inl resp => (inl resp, [])
          | inr err =>
              let '(r, sleeps) := post_loop (S attempt) n err in
              (r, if (attempt <? 3)%nat then 2 ^ Z.of_nat attempt * second :: sleeps else sleeps)
          end
      end
  end.

(** [lastErr] is nil before the first attempt. *)
Definition postWithRetry : result R * list Duration := post_loop 0 4 (ErrorsNew "").
End requests.

(** A response: its status and the reading of its body. *)
Record response := { rp_StatusCode : Z; rp_Body : result string }.

(** The second component of these operations is how long they slept. *)
Definition Complete (do : nat -> result response) (new_request : option goerr) : result string * list Duration :=
  let '(r, sleeps) := postWithRetry do new_request in
  (match r with
   | inr err => inr err
   | inl resp => if rp_StatusCode resp =? 200 then rp_Body resp else inr (WorkerHTTPError (rp_StatusCode resp))
   end, sleeps).

(** [marshal] is the failure of [json.Marshal]. *)
Definition LoadModel (post : result response) (marshal : option goerr) : bool * option goerr :=
  match marshal with
  | Some err => (false, Some err)
  | None =>
      match post with
      | inr err => (false, Some err)
      | inl resp => if rp_StatusCode resp =? 200 then (true, None) else (false, Some (WorkerHTTPError (rp_StatusCode resp)))
      end
  end.

Definition fetch (get : result response) (decode : string -> result WorkerInfo) : result Capabilities :=
  match get with
  | inr err => inr (Wrap [err])
  | inl resp =>
      if negb (rp_StatusCode resp =? 200) then inr (ErrorsNew "unexpected status")
      else
        match rp_Body resp with
        | inr err => inr (Wrap [err])
        | inl body => match decode body with inr err => inr (Wrap [err]) | inl info => inl (wi_Capabilities info) end
        end
  end.

(** ** Frames of an event stream *)

(** A reader: what [ReadString] returns line by line, the bytes after the last
    newline, and the error they end in, [None] for the end of file. *)
Record reader := { rd_lines : list string; rd_tail : string; rd_err : option goerr }.

Definition nl : string := String (ascii_of_nat 10) "".
Definition crnl : string := String (ascii_of_nat 13) nl.

(** The lines of a text, newlines included, and what follows the last. *)
Fixpoint lines_of (s : string) : list string * string :=
  match s with
  | EmptyString => ([], "")
  | String c s =>
      let '(ls, t) := lines_of s in
      if Ascii.eqb c (ascii_of_nat 10) then (nl :: ls, t)
      else match ls with [] => ([], String c t) | l :: ls => (String c l :: ls, t) end
  end.

Definition read_body (body : string) (err : option goerr) : reader :=
  {| rd_lines := (lines_of body).1; rd_tail := (lines_of body).2; rd_err := err |}.

(** The bytes read so far are [buf]; the error is as [rd_err], under [Some]. *)
Fixpoint frame_from (buf : string) (lines : list string) (tail : string) (err : option goerr) :
    string * option (option goerr) * reader :=
  match lines with
  | line :: lines =>
      let buf := buf +:+ line in
      if String.eqb line nl || String.eqb line crnl then (buf, None, {| rd_lines := lines; rd_tail := tail; rd_err := err |})
      else frame_from buf lines tail err
  | [] =>
      let buf := buf +:+ tail in
      (buf, match err with
            | None => if String.eqb buf "" then Some None else None
            | Some e => Some (Some e)
            end, {| rd_lines := []; rd_tail := ""; rd_err := err |})
  end.

Definition readSSEFrame (r : reader) : string * option (option goerr) * reader :=
  frame_from "" (rd_lines r) (rd_tail r) (rd_err r).

(** ** The streaming goroutine *)

Inductive hact := SendEvent (ev : StreamEvent) | SendErr (e : goerr) | CloseEvents.

Definition event (frame : string) : StreamEvent := {| se_Data := frame; se_Done := false |}.

(** The relaying loop; [ctx] is [ctx.Err() != nil] when the stream fails. *)
Fixpoint relay_frames (n : nat) (ctx : bool) (r : reader) : list hact :=
  match n with
  | O => []
  | S n =>
      let '(frame, err, r) := readSSEFrame r in
      (if String.eqb frame "" then [] else [SendEvent (event frame)]) ++
      match err with
      | None => relay_frames n ctx r
      | Some None => []
      | Some (Some e) => if ctx then [] else [SendErr (Wrap [e])]
      end
  end.

(** Each round but the last takes a line or the rest. *)
Definition relay_fuel (r : reader) : nat := length (rd_lines r) + 2.

(** [deadline] is [ctx.Err() == context.DeadlineExceeded]; a body is read as a
    stream after a response 200. *)
Definition Stream (posted : result (Z * reader)) (deadline ctx : bool) : list hact :=
  (match posted with
   | inr err =>
       [SendErr (if deadline then Wrap [Sentinel errTimeout; Sentinel context_DeadlineExceeded] else Wrap [err])]
   | inl (status, r) =>
       if status =? 200 then relay_frames (relay_fuel r) ctx r else [SendErr (WorkerHTTPError status)]
   end) ++ [CloseEvents].

(** The goroutine's channels. *)
Record hstream := mkStream {
  hs_todo : list hact;
  hs_chunkCh : list StreamEvent;
  hs_errCh : list goerr;
  hs_closed : bool;
  hs_gaveUp : bool;
}.

Definition open_stream (plan : list hact) : hstream := mkStream plan [] [] false false.

Definition chunkCap : nat := 64.

Definition produce (h : hstream) : option hstream :=
  match hs_todo h with
  | [] => None
  | SendEvent ev :: todo =>
      buf ← try_send chunkCap ev (hs_chunkCh h); Some (mkStream todo buf (hs_errCh h) (hs_closed h) (hs_gaveUp h))
  | SendErr e :: todo =>
      buf ← try_send 1 e (hs_errCh h); Some (mkStream todo (hs_chunkCh h) buf (hs_closed h) (hs_gaveUp h))
  | CloseEvents :: todo => Some (mkStream todo (hs_chunkCh h) (hs_errCh h) true (hs_gaveUp h))
  end.

(** The context ends while a send waits. *)
Definition abandon (h : hstream) : option hstream :=
  match hs_todo h with
  | SendEvent _ :: _ => Some (mkStream [CloseEvents] (hs_chunkCh h) (hs_errCh h) (hs_closed h) true)
  | _ => None
  end.

(** The goroutine and the loop of [proxyStream] taking turns, until the proxy
    returns; its cases as in [Proxy]. *)
Inductive proxied : hstream * list (Time * pevent) -> hstream * list (Time * pevent) -> Prop :=
| proxied_worker h h' evs : produce h = Some h' \/ abandon h = Some h' -> proxied (h, evs) (h', evs)
| proxied_chunk h evs now ev l : (ended_by evs).2 = None -> hs_chunkCh h = ev :: l ->
    proxied (h, evs) (mkStream (hs_todo h) l (hs_errCh h) (hs_closed h) (hs_gaveUp h), evs ++ [(now, EChunk ev)])
| proxied_closed h evs now : (ended_by evs).2 = None -> hs_chunkCh h = [] -> hs_closed h = true ->
    proxied (h, evs) (h, evs ++ [(now, EChunksClosed)])
| proxied_error h evs now e l : (ended_by evs).2 = None -> hs_errCh h = e :: l ->
    proxied (h, evs) (mkStream (hs_todo h) (hs_chunkCh h) l (hs_closed h) (hs_gaveUp h), evs ++ [(now, EError e)])
| proxied_other h evs now e : (ended_by evs).2 = None -> e = EIdle \/ e = EHangup ->
    proxied (h, evs) (h, evs ++ [(now, e)]).

(** ** Retries *)

(** At most four requests: the first that is answered, or the last error after
    seven seconds of sleep, which no deadline shortens. *)
Lemma postWithRetry_spec {R} (do : nat -> result R) :
  let '(r, sleeps) := postWithRetry do None in
  match r with
  | inl x => exists k, (k < 4)%nat /\ do k = inl x /\ forall i, (i < k)%nat -> exists e, do i = inr e
  | inr err => (forall i, (i < 4)%nat -> exists e, do i = inr e) /\ (exists e, do 3%nat = inr e /\ err = Wrap [e]) /\
      sleeps = [second; 2 * second; 4 * second]
  end.
Proof.
  assert (Hi : forall i k, (i < S k)%nat -> i = k \/ (i < k)%nat) by lia.
  unfold postWithRetry. cbn [post_loop].
  destruct (do 0%nat) as [x0|e0] eqn:E0; [exists 0%nat; split_and!; [lia|done|lia]|].
  destruct (do 1%nat) as [x1|e1] eqn:E1; [exists 1%nat; split_and!; [lia|done|]; intros i [->|]%Hi; [eauto|lia]|].
  destruct (do 2%nat) as [x2|e2] eqn:E2; [exists 2%nat; split_and!; [lia|done|]; intros i [->|[->|]%Hi]%Hi; [eauto|eauto|lia]|].
  destruct (do 3%nat) as [x3|e3] eqn:E3.
  - exists 3%nat. split_and!; [lia|done|]. intros i [->|[->|[->|]%Hi]%Hi]%Hi; [eauto..|lia].
  - split; [intros i [->|[->|[->|[->|]%Hi]%Hi]%Hi]%Hi; [eauto..|lia]|]. split; [by eexists|reflexivity].
Qed.

(** ** Relaying is lossless *)

Definition sends (plan : list hact) : list StreamEvent := omap (fun a => match a with SendEvent ev => Some ev | _ => None end) plan.

Definition join (l : list string) : string := foldr (fun s t => s +:+ t) "" l.

Definition text (r : reader) : string := join (rd_lines r) +:+ rd_tail r.

Lemma app_String c s t : String c s +:+ t = String c (s +:+ t).
Proof. done. Qed.

Lemma app_nil_l_s (s : string) : "" +:+ s = s.
Proof. done. Qed.

Lemma app_nil_s (s : string) : s +:+ "" = s.
Proof. induction s as [|c s IH]; [done|]. by rewrite app_String, IH. Qed.

Lemma join_app l l' : join (l ++ l') = join l +:+ join l'.
Proof. induction l as [|s l IH]; [done|]. cbn [join foldr app]. fold (join (l ++ l')). by rewrite IH, append_assoc. Qed.

Lemma read_body_text body err : text (read_body body err) = body.
Proof.
  unfold text, read_body. cbn [rd_lines rd_tail]. induction body as [|c s IH]; [done|]. cbn [lines_of].
  destruct (lines_of s) as [ls t]. cbn [fst snd] in IH. destruct (Ascii.eqb_spec c (ascii_of_nat 10)) as [->|].
  - cbn [fst snd join foldr]. fold (join ls). rewrite <-IH. reflexivity.
  - destruct ls as [|l ls]; cbn [fst snd join foldr] in *; rewrite <-IH; reflexivity.
Qed.

(** A frame takes its bytes off the reader, and a line while there are any. *)
Lemma frame_from_spec buf lines tail err f e r :
  frame_from buf lines tail err = (f, e, r) ->
  f +:+ text r = buf +:+ join lines +:+ tail /\ rd_err r = err /\ (rd_tail r = tail \/ rd_tail r = "") /\
  (length (rd_lines r) <= pred (length lines))%nat /\
  match e with
  | None => lines <> [] \/ lines = [] /\ buf +:+ tail <> "" /\ rd_tail r = ""
  | Some e' => e' = err /\ text r = ""
  end.
Proof.
  revert buf. induction lines as [|line lines IH]; intros buf H; cbn [frame_from] in H.
  - injection H as <- <- <-. unfold text. cbn [rd_lines rd_tail rd_err join foldr]. split_and!; [|done|by right|done|].
    + by rewrite !append_assoc, app_nil_s.
    + destruct err as [err|]; [done|]. destruct (String.eqb_spec (buf +:+ tail) ""); [done|by right].
  - destruct (String.eqb line nl || String.eqb line crnl).
    + injection H as <- <- <-. unfold text. cbn. rewrite !append_assoc. split_and!; [done|done|by left|lia|by left].
    + apply IH in H as (Ht & He & Hr & Hl & Hm). cbn. rewrite Ht, !append_assoc. split_and!; [done|done|done|lia|].
      destruct e; [done|by left].
Qed.

(** How many frames a reader may still give, with the end of the stream. *)
Definition frames_left (r : reader) : nat := length (rd_lines r) + if String.eqb (rd_tail r) "" then 1 else 2.

Definition errors_of (plan : list hact) : list goerr := omap (fun a => match a with SendErr e => Some e | _ => None end) plan.

(** The events are the bytes of the body, cut into frames: none is lost and none
    is marked as the last; then the failure of the body, if any. *)
Lemma relay_frames_spec n ctx r :
  (frames_left r <= n)%nat ->
  let plan := relay_frames n ctx r in
  join (map se_Data (sends plan)) = text r /\ Forall (fun ev => se_Done ev = false) (sends plan) /\
  errors_of plan = (match rd_err r with Some e => if ctx then [] else [Wrap [e]] | None => [] end) /\ CloseEvents ∉ plan.
Proof.
  revert r. induction n as [|n IH]; intros r Hn.
  { exfalso. unfold frames_left in Hn. destruct (String.eqb _ _); lia. }
  cbn [relay_frames]. destruct (readSSEFrame r) as [[f e] r'] eqn:E. apply frame_from_spec in E as (Ht & He & Hr & Hl & Hm).
  change (f +:+ text r' = text r) in Ht.
  assert (Hf : forall rest, CloseEvents ∉ rest -> let plan := (if String.eqb f "" then [] else [SendEvent (event f)]) ++ rest in
    join (map se_Data (sends plan)) = f +:+ join (map se_Data (sends rest)) /\
    (Forall (fun ev => se_Done ev = false) (sends rest) -> Forall (fun ev => se_Done ev = false) (sends plan)) /\
    errors_of plan = errors_of rest /\ CloseEvents ∉ plan).
  { intros rest Hrest. destruct (String.eqb_spec f "") as [->|]; [done|]. cbn. split_and!; [done|by intros; constructor|done|set_solver]. }
  destruct e as [[e|]|].
  - destruct Hm as [<- Hm]. rewrite Hm in Ht. destruct (Hf (if ctx then [] else [SendErr (Wrap [e])])) as (H1 & H2 & H3 & H4).
    { destruct ctx; set_solver. }
    cbv zeta in *. rewrite H1, H3. split_and!; [destruct ctx; exact Ht|apply H2; destruct ctx; constructor|destruct ctx; done|done].
  - destruct Hm as [Hm' Hm]. rewrite Hm in Ht. destruct (Hf [] ltac:(set_solver)) as (H1 & H2 & H3 & H4).
    cbv zeta in *. rewrite H1, H3, <-Hm'. split_and!; [exact Ht|apply H2; constructor|done|done].
  - assert (Hn' : (frames_left r' <= n)%nat).
    { unfold frames_left in *. destruct Hm as [Hm|(Hm & Hne & Htl)].
      - assert (0 < length (rd_lines r))%nat by (destruct (rd_lines r); [done|simpl; lia]).
        destruct Hr as [-> | ->]; [destruct (String.eqb (rd_tail r) ""); lia|]. change (String.eqb "" "") with true. cbn iota.
        destruct (String.eqb (rd_tail r) ""); lia.
      - change ("" +:+ rd_tail r) with (rd_tail r) in Hne. rewrite Hm in *. rewrite Htl. rewrite (proj2 (String.eqb_neq _ _) Hne) in Hn.
        simpl in *. lia. }
    destruct (IH r' Hn') as (I1 & I2 & I3 & I4). destruct (Hf (relay_frames n ctx r') I4) as (H1 & H2 & H3 & H4).
    cbv zeta in *. rewrite H1, H3, I1, I3, He. split_and!; [exact Ht|by apply H2|done|done].
Qed.

Lemma relay_fuel_enough r : (frames_left r <= relay_fuel r)%nat.
Proof. unfold frames_left, relay_fuel. destruct (String.eqb _ _); lia. Qed.

(** ** The goroutine and the proxy *)

(** The plans of [Stream]: events, then at most an error, then the close. *)
Record http_plan (plan : list hact) (l : list hact) : Prop := {
  hp_close : plan = l ++ [CloseEvents];
  hp_once : CloseEvents ∉ l;
  hp_done : Forall (fun ev => se_Done ev = false) (sends plan);
}.

Lemma Stream_plan posted deadline ctx : exists l, http_plan (Stream posted deadline ctx) l.
Proof.
  unfold Stream. eexists. split; [done| |].
  - destruct posted as [[status r]|err]; [|set_solver]. destruct (status =? 200); [|set_solver].
    by destruct (relay_frames_spec (relay_fuel r) ctx r (relay_fuel_enough r)) as (_ & _ & _ & ?).
  - unfold sends. rewrite omap_app. apply Forall_app. split; [|constructor].
    destruct posted as [[status r]|err]; [|constructor]. destruct (status =? 200); [|constructor].
    by destruct (relay_frames_spec (relay_fuel r) ctx r (relay_fuel_enough r)) as (_ & ? & _ & _).
Qed.

(** What the proxy took, what waits and what is to come are the events of the
    plan. *)
Definition proxied_inv (plan : list hact) (s : hstream * list (Time * pevent)) : Prop :=
  let '(h, evs) := s in
  let '(before, x) := ended_by evs in
  let got := omap chunk_event before in
  (exists rest, got ++ hs_chunkCh h ++ sends (hs_todo h) ++ rest = sends plan /\ (hs_gaveUp h = false -> rest = [])) /\
  (hs_todo h = [] \/ exists l, hs_todo h = l ++ [CloseEvents] /\ CloseEvents ∉ l) /\
  (hs_closed h = true -> hs_todo h = []) /\
  (forall c, x <> Some (EChunk c)) /\
  (x = Some EChunksClosed -> hs_closed h = true /\ hs_chunkCh h = []).

Lemma proxied_inv_worker plan h h' evs :
  proxied_inv plan (h, evs) -> produce h = Some h' \/ abandon h = Some h' -> proxied_inv plan (h', evs).
Proof.
  destruct h as [todo ch er cl gu]. unfold proxied_inv, produce, abandon. cbn [hs_todo hs_chunkCh hs_errCh hs_closed hs_gaveUp].
  destruct (ended_by evs) as [before x]. intros ((rest & Hs & Hg) & Htd & Hcl & Hx & Hxc) Hst.
  assert (Hopen : forall a todo', todo = a :: todo' -> cl = false) by (intros a todo' ->; destruct cl; [by specialize (Hcl eq_refl)|done]).
  assert (Htail : forall a todo', todo = a :: todo' -> a <> CloseEvents -> exists l, todo' = l ++ [CloseEvents] /\ CloseEvents ∉ l).
  { intros a todo' -> Ha. destruct Htd as [|([|y l] & [= -> ->] & Hn)]; [done|done|]. exists l. set_solver. }
  destruct Hst as [Hst|Hst].
  - destruct todo as [|[ev|e|] todo]; [done|..].
    + destruct (try_send chunkCap ev ch) as [buf|] eqn:Eb; [|done]. apply try_send_Some in Eb as [_ ->]. injection Hst as <-. cbn.
      rewrite (Hopen _ _ eq_refl) in *. split_and!; try done; [|right; by apply (Htail _ _ eq_refl)|by intros [? _]%Hxc].
      exists rest. rewrite <-!(assoc_L (++)). split; [exact Hs|done].
    + destruct (try_send 1 e er) as [buf|] eqn:Eb; [|done]. injection Hst as <-. cbn.
      rewrite (Hopen _ _ eq_refl) in *. split_and!; try done; [by exists rest|right; by apply (Htail _ _ eq_refl)].
    + injection Hst as <-. cbn. assert (todo = []) as ->.
      { destruct Htd as [|(l & E & Hn)]; [done|]. destruct l as [|y l]; simplify_eq/=; [done|set_solver]. }
      split_and!; try done; [by exists rest|by left|]. intros Hxe. by destruct (Hxc Hxe).
  - destruct todo as [|[ev|e|] todo]; try done. injection Hst as <-. cbn. rewrite (Hopen _ _ eq_refl) in *.
    split_and!; try done; [|right; exists []; split; [done|set_solver]].
    exists ((ev :: sends todo) ++ rest). split; [|done]. exact Hs.
Qed.

Lemma proxied_inv_step plan s s' :
  Forall (fun ev => se_Done ev = false) (sends plan) -> proxied_inv plan s -> proxied s s' -> proxied_inv plan s'.
Proof.
  intros Hd H Hst. destruct Hst as [h h' evs Hw|h evs now ev l Hx Hc|h evs now Hx Hc Hcl|h evs now e l Hx Hc|h evs now e Hx He].
  - by eapply proxied_inv_worker.
  - unfold proxied_inv in *. destruct (ended_by_snoc evs now (EChunk ev) Hx) as [He Hb].
    destruct (ended_by evs) as [before x]. simpl in Hx, Hb. subst before x.
    destruct H as ((rest & Hs & Hg) & Htd & Hcl & _ & _). rewrite Hc in Hs.
    assert (Hev : se_Done ev = false). { rewrite Forall_forall in Hd. apply Hd. rewrite <-Hs. set_solver. }
    rewrite He, Hev. cbn. rewrite omap_app. cbn. split_and!; try done. exists rest. rewrite <-!(assoc_L (++)). by split.
  - unfold proxied_inv in *. destruct (ended_by_snoc evs now EChunksClosed Hx) as [He Hb].
    destruct (ended_by evs) as [before x]. simpl in Hx, Hb. subst before x. rewrite He. naive_solver.
  - unfold proxied_inv in *. destruct (ended_by_snoc evs now (EError e) Hx) as [He Hb].
    destruct (ended_by evs) as [before x]. simpl in Hx, Hb. subst before x. rewrite He. naive_solver.
  - unfold proxied_inv in *. destruct (ended_by_snoc evs now e Hx) as [He' Hb].
    destruct (ended_by evs) as [before x]. simpl in Hx, Hb. subst before x. rewrite He'. destruct He as [-> | ->]; naive_solver.
Qed.

Lemma proxied_inv_reach plan l h evs :
  http_plan plan l -> rtc proxied (open_stream plan, []) (h, evs) -> proxied_inv plan (h, evs).
Proof.
  intros [Hc Ho Hd]. apply (rtc_invariant proxied (proxied_inv plan)); [intros a b Ha Hab; by eapply proxied_inv_step|].
  simpl. split_and!; try done; [by exists []; rewrite app_nil_r|]. right. exists l. by split.
Qed.

Lemma sends_Stream r deadline ctx : sends (Stream (inl (200, r)) deadline ctx) = sends (relay_frames (relay_fuel r) ctx r).
Proof.
  unfold Stream. change (200 =? 200) with true. cbn iota. unfold sends. rewrite omap_app. simpl. by rewrite app_nil_r.
Qed.

(** The errors there are or were are those of the plan. *)
Definition errors_inv (plan : list hact) (s : hstream * list (Time * pevent)) : Prop :=
  let '(h, evs) := s in
  (forall e, SendErr e ∈ hs_todo h -> SendErr e ∈ plan) /\ (forall e, e ∈ hs_errCh h -> SendErr e ∈ plan) /\
  (forall now e, (now, EError e) ∈ evs -> SendErr e ∈ plan).

Lemma errors_inv_step plan s s' : errors_inv plan s -> proxied s s' -> errors_inv plan s'.
Proof.
  intros H Hst. destruct Hst as [h h' evs Hw|h evs now ev l Hx Hc|h evs now Hx Hc Hcl|h evs now e l Hx Hc|h evs now e Hx He];
    destruct H as (H1 & H2 & H3); unfold errors_inv.
  - split_and!; [| |done]; destruct h as [todo ch er cl gu]; unfold produce, abandon in Hw; simpl in *;
      destruct todo as [|[ev|e|] todo]; destruct Hw as [Hw|Hw]; try done;
      try (destruct (try_send _ _ _) as [buf|] eqn:Eb; [|done]; apply try_send_Some in Eb as [_ ->]);
      injection Hw as <-; simpl; intros e0 He0;
      first [by apply H2|by apply H1; right|by apply list_elem_of_singleton in He0|
        apply elem_of_app in He0 as [He0|He0%list_elem_of_singleton]; [by apply H2|apply H1; subst; by left]].
  - split_and!; [done..|]. intros t e0 [He0|He0%list_elem_of_singleton]%elem_of_app; [by eapply H3|done].
  - split_and!; [done..|]. intros t e0 [He0|He0%list_elem_of_singleton]%elem_of_app; [by eapply H3|done].
  - simpl. rewrite Hc in H2. split_and!; [done|intros e0 He0; apply H2; by right|].
    intros t e0 [He0|He0%list_elem_of_singleton]%elem_of_app; [by eapply H3|]. injection He0 as _ ->. apply H2. by left.
  - split_and!; [done..|]. intros t e0 [He0|He0%list_elem_of_singleton]%elem_of_app; [by eapply H3|].
    injection He0 as _ <-. by destruct He.
Qed.

Lemma ended_by_in evs e : (ended_by evs).2 = Some e -> exists now, (now, e) ∈ evs.
Proof.
  induction evs as [|[t x] evs IH]; simpl; [done|].
  assert (Hrest : (ended_by evs).2 = Some e -> exists now, (now, e) ∈ (t, x) :: evs).
  { intros [now H]%IH. exists now. by right. }
  destruct (ended_by evs) as [l y]. destruct x as [c| | | | |]; [destruct (se_Done c)|..]; simpl; try exact Hrest;
    intros [= <-]; exists t; by left.
Qed.

(** What a client gets of a stream that fails before its first event. *)
Lemma http_failed timeout now err h evs :
  rtc proxied (open_stream [SendErr err; CloseEvents], []) (h, evs) ->
  let p := (proxy_loop timeout evs (proxy_start timeout now new_writer)).1 in
  (rw_status (px_writer p), rw_body (px_writer p)) =
    stream_response [] (match (ended_by evs).2 with Some (EError _) => Some (EError err) | x => x end) /\
  (forall c, (ended_by evs).2 <> Some (EChunk c)) /\
  (px_completed p = true <-> (ended_by evs).2 = Some EChunksClosed).
Proof.
  intros Hr p. assert (Hplan : http_plan [SendErr err; CloseEvents] [SendErr err]).
  { split; [done|set_solver|constructor]. }
  assert (Herr : forall e, (ended_by evs).2 = Some (EError e) -> e = err).
  { intros e [t He]%ended_by_in.
    assert (Hinv : errors_inv [SendErr err; CloseEvents] (h, evs)).
    { revert Hr. apply rtc_invariant; [intros a b Ha Hab; by eapply errors_inv_step|]. simpl. split_and!; [done|set_solver..]. }
    destruct Hinv as (_ & _ & H3). apply H3 in He. set_solver. }
  pose proof (proxied_inv_reach _ _ _ _ Hplan Hr) as H. unfold proxied_inv in H.
  pose proof (proxy_loop_spec timeout evs [] (proxy_start timeout now new_writer) ltac:(done)) as Hp.
  subst p. destruct (proxy_loop timeout evs _) as [p r]. destruct (ended_by evs) as [before x]. cbn [fst snd] in *.
  destruct H as ((rest & Hs & Hg) & _ & _ & Hne & _). destruct Hp as (Hp & Hc & _).
  rewrite app_nil_l, chunk_data_events in Hp. change (sends [SendErr err; CloseEvents]) with (@nil StreamEvent) in Hs.
  apply app_nil in Hs as [Hs _]. rewrite Hs in Hp. simpl in Hp. split_and!; [|done|].
  - destruct x as [[c| |e| | |]|]; try exact Hp. by rewrite <-(Herr e eq_refl).
  - rewrite Hc. destruct x as [[c| | | | |]|]; simpl; try done. by destruct (Hne c).
Qed.

(** The text of a response's body. *)
Definition body_text (l : list written) : string := join (omap (fun x => match x with Data s => Some s | _ => None end) l).

Lemma body_text_app l l' : body_text (l ++ l') = body_text l +:+ body_text l'.
Proof. unfold body_text. by rewrite omap_app, join_app. Qed.

Lemma body_text_data evs : body_text (map (fun c => Data (se_Data c)) evs) = join (map se_Data evs).
Proof. unfold body_text. f_equal. induction evs as [|ev evs IH]; [done|]. simpl. f_equal. exact IH. Qed.

(** What a client that streams from an HTTP worker gets. *)
Lemma http_relayed timeout now body err deadline ctx h evs :
  let plan := Stream (inl (200, read_body body err)) deadline ctx in
  rtc proxied (open_stream plan, []) (h, evs) ->
  let p := (proxy_loop timeout evs (proxy_start timeout now new_writer)).1 in
  exists pre rest tl,
    body = pre +:+ rest /\ body_text (rw_body (px_writer p)) = pre +:+ body_text tl /\
    (tl = [] \/ tl = [Data done_text] \/ pre = "" /\ exists code, tl = [ErrorObject code]) /\
    (px_completed p = true <-> (ended_by evs).2 = Some EChunksClosed) /\
    (px_completed p = true -> hs_gaveUp h = false ->
       rest = "" /\ (body <> "" -> rw_status (px_writer p) = Some 200 /\ tl = [Data done_text])).
Proof.
  intros plan Hr p. destruct (Stream_plan (inl (200, read_body body err)) deadline ctx) as [l Hl]. fold plan in Hl.
  pose proof (proxied_inv_reach _ _ _ _ Hl Hr) as H. unfold proxied_inv in H.
  pose proof (proxy_loop_spec timeout evs [] (proxy_start timeout now new_writer) ltac:(done)) as Hp.
  subst p. destruct (proxy_loop timeout evs _) as [p r]. destruct (ended_by evs) as [before x]. cbn [fst snd] in *.
  destruct H as ((rest & Hs & Hg) & _ & Htd & Hne & Hcl). destruct Hp as (Hp & Hc & _).
  rewrite app_nil_l, chunk_data_events in Hp. set (got := omap chunk_event before) in *. clearbody got.
  assert (Hbody : join (map se_Data (sends plan)) = body).
  { unfold plan. rewrite sends_Stream.
    destruct (relay_frames_spec (relay_fuel (read_body body err)) ctx (read_body body err) (relay_fuel_enough _)) as (-> & _).
    apply read_body_text. }
  assert (Hx : px_completed p = true <-> x = Some EChunksClosed).
  { rewrite Hc. destruct x as [[c| | | | |]|]; simpl; try done. by destruct (Hne c). }
  pose proof Hp as Hp'. apply stream_response_tail in Hp as (tl & Hw & Htl).
  exists (join (map se_Data got)), (join (map se_Data (hs_chunkCh h ++ sends (hs_todo h) ++ rest))), tl.
  split_and!; [by rewrite <-join_app, <-map_app, Hs|by rewrite Hw, body_text_app, body_text_data| |exact Hx|].
  - destruct x as [[c| |e| | |]|]; [by destruct (Hne c)|..];
      (destruct Htl as [?|[?|[Hnil ?]]]; [auto..|]; right; right; split; [|done]);
      apply map_eq_nil in Hnil; by rewrite Hnil.
  - intros Hdone Hgu. apply Hx in Hdone as ->. destruct (Hcl eq_refl) as [Hclosed Hch]. rewrite Hch, (Htd Hclosed), (Hg Hgu). split; [done|].
    intros Hb. rewrite Hch, (Htd Hclosed), (Hg Hgu), !app_nil_r in Hs. rewrite <-Hs in Hbody.
    destruct got as [|ev got]; [by rewrite <-Hbody in Hb|]. simpl in Hp', Hw. injection Hp' as -> Hp'. split; [done|].
    rewrite Hp' in Hw. injection Hw as Hw. by apply app_inv_head in Hw.
Qed.

(** ** From the backend of a worker to the client *)

Section end_to_end.
Context `{B : WorkerBackend} (marshal_chunk : Chunk -> option string).

(** What the router receives of a worker's response: a missing status line is 200. *)
Definition received (w : ResponseWriter) : result (Z * reader) :=
  inl (default 200 (rw_status w), read_body (body_text (rw_body w)) None).

Lemma Stream_status w code deadline ctx :
  rw_status w = Some code -> code <> 200 -> Stream (received w) deadline ctx = [SendErr (WorkerHTTPError code); CloseEvents].
Proof using. intros Hw Hc. unfold Stream, received. rewrite Hw. simpl. by rewrite (proj2 (Z.eqb_neq _ _) Hc). Qed.

Lemma stream_error_status_not_ok e : stream_error_status e <> 200.
Proof using. unfold stream_error_status. by case_match. Qed.

(** C3: a stream over HTTP from end to end, of a worker whose loop ended because
    the backend did.  When the backend fails before the first chunk, the worker
    answers 502 or 504 and no frame, and the client gets that status as a worker
    error if the proxy's [select] takes the error; but if it takes the chunk
    channel, which is closed by then, the client gets an empty response, 200 for
    want of a status, and the request is filed as done (504 when the idle timer
    comes first, and nothing when the client has gone).  Otherwise a client that
    the proxy serves to the end gets a frame for each chunk the worker took, in
    order: all of the backend's when it ended well and did not give up on the
    worker.  And then two more faults show: the client gets two sentinels, the
    worker's and the router's, and a backend that failed midway is not told from
    one that finished, for its request is filed as done too. *)
Theorem http_end_to_end plan model b x r timeout now deadline ctx h evs :
  good_plan plan -> rtc (streaming marshal_chunk model) (Backend.open_stream plan, sse_start new_writer, None) (b, x, Some r) ->
  r = Cleanly \/ (exists e, r = BackendError e) ->
  let events := Stream (received (ss_w x)) deadline ctx in
  rtc proxied (open_stream events, []) (h, evs) ->
  let p := (proxy_loop timeout evs (proxy_start timeout now new_writer)).1 in
  let response := (rw_status (px_writer p), rw_body (px_writer p), px_completed p) in
  (exists e, let status := if isBackendTimeout (Some e) then 504 else 502 in
    r = BackendError e /\ e ∈ fails plan /\ events = [SendErr (WorkerHTTPError status); CloseEvents] /\
    match (ended_by evs).2 with
    | Some (EError _) => response = (Some status, [ErrorObject "worker_error"], false)
    | Some EChunksClosed => response = (None, [], true)
    | Some EIdle => response = (Some 504, [ErrorObject "timeout_error"], false)
    | _ => response = (None, [], false)
    end) \/
  (exists taken, taken `prefix_of` Backend.sends plan /\ (r = Cleanly \/ taken <> []) /\
    (r = Cleanly -> bs_gaveUp b = false -> taken = Backend.sends plan) /\
    (px_completed p = true -> hs_gaveUp h = false ->
       rw_status (px_writer p) = Some 200 /\
       body_text (rw_body (px_writer p)) = body_text (frames marshal_chunk taken) +:+ body_text [sse_done; sse_done])).
Proof using.
  intros Hp Hw Hend events Hr p response. pose proof (sse_inv_reach _ _ _ _ _ Hp Hw) as (taken & errs & Hi & Hst & Hadd & _).
  pose proof (status_sent _ _ _ _ _ _ Hw) as Hs. cbn [added rw_body new_writer] in Hadd.
  assert (Hbody : forall cs, rw_status (ss_w x) = Some 200 -> rw_body (ss_w x) = frames marshal_chunk cs ++ [sse_done] ->
    px_completed p = true -> hs_gaveUp h = false ->
    rw_status (px_writer p) = Some 200 /\
    body_text (rw_body (px_writer p)) = body_text (frames marshal_chunk cs) +:+ body_text [sse_done; sse_done]).
  { intros cs H200 Hcs Hdone Hgu. unfold events, received in Hr. rewrite H200, Hcs, body_text_app in Hr. cbn [default] in Hr.
    destruct (http_relayed timeout now _ _ _ _ _ _ Hr) as (pre & rest & tl & Hpre & Htext & _ & _ & Hall).
    destruct (Hall Hdone Hgu) as [-> Hne]. rewrite app_nil_s in Hpre. fold p in Htext, Hne. destruct Hne as [H1 ->].
    - intros H0. assert (Hlen : forall s t, s +:+ t = "" -> t = "") by (intros [|c s] t Hst'; [exact Hst'|done]).
      apply Hlen in H0. discriminate H0.
    - split; [done|]. rewrite Htext, <-Hpre, append_assoc. reflexivity. }
  assert (Htk : taken `prefix_of` Backend.sends plan) by (eapply prefix_app_l, Hi).
  destruct Hend as [->|[e ->]]; cbn [added] in Hadd.
  - right. exists taken. destruct Hadd as [Hb Hall]. split_and!; [done|by left|intros _ Hg; by apply Hall|by apply Hbody].
  - destruct Hadd as [He Hb]. destruct taken as [|c taken].
    + assert (He' : events = [SendErr (WorkerHTTPError (stream_error_status e)); CloseEvents]).
      { apply Stream_status; [|apply stream_error_status_not_ok]. rewrite Hs, Hst. by rewrite decide_True. }
      left. exists e. change (if isBackendTimeout (Some e) then 504 else 502) with (stream_error_status e). cbv zeta.
      split_and!; [done..|]. rewrite He' in Hr.
      destruct (http_failed timeout now _ _ _ Hr) as (Hresp & Hnc & Hcompl). fold p in Hresp, Hcompl.
      assert (Hf : (ended_by evs).2 <> Some EChunksClosed -> px_completed p = false).
      { intros Hn. destruct (px_completed p); [|done]. exfalso. by apply Hn, Hcompl. }
      unfold response. destruct (ended_by evs).2 as [[c| | | | |]|]; [by destruct (Hnc c)|..]; simpl in Hresp; injection Hresp as -> ->;
        rewrite ?(Hf ltac:(done)); try done. by rewrite (proj2 Hcompl).
    + right. exists (c :: taken). split_and!; [done|by right|done|apply Hbody; [|done]]. by rewrite Hs, Hst, decide_False.
Qed.
End end_to_end.

(** ** Under the failover loop *)

Section failover.
Context {K : Selection.Backend} {T : Transport K}.

(** The transport's answers to requests over HTTP are this client's, for what
    the network answers to the worker's. *)
Context (net : WorkerInfo -> @world K -> nat -> result response) (of_string : string -> @body K T).
Context (over_http : forall c worker kind b d w, c = HTTPClient \/ c = MTLSClient ->
  exists w', Dispatch.Complete c worker kind b d w =
    (w', match (Complete (net worker w) None).1 with inl x => inl (of_string x) | inr e => inr e end)).

Lemma clientFor_http (s : Dispatch.Server) worker (w : @world K) :
  sv_clientFactory s = false -> wi_Transport worker <> TransportWS ->
  clientFor s worker w = HTTPClient \/ clientFor s worker w = MTLSClient.
Proof using.
  intros Hf Ht. unfold clientFor. rewrite Hf, (proj2 (String.eqb_neq _ _) Ht). destruct (sv_mTLS s); auto.
Qed.

Lemma Complete_dead (do : nat -> result response) msg :
  (forall k, (k < 4)%nat -> do k = inr (ErrorsNew msg)) -> (Complete do None).1 = inr (Wrap [ErrorsNew msg]).
Proof using.
  intros Hd. unfold Complete, postWithRetry. cbn [post_loop]. by rewrite !Hd by lia.
Qed.

Lemma call_dead (s : Dispatch.Server) model b kind deadline worker (st : dstate K) msg :
  sv_clientFactory s = false -> wi_Transport worker <> TransportWS ->
  (forall w k, (k < 4)%nat -> net worker w k = inr (ErrorsNew msg)) ->
  exists st', call_worker s model b kind deadline worker st = (st', inr (Wrap [ErrorsNew msg])).
Proof using over_http.
  intros Hf Ht Hd. unfold call_worker. destruct (begin_request model worker kind st) as [st3 id].
  destruct (over_http (clientFor s worker (ds_world st3)) worker kind b deadline (ds_world st3)) as [w' ->].
  - by apply clientFor_http.
  - rewrite (Complete_dead _ msg) by (intros; by apply Hd). by eexists.
Qed.

(** C34: a worker that cannot be reached ends the dispatch.  The error of a
    connection that fails is in no list of [isRetryableError], although transport
    failures are meant to be retried: when the worker selected first is dialled
    over HTTP and does not answer, the request fails with 503, after four
    requests and seven seconds, whatever the other workers and the number of
    attempts are. *)
Theorem dead_worker_ends_dispatch (s : Dispatch.Server) model b kind attempts budget (st : dstate K) w worker msg :
  ctx_Err (time_add (w_now (ds_world st)) budget) (ds_world st) = None ->
  selectWorkerExcluding (sv_scoring s) model ∅ (ds_world st) = (w, inl worker) ->
  sv_hub s && hub_isRateLimited (wi_ID worker) w = false ->
  sv_clientFactory s = false -> wi_Transport worker <> TransportWS ->
  (forall w k, (k < 4)%nat -> net worker w k = inr (ErrorsNew msg)) ->
  (exists st', dispatchWithFailover s model b kind attempts budget st =
    (st', inr (Wrap [ErrorsNew msg]), [Called worker (inr (Wrap [ErrorsNew msg]))])) /\
  writeFailoverError (Some (Wrap [ErrorsNew msg])) = (503, "no_workers") /\
  forall do : nat -> result response, (forall k, (k < 4)%nat -> do k = inr (ErrorsNew msg)) ->
    (postWithRetry do None).2 = [second; 2 * second; 4 * second].
Proof using over_http.
  intros Hctx Hsel Hrate Hfac Hws Hdead. split_and!; [|done|].
  2: { intros do Hdo. unfold postWithRetry. cbn [post_loop]. by rewrite !Hdo by lia. }
  unfold dispatchWithFailover. set (n := if attempts <? 1 then 1 else attempts).
  assert (Hn : exists n', Z.to_nat n = S n').
  { exists (pred (Z.to_nat n)). subst n. destruct (Z.ltb_spec attempts 1); lia. }
  destruct Hn as [n' ->]. cbn [failover]. rewrite Hctx, Hsel.
  destruct (record_dispatch model false (with_world w st)) as [rec st2] eqn:Er.
  assert (ds_world st2 = w) as ->.
  { unfold record_dispatch in Er. destruct (ds_counter (with_world w st)); injection Er as <- <-; done. }
  rewrite Hrate. edestruct (call_dead s model b kind) as [st' ->]; [done..|]. by exists st'.
Qed.
End failover.

(** ** Concrete runs *)

(** The goroutine alone, then the proxy taking what there is and the close. *)
Fixpoint produce_n (n : nat) (h : hstream) : hstream :=
  match n with O => h | S n => produce_n n (default h (produce h)) end.

Lemma http_produce_n_steps n h evs : rtc proxied (h, evs) (produce_n n h, evs).
Proof.
  revert h. induction n as [|n IH]; intros h; simpl; [apply rtc_refl|].
  destruct (produce h) as [h'|] eqn:E; simpl; [|apply IH]. eapply rtc_l; [apply proxied_worker; by left|]. apply IH.
Qed.

Definition drained (h : hstream) : hstream := mkStream (hs_todo h) [] (hs_errCh h) (hs_closed h) (hs_gaveUp h).

Lemma drain_steps now l h evs :
  hs_chunkCh h = l -> hs_closed h = true -> Forall (fun ev => se_Done ev = false) l -> (ended_by evs).2 = None ->
  rtc proxied (h, evs) (drained h, evs ++ map (fun ev => (now, EChunk ev)) l ++ [(now, EChunksClosed)]).
Proof.
  revert h evs. induction l as [|ev l IH]; intros h evs Hc Hcl Hd Hx.
  - apply rtc_once. replace (drained h) with h by (destruct h; cbn in *; by subst). by apply proxied_closed.
  - apply Forall_cons in Hd as [Hev Hd]. eapply rtc_l; [by apply (proxied_chunk h evs now ev l)|].
    destruct (ended_by_snoc evs now (EChunk ev) Hx) as [Hs _]. rewrite Hev in Hs.
    pose proof (IH (mkStream (hs_todo h) l (hs_errCh h) (hs_closed h) (hs_gaveUp h)) (evs ++ [(now, EChunk ev)])
      eq_refl Hcl Hd) as H.
    rewrite Hs, <-(assoc_L (++)) in H. by apply H.
Qed.

Definition ex_answer : option (bstream * WorkerServer.sse * option stream_end) := ex_rounds new_writer.

(** A backend that fails at once. *)
Definition ex_failing : list pact := Fail (Errorf "down") :: closers.

Definition ex_failed : option (bstream * WorkerServer.sse * option stream_end) :=
  rounds [1] (WorkerServer.produce_n 4 (Backend.open_stream ex_failing)) (sse_start new_writer).

Definition ex_response (evs : list (Time * pevent)) : option Z * list written * bool :=
  let p := (proxy_loop minute evs (proxy_start minute 0 new_writer)).1 in (rw_status (px_writer p), rw_body (px_writer p), px_completed p).

(** A stream of two chunks; and a failure before any, as an error and as an empty
    success. *)
Lemma http_end_to_end_witness :
  (exists h evs, (ex_response evs).2 = true /\ hs_gaveUp h = false /\
    body_text (ex_response evs).1.2 =
      body_text (frames ex_marshal [ex_chunk "a"; ex_chunk "b"]) +:+ body_text [sse_done; sse_done]) /\
  exists x, (exists b, rtc (streaming (B := ex_worker) ex_marshal "llama") (Backend.open_stream ex_failing, sse_start new_writer, None)
      (b, x, Some (BackendError (Errorf "down")))) /\
    let reached evs := exists h, rtc proxied (open_stream (Stream (received (ss_w x)) false false), []) (h, evs) in
    (exists evs, reached evs /\ ex_response evs = (Some 502, [ErrorObject "worker_error"], false)) /\
    (exists evs, reached evs /\ ex_response evs = (None, [], true)).
Proof.
  split.
  - destruct ex_answer as [[[b x] r]|] eqn:E; [|vm_compute in E; discriminate].
    assert (Hr : r = Some Cleanly /\ bs_gaveUp b = false) by (vm_compute in E; injection E as <- <- <-; split; reflexivity).
    destruct Hr as [-> Hg].
    set (plan := Stream (received (ss_w x)) false false).
    set (h := produce_n 4 (open_stream plan)).
    assert (Hh : hs_closed h = true /\ Forall (fun ev => se_Done ev = false) (hs_chunkCh h) /\ hs_gaveUp h = false).
    { unfold h, plan. vm_compute in E. injection E as <- <-. split_and!; [reflexivity| |reflexivity]. vm_compute. repeat constructor. }
    destruct Hh as (Hc & Hd & Hn).
    pose proof (drain_steps 1 _ h [] eq_refl Hc Hd eq_refl) as Hdrain.
    set (evs := [] ++ _) in Hdrain. exists (drained h), evs.
    assert (Hdone : (ex_response evs).2 = true).
    { unfold evs, h, plan. vm_compute in E. injection E as <- <-. vm_compute. reflexivity. }
    split_and!; [exact Hdone|exact Hn|].
    assert (Hp : good_plan ex_plan) by apply wb_chat_plan.
    destruct (http_end_to_end ex_marshal ex_plan "llama" b x Cleanly minute 0 false false (drained h) evs Hp
      (ex_rounds_reach new_writer _ E) (or_introl eq_refl)) as [(e & He & _)|(taken & _ & _ & Htk & Hbody)].
    + etrans; [apply (http_produce_n_steps 4)|exact Hdrain].
    + discriminate He.
    + destruct (Hbody Hdone Hn) as [_ H]. unfold ex_response. cbn [fst snd]. rewrite H, (Htk eq_refl Hg). vm_compute. reflexivity.
  - destruct ex_failed as [[[b x] r]|] eqn:E; [|vm_compute in E; discriminate].
    assert (Hr : r = Some (BackendError (Errorf "down"))) by (vm_compute in E; injection E as <- <- <-; reflexivity). subst r.
    assert (Hreach : rtc (streaming (B := ex_worker) ex_marshal "llama") (Backend.open_stream ex_failing, sse_start new_writer, None)
      (b, x, Some (BackendError (Errorf "down")))).
    { etrans; [apply (WorkerServer.produce_n_steps 4)|]. by apply rounds_reach in E. }
    assert (Hp : good_plan ex_failing) by constructor.
    exists x. split; [by exists b|]. cbv zeta.
    set (plan := Stream (received (ss_w x)) false false). set (h := produce_n 2 (open_stream plan)).
    assert (Hplan : plan = [SendErr (WorkerHTTPError 502); CloseEvents]).
    { unfold plan. vm_compute in E. injection E as <- <-. reflexivity. }
    assert (Hh : rtc proxied (open_stream plan, []) (h, [])) by apply (http_produce_n_steps 2).
    assert (H1 : rtc proxied (open_stream plan, []) (mkStream (hs_todo h) (hs_chunkCh h) [] (hs_closed h) (hs_gaveUp h),
      [(1, EError (WorkerHTTPError 502))])).
    { etrans; [exact Hh|]. apply rtc_once. apply (proxied_error h [] 1); [reflexivity|]. unfold h. by rewrite Hplan. }
    assert (H2 : rtc proxied (open_stream plan, []) (h, [(1, EChunksClosed)])).
    { etrans; [exact Hh|]. apply rtc_once. by apply (proxied_closed h [] 1); [reflexivity|unfold h; rewrite Hplan..]. }
    split.
    + eexists. split; [eexists; exact H1|].
      destruct (http_end_to_end (B := ex_worker) ex_marshal ex_failing "llama" b x _ minute 0 false false _ _ Hp Hreach
        (or_intror (ex_intro _ _ eq_refl)) H1) as [(e & He & _ & _ & Hm)|(taken & Hpre & Hne & _)].
      * injection He as <-. exact Hm.
      * apply prefix_nil_inv in Hpre. destruct Hne as [Hne|Hne]; [discriminate Hne|contradiction].
    + eexists. split; [eexists; exact H2|].
      destruct (http_end_to_end (B := ex_worker) ex_marshal ex_failing "llama" b x _ minute 0 false false _ _ Hp Hreach
        (or_intror (ex_intro _ _ eq_refl)) H2) as [(e & He & _ & _ & Hm)|(taken & Hpre & Hne & _)].
      * exact Hm.
      * apply prefix_nil_inv in Hpre. destruct Hne as [Hne|Hne]; [discriminate Hne|contradiction].
Defined.

(** Worker "b" refuses connections, the others answer. *)
Definition ex_net (worker : WorkerInfo) (w : @world Selection.ex_backend) (k : nat) : result response :=
  if String.eqb (wi_ID worker) "b" then inr (ErrorsNew "connection refused")
  else inl {| rp_StatusCode := 200; rp_Body := inl "hello" |}.

Definition ex_http : Transport Selection.ex_backend :=
  {| body := string; ctx_Err _ _ := None; hub_isRateLimited _ _ := false; hub_recordRejection _ _ w := w;
     hub_has_conn _ _ := false;
     Dispatch.Complete _ x _ _ _ w := (w, match (Complete (ex_net x w) None).1 with inl s => inl s | inr e => inr e end) |}.

Lemma dead_worker_ends_dispatch_witness :
  exists st', dispatchWithFailover (T := ex_http) Dispatch.ex_server "llama" "hi" "chat" 3 minute Dispatch.ex_state =
    (st', inr (Wrap [ErrorsNew "connection refused"]),
     [Called (ex_cached "b" true []) (inr (Wrap [ErrorsNew "connection refused"]))]).
Proof.
  destruct (dead_worker_ends_dispatch (T := ex_http) (fun x w k => if String.eqb (wi_ID x) "b" then ex_net x w k else ex_net x w k)
    (fun s => s) ltac:(intros c worker kind b d w _; exists w; simpl; destruct (String.eqb (wi_ID worker) "b"); reflexivity)
    Dispatch.ex_server "llama" "hi" "chat" 3 minute Dispatch.ex_state 0%nat (ex_cached "b" true []) "connection refused") as [H _].
  - reflexivity.
  - vm_compute. reflexivity.
  - reflexivity.
  - reflexivity.
  - discriminate.
  - intros w k _. reflexivity.
  - exact H.
Defined.
