(* ===== verification/Security.v ===== *)
(** * Security: who reaches a handler ([pkg/security], the servers' middleware)

    The API-key and client-certificate middlewares and how the router and the
    worker put them around their handlers, with the choice between plain HTTP
    and TLS.  Certificate verification and the address functions of [net] are
    arguments. *)

From S2P Require Import Prelude GoStrings Http.
From Stdlib Require Import Ascii.

#[local] Open Scope list_scope.

(** ** Requests and handlers *)

Record certificate := { ct_CommonName : string; ct_Verifies : bool }.

(** [rq_TLS] is [None] without TLS, else the peer's certificates. *)
Record request := {
  rq_Path : string;
  rq_XAPIKey : string;
  rq_Authorization : string;
  rq_TLS : option (list certificate);
}.

(** [None] is that the request is not answered here: the wrapped handler of
    the application takes it. *)
Definition handler : Type := request -> option ResponseWriter.

Definition mux : handler := fun _ => None.

Definition refuse (msg : string) (code : Z) : option ResponseWriter := Some (http_Error msg code new_writer).

(** ** The middlewares *)

(** [strings.HasPrefix] with [strings.TrimPrefix]. *)
Definition after_prefix (p s : string) : option string := of_bytes <$> strip (to_bytes p) (to_bytes s).

Definition presented_key (r : request) : string :=
  if String.eqb (rq_XAPIKey r) "" then default "" (after_prefix "Bearer " (rq_Authorization r)) else rq_XAPIKey r.

Definition NewAPIKeyMiddleware (apiKey : string) (required : bool) (next : handler) : handler := fun r =>
  if negb required then next r
  else
    let key := presented_key r in
    if String.eqb key "" then refuse "API key required" 401
    else if negb (String.eqb key apiKey) then refuse "invalid API key" 401
    else next r.

Definition NewMTLSMiddleware (required : bool) (allowedCN : list string) (next : handler) : handler := fun r =>
  if negb required then next r
  else
    match rq_TLS r with
    | None | Some [] => refuse "client certificate required" 403
    | Some (cert :: _) =>
        if negb (ct_Verifies cert) then refuse "certificate verification failed" 403
        else if match allowedCN with [] => false | _ => negb (existsb (Contains (ct_CommonName cert)) allowedCN) end
        then refuse "common name not allowed" 403
        else next r
    end.

Definition SplitCNs (s : string) : list string :=
  if String.eqb s "" then []
  else List.filter (fun p => negb (String.eqb p "")) (map TrimSpace (Split s ","%char)).

(** ** The servers *)

Definition worker_guarded : list string := ["/v1/chat/completions"; "/v1/completions"].

Definition router_guarded : list string :=
  ["/v1/chat/completions"; "/v1/completions"; "/v1/dev/register"; "/meta/aliases"; "/meta/auto-routing";
   "/meta/models/popular"; "/meta/connections/count"; "/meta/requests/inflight"; "/v1/queue/stats"; "/v1/inference-stats"].

(** [wrapInferenceEndpoints] of both servers, for their paths. *)
Definition wrap_paths (guarded : list string) (apiKey : string) (next : handler) : handler := fun r =>
  if existsb (String.eqb (rq_Path r)) guarded then NewAPIKeyMiddleware apiKey (negb (String.eqb apiKey "")) next r else next r.

Record Config := {
  sc_DevMode : bool;
  sc_MTLSCert : string;
  sc_MTLSKey : string;
  sc_CertDir : string;
  sc_APIKey : string;
  sc_TrustedCNs : string;
}.

Definition hasAnyMTLSConfig (c : Config) : bool :=
  negb (String.eqb (sc_MTLSCert c) "") || negb (String.eqb (sc_MTLSKey c) "") || negb (String.eqb (sc_CertDir c) "").
Definition hasFullMTLSConfig (c : Config) : bool :=
  negb (String.eqb (sc_MTLSCert c) "") && negb (String.eqb (sc_MTLSKey c) "") && negb (String.eqb (sc_CertDir c) "").

(** ** What the middlewares let through *)

(** A client certificate the middleware accepts. *)
Definition admitted_peer (cns : list string) (r : request) : Prop :=
  exists cert rest, rq_TLS r = Some (cert :: rest) /\ ct_Verifies cert = true /\
    (cns = [] \/ exists cn, cn ∈ cns /\ Contains (ct_CommonName cert) cn = true).

Lemma api_key_passes apiKey required next r :
  NewAPIKeyMiddleware apiKey required next r = None <->
  (required = true -> presented_key r = apiKey /\ apiKey <> "") /\ next r = None.
Proof.
  unfold NewAPIKeyMiddleware. destruct required; simpl; [|by split; [|intros [_ ?]]].
  destruct (String.eqb_spec (presented_key r) ""); simpl; [|destruct (String.eqb_spec (presented_key r) apiKey); simpl].
  - split; [done|]. intros [H _]. destruct (H eq_refl). congruence.
  - split; [intros ?; split; [intros _; split; congruence|done]|by intros [_ ?]].
  - split; [done|]. intros [H _]. by destruct (H eq_refl).
Qed.

Lemma mtls_passes cns next r :
  NewMTLSMiddleware true cns next r = None <-> admitted_peer cns r /\ next r = None.
Proof.
  unfold NewMTLSMiddleware, admitted_peer. simpl. destruct (rq_TLS r) as [[|cert rest]|].
  1,3: split; [done|intros [(? & ? & ? & _) _]; done].
  destruct (ct_Verifies cert) eqn:Ev; simpl.
  2: { split; [done|]. intros [(c & l & [= -> ->] & ? & _) _]. congruence. }
  assert (Hcn : (match cns with [] => false | _ => negb (existsb (Contains (ct_CommonName cert)) cns) end) = false <->
    (cns = [] \/ exists cn, cn ∈ cns /\ Contains (ct_CommonName cert) cn = true)).
  { destruct cns as [|cn cns]; [naive_solver|]. rewrite negb_false_iff, existsb_exists. setoid_rewrite <-list_elem_of_In.
    split; [by right|by intros [?|?]]. }
  destruct (match cns with [] => _ | _ => _ end).
  - split; [done|]. intros [(c & l & [= -> ->] & _ & H) _]. by apply Hcn in H.
  - split; [intros ?; split; [|done]; exists cert, rest; split_and!; try done; by apply Hcn|by intros [_ ?]].
Qed.

Lemma wrap_passes guarded apiKey next r :
  wrap_paths guarded apiKey next r = None <->
  (rq_Path r ∈ guarded -> apiKey <> "" -> presented_key r = apiKey) /\ next r = None.
Proof.
  unfold wrap_paths. destruct (existsb (String.eqb (rq_Path r)) guarded) eqn:E.
  - apply existsb_exists in E as (p & Hp%list_elem_of_In & <-%String.eqb_eq).
    rewrite api_key_passes, negb_true_iff, String.eqb_neq. naive_solver.
  - split; [|by intros [_ ?]]. intros Hn. split; [|done]. intros Hp. exfalso.
    assert (existsb (String.eqb (rq_Path r)) guarded = true); [|congruence].
    apply existsb_exists. exists (rq_Path r). split; [by apply list_elem_of_In|by apply String.eqb_refl].
Qed.

Lemma guard_passes guarded apiKey next r :
  (if String.eqb apiKey "" then next else wrap_paths guarded apiKey next) r = None <->
  (rq_Path r ∈ guarded -> apiKey <> "" -> presented_key r = apiKey) /\ next r = None.
Proof. destruct (String.eqb_spec apiKey "") as [->|]; [naive_solver|apply wrap_passes]. Qed.

(** The trusted names are trimmed and none is empty, so that an empty name
    cannot admit everyone. *)
Lemma SplitCNs_nonempty s : Forall (fun cn => cn <> "" /\ exists p, p ∈ Split s ","%char /\ cn = TrimSpace p) (SplitCNs s).
Proof.
  unfold SplitCNs. destruct (String.eqb s ""); [constructor|]. apply Forall_forall. intros cn Hcn.
  apply elem_of_filter_b in Hcn as [Hin Hne]. split; [by apply negb_true_iff, String.eqb_neq in Hne|].
  change (map TrimSpace) with (fmap (M := list) TrimSpace) in Hin. apply list_elem_of_fmap in Hin as (p & -> & Hp). eauto.
Qed.

Lemma contains_inside l1 l2 l3 : contains_bytes (l1 ++ l2 ++ l3) l2 = true.
Proof.
  induction l1 as [|c l1 IH]; simpl.
  - assert (Hs : strip l2 (l2 ++ l3) = Some l3) by by apply strip_Some.
    destruct (l2 ++ l3) eqn:E; simpl; rewrite Hs; done.
  - destruct (strip l2 (c :: l1 ++ l2 ++ l3)); [done|exact IH].
Qed.

(** ** The choice of the transport *)

Section net.
(** [net.SplitHostPort] (the host), [net.ParseIP] and [net.LookupIP] (whether
    the addresses are loopback), and the validation and loading of the
    certificates. *)
Context (split_host : string -> option string) (parse_ip : string -> option bool) (lookup_ip : string -> option (list bool)).
Context (certificates_load : Config -> bool).

Definition IsLoopbackAddr (addr : string) : bool :=
  if String.eqb addr "" then false
  else
    match split_host addr with
    | None => false
    | Some host =>
        if String.eqb host "" || String.eqb host "::" then true
        else
          match parse_ip host with
          | Some loopback => loopback
          | None => match lookup_ip host with None => false | Some ips => forallb id ips end
          end
    end.

(** How a server serves: over TLS with verified client certificates or not. *)
Inductive serving := Plain (h : handler) | TLS (h : handler) | Refuses.

(** [buildServer] and [Start] of the router. *)
Definition router_serving (c : Config) (addr : string) : serving :=
  let guard h := if String.eqb (sc_APIKey c) "" then h else wrap_paths router_guarded (sc_APIKey c) h in
  if sc_DevMode c then Plain (guard mux)
  else if negb (hasAnyMTLSConfig c) && IsLoopbackAddr addr then Plain (guard mux)
  else if negb (hasFullMTLSConfig c) then Refuses
  else if negb (certificates_load c) then Refuses
  else TLS (guard (NewMTLSMiddleware true (SplitCNs (sc_TrustedCNs c)) mux)).

(** [Start] of the worker; [key] is the current API key. *)
Definition worker_serving (c : Config) (addr key : string) : serving :=
  let h := wrap_paths worker_guarded key mux in
  if sc_DevMode c then Plain h
  else if negb (hasAnyMTLSConfig c) && IsLoopbackAddr addr then Plain h
  else if negb (hasFullMTLSConfig c) then Refuses
  else if negb (certificates_load c) then Refuses
  else TLS (NewMTLSMiddleware true (SplitCNs (sc_TrustedCNs c)) h).

Definition served (s : serving) (r : request) : Prop :=
  match s with Plain h | TLS h => h r = None | Refuses => False end.

(** ** Access *)

(** Who is served.  A request reaches the handlers of the router or the
    worker exactly when the server runs, the path is not guarded, no key is
    configured or the request presents the key, and, in production with
    certificates, the peer's certificate verifies and its name contains one of
    the trusted names.  Production without certificates is served, in plain
    HTTP, only on an address taken for loopback. *)
Theorem access_control c addr key r :
  (served (router_serving c addr) r <->
    (sc_DevMode c = true \/
     hasAnyMTLSConfig c = false /\ IsLoopbackAddr addr = true \/
     hasFullMTLSConfig c = true /\ certificates_load c = true /\ admitted_peer (SplitCNs (sc_TrustedCNs c)) r) /\
    (rq_Path r ∈ router_guarded -> sc_APIKey c <> "" -> presented_key r = sc_APIKey c)) /\
  (served (worker_serving c addr key) r <->
    (sc_DevMode c = true \/
     hasAnyMTLSConfig c = false /\ IsLoopbackAddr addr = true \/
     hasFullMTLSConfig c = true /\ certificates_load c = true /\ admitted_peer (SplitCNs (sc_TrustedCNs c)) r) /\
    (rq_Path r ∈ worker_guarded -> key <> "" -> presented_key r = key)).
Proof.
  assert (Hfull : hasAnyMTLSConfig c = false -> hasFullMTLSConfig c = false).
  { unfold hasAnyMTLSConfig, hasFullMTLSConfig. repeat destruct (String.eqb _ _); done. }
  unfold served, router_serving, worker_serving.
  destruct (sc_DevMode c); [rewrite guard_passes, wrap_passes; unfold mux; naive_solver|].
  destruct (hasAnyMTLSConfig c) eqn:Ea; simpl.
  - destruct (hasFullMTLSConfig c); simpl; [|naive_solver]. destruct (certificates_load c); simpl; [|naive_solver].
    rewrite guard_passes, mtls_passes, mtls_passes, wrap_passes. unfold mux. naive_solver.
  - rewrite (Hfull eq_refl). destruct (IsLoopbackAddr addr); simpl; [|naive_solver].
    rewrite guard_passes, wrap_passes. unfold mux. naive_solver.
Qed.

(** Two faults of the access checks.  A trusted name is looked for anywhere
    in the common name, so a certificate whose name merely contains it is
    admitted.  And an address without a host, which binds every interface, is
    taken for loopback: production without certificates serves it in plain HTTP
    to anyone. *)
Theorem trusted_name_is_substring cn pre suf next r rest c port key :
  rq_TLS r = Some ({| ct_CommonName := of_bytes (pre ++ to_bytes cn ++ suf); ct_Verifies := true |} :: rest) ->
  next r = None ->
  sc_DevMode c = false -> hasAnyMTLSConfig c = false -> split_host (":" +:+ port) = Some "" ->
  NewMTLSMiddleware true [cn] next r = None /\
  worker_serving c (":" +:+ port) key = Plain (wrap_paths worker_guarded key mux).
Proof.
  intros Ht Hn Hd Ha Hs. split.
  - apply mtls_passes. split; [|done]. eexists _, rest. split_and!; [done|done|]. right. exists cn. split; [set_solver|].
    unfold Contains. simpl. rewrite String.list_ascii_of_string_of_list_ascii. apply contains_inside.
  - unfold worker_serving, IsLoopbackAddr. by rewrite Hd, Ha, Hs.
Qed.
End net.

(** ** The connection counter ([ConnState] of the router) *)

Inductive conn_state := StateNew | StateActive | StateIdle | StateHijacked | StateClosed.

Definition ConnState (st : conn_state) (connections : Z) : Z :=
  match st with StateNew => wrap64 (connections + 1) | StateClosed => wrap64 (connections - 1) | _ => connections end.

(** A connection's states, as [net/http] reports them: a hijacked connection is
    never reported as closed. *)
Definition http_life (requests : nat) : list conn_state :=
  StateNew :: concat (replicate requests [StateActive; StateIdle]) ++ [StateClosed].
Definition websocket_life : list conn_state := [StateNew; StateActive; StateHijacked].

Definition count (life : list conn_state) (connections : Z) : Z := foldl (fun n st => ConnState st n) connections life.

(** The connection counter forgets plain connections when they close, but
    never a WebSocket connection: it is off by the number of workers that ever
    connected. *)
Theorem hijacked_connections_stay n requests k :
  0 <= n -> n + Z.of_nat k < max_int64 ->
  count (http_life requests) n = n /\ count (concat (replicate k websocket_life)) n = n + Z.of_nat k.
Proof.
  intros Hn Hk. unfold count. split.
  - unfold http_life. cbn [foldl ConnState]. rewrite foldl_app.
    assert (H : forall r x, foldl (fun n st => ConnState st n) x (concat (replicate r [StateActive; StateIdle])) = x).
    { intros r x. induction r as [|r IH]; [done|]. exact IH. }
    rewrite H. cbn [foldl ConnState]. unfold max_int64 in Hk. rewrite (wrap64_id (n + 1)) by (unfold in_int64, min_int64, max_int64; lia).
    rewrite wrap64_id; [lia|unfold in_int64, min_int64, max_int64; lia].
  - revert n Hn Hk. induction k as [|k IH]; intros n Hn Hk; simpl; [lia|].
    rewrite wrap64_id by (unfold in_int64, min_int64, max_int64 in *; lia). rewrite IH; lia.
Qed.

(** ** Concrete instances *)

Definition ex_peer (cn : string) : request :=
  {| rq_Path := "/v1/workers"; rq_XAPIKey := ""; rq_Authorization := "";
     rq_TLS := Some [{| ct_CommonName := cn; ct_Verifies := true |}] |}.

Definition ex_config : Config :=
  {| sc_DevMode := false; sc_MTLSCert := ""; sc_MTLSKey := ""; sc_CertDir := ""; sc_APIKey := ""; sc_TrustedCNs := "" |}.

Definition ex_split (addr : string) : option string := fst <$> Cut addr ":"%char.

Lemma trusted_name_is_substring_witness :
  NewMTLSMiddleware true ["router"] mux (ex_peer "not-a-router-at-all") = None /\
  worker_serving ex_split (fun _ => None) (fun _ => None) (fun _ => true) ex_config ":8081" "" =
    Plain (wrap_paths worker_guarded "" mux).
Proof.
  apply (trusted_name_is_substring ex_split (fun _ => None) (fun _ => None) (fun _ => true) "router"
    (to_bytes "not-a-") (to_bytes "-at-all") mux (ex_peer "not-a-router-at-all") [] ex_config "8081" ""); vm_compute; reflexivity.
Defined.

Lemma hijacked_connections_stay_witness : count (http_life 3) 5 = 5 /\ count (concat (replicate 2 websocket_life)) 5 = 7.
Proof. apply (hijacked_connections_stay 5 3 2); [discriminate|reflexivity]. Defined.
