(* ===== verification/Flags.v ===== *)
(** * Flags: command lines as Go's [flag] package reads them

    [Parse] of a [FlagSet] with the kinds of flags that the programs register:
    a flag takes the argument after it as its value, but for a boolean flag,
    which takes a value only after an equal sign.  The conversions of numbers and
    durations are arguments. *)

From S2P Require Import Prelude GoStrings.
From Stdlib Require Import Ascii.

#[local] Open Scope list_scope.

(** ** Parsing *)

Inductive kind := KBool | KString | KInt | KFloat | KDuration.

(** What an argument is. *)
Inductive argument :=
| NotFlag
| Terminator
| BadSyntax
| Flag (name : string) (value : option string).

Definition classify (s : string) : argument :=
  match to_bytes s with
  | "-"%char :: c :: rest =>
      let name := if Ascii.eqb c "-"%char then rest else c :: rest in
      match name with
      | [] => Terminator
      | n :: _ =>
          if Ascii.eqb n "-"%char || Ascii.eqb n "="%char then BadSyntax
          else match Cut (of_bytes name) "="%char with
               | Some (name, value) => Flag name (Some value)
               | None => Flag (of_bytes name) None
               end
      end
  | _ => NotFlag
  end.

(** [strconv.ParseBool]. *)
Definition ParseBool (s : string) : option bool :=
  if existsb (String.eqb s) ["1"; "t"; "T"; "true"; "TRUE"; "True"] then Some true
  else if existsb (String.eqb s) ["0"; "f"; "F"; "false"; "FALSE"; "False"] then Some false
  else None.

Definition FormatBool (b : bool) : string := if b then "true" else "false".

Section parse.
(** The flags that are registered, and the values that a kind's conversion
    accepts. *)
Context (formal : string -> option kind) (valid : kind -> string -> bool).

Definition accepts (k : kind) (v : string) : bool :=
  match k with KBool => if ParseBool v then true else false | KString => true | _ => valid k v end.

(** The assignments in their order and the arguments that are left; [None] for an
    error. *)
Fixpoint Parse (args : list string) : option (list (string * string) * list string) :=
  let set name k v (r : option (list (string * string) * list string)) :=
    if accepts k v then '(l, rest) ← r; Some ((name, v) :: l, rest) else None in
  match args with
  | [] => Some ([], [])
  | s :: args' =>
      match classify s with
      | NotFlag => Some ([], args)
      | Terminator => Some ([], args')
      | BadSyntax => None
      | Flag name value =>
          match formal name, value with
          | None, _ => None
          | Some k, Some v => set name k v (Parse args')
          | Some KBool, None => set name KBool "true" (Parse args')
          | Some k, None => match args' with [] => None | v :: args' => set name k v (Parse args') end
          end
      end
  end.

(** The value of a flag: that of its last assignment. *)
Fixpoint assigned (name : string) (l : list (string * string)) : option string :=
  match l with
  | [] => None
  | (n, v) :: l => match assigned name l with Some v => Some v | None => if String.eqb n name then Some v else None end
  end.

Definition flag_string (l : list (string * string)) (name def : string) : string := default def (assigned name l).

Definition flag_bool (l : list (string * string)) (name : string) (def : bool) : bool :=
  default def (v ← assigned name l; ParseBool v).

Definition flag_value {A} (convert : string -> option A) (l : list (string * string)) (name : string) (def : A) : A :=
  default def (v ← assigned name l; convert v).

(** ** Argument lists that a program builds *)

Lemma Parse_pair s name k v args :
  classify s = Flag name None -> formal name = Some k -> k <> KBool -> accepts k v = true ->
  Parse (s :: v :: args) = '(l, rest) ← Parse args; Some ((name, v) :: l, rest).
Proof using. intros Hs Hf Hk Ha. cbn [Parse]. rewrite Hs, Hf, Ha. by destruct k. Qed.

Lemma Parse_switch s name args :
  classify s = Flag name None -> formal name = Some KBool ->
  Parse (s :: args) = '(l, rest) ← Parse args; Some ((name, "true") :: l, rest).
Proof using. intros Hs Hf. cbn [Parse]. by rewrite Hs, Hf. Qed.

(** An argument list that was parsed to the end, and what it assigns. *)
Definition assigns (args : list string) (l : list (string * string)) : Prop :=
  forall args' l' rest, Parse args' = Some (l', rest) -> Parse (args ++ args') = Some (l ++ l', rest).

Lemma assigns_nil : assigns [] [].
Proof using. by intros args' l' rest. Qed.

Lemma assigns_app a1 a2 l1 l2 : assigns a1 l1 -> assigns a2 l2 -> assigns (a1 ++ a2) (l1 ++ l2).
Proof using. intros H1 H2 args' l' rest H. rewrite <-!(assoc_L (++)). by apply H1, H2. Qed.

Lemma assigns_pair s name k v :
  classify s = Flag name None -> formal name = Some k -> k <> KBool -> accepts k v = true -> assigns [s; v] [(name, v)].
Proof using. intros Hs Hf Hk Ha args' l' rest H. simpl app. by rewrite (Parse_pair s name k), H. Qed.

Lemma assigns_switch s name : classify s = Flag name None -> formal name = Some KBool -> assigns [s] [(name, "true")].
Proof using. intros Hs Hf args' l' rest H. simpl app. by rewrite (Parse_switch s name), H. Qed.

Lemma assigns_if (b : bool) a l : assigns a l -> assigns (if b then a else []) (if b then l else []).
Proof using. destruct b; [done|]. intros _. apply assigns_nil. Qed.

Lemma assigns_Parse args l : assigns args l -> Parse args = Some (l, []).
Proof using. intros H. specialize (H [] [] [] eq_refl). by rewrite !app_nil_r in H. Qed.

Lemma assigned_app name l l' : assigned name (l ++ l') = match assigned name l' with Some v => Some v | None => assigned name l end.
Proof using.
  induction l as [|[n v] l IH]; simpl; [by destruct (assigned name l')|]. rewrite IH. by destruct (assigned name l').
Qed.

Lemma assigned_if name (b : bool) n v :
  assigned name (if b then [(n, v)] else []) = if b && String.eqb n name then Some v else None.
Proof using. destruct b; simpl; [by destruct (String.eqb n name)|done]. Qed.
End parse.

(** ** Tables of optional assignments *)

(** A flag's name, whether it is assigned, and its value. *)
Definition opt_pair (b : bool) (n v : string) : list (string * string) := if b then [(n, v)] else [].

Fixpoint pairs_of (table : list (string * (bool * string))) : list (string * string) :=
  match table with [] => [] | (n, (b, v)) :: table => opt_pair b n v ++ pairs_of table end.

Fixpoint entry (name : string) (table : list (string * (bool * string))) : option string :=
  match table with
  | [] => None
  | (n, (b, v)) :: table => if String.eqb n name then if b then Some v else None else entry name table
  end.

Lemma assigned_pairs_none name table : ~ name ∈ table.*1 -> assigned name (pairs_of table) = None.
Proof.
  induction table as [|[n [b v]] table IH]; [done|]. simpl. rewrite not_elem_of_cons. intros [Hn Ht].
  rewrite assigned_app, IH by done. unfold opt_pair. rewrite assigned_if. destruct (String.eqb_spec n name); [congruence|by destruct b].
Qed.

Lemma assigned_pairs name table : NoDup table.*1 -> assigned name (pairs_of table) = entry name table.
Proof.
  induction table as [|[n [b v]] table IH]; [done|]. simpl. intros [Hn Ht]%NoDup_cons. rewrite assigned_app.
  unfold opt_pair. rewrite assigned_if. destruct (String.eqb_spec n name) as [->|Hne].
  - rewrite assigned_pairs_none by done. by destruct b.
  - rewrite IH by done. rewrite andb_false_r. by destruct (entry name table).
Qed.

(** A boolean flag followed by a value is true, and the value ends the flags. *)
Example ex_bool_flag :
  Parse (fun _ => Some KBool) (fun _ _ => true) ["--checks"; "false"; "--more"] = Some ([("checks", "true")], ["false"; "--more"]).
Proof. reflexivity. Qed.

Example ex_parse :
  Parse (fun n => if String.eqb n "v" then Some KBool else Some KString) (fun _ _ => true)
    ["-v=0"; "--name"; "-x"; "--port=80=81"; "--"; "--rest"] =
  Some ([("v", "0"); ("name", "-x"); ("port", "80=81")], ["--rest"]).
Proof. reflexivity. Qed.
