(* ===== verification/WorkerRun.v ===== *)
(** * WorkerRun: the worker process ([cmd/worker/main.go], [run.go], [register.go], [network.go], [host.go])

    From the command line to a running worker: the configuration, the choice of
    the way to register, the registration loops and their restart by a reload.
    The loops, the reloads and the shutdown interleave in [running].  The last
    part joins a worker's registration to the router that receives it. *)

From stdpp Require Import pretty.
From S2P Require Import Prelude GoFloat GoStrings Errors Http Protocol Registry Selection Dispatch Meta Security.
From S2P Require Import Breaker Estimator InferenceStats Backend WorkerServer WorkerClient HttpClient Flags.
From Stdlib Require Import Ascii.

#[local] Open Scope list_scope.

(** ** Addresses and lists ([routeraddr.go], [host.go], [network.go]) *)

(** [strings.TrimRight] for a cutset of one byte. *)
Definition TrimRight (s : string) (c : ascii) : string :=
  of_bytes (rev (drop_while (fun x => Ascii.eqb x c) (rev (to_bytes s)))).

Definition defaultRouterAddr : string := ":8080".

Definition Normalize (addr : string) : string :=
  let a := TrimSpace addr in
  let a := if String.eqb a "" then defaultRouterAddr else a in
  if Contains a "://" then TrimRight a "/"%char
  else
    let a := if HasPrefix a ":" then "127.0.0.1" +:+ a else a in
    "http://" +:+ TrimRight a "/"%char.

Inductive Mode := ModeDev | ModeProd.

Definition ResolveMode (devMode prodMode : bool) : Mode := if prodMode then ModeProd else ModeDev.
Definition IsDev (m : Mode) : bool := match m with ModeDev => true | ModeProd => false end.
Definition IsProd (m : Mode) : bool := match m with ModeDev => false | ModeProd => true end.
Definition Mode_String (m : Mode) : string := match m with ModeDev => "dev" | ModeProd => "prod" end.

Definition splitModelList (s : string) : list string :=
  if String.eqb s "" then []
  else List.filter (fun p => negb (String.eqb p "")) (map TrimSpace (Split s ","%char)).

(** What the host reports: its name and the IP addresses of its interfaces,
    [None] for a failure. *)
Record host := { ht_Hostname : option string; ht_addrs : option (list ip) }.

Definition Hostname (h : host) : string := default "infermesh-worker" (ht_Hostname h).

Definition LocalIP (h : host) : string :=
  default "127.0.0.1" (addrs ← ht_addrs h; head (omap (fun i => if ip_loopback i then None else ip_v4 i) addrs)).

(** [filepath.Base] on a system with slashes. *)
Definition Base (path : string) : string :=
  if String.eqb path "" then "."
  else
    let p := TrimRight path "/"%char in
    if String.eqb p "" then "/" else default p (last (Split p "/"%char)).

Section network.
(** [net.SplitHostPort], [strconv.Atoi], [net.ParseIP], [net.JoinHostPort], and
    the hostname of a URL that parses. *)
Context (split_host_port : string -> option (string * string)) (atoi : string -> option Z) (parse_ip : string -> option ip).
Context (join_host_port : string -> string -> string) (url_host : string -> option string).

Definition isLoopbackHost (host : string) : bool :=
  existsb (String.eqb host) [""; "0.0.0.0"; "localhost"; "127.0.0.1"; "::1"] ||
  match parse_ip host with Some ip => ip_loopback ip | None => false end.

Definition RouterBaseFromListenAddr (addr : string) : option string :=
  '(host, port) ← split_host_port addr;
  p ← atoi port;
  if (p <? 1) || (65535 <? p) then None
  else
    let host := if isLoopbackHost host then "127.0.0.1" else host in
    Some (Normalize (join_host_port host port)).

Definition isLoopback (host : string) : bool :=
  String.eqb host "localhost" || match parse_ip host with Some ip => ip_loopback ip | None => false end.

Definition extractHost (rawURL : string) : option string :=
  host ← url_host rawURL; if String.eqb host "" then None else Some host.
End network.

(** [ValidateCombinedFlags]; [true] for no error. *)
Definition ValidateCombinedFlags (prodMode workerMode : bool) (routerPort workerPort : Z) (backend : string) : bool :=
  if prodMode && workerMode then false
  else if negb workerMode then true
  else negb (routerPort =? workerPort) && negb (backendPort backend =? workerPort).

(** [dial] is the WebSocket handshake within two seconds. *)
Definition relayReachable (parse : string -> option URL) (show : URL -> string) (dial : string -> bool) (relayURL : string) : bool :=
  match normalizeConnectURL parse show relayURL with None => false | Some url => dial url end.

(** ** Configuration *)

Record RunConfig := {
  rc_ModelPath : string;
  rc_Backend : string;
  rc_BackendURL : string;
  rc_Port : Z;
  rc_DevMode : bool;
  rc_MTLSCert : string;
  rc_MTLSKey : string;
  rc_CertDir : string;
  rc_TrustedCNs : string;
  rc_RouterBase : string;
  rc_ProdRouter : string;
  rc_RelayURL : string;
  rc_EnableHealthChecks : bool;
  rc_MaxTokens : Z;
  rc_ModelRefreshInterval : Duration;
  rc_HealthCheckInterval : Duration;
  rc_InferenceWindow : Duration;
  rc_AllowedModels : string;
  rc_ExcludedModels : string;
  rc_APIKey : string;
  rc_RelayAPIKey : string;
  rc_BackendTimeout : Duration;
  rc_Threads : Z;
}.

Record WorkerFlags := {
  wf_Capabilities : bool;
  wf_DevMode : bool;
  wf_ProdMode : bool;
  wf_MTLSCert : string;
  wf_MTLSKey : string;
  wf_Port : Z;
  wf_CertDir : string;
  wf_ModelPath : string;
  wf_Backend : string;
  wf_BackendURL : string;
  wf_Router : string;
  wf_ProdRouter : string;
  wf_RelayURL : string;
  wf_TrustedCNs : string;
  wf_EnableHealthChecks : bool;
  wf_AllowedModels : string;
  wf_ExcludedModels : string;
  wf_ModelRefreshInterval : Duration;
  wf_HealthCheckInterval : Duration;
  wf_InferenceWindow : Duration;
  wf_APIKey : string;
  wf_BackendTimeout : Duration;
  wf_MaxTokens : Z;
  wf_Threads : Z;
  wf_RelayAPIKey : string;
}.

(** The flags that [registerWorkerFlags] registers. *)
Definition worker_formal (name : string) : option kind :=
  if existsb (String.eqb name) ["capabilities"; "dev-mode"; "prod-mode"; "enable-health-checks"] then Some KBool
  else if existsb (String.eqb name) ["port"; "max-tokens"; "threads"] then Some KInt
  else if existsb (String.eqb name) ["model-refresh-interval"; "health-check-interval"; "inference-window"; "backend-timeout"]
  then Some KDuration
  else if existsb (String.eqb name)
    ["mtls-cert"; "mtls-key"; "cert-dir"; "model-path"; "backend"; "backend-url"; "router"; "prod-router"; "relay-url";
     "trusted-cn"; "allowed-models"; "excluded-models"; "api-key"; "relay-api-key"] then Some KString
  else None.

(** The conversions of numbers and durations are arguments. *)
Definition worker_flags (int duration : string -> option Z) (l : list (string * string)) : WorkerFlags :=
  let str := flag_string l in
  {| wf_Capabilities := flag_bool l "capabilities" false; wf_DevMode := flag_bool l "dev-mode" false;
     wf_ProdMode := flag_bool l "prod-mode" false; wf_MTLSCert := str "mtls-cert" ""; wf_MTLSKey := str "mtls-key" "";
     wf_Port := flag_value int l "port" 8081; wf_CertDir := str "cert-dir" ""; wf_ModelPath := str "model-path" "";
     wf_Backend := str "backend" "llama-cpp"; wf_BackendURL := str "backend-url" ""; wf_Router := str "router" "";
     wf_ProdRouter := str "prod-router" ""; wf_RelayURL := str "relay-url" ""; wf_TrustedCNs := str "trusted-cn" "";
     wf_EnableHealthChecks := flag_bool l "enable-health-checks" true; wf_AllowedModels := str "allowed-models" "";
     wf_ExcludedModels := str "excluded-models" "";
     wf_ModelRefreshInterval := flag_value duration l "model-refresh-interval" 0;
     wf_HealthCheckInterval := flag_value duration l "health-check-interval" 0;
     wf_InferenceWindow := flag_value duration l "inference-window" (360 * minute); wf_APIKey := str "api-key" "";
     wf_BackendTimeout := flag_value duration l "backend-timeout" (120 * second);
     wf_MaxTokens := flag_value int l "max-tokens" 4096; wf_Threads := flag_value int l "threads" 4;
     wf_RelayAPIKey := str "relay-api-key" "" |}.

Definition converts {A} (convert : string -> option A) (v : string) : bool := if convert v then true else false.

(** The kinds of number that a program's flags have. *)
Definition valid_flag (int duration : string -> option Z) (k : kind) (v : string) : bool :=
  match k with KInt => converts int v | KDuration => converts duration v | _ => true end.

Definition parseWorkerFlags (int duration : string -> option Z) (args : list string) : option WorkerFlags :=
  '(l, _) ← Parse worker_formal (valid_flag int duration) args; Some (worker_flags int duration l).

(** [os.Getenv]: the empty string for a variable that is not set. *)
Definition environment : Type := string -> string.

Definition or_else (a b : string) : string := if String.eqb a "" then b else a.

(** What [main] makes of the flags. *)
Definition run_config (env : environment) (f : WorkerFlags) : RunConfig :=
  let mode := ResolveMode (wf_DevMode f) (wf_ProdMode f) in
  let router := if IsDev mode && String.eqb (wf_Router f) ""
                then or_else (env "INFERMESH_ROUTER_URL") "http://127.0.0.1:8080" else wf_Router f in
  {| rc_ModelPath := wf_ModelPath f; rc_Backend := wf_Backend f; rc_BackendURL := wf_BackendURL f; rc_Port := wf_Port f;
     rc_DevMode := IsDev mode; rc_MTLSCert := wf_MTLSCert f; rc_MTLSKey := wf_MTLSKey f; rc_CertDir := wf_CertDir f;
     rc_TrustedCNs := wf_TrustedCNs f; rc_RouterBase := router; rc_ProdRouter := wf_ProdRouter f;
     rc_RelayURL := or_else (wf_RelayURL f) (env "INFERMESH_RELAY_URL"); rc_EnableHealthChecks := wf_EnableHealthChecks f;
     rc_MaxTokens := wf_MaxTokens f; rc_ModelRefreshInterval := wf_ModelRefreshInterval f;
     rc_HealthCheckInterval := wf_HealthCheckInterval f; rc_InferenceWindow := wf_InferenceWindow f;
     rc_AllowedModels := wf_AllowedModels f; rc_ExcludedModels := wf_ExcludedModels f; rc_APIKey := wf_APIKey f;
     rc_RelayAPIKey := or_else (wf_RelayAPIKey f) (env "INFERMESH_RELAY_API_KEY"); rc_BackendTimeout := wf_BackendTimeout f;
     rc_Threads := wf_Threads f |}.

Record ReloadableConfig := {
  rl_RouterBase : string;
  rl_RelayURL : string;
  rl_RelayAPIKey : string;
  rl_APIKey : string;
  rl_AllowedModels : string;
  rl_ExcludedModels : string;
}.

Definition zero_ReloadableConfig : ReloadableConfig :=
  {| rl_RouterBase := ""; rl_RelayURL := ""; rl_RelayAPIKey := ""; rl_APIKey := ""; rl_AllowedModels := ""; rl_ExcludedModels := "" |}.

Definition newReloadableConfig (cfg : RunConfig) : ReloadableConfig :=
  {| rl_RouterBase := rc_RouterBase cfg; rl_RelayURL := rc_RelayURL cfg; rl_RelayAPIKey := rc_RelayAPIKey cfg;
     rl_APIKey := rc_APIKey cfg; rl_AllowedModels := rc_AllowedModels cfg; rl_ExcludedModels := rc_ExcludedModels cfg |}.

(** The configuration a reload validates: the mode and four of its fields. *)
Definition reload_RunConfig (devMode : bool) (c : ReloadableConfig) : RunConfig :=
  {| rc_ModelPath := ""; rc_Backend := ""; rc_BackendURL := ""; rc_Port := 0; rc_DevMode := devMode; rc_MTLSCert := "";
     rc_MTLSKey := ""; rc_CertDir := ""; rc_TrustedCNs := ""; rc_RouterBase := rl_RouterBase c; rc_ProdRouter := "";
     rc_RelayURL := rl_RelayURL c; rc_EnableHealthChecks := false; rc_MaxTokens := 0; rc_ModelRefreshInterval := 0;
     rc_HealthCheckInterval := 0; rc_InferenceWindow := 0; rc_AllowedModels := ""; rc_ExcludedModels := "";
     rc_APIKey := rl_APIKey c; rc_RelayAPIKey := rl_RelayAPIKey c; rc_BackendTimeout := 0; rc_Threads := 0 |}.

Definition ValidateRunConfig (parse_ip : string -> option ip) (url_host : string -> option string) (cfg : RunConfig) : option goerr :=
  if negb (rc_DevMode cfg) && negb (String.eqb (rc_RelayURL cfg) "")
  then Some (ErrorsNew "relay URL is only supported in dev mode")
  else if negb (rc_DevMode cfg) && negb (String.eqb (rc_RouterBase cfg) "") &&
          match extractHost url_host (rc_RouterBase cfg) with Some host => negb (isLoopback parse_ip host) | None => false end
  then Some (ErrorsNew "prod mode router base must be loopback")
  else None.

Definition effectiveReloadConfig (env : environment) (current : ReloadableConfig) : ReloadableConfig :=
  {| rl_RouterBase := or_else (env "INFERMESH_ROUTER_URL") (rl_RouterBase current);
     rl_RelayURL := or_else (env "INFERMESH_RELAY_URL") (rl_RelayURL current);
     rl_RelayAPIKey := or_else (env "INFERMESH_RELAY_API_KEY") (rl_RelayAPIKey current);
     rl_APIKey := or_else (env "INFERMESH_API_KEY") (rl_APIKey current);
     rl_AllowedModels := or_else (env "INFERMESH_ALLOWED_MODELS") (rl_AllowedModels current);
     rl_ExcludedModels := or_else (env "INFERMESH_EXCLUDED_MODELS") (rl_ExcludedModels current) |}.

(** ** The running worker *)

(** The target of a registration loop. *)
Inductive route :=
| ByHTTP (routerBase : string)
| ByRelay (relayURL : string)
| ByMTLS (router cert key caCert apiKey : string).

(** A registration loop that was started: its configuration is the one its
    closure captured. *)
Record registration := mkRegistration {
  rg_route : route;
  rg_config : ReloadableConfig;
  rg_cancelled : bool;
}.

Section worker.
Context `{B : WorkerBackend}.

(** [h_loops] are the loops in the order they were started, [h_regCancel] the one
    that the cancel function stops, [h_stopped] that the root context is
    cancelled; [h_announcer] that of mDNS is running. *)
Record Handle := mkHandle {
  h_announcer : option bool;
  h_stopped : bool;
  h_loops : list registration;
  h_regCancel : option nat;
  h_regConfig : ReloadableConfig;
  h_regInfoBase : WorkerInfo;
  h_regDevMode : bool;
  h_regCaps : Capabilities;
  h_srv : Server;
  h_regUseMTLS : bool;
  h_regProdRouter : string;
  h_regMTLSCert : string;
  h_regMTLSKey : string;
  h_regCertDir : string;
}.

Definition set_loops (l : list registration) (cancel : option nat) (c : ReloadableConfig) (h : Handle) : Handle :=
  mkHandle (h_announcer h) (h_stopped h) l cancel c (h_regInfoBase h) (h_regDevMode h) (h_regCaps h) (h_srv h)
    (h_regUseMTLS h) (h_regProdRouter h) (h_regMTLSCert h) (h_regMTLSKey h) (h_regCertDir h).
Definition set_srv (s : Server) (h : Handle) : Handle :=
  mkHandle (h_announcer h) (h_stopped h) (h_loops h) (h_regCancel h) (h_regConfig h) (h_regInfoBase h) (h_regDevMode h)
    (h_regCaps h) s (h_regUseMTLS h) (h_regProdRouter h) (h_regMTLSCert h) (h_regMTLSKey h) (h_regCertDir h).
Definition set_base (info : WorkerInfo) (h : Handle) : Handle :=
  mkHandle (h_announcer h) (h_stopped h) (h_loops h) (h_regCancel h) (h_regConfig h) info (h_regDevMode h)
    (h_regCaps h) (h_srv h) (h_regUseMTLS h) (h_regProdRouter h) (h_regMTLSCert h) (h_regMTLSKey h) (h_regCertDir h).
Definition set_announcer (running : bool) (h : Handle) : Handle :=
  mkHandle (Some running) (h_stopped h) (h_loops h) (h_regCancel h) (h_regConfig h) (h_regInfoBase h) (h_regDevMode h)
    (h_regCaps h) (h_srv h) (h_regUseMTLS h) (h_regProdRouter h) (h_regMTLSCert h) (h_regMTLSKey h) (h_regCertDir h).

(** The announcer is withdrawn and the root context cancelled. *)
Definition Stop (h : Handle) : Handle :=
  mkHandle ((fun _ => false) <$> h_announcer h) true (h_loops h) (h_regCancel h) (h_regConfig h) (h_regInfoBase h)
    (h_regDevMode h) (h_regCaps h) (h_srv h) (h_regUseMTLS h) (h_regProdRouter h) (h_regMTLSCert h) (h_regMTLSKey h)
    (h_regCertDir h).

Definition cancel_loop (r : registration) : registration := mkRegistration (rg_route r) (rg_config r) true.

(** [if h.regCancel != nil { h.regCancel(); h.regCancel = nil }; h.regConfig = regConfig]. *)
Definition cancel_registration (c : ReloadableConfig) (h : Handle) : Handle :=
  set_loops (match h_regCancel h with Some i => alter cancel_loop i (h_loops h) | None => h_loops h end) None c h.

(** The new context, its cancel function, and the goroutine. *)
Definition start_registration (r : route) (c : ReloadableConfig) (h : Handle) : Handle :=
  set_loops (h_loops h ++ [mkRegistration r c false]) (Some (length (h_loops h))) (h_regConfig h) h.

Definition startHTTPRegistration (c : ReloadableConfig) (h : Handle) : Handle :=
  start_registration (ByHTTP (rl_RouterBase c)) c h.

Definition launchRegistration (reachable : string -> bool) (c : ReloadableConfig) (h : Handle) : Handle :=
  let h := cancel_registration c h in
  if negb (String.eqb (rl_RelayURL c) "") then
    if negb (String.eqb (rl_RouterBase c) "") && negb (reachable (rl_RelayURL c)) then startHTTPRegistration c h
    else start_registration (ByRelay (rl_RelayURL c)) c h
  else if negb (String.eqb (rl_RouterBase c) "") then startHTTPRegistration c h
  else h.

(** [join] is [filepath.Join]. *)
Definition launchMTLSRegistration (join : string -> string -> string) (c : ReloadableConfig) (h : Handle) : Handle :=
  let h := cancel_registration c h in
  start_registration
    (ByMTLS (h_regProdRouter h) (h_regMTLSCert h) (h_regMTLSKey h) (join (h_regCertDir h) "ca.crt") (rl_RelayAPIKey c)) c h.

Definition with_APIKey (key : string) (w : WorkerInfo) : WorkerInfo :=
  {| wi_ID := wi_ID w; wi_Hostname := wi_Hostname w; wi_IP := wi_IP w; wi_Port := wi_Port w;
     wi_Capabilities := wi_Capabilities w; wi_Status := wi_Status w; wi_Version := wi_Version w;
     wi_Transport := wi_Transport w; wi_APIKey := key; wi_LastSeen := wi_LastSeen w |}.

(** The models of a copy of the server's list. *)
Definition announced_models (devMode : bool) (models : list ModelInfo) : list ModelInfo :=
  if devMode then map (fun m => if negb (String.eqb (mi_Name m) "") then with_Loaded true m else m) models else models.

Definition buildRegistrationInfo (h : Handle) (c : ReloadableConfig) : WorkerInfo :=
  let models := announced_models (h_regDevMode h) (sv_models (h_srv h)) in
  let info := with_Capabilities (ApplyModelFilters (h_srv h) (with_Models models (h_regCaps h))) (h_regInfoBase h) in
  let info := with_APIKey (rl_RelayAPIKey c) info in
  if negb (String.eqb (rl_RelayURL c) "") then with_Transport TransportWS info else info.

(** ** Reload *)

Section reload.
Context (parse_ip : string -> option ip) (url_host : string -> option string) (join : string -> string -> string).

(** What [ReloadConfig] does before it looks at the registration: the new
    configuration, and the server's filters and key. *)
Definition reload_server (env : environment) (h : Handle) : (ReloadableConfig * Handle) + goerr :=
  let newConfig := effectiveReloadConfig env (h_regConfig h) in
  match ValidateRunConfig parse_ip url_host (reload_RunConfig (h_regDevMode h) newConfig) with
  | Some err => inr err
  | None =>
      let srv := SetModelFilters (splitModelList (rl_AllowedModels newConfig)) (splitModelList (rl_ExcludedModels newConfig)) (h_srv h) in
      inl (newConfig, set_srv (SetAPIKey (rl_APIKey newConfig) srv) h)
  end.

(** And the restart of the registration, under [regMu]. *)
Definition reload_registration (reachable : string -> bool) (c : ReloadableConfig) (h : Handle) : Handle :=
  if h_regUseMTLS h then launchMTLSRegistration join c h else launchRegistration reachable c h.

Definition ReloadConfig (env : environment) (reachable : string -> bool) (h : Handle) : Handle * option goerr :=
  match reload_server env h with
  | inr err => (h, Some err)
  | inl (c, h) => (reload_registration reachable c h, None)
  end.
End reload.

(** ** Start-up *)

Section start.
Context (join : string -> string -> string).
Context (read_cap : string -> option Z) (range : list (string * ModelInfo) -> list (string * ModelInfo)).

(** The server once the backend (if it could be made) has been asked for its
    models. *)
Definition start_server (cfg : RunConfig) (backend : option wb_state) : Server :=
  let s := SetInferenceWindow (rc_InferenceWindow cfg) (NewServer (rc_EnableHealthChecks cfg) (rc_APIKey cfg)) in
  let s :=
    match backend with
    | None => s
    | Some b =>
        let s := SetBackend read_cap range b s in
        match wb_ListModels b with
        | inl [] => s
        | inl models => SetModels models s
        | inr _ =>
            if negb (String.eqb (rc_ModelPath cfg) "") then
              SetModels [{| mi_Name := Base (rc_ModelPath cfg); mi_Size := 0; mi_Quantization := ""; mi_MaxTokens := 0;
                            mi_Backend := rc_Backend cfg; mi_Loaded := rc_DevMode cfg |}] s
            else s
        end
    end in
  SetModelFilters (splitModelList (rc_AllowedModels cfg)) (splitModelList (rc_ExcludedModels cfg)) s.

Definition with_filters (allowed excluded : list string) (c : Capabilities) : Capabilities :=
  {| cap_GPU := cap_GPU c; cap_Models := cap_Models c; cap_Engines := cap_Engines c; cap_VRAM := cap_VRAM c;
     cap_System := cap_System c; cap_AllowedModels := allowed; cap_ExcludedModels := excluded;
     cap_ConcurrencyCap := cap_ConcurrencyCap c; cap_Threads := cap_Threads c; cap_InferenceStats := cap_InferenceStats c |}.

Definition base_info (cfg : RunConfig) (ht : host) (caps : Capabilities) : WorkerInfo :=
  {| wi_ID := "worker-" +:+ Hostname ht +:+ "-" +:+ pretty (rc_Port cfg); wi_Hostname := Hostname ht; wi_IP := LocalIP ht;
     wi_Port := rc_Port cfg;
     wi_Capabilities := with_filters (splitModelList (rc_AllowedModels cfg)) (splitModelList (rc_ExcludedModels cfg)) caps;
     wi_Status := StatusAvailable; wi_Version := "v1"; wi_Transport := ""; wi_APIKey := rc_RelayAPIKey cfg;
     wi_LastSeen := zero_time |}.

(** The handle before the way to register is chosen. *)
Definition new_handle (cfg : RunConfig) (ht : host) (caps : Capabilities) (backend : option wb_state) : Handle :=
  mkHandle None false [] None zero_ReloadableConfig (base_info cfg ht caps) (rc_DevMode cfg) caps (start_server cfg backend)
    (negb (String.eqb (rc_ProdRouter cfg) "") && negb (rc_DevMode cfg)) (rc_ProdRouter cfg) (rc_MTLSCert cfg)
    (rc_MTLSKey cfg) (rc_CertDir cfg).

(** The end of [RunWorker]: relay, router over TLS, router over HTTP, or mDNS.
    [reachable0] is its probe of the relay, [reachable] that of the launch;
    [announce] the failure of the announcer, if any. *)
Definition choose_registration (reachable0 reachable : string -> bool) (announce : option goerr) (cfg : RunConfig) (h : Handle) :
    Handle + goerr :=
  let info := h_regInfoBase h in
  let register (info : WorkerInfo) := launchRegistration reachable (newReloadableConfig cfg) (set_base info h) in
  if negb (String.eqb (rc_RelayURL cfg) "") && rc_DevMode cfg &&
     (reachable0 (rc_RelayURL cfg) || String.eqb (rc_RouterBase cfg) "")
  then inl (register (with_Transport TransportWS info))
  else if negb (String.eqb (rc_ProdRouter cfg) "") && negb (rc_DevMode cfg)
  then inl (launchMTLSRegistration join (newReloadableConfig cfg) (set_base (with_IP "127.0.0.1" info) h))
  else if negb (String.eqb (rc_RouterBase cfg) "")
  then inl (register (if rc_DevMode cfg then info else with_IP "127.0.0.1" info))
  else
    match announce with
    | Some err => inr (Wrap [err])
    | None => inl (set_announcer true h)
    end.

Definition RunWorker (reachable0 reachable : string -> bool) (announce : option goerr) (cfg : RunConfig) (ht : host)
    (caps : Capabilities) (backend : option wb_state) : Handle + goerr :=
  choose_registration reachable0 reachable announce cfg (new_handle cfg ht caps backend).
End start.

(** ** Registration requests ([register.go]) *)

(** [hp_XAPIKey] is the empty string when the header is not sent. *)
Record http_post := { hp_URL : string; hp_XAPIKey : string; hp_Body : string }.

Definition registerURL (routerBase : string) : string := TrimRight routerBase "/"%char +:+ "/v1/dev/register".

Section post.
(** [json.Marshal] of a worker and whether a request can be made for a URL. *)
Context (marshal : WorkerInfo -> option string) (new_request : string -> bool).

(** The request that is sent, if any; what the router answers is only logged.
    [err] is [ctx.Err() != nil]. *)
Definition postRegister (err : bool) (routerBase : string) (info : WorkerInfo) : option http_post :=
  if err then None
  else
    body ← marshal info;
    let url := registerURL routerBase in
    if new_request url then Some {| hp_URL := url; hp_XAPIKey := ""; hp_Body := body |} else None.

(** The files of the certificates: reading, the parse of the authority, the
    loading of the pair. *)
Context (read_file : string -> option string) (append_certs : string -> bool) (load_pair : string -> string -> bool).

Definition mtlsClient (certFile keyFile caCertFile : string) : bool :=
  match read_file caCertFile with None => false | Some pem => append_certs pem && load_pair certFile keyFile end.

Definition postRegisterMTLS (err : bool) (routerBase : string) (info : WorkerInfo)
    (certFile keyFile caCertFile routerAPIKey : string) : option http_post :=
  if err then None
  else
    body ← marshal info;
    let url := registerURL routerBase in
    if new_request url && mtlsClient certFile keyFile caCertFile
    then Some {| hp_URL := url; hp_XAPIKey := routerAPIKey; hp_Body := body |} else None.

(** What a loop posts when it comes to; a relay's loop is [WSRegisterLoop]. *)
Definition heartbeat (h : Handle) (r : registration) : option http_post :=
  let err := rg_cancelled r || h_stopped h in
  let info := buildRegistrationInfo h (rg_config r) in
  match rg_route r with
  | ByHTTP base => postRegister err base info
  | ByMTLS router cert key ca apiKey => postRegisterMTLS err router info cert key ca apiKey
  | ByRelay _ => None
  end.
End post.

(** One round of the loop: whether the context is done at the first select,
    whether the second takes the tick, and [ctx.Err() != nil] when posting. *)
Record loop_round := { lr_done : bool; lr_tick : bool; lr_err : bool }.

Fixpoint loop_rounds (post : bool -> option http_post) (rounds : list loop_round) : list http_post :=
  match rounds with
  | [] => []
  | r :: rounds =>
      if lr_done r then []
      else if lr_tick r then option_list (post (lr_err r)) ++ loop_rounds post rounds
      else []
  end.

Definition RegisterLoopWithRefresh (post : bool -> option http_post) (err : bool) (rounds : list loop_round) : list http_post :=
  option_list (post err) ++ loop_rounds post rounds.

(** ** Everything together *)

Section running.
Context (parse_ip : string -> option ip) (url_host : string -> option string) (join : string -> string -> string).

(** The goroutines of a worker: the server's state changes, but for the filters
    and the key; a signal reloads, in its two halves and one at a time; the
    worker is stopped. *)
Inductive running : Handle * option ReloadableConfig -> Handle * option ReloadableConfig -> Prop :=
| run_server h p s :
    sv_allowedModels s = sv_allowedModels (h_srv h) -> sv_excludedModels s = sv_excludedModels (h_srv h) ->
    sv_apiKey s = sv_apiKey (h_srv h) -> running (h, p) (set_srv s h, p)
| run_signal env h c h' : reload_server parse_ip url_host env h = inl (c, h') -> running (h, None) (h', Some c)
| run_swap reachable h c : running (h, Some c) (reload_registration join reachable c h, None)
| run_stop h p : running (h, p) (Stop h, p).

(** A loop whose context is not done. *)
Definition live (h : Handle) (i : nat) (r : registration) : Prop :=
  h_loops h !! i = Some r /\ rg_cancelled r = false /\ h_stopped h = false.

(** The route a configuration asks for. *)
Definition chosen_route (reachable : string -> bool) (c : ReloadableConfig) (h : Handle) : option route :=
  if h_regUseMTLS h then
    Some (ByMTLS (h_regProdRouter h) (h_regMTLSCert h) (h_regMTLSKey h) (join (h_regCertDir h) "ca.crt") (rl_RelayAPIKey c))
  else if negb (String.eqb (rl_RelayURL c) "") && (String.eqb (rl_RouterBase c) "" || reachable (rl_RelayURL c))
  then Some (ByRelay (rl_RelayURL c))
  else if negb (String.eqb (rl_RouterBase c) "") then Some (ByHTTP (rl_RouterBase c))
  else None.
End running.

(** ** Launching *)

(** Every loop but the current one is cancelled, and the current one runs with
    the current configuration. *)
Definition one_loop (h : Handle) : Prop :=
  forall i r, h_loops h !! i = Some r -> rg_cancelled r = false -> h_regCancel h = Some i /\ rg_config r = h_regConfig h.

(** The server enforces and announces the configuration. *)
Definition in_force (h : Handle) (c : ReloadableConfig) : Prop :=
  sv_allowedModels (h_srv h) = splitModelList (rl_AllowedModels c) /\
  sv_excludedModels (h_srv h) = splitModelList (rl_ExcludedModels c) /\ sv_apiKey (h_srv h) = rl_APIKey c.

Lemma cancel_all_loops c h : one_loop h -> forall i r, h_loops (cancel_registration c h) !! i = Some r -> rg_cancelled r = true.
Proof using.
  intros Hone i r. unfold cancel_registration. simpl. destruct (h_regCancel h) as [k|] eqn:Ek.
  - rewrite list_lookup_alter. case_decide as Hik.
    + by intros (r0 & _ & ->)%fmap_Some.
    + intros Hr. destruct (rg_cancelled r) eqn:Ec; [done|]. destruct (Hone _ _ Hr Ec) as [Hk _]. congruence.
  - intros Hr. destruct (rg_cancelled r) eqn:Ec; [done|]. destruct (Hone _ _ Hr Ec) as [Hk _]. congruence.
Qed.

(** What a launch of either kind does: the other loops are cancelled, and a
    loop for the route, if there is one, is started. *)
Definition launched (ro : option route) (c : ReloadableConfig) (h h' : Handle) : Prop :=
  let h1 := cancel_registration c h in
  h' = match ro with Some r => start_registration r c h1 | None => h1 end.

Lemma reload_launches join reachable c h :
  launched (chosen_route join reachable c h) c h (reload_registration join reachable c h).
Proof using.
  unfold launched, reload_registration, chosen_route, launchMTLSRegistration, launchRegistration, startHTTPRegistration.
  destruct (h_regUseMTLS h); [done|]. destruct (String.eqb (rl_RelayURL c) ""), (String.eqb (rl_RouterBase c) ""); simpl; try done.
  by destruct (reachable _).
Qed.

Lemma launched_one_loop ro c h h' : one_loop h -> launched ro c h h' -> one_loop h'.
Proof using.
  intros Hone ->. pose proof (cancel_all_loops c h Hone) as Hall. destruct ro as [ro|]; intros i r Hr Hc; simpl in Hr.
  - apply lookup_app_Some in Hr as [Hr|[Hlen Hr]]; [by rewrite (Hall _ _ Hr) in Hc|].
    apply list_lookup_singleton_Some in Hr as [Hi <-]. simpl. split; [f_equal; lia|done].
  - by rewrite (Hall _ _ Hr) in Hc.
Qed.

Lemma launched_keeps ro c h h' :
  launched ro c h h' -> h_regConfig h' = c /\ h_srv h' = h_srv h /\ h_announcer h' = h_announcer h /\ h_stopped h' = h_stopped h /\
    h_regDevMode h' = h_regDevMode h /\ h_regInfoBase h' = h_regInfoBase h.
Proof using. intros ->. by destruct ro. Qed.

Lemma reload_server_inv parse_ip url_host env h c h' :
  reload_server parse_ip url_host env h = inl (c, h') ->
  c = effectiveReloadConfig env (h_regConfig h) /\ in_force h' c /\ h' = set_srv (h_srv h') h.
Proof using.
  unfold reload_server. destruct (ValidateRunConfig _ _ _); [done|]. by intros [= <- <-].
Qed.

(** ** Starting *)

Lemma start_server_in_force read_cap range cfg backend :
  let s := start_server read_cap range cfg backend in
  sv_allowedModels s = splitModelList (rc_AllowedModels cfg) /\ sv_excludedModels s = splitModelList (rc_ExcludedModels cfg) /\
  sv_apiKey s = rc_APIKey cfg.
Proof using.
  split_and!; [done|done|]. unfold start_server. cbn [sv_apiKey SetModelFilters]. destruct backend as [b|]; [|done].
  assert (Hb : sv_apiKey (SetBackend read_cap range b (SetInferenceWindow (rc_InferenceWindow cfg)
    (NewServer (rc_EnableHealthChecks cfg) (rc_APIKey cfg)))) = rc_APIKey cfg).
  { unfold SetBackend. by destruct (wb_ListModels b) as [[|m ms]|e]. }
  destruct (wb_ListModels b) as [[|m ms]|e]; [done|done|]. by destruct (negb _).
Qed.

(** A worker starts by announcing itself over mDNS or by launching the
    configuration it was given. *)
Lemma RunWorker_inv join read_cap range reachable0 reachable announce cfg ht caps backend h :
  RunWorker join read_cap range reachable0 reachable announce cfg ht caps backend = inl h ->
  let c := newReloadableConfig cfg in
  let h0 := new_handle read_cap range cfg ht caps backend in
  (h = set_announcer true h0 /\ rc_RouterBase cfg = "" /\ (rc_DevMode cfg = true -> rc_RelayURL cfg = "")) \/
  (exists info, launched (chosen_route join reachable c h0) c (set_base info h0) h).
Proof using.
  intros H c h0. unfold RunWorker, choose_registration in H. fold h0 c in H.
  assert (Hl : forall info, launched (chosen_route join reachable c h0) c (set_base info h0)
    (reload_registration join reachable c (set_base info h0))) by (intros info; apply (reload_launches join reachable c (set_base info h0))).
  assert (Hu : forall info, reload_registration join reachable c (set_base info h0) =
    if negb (String.eqb (rc_ProdRouter cfg) "") && negb (rc_DevMode cfg) then launchMTLSRegistration join c (set_base info h0)
    else launchRegistration reachable c (set_base info h0)) by done.
  destruct (negb (String.eqb (rc_RelayURL cfg) "") && rc_DevMode cfg && _) eqn:E1.
  { right. eexists. injection H as <-. destruct (rc_DevMode cfg) eqn:Ed; [|by rewrite andb_false_r in E1].
    specialize (Hl (with_Transport TransportWS (h_regInfoBase h0))). rewrite Hu, andb_false_r in Hl. exact Hl. }
  destruct (negb (String.eqb (rc_ProdRouter cfg) "") && negb (rc_DevMode cfg)) eqn:E2.
  { right. eexists. injection H as <-. specialize (Hl (with_IP "127.0.0.1" (h_regInfoBase h0))). rewrite Hu in Hl. exact Hl. }
  destruct (negb (String.eqb (rc_RouterBase cfg) "")) eqn:E3.
  { right. eexists. injection H as <-. specialize (Hl (if rc_DevMode cfg then h_regInfoBase h0 else with_IP "127.0.0.1" (h_regInfoBase h0))).
    rewrite Hu in Hl. exact Hl. }
  apply negb_false_iff, String.eqb_eq in E3. left. destruct announce; [done|]. injection H as <-. split_and!; [done|done|].
  intros Hd. rewrite Hd, E3 in E1. destruct (String.eqb_spec (rc_RelayURL cfg) ""); [done|]. by rewrite orb_true_r in E1.
Qed.

(** Reloads, model changes and the shutdown keep one loop at most, and the
    server in step with the configuration. *)
Lemma running_inv parse_ip url_host join read_cap range reachable0 reachable announce cfg ht caps backend h0 h pending :
  RunWorker join read_cap range reachable0 reachable announce cfg ht caps backend = inl h0 ->
  rtc (running parse_ip url_host join) (h0, None) (h, pending) ->
  one_loop h /\ (h_announcer h = None -> in_force h (default (h_regConfig h) pending)).
Proof using.
  intros Hrun Hr.
  refine (rtc_invariant _ (fun t : Handle * option ReloadableConfig => one_loop t.1 /\
    (h_announcer t.1 = None -> in_force t.1 (default (h_regConfig t.1) t.2))) (h0, None) (h, pending) _ _ Hr).
  - intros a b [Hone Hin] Hstep. destruct Hstep as [h1 p s Ha He Hk|env h1 c h' Hs|reachable' h1 c|h1 p]; simpl in *.
    + split; [done|]. intros Hann. destruct (Hin Hann) as (? & ? & ?). unfold in_force. simpl. by rewrite Ha, He, Hk.
    + apply reload_server_inv in Hs as (-> & Hf & ->). split; [done|]. by intros _.
    + pose proof (reload_launches join reachable' c h1) as Hl. split; [by eapply launched_one_loop|].
      apply launched_keeps in Hl as (Hc & Hsrv & Ha & _). rewrite Ha, Hc. unfold in_force. rewrite Hsrv. exact Hin.
    + split; [done|]. destruct (h_announcer h1); [done|]. exact Hin.
  - pose proof (start_server_in_force read_cap range cfg backend) as Hf.
    apply RunWorker_inv in Hrun as [(-> & _)|[info Hl]]; simpl.
    + split; [|done]. intros i r Hi. done.
    + split; [eapply launched_one_loop, Hl; intros i r Hi; done|]. apply launched_keeps in Hl as (Hc & Hsrv & _).
      intros _. unfold in_force. by rewrite Hc, Hsrv.
Qed.

(** C32: the registrations of a worker over any run of reloads, model changes and
    the shutdown.  At most one loop has a live context, and it runs with the
    configuration in force; no other loop posts anything, none does after the
    shutdown; and outside a reload, what the worker announces (unless it was
    started for mDNS) are the router key and the model filters of that
    configuration, with the models and the filters its server has. *)
Theorem registration_invariant parse_ip url_host join read_cap range reachable0 reachable announce cfg ht caps backend h0 h pending :
  RunWorker join read_cap range reachable0 reachable announce cfg ht caps backend = inl h0 ->
  rtc (running parse_ip url_host join) (h0, None) (h, pending) ->
  (forall i r, live h i r -> h_regCancel h = Some i /\ rg_config r = h_regConfig h) /\
  (forall i r, h_loops h !! i = Some r -> h_regCancel h <> Some i \/ h_stopped h = true ->
     forall marshal req rf ac lp, heartbeat marshal req rf ac lp h r = None) /\
  (pending = None -> h_announcer h = None ->
     in_force h (h_regConfig h) /\
     forall i r, live h i r ->
       let info := buildRegistrationInfo h (rg_config r) in
       wi_APIKey info = rl_RelayAPIKey (h_regConfig h) /\
       cap_AllowedModels (wi_Capabilities info) = splitModelList (rl_AllowedModels (h_regConfig h)) /\
       cap_ExcludedModels (wi_Capabilities info) = splitModelList (rl_ExcludedModels (h_regConfig h)) /\
       cap_Models (wi_Capabilities info) = announced_models (h_regDevMode h) (sv_models (h_srv h))).
Proof using.
  intros Hrun Hr. destruct (running_inv _ _ _ _ _ _ _ _ _ _ _ _ _ _ _ Hrun Hr) as [Hone Hin]. split_and!.
  - intros i r (Hi & Hc & _). by apply Hone.
  - intros i r Hi Hd marshal req rf ac lp. unfold heartbeat.
    assert (He : rg_cancelled r || h_stopped h = true).
    { destruct (rg_cancelled r) eqn:Ec; [done|]. destruct (Hone _ _ Hi Ec). by destruct Hd as [Hd| ->]. }
    rewrite He. by destruct (rg_route r).
  - intros -> Hann. specialize (Hin Hann). simpl in Hin. split; [done|]. intros i r (Hi & Hc & _).
    destruct (Hone _ _ Hi Hc) as [_ ->]. destruct Hin as (Ha & He & _). unfold buildRegistrationInfo.
    destruct (negb (String.eqb (rl_RelayURL (h_regConfig h)) "")); simpl; by rewrite <-Ha, <-He.
Qed.

(** ** Reloading *)

Lemma ValidateRunConfig_spec parse_ip url_host dev c :
  match ValidateRunConfig parse_ip url_host (reload_RunConfig dev c) with
  | None => dev = true \/ rl_RelayURL c = "" /\
      forall host, rl_RouterBase c <> "" -> extractHost url_host (rl_RouterBase c) = Some host -> isLoopback parse_ip host = true
  | Some _ => dev = false /\ (rl_RelayURL c <> "" \/
      exists host, extractHost url_host (rl_RouterBase c) = Some host /\ isLoopback parse_ip host = false)
  end.
Proof using.
  unfold ValidateRunConfig. simpl. destruct dev; simpl; [by left|].
  destruct (String.eqb_spec (rl_RelayURL c) ""); simpl; [|by split; [|left]].
  destruct (String.eqb_spec (rl_RouterBase c) ""); simpl; [right; by split|].
  destruct (extractHost url_host (rl_RouterBase c)) as [host|]; [|right; by split].
  destruct (isLoopback parse_ip host) eqn:El; simpl; [right|split; [done|right; eauto]]. split; [done|]. by intros ? _ [= <-].
Qed.

(** The variables of the environment and the settings they change. *)
Definition reload_settings : list (string * (ReloadableConfig -> string)) :=
  [("INFERMESH_ROUTER_URL", rl_RouterBase); ("INFERMESH_RELAY_URL", rl_RelayURL); ("INFERMESH_RELAY_API_KEY", rl_RelayAPIKey);
   ("INFERMESH_API_KEY", rl_APIKey); ("INFERMESH_ALLOWED_MODELS", rl_AllowedModels); ("INFERMESH_EXCLUDED_MODELS", rl_ExcludedModels)].

(** A reload of a worker that runs.  It fails only in production, for a relay
    or a router that is not loopback, and then changes nothing.  Otherwise each
    value is the environment's, or the one in force where the environment has
    none; the server announces and enforces the new values with its models as
    they were; no loop that ran before is live; and a loop runs for the route
    that the new configuration asks for, if it asks for one. *)
Theorem reload_spec parse_ip url_host join read_cap range reachable0 reachable1 announce cfg ht caps backend h0 h env reachable :
  RunWorker join read_cap range reachable0 reachable1 announce cfg ht caps backend = inl h0 ->
  rtc (running parse_ip url_host join) (h0, None) (h, None) -> h_stopped h = false ->
  let c := effectiveReloadConfig env (h_regConfig h) in
  let '(h', err) := ReloadConfig parse_ip url_host join env reachable h in
  match err with
  | Some _ => h' = h /\ h_regDevMode h = false /\ (rl_RelayURL c <> "" \/
      exists host, extractHost url_host (rl_RouterBase c) = Some host /\ isLoopback parse_ip host = false)
  | None =>
      h_regConfig h' = c /\ in_force h' c /\
      Forall (fun '(name, get) => get (h_regConfig h') = if String.eqb (env name) "" then get (h_regConfig h) else env name) reload_settings /\
      sv_models (h_srv h') = sv_models (h_srv h) /\
      (forall i r, live h i r -> ~ exists r', live h' i r') /\
      match chosen_route join reachable c h with
      | Some ro => exists i, live h' i (mkRegistration ro c false) /\ forall j r, live h' j r -> j = i
      | None => forall i r, ~ live h' i r
      end
  end.
Proof using.
  intros Hrun Hr Hstop c. destruct (running_inv _ _ _ _ _ _ _ _ _ _ _ _ _ _ _ Hrun Hr) as [Hone _].
  unfold ReloadConfig. destruct (reload_server parse_ip url_host env h) as [[c' h']|err] eqn:Es.
  - apply reload_server_inv in Es as Hinv. destruct Hinv as (-> & Hf & Hh'). fold c in Hf |- *.
    assert (Hsv : sv_models (h_srv h') = sv_models (h_srv h)).
    { unfold reload_server in Es. destruct (ValidateRunConfig _ _ _); [done|]. by injection Es as <-. }
    rewrite Hh' in Hf, Hsv |- *. set (s := h_srv h') in *. clearbody s. clear Es Hh' h'.
    pose proof (reload_launches join reachable c (set_srv s h)) as Hl. pose proof (launched_keeps _ _ _ _ Hl) as (Hc & Hsrv & _ & Hst & _).
    pose proof (cancel_all_loops c (set_srv s h) Hone) as Hall. set (h1 := reload_registration join reachable c (set_srv s h)) in *.
    split_and!; [done|unfold in_force; rewrite Hsrv; exact Hf|rewrite Hc; by repeat constructor|by rewrite Hsrv| |].
    + intros i r (Hi & Hrc & _) [r' (Hi' & Hrc' & _)]. rewrite Hl in Hi'.
      assert (Hlen : (i < length (h_loops (cancel_registration c (set_srv s h))))%nat).
      { apply lookup_lt_Some in Hi. unfold cancel_registration. simpl. destruct (h_regCancel h); [by rewrite length_alter|done]. }
      assert (Hold : h_loops (cancel_registration c (set_srv s h)) !! i = Some r').
      { destruct (chosen_route _ _ _ _); [|done]. simpl in Hi'. by rewrite lookup_app_l in Hi' by done. }
      by rewrite (Hall _ _ Hold) in Hrc'.
    + change (chosen_route join reachable c h) with (chosen_route join reachable c (set_srv s h)). unfold live. rewrite Hst, Hl.
      destruct (chosen_route _ _ _ _) as [ro|]; simpl.
      * exists (length (h_loops (cancel_registration c (set_srv s h)))). rewrite lookup_app_r, Nat.sub_diag by done.
        split; [done|]. intros j r (Hj & Hrc & _). apply lookup_app_Some in Hj as [Hj|[Hge Hj]]; [by rewrite (Hall _ _ Hj) in Hrc|].
        apply list_lookup_singleton_Some in Hj as [? _]. simpl in *. lia.
      * intros i r (Hi & Hrc & _). by rewrite (Hall _ _ Hi) in Hrc.
  - split; [done|]. unfold reload_server in Es. pose proof (ValidateRunConfig_spec parse_ip url_host (h_regDevMode h) c) as Hv.
    fold c in Es. destruct (ValidateRunConfig _ _ _); [|done]. exact Hv.
Qed.

(** The way a worker registers.  In production with a router for it, over
    mutual TLS; else through the relay that is configured, when it answers or no
    router is; else over HTTP; and by mDNS when there is neither.  So a relay
    that answers is used in production too, where it is said to be ignored. *)
Theorem start_route join read_cap range reachable0 reachable announce cfg ht caps backend h :
  RunWorker join read_cap range reachable0 reachable announce cfg ht caps backend = inl h ->
  match h_loops h with
  | [] => h_announcer h = Some true /\ rc_RouterBase cfg = "" /\ (rc_DevMode cfg = true -> rc_RelayURL cfg = "")
  | [r] =>
      h_announcer h = None /\ rg_cancelled r = false /\ rg_config r = newReloadableConfig cfg /\
      rg_route r =
        if negb (rc_DevMode cfg) && negb (String.eqb (rc_ProdRouter cfg) "")
        then ByMTLS (rc_ProdRouter cfg) (rc_MTLSCert cfg) (rc_MTLSKey cfg) (join (rc_CertDir cfg) "ca.crt") (rc_RelayAPIKey cfg)
        else if negb (String.eqb (rc_RelayURL cfg) "") && (String.eqb (rc_RouterBase cfg) "" || reachable (rc_RelayURL cfg))
        then ByRelay (rc_RelayURL cfg)
        else ByHTTP (rc_RouterBase cfg)
  | _ => False
  end.
Proof using.
  intros H. pose proof (RunWorker_inv _ _ _ _ _ _ _ _ _ _ _ H) as [(-> & ? & ?)|[info Hl]]; [done|].
  unfold launched, chosen_route in Hl. simpl in Hl. rewrite (andb_comm (negb (rc_DevMode cfg))).
  destruct (negb (String.eqb (rc_ProdRouter cfg) "") && negb (rc_DevMode cfg)) eqn:Eu; [by subst h|].
  destruct (negb (String.eqb (rc_RelayURL cfg) "") && (String.eqb (rc_RouterBase cfg) "" || reachable (rc_RelayURL cfg))) eqn:Er.
  { by subst h. }
  destruct (negb (String.eqb (rc_RouterBase cfg) "")) eqn:Eb; [by subst h|].
  exfalso. apply negb_false_iff in Eb. rewrite Eb in Er. simpl in Er. rewrite andb_true_r in Er.
  unfold RunWorker, choose_registration in H. rewrite Er, Eu, Eb in H. simpl in H. destruct announce; [done|]. injection H as H. by subst h.
Qed.

(** In development the router's address is never empty: a worker given only a
    relay that does not answer registers at the default address. *)
Lemma dev_router_default env f : wf_ProdMode f = false -> rc_RouterBase (run_config env f) <> "".
Proof using.
  intros Hp. unfold run_config, ResolveMode, or_else. simpl. rewrite Hp. simpl.
  destruct (String.eqb_spec (wf_Router f) "") as [_|Hne]; [|done].
  destruct (String.eqb_spec (env "INFERMESH_ROUTER_URL") "") as [_|Hne]; [discriminate|done].
Qed.

(** A reload of a worker that announces itself over mDNS.  It keeps no
    configuration to fall back on, so a signal with nothing in the environment
    opens the worker: its API key is emptied and its guarded paths serve requests
    that present none, and its model filters are gone. *)
Theorem mdns_reload_opens parse_ip url_host join read_cap range reachable0 reachable1 announce cfg ht caps backend h env reachable :
  RunWorker join read_cap range reachable0 reachable1 announce cfg ht caps backend = inl h -> h_announcer h = Some true ->
  (forall k, env k = "") ->
  exists h', ReloadConfig parse_ip url_host join env reachable h = (h', None) /\
    sv_apiKey (h_srv h) = rc_APIKey cfg /\ sv_apiKey (h_srv h') = "" /\
    sv_allowedModels (h_srv h') = [] /\ sv_excludedModels (h_srv h') = [] /\
    forall r, rq_Path r ∈ worker_guarded -> presented_key r = "" -> rc_APIKey cfg <> "" ->
      wrap_paths worker_guarded (sv_apiKey (h_srv h)) mux r <> None /\
      wrap_paths worker_guarded (sv_apiKey (h_srv h')) mux r = None.
Proof using.
  intros H Ha He. pose proof (RunWorker_inv _ _ _ _ _ _ _ _ _ _ _ H) as [(-> & _ & _)|[info Hl]].
  2: { apply launched_keeps in Hl as (_ & _ & Hl & _). rewrite Ha in Hl. done. }
  set (h := set_announcer true (new_handle read_cap range cfg ht caps backend)).
  assert (Hc : effectiveReloadConfig env (h_regConfig h) = zero_ReloadableConfig).
  { unfold effectiveReloadConfig. by rewrite !He. }
  assert (Hkey : sv_apiKey (h_srv h) = rc_APIKey cfg) by apply (start_server_in_force read_cap range cfg backend).
  unfold ReloadConfig, reload_server. rewrite Hc.
  assert (Hv : ValidateRunConfig parse_ip url_host (reload_RunConfig (h_regDevMode h) zero_ReloadableConfig) = None).
  { unfold ValidateRunConfig. simpl. by destruct (negb _). }
  rewrite Hv. set (h1 := set_srv _ h). eexists. split; [done|].
  pose proof (reload_launches join reachable zero_ReloadableConfig h1) as Hl. apply launched_keeps in Hl as (_ & Hs & _).
  rewrite Hs. split_and!; [done..|]. intros r Hin Hk Hne. split.
  - rewrite Hkey. intros Hw. apply wrap_passes in Hw as [Hw _]. specialize (Hw Hin Hne). congruence.
  - apply wrap_passes. by split.
Qed.
End worker.

(** ** At the router *)

(** A registration as the router's middlewares see it. *)
Definition register_request (tls : option (list certificate)) (p : http_post) : request :=
  {| rq_Path := "/v1/dev/register"; rq_XAPIKey := hp_XAPIKey p; rq_Authorization := ""; rq_TLS := tls |}.

Section joined.
Context `{B : WorkerBackend} {K : Selection.Backend} {T : Transport K}.
Context (split_host : string -> option string) (parse_ip : string -> option ip).
Context (marshal : WorkerInfo -> option string) (new_request : string -> bool) (decode : string -> option WorkerInfo).
Context (read_file : string -> option string) (append_certs : string -> bool) (load_pair : string -> string -> bool).

(** The JSON of a worker leaves out the time it was seen. *)
Context (decode_marshal : forall w b, marshal w = Some b -> decode b = Some (with_LastSeen zero_time w)).

Definition posts (h : Handle) (r : registration) (p : http_post) : Prop :=
  heartbeat marshal new_request read_file append_certs load_pair h r = Some p.

Lemma posts_body h r p :
  posts h r p -> marshal (buildRegistrationInfo h (rg_config r)) = Some (hp_Body p) /\
    match rg_route r with
    | ByHTTP base => hp_URL p = registerURL base /\ hp_XAPIKey p = ""
    | ByMTLS router cert key ca apiKey => hp_URL p = registerURL router /\ hp_XAPIKey p = apiKey
    | ByRelay _ => False
    end.
Proof using.
  unfold posts, heartbeat. destruct (rg_route r) as [base|url|router cert key ca apiKey]; [|done|].
  - unfold postRegister. destruct (rg_cancelled r || h_stopped h); [done|]. destruct (marshal _); [|done]. simpl.
    destruct (new_request _); [|done]. by intros [= <-].
  - unfold postRegisterMTLS. destruct (rg_cancelled r || h_stopped h); [done|]. destruct (marshal _); [|done]. simpl.
    destruct (new_request _ && _); [|done]. by intros [= <-].
Qed.

(** The address a registration is taken to come from: in development the one of
    its connection, in production the one it names, if that is the loopback. *)
Definition comes_from (dev : bool) (remote : string) (worker : WorkerInfo) (ip : string) : Prop :=
  if dev then routable_ip split_host parse_ip remote = Some ip else ip = wi_IP worker /\ (ip = "127.0.0.1" \/ ip = "localhost").

Lemma peer_identity_from dev remote worker ip :
  peer_identity split_host parse_ip dev remote worker = inl (with_IP ip worker, ip) <-> comes_from dev remote worker ip.
Proof using.
  unfold peer_identity, comes_from. destruct dev.
  - destruct (routable_ip _ _ _) as [ip'|]; [|done]. split; [by intros [= _ ->]|by intros [= ->]].
  - destruct (String.eqb_spec (wi_IP worker) "127.0.0.1") as [E|E], (String.eqb_spec (wi_IP worker) "localhost") as [E'|E']; simpl;
      (split; [intros H; simplify_eq; auto|intros [-> Hor]; by destruct worker, Hor]).
Qed.

(** The announcement but for its capabilities. *)
Lemma registration_fields h c :
  let i := buildRegistrationInfo h c in
  wi_ID i = wi_ID (h_regInfoBase h) /\ wi_Hostname i = wi_Hostname (h_regInfoBase h) /\ wi_IP i = wi_IP (h_regInfoBase h) /\
  wi_Port i = wi_Port (h_regInfoBase h) /\ wi_APIKey i = rl_RelayAPIKey c /\
  wi_Transport i = if String.eqb (rl_RelayURL c) "" then wi_Transport (h_regInfoBase h) else TransportWS.
Proof using. unfold buildRegistrationInfo. by destruct (String.eqb (rl_RelayURL c) ""). Qed.

(** C4: a worker's registration at the router.  It goes to the registration path
    of the router of its route.  It carries no key over HTTP, so a router that
    has one refuses it; over mutual TLS the router's middleware passes it when
    the keys agree.  The handler then accepts it exactly when the worker has an
    ID and a port, comes from an address the router can name (over mutual TLS the
    loopback address) and no worker at another address holds the ID; one that is
    refused changes nothing.  An accepted one puts exactly this worker in the
    registry, available and seen now: its ID, host and port, the address it came
    from, and the models and the filters its server has.  If its configuration
    names no relay, the router dials it at that address and port.  If it names
    one, the worker is listed as a WebSocket worker, whichever way it came: after
    it fell back to HTTP because the relay did not answer, the router never dials
    it, but looks for a connection that it does not hold. *)
Theorem worker_registers h r p now remote s reg key tls :
  posts h r p -> rt_reg s = Some reg ->
  let base := h_regInfoBase h in
  match rg_route r with
  | ByHTTP router | ByMTLS router _ _ _ _ => hp_URL p = TrimRight router "/"%char +:+ "/v1/dev/register"
  | ByRelay _ => False
  end /\
  (wrap_paths router_guarded key mux (register_request tls p) = None <->
     key = "" \/ exists router cert k ca, rg_route r = ByMTLS router cert k ca key) /\
  exists s' w, handleDevRegister split_host parse_ip now POST remote (decode (hp_Body p)) new_writer s = Some (s', w) /\
    (rw_status w = Some 200 <->
       wi_ID base <> "" /\ 0 < wi_Port base <= 65535 /\ exists ip, comes_from (rt_dev s) remote base ip /\
         forall st, mr_workers reg !! wi_ID base = Some st -> wi_IP (ws_info st) = ip) /\
    (rw_status w <> Some 200 -> s' = s) /\
    (rw_status w = Some 200 ->
       exists ip reg' i, comes_from (rt_dev s) remote base ip /\ s' = set_registry (Some reg') s /\
         mr_workers reg' = <[wi_ID base := {| ws_info := i; ws_lastSeen := now; ws_available := true |}]> (mr_workers reg) /\
         (wi_ID i = wi_ID base /\ wi_Hostname i = wi_Hostname base /\ wi_IP i = ip /\ wi_Port i = wi_Port base /\
          wi_Status i = StatusAvailable /\ wi_LastSeen i = now /\ wi_APIKey i = rl_RelayAPIKey (rg_config r)) /\
         (let caps := wi_Capabilities i in
          cap_Models caps = announced_models (h_regDevMode h) (sv_models (h_srv h)) /\
          cap_AllowedModels caps = sv_allowedModels (h_srv h) /\ cap_ExcludedModels caps = sv_excludedModels (h_srv h)) /\
         forall (ds : Dispatch.Server) wd hc, sv_clientFactory ds = false -> wi_Transport base = "" ->
           if String.eqb (rl_RelayURL (rg_config r)) ""
           then clientFor ds i wd = (if sv_mTLS ds then MTLSClient else HTTPClient) /\
                HttpClient.base_url hc i = HttpClient.scheme hc +:+ "://" +:+ ip +:+ ":" +:+ pretty (wi_Port base)
           else wi_Transport i = TransportWS /\
                clientFor ds i wd = (if hub_has_conn (wi_ID base) wd then ConnClient (wi_ID base) else RelayClient)).
Proof using decode_marshal.
  intros Hp Hreg base. apply posts_body in Hp as [Hm Hroute]. split; [|split].
  - by destruct (rg_route r); [apply Hroute| |apply Hroute].
  - assert (Hk : presented_key (register_request tls p) = hp_XAPIKey p).
    { unfold presented_key. simpl. by destruct (String.eqb_spec (hp_XAPIKey p) "") as [->|]. }
    rewrite wrap_passes, Hk. simpl. destruct (rg_route r) as [router|url|router cert k ca apiKey]; [|done|]; destruct Hroute as [_ ->].
    + split; [intros [Hkey _]|intros [->|(? & ? & ? & ? & ?)]; [by split|done]]. left.
      destruct (String.eqb_spec key "") as [|Hne]; [done|]. symmetry. apply Hkey; [set_solver|done].
    + split; [intros [Hkey _]|].
      * destruct (String.eqb_spec key "") as [|Hne]; [by left|right]. exists router, cert, k, ca. do 2 f_equal.
        rewrite <-Hkey; [done|set_solver|done].
      * intros [->|(? & ? & ? & ? & [= ? ? ? ? ->])]; by split.
  - rewrite (decode_marshal _ _ Hm). set (sent := with_LastSeen zero_time (buildRegistrationInfo h (rg_config r))).
    destruct (registration_fields h (rg_config r)) as (Hid & Hhost & Hip & Hport & Hkey & Htr). cbv zeta in *. fold base in Hid, Hhost, Hip, Hport, Htr.
    assert (Hfrom : forall ip, peer_identity split_host parse_ip (rt_dev s) remote sent = inl (with_IP ip sent, ip) <->
      comes_from (rt_dev s) remote base ip).
    { intros ip. rewrite peer_identity_from. unfold comes_from. change (wi_IP sent) with (wi_IP (buildRegistrationInfo h (rg_config r))).
      by rewrite Hip. }
    destruct (dev_register_spec split_host parse_ip now POST remote sent s reg Hreg) as (s' & w & H & Hok & Hs).
    change (wi_ID sent) with (wi_ID (buildRegistrationInfo h (rg_config r))) in Hok, Hs.
    change (wi_Port sent) with (wi_Port (buildRegistrationInfo h (rg_config r))) in Hok. rewrite Hid, Hport in Hok. rewrite Hid in Hs.
    exists s', w. split; [exact H|]. split; [|split].
    + rewrite Hok. setoid_rewrite Hfrom. naive_solver.
    + intros Hw. by rewrite decide_False in Hs.
    + intros Hw. pose proof Hw as (_ & _ & _ & ip & Hpeer & _)%Hok. apply Hfrom in Hpeer as Hfr.
      rewrite decide_True in Hs by done. destruct Hs as (ip' & reg' & Hip' & -> & Hws).
      assert (ip' = ip) as ->.
      { unfold comes_from in Hfr. destruct (rt_dev s); [congruence|]. destruct Hfr as [-> _].
        rewrite Hip'. change (wi_IP sent) with (wi_IP (buildRegistrationInfo h (rg_config r))). by rewrite Hip. }
      eexists ip, reg', _. split; [exact Hfr|]. split; [done|]. split; [exact Hws|]. split; [by split_and!|]. split.
      * unfold sent, buildRegistrationInfo. by destruct (negb _).
      * intros ds wd hc Hf Ht. unfold clientFor, HttpClient.base_url. rewrite Hf. cbn [wi_Transport wi_ID wi_IP wi_Port with_LastSeen with_Status with_IP sent].
        rewrite Htr, Hid, Hport. destruct (String.eqb (rl_RelayURL (rg_config r)) ""); [by rewrite Ht|done].
Qed.
End joined.

(** ** Concrete workers *)

#[local] Existing Instance WorkerServer.ex_worker.

Definition ex_int (v : string) : option Z := if String.eqb v "8081" then Some 8081 else None.

Definition ex_flags (relay : string) : WorkerFlags :=
  default (worker_flags ex_int ex_int [])
    (parseWorkerFlags ex_int ex_int
       ["--dev-mode"; "--backend"; "ollama"; "-port=8081"; "--router"; "http://r:8080/"; "--relay-url"; relay;
        "--allowed-models"; "llama, qwen,"; "--api-key"; "secret"; "--relay-api-key"; "relay-key"]).

Definition ex_env : environment := fun _ => "".

Definition ex_host : host := {| ht_Hostname := Some "box"; ht_addrs := Some [{| ip_loopback := true; ip_v4 := Some "127.0.0.1" |};
  {| ip_loopback := false; ip_v4 := None |}; {| ip_loopback := false; ip_v4 := Some "192.168.1.7" |}] |}.

Definition ex_join (a b : string) : string := a +:+ "/" +:+ b.
Definition ex_url_host (u : string) : option string := Some u.

Definition ex_run (cfg : RunConfig) (reach : bool) : Handle + goerr :=
  RunWorker (B := WorkerServer.ex_worker) ex_join (fun _ => None) (fun l => l) (fun _ => reach) (fun _ => reach) None cfg ex_host zero_Capabilities
    (Some (ex_backend_of "ollama")).

Definition ex_start (cfg : RunConfig) (reach : bool) : Handle :=
  match ex_run cfg reach with
  | inl h => h
  | inr _ => new_handle (fun _ => None) (fun l => l) cfg ex_host zero_Capabilities None
  end.

Lemma ex_started cfg reach :
  match ex_run cfg reach with inl _ => true | inr _ => false end = true -> ex_run cfg reach = inl (ex_start cfg reach).
Proof. unfold ex_start. by destruct (ex_run cfg reach). Qed.

Definition ex_dev (relay : string) : Handle := ex_start (run_config ex_env (ex_flags relay)) false.

Example ex_base : map Base [""; "/"; "/models/llama.gguf"; "llama.gguf/"] = ["."; "/"; "llama.gguf"; "llama.gguf"].
Proof. reflexivity. Qed.

Example ex_normalize : map Normalize [""; ":9000"; "host:1/"; "https://r/ "] =
  ["http://127.0.0.1:8080"; "http://127.0.0.1:9000"; "http://host:1"; "https://r"].
Proof. reflexivity. Qed.

Example ex_dev_route : map rg_route (h_loops (ex_dev "ws://relay")) = [ByHTTP "http://r:8080/"] /\
  wi_IP (h_regInfoBase (ex_dev "")) = "192.168.1.7" /\ wi_ID (h_regInfoBase (ex_dev "")) = "worker-box-8081".
Proof. vm_compute. split_and!; reflexivity. Qed.

Definition ex_reload_env : environment := fun k => if String.eqb k "INFERMESH_ALLOWED_MODELS" then "qwen" else "".

Definition ex_reloaded : Handle := (ReloadConfig ex_parse_ip ex_url_host ex_join ex_reload_env (fun _ => true) (ex_dev "")).1.

Lemma ex_reloaded_reach : rtc (running ex_parse_ip ex_url_host ex_join) (ex_dev "", None) (ex_reloaded, None).
Proof.
  unfold ex_reloaded, ReloadConfig.
  destruct (reload_server ex_parse_ip ex_url_host ex_reload_env (ex_dev "")) as [[c h]|e] eqn:E; [|apply rtc_refl].
  eapply rtc_l; [eapply run_signal, E|]. apply rtc_once, run_swap.
Qed.

Lemma ex_dev_started : ex_run (run_config ex_env (ex_flags "")) false = inl (ex_dev "").
Proof. apply (ex_started (run_config ex_env (ex_flags "")) false). vm_compute. reflexivity. Qed.

Lemma registration_invariant_witness :
  in_force ex_reloaded (h_regConfig ex_reloaded) /\ rl_AllowedModels (h_regConfig ex_reloaded) = "qwen".
Proof.
  destruct (registration_invariant (B := WorkerServer.ex_worker) ex_parse_ip ex_url_host ex_join (fun _ => None) (fun l => l) (fun _ => false) (fun _ => false) None
    (run_config ex_env (ex_flags "")) ex_host zero_Capabilities (Some (ex_backend_of "ollama")) (ex_dev "") ex_reloaded None) as (_ & _ & H).
  - exact ex_dev_started.
  - exact ex_reloaded_reach.
  - destruct (H eq_refl) as [H1 _]; [vm_compute; reflexivity|]. split; [exact H1|vm_compute; reflexivity].
Defined.

Lemma ex_reload : ReloadConfig ex_parse_ip ex_url_host ex_join ex_reload_env (fun _ => true) (ex_dev "") = (ex_reloaded, None).
Proof.
  assert (He : (ReloadConfig ex_parse_ip ex_url_host ex_join ex_reload_env (fun _ => true) (ex_dev "")).2 = None) by (vm_compute; reflexivity).
  unfold ex_reloaded. destruct (ReloadConfig _ _ _ _ _ _) as [h' err]. cbn [fst snd] in *. by rewrite He.
Qed.

Lemma ex_chosen :
  chosen_route ex_join (fun _ => true) (effectiveReloadConfig ex_reload_env (h_regConfig (ex_dev ""))) (ex_dev "") =
  Some (ByHTTP "http://r:8080/").
Proof. vm_compute. reflexivity. Qed.

Lemma ex_dev_runs : h_stopped (ex_dev "") = false.
Proof. vm_compute. reflexivity. Qed.

Lemma reload_spec_witness :
  exists i, live ex_reloaded i
    (mkRegistration (ByHTTP "http://r:8080/") (effectiveReloadConfig ex_reload_env (h_regConfig (ex_dev ""))) false).
Proof.
  pose proof (reload_spec (B := WorkerServer.ex_worker) ex_parse_ip ex_url_host ex_join (fun _ => None) (fun l => l)
    (fun _ => false) (fun _ => false) None (run_config ex_env (ex_flags "")) ex_host zero_Capabilities
    (Some (ex_backend_of "ollama")) (ex_dev "") (ex_dev "") ex_reload_env (fun _ => true) ex_dev_started (rtc_refl _ _) ex_dev_runs) as H.
  rewrite ex_reload in H. cbv zeta in H. rewrite ex_chosen in H. destruct H as (_ & _ & _ & _ & _ & i & H & _). by exists i.
Defined.

(** Production with a relay: it is dialled although it should be ignored. *)
Definition ex_prod : RunConfig :=
  run_config ex_env
    (default (worker_flags ex_int ex_int [])
       (parseWorkerFlags ex_int ex_int
          ["--prod-mode"; "--backend"; "ollama"; "--router"; "http://127.0.0.1:8080"; "--relay-url"; "ws://relay"])).

Lemma ex_prod_started : ex_run ex_prod true = inl (ex_start ex_prod true).
Proof. apply (ex_started ex_prod true). vm_compute. reflexivity. Qed.

Lemma start_route_witness : map rg_route (h_loops (ex_start ex_prod true)) = [ByRelay "ws://relay"].
Proof.
  pose proof (start_route (B := WorkerServer.ex_worker) ex_join (fun _ => None) (fun l => l) (fun _ => true) (fun _ => true) None ex_prod ex_host zero_Capabilities
    (Some (ex_backend_of "ollama")) (ex_start ex_prod true) ex_prod_started) as H.
  assert (Hl : length (h_loops (ex_start ex_prod true)) = 1%nat) by (vm_compute; reflexivity).
  destruct (h_loops (ex_start ex_prod true)) as [|r [|r' l]]; [discriminate Hl| |discriminate Hl].
  destruct H as (_ & _ & _ & H). cbn [map]. rewrite H. vm_compute. reflexivity.
Defined.

(** A worker of another program, in development without a router. *)
Definition ex_mdns_config : RunConfig :=
  {| rc_ModelPath := ""; rc_Backend := "ollama"; rc_BackendURL := ""; rc_Port := 8081; rc_DevMode := true; rc_MTLSCert := "";
     rc_MTLSKey := ""; rc_CertDir := ""; rc_TrustedCNs := ""; rc_RouterBase := ""; rc_ProdRouter := ""; rc_RelayURL := "";
     rc_EnableHealthChecks := false; rc_MaxTokens := 0; rc_ModelRefreshInterval := 0; rc_HealthCheckInterval := 0;
     rc_InferenceWindow := 0; rc_AllowedModels := "llama"; rc_ExcludedModels := ""; rc_APIKey := "secret"; rc_RelayAPIKey := "";
     rc_BackendTimeout := 0; rc_Threads := 0 |}.

Lemma ex_mdns_started : ex_run ex_mdns_config false = inl (ex_start ex_mdns_config false).
Proof. apply (ex_started ex_mdns_config false). vm_compute. reflexivity. Qed.

Lemma mdns_reload_opens_witness :
  exists h', ReloadConfig ex_parse_ip ex_url_host ex_join ex_env (fun _ => false) (ex_start ex_mdns_config false) = (h', None) /\
    sv_apiKey (h_srv (ex_start ex_mdns_config false)) = "secret" /\ sv_apiKey (h_srv h') = "".
Proof.
  destruct (mdns_reload_opens (B := WorkerServer.ex_worker) ex_parse_ip ex_url_host ex_join (fun _ => None) (fun l => l) (fun _ => false) (fun _ => false) None
    ex_mdns_config ex_host zero_Capabilities (Some (ex_backend_of "ollama")) (ex_start ex_mdns_config false) ex_env (fun _ => false))
    as (h' & H1 & H2 & H3 & _).
  - exact ex_mdns_started.
  - vm_compute. reflexivity.
  - intros k. reflexivity.
  - exists h'. split_and!; [exact H1|exact H2|exact H3].
Defined.

(** The registrations of a worker with no relay and of one that fell back, with
    a codec for them. *)
Definition ex_fallback (relay : string) : registration :=
  default (mkRegistration (ByRelay "") zero_ReloadableConfig true) (head (h_loops (ex_dev relay))).
Definition ex_info (relay : string) : WorkerInfo := buildRegistrationInfo (ex_dev relay) (rg_config (ex_fallback relay)).
Definition ex_marshal_worker (relay : string) (w : WorkerInfo) : option string := if decide (w = ex_info relay) then Some "worker" else None.
Definition ex_decode_worker (relay b : string) : option WorkerInfo :=
  if String.eqb b "worker" then Some (with_LastSeen zero_time (ex_info relay)) else None.
Definition ex_registration : http_post := {| hp_URL := "http://r:8080/v1/dev/register"; hp_XAPIKey := ""; hp_Body := "worker" |}.

Lemma ex_codec relay w b :
  ex_marshal_worker relay w = Some b -> ex_decode_worker relay b = Some (with_LastSeen zero_time w).
Proof. unfold ex_marshal_worker. destruct (decide (w = ex_info relay)) as [->|]; [intros [= <-]; reflexivity|discriminate]. Qed.

(** What the router lists of it. *)
Definition ex_listed (relay : string) (i : WorkerInfo) : Prop :=
  exists s' w reg, handleDevRegister ex_split_host ex_parse_ip second POST "192.168.1.7:4711"
      (ex_decode_worker relay (hp_Body ex_registration)) new_writer ex_meta = Some (s', w) /\
    rw_status w = Some 200 /\ rt_reg s' = Some reg /\ ws_info <$> mr_workers reg !! "worker-box-8081" = Some i /\
    wi_IP i = "192.168.1.7" /\ wi_Port i = 8081.

Lemma worker_registers_witness :
  wrap_paths router_guarded "router-key" mux (register_request None ex_registration) <> None /\
  (exists i, ex_listed "" i /\ clientFor (T := Dispatch.only_c) Dispatch.ex_server i 0%nat = HTTPClient /\
    HttpClient.base_url {| HttpClient.hw_prod := false |} i = "http://192.168.1.7:8081") /\
  (exists i, ex_listed "ws://relay" i /\ clientFor (T := Dispatch.only_c) Dispatch.ex_server i 0%nat = RelayClient).
Proof.
  assert (Hp : forall relay, relay = "" \/ relay = "ws://relay" -> posts (ex_marshal_worker relay) (fun _ => true) (fun _ => None) (fun _ => true)
    (fun _ _ => true) (ex_dev relay) (ex_fallback relay) ex_registration).
  { intros relay Hr. assert (Hm : ex_marshal_worker relay (ex_info relay) = Some "worker") by (unfold ex_marshal_worker; by rewrite decide_True).
    unfold posts, heartbeat, postRegister.
    change (buildRegistrationInfo (ex_dev relay) (rg_config (ex_fallback relay))) with (ex_info relay). rewrite Hm.
    destruct Hr as [-> | ->]; vm_compute; reflexivity. }
  pose proof (fun relay Hr => worker_registers (B := WorkerServer.ex_worker) (T := Dispatch.only_c) ex_split_host ex_parse_ip
    (ex_marshal_worker relay) (fun _ => true) (ex_decode_worker relay) (fun _ => None) (fun _ => true) (fun _ _ => true) (ex_codec relay)
    (ex_dev relay) (ex_fallback relay) ex_registration second "192.168.1.7:4711" ex_meta ex_registry "router-key" None (Hp relay Hr) eq_refl) as H.
  split; [|split].
  - intros Hn. destruct (H "" (or_introl eq_refl)) as (_ & Hkey & _). apply Hkey in Hn as [Hn|(router & cert & k & ca & Hn)];
      [discriminate Hn|vm_compute in Hn; discriminate Hn].
  - destruct (H "" (or_introl eq_refl)) as (_ & _ & s' & w & E & _ & _ & Hok).
    assert (Hw : rw_status w = Some 200) by (clear -E; vm_compute in E; injection E as _ <-; reflexivity).
    destruct (Hok Hw) as (ip & reg' & i & Hip & -> & Hws & (_ & _ & Hi & Hport & _) & _ & Hc).
    assert (ip = "192.168.1.7") as -> by (vm_compute in Hip; injection Hip as <-; reflexivity).
    destruct (Hc Dispatch.ex_server 0%nat {| HttpClient.hw_prod := false |} eq_refl ltac:(vm_compute; reflexivity)) as [Hcl Hurl].
    exists i. split; [|split; [exact Hcl|exact Hurl]]. eexists _, w, reg'. split; [exact E|]. split; [exact Hw|]. split; [reflexivity|].
    split; [|split; [exact Hi|exact Hport]]. by rewrite Hws, lookup_insert_eq.
  - destruct (H "ws://relay" (or_intror eq_refl)) as (_ & _ & s' & w & E & _ & _ & Hok).
    assert (Hw : rw_status w = Some 200) by (clear -E; vm_compute in E; injection E as _ <-; reflexivity).
    destruct (Hok Hw) as (ip & reg' & i & Hip & -> & Hws & (_ & _ & Hi & Hport & _) & _ & Hc).
    assert (ip = "192.168.1.7") as -> by (vm_compute in Hip; injection Hip as <-; reflexivity).
    destruct (Hc Dispatch.ex_server 0%nat {| HttpClient.hw_prod := false |} eq_refl ltac:(vm_compute; reflexivity)) as [_ Hcl].
    exists i. split; [|exact Hcl]. eexists _, w, reg'. split; [exact E|]. split; [exact Hw|]. split; [reflexivity|].
    split; [|split; [exact Hi|exact Hport]]. by rewrite Hws, lookup_insert_eq.
Defined.
