(* ===== verification/Capabilities.v ===== *)
(** * Capabilities: what a worker detects of its host ([pkg/capabilities], [pkg/platform])

    The aggregator and its sources: the GPU, the models file, the installed
    engines and the system's memory.  Files, commands, YAML, floats and the order
    of a map are arguments. *)

From S2P Require Import Prelude GoFloat GoStrings Numerals Protocol Scheduler CapabilityCache QueueStats Selection Backend WorkerServer WorkerRun.
From stdpp Require Import pretty.
From Stdlib Require Import Ascii.

#[local] Open Scope Z_scope.
#[local] Open Scope list_scope.

Definition newline : ascii := ascii_of_nat 10.

(** ** Platforms ([detection.go]) *)

Inductive platform := Linux | Darwin | Unknown.

#[export] Instance platform_eq_dec : EqDecision platform.
Proof. solve_decision. Defined.

(** [env] is the environment, [lower] is [strings.ToLower]. *)
Definition isDarwin (lower : string -> string) (env : string -> string) : bool :=
  Contains (env "OSTYPE") "darwin" || String.eqb (lower (env "APPLE_PLATFORM")) "darwin".
Definition isLinux (lower : string -> string) (env : string -> string) : bool :=
  String.eqb (lower (env "OSTYPE")) "linux" || HasPrefix (lower (env "KERNEL_NAME")) "linux".

Definition DetectPlatform (lower : string -> string) (env : string -> string) (goos : string) : platform :=
  if String.eqb goos "linux" then Linux
  else if String.eqb goos "darwin" then Darwin
  else if isDarwin lower env then Darwin
  else if isLinux lower env then Linux
  else Unknown.

(** The GPU of the platform, [None] for a nil one; its detection is a placeholder
    that returns neither a GPU nor an error. *)
Record platform_GPU := { pg_Vendor : string; pg_Model : string; pg_ComputeCore : Z; pg_TotalVRAM : Z; pg_FreeVRAM : Z }.

Definition DetectGPUPlatform : option platform_GPU * bool := (None, false).

(** ** System metrics ([system.go], [metrics.go]) *)

Record SystemMetrics := { sm_CPULoadPercent : float64; sm_MemoryUsedMB : Z; sm_MemoryFreeMB : Z; sm_DiskFreeGB : float64 }.

Section metrics.
(** [strconv.ParseFloat]; a result that is [None] is an error. *)
Context (parse_float : string -> option float64).

Definition first_float (fields : list string) : option float64 := f ← head fields; parse_float f.

(** [data] is the content of [/proc/loadavg], [out] the output of [sysctl]. *)
Definition readCPULoad (data : option string) : option float64 := d ← data; first_float (Fields d).
Definition readDarwinCPULoad (out : option string) : option float64 := o ← out; first_float (Fields (TrimSpace o)).

(** The second field of a line in KB, as MB; [old] without one. *)
Definition kb_field (line : string) (old : Z) : Z :=
  match Fields line with _ :: f :: _ => Z.quot (ParseInt f).1 1024 | _ => old end.

Record meminfo := { mi_total : Z; mi_free : Z; mi_available : Z }.

Definition mem_line (m : meminfo) (line : string) : meminfo :=
  let line := TrimSpace line in
  if HasPrefix line "MemTotal:" then {| mi_total := kb_field line (mi_total m); mi_free := mi_free m; mi_available := mi_available m |}
  else if HasPrefix line "MemFree:" then {| mi_total := mi_total m; mi_free := kb_field line (mi_free m); mi_available := mi_available m |}
  else if HasPrefix line "MemAvailable:" then {| mi_total := mi_total m; mi_free := mi_free m; mi_available := kb_field line (mi_available m) |}
  else m.

(** The used and the free memory; [None] when [/proc/meminfo] cannot be read. *)
Definition readMemoryInfo (data : option string) : option (Z * Z) :=
  d ← data;
  let m := foldl mem_line {| mi_total := 0; mi_free := 0; mi_available := 0 |} (Split d newline) in
  if 0 <? mi_available m then Some (wrap64 (mi_total m - mi_available m), mi_available m)
  else Some (wrap64 (mi_total m - mi_free m), mi_free m).

(** One line of [vm_stat]. *)
Definition page_line (free : Z) (line : string) : Z :=
  if Contains line "Pages free" then
    match Fields line with
    | _ :: _ :: f :: _ => match ParseInt f with (v, true) => Z.quot (wrap64 (v * 4096)) 1048576 | _ => free end
    | _ => free
    end
  else free.

(** [memsize] and [vm_stat] are the outputs of the two commands. *)
Definition readDarwinMemoryInfo (memsize vm_stat : option string) : option (Z * Z) :=
  m ← memsize;
  match ParseInt (TrimSpace m) with
  | (_, false) => None
  | (totalBytes, true) =>
      out ← vm_stat;
      let totalMB := Z.quot totalBytes 1048576 in
      let pageFree := foldl page_line 0 (Split out newline) in
      Some (wrap64 (totalMB - pageFree), pageFree)
  end.

(** The answers of the host. *)
Record host_files := {
  hf_loadavg : option string;
  hf_meminfo : option string;
  hf_sysctl_load : option string;
  hf_memsize : option string;
  hf_vm_stat : option string;
  hf_disk : option float64;
}.

Definition metrics_of (cpu : option float64) (mem : option (Z * Z)) (disk : option float64) : SystemMetrics :=
  let '(used, free) := default (0, 0) mem in
  {| sm_CPULoadPercent := default f0 cpu; sm_MemoryUsedMB := used; sm_MemoryFreeMB := free; sm_DiskFreeGB := default f0 disk |}.

Definition collectLinuxSystemMetrics (h : host_files) : SystemMetrics :=
  metrics_of (readCPULoad (hf_loadavg h)) (readMemoryInfo (hf_meminfo h)) (hf_disk h).
Definition collectDarwinSystemMetrics (h : host_files) : SystemMetrics :=
  metrics_of (readDarwinCPULoad (hf_sysctl_load h)) (readDarwinMemoryInfo (hf_memsize h) (hf_vm_stat h)) (hf_disk h).

Definition CollectSystemMetrics (p : platform) (h : host_files) : option SystemMetrics :=
  match p with
  | Linux => Some (collectLinuxSystemMetrics h)
  | Darwin => Some (collectDarwinSystemMetrics h)
  | Unknown => None
  end.
End metrics.

(** ** Models ([models.go]) *)

Record ModelConfig := mkModelConfig {
  mc_Name : string;
  mc_SizeBytes : Z;
  mc_Quantization : string;
  mc_MaxTokens : Z;
  mc_Backend : string;
  mc_Loaded : bool;
}.

Definition ToModelInfo (m : ModelConfig) : ModelInfo :=
  {| mi_Name := mc_Name m; mi_Size := mc_SizeBytes m; mi_Quantization := mc_Quantization m; mi_MaxTokens := mc_MaxTokens m;
     mi_Backend := mc_Backend m; mi_Loaded := mc_Loaded m |}.

(** What reading a file or a directory gives. *)
Inductive read (A : Type) := Read (a : A) | NotExist | ReadFailed.
Arguments Read {A}.
Arguments NotExist {A}.
Arguments ReadFailed {A}.

Section models.
Context (unmarshal : string -> option (list ModelConfig)) (ext : string -> string) (file : string -> read string).

(** [None] is an error, [Some None] the nil configuration of a missing file. *)
Definition LoadModelsConfig (path : string) : option (option (list ModelConfig)) :=
  match file path with
  | NotExist => Some None
  | ReadFailed => None
  | Read data => models ← unmarshal data; Some (Some models)
  end.

(** The loop over the entries (a name and whether it is a directory). *)
Fixpoint load_entries (join : string -> string) (entries : list (string * bool)) : option (list ModelConfig) :=
  match entries with
  | [] => Some []
  | (name, dir) :: entries =>
      if dir then load_entries join entries
      else if negb (String.eqb (ext name) ".yaml") && negb (String.eqb (ext name) ".yml") then load_entries join entries
      else
        config ← LoadModelsConfig (join name);
        rest ← load_entries join entries;
        Some (default [] config ++ rest)
  end.

Definition LoadModelsFromDir (join : string -> string) (entries : read (list (string * bool))) : option (option (list ModelConfig)) :=
  match entries with
  | NotExist => Some None
  | ReadFailed => None
  | Read entries => models ← load_entries join entries; Some (Some models)
  end.
End models.

Definition quantizations : list string :=
  ["FP16"; "FP32"; "Q4_K_M"; "Q4_K_S"; "Q4_0"; "Q4_1"; "Q5_K_M"; "Q5_K_S"; "Q5_0"; "Q5_1"; "Q6_K"; "Q8_0"; "Q8_1"; "Q2_K"; "Q3_K_M"; "Q3_K_S";
   "IQ2_XXS"; "IQ2_XS"; "IQ3_XXS"].

Definition ValidateQuantization (q : string) : bool := existsb (String.eqb q) quantizations.

(** [strings.ToUpper] on the patterns, which are ASCII. *)
Definition upper (s : string) : string :=
  of_bytes (map (fun c => let n := nat_of_ascii c in if (97 <=? n)%nat && (n <=? 122)%nat then ascii_of_nat (n - 32) else c) (to_bytes s)).

Definition patterns : list string := ["q4_k_m"; "q4_k_s"; "q5_k_m"; "q5_k_s"; "q8_0"; "q2_k"; "fp16"; "fp32"; "q6_k"].

Definition ParseQuantizationFromName (lower : string -> string) (name : string) : string :=
  match List.find (Contains (lower name)) patterns with Some q => upper q | None => "" end.

(** ** Engines ([engines.go]) *)

Definition engineNames : list string := ["llama-server"; "llama-cli"; "ollama"; "lmstudio"; "vllm"].
Definition binaryPaths : list string := ["/usr/local/bin"; "/usr/bin"; "/usr/local/cuda/bin"; "/opt/conda/bin"].

(** What the engines' detection reads: whether a path exists, the names in
    [/proc], which of them start with a number, and the command line of each. *)
Record engine_files := {
  ef_exists : string -> bool;
  ef_proc : option (list string);
  ef_numeric : string -> bool;
  ef_cmdline : string -> option string;
}.

Definition detectEnginesFromProc (e : engine_files) : list string :=
  omap (fun pid => if ef_numeric e pid then cmdline ← ef_cmdline e pid; List.find (Contains cmdline) engineNames else None)
    (default [] (ef_proc e)).

Definition detected (join : string -> string -> string) (e : engine_files) : gset string :=
  list_to_set (List.filter (fun name => existsb (fun dir => ef_exists e (join dir name)) binaryPaths) engineNames) ∪
  list_to_set (detectEnginesFromProc e).

(** [range] is the order of the map. *)
Definition DetectEngines (join : string -> string -> string) (range : gset string -> list string) (e : engine_files) : list string :=
  range (detected join e).

(** ** The aggregator ([config.go], [aggregator.go]) *)

Record Config := { ca_ModelConfigPath : string; ca_SysfsPath : string; ca_ProcPath : string; ca_RefreshInterval : Duration }.

Definition Defaults : Config :=
  {| ca_ModelConfigPath := "/etc/infermesh/models.yaml"; ca_SysfsPath := "/sys"; ca_ProcPath := "/proc"; ca_RefreshInterval := 5 * minute |}.

Definition Validate (c : Config) : Config :=
  {| ca_ModelConfigPath := ca_ModelConfigPath c;
     ca_SysfsPath := if String.eqb (ca_SysfsPath c) "" then "/sys" else ca_SysfsPath c;
     ca_ProcPath := if String.eqb (ca_ProcPath c) "" then "/proc" else ca_ProcPath c;
     ca_RefreshInterval := if ca_RefreshInterval c <=? 0 then 5 * minute else ca_RefreshInterval c |}.

Record Aggregator := { ag_config : Config; ag_capabilities : Capabilities; ag_lastUpdate : Time }.

Definition NewAggregator (c : Config) : Aggregator :=
  {| ag_config := Validate c; ag_capabilities := zero_Capabilities; ag_lastUpdate := zero_time |}.

Definition no_gpu : GPUInfo :=
  {| gpu_Vendor := "none"; gpu_Model := "no GPU detected"; gpu_ComputeCore := 0; gpu_TotalVRAM := 0; gpu_FreeVRAM := 0 |}.

(** The GPU and its memory, of the platform's answer and whether it is an error. *)
Definition gpu_part (answer : option platform_GPU * bool) : GPUInfo * MemoryInfo :=
  match answer with
  | (_, true) => (zero_GPUInfo, zero_MemoryInfo)
  | (Some g, false) =>
      if negb (String.eqb (pg_Model g) "") && negb (String.eqb (pg_Model g) "no GPU detected") then
        ({| gpu_Vendor := pg_Vendor g; gpu_Model := pg_Model g; gpu_ComputeCore := pg_ComputeCore g; gpu_TotalVRAM := pg_TotalVRAM g;
            gpu_FreeVRAM := pg_FreeVRAM g |}, {| mem_TotalMB := pg_TotalVRAM g; mem_FreeMB := pg_FreeVRAM g |})
      else (no_gpu, zero_MemoryInfo)
  | (None, false) => (no_gpu, zero_MemoryInfo)
  end.

(** [models], [engines] and [system] are the other sources; [None] is an error, and
    [Some None] no models file. *)
Definition Detect (now : Time) (models : option (option (list ModelConfig))) (engines : list string) (system : option SystemMetrics)
    (a : Aggregator) : Aggregator * Capabilities :=
  let '(gpu, vram) := gpu_part DetectGPUPlatform in
  let caps :=
    {| cap_GPU := gpu; cap_Models := match models with Some (Some l) => map ToModelInfo l | _ => [] end; cap_Engines := engines; cap_VRAM := vram;
       cap_System :=
         match system with
         | None => zero_MemoryInfo
         | Some m => {| mem_TotalMB := wrap64 (sm_MemoryUsedMB m + sm_MemoryFreeMB m); mem_FreeMB := sm_MemoryFreeMB m |}
         end;
       cap_AllowedModels := []; cap_ExcludedModels := []; cap_ConcurrencyCap := 0; cap_Threads := 0; cap_InferenceStats := [] |} in
  ({| ag_config := ag_config a; ag_capabilities := caps; ag_lastUpdate := now |}, caps).

Definition Get (a : Aggregator) : Capabilities := ag_capabilities a.
Definition GetLastUpdate (a : Aggregator) : Time := ag_lastUpdate a.

(** The answers to one detection, and the loop of [StartRefresh] with one set of
    answers for the first detection and for each tick before the end. *)
Record answers := { an_now : Time; an_models : option (option (list ModelConfig)); an_engines : list string; an_system : option SystemMetrics }.

Definition detect (a : Aggregator) (x : answers) : Aggregator := (Detect (an_now x) (an_models x) (an_engines x) (an_system x) a).1.
Definition StartRefresh (first : answers) (ticks : list answers) (a : Aggregator) : Aggregator := foldl detect (detect a first) ticks.

(** ** The GPU *)

(** What a worker detects of its GPU.  Whatever the host has and however often
    the detection is repeated, the capabilities that a worker registers with have
    no GPU and no video memory, so that the router's scheduler gives every such
    worker half of the marks for free memory and half of those for utilisation,
    whatever its load and for any model, and rejects it for every request that
    bounds the memory. *)
Theorem gpu_never_scored `{B : WorkerBackend} first ticks config h c addr_string cache load have model :
  h_regCaps h = Get (StartRefresh first ticks (NewAggregator config)) ->
  let w := buildRegistrationInfo h c in
  let sw := toSchedulerWorker addr_string cache w load have model in
  cap_GPU (wi_Capabilities w) = no_gpu /\ cap_VRAM (wi_Capabilities w) = zero_MemoryInfo /\
  vramFreeRatio sw = f05 /\ gpuUtilScore sw = f05 /\
  forall request, 0 < rq_MaxVRAMMB request \/ 0 < rq_MinVRAMMB request -> FilterByVRAM request [sw] = [].
Proof.
  intros Hc w sw.
  assert (Hd : forall a, cap_GPU (ag_capabilities (detect a first)) = no_gpu /\ cap_VRAM (ag_capabilities (detect a first)) = zero_MemoryInfo) by done.
  assert (Hg : cap_GPU (h_regCaps h) = no_gpu /\ cap_VRAM (h_regCaps h) = zero_MemoryInfo).
  { rewrite Hc. clear Hc. unfold Get, StartRefresh. revert Hd. generalize (NewAggregator config). intros a Hd. specialize (Hd a). revert Hd.
    generalize (detect a first). induction ticks as [|x ticks IH]; intros a' Ha; [exact Ha|]. by apply IH. }
  assert (Hw : cap_GPU (wi_Capabilities w) = no_gpu /\ cap_VRAM (wi_Capabilities w) = zero_MemoryInfo).
  { subst w. unfold buildRegistrationInfo. case_match; exact Hg. }
  destruct Hw as [Hwg Hwv].
  assert (Hz : sw_VRAMTotalMB sw = 0 /\ sw_VRAMFreeMB sw = 0 /\ sw_GPUUtilPct sw = of_int (-1)).
  { subst sw. unfold toSchedulerWorker. rewrite Hwv. simpl. by repeat case_match. }
  destruct Hz as (Ht & Hf & Hu). split_and!; [done|done|unfold vramFreeRatio; by rewrite Ht|unfold gpuUtilScore; by rewrite Hu|].
  intros request Hr. unfold FilterByVRAM. simpl. rewrite Hf.
  destruct (Z.ltb_spec 0 (rq_MaxVRAMMB request)), (Z.ltb_spec 0 (rq_MinVRAMMB request)); simpl;
    repeat match goal with |- context [?a <? ?b] => destruct (Z.ltb_spec a b); simpl end; try done; lia.
Qed.

(** ** The memory of a Linux host *)

(** The lines of [/proc/meminfo]: a value in KB with the spaces before it, or any
    other line. *)
Inductive mem_field := Total | Free | Available.
Inductive mem_item := Value (f : mem_field) (spaces : nat) (n : N) | Other (line : string).

#[export] Instance mem_field_eq_dec : EqDecision mem_field.
Proof. solve_decision. Defined.

Definition field_name (f : mem_field) : string :=
  match f with Total => "MemTotal:" | Free => "MemFree:" | Available => "MemAvailable:" end.

Definition item_line (i : mem_item) : bytes :=
  match i with
  | Value f k n => to_bytes (field_name f) ++ repeat space (S k) ++ to_bytes (pretty n) ++ repeat space 1 ++ to_bytes "kB"
  | Other line => to_bytes line
  end.

Definition plain_item (i : mem_item) : Prop :=
  match i with
  | Value _ _ n => Z.of_N n <= max_int64
  | Other line => ~ newline ∈ to_bytes line /\ forall f, HasPrefix (TrimSpace line) (field_name f) = false
  end.

Definition mem_file (items : list mem_item) : string := of_bytes (concat (map (fun i => item_line i ++ [newline]) items)).

(** The last value of a field, in MB. *)
Definition last_mb (f : mem_field) (items : list mem_item) : Z :=
  default 0 ((fun n => Z.quot (Z.of_N n) 1024) <$> last (omap (fun i => match i with Value g _ n => if decide (f = g) then Some n else None | Other _ => None end) items)).

Lemma digit_solid c : digit c <> None -> solid c.
Proof.
  destruct c as [[] [] [] [] [] [] [] []]; intros Hd; try (by destruct Hd); apply solid_dec_true; reflexivity.
Qed.

Lemma digits_solid s : forall acc v, digits s acc = Some v -> Forall solid (to_bytes s).
Proof.
  induction s as [|c s IH]; intros acc v Hd; [constructor|]. simpl in Hd. apply bind_Some in Hd as (x & Hx & Hd).
  constructor; [apply digit_solid; congruence|by eapply IH].
Qed.

Lemma pretty_word (n : N) : word (to_bytes (pretty n)).
Proof.
  pose proof (unsigned_pretty n) as Hu. unfold unsigned in Hu. destruct (String.eqb_spec (pretty n) "") as [|Hne]; [done|].
  split; [by rewrite to_bytes_nil|by eapply digits_solid].
Qed.

Lemma literal_word s : forallb (fun c => forallb (fun p => negb (bool_decide (c ∈ p))) spaces) (to_bytes s) = true -> s <> "" -> word (to_bytes s).
Proof.
  intros Hs Hne. split; [by rewrite to_bytes_nil|]. apply Forall_forall. intros c Hc. apply solid_dec_true.
  rewrite forallb_forall in Hs. by apply Hs, list_elem_of_In.
Qed.

Lemma field_word f : word (to_bytes (field_name f)).
Proof. destruct f; by apply literal_word. Qed.

Lemma length_of_bytes l : String.length (of_bytes l) = length l.
Proof. induction l as [|c l IH]; [done|]. simpl. by rewrite IH. Qed.

Lemma value_fields f k n : Fields (of_bytes (item_line (Value f k n))) = [field_name f; pretty n; "kB"].
Proof.
  unfold Fields. rewrite length_of_bytes, to_of_bytes. unfold item_line. rewrite !length_app, !repeat_length.
  rewrite fields_gap by apply field_word. rewrite fields_gap by apply pretty_word.
  rewrite <-(Nat.add_0_r (length (to_bytes "kB"))), fields_last by by apply literal_word. simpl. by rewrite !of_to_bytes.
Qed.

Lemma value_trimmed f k n : TrimSpace (of_bytes (item_line (Value f k n))) = of_bytes (item_line (Value f k n)).
Proof.
  apply TrimSpace_id. rewrite to_of_bytes. unfold item_line.
  replace (repeat space (S k) ++ _) with ((repeat space (S k) ++ to_bytes (pretty n) ++ repeat space 1) ++ to_bytes "kB") by by rewrite <-!(assoc_L (++)).
  apply trimmed_words; [apply field_word|by apply literal_word].
Qed.

Lemma value_prefix f g k n : HasPrefix (of_bytes (item_line (Value f k n))) (field_name g) = bool_decide (f = g).
Proof. unfold HasPrefix. rewrite to_of_bytes. unfold item_line. by destruct f, g. Qed.

Definition set_mem (f : mem_field) (v : Z) (m : meminfo) : meminfo :=
  match f with
  | Total => {| mi_total := v; mi_free := mi_free m; mi_available := mi_available m |}
  | Free => {| mi_total := mi_total m; mi_free := v; mi_available := mi_available m |}
  | Available => {| mi_total := mi_total m; mi_free := mi_free m; mi_available := v |}
  end.

Lemma mem_line_item m i :
  plain_item i -> mem_line m (of_bytes (item_line i)) = match i with Value f _ n => set_mem f (Z.quot (Z.of_N n) 1024) m | Other _ => m end.
Proof.
  intros Hi. destruct i as [f k n|line].
  - unfold mem_line, kb_field. rewrite value_trimmed, value_fields, ParseInt_pretty by done.
    pose proof (value_prefix f Total k n) as H1. pose proof (value_prefix f Free k n) as H2. pose proof (value_prefix f Available k n) as H3.
    cbn [field_name] in H1, H2, H3. rewrite H1, H2, H3. by destruct f.
  - destruct Hi as [_ Hi]. unfold mem_line, item_line. rewrite of_to_bytes.
    pose proof (Hi Total) as H1. pose proof (Hi Free) as H2. pose proof (Hi Available) as H3. cbn [field_name] in H1, H2, H3. by rewrite H1, H2, H3.
Qed.

Lemma newline_space : ~ solid newline.
Proof. intros H. apply (H [newline]); [|set_solver]. apply (bool_decide_unpack _). vm_compute. exact I. Qed.

Lemma item_no_newline i : plain_item i -> ~ newline ∈ item_line i.
Proof.
  assert (Hw : forall l, word l -> ~ newline ∈ l).
  { intros l [_ Hl] Hin. rewrite Forall_forall in Hl. by apply newline_space, Hl. }
  assert (Hr : forall k, ~ newline ∈ repeat space k).
  { intros k Hin. apply list_elem_of_In, repeat_spec in Hin. done. }
  destruct i as [f k n|line]; intros Hi; [|apply Hi]. unfold item_line. rewrite !not_elem_of_app.
  split_and!; [apply Hw, field_word|apply Hr|apply Hw, pretty_word|apply Hr|by apply Hw, literal_word].
Qed.

Lemma mem_file_lines items : Forall plain_item items -> Split (mem_file items) newline = map (fun i => of_bytes (item_line i)) items ++ [""].
Proof.
  intros Hi. unfold Split, mem_file. rewrite to_of_bytes. induction Hi as [|i items Hi _ IH]; [done|].
  simpl. rewrite <-(assoc_L (++)). simpl. rewrite split_bytes_app by by apply item_no_newline. simpl. by rewrite IH.
Qed.

Lemma last_mb_snoc f items i :
  last_mb f (items ++ [i]) = match i with Value g _ n => if decide (f = g) then Z.quot (Z.of_N n) 1024 else last_mb f items | Other _ => last_mb f items end.
Proof.
  unfold last_mb. rewrite omap_app. destruct i as [g k n|line]; simpl; [|by rewrite app_nil_r].
  case_decide; [by rewrite last_snoc|by rewrite app_nil_r].
Qed.

Lemma mem_fold items :
  Forall plain_item items ->
  foldl mem_line {| mi_total := 0; mi_free := 0; mi_available := 0 |} (map (fun i => of_bytes (item_line i)) items) =
    {| mi_total := last_mb Total items; mi_free := last_mb Free items; mi_available := last_mb Available items |}.
Proof.
  induction items as [|i items IH] using rev_ind; intros Hi; [done|]. rewrite Forall_app, Forall_singleton in Hi. destruct Hi as [Hi Hx].
  rewrite map_app, foldl_app. cbn [map foldl]. rewrite IH, mem_line_item by done. rewrite !last_mb_snoc. by destruct i as [[] k n|].
Qed.

Lemma last_mb_range f items : Forall plain_item items -> 0 <= last_mb f items <= max_int64.
Proof.
  intros Hi. induction items as [|i items IH] using rev_ind; [done|]. rewrite Forall_app, Forall_singleton in Hi. destruct Hi as [Hi Hx].
  rewrite last_mb_snoc. specialize (IH Hi). destruct i as [g k n|]; [|done]. case_decide; [|done]. simpl in Hx.
  pose proof (Z.quot_pos (Z.of_N n) 1024 ltac:(lia) ltac:(lia)). pose proof (Z.quot_le_upper_bound (Z.of_N n) 1024 max_int64 ltac:(lia)).
  unfold max_int64 in *. lia.
Qed.

(** The memory that a Linux worker reports.  Of a file whose lines are the
    three values in KB, in any order and with any others, the capabilities have in
    MB the total as it is written and as free memory the available one, or the
    free one where the available one is missing or below a megabyte. *)
Theorem linux_memory parse_float loadavg disk items sysctl memsize vm_stat now models engines a :
  Forall plain_item items ->
  let h := {| hf_loadavg := loadavg; hf_meminfo := Some (mem_file items); hf_sysctl_load := sysctl; hf_memsize := memsize;
              hf_vm_stat := vm_stat; hf_disk := disk |} in
  cap_System (Detect now models engines (CollectSystemMetrics parse_float Linux h) a).2 =
    {| mem_TotalMB := last_mb Total items;
       mem_FreeMB := if 0 <? last_mb Available items then last_mb Available items else last_mb Free items |}.
Proof.
  intros Hi h. pose proof (last_mb_range Total _ Hi) as H1. pose proof (last_mb_range Free _ Hi) as H2. pose proof (last_mb_range Available _ Hi) as H3.
  simpl. unfold collectLinuxSystemMetrics, readMemoryInfo. simpl. rewrite mem_file_lines, foldl_app, mem_fold by done. cbn [foldl].
  assert (Hl : forall m, mem_line m "" = m) by done. rewrite Hl. simpl.
  unfold max_int64 in *. destruct (Z.ltb_spec 0 (last_mb Available items)); simpl; f_equal; rewrite !wrap64_id;
    unfold in_int64, min_int64, max_int64; rewrite ?wrap64_id; unfold in_int64, min_int64, max_int64; lia.
Qed.

(** ** The memory of a macOS host *)

(** A line of [vm_stat]: the count is followed by a full stop. *)
Definition page_text (k : nat) (n : N) : bytes :=
  to_bytes "Pages" ++ repeat space 1 ++ to_bytes "free:" ++ repeat space (S k) ++ to_bytes (pretty n +:+ ".").

Lemma page_fields k n : Fields (of_bytes (page_text k n)) = ["Pages"; "free:"; pretty n +:+ "."].
Proof.
  assert (Hp : word (to_bytes (pretty n +:+ "."))).
  { rewrite to_bytes_app. destruct (pretty_word n) as [Hne Hs]. split; [by destruct (to_bytes (pretty n))|].
    apply Forall_app. split; [done|]. apply Forall_singleton. by apply solid_dec_true. }
  unfold Fields. rewrite length_of_bytes, to_of_bytes. unfold page_text. rewrite !length_app, !repeat_length.
  rewrite (fields_gap _ 0) by by apply literal_word. rewrite fields_gap by by apply literal_word.
  rewrite <-(Nat.add_0_r (length (to_bytes (pretty n +:+ ".")))), fields_last by done. simpl. by rewrite of_to_bytes.
Qed.

(** The memory that a macOS worker reports.  The count of free pages is read
    with the full stop that ends it, which is no number: whatever is free, the
    worker reports none, and all its memory as used. *)
Theorem darwin_memory parse_float m bytes out loadavg meminfo load disk :
  ParseInt (TrimSpace m) = (bytes, true) ->
  (forall line, line ∈ Split out newline -> Contains line "Pages free" = true -> exists k n, line = of_bytes (page_text k n)) ->
  let h := {| hf_loadavg := loadavg; hf_meminfo := meminfo; hf_sysctl_load := load; hf_memsize := Some m; hf_vm_stat := Some out; hf_disk := disk |} in
  exists s, CollectSystemMetrics parse_float Darwin h = Some s /\ sm_MemoryFreeMB s = 0 /\ sm_MemoryUsedMB s = Z.quot bytes 1048576.
Proof.
  intros Hm Hl h. eexists. split; [reflexivity|]. unfold collectDarwinSystemMetrics, readDarwinMemoryInfo. cbn [hf_memsize hf_vm_stat h].
  cbn [mbind option_bind]. rewrite Hm.
  assert (Hf : foldl page_line 0 (Split out newline) = 0).
  { revert Hl. generalize (Split out newline). intros l Hl. induction l as [|line l IH]; [done|]. cbn [foldl].
    assert (Hz : page_line 0 line = 0).
    { unfold page_line. destruct (Contains line "Pages free") eqn:Hc; [|done].
      destruct (Hl line ltac:(set_solver) Hc) as (k & n & ->). rewrite page_fields.
      by rewrite (ParseInt_spoilt "."%char n "" eq_refl). }
    rewrite Hz. apply IH. intros line' Hin. apply Hl. set_solver. }
  rewrite Hf. simpl. split; [done|]. rewrite Z.sub_0_r. apply wrap64_id.
  assert (Hr : in_int64 bytes).
  { revert Hm. unfold ParseInt, saturate. repeat case_match; intros [= <-]; unfold in_int64, min_int64, max_int64 in *; lia. }
  unfold in_int64, min_int64, max_int64 in *. split.
  - apply Z.quot_le_lower_bound; lia.
  - apply Z.quot_le_upper_bound; lia.
Qed.

(** ** Engines and quantizations *)

(** The engines that are found: those of the five names with a binary in one of
    the four directories, or which a process has in its command line before the
    others of the list; each of them once. *)
Theorem engines_found join range e :
  (forall s, range s ≡ₚ elements s) ->
  NoDup (DetectEngines join range e) /\
  forall name, name ∈ DetectEngines join range e <->
    (name ∈ engineNames /\ exists dir, dir ∈ binaryPaths /\ ef_exists e (join dir name) = true) \/
    (exists pids pid cmdline, ef_proc e = Some pids /\ pid ∈ pids /\ ef_numeric e pid = true /\ ef_cmdline e pid = Some cmdline /\
       List.find (Contains cmdline) engineNames = Some name).
Proof.
  intros Hr. unfold DetectEngines. rewrite Hr. split; [apply NoDup_elements|]. intros name. rewrite Hr, elem_of_elements. unfold detected.
  rewrite elem_of_union, !elem_of_list_to_set. f_equiv.
  - rewrite list_elem_of_In, filter_In, existsb_exists, <-list_elem_of_In. by setoid_rewrite list_elem_of_In.
  - unfold detectEnginesFromProc. rewrite list_elem_of_omap. split.
    + intros (pid & Hpid & Hf). destruct (ef_numeric e pid) eqn:Hn; [|done]. apply bind_Some in Hf as (cmdline & Hc & Hf).
      destruct (ef_proc e) as [pids|]; [|by apply not_elem_of_nil in Hpid]. by exists pids, pid, cmdline.
    + intros (pids & pid & cmdline & -> & Hpid & Hn & Hc & Hf). exists pid. split; [done|]. by rewrite Hn, Hc.
Qed.

(** What is taken from a file's name is a recognised quantization that the name
    contains, or nothing. *)
Lemma quantization_recognised lower name :
  ParseQuantizationFromName lower name = "" \/
  ValidateQuantization (ParseQuantizationFromName lower name) = true /\
    exists p, p ∈ patterns /\ Contains (lower name) p = true /\ ParseQuantizationFromName lower name = upper p.
Proof.
  unfold ParseQuantizationFromName. destruct (List.find _ patterns) as [p|] eqn:Hf; [|by left]. right.
  apply find_some in Hf as [Hin Hc]. split; [|exists p; by rewrite list_elem_of_In].
  assert (Hall : forallb (fun p => ValidateQuantization (upper p)) patterns = true) by (vm_compute; reflexivity).
  rewrite forallb_forall in Hall. by apply Hall.
Qed.

(** ** Concrete hosts *)

Definition ex_items : list mem_item :=
  [Value Total 7 16384000; Value Free 8 1024000; Other "Buffers:  10 kB"; Value Available 3 8192000].

Lemma ex_items_plain : Forall plain_item ex_items.
Proof.
  unfold ex_items. rewrite !Forall_cons, Forall_nil. split_and!; [unfold plain_item, max_int64; lia..| |unfold plain_item, max_int64; lia|done].
  split; [|by intros []]. apply (bool_decide_unpack _). vm_compute. exact I.
Qed.

Definition ex_linux : host_files :=
  {| hf_loadavg := Some "0.52 0.58 0.59 1/467 1"; hf_meminfo := Some (mem_file ex_items); hf_sysctl_load := None; hf_memsize := None; hf_vm_stat := None;
     hf_disk := None |}.

Lemma linux_memory_witness :
  cap_System (Detect 0 None [] (CollectSystemMetrics (fun _ => None) Linux ex_linux) (NewAggregator Defaults)).2 = {| mem_TotalMB := 16000; mem_FreeMB := 8000 |}.
Proof.
  pose proof (linux_memory (fun _ => None) (Some "0.52 0.58 0.59 1/467 1") None ex_items None None None 0 None [] (NewAggregator Defaults) ex_items_plain) as H.
  etransitivity; [exact H|]. vm_compute. reflexivity.
Defined.

Definition ex_vm_stat : string := of_bytes (to_bytes "Mach Virtual Memory Statistics:" ++ [newline] ++ page_text 30 12345 ++ [newline]).

Lemma ex_vm_lines line : line ∈ Split ex_vm_stat newline -> Contains line "Pages free" = true -> exists k n, line = of_bytes (page_text k n).
Proof.
  replace (Split ex_vm_stat newline) with ["Mach Virtual Memory Statistics:"; of_bytes (page_text 30 12345); ""] by (vm_compute; reflexivity).
  rewrite !elem_of_cons, elem_of_nil. intros [->|[->|[->|[]]]] H; [by vm_compute in H|by exists 30%nat, 12345%N|by vm_compute in H].
Qed.

Lemma darwin_memory_witness :
  exists s, CollectSystemMetrics (fun _ => None) Darwin
      {| hf_loadavg := None; hf_meminfo := None; hf_sysctl_load := None; hf_memsize := Some "17179869184"; hf_vm_stat := Some ex_vm_stat; hf_disk := None |} = Some s /\
    sm_MemoryFreeMB s = 0 /\ sm_MemoryUsedMB s = 16384.
Proof.
  destruct (darwin_memory (fun _ => None) "17179869184" 17179869184 ex_vm_stat None None None None) as (s & Hs & Hf & Hu); [vm_compute; reflexivity|exact ex_vm_lines|].
  exists s. split; [exact Hs|]. split; [exact Hf|]. rewrite Hu. reflexivity.
Defined.

(** The first field of the load that [sysctl] prints is its brace. *)
Example ex_sysctl : Fields (TrimSpace "{ 1.23 1.45 1.67 }") = ["{"; "1.23"; "1.45"; "1.67"; "}"].
Proof. vm_compute. reflexivity. Qed.

Example ex_quantizations :
  map (ParseQuantizationFromName (fun s => s)) ["llama-3-8b-q4_k_m.gguf"; "llama-3-8b-q4_0.gguf"; "llama"] = ["Q4_K_M"; ""; ""] /\ ValidateQuantization "Q4_0" = true.
Proof. vm_compute. done. Qed.

Definition ex_engines : engine_files :=
  {| ef_exists p := String.eqb p "/usr/bin/ollama"; ef_proc := Some ["1"; "self"]; ef_numeric pid := String.eqb pid "1";
     ef_cmdline _ := Some "/opt/vllm --serve ollama" |}.

Lemma engines_found_witness : "ollama" ∈ DetectEngines (fun d x => d +:+ "/" +:+ x) elements ex_engines.
Proof.
  destruct (engines_found (fun d x => d +:+ "/" +:+ x) elements ex_engines) as [_ H]; [reflexivity|].
  apply H. left. split; [apply (bool_decide_unpack _); vm_compute; exact I|]. exists "/usr/bin". split; [apply (bool_decide_unpack _); vm_compute; exact I|reflexivity].
Defined.

#[local] Instance ex_worker_backend : WorkerBackend := WorkerServer.ex_worker.

Definition ex_answers : answers := {| an_now := 0; an_models := None; an_engines := []; an_system := None |}.

Definition ex_handle : Handle :=
  new_handle (fun _ => None) (fun l => l) (run_config ex_env (ex_flags "")) ex_host (Get (StartRefresh ex_answers [] (NewAggregator Defaults))) None.

Lemma gpu_never_scored_witness :
  vramFreeRatio (toSchedulerWorker (fun ip _ => ip) NewCapabilityCache (buildRegistrationInfo ex_handle zero_ReloadableConfig)
    zero_WorkerQueueStats false "") = f05.
Proof.
  apply (gpu_never_scored ex_answers [] Defaults ex_handle zero_ReloadableConfig (fun ip _ => ip) NewCapabilityCache zero_WorkerQueueStats false "" eq_refl).
Defined.
