(* ===== verification/RouterMain.v ===== *)
(** * RouterMain: the router process ([cmd/router/main.go], [ValidateTLSConfig] of [certgen.go])

    The router's command line, the configurations built from it, and start-up
    until the process serves or exits.  The conversions of numbers, files and
    certificates are arguments.  The last part joins the process to the
    transports and middlewares of [Security]. *)

From S2P Require Import Prelude GoFloat GoStrings Numerals Errors Http Protocol Registry Scheduler Selection Aliases AutoRouting Hub Proxy Security.
From S2P Require Import Flags WorkerRun Meta.
From Stdlib Require Import Ascii.

#[local] Open Scope list_scope.

(** ** The command line *)

Record RouterFlags := {
  rf_DevMode : bool;
  rf_ProdMode : bool;
  rf_MTLSCert : string;
  rf_MTLSKey : string;
  rf_CertDir : string;
  rf_APIKey : string;
  rf_TrustedCNs : string;
  rf_Addr : string;
  rf_RelayURL : string;
  rf_MaxInFlight : Z;
  rf_MaxConnections : Z;
  rf_WorkerMaxInFlight : string;
  rf_MaxAttempts : Z;
  rf_RetryBudget : Duration;
  rf_ProxyTimeout : Duration;
  rf_ModelLoadTimeout : Duration;
  rf_ScorerQuantMatch : float64;
  rf_ScorerVRAMFree : float64;
  rf_ScorerGPUUtil : float64;
  rf_ScorerQueueDepth : float64;
  rf_ScorerLatency : float64;
  rf_ScorerMaxQueueDepth : Z;
  rf_ScorerLoadedBonus : float64;
  rf_ScorerColdLoadPenalty : float64;
  rf_ScorerThroughputWeight : float64;
  rf_AutoTierSimple : string;
  rf_AutoTierMedium : string;
  rf_AutoTierComplex : string;
  rf_AutoTierHard : string;
  rf_AutoTierHardest : string;
  rf_AutoSimpleMaxTokens : Z;
  rf_AutoMediumMaxTokens : Z;
  rf_AutoReasoningKeywords : string;
  rf_AutoUseFourTier : bool;
  rf_ModelAlias : string;
}.

Definition router_formal (name : string) : option kind :=
  if existsb (String.eqb name) ["dev-mode"; "prod-mode"; "auto-use-four-tier"] then Some KBool
  else if existsb (String.eqb name)
    ["max-in-flight"; "max-connections"; "max-attempts"; "scorer-max-queue-depth"; "auto-simple-max-tokens";
     "auto-medium-max-tokens"] then Some KInt
  else if existsb (String.eqb name) ["retry-budget"; "proxy-timeout"; "model-load-timeout"] then Some KDuration
  else if existsb (String.eqb name)
    ["scorer-quant-match"; "scorer-vram-free"; "scorer-gpu-util"; "scorer-queue-depth"; "scorer-latency";
     "scorer-loaded-bonus"; "scorer-cold-load-penalty"; "scorer-throughput-weight"] then Some KFloat
  else if existsb (String.eqb name)
    ["mtls-cert"; "mtls-key"; "cert-dir"; "api-key"; "trusted-cn"; "addr"; "relay-url"; "worker-max-in-flight";
     "auto-tier-simple"; "auto-tier-medium"; "auto-tier-complex"; "auto-tier-hard"; "auto-tier-hardest";
     "auto-reasoning-keywords"; "model-alias"] then Some KString
  else None.

Section numbers.
(** The conversions of integers, durations and floats of the [flag] package. *)
Context (int duration : string -> option Z) (float : string -> option float64).

Definition valid_router_flag (k : kind) (v : string) : bool :=
  match k with KInt => converts int v | KDuration => converts duration v | KFloat => converts float v | _ => true end.

Definition router_flags (l : list (string * string)) : RouterFlags :=
  let str name := flag_string l name "" in
  {| rf_DevMode := flag_bool l "dev-mode" false; rf_ProdMode := flag_bool l "prod-mode" false; rf_MTLSCert := str "mtls-cert";
     rf_MTLSKey := str "mtls-key"; rf_CertDir := str "cert-dir"; rf_APIKey := str "api-key"; rf_TrustedCNs := str "trusted-cn";
     rf_Addr := flag_string l "addr" ":8080"; rf_RelayURL := str "relay-url"; rf_MaxInFlight := flag_value int l "max-in-flight" 0;
     rf_MaxConnections := flag_value int l "max-connections" 0; rf_WorkerMaxInFlight := str "worker-max-in-flight";
     rf_MaxAttempts := flag_value int l "max-attempts" 3; rf_RetryBudget := flag_value duration l "retry-budget" (60 * second);
     rf_ProxyTimeout := flag_value duration l "proxy-timeout" (120 * second);
     rf_ModelLoadTimeout := flag_value duration l "model-load-timeout" (120 * second);
     rf_ScorerQuantMatch := flag_value float l "scorer-quant-match" f0;
     rf_ScorerVRAMFree := flag_value float l "scorer-vram-free" f0; rf_ScorerGPUUtil := flag_value float l "scorer-gpu-util" f0;
     rf_ScorerQueueDepth := flag_value float l "scorer-queue-depth" f0; rf_ScorerLatency := flag_value float l "scorer-latency" f0;
     rf_ScorerMaxQueueDepth := flag_value int l "scorer-max-queue-depth" 0;
     rf_ScorerLoadedBonus := flag_value float l "scorer-loaded-bonus" (dec 15 100);
     rf_ScorerColdLoadPenalty := flag_value float l "scorer-cold-load-penalty" (dec 10 100);
     rf_ScorerThroughputWeight := flag_value float l "scorer-throughput-weight" (dec 10 100);
     rf_AutoTierSimple := str "auto-tier-simple"; rf_AutoTierMedium := str "auto-tier-medium";
     rf_AutoTierComplex := str "auto-tier-complex"; rf_AutoTierHard := str "auto-tier-hard";
     rf_AutoTierHardest := str "auto-tier-hardest"; rf_AutoSimpleMaxTokens := flag_value int l "auto-simple-max-tokens" 0;
     rf_AutoMediumMaxTokens := flag_value int l "auto-medium-max-tokens" 0;
     rf_AutoReasoningKeywords := str "auto-reasoning-keywords"; rf_AutoUseFourTier := flag_bool l "auto-use-four-tier" false;
     rf_ModelAlias := str "model-alias" |}.

Definition parseRouterFlags (args : list string) : option RouterFlags :=
  '(l, _) ← Parse router_formal valid_router_flag args; Some (router_flags l).

(** ** Configurations *)

Definition splitCSV (s : string) : list string :=
  if String.eqb s "" then []
  else List.filter (fun p => negb (String.eqb p "")) (map TrimSpace (Split s ","%char)).

(** The [buildAutoRoutingConfig] of the flags. *)
Definition flags_auto_config (f : RouterFlags) : option AutoRoutingConfig :=
  if forallb (String.eqb "") [rf_AutoTierSimple f; rf_AutoTierMedium f; rf_AutoTierComplex f; rf_AutoTierHard f; rf_AutoTierHardest f]
  then None
  else
    let cfg := DefaultAutoRoutingConfig in
    let models : gmap Z string :=
      <[TierComplex := rf_AutoTierComplex f]> (<[TierMedium := rf_AutoTierMedium f]> {[ TierSimple := rf_AutoTierSimple f ]}) in
    let models := if negb (String.eqb (rf_AutoTierHard f) "") then <[TierHard := rf_AutoTierHard f]> models else models in
    let models := if negb (String.eqb (rf_AutoTierHardest f) "") then <[TierHardest := rf_AutoTierHardest f]> models else models in
    Some {| Models := Some models;
            SimpleMaxTokens := if 0 <? rf_AutoSimpleMaxTokens f then rf_AutoSimpleMaxTokens f else SimpleMaxTokens cfg;
            MediumMaxTokens := if 0 <? rf_AutoMediumMaxTokens f then rf_AutoMediumMaxTokens f else MediumMaxTokens cfg;
            ReasoningKeywords := splitCSV (rf_AutoReasoningKeywords f); ReasoningPhrases := []; SimplePhrases := [];
            UseFourTierMode := rf_AutoUseFourTier f |}.

Definition buildModelAliasConfig (f : RouterFlags) : option (gmap string AliasTarget) := ParseModelAliases (rf_ModelAlias f).

(** One pair of [--worker-max-in-flight]. *)
Definition worker_cap (pair : string) : option (string * Z) :=
  '(id, cap) ← Cut pair "="%char;
  let id := TrimSpace id in
  if String.eqb id "" then None else n ← Atoi (TrimSpace cap); Some (id, n).

Definition worker_caps (s : string) : list (string * Z) :=
  if String.eqb s "" then [] else omap worker_cap (Split s ","%char).

(** ** TLS files *)

Section files.
(** The failure of [os.Stat], [os.ReadFile], the first PEM block (its type), and
    whether the key pair loads and the certificate parses. *)
Context (stat : string -> bool) (read_file : string -> option string) (pem_block : string -> option string).
Context (load_pair : string -> string -> bool) (parse_certificate : string -> bool) (join : string -> string -> string).

(** [true] for no error. *)
Definition ValidateTLSConfig (certFile keyFile caCertFile : string) : bool :=
  negb (String.eqb certFile "") && negb (String.eqb keyFile "") && negb (String.eqb caCertFile "") &&
  stat certFile && stat keyFile && stat caCertFile && load_pair certFile keyFile &&
  match read_file caCertFile with
  | None => false
  | Some pem => match pem_block pem with None => false | Some type => String.eqb type "CERTIFICATE" && parse_certificate pem end
  end.

(** ** Start-up *)

(** A process that runs: its server, with the scoring fields, the configuration
    of the middlewares, and whether it listens for mDNS and dials a relay. *)
Record router_process := {
  rp_srv : Server;
  rp_scoring : scoring;
  rp_security : Config;
  rp_addr : string;
  rp_listener : bool;
  rp_relay : option string;
}.

Inductive outcome := Exits (code : Z) | Runs (p : router_process).

Definition security_config (env : environment) (f : RouterFlags) : Config :=
  {| sc_DevMode := IsDev (ResolveMode (rf_DevMode f) (rf_ProdMode f)); sc_MTLSCert := rf_MTLSCert f; sc_MTLSKey := rf_MTLSKey f;
     sc_CertDir := rf_CertDir f; sc_APIKey := or_else (rf_APIKey f) (env "INFERMESH_API_KEY"); sc_TrustedCNs := rf_TrustedCNs f |}.

(** The setters in the order of the code. *)
Definition configure (f : RouterFlags) (relayURL apiKey : string) (s : Server) : Server :=
  let s := if 0 <? rf_MaxInFlight f then SetMaxInFlight (rf_MaxInFlight f) s else s in
  let s := if 0 <? rf_MaxConnections f then SetMaxConnections (rf_MaxConnections f) s else s in
  let s := foldl (fun s ic => SetWorkerMaxInFlight ic.1 ic.2 s) s (worker_caps (rf_WorkerMaxInFlight f)) in
  let s := SetRetryBudget (rf_RetryBudget f) (SetMaxAttempts (rf_MaxAttempts f) s) in
  let s := SetModelLoadTimeout (rf_ModelLoadTimeout f) (SetProxyTimeout (rf_ProxyTimeout f) s) in
  let s := match flags_auto_config f with Some c => SetAutoRouting (Some c) s | None => s end in
  let s := match buildModelAliasConfig f with Some c => SetModelAliases (Some c) s | None => s end in
  let s := if negb (String.eqb relayURL "") then upd_hub (Hub.SetRelayURL relayURL) s else s in
  if negb (String.eqb apiKey "") then SetAPIKey apiKey s else s.

Definition flags_scoring (f : RouterFlags) : scoring :=
  SetScorerThroughputWeight (rf_ScorerThroughputWeight f)
    (SetScorerWeights (rf_ScorerQuantMatch f) (rf_ScorerVRAMFree f) (rf_ScorerGPUUtil f) (rf_ScorerQueueDepth f)
       (rf_ScorerLatency f) (rf_ScorerLoadedBonus f) (rf_ScorerColdLoadPenalty f) (rf_ScorerMaxQueueDepth f) NewScoring).

(** [runRouter] until it waits for a signal; [listener] is whether the mDNS
    listener could be made and started. *)
Definition runRouter (env : environment) (listener : bool) (args : list string) : outcome :=
  match parseRouterFlags args with
  | None => Exits 2
  | Some f =>
      let mode := ResolveMode (rf_DevMode f) (rf_ProdMode f) in
      match Registry.New Registry.Defaults with
      | inr _ => Exits 1
      | inl reg =>
          if negb (IsDev mode) && negb listener then Exits 1
          else
            let cfg := security_config env f in
            if negb (IsDev mode) && negb (ValidateTLSConfig (rf_MTLSCert f) (rf_MTLSKey f) (join (rf_CertDir f) "ca.crt"))
            then Exits 1
            else
              let relayURL := or_else (rf_RelayURL f) (env "INFERMESH_RELAY_URL") in
              Runs {| rp_srv := configure f relayURL (sc_APIKey cfg) (NewServer (Some reg) (IsDev mode) (sc_APIKey cfg));
                      rp_scoring := flags_scoring f; rp_security := cfg; rp_addr := rf_Addr f;
                      rp_listener := negb (IsDev mode);
                      rp_relay := if String.eqb relayURL "" then None else Some relayURL |}
      end
  end.

(** ** What a router that runs is *)

Lemma runs_inv env listener args p :
  runRouter env listener args = Runs p ->
  exists f, parseRouterFlags args = Some f /\ rp_security p = security_config env f /\ rp_addr p = rf_Addr f /\
    (rp_listener p = true -> listener = true) /\
    (sc_DevMode (rp_security p) = false ->
       ValidateTLSConfig (rf_MTLSCert f) (rf_MTLSKey f) (join (rf_CertDir f) "ca.crt") = true) /\
    exists reg, rp_srv p = configure f (or_else (rf_RelayURL f) (env "INFERMESH_RELAY_URL")) (sc_APIKey (rp_security p))
      (NewServer (Some reg) (sc_DevMode (rp_security p)) (sc_APIKey (rp_security p))).
Proof using.
  unfold runRouter. destruct (parseRouterFlags args) as [f|]; [|done]. destruct (Registry.New Registry.Defaults) as [reg|]; [|done].
  destruct (IsDev (ResolveMode (rf_DevMode f) (rf_ProdMode f))) eqn:Em; simpl.
  - intros [= <-]. exists f. simpl. rewrite Em. split_and!; [done..|]. by exists reg.
  - destruct listener; simpl; [|done]. destruct (ValidateTLSConfig _ _ _) eqn:Ev; simpl; [|done].
    intros [= <-]. exists f. simpl. rewrite Em. split_and!; [done..|]. by exists reg.
Qed.

(** The setters do not touch the key but to set it again. *)
Definition keyed (key : string) (s : Server) : Prop :=
  rt_apiKey s = key /\ exists h, rt_hub s = Some h /\ hc_apiKey (h_cfg h) = key.

Lemma upd_hub_keyed key f s : (forall h, hc_apiKey (h_cfg (f h)) = hc_apiKey (h_cfg h)) -> keyed key s -> keyed key (upd_hub f s).
Proof using. intros Hf [Hk (h & Hh & Hhk)]. split; [done|]. exists (f h). unfold upd_hub. simpl. rewrite Hh, Hf. by split. Qed.

Lemma configure_keyed f relay key reg dev : keyed key (configure f relay key (NewServer reg dev key)).
Proof using.
  unfold configure. set (s0 := NewServer reg dev key).
  assert (H0 : keyed key s0) by (split; [done|by eexists]).
  assert (Hi : forall b g s, (forall h, hc_apiKey (h_cfg (g h)) = hc_apiKey (h_cfg h)) -> keyed key s ->
    keyed key (if b : bool then upd_hub g s else s)).
  { intros b g s Hg Hs. destruct b; [by apply upd_hub_keyed|done]. }
  assert (Hsame : forall (g : Server -> Server) s, rt_apiKey (g s) = rt_apiKey s -> rt_hub (g s) = rt_hub s -> keyed key s -> keyed key (g s)).
  { intros g s Ha Hh. unfold keyed. by rewrite Ha, Hh. }
  set (s1 := if 0 <? rf_MaxInFlight f then _ else s0). assert (H1 : keyed key s1) by by apply Hi.
  clearbody s1. set (s2 := if 0 <? rf_MaxConnections f then _ else s1).
  assert (H2 : keyed key s2) by by apply Hi. clearbody s2.
  set (s3 := foldl _ s2 _). assert (H3 : keyed key s3).
  { subst s3. generalize (worker_caps (rf_WorkerMaxInFlight f)) as l. clear -H2. intros l. revert s2 H2. induction l as [|ic l IH]; intros s H; [done|].
    simpl. apply IH, upd_hub_keyed; [|done]. intros h. unfold Hub.SetWorkerMaxInFlight. by destruct (_ <=? _). }
  clearbody s3. set (s4 := SetModelLoadTimeout _ _). assert (H4 : keyed key s4) by done. clearbody s4.
  set (s5 := match flags_auto_config f with Some c => _ | None => s4 end).
  assert (H5 : keyed key s5) by by (subst s5; destruct (flags_auto_config f)). clearbody s5.
  set (s6 := match buildModelAliasConfig f with Some c => _ | None => s5 end).
  assert (H6 : keyed key s6) by by (subst s6; destruct (buildModelAliasConfig f)). clearbody s6.
  set (s7 := if negb (String.eqb relay "") then _ else s6). assert (H7 : keyed key s7) by by apply Hi. clearbody s7.
  destruct (String.eqb key ""); simpl; [done|]. destruct H7 as [_ (h & Hh & _)]. split; [done|].
  unfold SetAPIKey, upd_hub. simpl. rewrite Hh. by eexists.
Qed.

(** The setters of the model configurations are the last ones that touch them. *)
Lemma configure_models f relay key reg dev k :
  let s := configure f relay key (NewServer reg dev k) in
  rt_modelAliases s = buildModelAliasConfig f /\ rt_autoRouting s = flags_auto_config f.
Proof using.
  intros s. subst s. unfold configure.
  assert (Hfold : forall l s, rt_modelAliases (foldl (fun s ic => SetWorkerMaxInFlight ic.1 ic.2 s) s l) = rt_modelAliases s /\
    rt_autoRouting (foldl (fun s ic => SetWorkerMaxInFlight ic.1 ic.2 s) s l) = rt_autoRouting s).
  { intros l. induction l as [|ic l IH]; intros s; [done|exact (IH (SetWorkerMaxInFlight ic.1 ic.2 s))]. }
  set (s1 := if 0 <? rf_MaxConnections f then _ else _). assert (H1 : rt_modelAliases s1 = None /\ rt_autoRouting s1 = None).
  { subst s1. by destruct (0 <? rf_MaxConnections f), (0 <? rf_MaxInFlight f). }
  clearbody s1. destruct (Hfold (worker_caps (rf_WorkerMaxInFlight f)) s1) as [Ha Hr]. revert Ha Hr. destruct H1 as [-> ->].
  set (s2 := foldl _ s1 _). clearbody s2. intros Ha Hr.
  destruct (flags_auto_config f), (buildModelAliasConfig f), (String.eqb relay ""), (String.eqb key ""); simpl; by rewrite ?Ha, ?Hr.
Qed.

(** C11: who reaches the handlers of a router process.  The key is the flag's, or
    the environment's when the flag is empty, and both the middleware and the hub
    check it; the mode, the certificate directory and the trusted names are the
    flags'.  In production
    the process serves over TLS or not at all: the fallback to plain HTTP cannot
    happen, since start-up needs the certificate files.  A request that reaches
    the handlers comes from a development router or from a peer whose
    certificate is admitted, with the key on the guarded paths.  And a production
    router without a certificate directory passes start-up when the current
    directory has the authority's file, and then serves nobody. *)
Theorem router_process_access split_host parse_ip lookup_ip load env listener args p :
  runRouter env listener args = Runs p ->
  let c := rp_security p in
  let serving := router_serving split_host parse_ip lookup_ip load c (rp_addr p) in
  (exists f, parseRouterFlags args = Some f /\
     sc_APIKey c = (if String.eqb (rf_APIKey f) "" then env "INFERMESH_API_KEY" else rf_APIKey f) /\
     sc_DevMode c = negb (rf_ProdMode f) /\ sc_CertDir c = rf_CertDir f /\ sc_TrustedCNs c = rf_TrustedCNs f) /\
  keyed (sc_APIKey c) (rp_srv p) /\
  (sc_DevMode c = false -> hasAnyMTLSConfig c = true /\ (forall h, serving <> Plain h) /\
     (sc_CertDir c = "" -> serving = Refuses)) /\
  forall r, served serving r ->
    (sc_DevMode c = true \/ admitted_peer (SplitCNs (sc_TrustedCNs c)) r) /\
    (rq_Path r ∈ router_guarded -> sc_APIKey c <> "" -> presented_key r = sc_APIKey c).
Proof using.
  intros H c serving. pose proof (runs_inv _ _ _ _ H) as (f & Hf & Hc & _ & _ & Hv & reg & Hsrv). fold c in Hc, Hv, Hsrv.
  split; [exists f; rewrite Hc; split; [done|]; split; [done|]; split; [by unfold security_config, ResolveMode; simpl; destruct (rf_ProdMode f)|done]|].
  assert (Hany : sc_DevMode c = false -> hasAnyMTLSConfig c = true).
  { intros Hd. specialize (Hv Hd). revert Hv. unfold ValidateTLSConfig. rewrite Hc. unfold hasAnyMTLSConfig. simpl.
    by destruct (String.eqb (rf_MTLSCert f) ""). }
  split; [rewrite Hsrv; apply configure_keyed|]. subst serving. unfold router_serving. split.
  - intros Hd. specialize (Hany Hd). rewrite Hany, Hd. simpl. split_and!; [done|by destruct (hasFullMTLSConfig c), (load c)|].
    intros He. unfold hasFullMTLSConfig. by rewrite He, andb_false_r.
  - intros r. destruct (sc_DevMode c); simpl.
    + intros Hr%guard_passes. split; [by left|]. apply Hr.
    + rewrite (Hany eq_refl). simpl. destruct (hasFullMTLSConfig c), (load c); simpl; try done.
      intros [Hk Hm]%guard_passes. apply mtls_passes in Hm as [Hm _]. split; [by right|done].
Qed.

(** The model of each tier of a router's command line, and its thresholds.  The
    hardest tier is [--auto-tier-hardest]'s or else [--auto-tier-complex]'s.  Unlike
    the settings that come over HTTP, the thresholds are not compared: with the
    simple one at least the medium one, no prompt is classified as medium by its
    length. *)
Theorem cli_auto_tiers f cfg :
  flags_auto_config f = Some cfg ->
  let model m := if String.eqb m "" then None else Some m in
  ResolveModel (Some cfg) TierSimple = model (rf_AutoTierSimple f) /\
  ResolveModel (Some cfg) TierMedium = model (rf_AutoTierMedium f) /\
  ResolveModel (Some cfg) TierHard = model (rf_AutoTierHard f) /\
  ResolveModel (Some cfg) TierHardest = model (or_else (rf_AutoTierHardest f) (rf_AutoTierComplex f)) /\
  autoRoutingActive (Some cfg) = true /\
  (MediumMaxTokens cfg <= SimpleMaxTokens cfg -> forall tokens, classifyByTokens cfg tokens <> TierMedium).
Proof using.
  intros Hcfg model. revert Hcfg. unfold flags_auto_config. destruct (forallb _ _) eqn:Ea; [done|]. intros [= <-].
  set (models := if negb (String.eqb (rf_AutoTierHardest f) "") then _ else _).
  assert (Hm : models !! TierSimple = Some (rf_AutoTierSimple f) /\ models !! TierMedium = Some (rf_AutoTierMedium f) /\
    models !! TierHard = (if String.eqb (rf_AutoTierHard f) "" then None else Some (rf_AutoTierHard f)) /\
    models !! TierHardest = Some (or_else (rf_AutoTierHardest f) (rf_AutoTierComplex f))).
  { subst models. unfold or_else. destruct (String.eqb (rf_AutoTierHardest f) ""), (String.eqb (rf_AutoTierHard f) ""); simpl;
      split_and!; reflexivity. }
  destruct Hm as (H1 & H2 & H3 & H4). clearbody models.
  assert (Hr : forall m, (if decide (m = "") then None else Some m) = model m).
  { intros m. unfold model. destruct (String.eqb_spec m ""); [by rewrite decide_True|by rewrite decide_False]. }
  unfold ResolveModel. cbn [Models]. rewrite H1, H2, H3, H4, !Hr. split_and!; try done.
  - destruct (String.eqb_spec (rf_AutoTierHard f) "") as [E|E]; [unfold model; by rewrite E|by rewrite Hr].
  - simpl. apply existsb_exists.
    assert (Hsome : exists t m, models !! t = Some m /\ m <> "").
    { cbn [forallb] in Ea. rewrite andb_true_r in Ea.
      destruct (String.eqb_spec "" (rf_AutoTierSimple f)) as [_|]; [|exists TierSimple; eauto].
      destruct (String.eqb_spec "" (rf_AutoTierMedium f)) as [_|]; [|exists TierMedium; eauto].
      destruct (String.eqb_spec "" (rf_AutoTierComplex f)) as [E|E].
      - destruct (String.eqb_spec (rf_AutoTierHard f) "") as [E'|]; [|exists TierHard; eauto].
        rewrite E' in Ea. simpl in Ea. exists TierHardest. eexists. split; [done|]. unfold or_else.
        destruct (String.eqb_spec (rf_AutoTierHardest f) "") as [E''|]; [by rewrite E'' in Ea|done].
      - exists TierHardest. eexists. split; [done|]. unfold or_else.
        destruct (String.eqb_spec (rf_AutoTierHardest f) ""); [done|done]. }
    destruct Hsome as (t & m & Ht & Hne). exists (t, m). rewrite <-list_elem_of_In, elem_of_map_to_list. split; [done|].
    by apply bool_decide_eq_true.
  - intros Hle tokens. unfold classifyByTokens. cbn [SimpleMaxTokens MediumMaxTokens] in *.
    assert (Hs : 0 < (if 0 <? rf_AutoSimpleMaxTokens f then rf_AutoSimpleMaxTokens f else 200)) by (destruct (Z.ltb_spec 0 (rf_AutoSimpleMaxTokens f)); lia).
    assert (Hmm : 0 < (if 0 <? rf_AutoMediumMaxTokens f then rf_AutoMediumMaxTokens f else 600)) by (destruct (Z.ltb_spec 0 (rf_AutoMediumMaxTokens f)); lia).
    cbn [DefaultAutoRoutingConfig SimpleMaxTokens MediumMaxTokens] in *.
    rewrite (proj2 (Z.leb_gt _ 0)) by lia. rewrite (proj2 (Z.leb_gt _ 0)) by lia.
    destruct (Z.ltb_spec tokens (if 0 <? rf_AutoSimpleMaxTokens f then rf_AutoSimpleMaxTokens f else 200)) as [?|?]; [done|].
    destruct (Z.ltb_spec tokens (if 0 <? rf_AutoMediumMaxTokens f then rf_AutoMediumMaxTokens f else 600)) as [?|?]; [lia|done].
Qed.
End files.

Lemma splitCSV_sync s : splitCSV s = splitModelList s.
Proof using. reflexivity. Qed.
End numbers.

(** ** Concrete routers *)

Definition ex_atoi (v : string) : option Z := if String.eqb v "2" then Some 2 else None.

Definition ex_args : list string :=
  ["--prod-mode"; "--addr"; ":8443"; "--mtls-cert"; "r.crt"; "--mtls-key=r.key"; "--cert-dir"; "certs"; "--api-key"; "secret";
   "--worker-max-in-flight"; "a=2, =2,b=x,c"; "--trusted-cn"; "worker"; "--auto-tier-simple"; "small"; "--auto-tier-complex"; "big"].

Definition ex_env : environment := fun _ => "".

Definition ex_run (args : list string) : outcome :=
  runRouter ex_atoi ex_atoi (fun _ => None) (fun _ => true) (fun _ => Some "pem") (fun _ => Some "CERTIFICATE") (fun _ _ => true)
    (fun _ => true) WorkerRun.ex_join ex_env true args.

Definition ex_process (args : list string) : router_process :=
  match ex_run args with
  | Runs p => p
  | Exits _ => {| rp_srv := NewServer None true ""; rp_scoring := NewScoring; rp_security := Security.ex_config; rp_addr := "";
                  rp_listener := false; rp_relay := None |}
  end.

Lemma ex_runs args : match ex_run args with Runs _ => true | Exits _ => false end = true -> ex_run args = Runs (ex_process args).
Proof. unfold ex_process. by destruct (ex_run args). Qed.

Example ex_caps : worker_caps "a=2, =2,b=x,c" = [("a", 2)].
Proof. reflexivity. Qed.

(** No certificates in production: the process exits. *)
Example ex_prod_bare : ex_run ["--prod-mode"] = Exits 1 /\ ex_run ["--no-such-flag"] = Exits 2.
Proof. split; reflexivity. Qed.

Lemma ex_prod_runs : ex_run ex_args = Runs (ex_process ex_args).
Proof. apply ex_runs. vm_compute. reflexivity. Qed.

Definition ex_key_env : environment := fun k => if String.eqb k "INFERMESH_API_KEY" then "from-env" else "".

Definition ex_keyed (env : environment) (args : list string) (key : string) : Prop :=
  match runRouter ex_atoi ex_atoi (fun _ => None) (fun _ => true) (fun _ => Some "pem") (fun _ => Some "CERTIFICATE") (fun _ _ => true)
          (fun _ => true) WorkerRun.ex_join env true args with
  | Runs p => keyed key (rp_srv p)
  | Exits _ => False
  end.

Lemma router_process_access_witness :
  (let s := router_serving Security.ex_split (fun _ => None) (fun _ => None) (fun _ => true) (rp_security (ex_process ex_args)) ":8443" in
   served s {| rq_Path := "/v1/models"; rq_XAPIKey := ""; rq_Authorization := "";
               rq_TLS := Some [{| ct_CommonName := "worker-1"; ct_Verifies := true |}] |} /\
   forall r, served s r -> admitted_peer ["worker"] r /\
     (rq_Path r ∈ router_guarded -> presented_key r = "secret")) /\
  ex_keyed ex_key_env ["--dev-mode"] "from-env" /\ ex_keyed ex_key_env ["--dev-mode"; "--api-key"; "flag"] "flag".
Proof.
  assert (Hk : forall args flag, parseRouterFlags ex_atoi ex_atoi (fun _ => None) args = Some flag ->
    rf_ProdMode flag = false -> ex_keyed ex_key_env args (if String.eqb (rf_APIKey flag) "" then "from-env" else rf_APIKey flag)).
  { intros args flag Hf Hp. unfold ex_keyed. destruct (runRouter _ _ _ _ _ _ _ _ _ _ _ _) as [n|p] eqn:E.
    - exfalso. unfold runRouter in E. rewrite Hf in E. unfold ResolveMode in E. rewrite Hp in E.
      destruct (Registry.New Registry.Defaults) as [reg|] eqn:En; [discriminate E|vm_compute in En; discriminate En].
    - destruct (router_process_access ex_atoi ex_atoi (fun _ => None) (fun _ => true) (fun _ => Some "pem") (fun _ => Some "CERTIFICATE")
        (fun _ _ => true) (fun _ => true) WorkerRun.ex_join Security.ex_split (fun _ => None) (fun _ => None) (fun _ => true) ex_key_env true args
        p E) as ((f & Hf' & Hkey & _) & H & _). rewrite Hf in Hf'. injection Hf' as <-. rewrite Hkey in H. exact H. }
  split; [|split; [exact (Hk ["--dev-mode"] _ eq_refl eq_refl)|exact (Hk ["--dev-mode"; "--api-key"; "flag"] _ eq_refl eq_refl)]].
  intros s. split; [reflexivity|]. intros r Hr.
  destruct (router_process_access ex_atoi ex_atoi (fun _ => None) (fun _ => true) (fun _ => Some "pem") (fun _ => Some "CERTIFICATE")
    (fun _ _ => true) (fun _ => true) WorkerRun.ex_join Security.ex_split (fun _ => None) (fun _ => None) (fun _ => true) ex_env true ex_args
    (ex_process ex_args) ex_prod_runs) as (_ & _ & _ & H).
  destruct (H r Hr) as [[Hd|Ha] Hkey]; [by vm_compute in Hd|]. split; [exact Ha|]. intros Hp. by apply Hkey.
Defined.

Definition ex_flags (args : list string) : RouterFlags :=
  default (router_flags ex_atoi ex_atoi (fun _ => None) []) (parseRouterFlags ex_atoi ex_atoi (fun _ => None) args).

Lemma cli_auto_tiers_witness :
  let f := ex_flags ["--auto-tier-medium"; "mid"; "--auto-tier-complex"; "big"; "--auto-medium-max-tokens"; "2"] in
  let cfg := default DefaultAutoRoutingConfig (flags_auto_config f) in
  ResolveModel (Some cfg) TierHardest = Some "big" /\ ResolveModel (Some cfg) TierSimple = None /\
  forall tokens, classifyByTokens cfg tokens <> TierMedium.
Proof.
  intros f cfg. destruct (cli_auto_tiers f cfg eq_refl) as (Hs & _ & _ & Hh & _ & Hm).
  split_and!; [exact Hh|exact Hs|]. apply Hm. vm_compute. discriminate.
Defined.
