(* ===== verification/DesktopConfig.v ===== *)
(** * DesktopConfig: settings and secrets of the desktop application ([app/])

    [config.go] (the settings file), [keyring.go] (the [Keyring] interface, a
    type class, and its implementations), [secretrefs.go] and
    [config_service.go].  YAML, the file system's failures and the keychain
    of the host are arguments. *)

From S2P Require Import Prelude GoFloat GoStrings Protocol.

#[local] Open Scope list_scope.

(** ** Errors *)

(** The sentinels of the application, kept through [%w]; the others carry a text. *)
Inductive apperr :=
| errKeyringUnavailable
| errNotFound
| errRouterAlreadyRunning
| errWorkerAlreadyRunning
| errBinaryNotFound
| OtherError (what : string).

#[export] Instance apperr_eq_dec : EqDecision apperr.
Proof. solve_decision. Defined.

(** ** Settings ([config.go]) *)

Record AutoRoutingSettings := {
  ar_Enabled : bool;
  ar_UseFourTier : bool;
  ar_TierSimple : string;
  ar_TierMedium : string;
  ar_TierComplex : string;
  ar_TierHard : string;
  ar_TierHardest : string;
  ar_SimpleMaxTokens : Z;
  ar_MediumMaxTokens : Z;
}.

(** [None] is a nil pointer or a nil map. *)
Record Settings := mkSettings {
  st_RouterAddr : string;
  st_RouterBinaryPath : string;
  st_WorkerBackend : string;
  st_WorkerModelPath : string;
  st_WorkerPort : Z;
  st_WorkerBinaryPath : string;
  st_WorkerEnableHealthChecks : option bool;
  st_WorkerMaxTokens : Z;
  st_RelayURL : string;
  st_ModelAliases : option (gmap string string);
  st_DevMode : option bool;
  st_ClientCertCN : string;
  st_AutoStartOnLogin : option bool;
  st_AutoRouting : option AutoRoutingSettings;
  st_ScorerThroughputWeight : float64;
  st_Secrets : option (gmap string string);
  st_SecretRefs : option (gmap string string);
}.

#[export] Instance AutoRoutingSettings_eq_dec : EqDecision AutoRoutingSettings.
Proof. solve_decision. Defined.
#[export] Instance Settings_eq_dec : EqDecision Settings.
Proof. solve_decision. Defined.

Definition DefaultSettings : Settings :=
  mkSettings ":8080" "" "llama-cpp" "" 8081 "" (Some true) 4096 "" None (Some true) "infermesh-desktop" (Some false) None f0
    (Some ∅) (Some ∅).

(** [Settings{}], and the value that [zeroSettings] returns. *)
Definition empty_Settings : Settings := mkSettings "" "" "" "" 0 "" None 0 "" None None "" None None f0 None None.
Definition zeroSettings : Settings := mkSettings "" "" "" "" 0 "" None 0 "" None None "" None None f0 (Some ∅) (Some ∅).

Definition with_secrets (secrets refs : option (gmap string string)) (s : Settings) : Settings :=
  mkSettings (st_RouterAddr s) (st_RouterBinaryPath s) (st_WorkerBackend s) (st_WorkerModelPath s) (st_WorkerPort s)
    (st_WorkerBinaryPath s) (st_WorkerEnableHealthChecks s) (st_WorkerMaxTokens s) (st_RelayURL s) (st_ModelAliases s)
    (st_DevMode s) (st_ClientCertCN s) (st_AutoStartOnLogin s) (st_AutoRouting s) (st_ScorerThroughputWeight s) secrets refs.

(** [if m == nil { m = make(map[string]string) }]. *)
Definition made (m : option (gmap string string)) : option (gmap string string) := Some (default ∅ m).

Definition with_maps (s : Settings) : Settings :=
  mkSettings (st_RouterAddr s) (st_RouterBinaryPath s) (st_WorkerBackend s) (st_WorkerModelPath s) (st_WorkerPort s)
    (st_WorkerBinaryPath s) (st_WorkerEnableHealthChecks s) (st_WorkerMaxTokens s) (st_RelayURL s) (made (st_ModelAliases s))
    (st_DevMode s) (st_ClientCertCN s) (st_AutoStartOnLogin s) (st_AutoRouting s) (st_ScorerThroughputWeight s)
    (made (st_Secrets s)) (made (st_SecretRefs s)).

Definition mergeDefaults (s : Settings) : Settings :=
  let def := DefaultSettings in
  let str (get : Settings -> string) := if String.eqb (get s) "" then get def else get s in
  let flag (get : Settings -> option bool) := match get s with None => get def | b => b end in
  mkSettings (str st_RouterAddr) (st_RouterBinaryPath s) (str st_WorkerBackend) (st_WorkerModelPath s)
    (if st_WorkerPort s =? 0 then st_WorkerPort def else st_WorkerPort s) (st_WorkerBinaryPath s) (flag st_WorkerEnableHealthChecks)
    (st_WorkerMaxTokens s) (st_RelayURL s) (made (st_ModelAliases s)) (flag st_DevMode) (str st_ClientCertCN)
    (flag st_AutoStartOnLogin) (st_AutoRouting s) (st_ScorerThroughputWeight s) (made (st_Secrets s)) (made (st_SecretRefs s)).

(** ** The settings file *)

(** Which calls fail: [ensurePathExists] and [os.ReadFile]; then
    [ensurePathExists], [os.CreateTemp], [os.WriteFile], [Sync], [Close] and
    [os.Rename]. *)
Record load_faults := { lf_dir : bool; lf_read : bool }.
Record save_faults := { sf_dir : bool; sf_create : bool; sf_write : bool; sf_sync : bool; sf_close : bool; sf_rename : bool }.

Definition no_load_faults : load_faults := {| lf_dir := false; lf_read := false |}.
Definition no_save_faults : save_faults :=
  {| sf_dir := false; sf_create := false; sf_write := false; sf_sync := false; sf_close := false; sf_rename := false |}.

(** The content of the settings file, [None] when it is missing, and the
    contents of the temporary files that are left behind. *)
Record disk := { dk_file : option string; dk_temps : list string }.

Section yaml.
Context (marshal : Settings -> option string) (unmarshal : string -> option Settings).

Definition LoadFrom (io : load_faults) (d : disk) : Settings * option apperr :=
  match dk_file d with
  | None => (zeroSettings, None)
  | Some b =>
      if lf_dir io then (zeroSettings, Some (OtherError "ensure path exists"))
      else if lf_read io then (zeroSettings, Some (OtherError "read settings file"))
      else match unmarshal b with
           | None => (empty_Settings, Some (OtherError "unmarshal YAML"))
           | Some s => (with_maps s, None)
           end
  end.

(** The deferred removal of the temporary file tests an [err] that the later
    [if err := ...] shadow: it stays nil and the file stays.  A [WriteFile] that
    fails is taken to have written nothing. *)
Definition SaveTo (io : save_faults) (s : Settings) (d : disk) : disk * option apperr :=
  if sf_dir io then (d, Some (OtherError "ensure path exists"))
  else match marshal s with
  | None => (d, Some (OtherError "marshal YAML"))
  | Some b =>
      let left content := {| dk_file := dk_file d; dk_temps := content :: dk_temps d |} in
      if sf_create io then (d, Some (OtherError "create temp file"))
      else if sf_write io then (left "", Some (OtherError "write temp file"))
      else if sf_sync io then (left b, Some (OtherError "sync temp file"))
      else if sf_close io then (left b, Some (OtherError "close temp file"))
      else if sf_rename io then (left b, Some (OtherError "rename temp to dest"))
      else ({| dk_file := Some b; dk_temps := dk_temps d |}, None)
  end.
End yaml.

(** ** Key rings ([keyring.go]) *)

(** A keyring with the state of the host that its calls read and change. *)
Class Keyring (K : Type) := {
  kr_Get : K -> string -> string + apperr;
  kr_Set : K -> string -> string -> K * option apperr;
  kr_Delete : K -> string -> K * option apperr;
  kr_Available : K -> bool;
}.

(** What the configuration service relies on. *)
Class KeyringLaws (K : Type) `{Keyring K} := {
  kr_get_set k v (s s' : K) : kr_Set s k v = (s', None) -> kr_Get s' k = inl v;
  kr_get_set_ne k v k' (s : K) : k <> k' -> kr_Get (kr_Set s k v).1 k' = kr_Get s k';
  kr_set_fails k v (s s' : K) e k' : kr_Set s k v = (s', Some e) -> kr_Get s' k' = kr_Get s k';
  kr_get_delete k (s s' : K) : kr_Delete s k = (s', None) -> kr_Get s' k = inr errNotFound;
  kr_get_delete_ne k k' (s : K) : k <> k' -> kr_Get (kr_Delete s k).1 k' = kr_Get s k';
  kr_delete_fails k (s s' : K) e k' : kr_Delete s k = (s', Some e) -> kr_Get s' k' = kr_Get s k';
}.

Record memKeyring := { mk_m : gmap string string }.

#[export] Instance mem_keyring : Keyring memKeyring := {
  kr_Get s key := match mk_m s !! key with None => inr errNotFound | Some v => inl v end;
  kr_Set s key value := ({| mk_m := <[key := value]> (mk_m s) |}, None);
  kr_Delete s key := ({| mk_m := delete key (mk_m s) |}, None);
  kr_Available _ := true;
}.

Inductive failKeyring := FailKeyring.

#[export] Instance fail_keyring : Keyring failKeyring := {
  kr_Get _ _ := inr errKeyringUnavailable;
  kr_Set s _ _ := (s, Some errKeyringUnavailable);
  kr_Delete s _ := (s, Some errKeyringUnavailable);
  kr_Available _ := false;
}.

#[export] Instance mem_keyring_laws : KeyringLaws memKeyring.
Proof.
  split; intros; simplify_eq/=; by simplify_map_eq.
Qed.

#[export] Instance fail_keyring_laws : KeyringLaws failKeyring.
Proof. split; done. Qed.

(** The keychain of the host as [go-keyring] shows it: [Get] and its failure,
    [Set] and [Delete] with theirs, and the output of the probe. *)
Class Keychain (H : Type) := {
  kc_Get : H -> string -> string -> option string;
  kc_Set : H -> string -> string -> string -> option H;
  kc_Delete : H -> string -> string -> option H;
  kc_list : H -> option string;
}.

Definition keyringService : string := "infermesh".

Record prodKeyring (H : Type) := ProdKeyring { pk_host : H }.
Arguments ProdKeyring {H}.
Arguments pk_host {H}.

#[export] Instance prod_keyring {H} `{Keychain H} : Keyring (prodKeyring H) := {
  kr_Get s key := match kc_Get (pk_host s) keyringService key with None => inr errNotFound | Some v => inl v end;
  kr_Set s key value :=
    match kc_Set (pk_host s) keyringService key value with
    | None => (s, Some (OtherError "keyring"))
    | Some h => (ProdKeyring h, None)
    end;
  kr_Delete s key :=
    match kc_Delete (pk_host s) keyringService key with
    | None => (s, Some (OtherError "keyring"))
    | Some h => (ProdKeyring h, None)
    end;
  kr_Available s := match kc_list (pk_host s) with None => false | Some out => negb (String.eqb (TrimSpace out) "") end;
}.

(** ** Secret references ([secretrefs.go]) *)

Definition secretRefRouterAPIKey : string := "router/apikey".
Definition secretRefWorkerCustomAuth : string := "worker/customauth".
Definition secretRefMTLSCert : string := "mtls/cert".
Definition secretRefMTLSKey : string := "mtls/key".
Definition secretRefMTLSCACert : string := "mtls/ca-cert".
Definition secretRefMTLSCAKey : string := "mtls/ca-key".
Definition secretRefRelayCreds : string := "relay/creds".

(** The variable [SecretRefs]. *)
Definition knownRefs : list string :=
  [secretRefRouterAPIKey; secretRefWorkerCustomAuth; secretRefMTLSCert; secretRefMTLSKey; secretRefMTLSCACert; secretRefMTLSCAKey;
   secretRefRelayCreds].

Definition knownSecretRefs (ref : string) : bool := existsb (String.eqb ref) knownRefs.

(** [true] for no error. *)
Definition ValidateSecretRefs (s : Settings) : bool := forallb (fun kv => knownSecretRefs kv.1) (map_to_list (default ∅ (st_SecretRefs s))).

(** ** The configuration service ([config_service.go]) *)

Section service.
Context {K : Type} `{Keyring K}.
Context (marshal : Settings -> option string) (unmarshal : string -> option Settings).

(** The keyring and the disk. *)
Record cstate := { cs_kr : K; cs_disk : disk }.

(** A call returns or panics. *)
Inductive returned (A : Type) := Returns (a : A) | Panics.
Arguments Returns {A}.
Arguments Panics {A}.

Definition LoadSettings (io : load_faults) (st : cstate) : Settings * option apperr :=
  match LoadFrom unmarshal io (cs_disk st) with
  | (_, Some e) => (empty_Settings, Some e)
  | (s, None) => (mergeDefaults s, None)
  end.

(** The loop of [SaveSettings] over the secrets, in an order of the map. *)
Fixpoint set_secrets (secrets : list (string * string)) (s : K) (refs : gmap string string) : K * gmap string string * option apperr :=
  match secrets with
  | [] => (s, refs, None)
  | (k, v) :: secrets =>
      if String.eqb v "" then set_secrets secrets s refs
      else match kr_Set s k v with
           | (s, Some e) => (s, refs, Some e)
           | (s, None) => set_secrets secrets s (<[k := k]> refs)
           end
  end.

Definition save (io : save_faults) (s : Settings) (st : cstate) : cstate * option apperr :=
  let '(d, e) := SaveTo marshal io s (cs_disk st) in ({| cs_kr := cs_kr st; cs_disk := d |}, e).

(** [order] is the order of the secrets, [worker] the outcome of [StartWorker]
    when a supervisor is wired. *)
Definition SaveSettings (lf : load_faults) (sf : save_faults) (order : list (string * string)) (worker : option (option apperr))
    (s : Settings) (st : cstate) : cstate * (bool * option apperr) :=
  if negb (kr_Available (cs_kr st)) && existsb (fun kv => negb (String.eqb kv.2 "")) order
  then (st, (false, Some errKeyringUnavailable))
  else
    match LoadFrom unmarshal lf (cs_disk st) with
    | (_, Some e) => (st, (false, Some e))
    | (saved, None) =>
        let '(kr, refs, e) := set_secrets order (cs_kr st) (default ∅ (st_SecretRefs saved)) in
        let st := {| cs_kr := kr; cs_disk := cs_disk st |} in
        match e with
        | Some e => (st, (false, Some e))
        | None =>
            match save sf (with_secrets None (Some refs) s) st with
            | (st, Some e) => (st, (false, Some e))
            | (st, None) =>
                match worker with
                | Some (Some e) => if decide (e = errWorkerAlreadyRunning) then (st, (kr_Available (cs_kr st), None)) else (st, (false, Some e))
                | _ => (st, (kr_Available (cs_kr st), None))
                end
            end
        end
    end.

Definition SetSecret (lf : load_faults) (sf : save_faults) (ref value : string) (st : cstate) : cstate * returned (option apperr) :=
  if negb (kr_Available (cs_kr st)) then (st, Returns (Some errKeyringUnavailable))
  else
    match kr_Set (cs_kr st) ref value with
    | (kr, Some e) => ({| cs_kr := kr; cs_disk := cs_disk st |}, Returns (Some e))
    | (kr, None) =>
        let st := {| cs_kr := kr; cs_disk := cs_disk st |} in
        match LoadFrom unmarshal lf (cs_disk st) with
        | (_, Some e) => (st, Returns (Some e))
        | (s, None) =>
            match st_SecretRefs s with
            | None => (st, Panics)
            | Some refs => let '(st, e) := save sf (with_secrets None (Some (<[ref := ref]> refs)) s) st in (st, Returns e)
            end
        end
    end.

Definition GetSecret (ref : string) (st : cstate) : string + apperr := kr_Get (cs_kr st) ref.

(** The end of [DeleteSecret], on the file; [delete] of a nil map does nothing. *)
Definition drop_ref (lf : load_faults) (sf : save_faults) (ref : string) (st : cstate) : cstate * option apperr :=
  match LoadFrom unmarshal lf (cs_disk st) with
  | (_, Some e) => (st, Some e)
  | (s, None) => save sf (with_secrets None (delete ref <$> st_SecretRefs s) s) st
  end.

Definition DeleteSecret (lf : load_faults) (sf : save_faults) (ref : string) (st : cstate) : cstate * option apperr :=
  let '(kr, e) := kr_Delete (cs_kr st) ref in
  let st := {| cs_kr := kr; cs_disk := cs_disk st |} in
  match e with
  | Some e' => if decide (e' = errNotFound) then drop_ref lf sf ref st else (st, Some e')
  | None => drop_ref lf sf ref st
  end.

Definition IsKeyringAvailable (st : cstate) : bool := kr_Available (cs_kr st).
End service.

Arguments cstate : clear implicits.
Arguments Returns {A}.
Arguments Panics {A}.

(** ** What the service keeps *)

Section correct.
Context {K : Type} `{KeyringLaws K}.
Context (marshal : Settings -> option string) (unmarshal : string -> option Settings).

(** The references of the settings file. *)
Definition refs_of (d : disk) : gmap string string := default ∅ (st_SecretRefs (LoadFrom unmarshal no_load_faults d).1).

(** The operations; in a strict run no [DeleteSecret] fails after the keyring has
    deleted. *)
Inductive config_step (strict : bool) : cstate K -> cstate K -> Prop :=
| step_save lf sf order worker s st :
    order ≡ₚ map_to_list (default ∅ (st_Secrets s)) ->
    config_step strict st (SaveSettings marshal unmarshal lf sf order worker s st).1
| step_set lf sf ref value st : config_step strict st (SetSecret marshal unmarshal lf sf ref value st).1
| step_delete lf sf ref st :
    (strict = true -> (DeleteSecret marshal unmarshal lf sf ref st).2 = None \/ (kr_Delete (cs_kr st) ref).2 <> None) ->
    config_step strict st (DeleteSecret marshal unmarshal lf sf ref st).1.

Definition fresh (kr : K) : cstate K := {| cs_kr := kr; cs_disk := {| dk_file := None; dk_temps := [] |} |}.

(** A content that holds no secret: nothing, or the encoding of settings without
    secrets. *)
Definition sealed (b : string) : Prop := b = "" \/ exists s, st_Secrets s = None /\ marshal s = Some b.

Definition sealed_disk (d : disk) : Prop := Forall sealed (option_list (dk_file d) ++ dk_temps d).

Definition has (kr : K) (k : string) : Prop := exists v, kr_Get kr k = inl v.

(** References name their own key, which the keyring has. *)
Definition resolved (refs : gmap string string) (kr : K) : Prop := forall k v, refs !! k = Some v -> v = k /\ has kr k.

Lemma SaveTo_sealed sf s d : st_Secrets s = None -> sealed_disk d -> sealed_disk (SaveTo marshal sf s d).1.
Proof using.
  intros Hs Hd. unfold SaveTo. destruct (sf_dir sf); [done|]. destruct (marshal s) as [b|] eqn:Eb; [|done].
  assert (Hb : sealed b) by (right; by exists s). assert (He : sealed "") by by left.
  unfold sealed_disk in *. rewrite Forall_app in Hd. destruct Hd as [Hf Ht].
  destruct (sf_create sf); [by apply Forall_app|].
  destruct (sf_write sf), (sf_sync sf), (sf_close sf), (sf_rename sf); simpl; rewrite ?Forall_app, ?Forall_cons; repeat split; done.
Qed.

Lemma save_spec sf s (st st' : cstate K) e :
  save marshal sf s st = (st', e) ->
  cs_kr st' = cs_kr st /\
  match e with
  | None => exists b, marshal s = Some b /\ dk_file (cs_disk st') = Some b
  | Some _ => dk_file (cs_disk st') = dk_file (cs_disk st)
  end.
Proof using.
  unfold save, SaveTo. destruct (sf_dir sf); [by intros [= <- <-]|]. destruct (marshal s) as [b|] eqn:Eb; [|by intros [= <- <-]].
  destruct (sf_create sf), (sf_write sf), (sf_sync sf), (sf_close sf), (sf_rename sf); intros [= <- <-]; simpl; split; try done; by exists b.
Qed.

Lemma save_sealed sf s (st : cstate K) :
  st_Secrets s = None -> sealed_disk (cs_disk st) -> sealed_disk (cs_disk (save marshal sf s st).1).
Proof using. intros Hs Hd. unfold save. pose proof (SaveTo_sealed sf s _ Hs Hd) as Hd'. by destruct (SaveTo _ _ _ _). Qed.

Lemma LoadFrom_refs lf d s : LoadFrom unmarshal lf d = (s, None) -> st_SecretRefs s = Some (refs_of d).
Proof using.
  unfold refs_of, LoadFrom. destruct (dk_file d) as [b|]; [|by intros [= <-]].
  destruct (lf_dir lf), (lf_read lf); simpl; try done. destruct (unmarshal b); by intros [= <-].
Qed.

Lemma refs_of_file d d' : dk_file d' = dk_file d -> refs_of d' = refs_of d.
Proof using. intros Hf. unfold refs_of, LoadFrom. by rewrite Hf. Qed.

Lemma Set_has kr k v kr' e k' : kr_Set kr k v = (kr', e) -> has kr k' -> has kr' k'.
Proof using All.
  intros Hs [x Hx]. destruct e as [e|].
  - exists x. by rewrite (kr_set_fails k v kr kr' e k' Hs).
  - destruct (decide (k = k')) as [<-|Hne]; [exists v; by eapply kr_get_set|]. exists x.
    pose proof (kr_get_set_ne k v k' kr Hne) as He. rewrite Hs in He. simpl in He. congruence.
Qed.

Lemma set_secrets_has order kr refs kr' refs' e k :
  set_secrets order kr refs = (kr', refs', e) -> has kr k -> has kr' k.
Proof using All.
  revert kr refs. induction order as [|[k' v] order IH]; intros kr refs; simpl; [by intros [= <- _ _]|].
  destruct (String.eqb v ""); [apply IH|]. destruct (kr_Set kr k' v) as [kr1 [e1|]] eqn:Es.
  - intros [= <- _ _]. by apply (Set_has _ _ _ _ _ _ Es).
  - intros Hs Hk. apply (IH _ _ Hs). by apply (Set_has _ _ _ _ _ _ Es).
Qed.

Lemma set_secrets_resolved order kr refs kr' refs' e :
  set_secrets order kr refs = (kr', refs', e) -> resolved refs kr -> resolved refs' kr'.
Proof using All.
  revert kr refs. induction order as [|[k' v] order IH]; intros kr refs; simpl; [by intros [= <- <- _]|].
  destruct (String.eqb v ""); [apply IH|]. destruct (kr_Set kr k' v) as [kr1 [e1|]] eqn:Es.
  - intros [= <- <- _] Hr k x Hk. destruct (Hr k x Hk) as [-> Hh]. split; [done|]. by apply (Set_has _ _ _ _ _ _ Es).
  - intros Hs Hr. apply (IH _ _ Hs). intros k x [[<- <-]|[Hne Hk]]%lookup_insert_Some.
    + split; [done|]. exists v. by eapply kr_get_set.
    + destruct (Hr k x Hk) as [-> Hh]. split; [done|]. by apply (Set_has _ _ _ _ _ _ Es).
Qed.

Lemma set_secrets_spec order kr refs kr' refs' :
  set_secrets order kr refs = (kr', refs', None) -> NoDup order.*1 ->
  (forall k v, (k, v) ∈ order -> v <> "" -> kr_Get kr' k = inl v /\ refs' !! k = Some k) /\
  (forall k, (forall v, (k, v) ∈ order -> v = "") -> kr_Get kr' k = kr_Get kr k /\ refs' !! k = refs !! k).
Proof using All.
  revert kr refs. induction order as [|[k' v'] order IH]; intros kr refs; simpl.
  { intros [= <- <-] _. split; [intros k v []%not_elem_of_nil|done]. }
  destruct (String.eqb_spec v' "") as [->|Hv'].
  { intros Hs [Hk' Hnd]%NoDup_cons. destruct (IH _ _ Hs Hnd) as [I1 I2]. split.
    - intros k v [[= -> ->]|Hin]%elem_of_cons; [done|by apply I1].
    - intros k Hk. apply I2. intros v Hin. apply Hk. by right. }
  destruct (kr_Set kr k' v') as [kr1 [e1|]] eqn:Es; [done|]. intros Hs [Hk' Hnd]%NoDup_cons.
  destruct (IH _ _ Hs Hnd) as [I1 I2].
  assert (Hno : forall v, (k', v) ∈ order -> v = "") by (intros v Hin; destruct Hk'; apply list_elem_of_fmap; by exists (k', v)).
  split.
  - intros k v [[= -> ->]|Hin]%elem_of_cons Hv; [|by apply I1]. destruct (I2 k' Hno) as [-> ->].
    split; [by eapply kr_get_set|]. by rewrite lookup_insert_eq.
  - intros k Hk. assert (Hne : k' <> k) by (intros ->; destruct Hv'; apply (Hk v'); by left).
    destruct (I2 k) as [-> ->]; [intros v Hin; apply Hk; by right|]. rewrite lookup_insert_ne by done. split; [|done].
    pose proof (kr_get_set_ne k' v' k kr Hne) as He. by rewrite Es in He.
Qed.

(** The YAML library: what is read back is what was written but for the secrets,
    which the ["-"] tag excludes, and for the nil maps. *)
Definition yaml_round_trip : Prop :=
  forall s b, marshal s = Some b -> exists s', unmarshal b = Some s' /\ with_maps s' = with_maps (with_secrets None (st_SecretRefs s) s).

Context (Hyaml : yaml_round_trip).

Lemma saved_file d s b : marshal s = Some b -> dk_file d = Some b ->
  LoadFrom unmarshal no_load_faults d = (with_maps (with_secrets None (st_SecretRefs s) s), None).
Proof using Hyaml.
  intros Hm Hf. unfold LoadFrom. rewrite Hf. simpl. destruct (Hyaml s b Hm) as (s' & -> & Hs'). by rewrite Hs'.
Qed.

Lemma saved_refs d s b refs : marshal s = Some b -> dk_file d = Some b -> st_SecretRefs s = Some refs -> refs_of d = refs.
Proof using Hyaml. intros Hm Hf Hr. unfold refs_of. rewrite (saved_file d s b Hm Hf). simpl. by rewrite Hr. Qed.

Lemma save_refs sf s refs (st st' : cstate K) e :
  save marshal sf s st = (st', e) -> st_SecretRefs s = Some refs ->
  cs_kr st' = cs_kr st /\ refs_of (cs_disk st') = match e with None => refs | Some _ => refs_of (cs_disk st) end.
Proof using Hyaml.
  intros [Hk Hd]%save_spec Hr. split; [done|]. destruct e as [e|]; [by apply refs_of_file|].
  destruct Hd as (b & Hm & Hf). by eapply saved_refs.
Qed.

Lemma resolved_delete refs kr ref : resolved refs kr -> resolved (delete ref refs) (kr_Delete kr ref).1.
Proof using All.
  intros Hr k v [Hne Hk]%lookup_delete_Some. destruct (Hr k v Hk) as [-> [x Hx]]. split; [done|]. exists x.
  by rewrite kr_get_delete_ne.
Qed.

Lemma resolved_mono refs kr kr' : (forall k, has kr k -> has kr' k) -> resolved refs kr -> resolved refs kr'.
Proof using. intros Hm Hr k v Hk. destruct (Hr k v Hk) as [-> Hh]. split; [done|by apply Hm]. Qed.

Definition good (strict : bool) (st : cstate K) : Prop :=
  sealed_disk (cs_disk st) /\ (strict = true -> resolved (refs_of (cs_disk st)) (cs_kr st)).

Lemma save_good strict sf s refs (st : cstate K) :
  st_Secrets s = None -> st_SecretRefs s = Some refs -> good strict st -> (strict = true -> resolved refs (cs_kr st)) ->
  good strict (save marshal sf s st).1.
Proof using All.
  intros Hs Hr [Hd Hg] Hres. split; [by apply save_sealed|]. intros Hst. destruct (save _ _ _ _) as [st' e] eqn:E.
  destruct (save_refs _ _ _ _ _ _ E Hr) as [Hk He]. simpl. rewrite Hk, He. destruct e; auto.
Qed.

Lemma good_kr strict (st : cstate K) kr :
  (strict = true -> forall k, has (cs_kr st) k -> has kr k) -> good strict st -> good strict {| cs_kr := kr; cs_disk := cs_disk st |}.
Proof using. intros Hm [Hd Hg]. split; [done|]. intros Hst. simpl. apply (resolved_mono _ (cs_kr st)); auto. Qed.

Lemma config_step_good strict st st' : config_step strict st st' -> good strict st -> good strict st'.
Proof using All.
  intros Hst Hg. destruct Hst as [lf sf order worker s st Ho|lf sf ref value st|lf sf ref st Hs].
  - unfold SaveSettings. destruct (_ && _); [done|]. destruct (LoadFrom _ _ _) as [saved [e|]] eqn:El; [done|].
    rewrite (LoadFrom_refs _ _ _ El). destruct (set_secrets _ _ _) as [[kr refs] e] eqn:Es.
    assert (Hk : good strict {| cs_kr := kr; cs_disk := cs_disk st |}).
    { apply good_kr; [|done]. intros _ k. by apply (set_secrets_has _ _ _ _ _ _ _ Es). }
    destruct e as [e|]; [done|].
    pose proof (save_good strict sf (with_secrets None (Some refs) s) refs _ eq_refl eq_refl Hk
      (fun Hst => set_secrets_resolved _ _ _ _ _ _ Es (proj2 Hg Hst))) as Hsave.
    destruct (save _ _ _ _) as [st1 [e|]]; [done|]. destruct worker as [[e|]|]; simpl; [case_decide|..]; exact Hsave.
  - unfold SetSecret. destruct (negb _); [done|]. destruct (kr_Set _ _ _) as [kr [e|]] eqn:Es.
    { simpl. apply good_kr; [|done]. intros _ k. by apply (Set_has _ _ _ _ _ _ Es). }
    assert (Hk : good strict {| cs_kr := kr; cs_disk := cs_disk st |}).
    { apply good_kr; [|done]. intros _ k. by apply (Set_has _ _ _ _ _ _ Es). }
    simpl. destruct (LoadFrom _ _ _) as [s [e|]] eqn:El; [done|]. rewrite (LoadFrom_refs _ _ _ El).
    pose proof (save_good strict sf (with_secrets None (Some (<[ref:=ref]> (refs_of (cs_disk st)))) s) _ _ eq_refl eq_refl Hk) as Hsave.
    destruct (save _ _ _ _) as [st1 e]. simpl in *. apply Hsave. intros Hstr k v [[<- <-]|[_ Hl]]%lookup_insert_Some.
    + split; [done|]. exists value. by eapply kr_get_set.
    + by apply (proj2 Hk Hstr).
  - unfold DeleteSecret in *. destruct (kr_Delete (cs_kr st) ref) as [kr e] eqn:Ed.
    assert (Hkr : kr = (kr_Delete (cs_kr st) ref).1) by by rewrite Ed.
    assert (Hkeep : e <> None -> forall k, has (cs_kr st) k -> has kr k).
    { intros He k [x Hx]. exists x. destruct e as [e|]; [|done]. by rewrite (kr_delete_fails ref _ _ e k Ed). }
    set (st1 := {| cs_kr := kr; cs_disk := cs_disk st |}) in *.
    assert (Hdrop : (strict = true -> (drop_ref marshal unmarshal lf sf ref st1).2 = None \/ e <> None) ->
      good strict (drop_ref marshal unmarshal lf sf ref st1).1).
    { intros Hc. unfold drop_ref in *. destruct (LoadFrom _ _ _) as [s [e1|]] eqn:El.
      - destruct Hg as [Hd Hg]. split; [done|]. intros Hstr. destruct (Hc Hstr) as [|He]; [done|].
        eapply resolved_mono; [by apply Hkeep|by apply Hg].
      - rewrite (LoadFrom_refs _ _ _ El) in *. simpl in *.
        set (s1 := with_secrets _ _ _) in *. destruct (save marshal sf s1 st1) as [st2 e2] eqn:E2.
        destruct (save_refs _ _ _ _ _ _ E2 eq_refl) as [Hk2 Hr2]. split.
        + change st2 with (st2, e2).1. rewrite <-E2. apply save_sealed; [done|apply Hg].
        + intros Hstr. simpl in *. rewrite Hk2, Hr2. simpl. destruct e2 as [e2|].
          * destruct (Hc Hstr) as [|He]; [done|]. eapply resolved_mono; [by apply Hkeep|by apply Hg].
          * rewrite Hkr. by apply resolved_delete, Hg. }
    destruct e as [e|]; [case_decide|]; simpl in *.
    + apply Hdrop. intros _. by right.
    + apply good_kr; [|done]. intros _. by apply Hkeep.
    + apply Hdrop. intros Hstr. destruct (Hs Hstr) as [|]; [by left|done].
Qed.

(** C18: secrets stay in the keyring.  In any run of the operations, with any
    failures and orders, the settings file and the temporary files left behind
    hold encodings of settings without secrets only; and unless a
    [DeleteSecret] failed after the keyring had deleted, every reference of the
    file names its own key, which the keyring has. *)
Theorem config_invariant strict kr st :
  rtc (config_step strict) (fresh kr) st ->
  sealed_disk (cs_disk st) /\
  (strict = true -> forall k v, refs_of (cs_disk st) !! k = Some v -> v = k /\ exists x, GetSecret k st = inl x).
Proof using All.
  intros Hr. refine (rtc_invariant (config_step strict) (good strict) _ _ _ _ Hr).
  - intros s s' Hg Hstep. by eapply config_step_good.
  - split; [constructor|]. by intros _ k v.
Qed.

(** The settings [t] that come back of [s]: what was set is as it was set, the
    seven fields with a default have it where they were not, and the secrets are
    the references. *)
Definition comes_back (s : Settings) (refs : gmap string string) (t : Settings) : Prop :=
  let text v d := if String.eqb v "" then d else v in
  (st_RouterAddr t = text (st_RouterAddr s) ":8080" /\ st_WorkerBackend t = text (st_WorkerBackend s) "llama-cpp" /\
   st_WorkerPort t = (if st_WorkerPort s =? 0 then 8081 else st_WorkerPort s) /\
   st_WorkerEnableHealthChecks t = Some (default true (st_WorkerEnableHealthChecks s)) /\ st_DevMode t = Some (default true (st_DevMode s)) /\
   st_ClientCertCN t = text (st_ClientCertCN s) "infermesh-desktop" /\
   st_AutoStartOnLogin t = Some (default false (st_AutoStartOnLogin s))) /\
  (st_RouterBinaryPath t = st_RouterBinaryPath s /\ st_WorkerBinaryPath t = st_WorkerBinaryPath s /\
   st_WorkerModelPath t = st_WorkerModelPath s /\ st_WorkerMaxTokens t = st_WorkerMaxTokens s /\ st_RelayURL t = st_RelayURL s /\
   st_AutoRouting t = st_AutoRouting s /\ st_ScorerThroughputWeight t = st_ScorerThroughputWeight s /\
   st_ModelAliases t = Some (default ∅ (st_ModelAliases s))) /\
  st_Secrets t = Some ∅ /\ st_SecretRefs t = Some refs.

Lemma mergeDefaults_back s refs : comes_back s refs (mergeDefaults (with_secrets None (Some refs) s)).
Proof using.
  unfold comes_back, mergeDefaults. cbn. split; [|by split_and!].
  destruct (st_WorkerEnableHealthChecks s), (st_DevMode s), (st_AutoStartOnLogin s); by split_and!.
Qed.

End correct.

(** ** A reference that cannot be deleted *)

(** After a [DeleteSecret] that could not update the file, the key is gone from
    the keychain but its reference stays, and deleting again, the documented
    no-op for a missing key, fails for ever: the error of [go-keyring] is not
    [errNotFound].  With the keyring of the tests a call that succeeds drops the
    reference. *)
Theorem stale_reference {H} `{Keychain H} marshal unmarshal ref :
  yaml_round_trip marshal unmarshal ->
  (forall h h', kc_Delete h keyringService ref = Some h' -> kc_Get h' keyringService ref = None) ->
  (forall h, kc_Get h keyringService ref = None -> kc_Delete h keyringService ref = None) ->
  (forall lf sf (st st1 : cstate (prodKeyring H)) e,
     kc_Delete (pk_host (cs_kr st)) keyringService ref <> None ->
     DeleteSecret marshal unmarshal lf sf ref st = (st1, Some e) ->
     GetSecret ref st1 = inr errNotFound /\ refs_of unmarshal (cs_disk st1) = refs_of unmarshal (cs_disk st) /\
     forall lf' sf', DeleteSecret marshal unmarshal lf' sf' ref st1 = (st1, Some (OtherError "keyring"))) /\
  (forall lf sf (st st1 : cstate memKeyring),
     DeleteSecret marshal unmarshal lf sf ref st = (st1, None) ->
     refs_of unmarshal (cs_disk st1) = delete ref (refs_of unmarshal (cs_disk st))).
Proof.
  intros Hy Hgone Habsent. split.
  - intros lf sf [[h] d] st1 e. unfold DeleteSecret at 1. simpl. destruct (kc_Delete h keyringService ref) as [h'|] eqn:Ed; [|done].
    intros _. unfold drop_ref. intros Hd.
    assert (Hst : cs_kr st1 = ProdKeyring h' /\ refs_of unmarshal (cs_disk st1) = refs_of unmarshal d).
    { destruct (LoadFrom _ _ _) as [s [e1|]] eqn:El; [by simplify_eq/=|]. rewrite (LoadFrom_refs _ _ _ _ El) in Hd.
      by destruct (save_refs _ _ Hy _ _ _ _ _ _ Hd eq_refl) as [-> ->]. }
    destruct Hst as [Hk Hr]. split_and!; [unfold GetSecret; by rewrite Hk; simpl; rewrite (Hgone _ _ Ed)|done|].
    intros lf' sf'. destruct st1 as [k d1]. simpl in Hk. subst k. unfold DeleteSecret. simpl.
    by rewrite (Habsent _ (Hgone _ _ Ed)).
  - intros lf sf [m d] st1. unfold DeleteSecret. simpl. unfold drop_ref. destruct (LoadFrom _ _ _) as [s [e|]] eqn:El; [done|].
    rewrite (LoadFrom_refs _ _ _ _ El). simpl. intros Hs.
    by destruct (save_refs _ _ Hy _ _ _ _ _ _ Hs eq_refl) as [_ ?].
Qed.

(** ** A concrete application *)

Definition ex_settings (addr : string) (secrets refs : option (gmap string string)) : Settings :=
  with_secrets secrets refs (mkSettings addr "" "" "" 9000 "" None 0 "" None (Some false) "" None None f0 None None).

(** An encoder of one settings value, up to its secrets and its nil maps. *)
Definition ex_saved : Settings := with_maps (ex_settings ":9090" None (Some {[ "router/apikey" := "router/apikey" ]})).

Definition ex_yaml (s : Settings) : option string :=
  if decide (with_maps (with_secrets None (st_SecretRefs s) s) = ex_saved) then Some "yaml" else None.
Definition ex_unyaml (b : string) : option Settings := if String.eqb b "yaml" then Some ex_saved else None.

Lemma ex_yaml_round_trip : yaml_round_trip ex_yaml ex_unyaml.
Proof.
  intros s b. unfold ex_yaml. case_decide as Hs; [|done]. intros [= <-]. exists ex_saved. by rewrite Hs.
Qed.

Definition ex_secrets : list (string * string) := [("relay/creds", ""); ("router/apikey", "sesame")].
Definition ex_input : Settings := ex_settings ":9090" (Some (list_to_map ex_secrets)) None.
Definition ex_first : cstate memKeyring := fresh {| mk_m := ∅ |}.
Definition ex_after : cstate memKeyring :=
  (SaveSettings ex_yaml ex_unyaml no_load_faults no_save_faults ex_secrets (Some (Some errWorkerAlreadyRunning)) ex_input ex_first).1.

Lemma ex_order : ex_secrets ≡ₚ map_to_list (default ∅ (st_Secrets ex_input)).
Proof. vm_compute. apply Permutation_refl || apply perm_swap. Qed.

Lemma config_invariant_witness :
  sealed_disk ex_yaml (cs_disk ex_after) /\ dk_file (cs_disk ex_after) = Some "yaml" /\
  exists x, GetSecret "router/apikey" ex_after = inl x.
Proof.
  assert (Hr : rtc (config_step ex_yaml ex_unyaml true) (fresh {| mk_m := ∅ |}) ex_after) by apply rtc_once, step_save, ex_order.
  destruct (config_invariant ex_yaml ex_unyaml ex_yaml_round_trip true _ _ Hr) as [Hs Hk].
  split_and!; [exact Hs|vm_compute; reflexivity|]. apply (Hk eq_refl "router/apikey" "router/apikey"). vm_compute. reflexivity.
Defined.


(** A keychain of one service. *)
Definition ex_chain (l : bool) (_ : string) (k : string) : option string := if l && String.eqb k "router/apikey" then Some "sesame" else None.

#[local] Instance ex_keychain : Keychain bool := {
  kc_Get := ex_chain;
  kc_Set _ _ _ _ := None;
  kc_Delete l _ k := if l && String.eqb k "router/apikey" then Some false else None;
  kc_list _ := Some "login.keychain";
}.

Definition ex_kept : cstate (prodKeyring bool) :=
  {| cs_kr := ProdKeyring true; cs_disk := {| dk_file := Some "yaml"; dk_temps := [] |} |}.
Definition ex_stuck : cstate (prodKeyring bool) :=
  (DeleteSecret ex_yaml ex_unyaml {| lf_dir := false; lf_read := true |} no_save_faults "router/apikey" ex_kept).1.

Lemma stale_reference_witness :
  refs_of ex_unyaml (cs_disk ex_stuck) = refs_of ex_unyaml (cs_disk ex_kept) /\
  DeleteSecret ex_yaml ex_unyaml no_load_faults no_save_faults "router/apikey" ex_stuck = (ex_stuck, Some (OtherError "keyring")).
Proof.
  destruct (stale_reference (H := bool) ex_yaml ex_unyaml "router/apikey" ex_yaml_round_trip) as [H _].
  - by intros [] h' [= <-].
  - by intros [] H.
  - destruct (H {| lf_dir := false; lf_read := true |} no_save_faults ex_kept ex_stuck (OtherError "read settings file")) as (_ & H1 & H2);
      [done|reflexivity|]. split; [exact H1|apply H2].
Defined.
