(* ===== verification/DesktopArgs.v ===== *)
(** * DesktopArgs: from the settings to the programs' command lines ([app/])

    [args.go], the secrets and certificate files of [mtls.go], and
    [GenerateNodeCert] of [certgen.go] as far as the files go.  The operating
    system's answers and the issuing of certificates are arguments.  The last
    part joins the arguments to the programs that parse them. *)

From S2P Require Import Prelude GoFloat GoStrings Numerals Errors Http Protocol Registry Scheduler Selection Aliases AutoRouting Hub Proxy Security.
From S2P Require Import Flags WorkerRun Meta RouterMain DesktopConfig.
From stdpp Require Import pretty.
From Stdlib Require Import Ascii SpecFloat.

#[local] Open Scope Z_scope.
#[local] Open Scope list_scope.

(** ** Modes and addresses ([supervisor.go]) *)

Definition modeFromSettings (s : Settings) : Mode := match st_DevMode s with Some false => ModeProd | _ => ModeDev end.
Definition routerURLForWorker (routerAddr : string) : string := Normalize routerAddr.

(** ** The application's files *)

(** What a file of the application holds: a secret of the keyring, the part of it
    that a write that failed has left, the minted certificate, its key or a part of
    the key. *)
Inductive content := Whole (ref value : string) | Part (ref : string) | MintedCert | MintedKey | PartKey.

Record machine := { mc_files : gmap string content; mc_dirs : gset string }.

Definition put (path : string) (c : content) (m : machine) : machine := {| mc_files := <[path := c]> (mc_files m); mc_dirs := mc_dirs m |}.
Definition add_dir (path : string) (m : machine) : machine := {| mc_files := mc_files m; mc_dirs := {[ path ]} ∪ mc_dirs m |}.
Definition unlink (path : string) (m : machine) : machine := {| mc_files := delete path (mc_files m); mc_dirs := mc_dirs m |}.

(** [path] is [f] or inside it. *)
Definition under (f path : string) : bool :=
  String.eqb f path || match strip (to_bytes (f +:+ "/")) (to_bytes path) with Some _ => true | None => false end.

(** [refuses] are the files that the system refuses to remove; a directory stays
    if it is one of them or one of them is in it. *)
Definition RemoveAll (refuses : gset string) (f : string) (m : machine) : machine :=
  let stays d := existsb (fun p => under d p && (String.eqb d p || bool_decide (is_Some (mc_files m !! p)))) (elements refuses) in
  {| mc_files := filter (fun pc => under f pc.1 = false \/ pc.1 ∈ refuses) (mc_files m);
     mc_dirs := filter (fun d => under f d = false \/ stays d = true) (mc_dirs m) |}.

(** [os.Remove] of a file. *)
Definition Remove (refuses : gset string) (path : string) (m : machine) : machine := if decide (path ∈ refuses) then m else unlink path m.

(** The answers of the operating system during one operation: which calls fail,
    the names of new files and directories, and the files it refuses to remove. *)
Record os := {
  os_MkdirAll : bool;
  os_CreateTemp : string -> option string;
  os_WriteString : string -> bool;
  os_Chmod : string -> bool;
  os_Close : string -> bool;
  os_MkdirTemp : string -> option string;
  os_WriteFile : string -> bool;
  os_Create : string -> bool;
  os_Encode : string -> bool;
  os_Refuses : gset string;
}.

(** The supervisor's fields that these functions use. *)
Record assets (K : Type) := mkAssets {
  as_kr : option K;
  as_machine : machine;
  as_tempFiles : list string;
  as_caCertDir : string;
  as_clientCertPaths : string * string;
}.
Arguments mkAssets {K}.
Arguments as_kr {K}.
Arguments as_machine {K}.
Arguments as_tempFiles {K}.
Arguments as_caCertDir {K}.
Arguments as_clientCertPaths {K}.

Section assets.
Context {K : Type} `{Keyring K}.

(** Functions that change the assets and may fail. *)
Definition M (A : Type) : Type := assets K -> assets K * (A + apperr).

#[local] Instance M_ret : MRet M := fun A a st => (st, inl a).
#[local] Instance M_bind : MBind M := fun A B f m st => match m st with (st, inl a) => f a st | (st, inr e) => (st, inr e) end.

Definition raise {A} (what : string) : M A := fun st => (st, inr (OtherError what)).

Definition on_machine (f : machine -> machine) : M unit := fun st =>
  (mkAssets (as_kr st) (f (as_machine st)) (as_tempFiles st) (as_caCertDir st) (as_clientCertPaths st), inl tt).
Definition track (files : list string) : M unit := fun st =>
  (mkAssets (as_kr st) (as_machine st) (as_tempFiles st ++ files) (as_caCertDir st) (as_clientCertPaths st), inl tt).
Definition set_ca (dir : string) : M unit := fun st =>
  (mkAssets (as_kr st) (as_machine st) (as_tempFiles st) dir (as_clientCertPaths st), inl tt).
Definition set_client (paths : string * string) : M unit := fun st =>
  (mkAssets (as_kr st) (as_machine st) (as_tempFiles st) (as_caCertDir st) paths, inl tt).

Definition resolveSecret (ref : string) : M string := fun st =>
  match as_kr st with
  | None => (st, inl "")
  | Some kr =>
      match kr_Get kr ref with
      | inl v => (st, inl v)
      | inr e => if decide (e = errNotFound) then (st, inl "") else (st, inr e)
      end
  end.

Section system.
(** [filepath.Join], and the issuing of a certificate by a CA certificate and
    key, as the files hold them. *)
Context (join : string -> string -> string) (issue : content -> content -> string -> bool).
Context (o : os).

(** [data] is the secret [ref]. *)
Definition writeTempFile (pattern ref data : string) : M string :=
  match os_CreateTemp o pattern with
  | None => raise "create temp file"
  | Some name =>
      on_machine (put name (Part ref));;
      if os_WriteString o name then on_machine (Remove (os_Refuses o) name);; raise "write temp file"
      else
        on_machine (put name (Whole ref data));;
        if os_Chmod o name then on_machine (Remove (os_Refuses o) name);; raise "chmod"
        else if os_Close o name then on_machine (Remove (os_Refuses o) name);; raise "close"
        else mret name
  end.

Definition writeMTLSFiles : M (string * string) :=
  cert ← resolveSecret secretRefMTLSCert;
  key ← resolveSecret secretRefMTLSKey;
  if String.eqb cert "" && String.eqb key "" then mret ("", "")
  else if os_MkdirAll o then raise "ensure log dir"
  else
    certPath ← (if String.eqb cert "" then mret ""
                else p ← writeTempFile "infermesh-mtls-cert-*.pem" secretRefMTLSCert cert; track [p];; mret p);
    keyPath ← (if String.eqb key "" then mret ""
               else p ← writeTempFile "infermesh-mtls-key-*.pem" secretRefMTLSKey key; track [p];; mret p);
    mret (certPath, keyPath).

Definition writeCertDir : M string :=
  caCert ← resolveSecret secretRefMTLSCACert;
  if String.eqb caCert "" then mret ""
  else if os_MkdirAll o then raise "ensure log dir"
  else
    match os_MkdirTemp o "infermesh-ca-dir-" with
    | None => raise "create CA dir"
    | Some dir =>
        let caPath := join dir "ca.crt" in
        on_machine (add_dir dir);;
        if os_WriteFile o caPath then on_machine (put caPath (Part secretRefMTLSCACert));; raise "write ca.crt"
        else on_machine (put caPath (Whole secretRefMTLSCACert caCert));; track [dir];; set_ca dir;; mret dir
    end.

(** The end of [GenerateNodeCert], once the certificate is issued. *)
Definition write_node_files (dir : string) : M (string * string) :=
  let certPath := join dir "cert.pem" in
  let keyPath := join dir "key.pem" in
  if os_Create o certPath then raise "write node cert"
  else
    on_machine (put certPath MintedCert);;
    if os_Encode o certPath then raise "encode node cert"
    else if os_Create o keyPath then raise "write node key"
    else
      on_machine (put keyPath PartKey);;
      if os_Encode o keyPath then raise "encode node key"
      else on_machine (put keyPath MintedKey);; mret (certPath, keyPath).

Definition GenerateNodeCert (dir caCertPath caKeyPath commonName : string) : M (string * string) := fun st =>
  let files := mc_files (as_machine st) in
  match files !! caCertPath, files !! caKeyPath with
  | Some ca, Some key => if issue ca key commonName then write_node_files dir st else raise "issue" st
  | _, _ => raise "read" st
  end.

Definition writeClientCert (settings : Settings) (caCertPath : string) : M (string * string) :=
  caKey ← resolveSecret secretRefMTLSCAKey;
  if String.eqb caKey "" then mret ("", "")
  else if os_MkdirAll o then raise "ensure log dir"
  else
    caKeyPath ← writeTempFile "infermesh-ca-key-*.pem" secretRefMTLSCAKey caKey;
    track [caKeyPath];;
    match os_MkdirTemp o "infermesh-client-cert-" with
    | None => raise "create client cert dir"
    | Some clientDir =>
        on_machine (add_dir clientDir);;
        paths ← GenerateNodeCert clientDir caCertPath caKeyPath (st_ClientCertCN settings);
        track [paths.1; paths.2];; set_client paths;; mret paths
    end.

(** The errors of [os.RemoveAll] are ignored, and the list is empty after. *)
Definition cleanupTempFiles (refuses : gset string) (st : assets K) : assets K :=
  mkAssets (as_kr st) (foldl (fun m f => RemoveAll refuses f m) (as_machine st) (as_tempFiles st)) [] (as_caCertDir st)
    (as_clientCertPaths st).

(** ** Arguments ([args.go]) *)

Definition option_args (b : bool) (name value : string) : list string := if b then [name; value] else [].
Definition nonempty (s : string) : bool := negb (String.eqb s "").

Definition buildAutoRoutingArgs (s : Settings) : list string :=
  match st_AutoRouting s with
  | None => []
  | Some ar =>
      if negb (ar_Enabled ar) then []
      else
        let tier name v := option_args (nonempty (TrimSpace v)) name (TrimSpace v) in
        tier "--auto-tier-simple" (ar_TierSimple ar) ++ tier "--auto-tier-medium" (ar_TierMedium ar) ++
        tier "--auto-tier-complex" (ar_TierComplex ar) ++ tier "--auto-tier-hard" (ar_TierHard ar) ++
        tier "--auto-tier-hardest" (ar_TierHardest ar) ++
        (if ar_UseFourTier ar then ["--auto-use-four-tier"] else []) ++
        option_args (0 <? ar_SimpleMaxTokens ar) "--auto-simple-max-tokens" (pretty (ar_SimpleMaxTokens ar)) ++
        option_args (0 <? ar_MediumMaxTokens ar) "--auto-medium-max-tokens" (pretty (ar_MediumMaxTokens ar))
  end.

Definition alias_parts (aliases : list (string * string)) : list string :=
  map (fun kv => kv.1 +:+ "=" +:+ kv.2) (List.filter (fun kv => nonempty kv.1 && nonempty kv.2) aliases).

Definition alias_args (aliases : list (string * string)) : list string :=
  let parts := alias_parts aliases in
  match parts with [] => [] | _ => ["--model-alias"; String.concat "," parts] end.

Definition mode_arg (s : Settings) : string := if IsDev (modeFromSettings s) then "--dev-mode" else "--prod-mode".

Context (format_float : float64 -> string).

(** [aliases] is the map [ModelAliases] in its iteration order. *)
Definition buildRouterArgs (settings : Settings) (aliases : list (string * string)) : M (list string) :=
  let args :=
    [mode_arg settings] ++ option_args (nonempty (st_RouterAddr settings)) "--addr" (st_RouterAddr settings) ++
    option_args (nonempty (st_RelayURL settings)) "--relay-url" (st_RelayURL settings) ++ alias_args aliases ++
    buildAutoRoutingArgs settings ++
    option_args (flt f0 (st_ScorerThroughputWeight settings)) "--scorer-throughput-weight"
      (format_float (st_ScorerThroughputWeight settings)) in
  apiKey ← resolveSecret secretRefRouterAPIKey;
  let args := args ++ option_args (nonempty apiKey) "--api-key" apiKey in
  if IsDev (modeFromSettings settings) then mret args
  else
    pair ← writeMTLSFiles;
    let args := args ++ option_args (nonempty pair.1) "--mtls-cert" pair.1 ++ option_args (nonempty pair.2) "--mtls-key" pair.2 in
    certDir ← writeCertDir;
    if String.eqb certDir "" then mret args
    else _ ← writeClientCert settings (join certDir "ca.crt"); mret (args ++ ["--cert-dir"; certDir]).

Definition buildWorkerArgs (settings : Settings) : M (list string) :=
  let args :=
    [mode_arg settings] ++ option_args (nonempty (st_WorkerBackend settings)) "--backend" (st_WorkerBackend settings) ++
    option_args (nonempty (st_WorkerModelPath settings)) "--model-path" (st_WorkerModelPath settings) ++
    option_args (0 <? st_WorkerPort settings) "--port" (pretty (st_WorkerPort settings)) ++
    option_args (0 <? st_WorkerMaxTokens settings) "--max-tokens" (pretty (st_WorkerMaxTokens settings)) in
  let rest :=
    option_args (nonempty (st_RelayURL settings)) "--relay-url" (st_RelayURL settings) ++
    match st_WorkerEnableHealthChecks settings with None => [] | Some b => ["--enable-health-checks"; FormatBool b] end in
  let router := routerURLForWorker (st_RouterAddr settings) in
  if IsDev (modeFromSettings settings) then mret (args ++ ["--router"; router] ++ rest)
  else
    pair ← writeMTLSFiles;
    if nonempty pair.1 && nonempty pair.2 then
      certDir ← writeCertDir;
      mret (args ++ ["--prod-router"; router; "--mtls-cert"; pair.1; "--mtls-key"; pair.2] ++
            option_args (nonempty certDir) "--cert-dir" certDir ++ rest)
    else mret (args ++ ["--router"; router] ++ rest).

Definition envWorkerCustomAuth : string := "INFERMESH_WORKER_CUSTOM_AUTH".
Definition envWorkerRelayAPIKey : string := "INFERMESH_RELAY_API_KEY".

(** Additions to the environment of the application. *)
Definition buildEnv : M (list (string * string)) :=
  auth ← resolveSecret secretRefWorkerCustomAuth;
  apiKey ← resolveSecret secretRefRouterAPIKey;
  mret ((if nonempty auth then [(envWorkerCustomAuth, auth)] else []) ++
        (if nonempty apiKey then [(envWorkerRelayAPIKey, apiKey)] else [])).
End system.
End assets.

(** ** What the application leaves on the disk *)

(** What is not secret: the CA certificate, in part, and a certificate.  A part
    of a key counts as a secret. *)
Definition harmless (c : content) : Prop :=
  match c with Part ref => ref = secretRefMTLSCACert | MintedCert => True | PartKey | Whole _ _ | MintedKey => False end.

Section files.
Context {K : Type} `{Keyring K}.
#[local] Existing Instances M_ret M_bind.

(** The files that the system refused to remove so far. *)
Context (refused : gset string).

(** Every secret file but those of [l] is listed for removal, or it was refused,
    or it is a minted key that was not finished. *)
Definition owned (l : list string) (st : assets K) : Prop :=
  forall path c, mc_files (as_machine st) !! path = Some c ->
  path ∈ l \/ (exists f, f ∈ as_tempFiles st /\ under f path = true) \/ harmless c \/ c = PartKey \/ path ∈ refused.

(** A program that runs from [P] ends in [Q] or fails with everything listed. *)
Definition triple {A} (P : assets K -> Prop) (m : M A) (Q : A -> assets K -> Prop) : Prop :=
  forall st, P st -> match m st with (st', inl a) => Q a st' | (st', inr _) => owned [] st' end.

Lemma triple_bind {A B} P (m : M A) R (f : A -> M B) Q :
  triple P m R -> (forall a, triple (R a) (f a) Q) -> triple P (m ≫= f) Q.
Proof using.
  intros Hm Hf st HP. specialize (Hm st HP). unfold mbind, M_bind. destruct (m st) as [st' [a|e]]; [|done]. by apply Hf.
Qed.

Lemma triple_ret {A} P (a : A) Q : (forall st, P st -> Q a st) -> triple P (mret a : M A) Q.
Proof using. intros HQ st HP. by apply HQ. Qed.

Lemma triple_raise {A} w (Q : A -> assets K -> Prop) : triple (owned []) (raise w) Q.
Proof using. by intros st HP. Qed.

Lemma triple_put l l' p c :
  l ⊆ l' -> p ∈ l' \/ harmless c \/ c = PartKey -> triple (owned l) (on_machine (put p c)) (fun _ => owned l').
Proof using.
  intros Hl Hp st Ho path c'. simpl. intros [[<- <-]|[_ Hc]]%lookup_insert_Some; [tauto|].
  destruct (Ho path c' Hc) as [?|?]; [left; by apply Hl|by right].
Qed.

Lemma triple_Remove r p : r ⊆ refused -> triple (owned [p]) (on_machine (Remove r p)) (fun _ => owned []).
Proof using.
  intros Hr st Ho path c. unfold Remove. case_decide as Hp; simpl.
  - intros Hc. destruct (Ho path c Hc) as [->%list_elem_of_singleton|?]; [|by right]. right. right. right. right. by apply Hr.
  - intros [Hne Hc]%lookup_delete_Some. destruct (Ho path c Hc) as [Hq|?]; [|by right].
    apply list_elem_of_singleton in Hq. congruence.
Qed.

Lemma triple_track l files :
  (forall p, p ∈ l -> exists f, f ∈ files /\ under f p = true) -> triple (owned l) (track files) (fun _ => owned []).
Proof using.
  intros Hl st Ho path c Hc. simpl in *. right. destruct (Ho path c Hc) as [Hp|[(f & Hf & Hu)|?]]; [| |by right]; left.
  - destruct (Hl path Hp) as (f & Hf & Hu). exists f. split; [|done]. apply elem_of_app. by right.
  - exists f. split; [|done]. apply elem_of_app. by left.
Qed.

Lemma triple_add_dir l d : triple (owned l) (on_machine (add_dir d)) (fun _ => owned l).
Proof using. by intros st Ho. Qed.
Lemma triple_set_ca l d : triple (owned l) (set_ca d) (fun _ => owned l).
Proof using. by intros st Ho. Qed.
Lemma triple_set_client l ps : triple (owned l) (set_client ps) (fun _ => owned l).
Proof using. by intros st Ho. Qed.

Lemma triple_resolve ref : triple (owned []) (resolveSecret ref) (fun _ => owned []).
Proof using.
  intros st Ho. unfold resolveSecret. destruct (as_kr st) as [kr|]; [|done]. destruct (kr_Get kr ref) as [v|e]; [done|]. by case_decide.
Qed.

(** Steps through a program; leaves what the lemmas do not settle. *)
Ltac walk :=
  repeat match goal with
  | |- forall _, _ => intro
  | |- triple _ (mret _) _ => apply triple_ret; try done
  | |- triple _ (raise _) _ => apply triple_raise
  | |- triple _ (resolveSecret _) _ => apply triple_resolve
  | |- triple _ (track _) _ => apply triple_track
  | |- triple _ (set_ca _) _ => apply triple_set_ca
  | |- triple _ (set_client _) _ => apply triple_set_client
  | |- triple _ (on_machine (add_dir _)) _ => apply triple_add_dir
  | |- triple _ (on_machine (Remove _ _)) _ => apply triple_Remove; try assumption
  | |- triple _ (if ?b then _ else _) _ => destruct b
  | |- triple _ (match ?x with Some _ => _ | None => _ end) _ => destruct x
  end.

Lemma under_refl p : under p p = true.
Proof using. unfold under. by rewrite String.eqb_refl. Qed.

Lemma self_listed p q : q ∈ [p] -> exists f, f ∈ [p] /\ under f q = true.
Proof using. intros ->%list_elem_of_singleton. exists p. split; [set_solver|apply under_refl]. Qed.

Context (o : os) (Hrefused : os_Refuses o ⊆ refused).

Lemma writeTempFile_owned pattern ref data :
  triple (owned []) (writeTempFile o pattern ref data) (fun name => owned [name]).
Proof using Hrefused.
  unfold writeTempFile. walk. eapply triple_bind; [apply (triple_put [] [s]); set_solver|]. walk.
  - eapply triple_bind; walk.
  - eapply triple_bind; [apply (triple_put [s] [s]); set_solver|]. walk; eapply triple_bind; walk.
Qed.

Lemma temp_tracked pattern ref data :
  triple (owned []) (p ← writeTempFile o pattern ref data; track [p];; mret p) (fun _ => owned []).
Proof using Hrefused.
  eapply triple_bind; [apply writeTempFile_owned|]. walk. eapply triple_bind; walk. by apply self_listed.
Qed.

Lemma writeMTLSFiles_owned : triple (owned []) (writeMTLSFiles o) (fun _ => owned []).
Proof using Hrefused.
  unfold writeMTLSFiles. do 2 (eapply triple_bind; [apply triple_resolve|]; intro). walk.
  eapply triple_bind; [instantiate (1 := fun _ => owned []); walk; apply temp_tracked|]. intro.
  eapply triple_bind; [instantiate (1 := fun _ => owned []); walk; apply temp_tracked|]. walk.
Qed.

Context (join : string -> string -> string) (issue : content -> content -> string -> bool).
Context (Hjoin : forall d x, under d (join d x) = true).

Lemma writeCertDir_owned : triple (owned []) (writeCertDir join o) (fun _ => owned []).
Proof using Hjoin Hrefused.
  unfold writeCertDir. eapply triple_bind; [apply triple_resolve|]. walk. eapply triple_bind; [apply triple_add_dir|]. walk.
  - eapply triple_bind; [apply (triple_put [] []); [done|right; first [by left|by right]]|]. walk.
  - eapply triple_bind; [apply (triple_put [] [join s "ca.crt"]); set_solver|]. intro.
    eapply triple_bind; [apply triple_track|intro; eapply triple_bind; walk].
    intros p ->%list_elem_of_singleton. exists s. split; [set_solver|apply Hjoin].
Qed.

Lemma write_node_files_owned dir : triple (owned []) (write_node_files join o dir) (fun paths => owned [paths.2]).
Proof using Hjoin Hrefused.
  unfold write_node_files. walk. eapply triple_bind; [apply (triple_put [] []); [done|right; first [by left|by right]]|]. walk.
  eapply triple_bind; [apply (triple_put [] []); [done|right; first [by left|by right]]|]. walk.
  eapply triple_bind; [apply (triple_put [] [join dir "key.pem"]); set_solver|]. walk.
Qed.

Lemma GenerateNodeCert_owned dir ca key cn :
  triple (owned []) (GenerateNodeCert join issue o dir ca key cn) (fun paths => owned [paths.2]).
Proof using Hjoin Hrefused.
  intros st Hst. unfold GenerateNodeCert. destruct (mc_files (as_machine st) !! ca), (mc_files (as_machine st) !! key); try done.
  destruct (issue _ _ _); [by apply write_node_files_owned|done].
Qed.

Lemma writeClientCert_owned s ca : triple (owned []) (writeClientCert join issue o s ca) (fun _ => owned []).
Proof using Hjoin Hrefused.
  unfold writeClientCert. eapply triple_bind; [apply triple_resolve|]. walk.
  eapply triple_bind; [apply writeTempFile_owned|]. intro.
  eapply triple_bind; [apply triple_track, self_listed|]. walk.
  eapply triple_bind; [apply triple_add_dir|]. intro.
  eapply triple_bind; [apply GenerateNodeCert_owned|]. intros paths.
  eapply triple_bind; [apply triple_track|intro; eapply triple_bind; walk].
  intros p ->%list_elem_of_singleton. exists paths.2. split; [set_solver|apply under_refl].
Qed.

Context (format_float : float64 -> string).

Lemma buildRouterArgs_owned s aliases : triple (owned []) (buildRouterArgs join issue o format_float s aliases) (fun _ => owned []).
Proof using Hjoin Hrefused.
  unfold buildRouterArgs. eapply triple_bind; [apply triple_resolve|]. walk.
  eapply triple_bind; [apply writeMTLSFiles_owned|]. walk. eapply triple_bind; [apply writeCertDir_owned|]. walk.
  eapply triple_bind; [apply writeClientCert_owned|]. walk.
Qed.

Lemma buildWorkerArgs_owned s : triple (owned []) (buildWorkerArgs join o s) (fun _ => owned []).
Proof using Hjoin Hrefused.
  unfold buildWorkerArgs. walk. eapply triple_bind; [apply writeMTLSFiles_owned|]. walk.
  eapply triple_bind; [apply writeCertDir_owned|]. walk.
Qed.

End files.

Section left.
Context {K : Type} `{Keyring K}.

(** The operations, with any answers of the system, and changes of the keyring;
    beside the assets, the files that the system has refused to remove. *)
Inductive asset_step : assets K * gset string -> assets K * gset string -> Prop :=
| step_router join issue o format_float s aliases st refused :
    (forall d x, under d (join d x) = true) ->
    asset_step (st, refused) ((buildRouterArgs join issue o format_float s aliases st).1, refused ∪ os_Refuses o)
| step_worker join o s st refused : (forall d x, under d (join d x) = true) ->
    asset_step (st, refused) ((buildWorkerArgs join o s st).1, refused ∪ os_Refuses o)
| step_env st refused : asset_step (st, refused) ((buildEnv st).1, refused)
| step_clear_ca st refused : asset_step (st, refused) ((set_ca "" st).1, refused)
| step_clear_client st refused : asset_step (st, refused) ((set_client ("", "") st).1, refused)
| step_cleanup refuses st refused : asset_step (st, refused) (cleanupTempFiles refuses st, refused ∪ refuses)
| step_keyring kr st refused :
    asset_step (st, refused) (mkAssets kr (as_machine st) (as_tempFiles st) (as_caCertDir st) (as_clientCertPaths st), refused).

Lemma triple_fst {A} refused (m : M A) (st : assets K) :
  triple refused (owned refused []) m (fun _ => owned refused []) -> owned refused [] st -> owned refused [] (m st).1.
Proof using. intros Hm Ho. specialize (Hm st Ho). by destruct (m st) as [st' [a|e]]. Qed.

Lemma owned_mono refused refused' l (st : assets K) : refused ⊆ refused' -> owned refused l st -> owned refused' l st.
Proof using. intros Hr Ho path c Hc. specialize (Ho path c Hc). set_solver. Qed.

Lemma RemoveAll_files refuses l m path c :
  mc_files (foldl (fun m f => RemoveAll refuses f m) m l) !! path = Some c <->
  mc_files m !! path = Some c /\ (path ∈ refuses \/ forall f, f ∈ l -> under f path = false).
Proof using.
  revert m. induction l as [|f l IH]; intros m; simpl.
  { split; [intros ?; split; [done|]; right; intros f []%not_elem_of_nil|by intros [? _]]. }
  rewrite IH. simpl. rewrite map_lookup_filter_Some. simpl. split.
  - intros [[Hm [Hu|Hr]] [Hr'|Hl]]; (split; [done|]); auto. right. intros f' [->|?]%elem_of_cons; auto.
  - intros [Hm [Hr|Hl]]; [by auto|]. split; [split; [done|]; left; apply Hl; by left|right]. intros f' ?. apply Hl. by right.
Qed.

(** What the clean-up leaves. *)
Lemma cleanup_left refused refuses (st : assets K) path c :
  owned refused [] st -> mc_files (as_machine (cleanupTempFiles refuses st)) !! path = Some c ->
  harmless c \/ c = PartKey \/ path ∈ refused ∪ refuses.
Proof using.
  intros Ho [Hm Hl]%RemoveAll_files.
  destruct (Ho path c Hm) as [[]%not_elem_of_nil|[(f & Hf & Hu)|[?|[?|?]]]]; [|by auto|by auto|set_solver].
  destruct Hl as [Hr|Hl]; [set_solver|]. by rewrite (Hl f Hf) in Hu.
Qed.

(** C19: the secrets on the disk.  In any run of the application, with any calls of
    the system failing, every file that holds a secret of the keyring, a part of
    one, or the minted key is listed for removal when an operation ends, so that
    the clean-up of [StopAll] removes it, with two exceptions.  A file stays, out
    of the list, if the system has refused to remove it: the errors of
    [os.Remove] and [os.RemoveAll] are ignored, and nothing tries again.  And a
    minted key that was not written to its end is not listed.  Nothing else that
    is secret stays. *)
Theorem no_secret_left kr st refused :
  rtc asset_step (mkAssets kr {| mc_files := ∅; mc_dirs := ∅ |} [] "" ("", ""), ∅) (st, refused) ->
  (forall path c, mc_files (as_machine st) !! path = Some c -> ~ harmless c ->
     (exists f, f ∈ as_tempFiles st /\ under f path = true) \/ path ∈ refused \/ c = PartKey) /\
  forall refuses path c, mc_files (as_machine (cleanupTempFiles refuses st)) !! path = Some c -> ~ harmless c ->
    path ∈ refused ∪ refuses \/ c = PartKey.
Proof using.
  intros Hr. assert (Ho : owned refused [] st).
  { change ((fun s : assets K * gset string => owned s.2 [] s.1) (st, refused)).
    refine (rtc_invariant asset_step (fun s => owned s.2 [] s.1) _ _ _ _ Hr); [|by intros path c].
    intros a b Ha Hstep. destruct Hstep; simpl in *;
      try (apply (owned_mono _ (refused0 ∪ os_Refuses o)) in Ha; [|set_solver]).
    - apply triple_fst; [apply buildRouterArgs_owned; [set_solver|done]|done].
    - apply triple_fst; [apply buildWorkerArgs_owned; [set_solver|done]|done].
    - apply triple_fst; [|done]. eapply triple_bind; [apply triple_resolve|]. intro.
      eapply triple_bind; [apply triple_resolve|]. intro. by apply triple_ret.
    - done.
    - done.
    - intros path c Hc. right. right. by eapply cleanup_left.
    - done. }
  split; [|intros refuses path c Hc Hh; destruct (cleanup_left _ _ _ _ _ Ho Hc) as [?|[?|?]]; by auto].
  intros path c Hc Hh. by destruct (Ho path c Hc) as [[]%not_elem_of_nil|[?|[?|[?|?]]]]; auto.
Qed.
End left.

(** ** What the router makes of its arguments *)

Section routed.
Context {K : Type} `{Keyring K}.
#[local] Existing Instances M_ret M_bind.
Context (int duration : string -> option Z) (float : string -> option float64) (format_float : float64 -> string).

(** The conversions of [strconv] and back. *)
Context (Hint : forall n, in_int64 n -> int (pretty n) = Some n).
Context (Hfloat : forall x, flt f0 x = true -> float (format_float x) = Some x).

Lemma assigns_option formal valid b s name k v :
  classify s = Flag name None -> formal name = Some k -> k <> KBool -> (b = true -> accepts valid k v = true) ->
  assigns formal valid (option_args b s v) (opt_pair b name v).
Proof using.
  intros Hs Hf Hk Ha. destruct b; [|apply assigns_nil]. by apply (assigns_pair _ _ s name k v); auto.
Qed.

Definition auto (s : Settings) : option AutoRoutingSettings :=
  match st_AutoRouting s with Some ar => if ar_Enabled ar then Some ar else None | None => None end.
Definition tier_of (get : AutoRoutingSettings -> string) (s : Settings) : string :=
  match auto s with Some ar => TrimSpace (get ar) | None => "" end.
Definition tokens_of (get : AutoRoutingSettings -> Z) (s : Settings) : Z := match auto s with Some ar => get ar | None => 0 end.
Definition four_of (s : Settings) : bool := match auto s with Some ar => ar_UseFourTier ar | None => false end.

(** The assignments of the router's arguments. *)
Definition tier_entry (s : Settings) (name : string) (get : AutoRoutingSettings -> string) : string * (bool * string) :=
  (name, (nonempty (tier_of get s), tier_of get s)).
Definition tokens_entry (s : Settings) (name : string) (get : AutoRoutingSettings -> Z) : string * (bool * string) :=
  (name, (0 <? tokens_of get s, pretty (tokens_of get s))).
Definition text_entry (name v : string) : string * (bool * string) := (name, (nonempty v, v)).

Definition mode_table (s : Settings) : list (string * (bool * string)) :=
  [("dev-mode", (IsDev (modeFromSettings s), "true")); ("prod-mode", (IsProd (modeFromSettings s), "true"))].

Definition auto_table (s : Settings) : list (string * (bool * string)) :=
  [tier_entry s "auto-tier-simple" ar_TierSimple; tier_entry s "auto-tier-medium" ar_TierMedium;
   tier_entry s "auto-tier-complex" ar_TierComplex; tier_entry s "auto-tier-hard" ar_TierHard;
   tier_entry s "auto-tier-hardest" ar_TierHardest; ("auto-use-four-tier", (four_of s, "true"));
   tokens_entry s "auto-simple-max-tokens" ar_SimpleMaxTokens; tokens_entry s "auto-medium-max-tokens" ar_MediumMaxTokens].

Definition alias_entry (aliases : list (string * string)) : string * (bool * string) :=
  ("model-alias", (match alias_parts aliases with [] => false | _ => true end, String.concat "," (alias_parts aliases))).

Definition router_table (s : Settings) (aliases : list (string * string)) (key cert mkey dir : string) : list (string * (bool * string)) :=
  mode_table s ++ [text_entry "addr" (st_RouterAddr s); text_entry "relay-url" (st_RelayURL s); alias_entry aliases] ++ auto_table s ++
  [("scorer-throughput-weight", (flt f0 (st_ScorerThroughputWeight s), format_float (st_ScorerThroughputWeight s)));
   text_entry "api-key" key; text_entry "mtls-cert" cert; text_entry "mtls-key" mkey; text_entry "cert-dir" dir].

(** The token limits are machine integers. *)
Definition machine_tokens (s : Settings) : Prop := in_int64 (tokens_of ar_SimpleMaxTokens s) /\ in_int64 (tokens_of ar_MediumMaxTokens s).

Notation router_assigns := (assigns router_formal (valid_router_flag int duration float)).

Lemma mode_assigns s : router_assigns [mode_arg s] (pairs_of (mode_table s)).
Proof using. unfold mode_arg, mode_table. by destruct (modeFromSettings s); apply assigns_switch. Qed.

Lemma auto_assigns s : machine_tokens s -> router_assigns (buildAutoRoutingArgs s) (pairs_of (auto_table s)).
Proof using Hint.
  unfold machine_tokens, buildAutoRoutingArgs, auto_table, tier_entry, tokens_entry, tier_of, tokens_of, four_of, auto.
  destruct (st_AutoRouting s) as [ar|]; [|intros _; apply assigns_nil]. destruct (ar_Enabled ar); [|intros _; apply assigns_nil].
  cbn [pairs_of]. rewrite app_nil_r. simpl negb. cbv iota. intros [H1 H2].
  repeat apply assigns_app; try (by apply (assigns_option _ _ _ _ _ KString)).
  - destruct (ar_UseFourTier ar); [by apply assigns_switch|apply assigns_nil].
  - apply (assigns_option _ _ _ _ _ KInt); [done..|]. intros _. simpl. unfold converts. by rewrite Hint.
  - apply (assigns_option _ _ _ _ _ KInt); [done..|]. intros _. simpl. unfold converts. by rewrite Hint.
Qed.

Lemma pairs_of_app t1 t2 : pairs_of (t1 ++ t2) = pairs_of t1 ++ pairs_of t2.
Proof using. induction t1 as [|[n [b v]] t1 IH]; [done|]. simpl. by rewrite IH, (assoc_L (++)). Qed.

Lemma alias_assigns aliases : router_assigns (alias_args aliases) (pairs_of [alias_entry aliases]).
Proof using.
  unfold alias_entry, alias_args. cbn [pairs_of]. rewrite app_nil_r.
  destruct (alias_parts aliases) as [|p ps]; [apply assigns_nil|]. by apply (assigns_pair _ _ _ _ KString).
Qed.

Lemma text_assigns name v : router_formal name = Some KString -> classify ("--" +:+ name) = Flag name None ->
  router_assigns (option_args (nonempty v) ("--" +:+ name) v) (pairs_of [text_entry name v]).
Proof using. intros Hf Hc. cbn [pairs_of text_entry]. rewrite app_nil_r. by apply (assigns_option _ _ _ _ _ KString). Qed.

Lemma router_args_assign s aliases key cert mkey dir :
  machine_tokens s ->
  router_assigns
    ([mode_arg s] ++ (option_args (nonempty (st_RouterAddr s)) "--addr" (st_RouterAddr s) ++
     option_args (nonempty (st_RelayURL s)) "--relay-url" (st_RelayURL s) ++ alias_args aliases) ++ buildAutoRoutingArgs s ++
     option_args (flt f0 (st_ScorerThroughputWeight s)) "--scorer-throughput-weight" (format_float (st_ScorerThroughputWeight s)) ++
     option_args (nonempty key) "--api-key" key ++ option_args (nonempty cert) "--mtls-cert" cert ++
     option_args (nonempty mkey) "--mtls-key" mkey ++ option_args (nonempty dir) "--cert-dir" dir)
    (pairs_of (router_table s aliases key cert mkey dir)).
Proof using Hint Hfloat.
  intros Hm. unfold router_table. rewrite !pairs_of_app. apply assigns_app; [apply mode_assigns|].
  apply assigns_app; [|apply assigns_app; [by apply auto_assigns|]].
  - change ([?a; ?b; ?c]) with ([a] ++ [b] ++ [c]). rewrite !pairs_of_app.
    apply assigns_app; [by apply text_assigns|]. apply assigns_app; [by apply text_assigns|apply alias_assigns].
  - change ([?a; ?b; ?c; ?d; ?e]) with ([a] ++ [b] ++ [c] ++ [d] ++ [e]). rewrite !pairs_of_app.
    apply assigns_app; [|by repeat apply assigns_app; apply text_assigns].
    cbn [pairs_of]. rewrite app_nil_r. apply (assigns_option _ _ _ _ _ KFloat); [done..|]. intros Hx. simpl. unfold converts. by rewrite Hfloat.
Qed.

(** The flags that the router reads. *)
Definition desktop_flags (s : Settings) (aliases : list (string * string)) (key cert mkey dir : string) : RouterFlags :=
  {| rf_DevMode := IsDev (modeFromSettings s); rf_ProdMode := IsProd (modeFromSettings s); rf_MTLSCert := cert; rf_MTLSKey := mkey;
     rf_CertDir := dir; rf_APIKey := key; rf_TrustedCNs := ""; rf_Addr := or_else (st_RouterAddr s) ":8080";
     rf_RelayURL := st_RelayURL s; rf_MaxInFlight := 0; rf_MaxConnections := 0; rf_WorkerMaxInFlight := ""; rf_MaxAttempts := 3;
     rf_RetryBudget := 60 * second; rf_ProxyTimeout := 120 * second; rf_ModelLoadTimeout := 120 * second;
     rf_ScorerQuantMatch := f0; rf_ScorerVRAMFree := f0; rf_ScorerGPUUtil := f0; rf_ScorerQueueDepth := f0; rf_ScorerLatency := f0;
     rf_ScorerMaxQueueDepth := 0; rf_ScorerLoadedBonus := dec 15 100; rf_ScorerColdLoadPenalty := dec 10 100;
     rf_ScorerThroughputWeight := if flt f0 (st_ScorerThroughputWeight s) then st_ScorerThroughputWeight s else dec 10 100;
     rf_AutoTierSimple := tier_of ar_TierSimple s; rf_AutoTierMedium := tier_of ar_TierMedium s;
     rf_AutoTierComplex := tier_of ar_TierComplex s; rf_AutoTierHard := tier_of ar_TierHard s;
     rf_AutoTierHardest := tier_of ar_TierHardest s; rf_AutoSimpleMaxTokens := Z.max 0 (tokens_of ar_SimpleMaxTokens s);
     rf_AutoMediumMaxTokens := Z.max 0 (tokens_of ar_MediumMaxTokens s); rf_AutoReasoningKeywords := "";
     rf_AutoUseFourTier := four_of s; rf_ModelAlias := String.concat "," (alias_parts aliases) |}.

Lemma router_table_flags s aliases key cert mkey dir :
  machine_tokens s ->
  router_flags int duration float (pairs_of (router_table s aliases key cert mkey dir)) = desktop_flags s aliases key cert mkey dir.
Proof using Hint Hfloat.
  intros [Hi1 Hi2].
  assert (Ha : forall name, assigned name (pairs_of (router_table s aliases key cert mkey dir)) =
    entry name (router_table s aliases key cert mkey dir)).
  { intros name. apply assigned_pairs. cbn. apply (bool_decide_unpack _). vm_compute. done. }
  assert (Ht : forall v, default "" (if nonempty v then Some v else None) = v).
  { intros v. unfold nonempty. by destruct (String.eqb_spec v "") as [->|]. }
  assert (Hn : forall n, in_int64 n -> default 0 ((if 0 <? n then Some (pretty n) else None) ≫= int) = Z.max 0 n).
  { intros n Hn. destruct (Z.ltb_spec 0 n); simpl; [rewrite Hint by done; simpl|]; lia. }
  unfold router_flags, flag_string, flag_bool, flag_value. rewrite !Ha.
  cbn -[nonempty or_else Z.max Z.ltb flt alias_parts second String.concat modeFromSettings]. unfold desktop_flags.
  f_equal; try done; try apply Ht; try by apply Hn.
  - by destruct (modeFromSettings s).
  - by destruct (modeFromSettings s).
  - unfold or_else, nonempty. by destruct (String.eqb (st_RouterAddr s) "").
  - destruct (flt f0 (st_ScorerThroughputWeight s)) eqn:E; [|done]. simpl. by rewrite Hfloat.
  - by destruct (four_of s).
  - by destruct (alias_parts aliases).
Qed.

Lemma bind_inv {A B} (m : M A) (f : A -> M B) (st st' : assets K) b :
  (m ≫= f) st = (st', inl b) -> exists st1 a, m st = (st1, inl a) /\ f a st1 = (st', inl b).
Proof using. unfold mbind, M_bind. destruct (m st) as [st1 [a|e]]; [|done]. intros ?. by exists st1, a. Qed.

Lemma resolve_inv ref (st st' : assets K) v : resolveSecret ref st = (st', inl v) -> st' = st.
Proof using.
  unfold resolveSecret. destruct (as_kr st); [|by intros [= <- _]]. destruct (kr_Get _ _); [by intros [= <- _]|].
  case_decide; [by intros [= <- _]|done].
Qed.

Lemma buildRouterArgs_shape join issue o s aliases (st st' : assets K) args :
  buildRouterArgs join issue o format_float s aliases st = (st', inl args) ->
  exists key cert mkey dir, resolveSecret secretRefRouterAPIKey st = (st, inl key) /\
    (IsDev (modeFromSettings s) = true -> st' = st /\ cert = "" /\ mkey = "" /\ dir = "") /\
    args = [mode_arg s] ++ (option_args (nonempty (st_RouterAddr s)) "--addr" (st_RouterAddr s) ++
      option_args (nonempty (st_RelayURL s)) "--relay-url" (st_RelayURL s) ++ alias_args aliases) ++ buildAutoRoutingArgs s ++
      option_args (flt f0 (st_ScorerThroughputWeight s)) "--scorer-throughput-weight" (format_float (st_ScorerThroughputWeight s)) ++
      option_args (nonempty key) "--api-key" key ++ option_args (nonempty cert) "--mtls-cert" cert ++
      option_args (nonempty mkey) "--mtls-key" mkey ++ option_args (nonempty dir) "--cert-dir" dir.
Proof using.
  unfold buildRouterArgs. intros (st1 & key & Hk & Hf)%bind_inv. pose proof (resolve_inv _ _ _ _ Hk) as ->. exists key.
  destruct (IsDev (modeFromSettings s)).
  - exists "", "", "". split; [done|]. injection Hf as <- <-. split; [done|]. simpl. by rewrite <-!(assoc_L (++)), !app_nil_r.
  - apply bind_inv in Hf as (st1 & [cert mkey] & _ & Hf). apply bind_inv in Hf as (st2 & dir & _ & Hf). exists cert, mkey.
    destruct (String.eqb dir "") eqn:Hd.
    + exists "". split; [done|]. injection Hf as <- <-. split; [done|]. simpl. by rewrite <-!(assoc_L (++)), !app_nil_r.
    + apply bind_inv in Hf as (st3 & paths & _ & Hf). exists dir. split; [done|]. injection Hf as <- <-. split; [done|].
      assert (Hnd : nonempty dir = true) by (unfold nonempty; by rewrite Hd). rewrite Hnd.
      by rewrite <-!(assoc_L (++)).
Qed.

End routed.

(** ** Aliases, from the map to the router's configuration *)

Lemma concat_print kvs : String.concat "," (map (fun kv => kv.1 +:+ "=" +:+ kv.2) kvs) = print_aliases kvs.
Proof.
  unfold print_aliases. rewrite <-(of_to_bytes (String.concat _ _)). f_equal. induction kvs as [|[k c] kvs IH]; [done|].
  destruct kvs as [|e kvs]; [simpl; by rewrite !to_bytes_app|].
  change (String.concat "," _) with ((k +:+ "=" +:+ c) +:+ "," +:+ String.concat "," (map (fun kv => kv.1 +:+ "=" +:+ kv.2) (e :: kvs))).
  rewrite !to_bytes_app, IH.
  change (print_bytes ((k, c) :: e :: kvs)) with ((to_bytes k ++ equals :: to_bytes c) ++ comma :: print_bytes (e :: kvs)).
  by rewrite <-!(assoc_L (++)).
Qed.

Lemma fold_aliases kvs (m0 : gmap string AliasTarget) k : NoDup kvs.*1 ->
  foldl (fun m kv => <[kv.1 := {| Canonical := kv.2 |}]> m) m0 kvs !! k =
  match list_to_map (M := gmap string string) kvs !! k with Some c => Some {| Canonical := c |} | None => m0 !! k end.
Proof.
  revert m0. induction kvs as [|[k' c] kvs IH]; intros m0; simpl; [done|]. intros [Hk Hnd]%NoDup_cons. rewrite IH by done.
  destruct (decide (k = k')) as [->|Hne].
  - by rewrite (proj1 (not_elem_of_list_to_map kvs k') Hk), !lookup_insert_eq.
  - by rewrite !lookup_insert_ne by done.
Qed.

(** The configuration of entries without blanks. *)
Definition alias_config (kvs : list (string * string)) : option (gmap string AliasTarget) :=
  match kvs with [] => None | _ => Some (foldl (fun m kv => <[kv.1 := {| Canonical := kv.2 |}]> m) ∅ kvs) end.

(** The entries that are passed on. *)
Definition given (aliases : list (string * string)) : list (string * string) :=
  List.filter (fun kv => nonempty kv.1 && nonempty kv.2) aliases.

(** Every entry without a blank can be written on a command line. *)
Definition expressible (aliases : list (string * string)) : Prop :=
  Forall (fun kv => nonempty kv.1 && nonempty kv.2 = true -> writable kv) aliases.

Lemma given_NoDup aliases : NoDup aliases.*1 -> NoDup (given aliases).*1.
Proof.
  unfold given. induction aliases as [|kv l IH]; [constructor|]. simpl. intros [Hkv Hl]%NoDup_cons.
  destruct (_ && _); [|by apply IH]. simpl. apply NoDup_cons. split; [|by apply IH].
  intros (kv' & E & [Hin _]%elem_of_filter_b)%list_elem_of_fmap. apply Hkv, list_elem_of_fmap. by exists kv'.
Qed.

Lemma given_writable aliases : expressible aliases -> Forall writable (given aliases).
Proof.
  intros Hw. apply Forall_forall. intros [k c] [Hkc Hb]%elem_of_filter_b. unfold expressible in Hw. rewrite Forall_forall in Hw.
  exact (Hw (k, c) Hkc Hb).
Qed.

Lemma given_order m aliases : aliases ≡ₚ map_to_list m -> NoDup aliases.*1 /\
  forall k, list_to_map (M := gmap string string) (given aliases) !! k =
    (c ← m !! k; if nonempty k && nonempty c then Some c else None).
Proof.
  intros Hp. assert (Hnd : NoDup aliases.*1) by (rewrite Hp; apply NoDup_fst_map_to_list). split; [done|].
  intros k. apply option_eq. intros c. rewrite <-elem_of_list_to_map by by apply given_NoDup.
  unfold given. rewrite elem_of_filter_b, Hp, elem_of_map_to_list. simpl.
  destruct (m !! k) as [c'|]; simpl; [|by split; [intros [[=] _]|]].
  destruct (nonempty k && nonempty c') eqn:E; split; [by intros [[= ->] _]|by intros [= ->]|intros [[= ->] ?]; congruence|done].
Qed.

(** A command line and a map give the same configuration. *)
Lemma parse_given aliases : expressible aliases -> ParseModelAliases (String.concat "," (alias_parts aliases)) = alias_config (given aliases).
Proof.
  intros Hw%given_writable. unfold alias_parts. fold (given aliases). rewrite concat_print.
  destruct (given aliases) as [|kv kvs] eqn:E; [done|]. rewrite <-E in *. rewrite ParseModelAliases_print by (done || by rewrite E). by rewrite E.
Qed.

Lemma add_alias_given m kv : (nonempty kv.1 && nonempty kv.2 = true -> writable kv) ->
  add_alias m kv = if nonempty kv.1 && nonempty kv.2 then <[kv.1 := {| Canonical := kv.2 |}]> m else m.
Proof.
  destruct kv as [k c]. unfold add_alias, nonempty. cbn [fst snd]. intros Hw.
  destruct (String.eqb_spec k "") as [->|Hk]; [by rewrite decide_True by by left|].
  destruct (String.eqb_spec c "") as [Hc|Hc]; [rewrite decide_True; [done|right; by rewrite Hc]|].
  destruct (Hw eq_refl) as ([_ Hk'] & [_ Hc'] & _). cbn [fst snd] in *. rewrite Hk', Hc', decide_False by tauto. done.
Qed.

Lemma build_given aliases : NoDup aliases.*1 -> expressible aliases -> buildAliasConfig aliases = alias_config (given aliases).
Proof.
  intros Hnd Hw.
  assert (Hf : forall m, foldl add_alias m aliases = foldl (fun m kv => <[kv.1 := {| Canonical := kv.2 |}]> m) m (given aliases)).
  { clear Hnd. unfold expressible, given in *. induction Hw as [|kv l Hkv _ IH]; intros m; simpl; [done|]. rewrite IH.
    rewrite add_alias_given by done. by destruct (nonempty kv.1 && nonempty kv.2). }
  pose proof (given_NoDup _ Hnd) as Hg.
  assert (Hs : some_aliases (foldl add_alias ∅ aliases) = alias_config (given aliases)).
  { rewrite Hf. unfold some_aliases, alias_config. destruct (given aliases) as [|[k c] kvs] eqn:E; [done|]. rewrite decide_False; [done|].
    intros He. pose proof (fold_aliases _ ∅ k Hg) as Hl. rewrite He, lookup_empty in Hl. simpl in Hl. by rewrite lookup_insert_eq in Hl. }
  unfold buildAliasConfig. destruct aliases as [|e l]; [done|exact Hs].
Qed.

(** What a configuration resolves a name to: what the map says. *)
Lemma alias_config_resolves m aliases name :
  aliases ≡ₚ map_to_list m -> resolveAliasModel (alias_config (given aliases)) name =
    match m !! name with Some c => if nonempty name && nonempty c then c else name | None => name end.
Proof.
  intros Hp. destruct (given_order m aliases Hp) as [Hnd Hlook]. pose proof (given_NoDup _ Hnd) as Hg.
  assert (Hcfg : forall k, alias_config (given aliases) ≫= (.!! k) =
    match list_to_map (M := gmap string string) (given aliases) !! k with Some c => Some {| Canonical := c |} | None => None end).
  { intros k. unfold alias_config. destruct (given aliases) as [|kv kvs] eqn:E; [done|]. rewrite <-E in *. simpl. by rewrite fold_aliases, lookup_empty. }
  destruct (resolveAliasModel_spec (alias_config (given aliases)) name) as [-> _].
  - intros k t. rewrite Hcfg, Hlook. destruct (m !! k) as [c|]; simpl; [|done]. destruct (nonempty k && nonempty c) eqn:E; [|done].
    intros [= <-]. simpl. apply andb_true_iff in E as [_ E]. unfold nonempty in E. by apply negb_true_iff, String.eqb_neq in E.
  - rewrite Hcfg, Hlook. destruct (m !! name) as [c|]; simpl; [|done]. by destruct (nonempty name && nonempty c).
Qed.

Lemma alias_resolution s aliases key cert mkey dir m :
  aliases ≡ₚ map_to_list (default ∅ (st_ModelAliases s)) -> expressible aliases ->
  resolveAliasModel (buildModelAliasConfig (desktop_flags s aliases key cert mkey dir)) m =
    match default ∅ (st_ModelAliases s) !! m with Some c => if nonempty m && nonempty c then c else m | None => m end.
Proof.
  intros Hp Hw. unfold buildModelAliasConfig, desktop_flags. cbn [rf_ModelAlias]. rewrite parse_given by done.
  by apply alias_config_resolves.
Qed.

(** ** From the settings to a router that runs *)

(** The flags that the router parses. *)
Lemma desktop_router_flags {K} `{Keyring K} int duration float format_float join issue o s aliases (st st' : assets K) args :
  (forall n, in_int64 n -> int (pretty n) = Some n) -> (forall x, flt f0 x = true -> float (format_float x) = Some x) ->
  machine_tokens s -> buildRouterArgs join issue o format_float s aliases st = (st', inl args) ->
  exists key cert mkey dir, resolveSecret secretRefRouterAPIKey st = (st, inl key) /\
    parseRouterFlags int duration float args = Some (desktop_flags s aliases key cert mkey dir).
Proof.
  intros Hint Hfloat Hm Hb. destruct (buildRouterArgs_shape _ _ _ _ _ _ _ _ _ Hb) as (key & cert & mkey & dir & Hk & _ & ->).
  exists key, cert, mkey, dir. split; [done|]. set (args := [mode_arg s] ++ _). unfold parseRouterFlags.
  pose proof (assigns_Parse _ _ _ _ (router_args_assign int duration float format_float Hint Hfloat s aliases key cert mkey dir Hm)) as Ha.
  fold args in Ha. rewrite Ha. simpl. f_equal. by apply router_table_flags.
Qed.

(** A name that may be missing. *)
Definition named (m : string) : option string := if String.eqb m "" then None else Some m.

(** The automatic routing of a router with these flags. *)
Lemma desktop_auto_config s aliases key cert mkey dir cfg :
  flags_auto_config (desktop_flags s aliases key cert mkey dir) = Some cfg ->
  SimpleMaxTokens cfg = (if 0 <? tokens_of ar_SimpleMaxTokens s then tokens_of ar_SimpleMaxTokens s else 200) /\
  MediumMaxTokens cfg = (if 0 <? tokens_of ar_MediumMaxTokens s then tokens_of ar_MediumMaxTokens s else 600) /\
  UseFourTierMode cfg = four_of s.
Proof.
  unfold flags_auto_config. destruct (forallb _ _); [done|]. intros [= <-]. unfold desktop_flags.
  cbn [SimpleMaxTokens MediumMaxTokens UseFourTierMode rf_AutoSimpleMaxTokens rf_AutoMediumMaxTokens rf_AutoUseFourTier DefaultAutoRoutingConfig].
  split_and!; [| |done].
  - destruct (Z.ltb_spec 0 (Z.max 0 (tokens_of ar_SimpleMaxTokens s))), (Z.ltb_spec 0 (tokens_of ar_SimpleMaxTokens s)); lia.
  - destruct (Z.ltb_spec 0 (Z.max 0 (tokens_of ar_MediumMaxTokens s))), (Z.ltb_spec 0 (tokens_of ar_MediumMaxTokens s)); lia.
Qed.

(** C20: the router that the desktop starts is the router of its settings.  The
    arguments parse, whatever the order of the alias map, to the address, the
    relay, the mode, the key of the keyring and the tiers and limits of the
    settings; in dev mode the process runs, checks the key, resolves a model name
    as the map of the settings does, and routes automatically exactly when a tier
    has a model: each tier to the model of its setting, the hardest to that of
    the complex one if it has none of its own, with the limits of the settings
    or else 200 and 600 tokens. *)
Theorem desktop_starts_router {K} `{Keyring K} int duration float format_float stat read_file pem_block load_pair parse_certificate
    join issue o env listener s aliases (st st' : assets K) args :
  (forall n, in_int64 n -> int (pretty n) = Some n) ->
  (forall x, flt f0 x = true -> float (format_float x) = Some x) ->
  aliases ≡ₚ map_to_list (default ∅ (st_ModelAliases s)) ->
  expressible aliases ->
  machine_tokens s ->
  buildRouterArgs join issue o format_float s aliases st = (st', inl args) ->
  exists key cert mkey dir, resolveSecret secretRefRouterAPIKey st = (st, inl key) /\
    parseRouterFlags int duration float args = Some (desktop_flags s aliases key cert mkey dir) /\
    (IsDev (modeFromSettings s) = true ->
     exists p, runRouter int duration float stat read_file pem_block load_pair parse_certificate join env listener args = Runs p /\
       rp_addr p = or_else (st_RouterAddr s) ":8080" /\ sc_DevMode (rp_security p) = true /\
       sc_APIKey (rp_security p) = or_else key (env "INFERMESH_API_KEY") /\
       rp_relay p = named (or_else (st_RelayURL s) (env "INFERMESH_RELAY_URL")) /\
       keyed (sc_APIKey (rp_security p)) (rp_srv p) /\
       (forall m, resolveAliasModel (rt_modelAliases (rp_srv p)) m =
          match default ∅ (st_ModelAliases s) !! m with Some c => if nonempty m && nonempty c then c else m | None => m end) /\
       (rt_autoRouting (rp_srv p) = None <->
          Forall (fun get => tier_of get s = "") [ar_TierSimple; ar_TierMedium; ar_TierComplex; ar_TierHard; ar_TierHardest]) /\
       forall cfg, rt_autoRouting (rp_srv p) = Some cfg ->
         ResolveModel (Some cfg) TierSimple = named (tier_of ar_TierSimple s) /\
         ResolveModel (Some cfg) TierMedium = named (tier_of ar_TierMedium s) /\
         ResolveModel (Some cfg) TierHard = named (tier_of ar_TierHard s) /\
         ResolveModel (Some cfg) TierHardest = named (or_else (tier_of ar_TierHardest s) (tier_of ar_TierComplex s)) /\
         SimpleMaxTokens cfg = (if 0 <? tokens_of ar_SimpleMaxTokens s then tokens_of ar_SimpleMaxTokens s else 200) /\
         MediumMaxTokens cfg = (if 0 <? tokens_of ar_MediumMaxTokens s then tokens_of ar_MediumMaxTokens s else 600) /\
         UseFourTierMode cfg = four_of s).
Proof.
  intros Hint Hfloat Hp Hw Hm Hb.
  destruct (desktop_router_flags int duration float _ _ _ _ _ _ _ _ _ Hint Hfloat Hm Hb) as (key & cert & mkey & dir & Hk & Hparse).
  exists key, cert, mkey, dir. split; [done|].
  split; [done|]. intros Hd. unfold runRouter. rewrite Hparse.
  assert (Hmode : IsDev (ResolveMode (rf_DevMode (desktop_flags s aliases key cert mkey dir)) (rf_ProdMode (desktop_flags s aliases key cert mkey dir))) = true).
  { simpl. by destruct (modeFromSettings s). }
  destruct (Registry.New Registry.Defaults) as [reg|] eqn:Er; [|by vm_compute in Er]. rewrite Hmode. cbn [negb andb].
  eexists. split; [reflexivity|]. cbn [rp_addr rp_security rp_srv]. split_and!;
    [done|simpl; by destruct (modeFromSettings s)|done|done|apply configure_keyed| | |].
  - intros m. rewrite (proj1 (configure_models _ _ _ _ _ _)). by apply alias_resolution.
  - rewrite (proj2 (configure_models _ _ _ _ _ _)). unfold flags_auto_config, desktop_flags. cbn [rf_AutoTierSimple rf_AutoTierMedium rf_AutoTierComplex rf_AutoTierHard rf_AutoTierHardest].
    rewrite !Forall_cons, Forall_nil. cbn [forallb].
    repeat match goal with |- context [String.eqb "" ?x] => destruct (String.eqb_spec "" x) as [?E|?E] end; simpl; split; try done; try naive_solver; intros; congruence || naive_solver.
  - intros cfg. rewrite (proj2 (configure_models _ _ _ _ _ _)). intros Hcfg.
    destruct (cli_auto_tiers _ _ Hcfg) as (H1 & H2 & H3 & H4 & _).
    split; [exact H1|]. split; [exact H2|]. split; [exact H3|]. split; [exact H4|]. exact (desktop_auto_config _ _ _ _ _ _ _ Hcfg).
Qed.

(** ** A concrete desktop *)

(** An encoding of positive floats in decimals. *)
Definition ex_format (x : float64) : string := match x with S754_finite _ m e => pretty (N.pos (encode (m, e))) | _ => "" end.
Definition ex_float (v : string) : option float64 :=
  match unsigned v with
  | Some (N.pos p) => '(m, e) ← decode (A := positive * Z) p; Some (S754_finite false m e)
  | _ => Some (S754_infinity false)
  end.

Lemma ex_float_format x : flt f0 x = true -> ex_float (ex_format x) = Some x.
Proof.
  destruct x as [| [] | |[] m e]; try done. intros _. unfold ex_float, ex_format. rewrite unsigned_pretty.
  cbn -[encode decode]. by rewrite decode_encode.
Qed.

Definition ex_os : os :=
  {| os_MkdirAll := false; os_CreateTemp p := Some ("logs/" +:+ p); os_WriteString _ := false; os_Chmod _ := false;
     os_Close _ := false; os_MkdirTemp p := Some ("logs/" +:+ p); os_WriteFile _ := false; os_Create _ := false; os_Encode _ := false; os_Refuses := ∅ |}.

Definition ex_keys : gmap string string :=
  list_to_map [(secretRefRouterAPIKey, "sesame"); (secretRefMTLSCert, "cert"); (secretRefMTLSKey, "key"); (secretRefMTLSCACert, "ca");
    (secretRefMTLSCAKey, "ca key")].

Definition ex_assets : assets memKeyring := mkAssets (Some {| mk_m := ex_keys |}) {| mc_files := ∅; mc_dirs := ∅ |} [] "" ("", "").

Definition ex_desktop (dev : bool) : Settings :=
  mkSettings ":9090" "" "ollama" "" 8081 "" (Some false) 4096 "" (Some {[ "fast" := "llama=q4" ]}) (Some dev) "desktop" None
    (Some {| ar_Enabled := true; ar_UseFourTier := false; ar_TierSimple := " small "; ar_TierMedium := " "; ar_TierComplex := "big";
             ar_TierHard := ""; ar_TierHardest := ""; ar_SimpleMaxTokens := 100; ar_MediumMaxTokens := 0 |}) f1 None None.

Definition ex_join (d x : string) : string := d +:+ "/" +:+ x.

Lemma ex_join_under d x : under d (ex_join d x) = true.
Proof.
  unfold under, ex_join. replace (strip (to_bytes (d +:+ "/")) (to_bytes (d +:+ "/" +:+ x))) with (Some (to_bytes x)).
  - by destruct (String.eqb _ _).
  - symmetry. apply strip_Some. by rewrite !to_bytes_app, <-(assoc_L (++)).
Qed.

Definition ex_build (dev : bool) : assets memKeyring * (list string + apperr) :=
  buildRouterArgs ex_join (fun _ _ _ => true) ex_os ex_format (ex_desktop dev) [("fast", "llama=q4")] ex_assets.

Example ex_dev_args :
  (ex_build true).2 = inl ["--dev-mode"; "--addr"; ":9090"; "--model-alias"; "fast=llama=q4"; "--auto-tier-simple"; "small";
    "--auto-tier-complex"; "big"; "--auto-simple-max-tokens"; "100"; "--scorer-throughput-weight"; ex_format f1; "--api-key"; "sesame"].
Proof. vm_compute. reflexivity. Qed.

(** In production the clean-up leaves the certificate's directory. *)
Example ex_prod_files :
  map fst (map_to_list (mc_files (as_machine (ex_build false).1))) ≡ₚ
    ["logs/infermesh-mtls-cert-*.pem"; "logs/infermesh-mtls-key-*.pem"; "logs/infermesh-ca-dir-/ca.crt"; "logs/infermesh-ca-key-*.pem";
     "logs/infermesh-client-cert-/cert.pem"; "logs/infermesh-client-cert-/key.pem"] /\
  mc_files (as_machine (cleanupTempFiles ∅ (ex_build false).1)) = ∅ /\
  mc_dirs (as_machine (cleanupTempFiles ∅ (ex_build false).1)) = {[ "logs/infermesh-client-cert-" ]}.
Proof. split_and!; [apply (bool_decide_unpack _); vm_compute; done|vm_compute; reflexivity..]. Qed.

(** A machine that cannot set the mode of the key's file, nor remove it; and one
    that cannot write the minted key to its end. *)
Definition ex_key_file : string := "logs/infermesh-mtls-key-*.pem".
Definition ex_minted_file : string := "logs/infermesh-client-cert-/key.pem".
Definition ex_bad_os (chmod encode : string -> bool) (refuses : gset string) : os :=
  {| os_MkdirAll := false; os_CreateTemp p := Some ("logs/" +:+ p); os_WriteString _ := false; os_Chmod := chmod;
     os_Close _ := false; os_MkdirTemp p := Some ("logs/" +:+ p); os_WriteFile _ := false; os_Create _ := false; os_Encode := encode;
     os_Refuses := refuses |}.
Definition ex_bad_build (o : os) : assets memKeyring :=
  (buildRouterArgs ex_join (fun _ _ _ => true) o ex_format (ex_desktop false) [("fast", "llama=q4")] ex_assets).1.
Definition ex_refusing : assets memKeyring := ex_bad_build (ex_bad_os (String.eqb ex_key_file) (fun _ => false) {[ ex_key_file ]}).
Definition ex_unfinished : assets memKeyring := ex_bad_build (ex_bad_os (fun _ => false) (String.eqb ex_minted_file) ∅).

(** What a clean-up to which nothing is refused leaves of a run. *)
Definition ex_stays (st : assets memKeyring) (refused : gset string) : Prop :=
  forall path c, mc_files (as_machine (cleanupTempFiles ∅ st)) !! path = Some c -> ~ harmless c -> path ∈ refused \/ c = PartKey.

Lemma no_secret_left_witness :
  ((exists f, f ∈ as_tempFiles (ex_build false).1 /\ under f ex_minted_file = true) /\ ex_stays (ex_build false).1 ∅) /\
  (ex_stays ex_refusing {[ ex_key_file ]} /\
   mc_files (as_machine (cleanupTempFiles ∅ ex_refusing)) = {[ ex_key_file := Whole secretRefMTLSKey "key" ]}) /\
  (ex_stays ex_unfinished ∅ /\ mc_files (as_machine (cleanupTempFiles ∅ ex_unfinished)) !! ex_minted_file = Some PartKey).
Proof.
  assert (Hs : forall o, ex_stays (ex_bad_build o) (os_Refuses o)).
  { intros o path c Hc Hh. destruct (no_secret_left (Some {| mk_m := ex_keys |}) (ex_bad_build o) (∅ ∪ os_Refuses o)) as [_ Hl].
    - apply rtc_once, step_router, ex_join_under.
    - destruct (Hl ∅ path c Hc Hh) as [Hin|Hp]; [left|by right]. set_solver. }
  split; [|split; (split; [apply Hs|vm_compute; reflexivity])].
  split; [|exact (Hs ex_os)]. destruct (no_secret_left (Some {| mk_m := ex_keys |}) (ex_build false).1 (∅ ∪ ∅)) as [Hf _].
  { apply rtc_once, (step_router ex_join _ ex_os), ex_join_under. }
  destruct (Hf ex_minted_file MintedKey) as [H|[H|H]]; [vm_compute; reflexivity|intros []|exact H|set_solver|discriminate H].
Defined.

Lemma ex_aliases_order : [("fast", "llama=q4")] ≡ₚ map_to_list (default ∅ (st_ModelAliases (ex_desktop true))).
Proof. vm_compute. reflexivity. Qed.

Lemma ex_writable : expressible [("fast", "llama=q4")].
Proof. repeat constructor; simpl; try done; set_solver. Qed.

Lemma desktop_starts_router_witness :
  exists p, runRouter Atoi Atoi ex_float (fun _ => false) (fun _ => None) (fun _ => None) (fun _ _ => false) (fun _ => false) ex_join
      (fun _ => "") false ["--dev-mode"; "--addr"; ":9090"; "--model-alias"; "fast=llama=q4"; "--auto-tier-simple"; "small";
    "--auto-tier-complex"; "big"; "--auto-simple-max-tokens"; "100"; "--scorer-throughput-weight"; ex_format f1; "--api-key"; "sesame"] = Runs p /\
    rp_addr p = ":9090" /\ resolveAliasModel (rt_modelAliases (rp_srv p)) "fast" = "llama=q4" /\
    exists cfg, rt_autoRouting (rp_srv p) = Some cfg /\ ResolveModel (Some cfg) TierSimple = Some "small" /\
      ResolveModel (Some cfg) TierMedium = None /\ ResolveModel (Some cfg) TierHardest = Some "big" /\
      SimpleMaxTokens cfg = 100 /\ MediumMaxTokens cfg = 600.
Proof.
  destruct (desktop_starts_router Atoi Atoi ex_float ex_format (fun _ => false) (fun _ => None) (fun _ => None) (fun _ _ => false)
    (fun _ => false) ex_join (fun _ _ _ => true) ex_os (fun _ => "") false (ex_desktop true) [("fast", "llama=q4")] ex_assets ex_assets
    ["--dev-mode"; "--addr"; ":9090"; "--model-alias"; "fast=llama=q4"; "--auto-tier-simple"; "small";
    "--auto-tier-complex"; "big"; "--auto-simple-max-tokens"; "100"; "--scorer-throughput-weight"; ex_format f1; "--api-key"; "sesame"]
    Atoi_pretty ex_float_format ex_aliases_order ex_writable)
    as (key & cert & mkey & dir & _ & _ & H).
  - split; vm_compute; split; discriminate.
  - vm_compute. reflexivity.
  - destruct (H eq_refl) as (p & Hp & Ha & _ & _ & _ & _ & Hm & Hn & Hc). exists p. split; [exact Hp|]. split; [exact Ha|].
    split; [rewrite (Hm "fast"); vm_compute; reflexivity|]. destruct (rt_autoRouting (rp_srv p)) as [cfg|] eqn:E.
    + exists cfg. split; [reflexivity|]. destruct (Hc cfg eq_refl) as (H1 & H2 & _ & H4 & H5 & H6 & _).
      split; [exact H1|]. split; [exact H2|]. split; [exact H4|]. split; [exact H5|exact H6].
    + exfalso. apply proj1 in Hn. specialize (Hn eq_refl). apply Forall_inv in Hn. vm_compute in Hn. discriminate Hn.
Defined.
