(* ===== verification/DesktopWorker.v ===== *)
(** * DesktopWorker: the worker that the desktop starts

    The arguments of [buildWorkerArgs] as the worker parses them, and the worker
    that [RunWorker] starts from them, up to the requests it posts. *)

From S2P Require Import Prelude GoFloat GoStrings Numerals Errors Http Protocol Backend WorkerClient WorkerServer Security.
From S2P Require Import Flags WorkerRun DesktopConfig DesktopArgs.
From stdpp Require Import pretty.
From Stdlib Require Import Ascii.

#[local] Open Scope Z_scope.
#[local] Open Scope list_scope.

Section parsed.
Context {K : Type} `{Keyring K}.
#[local] Existing Instances M_ret M_bind.
Context (int duration : string -> option Z).
Context (Hint : forall n, in_int64 n -> int (pretty n) = Some n).

Definition machine_numbers (s : Settings) : Prop := in_int64 (st_WorkerPort s) /\ in_int64 (st_WorkerMaxTokens s).

(** Whether the worker is given certificates. *)
Definition with_mtls (s : Settings) (cert key : string) : bool := IsProd (modeFromSettings s) && nonempty cert && nonempty key.

Definition number_entry (name : string) (n : Z) : string * (bool * string) := (name, (0 <? n, pretty n)).

Definition front_table (s : Settings) : list (string * (bool * string)) :=
  [text_entry "backend" (st_WorkerBackend s); text_entry "model-path" (st_WorkerModelPath s); number_entry "port" (st_WorkerPort s);
   number_entry "max-tokens" (st_WorkerMaxTokens s)].

Definition route_table (s : Settings) (cert key dir : string) : list (string * (bool * string)) :=
  let mtls := with_mtls s cert key in
  let router := routerURLForWorker (st_RouterAddr s) in
  [("prod-router", (mtls, router)); ("mtls-cert", (mtls, cert)); ("mtls-key", (mtls, key)); ("cert-dir", (mtls && nonempty dir, dir));
   ("router", (negb mtls, router))].

Definition worker_table (s : Settings) (cert key dir : string) : list (string * (bool * string)) :=
  mode_table s ++ front_table s ++ route_table s cert key dir ++
  [text_entry "relay-url" (st_RelayURL s); ("enable-health-checks", (if st_WorkerEnableHealthChecks s then true else false, "true"))].

(** The arguments up to the health checks. *)
Definition worker_args (s : Settings) (cert key dir : string) : list string :=
  let mtls := with_mtls s cert key in
  let router := routerURLForWorker (st_RouterAddr s) in
  [mode_arg s] ++
  (option_args (nonempty (st_WorkerBackend s)) "--backend" (st_WorkerBackend s) ++
   option_args (nonempty (st_WorkerModelPath s)) "--model-path" (st_WorkerModelPath s) ++
   option_args (0 <? st_WorkerPort s) "--port" (pretty (st_WorkerPort s)) ++
   option_args (0 <? st_WorkerMaxTokens s) "--max-tokens" (pretty (st_WorkerMaxTokens s))) ++
  (option_args mtls "--prod-router" router ++ option_args mtls "--mtls-cert" cert ++ option_args mtls "--mtls-key" key ++
   option_args (mtls && nonempty dir) "--cert-dir" dir ++ option_args (negb mtls) "--router" router) ++
  option_args (nonempty (st_RelayURL s)) "--relay-url" (st_RelayURL s).

(** What a secret's file holds: nothing without a secret, and no file. *)
Definition held (st : assets K) (path ref value : string) : Prop :=
  if String.eqb value "" then path = "" else path <> "" /\ mc_files (as_machine st) !! path = Some (Whole ref value).

(** The certificate's pair of the keyring and the authority's certificate, which
    goes with a pair. *)
Definition worker_secrets (st : assets K) (cert key ca : string) : Prop :=
  (resolveSecret secretRefMTLSCert st).2 = inl cert /\ (resolveSecret secretRefMTLSKey st).2 = inl key /\
  (nonempty cert && nonempty key = true -> (resolveSecret secretRefMTLSCACert st).2 = inl ca).

(** The files of the worker's arguments hold the secrets of the keyring. *)
Definition worker_files (join : string -> string -> string) (s : Settings) (st st' : assets K) (cert key dir : string) : Prop :=
  if IsDev (modeFromSettings s) then st' = st /\ cert = "" /\ key = "" /\ dir = ""
  else exists vcert vkey vca, worker_secrets st vcert vkey vca /\
    held st' cert secretRefMTLSCert vcert /\ held st' key secretRefMTLSKey vkey /\
    (nonempty vcert && nonempty vkey = true ->
     if String.eqb vca "" then dir = ""
     else dir <> "" /\ mc_files (as_machine st') !! join dir "ca.crt" = Some (Whole secretRefMTLSCACert vca)).

(** New files have names, and each its own. *)
Definition new_names (join : string -> string -> string) (o : os) : Prop :=
  let fresh pattern := forall n, os_CreateTemp o pattern = Some n -> n <> "" /\
    forall dir, os_MkdirTemp o "infermesh-ca-dir-" = Some dir -> n <> join dir "ca.crt" in
  fresh "infermesh-mtls-cert-*.pem" /\ fresh "infermesh-mtls-key-*.pem" /\
  (forall dir, os_MkdirTemp o "infermesh-ca-dir-" = Some dir -> dir <> "") /\
  forall n, os_CreateTemp o "infermesh-mtls-cert-*.pem" = Some n -> os_CreateTemp o "infermesh-mtls-key-*.pem" <> Some n.

Lemma writeTempFile_done o pattern ref data (st st' : assets K) name :
  writeTempFile o pattern ref data st = (st', inl name) ->
  os_CreateTemp o pattern = Some name /\ as_kr st' = as_kr st /\
  mc_files (as_machine st') = <[name := Whole ref data]> (mc_files (as_machine st)).
Proof using.
  unfold writeTempFile. destruct (os_CreateTemp o pattern) as [n|]; [|done]. cbn.
  destruct (os_WriteString o n); [done|]. cbn. destruct (os_Chmod o n); [done|]. destruct (os_Close o n); [done|].
  intros [= <- <-]. split_and!; [done|done|]. simpl. by rewrite insert_insert_eq.
Qed.

Lemma temp_done o pattern ref data (st st' : assets K) name :
  (p ← writeTempFile o pattern ref data; track [p];; mret p) st = (st', inl name) ->
  os_CreateTemp o pattern = Some name /\ as_kr st' = as_kr st /\
  mc_files (as_machine st') = <[name := Whole ref data]> (mc_files (as_machine st)).
Proof using. intros (st1 & p & Hp & [= <- <-])%bind_inv. by apply writeTempFile_done in Hp. Qed.

Lemma resolve_kr ref (st st' : assets K) : as_kr st' = as_kr st -> (resolveSecret ref st').2 = (resolveSecret ref st).2.
Proof using.
  unfold resolveSecret. intros ->. destruct (as_kr st); [|done]. destruct (kr_Get _ _); [done|]. by case_decide.
Qed.

(** One of the two files of the pair. *)
Lemma pair_file (value ref pattern : string) o (st st' : assets K) name :
  (if String.eqb value "" then mret "" else p ← writeTempFile o pattern ref value; track [p];; mret p) st = (st', inl name) ->
  as_kr st' = as_kr st /\
  if String.eqb value "" then name = "" /\ mc_files (as_machine st') = mc_files (as_machine st)
  else os_CreateTemp o pattern = Some name /\ mc_files (as_machine st') = <[name := Whole ref value]> (mc_files (as_machine st)).
Proof using. destruct (String.eqb value ""); [by intros [= <- <-]|]. by intros (? & ? & ?)%temp_done. Qed.

Lemma writeMTLSFiles_done o (st st' : assets K) cert key :
  writeMTLSFiles o st = (st', inl (cert, key)) ->
  exists vcert vkey, (resolveSecret secretRefMTLSCert st).2 = inl vcert /\ (resolveSecret secretRefMTLSKey st).2 = inl vkey /\
    as_kr st' = as_kr st /\
    (if String.eqb vcert "" then cert = "" else os_CreateTemp o "infermesh-mtls-cert-*.pem" = Some cert) /\
    (if String.eqb vkey "" then key = "" else os_CreateTemp o "infermesh-mtls-key-*.pem" = Some key) /\
    let files := if String.eqb vcert "" then mc_files (as_machine st) else <[cert := Whole secretRefMTLSCert vcert]> (mc_files (as_machine st)) in
    mc_files (as_machine st') = if String.eqb vkey "" then files else <[key := Whole secretRefMTLSKey vkey]> files.
Proof using.
  unfold writeMTLSFiles. intros (st1 & vcert & Hc & Hf)%bind_inv. pose proof (resolve_inv _ _ _ _ Hc) as ->.
  apply bind_inv in Hf as (st1 & vkey & Hk & Hf). pose proof (resolve_inv _ _ _ _ Hk) as ->.
  exists vcert, vkey. rewrite Hc, Hk. split; [done|]. split; [done|].
  destruct (String.eqb vcert "" && String.eqb vkey "") eqn:E.
  { apply andb_true_iff in E as [-> ->]. injection Hf as <- <- <-. done. }
  destruct (os_MkdirAll o); [done|]. apply bind_inv in Hf as (st1 & c & Hfc & Hf). apply bind_inv in Hf as (st2 & k & Hfk & [= <- <- <-]).
  apply pair_file in Hfc as [Hkr1 Hfc]. apply pair_file in Hfk as [Hkr2 Hfk].
  split; [congruence|]. destruct (String.eqb vcert ""), (String.eqb vkey ""); destruct Hfc as [? Hm1], Hfk as [? Hm2];
    (split_and!; [done|done|]); by rewrite Hm2, Hm1.
Qed.

Lemma writeCertDir_done join o (st st' : assets K) dir :
  writeCertDir join o st = (st', inl dir) ->
  exists vca, (resolveSecret secretRefMTLSCACert st).2 = inl vca /\
    if String.eqb vca "" then dir = "" /\ mc_files (as_machine st') = mc_files (as_machine st)
    else os_MkdirTemp o "infermesh-ca-dir-" = Some dir /\
         mc_files (as_machine st') = <[join dir "ca.crt" := Whole secretRefMTLSCACert vca]> (mc_files (as_machine st)).
Proof using.
  unfold writeCertDir. intros (st1 & vca & Hc & Hf)%bind_inv. pose proof (resolve_inv _ _ _ _ Hc) as ->.
  exists vca. rewrite Hc. split; [done|]. destruct (String.eqb vca ""); [by injection Hf as <- <-|].
  destruct (os_MkdirAll o); [done|]. destruct (os_MkdirTemp o _) as [d|]; [|done]. cbn in Hf.
  destruct (os_WriteFile o _); [done|]. by injection Hf as <- <-.
Qed.

Lemma buildWorkerArgs_shape join o s (st st' : assets K) args :
  buildWorkerArgs join o s st = (st', inl args) ->
  exists cert key dir,
    args = worker_args s cert key dir ++
      match st_WorkerEnableHealthChecks s with None => [] | Some b => ["--enable-health-checks"; FormatBool b] end /\
    (new_names join o -> worker_files join s st st' cert key dir).
Proof using.
  unfold buildWorkerArgs, worker_args, with_mtls, worker_files. destruct (modeFromSettings s); simpl IsDev; simpl IsProd; cbv iota.
  - intros [= <- <-]. exists "", "", "". split; [|done]. simpl andb. simpl negb. unfold option_args at 5 6 7 8 9. by rewrite <-!(assoc_L (++)).
  - intros (st1 & [cert key] & Hpair & Hf)%bind_inv. exists cert, key. simpl in Hf. rewrite andb_true_l.
    apply writeMTLSFiles_done in Hpair as (vcert & vkey & Hvc & Hvk & Hkr & Hcert & Hkey & Hfiles).
    assert (Hheld : new_names join o -> held st1 cert secretRefMTLSCert vcert /\ held st1 key secretRefMTLSKey vkey).
    { intros (Hfc & Hfk & _ & Hne). unfold held. rewrite Hfiles.
      destruct (String.eqb vcert ""), (String.eqb vkey ""); split; try done; (split; [first [by apply (Hfc _ Hcert)|by apply (Hfk _ Hkey)]|]);
        rewrite ?lookup_insert_eq; try done. rewrite lookup_insert_ne; [apply lookup_insert_eq|]. intros ->. by eapply Hne. }
    assert (Hboth : new_names join o -> nonempty vcert && nonempty vkey = nonempty cert && nonempty key).
    { intros [Hc Hk]%Hheld. unfold held in Hc, Hk. unfold nonempty.
      destruct (String.eqb vcert ""), (String.eqb vkey ""); simpl; [by subst..|by subst; rewrite andb_false_r|].
      destruct Hc as [Hc _], Hk as [Hk _]. by rewrite (proj2 (String.eqb_neq cert "")), (proj2 (String.eqb_neq key "")). }
    destruct (nonempty cert && nonempty key) eqn:Eboth.
    + apply bind_inv in Hf as (st2 & dir & Hd & [= <- <-]). apply writeCertDir_done in Hd as (vca & Hvca & Hd).
      rewrite (resolve_kr _ _ _ Hkr) in Hvca. exists dir. split.
      { simpl andb. simpl negb. unfold option_args at 5 6 7 9. by rewrite <-!(assoc_L (++)). }
      intros Hn. destruct (Hheld Hn) as [Hc Hk]. destruct Hn as (Hfc & Hfk & Hdir & _). exists vcert, vkey, vca. split; [by split_and!|].
      unfold held in *. destruct (String.eqb vca ""); destruct Hd as [Hdn Hm]; rewrite Hm.
      * split_and!; [exact Hc|exact Hk|by intros _].
      * assert (Hkeep : forall path pattern value ref c, (if String.eqb value "" then path = "" else os_CreateTemp o pattern = Some path) ->
          (forall n, os_CreateTemp o pattern = Some n -> n <> "" /\ forall dir, os_MkdirTemp o "infermesh-ca-dir-" = Some dir -> n <> join dir "ca.crt") ->
          (if String.eqb value "" then path = "" else path <> "" /\ mc_files (as_machine st1) !! path = Some (Whole ref value)) ->
          if String.eqb value "" then path = ""
          else path <> "" /\ <[join dir "ca.crt" := c]> (mc_files (as_machine st1)) !! path = Some (Whole ref value)).
        { intros path pattern value ref c Hp Hfr Hh. destruct (String.eqb value ""); [done|]. destruct Hh as [Hh1 Hh2].
          destruct (Hfr _ Hp) as [_ Hj]. split; [done|]. rewrite lookup_insert_ne; [done|]. intros E. by apply (Hj dir). }
        split_and!; [by eapply Hkeep|by eapply Hkeep|]. intros _. split; [by apply Hdir|apply lookup_insert_eq].
    + injection Hf as <- <-. exists "". split.
      { simpl andb. simpl negb. unfold option_args at 5 6 7 8 9. by rewrite <-!(assoc_L (++)). }
      intros Hn. destruct (Hheld Hn) as [Hc Hk]. exists vcert, vkey, "". split_and!; [split_and!; [done|done|]|exact Hc|exact Hk|];
        rewrite (Hboth Hn); done.
Qed.

Notation worker_assigns := (assigns worker_formal (valid_flag int duration)).

Lemma worker_option b s name k v t l :
  classify ("--" +:+ name) = Flag name None -> worker_formal name = Some k -> k <> KBool ->
  (b = true -> accepts (valid_flag int duration) k v = true) -> s = "--" +:+ name -> worker_assigns l (pairs_of t) ->
  worker_assigns (option_args b s v ++ l) (pairs_of ((name, (b, v)) :: t)).
Proof using. intros Hc Hf Hk Ha -> Hl. apply assigns_app; [by apply (assigns_option _ _ _ _ _ k)|done]. Qed.

Lemma mode_worker s t l : worker_assigns l (pairs_of t) -> worker_assigns ([mode_arg s] ++ l) (pairs_of (mode_table s ++ t)).
Proof using.
  intros Hl. rewrite pairs_of_app. apply assigns_app; [|done]. unfold mode_arg, mode_table.
  by destruct (modeFromSettings s); apply assigns_switch.
Qed.

Lemma worker_args_assign s cert key dir :
  machine_numbers s ->
  worker_assigns (worker_args s cert key dir)
    (pairs_of (mode_table s ++ front_table s ++ route_table s cert key dir ++ [text_entry "relay-url" (st_RelayURL s)])).
Proof using Hint.
  intros [Hp Hm]. unfold worker_args, front_table, route_table. apply mode_worker. rewrite <-!(assoc_L (++)).
  rewrite <-(app_nil_r (option_args (nonempty (st_RelayURL s)) _ _)).
  assert (Hn : forall n, in_int64 n -> accepts (valid_flag int duration) KInt (pretty n) = true).
  { intros n Hn. simpl. unfold converts. by rewrite Hint. }
  simpl app. cbn [app]. unfold text_entry, number_entry.
  repeat first
    [ by apply assigns_nil
    | eapply (worker_option _ _ _ KString); [reflexivity|reflexivity|done|done|reflexivity|]
    | eapply (worker_option _ _ _ KInt); [reflexivity|reflexivity|done|by intros _; apply Hn|reflexivity|] ].
Qed.

(** The flags of the worker; the health checks cannot be switched off. *)
Definition desktop_worker_flags (s : Settings) (cert key dir : string) : WorkerFlags :=
  let mtls := with_mtls s cert key in
  let router := routerURLForWorker (st_RouterAddr s) in
  {| wf_Capabilities := false; wf_DevMode := IsDev (modeFromSettings s); wf_ProdMode := IsProd (modeFromSettings s);
     wf_MTLSCert := if mtls then cert else ""; wf_MTLSKey := if mtls then key else "";
     wf_Port := if 0 <? st_WorkerPort s then st_WorkerPort s else 8081; wf_CertDir := if mtls then dir else "";
     wf_ModelPath := st_WorkerModelPath s; wf_Backend := or_else (st_WorkerBackend s) "llama-cpp"; wf_BackendURL := "";
     wf_Router := if mtls then "" else router; wf_ProdRouter := if mtls then router else ""; wf_RelayURL := st_RelayURL s;
     wf_TrustedCNs := ""; wf_EnableHealthChecks := true; wf_AllowedModels := ""; wf_ExcludedModels := "";
     wf_ModelRefreshInterval := 0; wf_HealthCheckInterval := 0; wf_InferenceWindow := 360 * minute; wf_APIKey := "";
     wf_BackendTimeout := 120 * second; wf_MaxTokens := if 0 <? st_WorkerMaxTokens s then st_WorkerMaxTokens s else 4096;
     wf_Threads := 4; wf_RelayAPIKey := "" |}.

Lemma worker_table_flags s cert key dir :
  machine_numbers s -> worker_flags int duration (pairs_of (worker_table s cert key dir)) = desktop_worker_flags s cert key dir.
Proof using Hint.
  intros [Hp Hm].
  assert (Ha : forall name, assigned name (pairs_of (worker_table s cert key dir)) = entry name (worker_table s cert key dir)).
  { intros name. apply assigned_pairs. cbn. apply (bool_decide_unpack _). vm_compute. done. }
  assert (Ht : forall v, default "" (if nonempty v then Some v else None) = v).
  { intros v. unfold nonempty. by destruct (String.eqb_spec v "") as [->|]. }
  assert (Hn : forall n d, in_int64 n -> default d ((if 0 <? n then Some (pretty n) else None) ≫= int) = if 0 <? n then n else d).
  { intros n d Hn. destruct (0 <? n); [|done]. simpl. by rewrite Hint. }
  unfold worker_flags, flag_string, flag_bool, flag_value. rewrite !Ha.
  cbn -[nonempty or_else Z.ltb second minute modeFromSettings with_mtls routerURLForWorker]. unfold desktop_worker_flags.
  f_equal; try done; try apply Ht; try (by apply Hn); try (by destruct (modeFromSettings s)); try (by destruct (with_mtls s cert key)).
  - destruct (with_mtls s cert key); [apply Ht|done].
  - unfold or_else, nonempty. by destruct (String.eqb (st_WorkerBackend s) "").
  - by destruct (st_WorkerEnableHealthChecks s).
Qed.

(** Certificates are used exactly when the keyring has the pair. *)
Lemma with_mtls_secrets join s (st st' : assets K) cert key dir vcert vkey :
  (resolveSecret secretRefMTLSCert st).2 = inl vcert -> (resolveSecret secretRefMTLSKey st).2 = inl vkey ->
  worker_files join s st st' cert key dir -> with_mtls s cert key = IsProd (modeFromSettings s) && nonempty vcert && nonempty vkey.
Proof using.
  intros Hc Hk. unfold worker_files, with_mtls. destruct (modeFromSettings s); [done|]. cbn [IsDev IsProd andb].
  intros (vcert' & vkey' & vca & (Hc' & Hk' & _) & Hcert & Hkey & _). rewrite Hc in Hc'. rewrite Hk in Hk'. injection Hc' as <-. injection Hk' as <-.
  unfold held in *. unfold nonempty. destruct (String.eqb vcert ""), (String.eqb vkey ""); subst; simpl; try done.
  - by rewrite andb_false_r.
  - destruct Hcert as [Hcert _], Hkey as [Hkey _]. by rewrite (proj2 (String.eqb_neq cert "")), (proj2 (String.eqb_neq key "")).
Qed.

Lemma desktop_worker_parse join o s (st st' : assets K) args :
  machine_numbers s -> buildWorkerArgs join o s st = (st', inl args) ->
  exists cert key dir, parseWorkerFlags int duration args = Some (desktop_worker_flags s cert key dir) /\
    (new_names join o -> worker_files join s st st' cert key dir).
Proof using Hint.
  intros Hm (cert & key & dir & -> & Hfiles)%buildWorkerArgs_shape. exists cert, key, dir. split; [|done]. clear Hfiles.
  pose proof (worker_args_assign s cert key dir Hm) as Ha. unfold parseWorkerFlags.
  assert (Hp : exists rest, Parse worker_formal (valid_flag int duration) (worker_args s cert key dir ++
    match st_WorkerEnableHealthChecks s with None => [] | Some b => ["--enable-health-checks"; FormatBool b] end) =
    Some (pairs_of (worker_table s cert key dir), rest)).
  { unfold worker_table. destruct (st_WorkerEnableHealthChecks s) as [b|].
    - exists [FormatBool b]. rewrite (Ha ["--enable-health-checks"; FormatBool b] [("enable-health-checks", "true")] [FormatBool b]).
      + f_equal. f_equal. rewrite !pairs_of_app. simpl. by rewrite <-!(assoc_L (++)).
      + by destruct b.
    - exists []. rewrite (Ha [] [] []); [|done]. f_equal. f_equal. rewrite !pairs_of_app. simpl. by rewrite <-!(assoc_L (++)), ?app_nil_r. }
  destruct Hp as [rest ->].
  change (Some (worker_flags int duration (pairs_of (worker_table s cert key dir))) = Some (desktop_worker_flags s cert key dir)).
  by rewrite worker_table_flags.
Qed.
End parsed.

(** ** The worker that starts *)

Lemma drop_while_app {A} (f : A -> bool) l c r : f c = false -> exists m, drop_while f (l ++ c :: r) = m ++ c :: r.
Proof.
  intros Hc. induction l as [|x l [m IH]]; simpl; [exists []; by rewrite Hc|]. destruct (f x); [by exists m|by exists (x :: l)].
Qed.

(** Trimming slashes keeps the scheme. *)
Lemma TrimRight_scheme x : exists y, TrimRight ("http://" +:+ x) "/"%char = "http:" +:+ y.
Proof.
  unfold TrimRight. rewrite to_bytes_app.
  change (to_bytes "http://") with (to_bytes "http:" ++ ["/"; "/"]%char). rewrite <-(assoc_L (++)), rev_app_distr.
  change (rev (to_bytes "http:")) with (":" :: to_bytes "ptth")%char.
  destruct (drop_while_app (fun x => Ascii.eqb x "/"%char) (rev (["/"; "/"]%char ++ to_bytes x)) ":"%char (to_bytes "ptth")) as [m ->];
    [done|]. exists (of_bytes (rev m)). rewrite rev_app_distr. simpl rev. rewrite <-(of_to_bytes ("http:" +:+ _)).
  rewrite to_bytes_app, to_of_bytes. done.
Qed.

Lemma HasPrefix_app p x : HasPrefix (p +:+ x) p = true.
Proof.
  unfold HasPrefix. rewrite to_bytes_app. by rewrite (proj2 (strip_Some (to_bytes p) (to_bytes p ++ to_bytes x) (to_bytes x)) eq_refl).
Qed.

(** Without a scheme in the address, the registration URL is in plain HTTP. *)
Lemma plain_registration addr : Contains (TrimSpace addr) "://" = false -> HasPrefix (registerURL (Normalize addr)) "http:" = true.
Proof.
  intros Hc. unfold registerURL, Normalize.
  assert (Hd : Contains (if String.eqb (TrimSpace addr) "" then defaultRouterAddr else TrimSpace addr) "://" = false).
  { by destruct (String.eqb (TrimSpace addr) ""). }
  rewrite Hd. match goal with |- context [TrimRight (_ +:+ ?x) _] => destruct (TrimRight_scheme x) as [y ->] end.
  rewrite append_assoc. apply HasPrefix_app.
Qed.

Lemma RunWorker_http `{B : WorkerBackend} join read_cap range reachable0 reachable announce cfg ht caps backend h :
  rc_DevMode cfg = true -> rc_RelayURL cfg = "" -> rc_RouterBase cfg <> "" ->
  RunWorker join read_cap range reachable0 reachable announce cfg ht caps backend = inl h ->
  map rg_route (h_loops h) = [ByHTTP (rc_RouterBase cfg)].
Proof.
  intros Hd Hr Hb%String.eqb_neq. unfold RunWorker, choose_registration. rewrite Hd, Hr, Hb, andb_false_r. simpl. intros [= <-].
  unfold launchRegistration. simpl. by rewrite Hr, Hb.
Qed.

Lemma RunWorker_mtls `{B : WorkerBackend} join read_cap range reachable0 reachable announce cfg ht caps backend :
  rc_DevMode cfg = false -> rc_ProdRouter cfg <> "" ->
  exists h r, RunWorker join read_cap range reachable0 reachable announce cfg ht caps backend = inl h /\
    h_loops h = [r] /\ rg_cancelled r = false /\ h_stopped h = false /\
    rg_route r = ByMTLS (rc_ProdRouter cfg) (rc_MTLSCert cfg) (rc_MTLSKey cfg) (join (rc_CertDir cfg) "ca.crt") (rc_RelayAPIKey cfg).
Proof.
  intros Hd Hp%String.eqb_neq. unfold RunWorker, choose_registration. rewrite Hd, Hp, andb_false_r. simpl.
  unfold launchMTLSRegistration. simpl. by eexists _, _.
Qed.

(** A router with certificates serves no request without one. *)
Lemma certificate_needed split_host parse_ip lookup_ip load c addr r :
  sc_DevMode c = false -> hasAnyMTLSConfig c = true -> rq_TLS r = None ->
  ~ served (router_serving split_host parse_ip lookup_ip load c addr) r.
Proof.
  intros Hd Ha Ht. unfold router_serving. rewrite Hd, Ha. simpl. destruct (hasFullMTLSConfig c), (load c); simpl; try tauto.
  intros [_ Hm]%guard_passes. apply mtls_passes in Hm as [(cert & rest & Hc & _) _]. congruence.
Qed.

(** C21: the worker that the desktop starts.  Its flags are those of the settings, but
    for the health checks: switching them off is an argument that the boolean flag
    does not take, so they stay on.  In production its certificate, key and
    directory are files that hold the secrets of the keyring, if the system gives
    new files new names, and it is given them exactly when the keyring has both
    the certificate and the key.  In dev mode without a relay it registers over
    HTTP at the router's address.  In production with certificates it registers
    with them, but it posts to a URL in plain HTTP unless the address has a
    scheme, over which no client certificate travels, and a router with
    certificates refuses the request. *)
Theorem desktop_starts_worker {K} `{Keyring K} `{B : WorkerBackend} int duration join o s (st st' : assets K) args :
  (forall n, in_int64 n -> int (pretty n) = Some n) -> machine_numbers s ->
  buildWorkerArgs join o s st = (st', inl args) ->
  exists cert key dir, let f := desktop_worker_flags s cert key dir in
    parseWorkerFlags int duration args = Some f /\ wf_EnableHealthChecks f = true /\
    (new_names join o -> worker_files join s st st' cert key dir /\
       forall vcert vkey, (resolveSecret secretRefMTLSCert st).2 = inl vcert -> (resolveSecret secretRefMTLSKey st).2 = inl vkey ->
         with_mtls s cert key = IsProd (modeFromSettings s) && nonempty vcert && nonempty vkey) /\
    (Contains (TrimSpace (st_RouterAddr s)) "://" = false ->
     forall env join' read_cap range reachable0 reachable announce ht caps backend h,
       RunWorker join' read_cap range reachable0 reachable announce (run_config env f) ht caps backend = inl h ->
       (IsDev (modeFromSettings s) = true -> or_else (st_RelayURL s) (env "INFERMESH_RELAY_URL") = "" ->
          map rg_route (h_loops h) = [ByHTTP (Normalize (st_RouterAddr s))]) /\
       (with_mtls s cert key = true ->
          exists r, h_loops h = [r] /\
          rg_route r = ByMTLS (Normalize (st_RouterAddr s)) cert key (join' dir "ca.crt") (env "INFERMESH_RELAY_API_KEY") /\
          forall marshal new_request read_file append_certs load_pair p,
            posts marshal new_request read_file append_certs load_pair h r p ->
            HasPrefix (hp_URL p) "http:" = true /\
            forall split_host parse_ip lookup_ip load c addr,
              sc_DevMode c = false -> hasAnyMTLSConfig c = true ->
              ~ served (router_serving split_host parse_ip lookup_ip load c addr) (register_request None p))).
Proof.
  intros Hint Hm Hb. destruct (desktop_worker_parse int duration Hint join o s st st' args Hm Hb) as (cert & key & dir & Hp & Hfiles).
  exists cert, key, dir. intros f. split; [done|]. split; [done|]. split.
  { intros Hn. split; [by apply Hfiles|]. intros vcert vkey Hc Hk. by eapply with_mtls_secrets, Hfiles. }
  intros Hc env join' read_cap range reachable0 reachable announce ht caps backend h Hrun.
  pose proof (plain_registration _ Hc) as Hplain. set (addr := Normalize (st_RouterAddr s)) in *.
  assert (Hne : addr <> "") by (intros E; by rewrite E in Hplain).
  assert (Hd : rc_DevMode (run_config env f) = IsDev (modeFromSettings s)) by (simpl; by destruct (modeFromSettings s)). split.
  - intros Hdev Hr. assert (Hbase : rc_RouterBase (run_config env f) = addr).
    { assert (Hw : with_mtls s cert key = false) by (unfold with_mtls; by destruct (modeFromSettings s)).
      unfold f. cbn -[routerURLForWorker or_else]. rewrite Hw. unfold routerURLForWorker. fold addr.
      by rewrite (proj2 (String.eqb_neq addr "") Hne), andb_false_r. }
    rewrite <-Hbase. eapply RunWorker_http; [by rewrite Hd|exact Hr|by rewrite Hbase|exact Hrun].
  - intros Hw. assert (Hp' : rc_ProdRouter (run_config env f) = addr) by (unfold f; simpl; by rewrite Hw).
    assert (Hd' : rc_DevMode (run_config env f) = false) by (rewrite Hd; unfold with_mtls in Hw; by destruct (modeFromSettings s)).
    assert (Hnp : rc_ProdRouter (run_config env f) <> "") by by rewrite Hp'.
    destruct (RunWorker_mtls join' read_cap range reachable0 reachable announce _ ht caps backend Hd' Hnp) as (h' & r & Hrun' & Hl & _ & _ & Hroute).
    rewrite Hrun in Hrun'. injection Hrun' as <-. exists r. split; [done|].
    rewrite Hp' in Hroute. split; [rewrite Hroute; unfold f; simpl; by rewrite Hw|].
    intros marshal new_request read_file append_certs load_pair p Hpost. apply posts_body in Hpost as [_ Hu]. rewrite Hroute in Hu.
    destruct Hu as [-> _]. split; [exact Hplain|]. intros. by apply certificate_needed.
Qed.

(** ** A concrete worker *)

#[local] Existing Instance WorkerServer.ex_worker.

Definition ex_worker_args (dev : bool) : list string :=
  match (buildWorkerArgs DesktopArgs.ex_join DesktopArgs.ex_os (DesktopArgs.ex_desktop dev) DesktopArgs.ex_assets).2 with
  | inl args => args
  | inr _ => []
  end.

Example ex_prod_worker : ex_worker_args false =
  ["--prod-mode"; "--backend"; "ollama"; "--port"; "8081"; "--max-tokens"; "4096"; "--prod-router"; "http://127.0.0.1:9090";
   "--mtls-cert"; "logs/infermesh-mtls-cert-*.pem"; "--mtls-key"; "logs/infermesh-mtls-key-*.pem"; "--cert-dir"; "logs/infermesh-ca-dir-";
   "--enable-health-checks"; "false"].
Proof. vm_compute. reflexivity. Qed.

Lemma ex_machine_numbers dev : machine_numbers (DesktopArgs.ex_desktop dev).
Proof. split; simpl; vm_compute; split; discriminate. Qed.

Definition ex_dev_run (f : WorkerFlags) : Handle + goerr :=
  WorkerRun.ex_run (run_config WorkerRun.ex_env f) false.

Lemma ex_build_dev :
  buildWorkerArgs DesktopArgs.ex_join DesktopArgs.ex_os (DesktopArgs.ex_desktop true) DesktopArgs.ex_assets =
    (DesktopArgs.ex_assets, inl (ex_worker_args true)).
Proof. vm_compute. reflexivity. Qed.

Definition ex_prod_state : assets memKeyring :=
  (buildWorkerArgs DesktopArgs.ex_join DesktopArgs.ex_os (DesktopArgs.ex_desktop false) DesktopArgs.ex_assets).1.

Lemma ex_build_prod :
  buildWorkerArgs DesktopArgs.ex_join DesktopArgs.ex_os (DesktopArgs.ex_desktop false) DesktopArgs.ex_assets =
    (ex_prod_state, inl (ex_worker_args false)).
Proof. vm_compute. reflexivity. Qed.

Lemma ex_new_names : new_names DesktopArgs.ex_join DesktopArgs.ex_os.
Proof.
  unfold new_names, DesktopArgs.ex_os. cbn [os_CreateTemp os_MkdirTemp]. split_and!.
  - intros n [= <-]. split; [discriminate|]. intros dir [= <-]. discriminate.
  - intros n [= <-]. split; [discriminate|]. intros dir [= <-]. discriminate.
  - intros dir [= <-]. discriminate.
  - intros n [= <-]. discriminate.
Qed.

(** In development, and in production with a pair in the keyring. *)
Lemma desktop_starts_worker_witness :
  (exists f, parseWorkerFlags Atoi Atoi (ex_worker_args true) = Some f /\ wf_EnableHealthChecks f = true /\
    forall h, ex_dev_run f = inl h -> map rg_route (h_loops h) = [ByHTTP "http://127.0.0.1:9090"]) /\
  exists f cert key dir, parseWorkerFlags Atoi Atoi (ex_worker_args false) = Some f /\
    mc_files (as_machine ex_prod_state) !! cert = Some (Whole secretRefMTLSCert "cert") /\
    mc_files (as_machine ex_prod_state) !! key = Some (Whole secretRefMTLSKey "key") /\
    exists h r p, ex_dev_run f = inl h /\ h_loops h = [r] /\
      rg_route r = ByMTLS "http://127.0.0.1:9090" cert key (DesktopArgs.ex_join dir "ca.crt") "" /\
      posts (fun _ => Some "worker") (fun _ => true) (fun _ => Some "pem") (fun _ => true) (fun _ _ => true) h r p /\
      HasPrefix (hp_URL p) "http:" = true.
Proof.
  split.
  - destruct (desktop_starts_worker (B := WorkerServer.ex_worker) Atoi Atoi DesktopArgs.ex_join DesktopArgs.ex_os (DesktopArgs.ex_desktop true) DesktopArgs.ex_assets
      DesktopArgs.ex_assets (ex_worker_args true) Atoi_pretty (ex_machine_numbers true) ex_build_dev) as (cert & key & dir & Hp & Hh & _ & Hr).
    eexists. split; [exact Hp|]. split; [exact Hh|]. intros h Hrun.
    destruct (Hr eq_refl _ _ _ _ _ _ _ _ _ _ _ Hrun) as [Hdev _]. apply (Hdev eq_refl). reflexivity.
  - destruct (desktop_starts_worker (B := WorkerServer.ex_worker) Atoi Atoi DesktopArgs.ex_join DesktopArgs.ex_os (DesktopArgs.ex_desktop false) DesktopArgs.ex_assets
      ex_prod_state (ex_worker_args false) Atoi_pretty (ex_machine_numbers false) ex_build_prod) as (cert & key & dir & Hp & _ & Hn & Hr).
    destruct (Hn ex_new_names) as [Hf Hw]. specialize (Hw "cert" "key" eq_refl eq_refl).
    change (exists vcert vkey vca, worker_secrets DesktopArgs.ex_assets vcert vkey vca /\ held ex_prod_state cert secretRefMTLSCert vcert /\
      held ex_prod_state key secretRefMTLSKey vkey /\
      (nonempty vcert && nonempty vkey = true -> if String.eqb vca "" then dir = ""
       else dir <> "" /\ mc_files (as_machine ex_prod_state) !! DesktopArgs.ex_join dir "ca.crt" = Some (Whole secretRefMTLSCACert vca))) in Hf.
    destruct Hf as (vcert & vkey & vca & (Hvc & Hvk & _) & Hc & Hk & _).
    change (inl (B := apperr) "cert" = inl vcert) in Hvc. change (inl (B := apperr) "key" = inl vkey) in Hvk.
    injection Hvc as <-. injection Hvk as <-. destruct Hc as [Hne1 Hc], Hk as [Hne2 Hk].
    eexists _, cert, key, dir. split; [exact Hp|]. split; [exact Hc|]. split; [exact Hk|].
    set (f := desktop_worker_flags (DesktopArgs.ex_desktop false) cert key dir) in *.
    assert (Hd : rc_DevMode (run_config WorkerRun.ex_env f) = false) by reflexivity.
    assert (Hrouter : rc_ProdRouter (run_config WorkerRun.ex_env f) = "http://127.0.0.1:9090").
    { change ((if with_mtls (DesktopArgs.ex_desktop false) cert key then "http://127.0.0.1:9090" else "") = "http://127.0.0.1:9090").
      rewrite Hw. reflexivity. }
    destruct (RunWorker_mtls (B := WorkerServer.ex_worker) WorkerRun.ex_join (fun _ => None) (fun l => l) (fun _ => false) (fun _ => false) None
      (run_config WorkerRun.ex_env f) WorkerRun.ex_host zero_Capabilities (Some (ex_backend_of "ollama")) Hd)
      as (h & r & E & Hl & Hcancel & Hstop & _); [rewrite Hrouter; discriminate|].
    destruct (Hr eq_refl _ _ _ _ _ _ _ _ _ _ _ E) as [_ Hprod]. destruct (Hprod Hw) as (r' & Hl' & Hroute & Hpost).
    rewrite Hl in Hl'. injection Hl' as <-.
    assert (Hpo : exists p, posts (fun _ => Some "worker") (fun _ => true) (fun _ => Some "pem") (fun _ => true) (fun _ _ => true) h r p).
    { eexists. unfold posts, heartbeat. rewrite Hroute, Hcancel, Hstop. reflexivity. }
    destruct Hpo as [p Hpo]. exists h, r, p. split; [exact E|]. split; [exact Hl|]. split; [exact Hroute|]. split; [exact Hpo|].
    exact (proj1 (Hpost _ _ _ _ _ _ Hpo)).
Defined.
