(* ===== verification/RouterClient.v ===== *)
(** * RouterClient: the desktop's client of the router ([app/router_client.go], [worker_local.go])

    The client's state, its requests and what it makes of the responses, and the
    metadata routes of the router ([server.go]) that answer them.  JSON, the
    transport and the host's name are arguments. *)

From S2P Require Import Prelude GoFloat GoStrings Http Protocol Registry Scheduler CapabilityCache RequestTracker Selection Aliases.
From S2P Require Import AutoRouting Proxy Security WorkerClient Meta WorkerRun DesktopConfig DesktopArgs.
From stdpp Require Import pretty.
From Stdlib Require Import Ascii.

#[local] Open Scope Z_scope.
#[local] Open Scope list_scope.

(** ** The client *)

(** [T] are the TLS transports; [None] is the plain client. *)
Record RouterClient (T : Type) := mkClient {
  cl_baseURL : string;
  cl_localHostname : string;
  cl_client : option T;
  cl_apiKey : string;
}.
Arguments mkClient {T}.
Arguments cl_baseURL {T}.
Arguments cl_localHostname {T}.
Arguments cl_client {T}.
Arguments cl_apiKey {T}.

Definition upgradeToHTTPS (url : string) : string :=
  if HasPrefix url "http://" then "https://" +:+ TrimPrefix url "http://" else url.
Definition downgradeToHTTP (url : string) : string :=
  if HasPrefix url "https://" then "http://" +:+ TrimPrefix url "https://" else url.

Definition mustHostname (hostname : option string) : string := default "localhost" hostname.

(** [strings.EqualFold] is an argument. *)
Definition IsLocalWorker (EqualFold : string -> string -> bool) (localHostname wHostname : string) (wPort workerPort : Z) : bool :=
  if negb (String.eqb localHostname "") && negb (String.eqb wHostname "") then EqualFold wHostname localHostname
  else if negb (workerPort =? 0) && negb (wPort =? 0) then wPort =? workerPort
  else false.

Section client.
Context {T : Type}.

Definition NewRouterClient (hostname : option string) (baseURL : string) : RouterClient T :=
  mkClient (Normalize baseURL) (mustHostname hostname) None "".

Definition SetTransport (client : option T) (c : RouterClient T) : RouterClient T :=
  mkClient (if client then upgradeToHTTPS (cl_baseURL c) else downgradeToHTTP (cl_baseURL c)) (cl_localHostname c) client (cl_apiKey c).

Definition SetAPIKey (key : string) (c : RouterClient T) : RouterClient T :=
  mkClient (cl_baseURL c) (cl_localHostname c) (cl_client c) key.

Definition SetRouterURL (url : string) (c : RouterClient T) : RouterClient T :=
  let base := Normalize url in
  mkClient (if cl_client c then upgradeToHTTPS base else base) (cl_localHostname c) (cl_client c) (cl_apiKey c).

Definition client_IsLocalWorker (EqualFold : string -> string -> bool) (c : RouterClient T) (workerPort : Z) (hostname : string) (port : Z) : bool :=
  IsLocalWorker EqualFold (cl_localHostname c) hostname port workerPort.

(** ** Requests and responses *)

(** [dr_XAPIKey] is the empty string when the header is not sent. *)
Record desk_request := { dr_Method : method; dr_Base : string; dr_Path : string; dr_XAPIKey : string; dr_JSON : bool; dr_Body : string }.

(** A status and a body; [rs_Broken] when the body cannot be read to its end. *)
Record response := { rs_StatusCode : Z; rs_Body : string; rs_Broken : bool }.

Inductive client_error :=
| BuildRequest
| Unreachable (base : string)
| BadStatus (path : string) (status : Z) (body : string)
| ReadBody
| BadBody (snippet : string)
| NotOK (path : string)
| Marshal.

Definition truncateBody (b : string) : string :=
  if (length (to_bytes b) <=? 200)%nat then b else of_bytes (take 200 (to_bytes b)) +:+ "...".

(** [io.LimitReader(body, 1<<20)]. *)
Definition limited (b : string) : string :=
  if Z.of_nat (String.length b) <=? 1048576 then b else of_bytes (take (Z.to_nat 1048576) (to_bytes b)).

Definition request_for (m : method) (path : string) (body : string) (c : RouterClient T) : desk_request :=
  {| dr_Method := m; dr_Base := cl_baseURL c; dr_Path := path; dr_XAPIKey := cl_apiKey c;
     dr_JSON := match m with POST => true | _ => false end; dr_Body := body |}.

(** Whether a URL makes a request, and the exchange over the client's transport;
    [None] when the router cannot be reached. *)
Context (new_request : string -> bool) (Do : option T -> desk_request -> option response).

(** What all the functions of the client have in common. *)
Definition exchange (m : method) (path : string) (body : string) (c : RouterClient T) : string + client_error :=
  if negb (new_request (cl_baseURL c +:+ path)) then inr BuildRequest
  else
    match Do (cl_client c) (request_for m path body c) with
    | None => inr (Unreachable (cl_baseURL c))
    | Some r =>
        if negb (rs_StatusCode r =? 200) then inr (BadStatus path (rs_StatusCode r) (truncateBody (limited (rs_Body r))))
        else if rs_Broken r then inr ReadBody
        else inl (limited (rs_Body r))
    end.

(** Decoders of the bodies; [Some None] is a [null] list. *)
Class DesktopJSON := {
  dec_workers : string -> option (option (list WorkerView));
  dec_popular : string -> option (option (list PopularModelInfo));
  dec_requests : string -> option (option (list RequestRecord));
  dec_inference : string -> option (option (list WorkerInferenceStats));
  dec_count : string -> option Z;
  dec_auto : string -> option AutoRoutingConfigRequest;
  dec_ok : string -> option bool;
  enc_aliases : gmap string string -> option string;
  enc_auto : AutoRoutingConfigRequest -> option string;
}.

Context {J : DesktopJSON}.

Definition decode_list {A B} (dec : string -> option (option (list A))) (view : A -> B) (body : string) : list B + client_error :=
  match dec body with None => inr (BadBody (truncateBody body)) | Some l => inl (map view (default [] l)) end.

Definition get_list {A B} (dec : string -> option (option (list A))) (view : A -> B) (path : string) (c : RouterClient T) :
    list B + client_error :=
  match exchange GET path "" c with inr e => inr e | inl body => decode_list dec view body end.

(** ** Views *)

Record DeskWorkerView := {
  dw_ID : string;
  dw_Hostname : string;
  dw_IP : string;
  dw_Port : Z;
  dw_Status : string;
  dw_Version : string;
  dw_LoadedModels : list string;
  dw_LastSeen : Time;
  dw_LastSeenRel : string;
  dw_Address : string;
  dw_InFlight : Z;
  dw_MaxInFlight : Z;
  dw_TokensPerSecond : float64;
}.

Definition toWorkerView (w : WorkerView) : DeskWorkerView :=
  let host := if String.eqb (wv_Hostname w) "" then wv_IP w else wv_Hostname w in
  {| dw_ID := wv_ID w; dw_Hostname := wv_Hostname w; dw_IP := wv_IP w; dw_Port := wv_Port w;
     dw_Status := if String.eqb (wv_Status w) "" then StatusUnassigned else wv_Status w; dw_Version := wv_Version w;
     dw_LoadedModels := wv_LoadedModels w; dw_LastSeen := wv_LastSeen w; dw_LastSeenRel := "";
     dw_Address := if wv_Port w =? 0 then host else host +:+ ":" +:+ pretty (wv_Port w); dw_InFlight := wv_InFlight w;
     dw_MaxInFlight := wv_MaxInFlight w; dw_TokensPerSecond := wv_TokensPerSecond w |}.

(** [PopularModelView] and [InflightRequestView] have the router's fields. *)
Definition toPopularModelView (m : PopularModelInfo) : PopularModelInfo :=
  {| pm_Model := pm_Model m; pm_WorkerCount := pm_WorkerCount m; pm_LoadedWorkerCount := pm_LoadedWorkerCount m;
     pm_CallCount := pm_CallCount m |}.

Definition toInflightRequestView (r : RequestRecord) : RequestRecord :=
  {| rr_RequestID := rr_RequestID r; rr_Model := rr_Model r; rr_WorkerID := rr_WorkerID r; rr_WorkerHost := rr_WorkerHost r;
     rr_Kind := rr_Kind r; rr_StartedAt := rr_StartedAt r; rr_FinishedAt := rr_FinishedAt r; rr_Status := rr_Status r;
     rr_DurationMs := rr_DurationMs r |}.

Record InferenceStatsView := {
  is_WorkerID : string;
  is_Model : string;
  is_TokensPerSecond : float64;
  is_AvgTTFTMs : float64;
  is_RequestCount : Z;
  is_LastUpdated : string;
}.

Definition toInferenceStatsView (w : WorkerInferenceStats) : InferenceStatsView :=
  {| is_WorkerID := wis_WorkerID w; is_Model := wis_Model w; is_TokensPerSecond := wis_TokensPerSecond w;
     is_AvgTTFTMs := wis_AvgTTFTMs w; is_RequestCount := wis_Samples w; is_LastUpdated := "" |}.

(** [relativeLastSeen] at an age, [None] for the zero time. *)
Definition relativeLastSeen (age : option Duration) : string :=
  match age with
  | None => "never"
  | Some d =>
      if d <? 0 then "just now"
      else if d <? 60 * second then pretty (Z.quot d second) +:+ "s ago"
      else if d <? 3600 * second then pretty (Z.quot d minute) +:+ "m ago"
      else pretty (Z.quot d (60 * minute)) +:+ "h ago"
  end.

(** ** Calls *)

Definition GetWorkers : RouterClient T -> list DeskWorkerView + client_error := get_list dec_workers toWorkerView "/v1/workers".
Definition GetPopularModels : RouterClient T -> list PopularModelInfo + client_error :=
  get_list dec_popular toPopularModelView "/meta/models/popular".
Definition GetInflightRequests : RouterClient T -> list RequestRecord + client_error :=
  get_list dec_requests toInflightRequestView "/meta/requests/inflight".
Definition GetInferenceStats : RouterClient T -> list InferenceStatsView + client_error :=
  get_list dec_inference toInferenceStatsView "/v1/inference-stats".

Definition GetConnectionCount (c : RouterClient T) : Z + client_error :=
  match exchange GET "/meta/connections/count" "" c with
  | inr e => inr e
  | inl body => match dec_count body with None => inr (BadBody (truncateBody body)) | Some n => inl n end
  end.

Definition GetAutoRouting (c : RouterClient T) : AutoRoutingConfigRequest + client_error :=
  match exchange GET "/meta/auto-routing" "" c with
  | inr e => inr e
  | inl body => match dec_auto body with None => inr (BadBody (truncateBody body)) | Some cfg => inl cfg end
  end.

(** The end of both setters; [None] is the nil error. *)
Definition post_ok (path : string) (body : option string) (c : RouterClient T) : option client_error :=
  match body with
  | None => Some Marshal
  | Some body =>
      match exchange POST path body c with
      | inr e => Some e
      | inl raw =>
          match dec_ok raw with
          | None => Some (BadBody (truncateBody raw))
          | Some ok => if ok then None else Some (NotOK path)
          end
      end
  end.

Definition SetModelAliases (aliases : gmap string string) : RouterClient T -> option client_error := post_ok "/meta/aliases" (enc_aliases aliases).
Definition SetAutoRouting (cfg : AutoRoutingConfigRequest) : RouterClient T -> option client_error := post_ok "/meta/auto-routing" (enc_auto cfg).
End client.
