(* ===== verification/DesktopView.v ===== *)
(** * DesktopView: what the desktop sees of a router

    The metadata routes of the router ([Start] of [server.go]) behind
    its key check, answering the requests of [RouterClient]. *)

From stdpp Require Import pretty.
From S2P Require Import Prelude GoFloat GoStrings Http Protocol Registry Scheduler CapabilityCache RequestTracker Selection Aliases.
From S2P Require Import AutoRouting QueueStats Hub HubCore Proxy Security Meta RouterMain DesktopConfig DesktopArgs RouterClient.

#[local] Open Scope Z_scope.
#[local] Open Scope list_scope.

Section mux.
Context (range : nat -> forall A, gmap string A -> list (string * A)) (addr_string : string -> Z -> string).
Context {J : MetaJSON}.

(** The decoded bodies of the two setters, with the range orders over their maps. *)
Context (alias_body : string -> option (list (string * string))) (auto_request : string -> auto_body * list (string * string)).
Context (tiers : list (Z * string)) (ch : choices) (now : Time).

(** The metadata routes; [None] when the handler panics. *)
Definition metadata_mux (s : Server) (r : desk_request) : option (Server * ResponseWriter) :=
  let m := dr_Method r in
  let w := new_writer in
  if String.eqb (dr_Path r) "/v1/models" then Some (s, handleModelsList range m w s)
  else if String.eqb (dr_Path r) "/v1/workers" then Some (s, handleWorkersList range addr_string ch m w s)
  else if String.eqb (dr_Path r) "/v1/inference-stats" then Some (s, handleInferenceStats range m w s)
  else if String.eqb (dr_Path r) "/meta/models/popular" then handlePopularModels range now m w s
  else if String.eqb (dr_Path r) "/meta/aliases" then Some (handleSetAliases m (alias_body (dr_Body r)) w s)
  else if String.eqb (dr_Path r) "/meta/auto-routing" then
    let '(body, entries) := auto_request (dr_Body r) in Some (handleAutoRouting m body entries tiers w s)
  else if String.eqb (dr_Path r) "/meta/connections/count" then Some (s, handleConnectionCount range m w s)
  else if String.eqb (dr_Path r) "/meta/requests/inflight" then Some (handleInflightRequests range now m w s)
  else if String.eqb (dr_Path r) "/v1/queue/stats" then Some (s, handleQueueStats ch m w s)
  else Some (s, http_Error "404 page not found" 404 w).

(** ** The router behind its key check *)

Definition as_seen (r : desk_request) : request :=
  {| rq_Path := dr_Path r; rq_XAPIKey := dr_XAPIKey r; rq_Authorization := ""; rq_TLS := None |}.

Definition key_check (key : string) : handler := if String.eqb key "" then mux else wrap_paths router_guarded key mux.

Definition router_handle (key : string) (s : Server) (r : desk_request) : option (Server * ResponseWriter) :=
  match key_check key (as_seen r) with Some w => Some (s, w) | None => metadata_mux s r end.

(** The text of what is written that is not a body of this model. *)
Context (error_text : written -> string).

Definition body_text (w : ResponseWriter) : string :=
  foldr (fun x t => match x with Data d => d | e => error_text e end +:+ t) "" (rw_body w).

(** A transport that reaches the router in the state [s]; a panic closes the
    connection. *)
Definition reach {T} (key : string) (s : Server) (_ : option T) (r : desk_request) : option response :=
  '(_, w) ← router_handle key s r; Some {| rs_StatusCode := default 200 (rw_status w); rs_Body := body_text w; rs_Broken := false |}.

Definition state_after (key : string) (s : Server) (r : desk_request) : Server := from_option fst s (router_handle key s r).

(** The decoders read what the router's encoders wrote. *)
Class JSONAgrees `{D : DesktopJSON} := {
  agree_workers l b : json_workers l = Some b -> default [] <$> dec_workers b = Some l;
  agree_popular l b : json_popular l = Some b -> default [] <$> dec_popular b = Some l;
  agree_count n b : json_count n = Some b -> dec_count b = Some n;
  agree_ok b : json_ok = Some b -> dec_ok b = Some true;
  agree_aliases m b : enc_aliases m = Some b -> exists order, alias_body b = Some order /\ order ≡ₚ map_to_list m;
}.

Lemma key_check_passes key r : (dr_Path r ∈ router_guarded -> key <> "" -> dr_XAPIKey r = key) -> key_check key (as_seen r) = None.
Proof using.
  intros Hk. unfold key_check. apply guard_passes. split; [|done]. intros Hp Hne. specialize (Hk Hp Hne). unfold presented_key. simpl.
  rewrite Hk. by rewrite (proj2 (String.eqb_neq key "") Hne).
Qed.

Lemma key_check_refuses key r : dr_Path r ∈ router_guarded -> key <> "" -> dr_XAPIKey r <> key ->
  exists w, key_check key (as_seen r) = Some w /\ rw_status w = Some 401.
Proof using.
  intros Hp Hne Hk. unfold key_check. rewrite (proj2 (String.eqb_neq key "") Hne). unfold wrap_paths.
  rewrite (proj2 (existsb_exists _ _)) by (exists (dr_Path r); rewrite <-list_elem_of_In; split; [done|apply String.eqb_refl]).
  rewrite (proj2 (String.eqb_neq key "") Hne). unfold NewAPIKeyMiddleware. simpl.
  assert (Hpres : presented_key (as_seen r) = dr_XAPIKey r).
  { unfold presented_key. simpl. by destruct (String.eqb_spec (dr_XAPIKey r) "") as [->|]. }
  rewrite Hpres. destruct (String.eqb (dr_XAPIKey r) ""); [by eexists|].
  rewrite (proj2 (String.eqb_neq (dr_XAPIKey r) key) Hk). by eexists.
Qed.

Lemma append_nil (b : string) : b +:+ "" = b.
Proof using. rewrite <-(of_to_bytes (b +:+ "")), to_bytes_app, app_nil_r. apply of_to_bytes. Qed.

Lemma limited_id b : Z.of_nat (String.length b) <= 1048576 -> limited b = b.
Proof using. intros H. unfold limited. by rewrite (proj2 (Z.leb_le _ _) H). Qed.

(** An answer of a metadata handler: JSON that fits, status 200. *)
Lemma exchange_reply {T} key s (c : RouterClient T) m path body s' w b :
  let r := request_for m path body c in
  (path ∈ router_guarded -> key <> "" -> cl_apiKey c = key) ->
  metadata_mux s r = Some (s', w) -> default 200 (rw_status w) = 200 -> rw_body w = [Data b] ->
  Z.of_nat (String.length b) <= 1048576 ->
  exchange (fun _ => true) (reach key s) m path body c = inl b.
Proof using.
  intros r Hk Hm Hs Hb Hl. unfold exchange, reach, router_handle. fold r. rewrite key_check_passes by done. rewrite Hm. simpl. rewrite Hs. simpl.
  unfold body_text. rewrite Hb. simpl. by rewrite append_nil, limited_id.
Qed.

Lemma exchange_refused {T} key s (c : RouterClient T) m path body :
  path ∈ router_guarded -> key <> "" -> cl_apiKey c <> key ->
  (exists text, exchange (fun _ => true) (reach key s) m path body c = inr (BadStatus path 401 text)) /\
  state_after key s (request_for m path body c) = s.
Proof using.
  intros Hp Hne Hk. destruct (key_check_refuses key (request_for m path body c)) as (w & Hw & Hs); [done..|].
  unfold exchange, reach, state_after, router_handle. rewrite Hw. simpl. rewrite Hs. simpl. split; [by eexists|done].
Qed.

Context {D : DesktopJSON} {A : JSONAgrees}.

Definition fits (b : string) : Prop := Z.of_nat (String.length b) <= 1048576.

(** A view shows a worker of the router: its fields, the load of its hub, the
    status that follows from both, and an address to read. *)
Definition shows (s : Server) (w : WorkerInfo) (v : DeskWorkerView) : Prop :=
  let l := default zero_WorkerQueueStats (hubBusySnapshot ch (rt_hub s) !! wi_ID w) in
  let host := if String.eqb (wi_Hostname w) "" then wi_IP w else wi_Hostname w in
  let status := busyStatus (wi_Status w) l in
  dw_ID v = wi_ID w /\ dw_Hostname v = wi_Hostname w /\ dw_IP v = wi_IP w /\ dw_Port v = wi_Port w /\
  dw_Status v = (if String.eqb status "" then "unassigned" else status) /\ dw_Version v = wi_Version w /\
  dw_LoadedModels v = map mi_Name (List.filter mi_Loaded (cap_Models (wi_Capabilities w))) /\ dw_LastSeen v = wi_LastSeen w /\
  dw_InFlight v = wqs_InFlight l /\ dw_MaxInFlight v = wqs_MaxInFlight l /\
  dw_Address v = if wi_Port w =? 0 then host else host +:+ ":" +:+ pretty (wi_Port w).

Lemma views_show s : Forall2 (shows s) (listed_workers range s) (map toWorkerView (worker_views range addr_string ch s)).
Proof using.
  unfold worker_views. induction (listed_workers range s) as [|w ws IH]; simpl; [constructor|]. constructor; [by split_and!|exact IH].
Qed.

(** What [GetWorkers] returns over any transport: the views of a body of a status
    200 that is read to its end or its first mebibyte and decodes, or the error
    of the first step that fails. *)
Definition workers_outcome {T} (new_request : string -> bool) (Do : option T -> desk_request -> option response) (c : RouterClient T)
    (r : list DeskWorkerView + client_error) : Prop :=
  let sends := new_request (cl_baseURL c +:+ "/v1/workers") = true in
  let answer := Do (cl_client c) {| dr_Method := GET; dr_Base := cl_baseURL c; dr_Path := "/v1/workers"; dr_XAPIKey := cl_apiKey c;
                                    dr_JSON := false; dr_Body := "" |} in
  let read x := sends /\ answer = Some x /\ rs_StatusCode x = 200 in
  match r with
  | inr BuildRequest => ~ sends
  | inr (Unreachable base) => sends /\ base = cl_baseURL c /\ answer = None
  | inr (BadStatus path status text) => exists x, sends /\ path = "/v1/workers" /\ answer = Some x /\ status = rs_StatusCode x /\
      status <> 200 /\ text = truncateBody (limited (rs_Body x))
  | inr ReadBody => exists x, read x /\ rs_Broken x = true
  | inr (BadBody text) => exists x, read x /\ rs_Broken x = false /\ dec_workers (limited (rs_Body x)) = None /\
      text = truncateBody (limited (rs_Body x))
  | inl vs => exists x ws, read x /\ rs_Broken x = false /\ dec_workers (limited (rs_Body x)) = Some ws /\ vs = map toWorkerView (default [] ws)
  | inr (NotOK _ | Marshal) => False
  end.

Lemma GetWorkers_outcome {T} new_request (Do : option T -> desk_request -> option response) c :
  workers_outcome new_request Do c (GetWorkers new_request Do c).
Proof using.
  unfold GetWorkers, get_list, exchange, workers_outcome. fold (request_for GET "/v1/workers" "" c).
  destruct (new_request _) eqn:En; simpl; [|done].
  change {| dr_Method := GET; dr_Base := cl_baseURL c; dr_Path := "/v1/workers"; dr_XAPIKey := cl_apiKey c; dr_JSON := false; dr_Body := "" |}
    with (request_for GET "/v1/workers" "" c).
  destruct (Do _ _) as [x|] eqn:Ed; [|done]. destruct (Z.eqb_spec (rs_StatusCode x) 200) as [Es|Es]; simpl; [|by exists x].
  destruct (rs_Broken x) eqn:Eb; [by exists x|]. unfold decode_list. destruct (dec_workers _) as [ws|] eqn:Ew; [by exists x, ws|by exists x].
Qed.


(** C23: aliases that are set on a running router resolve as they will after a
    restart.  When every entry without a blank can be written on a command line,
    posting the map succeeds, and the router that runs with the arguments that the
    desktop builds from the settings that hold the map resolves every name as the
    first one does: as the map says, whatever the orders of the map. *)
Theorem aliases_live_or_restart {T K} `{Keyring K} key s (c : RouterClient T) m e ok settings aliases
    int duration float format_float stat read_file pem_block load_pair parse_certificate join issue o env listener (st st' : assets K) args p :
  (key <> "" -> cl_apiKey c = key) -> enc_aliases m = Some e -> json_ok = Some ok -> fits ok ->
  (forall n, in_int64 n -> int (pretty n) = Some n) -> (forall x, flt f0 x = true -> float (format_float x) = Some x) ->
  st_ModelAliases settings = Some m -> aliases ≡ₚ map_to_list m -> expressible aliases -> machine_tokens settings ->
  buildRouterArgs join issue o format_float settings aliases st = (st', inl args) ->
  runRouter int duration float stat read_file pem_block load_pair parse_certificate join env listener args = Runs p ->
  let live := state_after key s (request_for POST "/meta/aliases" e c) in
  RouterClient.SetModelAliases (fun _ => true) (reach key s) m c = None /\
  forall name,
    resolveAliasModel (rt_modelAliases live) name = resolveAliasModel (rt_modelAliases (rp_srv p)) name /\
    resolveAliasModel (rt_modelAliases (rp_srv p)) name =
      match m !! name with Some t => if nonempty name && nonempty t then t else name | None => name end.
Proof using A.
  intros Hk He Hok Hf Hint Hfloat Hm Hp Hw Htok Hargs Hrun live. destruct (agree_aliases m e He) as (order & Ho & Hord).
  assert (Hmux : metadata_mux s (request_for POST "/meta/aliases" e c) =
    Some (Meta.SetModelAliases (buildAliasConfig order) s, Write (Data ok) (WriteHeader 200 (as_json new_writer)))).
  { unfold metadata_mux. simpl. by rewrite Ho, Hok. }
  split.
  - unfold RouterClient.SetModelAliases, post_ok. rewrite He.
    erewrite exchange_reply; [| |exact Hmux|reflexivity|reflexivity|exact Hf]; [|by intros _]. by rewrite (agree_ok _ Hok).
  - intros name. destruct (desktop_router_flags int duration float _ _ _ _ _ _ _ _ _ Hint Hfloat Htok Hargs) as (dkey & cert & mkey & dir & _ & Hparse).
    destruct (runs_inv _ _ _ _ _ _ _ _ _ _ _ _ _ Hrun) as (f & Hf' & _ & _ & _ & _ & reg & Hsrv). rewrite Hparse in Hf'. injection Hf' as <-.
    rewrite Hsrv, (proj1 (configure_models _ _ _ _ _ _)), alias_resolution by (by rewrite ?Hm). rewrite Hm. simpl. split; [|done].
    unfold live, state_after, router_handle. rewrite key_check_passes by by intros _. rewrite Hmux. simpl.
    assert (Hwo : expressible order) by (unfold expressible; by rewrite Hord, <-Hp).
    destruct (given_order m order Hord) as [Hnd _]. rewrite build_given by done. by apply alias_config_resolves.
Qed.
End mux.

(** ** A concrete exchange *)

#[export] Instance WorkerView_eq_dec : EqDecision WorkerView.
Proof. solve_decision. Defined.

Definition ex_choices : choices :=
  {| ch_now := 0; ch_pick _ := O; ch_range l := l; ch_range_perm l := reflexivity l; ch_id n := "id"; ch_ctx := None |}.
Definition ex_views : list WorkerView := worker_views Meta.ex_range (fun ip _ => ip) ex_choices ex_meta.

#[local] Instance ex_meta_json : MetaJSON := {
  json_workers l := if decide (l = ex_views) then Some "workers" else None;
  json_models _ := None;
  json_popular _ := None;
  json_ok := Some "ok";
  json_auto _ := None;
  json_requests _ := None;
  json_count n := if decide (n = 2) then Some "2" else None;
  json_inference _ := None;
  json_queue _ := None;
}.

Definition ex_live : gmap string string := {[ "fast" := "llama=q4" ]}.

#[local] Instance ex_desktop_json : DesktopJSON := {
  dec_workers b := if String.eqb b "workers" then Some (Some ex_views) else None;
  dec_popular _ := None;
  dec_requests _ := None;
  dec_inference _ := None;
  dec_count b := if String.eqb b "2" then Some 2 else None;
  dec_auto _ := None;
  dec_ok b := if String.eqb b "ok" then Some true else None;
  enc_aliases m := if decide (m = ex_live) then Some "aliases" else None;
  enc_auto _ := None;
}.

Definition ex_alias_body (b : string) : option (list (string * string)) :=
  if String.eqb b "aliases" then Some [("fast", "llama=q4")] else None.

#[local] Instance ex_agrees : JSONAgrees ex_alias_body.
Proof.
  split; simpl.
  - intros l b. case_decide as Hl; [|done]. intros [= <-]. simpl. by rewrite Hl.
  - done.
  - intros n b. case_decide as Hn; [|done]. intros [= <-]. simpl. by rewrite Hn.
  - by intros b [= <-].
  - intros m b. case_decide as Hm; [|done]. intros [= <-]. exists [("fast", "llama=q4")]. split; [done|]. rewrite Hm. vm_compute. reflexivity.
Qed.

Definition ex_client (key : string) : RouterClient unit := SetAPIKey key (NewRouterClient (Some "box") ":9090").

Definition ex_reach := reach (T := unit) Meta.ex_range (fun ip _ => ip) ex_alias_body (fun _ => (EmptyBody, [])) [] ex_choices 0 (fun _ => "error").

Example ex_addresses : map dw_ID (map toWorkerView ex_views) = ["a"; "b"].
Proof. vm_compute. reflexivity. Qed.


(** The desktop restarts the router with the map in its settings. *)
Definition ex_restart_args : list string :=
  match (ex_build true).2 with inl args => args | inr _ => [] end.
Definition ex_restarted : outcome :=
  runRouter Numerals.Atoi Numerals.Atoi ex_float (fun _ => false) (fun _ => None) (fun _ => None) (fun _ _ => false) (fun _ => false) ex_join
    (fun _ => "") false ex_restart_args.

Lemma aliases_live_or_restart_witness :
  resolveAliasModel (rt_modelAliases (state_after Meta.ex_range (fun ip _ => ip) ex_alias_body (fun _ => (EmptyBody, [])) [] ex_choices 0
    "sesame" ex_meta (request_for POST "/meta/aliases" "aliases" (ex_client "sesame")))) "fast" = "llama=q4" /\
  match ex_restarted with Runs p => resolveAliasModel (rt_modelAliases (rp_srv p)) "fast" = "llama=q4" | Exits _ => False end.
Proof.
  destruct ex_restarted as [n|p] eqn:E; [vm_compute in E; discriminate E|].
  destruct (aliases_live_or_restart Meta.ex_range (fun ip _ => ip) ex_alias_body (fun _ => (EmptyBody, [])) [] ex_choices 0 (fun _ => "error")
    "sesame" ex_meta (ex_client "sesame") ex_live "aliases" "ok" (DesktopArgs.ex_desktop true) [("fast", "llama=q4")]
    Numerals.Atoi Numerals.Atoi ex_float ex_format (fun _ => false) (fun _ => None) (fun _ => None) (fun _ _ => false) (fun _ => false) ex_join
    (fun _ _ _ => true) ex_os (fun _ => "") false ex_assets ex_assets ex_restart_args p) as [_ H].
  - done.
  - reflexivity.
  - reflexivity.
  - unfold fits. vm_compute. discriminate.
  - exact Numerals.Atoi_pretty.
  - exact ex_float_format.
  - reflexivity.
  - vm_compute. reflexivity.
  - exact DesktopArgs.ex_writable.
  - split; vm_compute; split; discriminate.
  - vm_compute. reflexivity.
  - exact E.
  - destruct (H "fast") as [H1 H2]. split; [rewrite H1, H2; reflexivity|rewrite H2; reflexivity].
Defined.

(** An alias with a comma or an equals sign works live and is another one after a
    restart. *)
Example ex_inexpressible :
  resolveAliasModel (buildAliasConfig [("a=b", "m")]) "a=b" = "m" /\
  resolveAliasModel (ParseModelAliases (String.concat "," (alias_parts [("a=b", "m")]))) "a=b" = "a=b" /\
  resolveAliasModel (ParseModelAliases (String.concat "," (alias_parts [("a=b", "m")]))) "a" = "b=m".
Proof. vm_compute. split_and!; reflexivity. Qed.
