(* ===== verification/Supervisor.v ===== *)
(** * Supervisor: the processes that the desktop runs ([app/])

    [process.go] and [supervisor_process.go] (starting and stopping), [health.go]
    (the status) and the transport functions of [mtls.go].  The operations are
    sequences of the pieces between two uses of the mutex, which interleave in
    the step relation.  The operating system's answers are arguments. *)

From S2P Require Import Prelude GoFloat GoStrings Aliases Flags WorkerClient WorkerRun Meta DesktopConfig DesktopArgs RouterClient.
From stdpp Require Import pretty.

#[local] Open Scope Z_scope.
#[local] Open Scope list_scope.

(** ** One child ([supervisor_process.go]) *)

Inductive role := roleRouter | roleWorker.

#[export] Instance role_eq_dec : EqDecision role.
Proof. solve_decision. Defined.

(** [mp_log] stands for the log path, which the role gives; [mp_cmd] is
    [cmd != nil]; [mp_waited] that [waitExit] has ended. *)
Record managedProcess := mkProcess {
  mp_log : role;
  mp_cmd : bool;
  mp_pid : Z;
  mp_stopped : bool;
  mp_exitErr : bool;
  mp_exitCode : Z;
  mp_waited : bool;
}.

Definition newManagedProcess (r : role) : managedProcess := mkProcess r false 0 false false 0 false.

(** What the system answers to a start: the binary is missing, the log file cannot
    be opened, [cmd.Start] fails, or a process runs. *)
Inductive exec := NoBinary | NoLog | NoStart | Started (pid : Z).

Definition start (e : exec) (m : managedProcess) : managedProcess * option apperr :=
  if mp_cmd m then (m, Some (OtherError "process already started"))
  else
    match e with
    | NoBinary => (m, Some (OtherError "binary not found at"))
    | NoLog => (m, Some (OtherError "open log file"))
    | NoStart => (mkProcess (mp_log m) false (mp_pid m) (mp_stopped m) (mp_exitErr m) (-1) (mp_waited m), Some (OtherError "start"))
    | Started pid => (mkProcess (mp_log m) true pid (mp_stopped m) (mp_exitErr m) (-1) false, None)
    end.

(** How a child ends: with a code, by a signal, or [Wait] fails otherwise. *)
Inductive ending := Code (n : Z) | Signalled | WaitFailed.

Definition waitExit (e : ending) (m : managedProcess) : managedProcess :=
  let '(err, code) := match e with
                      | Code n => (negb (n =? 0), n)
                      | Signalled => (true, -1)
                      | WaitFailed => (true, 1)
                      end in
  mkProcess (mp_log m) (mp_cmd m) (mp_pid m) (mp_stopped m) err code true.

(** The null signal reaches a child until it has been waited for. *)
Definition isAlive (m : managedProcess) : bool := mp_cmd m && negb (mp_waited m).

(** [stop] up to the signal; it then waits for the end of the child. *)
Definition stop (m : managedProcess) : managedProcess :=
  if mp_cmd m then mkProcess (mp_log m) true (mp_pid m) true (mp_exitErr m) (mp_exitCode m) (mp_waited m) else m.

Record processInfo := { pi_Running : bool; pi_PID : Z; pi_Stopped : bool; pi_ExitCode : Z }.

Definition status (m : managedProcess) : processInfo :=
  if mp_cmd m then
    {| pi_Running := negb (mp_stopped m || mp_exitErr m) && isAlive m; pi_PID := mp_pid m; pi_Stopped := mp_stopped m;
       pi_ExitCode := mp_exitCode m |}
  else {| pi_Running := false; pi_PID := 0; pi_Stopped := false; pi_ExitCode := mp_exitCode m |}.

(** ** The status ([health.go]) *)

Inductive ProcessState := StateStopped | StateRunning | StateError.

(** The text of [ps.Error]. *)
Inductive shown_error := NoError | StartError (e : apperr) | ExitedWith (code : Z) | HealthFailed.

Record ProcessStatus := {
  ps_State : ProcessState;
  ps_Running : bool;
  ps_Healthy : bool;
  ps_Registered : bool;
  ps_PID : Z;
  ps_Error : shown_error;
}.

Definition buildProcessStatus (info : processInfo) (startErr : option apperr) (healthy registered : bool) : ProcessStatus :=
  let ps state running healthy error :=
    {| ps_State := state; ps_Running := running; ps_Healthy := healthy; ps_Registered := registered; ps_PID := pi_PID info; ps_Error := error |} in
  if negb (pi_Running info) then
    let exited := if 0 <? pi_ExitCode info then ps StateError false false (ExitedWith (pi_ExitCode info)) else ps StateStopped false false NoError in
    match startErr with
    | Some e => if (pi_PID info =? 0) && (pi_ExitCode info <? 0) then ps StateError false false (StartError e) else exited
    | None => exited
    end
  else ps StateRunning true healthy (if healthy then NoError else HealthFailed).

Definition workerRegistered (workers : list DeskWorkerView) (port : Z) : bool := existsb (fun w => dw_Port w =? port) workers.

(** ** The supervisor ([supervisor.go], [process.go]) *)

Section supervisor.
Context {K : Type} `{Keyring K} {T : Type}.

Record supervisor := mkSupervisor {
  sv_procs : list managedProcess;
  sv_router : option nat;
  sv_worker : option nat;
  sv_workerStarting : bool;
  sv_routerErr : option apperr;
  sv_workerErr : option apperr;
  sv_assets : assets K;
  sv_client : option (RouterClient T);
}.

Definition child (s : supervisor) (r : role) : option nat := match r with roleRouter => sv_router s | roleWorker => sv_worker s end.

Definition with_procs (ps : list managedProcess) (s : supervisor) : supervisor :=
  mkSupervisor ps (sv_router s) (sv_worker s) (sv_workerStarting s) (sv_routerErr s) (sv_workerErr s) (sv_assets s) (sv_client s).
Definition with_assets (a : assets K) (s : supervisor) : supervisor :=
  mkSupervisor (sv_procs s) (sv_router s) (sv_worker s) (sv_workerStarting s) (sv_routerErr s) (sv_workerErr s) a (sv_client s).
Definition with_client (c : option (RouterClient T)) (s : supervisor) : supervisor :=
  mkSupervisor (sv_procs s) (sv_router s) (sv_worker s) (sv_workerStarting s) (sv_routerErr s) (sv_workerErr s) (sv_assets s) c.
Definition with_starting (b : bool) (s : supervisor) : supervisor :=
  mkSupervisor (sv_procs s) (sv_router s) (sv_worker s) b (sv_routerErr s) (sv_workerErr s) (sv_assets s) (sv_client s).

(** [mp != nil && mp.isAlive()]. *)
Definition running (s : supervisor) (r : role) : bool :=
  match child s r ≫= (sv_procs s !!.) with Some m => isAlive m | None => false end.

(** The answers of the system to one start; [st_settings] is what [loadSettings]
    returns. *)
Record start_env := {
  se_settings : Settings + apperr;
  se_stat : bool;
  se_os : os;
  se_aliases : list (string * string);
  se_logsDir : bool;
  se_exec : exec;
}.

Context (join : string -> string -> string) (issue : content -> content -> string -> bool) (format_float : float64 -> string).

(** From the check of the binary to [ensureLogsDir]: the arguments and the
    additions to the environment. *)
Definition prepare (r : role) (settings : Settings) (e : start_env) (s : supervisor) :
    supervisor * ((list string * list (string * string)) + apperr) :=
  if se_stat e then (s, inr errBinaryNotFound)
  else
    let build := match r with
                 | roleRouter => buildRouterArgs join issue (se_os e) format_float settings (se_aliases e)
                 | roleWorker => buildWorkerArgs join (se_os e) settings
                 end in
    let '(a, args) := build (sv_assets s) in
    match args with
    | inr err => (with_assets a s, inr err)
    | inl args =>
        let '(a, env) := buildEnv a in
        let s := with_assets a s in
        match env with
        | inr err => (s, inr err)
        | inl env => if se_logsDir e then (s, inr (OtherError "mkdir")) else (s, inl (args, env))
        end
    end.

(** The new process, its index and the error of its start. *)
Definition launch (r : role) (e : start_env) (s : supervisor) : supervisor * nat * option apperr :=
  let '(m, err) := start (se_exec e) (newManagedProcess r) in
  (with_procs (sv_procs s ++ [m]) s, length (sv_procs s), err).

Definition store (r : role) (i : nat) (err : option apperr) (s : supervisor) : supervisor :=
  match r with
  | roleRouter => mkSupervisor (sv_procs s) (Some i) (sv_worker s) (sv_workerStarting s) err (sv_workerErr s) (sv_assets s) (sv_client s)
  | roleWorker => mkSupervisor (sv_procs s) (sv_router s) (Some i) (sv_workerStarting s) (sv_routerErr s) err (sv_assets s) (sv_client s)
  end.

(** [buildTLSClient] ([mtls.go]): whether the pair loads and the authority parses;
    [tls] is the client of the three files. *)
Context (load_pair : string -> string -> bool) (ca_ok : string -> bool) (tls : string -> string -> string -> T).

Definition buildTLSClient (a : assets K) : option T :=
  let '(cert, key) := as_clientCertPaths a in
  let dir := as_caCertDir a in
  if negb (nonempty cert && nonempty key && nonempty dir) then None
  else if load_pair cert key && ca_ok (join dir "ca.crt") then Some (tls cert key dir) else None.

Definition updateRouterClientTransport (running : bool) (s : supervisor) : supervisor :=
  match sv_client s with
  | None => s
  | Some c =>
      if negb running then with_client (Some (SetAPIKey "" (SetTransport None c))) s
      else
        let c := SetTransport (buildTLSClient (sv_assets s)) c in
        let key := match (resolveSecret secretRefRouterAPIKey (sv_assets s)).2 with inl v => v | inr _ => "" end in
        with_client (Some (SetAPIKey key c)) s
  end.

Definition StartRouter (e : start_env) (s : supervisor) : supervisor * option apperr :=
  match se_settings e with
  | inr err => (s, Some err)
  | inl settings =>
      if running s roleRouter then (s, Some errRouterAlreadyRunning)
      else
        match prepare roleRouter settings e s with
        | (s, inr err) => (s, Some err)
        | (s, inl _) =>
            let '(s, i, err) := launch roleRouter e s in
            let s := store roleRouter i err s in
            match err with Some err => (s, Some err) | None => (updateRouterClientTransport true s, None) end
        end
  end.

Definition StartWorker (e : start_env) (s : supervisor) : supervisor * option apperr :=
  match se_settings e with
  | inr err => (s, Some err)
  | inl settings =>
      if sv_workerStarting s || running s roleWorker then (s, Some errWorkerAlreadyRunning)
      else
        match prepare roleWorker settings e (with_starting true s) with
        | (s, inr err) => (with_starting false s, Some err)
        | (s, inl _) =>
            let '(s, i, err) := launch roleWorker e s in (with_starting false (store roleWorker i err s), err)
        end
  end.

(** A child that is told to stop and ends as [fate] says. *)
Definition stop_child (r : role) (fate : ending) (s : supervisor) : supervisor :=
  match child s r with
  | None => s
  | Some i => with_procs (alter (fun m => if mp_cmd m && negb (mp_stopped m) && negb (mp_waited m) then waitExit fate (stop m) else stop m) i (sv_procs s)) s
  end.

Definition StopRouter (fate : ending) (s : supervisor) : supervisor :=
  match sv_router s with
  | None => s
  | Some _ =>
      let s := stop_child roleRouter fate s in
      let a := (set_ca "" (set_client ("", "") (sv_assets s)).1).1 in
      updateRouterClientTransport false (with_assets a s)
  end.

Definition StopWorker (fate : ending) (s : supervisor) : supervisor := stop_child roleWorker fate s.

Definition RestartRouter (fate : ending) (e : start_env) (s : supervisor) : supervisor * option apperr := StartRouter e (StopRouter fate s).
Definition RestartWorker (fate : ending) (e : start_env) (s : supervisor) : supervisor * option apperr := StartWorker e (StopWorker fate s).

(** [refuses] are the files that the system refuses to remove. *)
Definition StopAll (refuses : gset string) (fate_w fate_r : ending) (s : supervisor) : supervisor :=
  let s := stop_child roleRouter fate_r (stop_child roleWorker fate_w s) in with_assets (cleanupTempFiles refuses (sv_assets s)) s.

Definition IsRouterRunning (s : supervisor) : bool := running s roleRouter.
Definition IsWorkerRunning (s : supervisor) : bool := running s roleWorker.
End supervisor.

(** ** What is shown of a child *)

(** The life of a child so far. *)
Inductive life :=
| Failed (e : exec)
| Alive (pid : Z)
| Stopping (pid : Z)
| Ended (pid : Z) (e : ending)
| StoppedBy (pid : Z) (e : ending).

Definition process_of (r : role) (l : life) : managedProcess :=
  let run pid := (start (Started pid) (newManagedProcess r)).1 in
  match l with
  | Failed e => (start e (newManagedProcess r)).1
  | Alive pid => run pid
  | Stopping pid => stop (run pid)
  | Ended pid e => waitExit e (run pid)
  | StoppedBy pid e => waitExit e (stop (run pid))
  end.

Definition error_of (r : role) (l : life) : option apperr :=
  match l with Failed e => (start e (newManagedProcess r)).2 | _ => None end.

(** What the status shows.  A child is shown as running exactly when it was
    started and neither ended nor was told to stop, and it is then said to be
    unhealthy when its probe fails.  An error is shown for a start that [exec]
    refuses and for an exit with a positive code, stopped or not.  Two failures
    are shown as a plain stop: a start without a binary or a log file, and a child
    that a signal killed. *)
Theorem status_shown r l healthy registered :
  match l with Failed (Started _) => False | Alive pid | Stopping pid | Ended pid _ | StoppedBy pid _ => 0 < pid | _ => True end ->
  (forall n, l = Ended (mp_pid (process_of r l)) (Code n) \/ l = StoppedBy (mp_pid (process_of r l)) (Code n) -> 0 <= n) ->
  let ps := buildProcessStatus (status (process_of r l)) (error_of r l) healthy registered in
  (ps_Running ps = true <-> exists pid, l = Alive pid) /\
  (ps_State ps = StateRunning <-> ps_Running ps = true) /\
  (ps_State ps = StateError <->
     l = Failed NoStart \/ exists pid e, (l = Ended pid e \/ l = StoppedBy pid e) /\ (e = WaitFailed \/ exists n, e = Code n /\ 0 < n)) /\
  (ps_Healthy ps = true -> ps_Running ps = true /\ healthy = true) /\
  (ps_Running ps = true -> (ps_Error ps = HealthFailed <-> healthy = false)) /\
  (l = Failed NoBinary \/ l = Failed NoLog \/ (exists pid, l = Ended pid Signalled) ->
     ps_State ps = StateStopped /\ ps_Error ps = NoError).
Proof.
  intros Hl Hn ps. subst ps.
  assert (Hrun : forall pid, (process_of r (Alive pid)) = mkProcess r true pid false false (-1) false) by done.
  destruct l as [[| | |pid]|pid|pid|pid [n| |]|pid [n| |]]; try done; cbn in Hl |- *; unfold buildProcessStatus, status; cbn;
    rewrite ?orb_true_r, ?andb_false_r; cbn.
  all: try (assert (Hpos : 0 <= n) by (apply Hn; auto); destruct (Z.eqb_spec n 0) as [->|Hz]; cbn; rewrite ?(proj2 (Z.ltb_lt 0 n)) by lia).
  all: try (destruct healthy).
  all: split_and!; try naive_solver lia.
Qed.

(** ** Concurrent starts *)

Section concurrent.
Context {K : Type} `{Keyring K} {T : Type}.
Context (join : string -> string -> string) (issue : content -> content -> string -> bool) (format_float : float64 -> string).

(** How far a start has come: past the check, the process launched, stored, over. *)
Inductive phase := Checked | Launched (i : nat) (err : option apperr) | Stored | Over.

Definition thread : Type := role * phase.

(** The functions run between two uses of the mutex, and children end at any time.
    The other fields may change arbitrarily. *)
Inductive step : @supervisor K T * list thread -> @supervisor K T * list thread -> Prop :=
| begin_router s ts : running s roleRouter = false -> step (s, ts) (s, ts ++ [(roleRouter, Checked)])
| begin_worker s ts :
    sv_workerStarting s || running s roleWorker = false -> step (s, ts) (with_starting true s, ts ++ [(roleWorker, Checked)])
| prepare_fails s ts k r settings e s' err :
    ts !! k = Some (r, Checked) -> prepare join issue format_float r settings e s = (s', inr err) ->
    step (s, ts) (match r with roleRouter => s' | roleWorker => with_starting false s' end, <[k := (r, Over)]> ts)
| prepare_launches s ts k r settings e s1 x s2 i err :
    ts !! k = Some (r, Checked) -> prepare join issue format_float r settings e s = (s1, inl x) -> launch r e s1 = (s2, i, err) ->
    step (s, ts) (s2, <[k := (r, Launched i err)]> ts)
| stores s ts k r i err : ts !! k = Some (r, Launched i err) -> step (s, ts) (store r i err s, <[k := (r, Stored)]> ts)
| router_done s ts k : ts !! k = Some (roleRouter, Stored) -> step (s, ts) (s, <[k := (roleRouter, Over)]> ts)
| worker_done s ts k : ts !! k = Some (roleWorker, Stored) -> step (s, ts) (with_starting false s, <[k := (roleWorker, Over)]> ts)
| child_ends s ts i m e : sv_procs s !! i = Some m -> isAlive m = true -> step (s, ts) (with_procs (<[i := waitExit e m]> (sv_procs s)) s, ts)
| child_told s ts i m : sv_procs s !! i = Some m -> step (s, ts) (with_procs (<[i := stop m]> (sv_procs s)) s, ts)
| assets_change s ts a : step (s, ts) (with_assets a s, ts)
| client_changes s ts c : step (s, ts) (with_client c s, ts).

Definition idle (a : assets K) (c : option (RouterClient T)) : @supervisor K T * list thread :=
  (mkSupervisor [] None None false None None a c, []).

(** A live child of a role. *)
Definition live_child (s : @supervisor K T) (r : role) (i : nat) : Prop :=
  exists m, sv_procs s !! i = Some m /\ mp_log m = r /\ isAlive m = true.

(** A start of the worker that is not over. *)
Definition starting (ts : list thread) (k : nat) (p : phase) : Prop := ts !! k = Some (roleWorker, p) /\ p <> Over.

(** The worker's start holds the guard, and what it has launched is the only
    worker that can live. *)
Definition guarded (st : @supervisor K T * list thread) : Prop :=
  let '(s, ts) := st in
  (forall k k' p p', starting ts k p -> starting ts k' p' -> k = k') /\
  (sv_workerStarting s = true <-> exists k p, starting ts k p) /\
  (forall i, live_child s roleWorker i ->
     (exists k err, starting ts k (Launched i err)) \/ (sv_worker s = Some i /\ forall k p, starting ts k p -> p = Stored)) /\
  (forall k i err, starting ts k (Launched i err) -> (i < length (sv_procs s))%nat).

Lemma prepare_keeps r settings e (s s' : @supervisor K T) x :
  prepare join issue format_float r settings e s = (s', x) -> exists a, s' = with_assets a s.
Proof using.
  unfold prepare. destruct (se_stat e); [intros [= <- _]; exists (sv_assets s); by destruct s|]. intros Hp.
  repeat case_match; simplify_eq; by eexists.
Qed.

Lemma launch_adds r e (s s' : @supervisor K T) i err :
  launch r e s = (s', i, err) ->
  exists m, s' = with_procs (sv_procs s ++ [m]) s /\ i = length (sv_procs s) /\ mp_log m = r.
Proof using.
  unfold launch. destruct (start (se_exec e) (newManagedProcess r)) as [m err'] eqn:Es. intros [= <- <- _]. exists m.
  split_and!; [done|done|]. destruct (se_exec e); cbn in Es; by injection Es as <- <-.
Qed.

Lemma start_alive e r m err : start e (newManagedProcess r) = (m, err) -> isAlive m = true -> exists pid, e = Started pid.
Proof using. destruct e; intros [= <- <-]; try done. by exists pid. Qed.

(** Changing one child without making it live keeps the guard. *)
Lemma guarded_child (s : @supervisor K T) ts i m m' :
  sv_procs s !! i = Some m -> mp_log m' = mp_log m -> (isAlive m' = true -> isAlive m = true) ->
  guarded (s, ts) -> guarded (with_procs (<[i := m']> (sv_procs s)) s, ts).
Proof using.
  intros Hi Hlog Hal (G1 & G2 & G3 & G4). split_and!; [done|done| |].
  - intros j (n & Hj & Hn & Ha). apply G3. simpl in Hj. apply list_lookup_insert_Some in Hj as [(-> & -> & _)|[_ Hj]].
    + exists m. split_and!; [done|congruence|auto].
    + by exists n.
  - intros k j err Hk. simpl. rewrite length_insert. eauto.
Qed.

(** Threads of the router do not count. *)
Lemma starting_insert ts k r p p' j q :
  ts !! k = Some (r, p) -> starting (<[k := (r, p')]> ts) j q <->
    (j = k /\ r = roleWorker /\ q = p' /\ p' <> Over) \/ (j <> k /\ starting ts j q).
Proof using.
  intros Hk. unfold starting. assert (Hlen : (k < length ts)%nat) by (by apply lookup_lt_is_Some_1; exists (r, p)).
  destruct (decide (j = k)) as [->|Hne].
  - rewrite list_lookup_insert_eq by done. naive_solver.
  - rewrite list_lookup_insert_ne by done. naive_solver.
Qed.

Lemma starting_app ts r p j q : starting (ts ++ [(r, p)]) j q <-> starting ts j q \/ (j = length ts /\ r = roleWorker /\ q = p /\ p <> Over).
Proof using.
  unfold starting. rewrite lookup_app_Some, list_lookup_singleton_Some. split.
  - intros [[Hin|(Hl & Hj & [= -> ->])] Hq]; [by left|]. right. split_and!; [lia|done..].
  - intros [[Hin Hq]|(-> & -> & -> & Hp)]; [split; [by left|done]|]. split; [|done]. right. split; [done|]. by rewrite Nat.sub_diag.
Qed.

(** A thread of the router that moves on changes nothing for the guard. *)
Lemma guarded_router s ts k p p' :
  ts !! k = Some (roleRouter, p) -> guarded (s, ts) -> guarded (s, <[k := (roleRouter, p')]> ts).
Proof using.
  intros Hk (G1 & G2 & G3 & G4).
  assert (He : forall j q, starting (<[k := (roleRouter, p')]> ts) j q <-> starting ts j q).
  { intros j q. rewrite (starting_insert _ _ _ _ _ _ _ Hk). split; [intros [(_ & ? & _)|[_ ?]]; done|].
    intros Hj. right. split; [|done]. intros ->. destruct Hj as [Hj _]. congruence. }
  unfold guarded. setoid_rewrite He. done.
Qed.

Lemma guarded_assets s ts a : guarded (s, ts) -> guarded (with_assets a s, ts).
Proof using. done. Qed.

(** A start of the worker that goes on. *)
Lemma starting_move ts k p p' : starting ts k p -> p' <> Over ->
  (forall j j' q q', starting ts j q -> starting ts j' q' -> j = j') ->
  forall j q, starting (<[k := (roleWorker, p')]> ts) j q <-> j = k /\ q = p'.
Proof using.
  intros Hk Hp' Hu j q. destruct Hk as [Hk Hp]. rewrite (starting_insert _ _ _ _ _ _ _ Hk). split.
  - intros [(-> & _ & -> & _)|[Hne Hj]]; [done|]. destruct Hne. by apply (Hu j k q p).
  - intros [-> ->]. by left.
Qed.

Lemma starting_over ts k p : starting ts k p ->
  (forall j j' q q', starting ts j q -> starting ts j' q' -> j = j') ->
  forall j q, ~ starting (<[k := (roleWorker, Over)]> ts) j q.
Proof using.
  intros [Hk Hp] Hu j q. rewrite (starting_insert _ _ _ _ _ _ _ Hk). intros [(_ & _ & _ & ?)|[Hne Hj]]; [done|].
  destruct Hne. by apply (Hu j k q p).
Qed.

(** The end of a start of the worker, after it has stored its process or without one. *)
Lemma guarded_over s ts k p :
  starting ts k p -> p = Checked \/ p = Stored -> guarded (s, ts) -> guarded (with_starting false s, <[k := (roleWorker, Over)]> ts).
Proof using.
  intros Hk Hp (G1 & G2 & G3 & G4). pose proof (starting_over ts k p Hk G1) as Hno.
  split_and!; [intros j j' q q' Hj; by destruct (Hno j q)|split; [done|intros (j & q & Hj); by destruct (Hno j q)]| |intros j i err Hj; by destruct (Hno _ _ Hj)].
  intros i Hi. right. destruct (G3 i Hi) as [(j & err & Hj)|[Hw Hs]].
  - assert (j = k) as -> by by eapply G1. destruct Hj as [Hj _], Hk as [Hk _]. destruct Hp as [-> | ->]; congruence.
  - split; [done|]. intros j q Hj. by destruct (Hno j q).
Qed.

Lemma live_launch r e (s s' : @supervisor K T) i err j r' :
  launch r e s = (s', i, err) -> live_child s' r' j -> live_child s r' j \/ (j = i /\ r' = r).
Proof using.
  intros (m & -> & -> & Hm)%launch_adds (n & Hj & Hn & Ha). simpl in Hj.
  apply lookup_app_Some in Hj as [Hj|[Hl Hj]]; [left; by exists n|].
  apply list_lookup_singleton_Some in Hj as [Hj <-]. right. split; [lia|congruence].
Qed.

Lemma step_guarded st st' : step st st' -> guarded st -> guarded st'.
Proof using.
  intros Hst. destruct Hst as [s ts Hr|s ts Hw|s ts k r settings e s' err Hk Hp|s ts k r settings e s1 x s2 i err Hk Hp Hl|s ts k r i err Hk
    |s ts k Hk|s ts k Hk|s ts i m e Hi Ha|s ts i m Hi|s ts a|s ts c]; try done.
  - intros (G1 & G2 & G3 & G4).
    assert (He : forall j q, starting (ts ++ [(roleRouter, Checked)]) j q <-> starting ts j q).
    { intros j q. rewrite starting_app. split; [intros [?|(_ & ? & _)]; done|by left]. }
    unfold guarded. setoid_rewrite He. done.
  - apply orb_false_iff in Hw as [Hs Hr]. intros (G1 & G2 & G3 & G4).
    assert (Hno : forall j q, ~ starting ts j q).
    { intros j q Hj. assert (sv_workerStarting s = true) by (apply G2; eauto). congruence. }
    assert (He : forall j q, starting (ts ++ [(roleWorker, Checked)]) j q <-> j = length ts /\ q = Checked).
    { intros j q. rewrite starting_app. split; [intros [Hj|(-> & _ & -> & _)]; [by destruct (Hno j q)|done]|intros [-> ->]; by right]. }
    unfold guarded. setoid_rewrite He. split_and!.
    + by intros j j' q q' [-> _] [-> _].
    + simpl. split; [eauto|done].
    + intros i (m & Hi & Hm & Ha). exfalso. destruct (G3 i) as [(j & err & Hj)|[Hwi _]]; [by exists m|by destruct (Hno _ _ Hj)|].
      simpl in Hi, Hwi. unfold running in Hr. simpl in Hr. rewrite Hwi in Hr. simpl in Hr. rewrite Hi in Hr. congruence.
    + by intros j i err [_ ?].
  - intros G. destruct (prepare_keeps _ _ _ _ _ _ Hp) as [a ->]. destruct r.
    + by apply (guarded_router _ _ _ Checked), guarded_assets.
    + apply (guarded_over _ _ k Checked); [by split|by left|by apply guarded_assets].
  - intros G. destruct (prepare_keeps _ _ _ _ _ _ Hp) as [a ->]. apply (guarded_assets _ _ a) in G.
    set (s0 := with_assets a s) in *. clearbody s0. pose proof (launch_adds _ _ _ _ _ _ Hl) as (m & -> & -> & Hm).
    assert (Hlive := fun j r' => live_launch _ _ _ _ _ _ j r' Hl). destruct G as (G1 & G2 & G3 & G4). destruct r.
    + apply (guarded_router _ _ _ Checked); [done|]. split_and!; [done|done| |].
      * intros j [Hj|[_ ?]]%Hlive; [by apply G3|done].
      * intros j i err' Hj. simpl. rewrite length_app. specialize (G4 _ _ _ Hj). lia.
    + assert (Hc : starting ts k Checked) by by split.
      pose proof (starting_move ts k Checked (Launched (length (sv_procs s0)) err) Hc ltac:(done) G1) as He.
      unfold guarded. setoid_rewrite He. split_and!.
      * by intros j j' q q' [-> _] [-> _].
      * simpl. split; [eauto|]. intros _. apply G2. eauto.
      * intros j [Hj|[-> _]]%Hlive; [|left; by eauto]. exfalso.
        destruct (G3 j Hj) as [(j' & err' & Hj')|[_ Hs]]; [|by apply Hs in Hc].
        assert (j' = k) as -> by by eapply G1. destruct Hj' as [Hj' _]. congruence.
      * intros j i err' [_ [= -> _]]. simpl. rewrite length_app. simpl. lia.
  - intros G. destruct r.
    + exact (guarded_router (store roleRouter i err s) ts k (Launched i err) Stored Hk G).
    + destruct G as (G1 & G2 & G3 & G4). assert (Hc : starting ts k (Launched i err)) by by split.
      pose proof (starting_move ts k _ Stored Hc ltac:(done) G1) as He. unfold guarded. setoid_rewrite He. split_and!.
      * by intros j j' q q' [-> _] [-> _].
      * simpl. split; [eauto|]. intros _. apply G2. eauto.
      * intros j Hj. right. split; [|by intros j' p [_ ->]]. simpl. f_equal. destruct (G3 j Hj) as [(j' & err' & Hj')|[_ Hs]].
        -- assert (j' = k) as -> by by eapply G1. destruct Hj' as [Hj' _]. congruence.
        -- by apply Hs in Hc.
      * by intros j i' err' [_ ?].
  - by apply (guarded_router s ts k Stored).
  - intros G. apply (guarded_over _ _ k Stored); [by split|by right|done].
  - intros G. apply (guarded_child s ts i m); [done|by destruct e|by destruct e, m as [? [] ? ? ? ? []]|done].
  - intros G. apply (guarded_child s ts i m); [done|unfold stop; by destruct (mp_cmd m)| |done].
    unfold stop, isAlive. destruct (mp_cmd m) eqn:E; simpl; [done|by rewrite E].
Qed.

Definition over (ts : list thread) : Prop := forall k r p, ts !! k = Some (r, p) -> p = Over.

(** A start of a router in dev mode without a keyring. *)
Definition plain_start (pid : Z) : start_env :=
  {| se_settings := inl DefaultSettings; se_stat := false;
     se_os := {| os_MkdirAll := false; os_CreateTemp _ := None; os_WriteString _ := false; os_Chmod _ := false; os_Close _ := false;
                 os_MkdirTemp _ := None; os_WriteFile _ := false; os_Create _ := false; os_Encode _ := false; os_Refuses := ∅ |};
     se_aliases := []; se_logsDir := false; se_exec := Started pid |}.

Definition no_keys : assets K := mkAssets None {| mc_files := ∅; mc_dirs := ∅ |} [] "" ("", "").

Lemma plain_prepares pid (s : @supervisor K T) :
  sv_assets s = no_keys -> exists x, prepare join issue format_float roleRouter DefaultSettings (plain_start pid) s = (s, inl x).
Proof using. destruct s as [ps r w b e1 e2 a c]. simpl. intros ->. by eexists. Qed.

(** Two starts that overlap. *)
Lemma two_routers a c :
  exists s ts i j, rtc step (idle a c) (s, ts) /\ over ts /\ i <> j /\
    live_child s roleRouter i /\ live_child s roleRouter j /\ sv_router s = Some j.
Proof using.
  set (m pid := mkProcess roleRouter true pid false false (-1) false).
  set (st ps r := mkSupervisor ps r None false None None no_keys c : @supervisor K T).
  exists (st [m 1; m 2] (Some 1%nat)), [(roleRouter, Over); (roleRouter, Over)], 0%nat, 1%nat. split.
  - eapply rtc_l; [apply (assets_change _ _ no_keys)|]. change (with_assets no_keys _) with (st [] None).
    eapply rtc_l; [by apply begin_router|]. eapply rtc_l; [by apply begin_router|]. simpl app.
    destruct (plain_prepares 1 (st [] None) eq_refl) as [x1 H1].
    eapply rtc_l; [by eapply (prepare_launches _ _ 0%nat _ _ (plain_start 1)), eq_refl; [|exact H1]; reflexivity|]. cbn.
    destruct (plain_prepares 2 (st [m 1] None) eq_refl) as [x2 H2].
    eapply rtc_l; [by eapply (prepare_launches _ _ 1%nat _ _ (plain_start 2)), eq_refl; [|exact H2]; reflexivity|]. cbn.
    eapply rtc_l; [by eapply (stores _ _ 0%nat)|]. eapply rtc_l; [by eapply (stores _ _ 1%nat)|]. cbn.
    eapply rtc_l; [by eapply (router_done _ _ 0%nat)|]. eapply rtc_l; [by eapply (router_done _ _ 1%nat)|]. cbn. apply rtc_refl.
  - split; [by intros [|[|k]] r p [= _ <-]|]. split; [done|]. split; [by exists (m 1)|]. split; [by exists (m 2)|done].
Qed.

(** C16: never two workers.  Whatever starts, stops and exits interleave, at most one
    worker process lives, and once no start is under way it is the one that the
    supervisor refers to, which [StopWorker] and [StopAll] stop.  A start of the
    router has no such guard: two that overlap leave two routers alive, of which
    the supervisor knows one, so that the other is never stopped. *)
Theorem one_worker a c s ts :
  rtc step (idle a c) (s, ts) ->
  (forall i j, live_child s roleWorker i -> live_child s roleWorker j -> i = j) /\
  (over ts -> forall i, live_child s roleWorker i -> sv_worker s = Some i) /\
  exists s' ts' i j, rtc step (idle a c) (s', ts') /\ over ts' /\ i <> j /\
    live_child s' roleRouter i /\ live_child s' roleRouter j /\ sv_router s' = Some j.
Proof using.
  intros Hr. assert (G : guarded (s, ts)).
  { refine (rtc_invariant step guarded _ _ _ _ Hr); [intros x y Hx Hxy; by eapply step_guarded|].
    split_and!; [by intros k k' p p' [? _]|split; [done|by intros (k & p & [? _])]|by intros i (m & ? & _)|by intros k i err [? _]]. }
  destruct G as (G1 & G2 & G3 & G4). split_and!; [| |apply two_routers].
  - intros i j Hi Hj. destruct (G3 i Hi) as [(k & err & Hk)|[Hw Hs]], (G3 j Hj) as [(k' & err' & Hk')|[Hw' Hs']].
    + assert (k = k') as -> by by eapply G1. destruct Hk as [Hk _], Hk' as [Hk' _]. congruence.
    + by apply Hs' in Hk.
    + by apply Hs in Hk'.
    + congruence.
  - intros Hover i Hi. destruct (G3 i Hi) as [(k & err & [Hk Hp])|[Hw _]]; [|done]. by apply Hover in Hk.
Qed.
End concurrent.

(** ** The client that talks to the router *)

Section transport.
Context {K : Type} `{Keyring K} {T : Type}.
Context (join : string -> string -> string) (issue : content -> content -> string -> bool) (format_float : float64 -> string).
Context (load_pair : string -> string -> bool) (ca_ok : string -> bool) (tls : string -> string -> string -> T).

Lemma buildEnv_inv (a a' : assets K) env : buildEnv a = (a', inl env) -> a' = a.
Proof using.
  intros (a1 & c & Hc & (a2 & k & Hk & [= <- _])%bind_inv)%bind_inv.
  apply resolve_inv in Hc as ->. by apply resolve_inv in Hk.
Qed.

Lemma prepare_dev settings e (s s' : @supervisor K T) x :
  IsDev (modeFromSettings settings) = true ->
  prepare join issue format_float roleRouter settings e s = (s', inl x) -> sv_assets s' = sv_assets s /\ sv_client s' = sv_client s.
Proof using.
  unfold prepare. intros Hd. destruct (se_stat e); [done|].
  destruct (buildRouterArgs _ _ _ _ _ _ _) as [a [args|]] eqn:Hb; [|done].
  apply buildRouterArgs_shape in Hb as (key & cert & mkey & dir & _ & Hs & _). destruct (Hs Hd) as [-> _].
  destruct (buildEnv _) as [a [env|]] eqn:He; [|done]. apply buildEnv_inv in He as ->.
  destruct (se_logsDir e); [done|]. by intros [= <- _].
Qed.

(** A dev router that starts leaves the client with the certificate of before. *)
Lemma start_dev_client e settings (s s' : @supervisor K T) c :
  se_settings e = inl settings -> IsDev (modeFromSettings settings) = true -> sv_client s = Some c ->
  StartRouter join issue format_float load_pair ca_ok tls e s = (s', None) ->
  exists key, sv_client s' = Some (SetAPIKey key (SetTransport (buildTLSClient join load_pair ca_ok tls (sv_assets s)) c)).
Proof using.
  unfold StartRouter. intros -> Hd Hc. destruct (running s roleRouter); [done|].
  destruct (prepare _ _ _ _ _ _ _) as [s1 [x|]] eqn:Hp; [|done]. apply prepare_dev in Hp as [Ha Hc1]; [|done].
  destruct (launch roleRouter e s1) as [[s2 i] err] eqn:Hl. apply launch_adds in Hl as (m & -> & -> & _).
  destruct err; [done|]. intros [= <-]. unfold updateRouterClientTransport. simpl. rewrite Hc1, Hc, Ha. by eexists.
Qed.

Lemma StopRouter_clears fate (s : @supervisor K T) c i :
  sv_router s = Some i -> sv_client s = Some c ->
  let s' := StopRouter join load_pair ca_ok tls fate s in
  sv_client s' = Some (SetAPIKey "" (SetTransport None c)) /\ as_clientCertPaths (sv_assets s') = ("", "") /\ as_caCertDir (sv_assets s') = "".
Proof using.
  intros Hr Hc. unfold StopRouter. rewrite Hr. unfold updateRouterClientTransport, stop_child. simpl. rewrite Hr. simpl. by rewrite Hc.
Qed.

Lemma downgrade_plain url : HasPrefix (downgradeToHTTP url) "https://" = false.
Proof using. unfold downgradeToHTTP. destruct (HasPrefix url "https://") eqn:E; [done|exact E]. Qed.

(** How the desktop talks to a dev router.  After a restart in dev mode the
    client is a plain one without a certificate and dials no [https] address.  A
    start alone, after a production router that died by itself, still uses the
    certificate and the authority of that router: the client dials the plain
    router over TLS. *)
Theorem stale_transport e settings (s s' : @supervisor K T) c :
  se_settings e = inl settings -> IsDev (modeFromSettings settings) = true -> sv_client s = Some c ->
  (forall fate i, sv_router s = Some i -> RestartRouter join issue format_float load_pair ca_ok tls fate e s = (s', None) ->
     exists c', sv_client s' = Some c' /\ cl_client c' = None /\ HasPrefix (cl_baseURL c') "https://" = false) /\
  (StartRouter join issue format_float load_pair ca_ok tls e s = (s', None) ->
     exists c', sv_client s' = Some c' /\ cl_client c' = buildTLSClient join load_pair ca_ok tls (sv_assets s) /\
       (forall t, buildTLSClient join load_pair ca_ok tls (sv_assets s) = Some t -> cl_baseURL c' = upgradeToHTTPS (cl_baseURL c))).
Proof using.
  intros He Hd Hc. split.
  - intros fate i Hr Hs. destruct (StopRouter_clears fate s c i Hr Hc) as (Hc1 & Hp & Hca).
    apply (start_dev_client _ _ _ _ _ He Hd Hc1) in Hs as [key Hs]. eexists. split; [exact Hs|].
    assert (Hn : buildTLSClient join load_pair ca_ok tls (sv_assets (StopRouter join load_pair ca_ok tls fate s)) = None).
    { unfold buildTLSClient. by rewrite Hp. }
    rewrite Hn. split; [done|]. apply downgrade_plain.
  - intros Hs. apply (start_dev_client _ _ _ _ _ He Hd Hc) in Hs as [key Hs]. eexists. split; [exact Hs|].
    split; [done|]. simpl. by intros t ->.
Qed.
End transport.

(** ** The live status ([health.go]) *)

Record SupervisorStatus := { ss_Router : ProcessStatus; ss_Worker : ProcessStatus; ss_RouterURL : string }.

Section probes.
Context {K : Type} `{Keyring K} {T : Type} {J : DesktopJSON}.
Context (join : string -> string -> string) (load_pair : string -> string -> bool) (ca_ok : string -> bool) (tls : string -> string -> string -> T).
Context (new_request : string -> bool) (Do : option T -> desk_request -> option response).

Definition routerBaseURL (addr : string) : string := Normalize addr.

(** [hostname] is the answer of [os.Hostname], for a client made on the spot. *)
Definition defaultRouterProbe (hostname : option string) (st : Settings) (s : @supervisor K T) :
    @supervisor K T * (list DeskWorkerView + client_error) :=
  let key := match (resolveSecret secretRefRouterAPIKey (sv_assets s)).2 with inl v => v | inr _ => "" end in
  match sv_client s with
  | None =>
      let rc := NewRouterClient hostname (routerBaseURL (st_RouterAddr st)) in
      let rc := match buildTLSClient join load_pair ca_ok tls (sv_assets s) with Some t => SetTransport (Some t) rc | None => rc end in
      let rc := if nonempty key then SetAPIKey key rc else rc in
      (s, GetWorkers new_request Do rc)
  | Some c =>
      let c := SetAPIKey key (SetRouterURL (routerBaseURL (st_RouterAddr st)) c) in
      (with_client (Some c) s, GetWorkers new_request Do c)
  end.

(** [info] and error of a child that may be nil. *)
Definition child_info (s : @supervisor K T) (r : role) : processInfo * option apperr :=
  match child s r ≫= (sv_procs s !!.) with
  | Some m => (status m, match r with roleRouter => sv_routerErr s | roleWorker => sv_workerErr s end)
  | None => ({| pi_Running := false; pi_PID := 0; pi_Stopped := false; pi_ExitCode := 0 |}, None)
  end.

Definition plain_status : ProcessStatus :=
  {| ps_State := StateStopped; ps_Running := false; ps_Healthy := false; ps_Registered := false; ps_PID := 0; ps_Error := NoError |}.

(** [missing] tells whether the error of the settings is of a missing file;
    [worker_up] is the probe of the worker's port. *)
Definition Status (settings : Settings + apperr) (missing : bool) (hostname : option string) (worker_up : Z -> bool) (s : @supervisor K T) :
    @supervisor K T * (SupervisorStatus + apperr) :=
  match settings with
  | inr e => (s, if missing then inl {| ss_Router := plain_status; ss_Worker := plain_status; ss_RouterURL := "" |} else inr e)
  | inl settings =>
      let '(rInfo, rErr) := child_info s roleRouter in
      let '(wInfo, wErr) := child_info s roleWorker in
      let '(s, pool) := defaultRouterProbe hostname settings s in
      let routerUp := match pool with inl _ => true | inr _ => false end in
      let workers := match pool with inl l => l | inr _ => [] end in
      (s, inl {| ss_Router := buildProcessStatus rInfo rErr routerUp false;
                 ss_Worker := buildProcessStatus wInfo wErr (worker_up (st_WorkerPort settings)) (workerRegistered workers (st_WorkerPort settings));
                 ss_RouterURL := routerBaseURL (st_RouterAddr settings) |})
  end.

Lemma registered_shown info err healthy registered : ps_Registered (buildProcessStatus info err healthy registered) = registered.
Proof using. unfold buildProcessStatus. by repeat case_match. Qed.

Lemma healthy_shown info err healthy registered :
  ps_Healthy (buildProcessStatus info err healthy registered) = pi_Running info && healthy.
Proof using. unfold buildProcessStatus. destruct (pi_Running info); [done|]. by repeat case_match. Qed.

(** The live status.  It changes nothing but the address and the key of the
    client, which are then those of the settings and of the keyring; the router is
    healthy when it runs and its list of workers can be read.  The worker counts as registered exactly
    when some listed worker has its port, on whatever host, and whether the worker
    of this host runs or not. *)
Theorem registered_by_port settings missing hostname worker_up (s s' : @supervisor K T) ss c :
  sv_client s = Some c -> Status (inl settings) missing hostname worker_up s = (s', inl ss) ->
  let pool := (defaultRouterProbe hostname settings s).2 in
  (exists c', s' = with_client (Some c') s /\ pool = GetWorkers new_request Do c' /\ cl_client c' = cl_client c /\
     cl_baseURL c' = cl_baseURL (SetRouterURL (routerBaseURL (st_RouterAddr settings)) c) /\
     (forall key, resolveSecret secretRefRouterAPIKey (sv_assets s) = (sv_assets s, inl key) -> cl_apiKey c' = key)) /\
  (ps_Healthy (ss_Router ss) = true <-> pi_Running (child_info s roleRouter).1 = true /\ exists l, pool = inl l) /\
  (ps_Registered (ss_Worker ss) = true <-> exists l w, pool = inl l /\ w ∈ l /\ dw_Port w = st_WorkerPort settings).
Proof using.
  intros Hc. unfold Status, defaultRouterProbe. rewrite Hc. cbn [fst snd].
  destruct (child_info s roleRouter) as [rInfo rErr], (child_info s roleWorker) as [wInfo wErr].
  set (c' := SetAPIKey _ _). intros [= <- <-]. cbn [ss_Router ss_Worker fst]. rewrite registered_shown, healthy_shown. split_and!.
  - exists c'. subst c'. split_and!; [done..|]. simpl. by intros key ->.
  - rewrite andb_true_iff. destruct (GetWorkers new_request Do c') as [l|e]; naive_solver.
  - unfold workerRegistered. rewrite existsb_exists. destruct (GetWorkers new_request Do c') as [l|e].
    + split; [intros (w & Hw & Hp); exists l, w; split_and!; [done|by apply list_elem_of_In|lia]|].
      intros (l' & w & [= <-] & Hw & Hp). exists w. split; [by apply list_elem_of_In|lia].
    + split; [by intros (w & [] & _)|by intros (l & w & ? & _)].
Qed.
End probes.

(** ** Concrete runs *)

Definition ex_client : RouterClient string := NewRouterClient (Some "desk") ":8080".

(** The assets after a production router. *)
Definition ex_left : @supervisor memKeyring string :=
  mkSupervisor [waitExit (Code 1) (start (Started 7) (newManagedProcess roleRouter)).1] (Some 0%nat) None false None None
    (ex_build false).1 (Some (SetTransport (Some "mtls") ex_client)).

Definition ex_plain (pid : Z) : start_env := plain_start pid.

Lemma stale_transport_witness :
  exists s' c', StartRouter ex_join (fun _ _ _ => true) ex_format (fun _ _ => true) (fun _ => true) (fun cert _ _ => cert) (ex_plain 8) ex_left = (s', None) /\
    sv_client s' = Some c' /\ cl_client c' = Some "logs/infermesh-client-cert-/cert.pem" /\ cl_baseURL c' = "https://127.0.0.1:8080".
Proof.
  destruct (stale_transport ex_join (fun _ _ _ => true) ex_format (fun _ _ => true) (fun _ => true) (fun cert _ _ => cert) (ex_plain 8) DefaultSettings ex_left
    (StartRouter ex_join (fun _ _ _ => true) ex_format (fun _ _ => true) (fun _ => true) (fun cert _ _ => cert) (ex_plain 8) ex_left).1
    (SetTransport (Some "mtls") ex_client) eq_refl eq_refl eq_refl) as [_ H].
  destruct H as (c' & Hc & Ht & Hu); [vm_compute; reflexivity|]. eexists _, c'. split_and!; [vm_compute; reflexivity|exact Hc| |].
  - rewrite Ht. vm_compute. reflexivity.
  - rewrite (Hu "logs/infermesh-client-cert-/cert.pem"); vm_compute; reflexivity.
Defined.

Lemma status_shown_witness :
  let ps := buildProcessStatus (status (process_of roleRouter (Ended 7 Signalled))) None true true in
  ps_Running ps = false /\ ps_State ps = StateStopped /\ ps_Error ps = NoError.
Proof.
  destruct (status_shown roleRouter (Ended 7 Signalled) true true) as (H1 & _ & _ & _ & _ & H6).
  - reflexivity.
  - intros n [[=]|[=]].
  - split; [reflexivity|]. apply H6. right. right. by exists 7.
Defined.

(** A worker that starts and lives. *)
Definition ex_worker : @supervisor memKeyring string :=
  mkSupervisor [(start (Started 9) (newManagedProcess roleWorker)).1] None (Some 0%nat) false None None no_keys None.

Lemma ex_worker_starts : rtc (step ex_join (fun _ _ _ => true) ex_format) (idle no_keys None) (ex_worker, [(roleWorker, Over)]).
Proof.
  eapply rtc_l; [by apply begin_worker|]. simpl app.
  eapply rtc_l; [eapply (prepare_launches _ _ _ _ _ 0%nat _ DefaultSettings (ex_plain 9)); [reflexivity|vm_compute; reflexivity|vm_compute; reflexivity]|].
  eapply rtc_l; [by eapply (stores _ _ _ _ _ 0%nat)|]. eapply rtc_l; [by eapply (worker_done _ _ _ _ _ 0%nat)|]. apply rtc_refl.
Qed.

Lemma one_worker_witness : live_child ex_worker roleWorker 0 /\ sv_worker ex_worker = Some 0%nat.
Proof.
  destruct (one_worker ex_join (fun _ _ _ => true) ex_format no_keys None ex_worker [(roleWorker, Over)] ex_worker_starts) as (_ & H & _).
  assert (Hl : live_child ex_worker roleWorker 0) by (eexists; split_and!; reflexivity).
  split; [exact Hl|]. apply H; [|exact Hl]. by intros [|k] r p [= _ <-].
Defined.

(** A client that lists a worker of another host, on the port of the settings. *)
#[local] Instance ex_listing : DesktopJSON := {
  dec_workers _ := Some (Some [{| wv_ID := "w"; wv_Hostname := "elsewhere"; wv_IP := "10.0.0.9"; wv_Port := 8081; wv_Status := ""; wv_Version := "";
    wv_LoadedModels := []; wv_LastSeen := 0; wv_InFlight := 0; wv_MaxInFlight := 0; wv_TokensPerSecond := f0 |}]);
  dec_popular _ := None; dec_requests _ := None; dec_inference _ := None; dec_count _ := None; dec_auto _ := None; dec_ok _ := None;
  enc_aliases _ := None; enc_auto _ := None }.

Definition ex_reply : response := {| rs_StatusCode := 200; rs_Body := "[]"; rs_Broken := false |}.

Definition ex_status : @supervisor memKeyring string * (SupervisorStatus + apperr) :=
  Status ex_join (fun _ _ => true) (fun _ => true) (fun cert _ _ => cert) (fun _ => true) (fun _ _ => Some ex_reply) (inl DefaultSettings) false None
    (fun _ => false) ex_left.

(** A worker of another host counts as the one of this host. *)
Lemma registered_by_port_witness :
  exists s' ss, ex_status = (s', inl ss) /\ ps_Running (ss_Worker ss) = false /\ ps_Registered (ss_Worker ss) = true.
Proof.
  destruct (registered_by_port ex_join (fun _ _ => true) (fun _ => true) (fun cert _ _ => cert) (fun _ => true) (fun _ _ => Some ex_reply)
    DefaultSettings false None (fun _ => false) ex_left ex_status.1 (match ex_status.2 with inl ss => ss | inr _ => {| ss_Router := plain_status; ss_Worker := plain_status; ss_RouterURL := "" |} end)
    (SetTransport (Some "mtls") ex_client) eq_refl) as (_ & _ & Hr); [vm_compute; reflexivity|].
  eexists _, _. split; [vm_compute; reflexivity|]. split; [reflexivity|]. apply Hr.
  eexists _, _. split; [vm_compute; reflexivity|]. split; [apply list_elem_of_here|reflexivity].
Defined.
