(* ===== verification/Activation.v ===== *)
(** * Activation: one desktop per user ([app/instance_lock.go], [activation.go], [main_gui.go])

    The lock, the socket next to it, the two halves of the activation protocol on
    the bytes of a connection, and the instances of the application as a
    transition system.  The kernel's lock is exclusive and ends with its holder;
    a dial reaches the listener that is bound to the path, if it is still open. *)

From S2P Require Import Prelude GoStrings.
From stdpp Require Import pretty.
From Stdlib Require Import Ascii.

#[local] Open Scope Z_scope.
#[local] Open Scope list_scope.

(** ** Paths *)

Definition lockFilePath (join : string -> string -> string) (runtimeDir tempDir : string) (uid : Z) : string :=
  if negb (String.eqb runtimeDir "") then join runtimeDir "infermesh-desktop.lock"
  else join tempDir ("infermesh-desktop-" +:+ pretty uid +:+ ".lock").

Definition activationSocketPath (lockPath : string) : string := TrimSuffix lockPath ".lock" +:+ ".sock".

(** ** The protocol *)

Definition activationRequestMsg : string := "activate".
Definition activationAckMsg : string := "ok".
Definition maxActivationLine : nat := 64.

Definition newline : ascii := Ascii.ascii_of_nat 10.
Definition carriage : ascii := Ascii.ascii_of_nat 13.

(** [ReadString('\n')] on what arrives before the end or the deadline. *)
Fixpoint read_string (l : bytes) : option bytes :=
  match l with
  | [] => None
  | c :: l => if Ascii.eqb c newline then Some [c] else cons c <$> read_string l
  end.

(** [strings.TrimRight(line, "\r\n")]. *)
Fixpoint drop_eol (l : bytes) : bytes :=
  match l with
  | c :: l' => if Ascii.eqb c newline || Ascii.eqb c carriage then drop_eol l' else l
  | [] => []
  end.

Definition readLine (input : bytes) : option string :=
  line ← read_string (take maxActivationLine input); Some (of_bytes (reverse (drop_eol (reverse line)))).

(** The activation callback: nil, or what a call of it does. *)
Inductive callback := Nil | Returned (b : bool) | Panicked.

Definition runActivate (activate : callback) : bool := match activate with Returned b => b | _ => false end.

(** [serveConn]: whether the callback was called, and what is written before the
    connection is closed. *)
Definition serveConn (input : bytes) (activate : callback) : bool * bytes :=
  match readLine input with
  | None => (false, [])
  | Some req =>
      if negb (String.eqb (TrimSpace req) activationRequestMsg) then (false, [])
      else
        let called := match activate with Nil => false | _ => true end in
        if negb (runActivate activate) then (called, [])
        else (called, to_bytes activationAckMsg ++ [newline])
  end.

Inductive activation_error := DialFailed | WriteFailed | NoAck | UnexpectedReply (reply : string).

Definition request_bytes : bytes := to_bytes activationRequestMsg ++ [newline].

(** [requestActivation]: whether the dial and the write fail, and the bytes that
    come back in time. *)
Definition requestActivation (dial write : bool) (reply : bytes) : option activation_error :=
  if dial then Some DialFailed
  else if write then Some WriteFailed
  else
    match readLine reply with
    | None => Some NoAck
    | Some r => if String.eqb (TrimSpace r) activationAckMsg then None else Some (UnexpectedReply r)
    end.

Inductive secondLaunchOutcome := outcomeActivated | outcomeFallbackShown | outcomeFallbackFailed.

#[export] Instance outcome_eq_dec : EqDecision secondLaunchOutcome.
Proof. solve_decision. Defined.

Definition outcome_String (o : secondLaunchOutcome) : string :=
  match o with
  | outcomeActivated => "activated"
  | outcomeFallbackShown => "fallback-shown"
  | outcomeFallbackFailed => "fallback-failed"
  end.

(** [fallback] is nil or tells whether it fails; the flag tells whether an error is
    returned. *)
Definition handleSecondLaunch (activateErr : option activation_error) (fallback : option bool) : secondLaunchOutcome * bool :=
  match activateErr with
  | None => (outcomeActivated, false)
  | Some _ =>
      match fallback with
      | None | Some true => (outcomeFallbackFailed, true)
      | Some false => (outcomeFallbackShown, false)
      end
  end.

(** ** The instances of the application *)

(** How far an instance has come: before the lock; with it, before the removal of
    the socket, between the removal and the bind, serving ([ready] once the event
    loop runs) or without a listener, and after the socket's removal; a second
    instance and its end; an instance that could not ask for the lock; gone. *)
Inductive phase :=
| Fresh
| Holding
| Unlinked
| Listening (ready : bool)
| NoListener
| Closed
| Second
| Told (o : secondLaunchOutcome)
| FailOpen
| Gone.

Definition holder (p : phase) : bool :=
  match p with Holding | Unlinked | Listening _ | NoListener | Closed => true | _ => false end.

(** [w_lock] is the holder, [w_socket] the instance whose listener made the socket
    file, [w_shown] the instances whose windows were raised, the last one first. *)
Record world := mkWorld {
  w_insts : list phase;
  w_lock : option nat;
  w_socket : option nat;
  w_shown : list nat;
}.

Definition set_phase (i : nat) (p : phase) (w : world) : world := mkWorld (<[i := p]> (w_insts w)) (w_lock w) (w_socket w) (w_shown w).
Definition set_lock (l : option nat) (w : world) : world := mkWorld (w_insts w) l (w_socket w) (w_shown w).
Definition set_socket (s : option nat) (w : world) : world := mkWorld (w_insts w) (w_lock w) s (w_shown w).
Definition raise_window (j : nat) (w : world) : world := mkWorld (w_insts w) (w_lock w) (w_socket w) (j :: w_shown w).

(** The listener that a dial reaches, and whether its application is ready. *)
Definition reached (w : world) : option (nat * bool) :=
  j ← w_socket w; match w_insts w !! j with Some (Listening ready) => Some (j, ready) | _ => None end.

(** [kept] is what arrives of the reply in time. *)
Definition ask (w : world) (i : nat) (fallback : option bool) (kept : nat) : world :=
  match reached w with
  | None => set_phase i (Told (handleSecondLaunch (requestActivation true false []) fallback).1) w
  | Some (j, ready) =>
      let '(_, reply) := serveConn request_bytes (Returned ready) in
      let o := (handleSecondLaunch (requestActivation false false (take kept reply)) fallback).1 in
      let w := set_phase i (Told o) w in
      if ready then raise_window j w else w
  end.

(** A process that ends by itself or is killed; the kernel drops its lock. *)
Definition die (i : nat) (w : world) : world :=
  set_phase i Gone (if decide (w_lock w = Some i) then set_lock None w else w).

Inductive wstep : world -> world -> Prop :=
| launches w : wstep w (mkWorld (w_insts w ++ [Fresh]) (w_lock w) (w_socket w) (w_shown w))
| lock_taken w i : w_insts w !! i = Some Fresh -> w_lock w = None -> wstep w (set_lock (Some i) (set_phase i Holding w))
| lock_held w i j : w_insts w !! i = Some Fresh -> w_lock w = Some j -> wstep w (set_phase i Second w)
| lock_fails w i : w_insts w !! i = Some Fresh -> wstep w (set_phase i FailOpen w)
| unlinks w i : w_insts w !! i = Some Holding -> wstep w (set_socket None (set_phase i Unlinked w))
| binds w i : w_insts w !! i = Some Unlinked -> w_socket w = None -> wstep w (set_socket (Some i) (set_phase i (Listening false) w))
| bind_fails w i : w_insts w !! i = Some Unlinked -> wstep w (set_phase i NoListener w)
| chmod_fails w i : w_insts w !! i = Some Unlinked -> w_socket w = None -> wstep w (set_socket None (set_phase i NoListener w))
| gets_ready w i : w_insts w !! i = Some (Listening false) -> wstep w (set_phase i (Listening true) w)
| asks w i fallback kept : w_insts w !! i = Some Second -> wstep w (ask w i fallback kept)
| closes w i ready : w_insts w !! i = Some (Listening ready) -> wstep w (set_socket None (set_phase i Closed w))
| releases w i p : w_insts w !! i = Some p -> p = Closed \/ p = NoListener -> wstep w (die i w)
| dies w i p : w_insts w !! i = Some p -> wstep w (die i w).

Definition first : world := mkWorld [] None None [].

(** ** The protocol on bytes *)

Lemma read_string_line l : Forall (fun c => c <> newline) l -> read_string (l ++ [newline]) = Some (l ++ [newline]).
Proof.
  induction 1 as [|c l Hc _ IH]; simpl; [done|]. destruct (Ascii.eqb_spec c newline) as [|]; [done|]. by rewrite IH.
Qed.

Lemma read_string_Some l line : read_string l = Some line -> exists l' rest, line = l' ++ [newline] /\ l = line ++ rest /\ Forall (fun c => c <> newline) l'.
Proof.
  revert line. induction l as [|c l IH]; intros line; simpl; [done|]. destruct (Ascii.eqb_spec c newline) as [->|Hc].
  - intros [= <-]. by exists [], l.
  - intros (line' & Hl & ->)%fmap_Some. destruct (IH line' Hl) as (l' & rest & -> & -> & Hf). exists (c :: l'), rest. split_and!; [done..|by constructor].
Qed.

(** Nothing longer than the bound is a line, whatever follows it. *)
Lemma readLine_bounded input r : readLine input = Some r -> exists n, (n < maxActivationLine)%nat /\ input !! n = Some newline.
Proof.
  unfold readLine. intros (line & Hl & _)%bind_Some. apply read_string_Some in Hl as (l' & rest & -> & Ht & _).
  assert (Hn : take maxActivationLine input !! length l' = Some newline).
  { rewrite Ht, <-(assoc_L (++)), lookup_app_r, Nat.sub_diag by done. done. }
  apply lookup_take_Some in Hn as [Hn Hlt]. by exists (length l').
Qed.

(** The acknowledgement, cut to what has arrived. *)
Lemma ack_kept kept fallback :
  handleSecondLaunch (requestActivation false false (take kept (serveConn request_bytes (Returned true)).2)) fallback =
    if (3 <=? kept)%nat then (outcomeActivated, false) else handleSecondLaunch (Some NoAck) fallback.
Proof. do 3 (destruct kept as [|kept]; [done|]). simpl Nat.leb. by rewrite take_ge by (simpl; lia). Qed.

(** The two halves of the protocol.  A connection is acknowledged exactly when
    its first 64 bytes hold a line that says [activate] and the callback was
    called and returned true; a callback that is nil, returns false or panics is
    never acknowledged.  The other side then takes the launch for done; without an
    acknowledgement in time it falls back, and it fails only with its fallback. *)
Theorem handshake input activate kept fallback :
  let '(called, reply) := serveConn input activate in
  let '(o, err) := handleSecondLaunch (requestActivation false false (take kept reply)) fallback in
  (reply <> [] <-> activate = Returned true /\ exists r, readLine input = Some r /\ TrimSpace r = activationRequestMsg) /\
  (reply <> [] -> called = true) /\
  (o = outcomeActivated <-> reply <> [] /\ (3 <= kept)%nat) /\
  (o <> outcomeActivated -> (o = outcomeFallbackShown <-> fallback = Some false)) /\
  (err = true <-> o = outcomeFallbackFailed).
Proof.
  assert (Hno : forall called, let '(o, err) := handleSecondLaunch (requestActivation false false (take kept [])) fallback in
      ((@nil ascii) <> [] -> called = true) /\ (o = outcomeActivated <-> (@nil ascii) <> [] /\ (3 <= kept)%nat) /\
      (o <> outcomeActivated -> (o = outcomeFallbackShown <-> fallback = Some false)) /\ (err = true <-> o = outcomeFallbackFailed)).
  { intros called. rewrite take_nil. destruct fallback as [[]|]; simpl; naive_solver. }
  pose proof (Hno false) as Hf. pose proof (Hno true) as Ht. clear Hno. unfold serveConn at 1.
  destruct (readLine input) as [r|]; [destruct (String.eqb_spec (TrimSpace r) activationRequestMsg) as [Hr|Hr]|].
  - destruct activate as [|[]|]; cbn [negb runActivate].
    + destruct (handleSecondLaunch _ _). split; [naive_solver|done].
    + change (to_bytes activationAckMsg ++ [newline]) with (serveConn request_bytes (Returned true)).2. rewrite ack_kept.
      destruct (Nat.leb_spec 3 kept) as [Hk|Hk]; [split_and!; naive_solver|].
      destruct fallback as [[]|]; simpl; split_and!; naive_solver lia.
    + destruct (handleSecondLaunch _ _). split; [naive_solver|done].
    + destruct (handleSecondLaunch _ _). split; [naive_solver|done].
  - cbn [negb]. destruct (handleSecondLaunch _ _). split; [naive_solver|done].
  - destruct (handleSecondLaunch _ _). split; [naive_solver|done].
Qed.

(** ** What the instances keep *)

#[export] Instance phase_eq_dec : EqDecision phase.
Proof. solve_decision. Defined.

Definition activated (l : list phase) : nat := length (filter (fun p => p = Told outcomeActivated) l).

Definition exclusive (w : world) : Prop :=
  (forall i, w_lock w = Some i <-> exists p, w_insts w !! i = Some p /\ holder p = true) /\
  (forall i r, w_insts w !! i = Some (Listening r) -> w_socket w = Some i) /\
  (activated (w_insts w) <= length (w_shown w))%nat.

Lemma activated_insert i p l : (activated (<[i := p]> l) <= activated l + if decide (p = Told outcomeActivated) then 1 else 0)%nat.
Proof.
  unfold activated. revert i. induction l as [|q l IH]; intros [|i]; simpl; try lia; rewrite !filter_cons; [|specialize (IH i)];
    repeat case_decide; simpl; try lia.
Qed.

Lemma phase_lookup w i p j q : w_insts (set_phase i p w) !! j = Some q -> (j = i /\ q = p) \/ (j <> i /\ w_insts w !! j = Some q).
Proof. simpl. rewrite list_lookup_insert_Some. naive_solver. Qed.

(** An instance moves on without touching the lock or the socket. *)
Lemma exclusive_move w i p q :
  w_insts w !! i = Some p -> holder q = holder p -> q <> Told outcomeActivated ->
  (forall r, q = Listening r -> exists r', p = Listening r') -> exclusive w -> exclusive (set_phase i q w).
Proof.
  intros Hi Hh Hq Hl (HL & HS & HC). assert (Hlen : (i < length (w_insts w))%nat) by (apply lookup_lt_is_Some; eauto). split_and!.
  - intros j. rewrite (HL j). simpl. destruct (decide (j = i)) as [->|Hne].
    + rewrite list_lookup_insert_eq by done. split.
      * intros (p0 & Hp0 & Ht). exists q. split; [done|congruence].
      * intros (p0 & [= <-] & Ht). exists p. split; [done|congruence].
    + by rewrite list_lookup_insert_ne.
  - intros j r [[-> Hr]|[_ Hj]]%phase_lookup; [|by eapply HS]. destruct (Hl r (eq_sym Hr)) as [r' ->]. by eapply HS.
  - simpl. pose proof (activated_insert i q (w_insts w)) as Ha. rewrite decide_False in Ha by done. lia.
Qed.

(** The holder may change the socket. *)
Lemma exclusive_socket w i p s :
  w_insts w !! i = Some p -> holder p = true -> (forall r, p = Listening r -> s = Some i) -> exclusive w -> exclusive (set_socket s w).
Proof.
  intros Hi Hp Hs (HL & HS & HC). split_and!; [done| |done]. intros j r Hj. simpl in Hj |- *.
  assert (Hlj : w_lock w = Some j) by (apply HL; eauto). assert (Hli : w_lock w = Some i) by (apply HL; eauto).
  assert (j = i) as -> by congruence. apply (Hs r). congruence.
Qed.

Lemma exclusive_die w i p : w_insts w !! i = Some p -> exclusive w -> exclusive (die i w).
Proof.
  intros Hi (HL & HS & HC). unfold die. assert (Hlen : (i < length (w_insts w))%nat) by (apply lookup_lt_is_Some; eauto).
  pose proof (activated_insert i Gone (w_insts w)) as Ha. rewrite decide_False in Ha by done.
  destruct (decide (w_lock w = Some i)) as [Hl|Hl]; split_and!; simpl; try lia.
  - intros j. split; [done|]. intros (q & Hj & Hq). exfalso. apply list_lookup_insert_Some in Hj as [(-> & <- & _)|[Hne Hj]]; [done|].
    assert (w_lock w = Some j) by (apply HL; eauto). congruence.
  - intros j r Hj. apply list_lookup_insert_Some in Hj as [(_ & [=] & _)|[_ Hj]]. by eapply HS.
  - intros j. rewrite (HL j). destruct (decide (j = i)) as [->|Hne]; [|by rewrite list_lookup_insert_ne].
    rewrite list_lookup_insert_eq by done. split; [|naive_solver]. intros Hp. destruct Hl. by apply HL.
  - intros j r Hj. apply list_lookup_insert_Some in Hj as [(_ & [=] & _)|[_ Hj]]. by eapply HS.
Qed.

Lemma reached_spec w j r : exclusive w -> reached w = Some (j, r) <-> w_insts w !! j = Some (Listening r).
Proof.
  intros (_ & HS & _). unfold reached. split.
  - intros (k & Hk & Hr)%bind_Some. by repeat case_match; simplify_eq.
  - intros Hj. rewrite (HS _ _ Hj). simpl. by rewrite Hj.
Qed.

(** What becomes of a second instance. *)
Lemma ask_spec w i fallback kept :
  exists o, w_insts (ask w i fallback kept) = <[i := Told o]> (w_insts w) /\ w_lock (ask w i fallback kept) = w_lock w /\
    w_socket (ask w i fallback kept) = w_socket w /\
    (o = outcomeActivated <-> exists j, reached w = Some (j, true) /\ (3 <= kept)%nat) /\
    w_shown (ask w i fallback kept) = match reached w with Some (j, true) => j :: w_shown w | _ => w_shown w end.
Proof.
  unfold ask. destruct (reached w) as [[j [|]]|] eqn:Er.
  - eexists. do 3 (split; [done|]). split; [|done]. rewrite ack_kept. destruct (Nat.leb_spec 3 kept); simpl; [naive_solver|].
    destruct fallback as [[]|]; simpl; naive_solver lia.
  - eexists. do 3 (split; [done|]). split; [|done]. cbn. rewrite take_nil. destruct fallback as [[]|]; simpl; naive_solver.
  - eexists. do 3 (split; [done|]). split; [|done]. destruct fallback as [[]|]; simpl; naive_solver.
Qed.

Lemma exclusive_ask w i fallback kept : w_insts w !! i = Some Second -> exclusive w -> exclusive (ask w i fallback kept).
Proof.
  intros Hi (HL & HS & HC). assert (Hlen : (i < length (w_insts w))%nat) by (apply lookup_lt_is_Some; eauto).
  destruct (ask_spec w i fallback kept) as (o & Hin & Hlk & Hso & Ho & Hsh). unfold exclusive. rewrite Hin, Hlk, Hso, Hsh. split_and!.
  - intros j. rewrite (HL j). destruct (decide (j = i)) as [->|Hne]; [|by rewrite list_lookup_insert_ne].
    rewrite list_lookup_insert_eq by done. split; [naive_solver|]. by intros (p & [= <-] & ?).
  - intros j r Hj. apply list_lookup_insert_Some in Hj as [(_ & [=] & _)|[_ Hj]]. by eapply HS.
  - pose proof (activated_insert i (Told o) (w_insts w)) as Ha. destruct (decide (Told o = Told outcomeActivated)) as [[= ->]|].
    + destruct Ho as [Ho _]. destruct (Ho eq_refl) as (j & -> & _). simpl. lia.
    + destruct (reached w) as [[j [|]]|]; simpl; lia.
Qed.

Lemma exclusive_taken w i : w_insts w !! i = Some Fresh -> w_lock w = None -> exclusive w -> exclusive (set_lock (Some i) (set_phase i Holding w)).
Proof.
  intros Hi Hn (HL & HS & HC). assert (Hlen : (i < length (w_insts w))%nat) by (apply lookup_lt_is_Some; eauto). split_and!.
  - intros j. simpl. split.
    + intros [= <-]. exists Holding. by rewrite list_lookup_insert_eq.
    + intros (p & [(<- & _)|[_ Hj]]%list_lookup_insert_Some & Hp); [done|]. assert (w_lock w = Some j) by (apply HL; eauto). congruence.
  - intros j r [[_ [=]]|[_ Hj]]%phase_lookup. by eapply HS.
  - simpl. pose proof (activated_insert i Holding (w_insts w)) as Ha. rewrite decide_False in Ha by done. lia.
Qed.

Lemma wstep_exclusive w w' : wstep w w' -> exclusive w -> exclusive w'.
Proof.
  intros Hs Hw. destruct Hs as [w|w i Hi Hn|w i j Hi _|w i Hi|w i Hi|w i Hi Hn|w i Hi|w i Hi Hn|w i Hi|w i fallback kept Hi|w i r Hi|w i p Hi _|w i p Hi].
  - destruct Hw as (HL & HS & HC). split_and!.
    + intros j. rewrite (HL j). simpl. split.
      * intros (p & Hj & Hp). exists p. split; [by apply lookup_app_l_Some|done].
      * intros (p & [Hj|[_ Hj]]%lookup_app_Some & Hp); [by exists p|]. by apply list_lookup_singleton_Some in Hj as [_ <-].
    + intros j r [Hj|[_ [_ [=]]%list_lookup_singleton_Some]]%lookup_app_Some. by eapply HS.
    + simpl. unfold activated. rewrite filter_app. simpl. rewrite length_app. simpl. unfold activated in HC. lia.
  - by apply exclusive_taken.
  - by apply (exclusive_move _ _ Fresh).
  - by apply (exclusive_move _ _ Fresh).
  - apply (exclusive_socket _ i Unlinked); [|done|done|by apply (exclusive_move _ _ Holding)].
    simpl. by apply list_lookup_insert_eq, lookup_lt_is_Some.
  - destruct Hw as (HL & HS & HC). assert (Hlen : (i < length (w_insts w))%nat) by (apply lookup_lt_is_Some; eauto). split_and!.
    + intros j. rewrite (HL j). simpl. destruct (decide (j = i)) as [->|Hne]; [|by rewrite list_lookup_insert_ne].
      rewrite list_lookup_insert_eq by done. naive_solver.
    + intros j r [[-> _]|[Hne Hj]]%phase_lookup; [done|]. destruct Hne.
      assert (w_lock w = Some j) by (apply HL; eauto). assert (w_lock w = Some i) by (apply HL; eauto). congruence.
    + simpl. pose proof (activated_insert i (Listening false) (w_insts w)) as Ha. rewrite decide_False in Ha by done. lia.
  - by apply (exclusive_move _ _ Unlinked).
  - apply (exclusive_socket _ i NoListener); [|done|done|by apply (exclusive_move _ _ Unlinked)].
    simpl. by apply list_lookup_insert_eq, lookup_lt_is_Some.
  - apply (exclusive_move _ _ (Listening false)); try done. eauto.
  - by apply exclusive_ask.
  - apply (exclusive_socket _ i Closed); [|done|done|by apply (exclusive_move _ _ (Listening r))].
    simpl. by apply list_lookup_insert_eq, lookup_lt_is_Some.
  - by eapply exclusive_die.
  - by eapply exclusive_die.
Qed.

(** C17: one desktop.  However instances start, end or are killed, at most one of
    them holds the lock; the socket is that of the holder as long as the holder
    listens, so that no leftover of a crash and no instance without the lock
    is ever asked.  A second launch is told that it activated the running one
    exactly when the holder's event loop runs and its acknowledgement arrives, and
    the holder's window has then been raised: there are never more such launches
    than windows raised. *)
Theorem single_instance w :
  rtc wstep first w ->
  (forall i j p q, w_insts w !! i = Some p -> w_insts w !! j = Some q -> holder p = true -> holder q = true -> i = j) /\
  (forall i r, w_insts w !! i = Some (Listening r) -> w_socket w = Some i /\ w_lock w = Some i) /\
  (activated (w_insts w) <= length (w_shown w))%nat /\
  forall i fallback kept, w_insts w !! i = Some Second ->
    let w' := ask w i fallback kept in
    (w_insts w' !! i = Some (Told outcomeActivated) <->
       exists j, w_insts w !! j = Some (Listening true) /\ (3 <= kept)%nat /\ w_shown w' = j :: w_shown w) /\
    w_lock w' = w_lock w /\ w_socket w' = w_socket w.
Proof.
  intros Hr. assert (Hw : exclusive w).
  { refine (rtc_invariant wstep exclusive _ _ _ _ Hr); [intros x y Hx Hxy; by eapply wstep_exclusive|].
    split_and!; [|done|done]. intros i. split; [done|]. by intros (p & ? & _). }
  pose proof Hw as (HL & HS & HC). split_and!; [| |done|].
  - intros i j p q Hi Hj Hp Hq. assert (w_lock w = Some i) by (apply HL; eauto). assert (w_lock w = Some j) by (apply HL; eauto). congruence.
  - intros i r Hi. split; [by eapply HS|]. apply HL. eauto.
  - intros i fallback kept Hi w'. destruct (ask_spec w i fallback kept) as (o & Hin & Hlk & Hso & Ho & Hsh). subst w'. rewrite Hin, Hlk, Hso, Hsh.
    split; [|done]. rewrite list_lookup_insert_eq by (apply lookup_lt_is_Some; eauto). split.
    + intros [= ->]. destruct Ho as [Ho _]. destruct (Ho eq_refl) as (j & Hj & Hk). exists j. rewrite Hj. split; [by apply reached_spec|done].
    + intros (j & Hj & Hk & _). do 2 f_equal. apply Ho. exists j. split; [by apply reached_spec|done].
Qed.

(** ** Two launches *)

Definition ex_two : world := mkWorld [Listening true; Second] (Some 0%nat) (Some 0%nat) [].

Lemma ex_two_reached : rtc wstep first ex_two.
Proof.
  eapply rtc_l; [apply launches|]. eapply rtc_l; [apply launches|]. simpl app.
  eapply rtc_l; [by apply (lock_taken _ 0%nat)|]. eapply rtc_l; [by eapply (lock_held _ 1%nat)|].
  eapply rtc_l; [by apply (unlinks _ 0%nat)|]. eapply rtc_l; [by apply (binds _ 0%nat)|].
  eapply rtc_l; [by apply (gets_ready _ 0%nat)|]. apply rtc_refl.
Qed.

Lemma single_instance_witness :
  w_insts (ask ex_two 1 (Some false) 3) !! 1%nat = Some (Told outcomeActivated) /\ w_shown (ask ex_two 1 (Some false) 3) = [0%nat].
Proof.
  destruct (single_instance ex_two ex_two_reached) as (_ & _ & _ & H).
  destruct (H 1%nat (Some false) 3%nat eq_refl) as [Ho _]. split; [|reflexivity]. apply Ho. exists 0%nat. split; [reflexivity|]. split; [lia|reflexivity].
Defined.

(** A late acknowledgement: the window is raised and the other side falls back. *)
Example ex_late : w_insts (ask ex_two 1 (Some false) 0) !! 1%nat = Some (Told outcomeFallbackShown) /\ w_shown (ask ex_two 1 (Some false) 0) = [0%nat].
Proof. split; reflexivity. Qed.

Example ex_paths : activationSocketPath (lockFilePath (fun d x => d +:+ "/" +:+ x) "" "/tmp" 1000) = "/tmp/infermesh-desktop-1000.sock".
Proof. vm_compute. reflexivity. Qed.
