(* ===== verification/Autostart.v ===== *)
(** * Autostart: the login item of the desktop application ([app/autostart.go], [app/autostart_backend.go])

    The service over the interface [autostarter], with what it promises as a
    class, and the three backends: System Events on macOS, the Run key on
    Windows, a desktop entry on Linux.  The commands of the host and the
    failures of the file system are arguments; an error is its text. *)

From S2P Require Import Prelude GoStrings.
From stdpp Require Import pretty.
From Stdlib Require Import Ascii.

#[local] Open Scope list_scope.

(** ** The service ([autostart.go]) *)

(** The methods over the state [W] of the host; [Some] text is an error. *)
Record autostarter (W : Type) := {
  Enable : W -> W * option string;
  Disable : W -> W * option string;
  IsEnabled : W -> W * (bool * option string);
}.
Arguments Enable {W} _ _.
Arguments Disable {W} _ _.
Arguments IsEnabled {W} _ _.

(** The service holds a backend that may be nil. *)
Definition AutoStartService (W : Type) : Type := option (autostarter W).

Definition IsAutoStartEnabled {W} (s : AutoStartService W) (w : W) : W * (bool * option string) :=
  match s with
  | None => (w, (false, Some "auto-start backend is not wired on this host"))
  | Some backend => IsEnabled backend w
  end.

(** The warning and the error. *)
Definition SetAutoStart {W} (s : AutoStartService W) (enabled : bool) (w : W) : W * (string * option string) :=
  match s with
  | None => (w, ("auto-start is not configured on this host", None))
  | Some backend =>
      let '(w, err) := if enabled then Enable backend w else Disable backend w in
      match err with
      | None => (w, ("", None))
      | Some e =>
          if enabled then (w, ("Auto-start could not be enabled: " +:+ e, None))
          else (w, ("Auto-start could not be disabled: " +:+ e, None))
      end
  end.

(** What a backend promises in the states of [ok]: it stays in them, an
    operation that succeeded is seen by the next query that succeeds, and one
    that failed or only queries does not change what is registered. *)
Class Lawful {W} (ok : W -> Prop) (registered : W -> bool) (a : autostarter W) := {
  enable_stays w : ok w -> ok (Enable a w).1;
  disable_stays w : ok w -> ok (Disable a w).1;
  query_stays w : ok w -> ok (IsEnabled a w).1 /\ registered (IsEnabled a w).1 = registered w;
  enable_registers w w' : ok w -> Enable a w = (w', None) -> registered w' = true;
  disable_removes w w' : ok w -> Disable a w = (w', None) -> registered w' = false;
  enable_fails w w' e : ok w -> Enable a w = (w', Some e) -> registered w' = registered w;
  disable_fails w w' e : ok w -> Disable a w = (w', Some e) -> registered w' = registered w;
  query_tells w w' b : ok w -> IsEnabled a w = (w', (b, None)) -> b = registered w;
}.

(** ** Shared by the backends ([autostart_backend.go]) *)

(** [Run]: the combined output and the error. *)
Definition cmdRunner (H : Type) : Type := H -> string -> list string -> H * (string * option string).

Definition autoStartLoginItemName : string := "InferMesh".
Definition autoStartDesktopFile : string := "infermesh.desktop".
Definition windowsRunKey : string := "HKCU\Software\Microsoft\Windows\CurrentVersion\Run".

(** The double quote. *)
Definition dquote : ascii := ascii_of_nat 34.
Definition quote : string := String dquote "".
Definition newline : ascii := ascii_of_nat 10.

Definition runErr (op err output : string) : string :=
  let msg := TrimSpace output in
  if String.eqb msg "" then "autostart " +:+ op +:+ ": " +:+ err
  else "autostart " +:+ op +:+ ": " +:+ err +:+ ": " +:+ msg.

Definition requireExePath (p : string) : option string :=
  if String.eqb (TrimSpace p) "" then Some "app executable path is empty" else None.

(** [strings.Trim] for a set of one-byte characters. *)
Definition Trim (cutset : list ascii) (s : string) : string :=
  let ps := map (fun c => [c]) cutset in
  of_bytes (rev (trim_left ps (rev (trim_left ps (to_bytes s))))).

(** ** macOS *)

Record darwinAutostart := { da_exePath : string }.

Definition darwinListLoginItemsScript : string :=
  "tell application " +:+ quote +:+ "System Events" +:+ quote +:+ " to get the name of every login item".
Definition darwinMakeLoginItemScript (name path : string) : string :=
  "tell application " +:+ quote +:+ "System Events" +:+ quote +:+ " to make login item " +:+ quote +:+ name +:+ quote
  +:+ " with properties {path: " +:+ quote +:+ path +:+ quote +:+ ", hidden: false}".
Definition darwinDeleteLoginItemScript (name : string) : string :=
  "tell application " +:+ quote +:+ "System Events" +:+ quote +:+ " to delete login item " +:+ quote +:+ name +:+ quote.

Definition loginItemPresent (list name : string) : bool :=
  existsb (fun item => String.eqb (Trim [dquote; "'"%char] (TrimSpace item)) name) (Split list ","%char).

(** [strings.NewReplacer] with the typographic apostrophes U+2019 and U+2018. *)
Fixpoint replace_quotes (l : bytes) : bytes :=
  match l with
  | a :: ((b :: c :: l2) as l1) =>
      if bool_decide ([a; b; c] = encoding [226; 128; 153]%nat) || bool_decide ([a; b; c] = encoding [226; 128; 152]%nat)
      then "'"%char :: replace_quotes l2
      else a :: replace_quotes l1
  | a :: l1 => a :: replace_quotes l1
  | [] => []
  end.

Definition normalizeAppleScriptText (s : string) : string := of_bytes (replace_quotes (to_bytes s)).

(** [lower] is [strings.ToLower]. *)
Definition darwinItemAbsent (lower : string -> string) (output err : string) : bool :=
  let low := normalizeAppleScriptText (lower (output +:+ String newline err)) in
  Contains low "wasn't found" || Contains low "was not found" || Contains low "cannot find" || Contains low "not found"
  || Contains low "-1728".

Section commands.
Context {H : Type} (Run : cmdRunner H) (lower : string -> string).

Definition darwin_Enable (d : darwinAutostart) (h : H) : H * option string :=
  match requireExePath (da_exePath d) with
  | Some err => (h, Some ("autostart enable: " +:+ err))
  | None =>
      let '(h, (out, err)) := Run h "osascript" ["-e"; darwinListLoginItemsScript] in
      match err with
      | Some err => (h, Some (runErr "enable" err out))
      | None =>
          if loginItemPresent out autoStartLoginItemName then (h, None)
          else
            let '(h, (out, err)) := Run h "osascript" ["-e"; darwinMakeLoginItemScript autoStartLoginItemName (da_exePath d)] in
            match err with
            | Some err => (h, Some (runErr "enable" err out))
            | None => (h, None)
            end
      end
  end.

Definition darwin_Disable (d : darwinAutostart) (h : H) : H * option string :=
  let '(h, (out, err)) := Run h "osascript" ["-e"; darwinDeleteLoginItemScript autoStartLoginItemName] in
  match err with
  | Some err => if darwinItemAbsent lower out err then (h, None) else (h, Some (runErr "disable" err out))
  | None => (h, None)
  end.

Definition darwin_IsEnabled (d : darwinAutostart) (h : H) : H * (bool * option string) :=
  let '(h, (out, err)) := Run h "osascript" ["-e"; darwinListLoginItemsScript] in
  match err with
  | Some err => (h, (false, Some (runErr "query" err out)))
  | None => (h, (loginItemPresent out autoStartLoginItemName, None))
  end.

Definition darwin_autostarter (d : darwinAutostart) : autostarter H :=
  {| Enable := darwin_Enable d; Disable := darwin_Disable d; IsEnabled := darwin_IsEnabled d |}.

(** ** Windows *)

Record windowsAutostart := { wa_exePath : string }.

Definition regValueAbsent (output : string) : bool :=
  let low := lower output in
  Contains low "unable to find" || Contains low "cannot find" || Contains low "not found".

(** [strings.Join(fields, " ")]. *)
Fixpoint join_fields (l : list string) : string :=
  match l with
  | [] => ""
  | [x] => x
  | x :: l => x +:+ " " +:+ join_fields l
  end.

(** One line of the output. *)
Definition reg_record (valueName line : string) : option string :=
  match Fields line with
  | name :: type :: d :: data =>
      if negb (String.eqb type "REG_SZ") then None
      else if negb (String.eqb (Trim [dquote] name) valueName) then None
      else Some (join_fields (d :: data))
  | _ => None
  end.

Fixpoint first_record (valueName : string) (lines : list string) : option string :=
  match lines with
  | [] => None
  | line :: lines => match reg_record valueName line with Some d => Some d | None => first_record valueName lines end
  end.

Definition regSzDataForValue (output valueName : string) : option string := first_record valueName (Split output newline).

Definition windows_Enable (x : windowsAutostart) (h : H) : H * option string :=
  match requireExePath (wa_exePath x) with
  | Some err => (h, Some ("autostart enable: " +:+ err))
  | None =>
      let '(h, (out, err)) := Run h "reg.exe" ["add"; windowsRunKey; "/v"; autoStartLoginItemName; "/t"; "REG_SZ"; "/d"; wa_exePath x; "/f"] in
      match err with
      | Some err => (h, Some (runErr "enable" err out))
      | None => (h, None)
      end
  end.

Definition windows_Disable (x : windowsAutostart) (h : H) : H * option string :=
  let '(h, (out, err)) := Run h "reg.exe" ["delete"; windowsRunKey; "/v"; autoStartLoginItemName; "/f"] in
  match err with
  | None => (h, None)
  | Some err => if regValueAbsent out then (h, None) else (h, Some (runErr "disable" err out))
  end.

Definition windows_IsEnabled (x : windowsAutostart) (h : H) : H * (bool * option string) :=
  let '(h, (out, err)) := Run h "reg.exe" ["query"; windowsRunKey; "/v"; autoStartLoginItemName] in
  match err with
  | Some err =>
      if regValueAbsent out then (h, (false, None))
      else (h, (false, Some (runErr "query" err out)))
  | None =>
      match regSzDataForValue out autoStartLoginItemName with
      | Some data => (h, (negb (String.eqb (TrimSpace data) ""), None))
      | None => (h, (false, None))
      end
  end.

Definition windows_autostarter (x : windowsAutostart) : autostarter H :=
  {| Enable := windows_Enable x; Disable := windows_Disable x; IsEnabled := windows_IsEnabled x |}.
End commands.

(** ** Linux *)

(** *** The [Exec] argument

    Go's [range] over a string yields its runes, and U+FFFD for a byte that
    starts no valid encoding; [WriteRune] encodes them again.  A rune is kept as
    its encoding. *)
Definition byte_in (lo hi : nat) (c : ascii) : bool := let n := nat_of_ascii c in (Nat.leb lo n && Nat.leb n hi)%bool.

(** How many bytes the valid encoding at the front of [l] has; 0 when it is none. *)
Definition rune_len (l : bytes) : nat :=
  let cont := byte_in 128 191 in
  match l with
  | [] => 0
  | a :: l =>
      let two := match l with b :: _ => cont b | _ => false end in
      let three lo hi := match l with b :: c :: _ => byte_in lo hi b && cont c | _ => false end in
      let four lo hi := match l with b :: c :: d :: _ => byte_in lo hi b && cont c && cont d | _ => false end in
      if byte_in 0 127 a then 1
      else if byte_in 194 223 a && two then 2
      else if byte_in 224 224 a && three 160 191 then 3
      else if byte_in 237 237 a && three 128 159 then 3
      else if byte_in 225 239 a && negb (byte_in 237 237 a) && three 128 191 then 3
      else if byte_in 240 240 a && four 144 191 then 4
      else if byte_in 241 243 a && four 128 191 then 4
      else if byte_in 244 244 a && four 128 143 then 4
      else 0
  end%nat.

Definition RuneError : bytes := encoding [239; 191; 189]%nat.

(** The runes of a string; the length is fuel enough. *)
Fixpoint runes_from (fuel : nat) (l : bytes) : list bytes :=
  match fuel, l with
  | S fuel, _ :: l' =>
      match rune_len l with
      | O => RuneError :: runes_from fuel l'
      | n => take n l :: runes_from fuel (drop n l)
      end
  | _, _ => []
  end.

Definition runes (l : bytes) : list bytes := runes_from (length l) l.

(** The constant ends with a backtick that the source appends. *)
Definition desktopExecReserved : bytes := to_bytes (" " +:+ quote +:+ "'\><~|&;$*?#()`").

Definition percent : ascii := "%"%char.
Definition backslash : ascii := "\"%char.

(** The body of the loop. *)
Definition escape_rune (r : bytes) : bytes :=
  match r with
  | [c] =>
      if ascii_dec c percent then [percent; percent]
      else if bool_decide (c ∈ desktopExecReserved) then [backslash; c]
      else [c]
  | _ => r
  end.

Definition escapeDesktopExecArg (arg : string) : string :=
  of_bytes (dquote :: concat (map escape_rune (runes (to_bytes arg))) ++ [dquote]).

(** The text of the entry. *)
Definition desktopEntry (exec : string) : string :=
  "[Desktop Entry]" +:+ String newline ("Type=Application" +:+ String newline ("Name=" +:+ autoStartLoginItemName +:+
  String newline ("Exec=" +:+ exec +:+ String newline ("X-GNOME-Autostart-enabled=true" +:+ String newline "")))).

(** *** The entry and the calls that write it *)

(** What is at the path of the entry: symbolic links are left out. *)
Inductive node := Regular (content : string) | Directory (empty : bool).

Record linux_fs := { fs_entry : option node; fs_temps : nat }.

(** The texts of the errors of the calls, [None] for one that succeeds;
    [ft_stat] and [ft_remove] are failures other than a missing file. *)
Record linux_faults := {
  ft_mkdir : option string;
  ft_create : option string;
  ft_write : option string;
  ft_chmod : option string;
  ft_close : option string;
  ft_rename : option string;
  ft_cleanup : option string;
  ft_remove : option string;
  ft_stat : option string;
}.

Record linuxAutostart := { la_exePath : string; la_configDir : string; la_initErr : option string }.

Definition newLinuxAutostart (exePath configDir : string) (initErr : option string) : linuxAutostart :=
  {| la_exePath := exePath; la_configDir := configDir; la_initErr := initErr |}.

(** [env] is [os.Getenv], [home] is [os.UserHomeDir], [join] is [filepath.Join]. *)
Definition defaultLinuxConfigDir (join : list string -> string) (env : string -> string) (home : string + string) : string * option string :=
  let x := TrimSpace (env "XDG_CONFIG_HOME") in
  if negb (String.eqb x "") then (x, None)
  else match home with
       | inr err => ("", Some ("resolve home directory: " +:+ err))
       | inl home => (join [home; ".config"], None)
       end.

Definition desktopPath (join : list string -> string) (l : linuxAutostart) : string :=
  join [la_configDir l; "autostart"; autoStartDesktopFile].

(** [os.Rename] onto a directory fails. *)
Definition rename_fails (ft : linux_faults) (f : linux_fs) : option string :=
  match ft_rename ft with
  | Some e => Some e
  | None => match fs_entry f with Some (Directory _) => Some "file exists" | _ => None end
  end.

Section linux.
Context (ft : linux_faults).

(** The deferred removal of the temporary file. *)
Definition dropped (f : linux_fs) : linux_fs :=
  match ft_cleanup ft with
  | None => f
  | Some _ => {| fs_entry := fs_entry f; fs_temps := S (fs_temps f) |}
  end.

Definition linux_Enable (l : linuxAutostart) (f : linux_fs) : linux_fs * option string :=
  let fails err := Some ("autostart enable: " +:+ err) in
  match la_initErr l, requireExePath (la_exePath l), ft_mkdir ft, ft_create ft with
  | Some err, _, _, _ | None, Some err, _, _ | None, None, Some err, _ | None, None, None, Some err => (f, fails err)
  | None, None, None, None =>
      match ft_write ft, ft_chmod ft, ft_close ft, rename_fails ft f with
      | Some err, _, _, _ | None, Some err, _, _ | None, None, Some err, _ | None, None, None, Some err => (dropped f, fails err)
      | None, None, None, None =>
          ({| fs_entry := Some (Regular (desktopEntry (escapeDesktopExecArg (la_exePath l)))); fs_temps := fs_temps f |}, None)
      end
  end.

(** [os.Remove] also removes an empty directory. *)
Definition linux_Disable (l : linuxAutostart) (f : linux_fs) : linux_fs * option string :=
  match la_initErr l with
  | Some err => (f, Some ("autostart disable: " +:+ err))
  | None =>
      match ft_remove ft, fs_entry f with
      | Some err, _ => (f, Some ("autostart disable: " +:+ err))
      | None, None => (f, None)
      | None, Some (Directory false) => (f, Some "autostart disable: directory not empty")
      | None, Some _ => ({| fs_entry := None; fs_temps := fs_temps f |}, None)
      end
  end.

Definition linux_IsEnabled (l : linuxAutostart) (f : linux_fs) : linux_fs * (bool * option string) :=
  match la_initErr l with
  | Some err => (f, (false, Some ("autostart query: " +:+ err)))
  | None =>
      match ft_stat ft, fs_entry f with
      | Some err, _ => (f, (false, Some ("autostart query: " +:+ err)))
      | None, None => (f, (false, None))
      | None, Some (Directory _) => (f, (false, None))
      | None, Some (Regular _) => (f, (true, None))
      end
  end.

Definition linux_autostarter (l : linuxAutostart) : autostarter linux_fs :=
  {| Enable := linux_Enable l; Disable := linux_Disable l; IsEnabled := linux_IsEnabled l |}.
End linux.

(** ** The backend of the platform *)

(** A backend on one part of the host. *)
Definition on_part {V W} (get : W -> V) (put : V -> W -> W) (a : autostarter V) : autostarter W :=
  {| Enable w := let '(v, r) := Enable a (get w) in (put v w, r);
     Disable w := let '(v, r) := Disable a (get w) in (put v w, r);
     IsEnabled w := let '(v, r) := IsEnabled a (get w) in (put v w, r) |}.
Definition on_commands {H} : autostarter H -> autostarter (H * linux_fs) := on_part fst (fun h w => (h, w.2)).
Definition on_files {H} : autostarter linux_fs -> autostarter (H * linux_fs) := on_part snd (fun f w => (w.1, f)).

Definition newPlatformAutostart {H} (Run : cmdRunner H) (lower : string -> string) (ft : linux_faults)
    (join : list string -> string) (env : string -> string) (home : string + string) (goos exePath : string) : autostarter (H * linux_fs) :=
  if String.eqb goos "darwin" then on_commands (darwin_autostarter Run lower {| da_exePath := exePath |})
  else if String.eqb goos "windows" then on_commands (windows_autostarter Run lower {| wa_exePath := exePath |})
  else let '(dir, err) := defaultLinuxConfigDir join env home in
       on_files (linux_autostarter ft (newLinuxAutostart exePath dir err)).

(** ** The text of the desktop entry *)

(** A string with its invalid bytes replaced. *)
Definition valid_text (s : string) : string := of_bytes (concat (runes (to_bytes s))).

Definition high (c : ascii) : Prop := byte_in 0 127 c = false.

Lemma byte_in_high lo hi c : (128 <= lo)%nat -> byte_in lo hi c = true -> high c.
Proof. unfold high, byte_in. intros Hlo [H1%Nat.leb_le H2]%andb_prop. apply andb_false_intro2, Nat.leb_gt. lia. Qed.

Lemma high_RuneError : Forall high RuneError.
Proof. repeat constructor. Qed.

Lemma high_plain c : high c -> c <> dquote /\ c <> backslash /\ c <> percent /\ c <> newline /\ ~ c ∈ desktopExecReserved.
Proof.
  intros H. assert (Hf : forall d, byte_in 0 127 d = true -> c <> d) by (intros d Hd ->; unfold high in H; congruence).
  repeat split; try (apply Hf; reflexivity).
  intros Hin. assert (Hall : Forall (fun d => byte_in 0 127 d = true) desktopExecReserved) by (repeat constructor).
  rewrite Forall_forall in Hall. by apply (Hf _ (Hall _ Hin)).
Qed.

Lemma runes_ascii fuel l : (length l <= fuel)%nat -> Forall (fun c => byte_in 0 127 c = true) l -> concat (runes_from fuel l) = l.
Proof.
  revert fuel. induction l as [|c l IH]; intros [|fuel] Hlen Hl; try done; simpl in Hlen; [lia|].
  apply Forall_cons in Hl as [Hc Hl]. cbn [runes_from]. unfold rune_len. rewrite Hc. cbn [take drop concat app].
  by rewrite IH by (done || lia).
Qed.

Lemma valid_text_ascii s : Forall (fun c => byte_in 0 127 c = true) (to_bytes s) -> valid_text s = s.
Proof. intros H. unfold valid_text, runes. by rewrite runes_ascii, of_to_bytes by done. Qed.

(** No line is added to the entry. *)
Lemma runes_newline fuel l r : r ∈ runes_from fuel l -> newline ∈ r -> newline ∈ l.
Proof.
  revert l. induction fuel as [|fuel IH]; intros [|c l] Hr Hn; try by apply elem_of_nil in Hr. cbn [runes_from] in Hr.
  destruct (rune_len (c :: l)) as [|n] eqn:E; apply elem_of_cons in Hr as [->|Hr].
  - exfalso. pose proof high_RuneError as Hh. rewrite Forall_forall in Hh. by destruct (high_plain _ (Hh _ Hn)) as (_ & _ & _ & ? & _).
  - right. by apply (IH l).
  - by apply (subseteq_take (S n)).
  - apply (subseteq_drop (S n)). by apply (IH _ Hr).
Qed.

Lemma escape_newline arg : ~ newline ∈ to_bytes arg -> ~ newline ∈ to_bytes (escapeDesktopExecArg arg).
Proof.
  intros Ha. unfold escapeDesktopExecArg. rewrite to_of_bytes. intros [Hn|[Hn|Hn]%elem_of_app]%elem_of_cons; [done| |set_solver].
  apply list_elem_of_In, in_concat in Hn as (e & He & Hn). apply in_map_iff in He as (r & <- & Hr).
  apply list_elem_of_In in Hr, Hn. apply Ha, (runes_newline _ _ _ Hr).
  destruct r as [|c [|d r]]; cbn in Hn; [done| |done]. destruct (ascii_dec c percent) as [->|]; [set_solver|].
  destruct (bool_decide _); set_solver.
Qed.

(** A constant without a newline. *)
Ltac no_newline := apply (bool_decide_unpack (~ _)); vm_compute; exact I.

Lemma Split_line a s : ~ newline ∈ to_bytes a -> Split (a +:+ String newline s) newline = a :: Split s newline.
Proof.
  intros Ha. unfold Split. rewrite to_bytes_app. cbn [String.list_ascii_of_string].
  rewrite split_bytes_app by done. cbn [map]. by rewrite of_to_bytes.
Qed.

Lemma desktopEntry_lines exec :
  ~ newline ∈ to_bytes exec ->
  Split (desktopEntry exec) newline =
    ["[Desktop Entry]"; "Type=Application"; "Name=InferMesh"; "Exec=" +:+ exec; "X-GNOME-Autostart-enabled=true"; ""].
Proof.
  intros Hn. unfold desktopEntry.
  rewrite <-(append_assoc "Name="), <-(append_assoc "Exec=").
  rewrite !Split_line; [reflexivity|..]; try no_newline.
  rewrite to_bytes_app. intros [H|H]%elem_of_app; [|done].
  revert H. no_newline.
Qed.

(** ** Linux: what the calls leave *)

(** The conditions under which the entry is written. *)
Definition can_write (ft : linux_faults) (l : linuxAutostart) (f : linux_fs) : Prop :=
  la_initErr l = None /\ requireExePath (la_exePath l) = None /\ ft_mkdir ft = None /\ ft_create ft = None /\
  ft_write ft = None /\ ft_chmod ft = None /\ ft_close ft = None /\ rename_fails ft f = None.

Lemma linux_Enable_spec ft l f :
  (can_write ft l f /\
   linux_Enable ft l f = ({| fs_entry := Some (Regular (desktopEntry (escapeDesktopExecArg (la_exePath l)))); fs_temps := fs_temps f |}, None)) \/
  (~ can_write ft l f /\ exists e, (linux_Enable ft l f).2 = Some ("autostart enable: " +:+ e) /\
   fs_entry (linux_Enable ft l f).1 = fs_entry f /\
   (ft_cleanup ft = None -> fs_temps (linux_Enable ft l f).1 = fs_temps f)).
Proof.
  unfold linux_Enable, can_write, dropped.
  destruct (la_initErr l), (requireExePath _), (ft_mkdir ft), (ft_create ft), (ft_write ft), (ft_chmod ft), (ft_close ft), (rename_fails ft f);
    first [by left | right; split; [naive_solver|eexists; repeat split; by destruct (ft_cleanup ft)]].
Qed.

Definition linux_registered (f : linux_fs) : bool := match fs_entry f with Some (Regular _) => true | _ => false end.

#[export] Instance linux_lawful ft l : Lawful (fun _ => True) linux_registered (linux_autostarter ft l).
Proof.
  split; simpl; try done.
  - intros f _. unfold linux_IsEnabled. destruct (la_initErr l), (ft_stat ft), (fs_entry f) as [[]|]; done.
  - intros f f' _ H. destruct (linux_Enable_spec ft l f) as [[_ E]|(_ & e & E & _)]; rewrite H in E; by simplify_eq/=.
  - intros f f' _. unfold linux_Disable, linux_registered.
    destruct (la_initErr l), (ft_remove ft), (fs_entry f) as [[|[]]|] eqn:E; intros [= <-]; simpl; by rewrite ?E.
  - intros f f' e _ H. unfold linux_registered.
    destruct (linux_Enable_spec ft l f) as [[_ E]|(_ & x & _ & E & _)]; rewrite H in E; simplify_eq/=; by rewrite E.
  - intros f f' e _. unfold linux_Disable.
    destruct (la_initErr l), (ft_remove ft), (fs_entry f) as [[|[]]|]; intros [= <- _]; done.
  - intros f f' b _. unfold linux_IsEnabled, linux_registered.
    destruct (la_initErr l), (ft_stat ft), (fs_entry f) as [[]|]; intros [= _ <-]; done.
Qed.

(** ** Windows: the Run key

    What is taken of [reg.exe], over the value [value] that the host has
    under the key for the name of the application. *)
Definition reg_output (d : string) : string :=
  let crlf s := String (ascii_of_nat 13) (String newline s) in
  crlf ("HKEY_CURRENT_USER\Software\Microsoft\Windows\CurrentVersion\Run" +:+ crlf
    ("    InferMesh    REG_SZ    " +:+ d +:+ crlf (crlf ""))).

(** A command that is one line with a byte that is no part of a space. *)
Definition plain_command (d : string) : Prop := ~ newline ∈ to_bytes d /\ exists c, solid c /\ c ∈ to_bytes d.

Record reg_laws {H} (Run : cmdRunner H) (lower : string -> string) (value : H -> option string) : Prop := {
  reg_add h h' p out err :
    plain_command p ->
    Run h "reg.exe" ["add"; windowsRunKey; "/v"; autoStartLoginItemName; "/t"; "REG_SZ"; "/d"; p; "/f"] = (h', (out, err)) ->
    value h' = match err with None => Some p | Some _ => value h end;
  reg_delete h h' out err :
    Run h "reg.exe" ["delete"; windowsRunKey; "/v"; autoStartLoginItemName; "/f"] = (h', (out, err)) ->
    match err with
    | None => value h' = None
    | Some _ => value h' = value h /\ (regValueAbsent lower out = true -> value h = None)
    end;
  reg_query h h' out err :
    Run h "reg.exe" ["query"; windowsRunKey; "/v"; autoStartLoginItemName] = (h', (out, err)) ->
    value h' = value h /\
    match err with
    | None => exists d, value h = Some d /\ out = reg_output d
    | Some _ => regValueAbsent lower out = true -> value h = None
    end;
}.

(** The fields of a line keep its solid bytes. *)
Lemma fields_keep c l : forall fuel cur,
  (length l <= fuel)%nat -> solid c -> c ∈ cur ++ l -> exists w, w ∈ fields_from fuel cur l /\ c ∈ w.
Proof.
  assert (Hflush : forall cur, c ∈ cur -> exists w, w ∈ flush cur /\ c ∈ w).
  { intros cur H. destruct cur as [|a cur]; [by apply elem_of_nil in H|].
    exists (reverse (a :: cur)). split; [by left|by rewrite elem_of_reverse]. }
  intros fuel. revert l. induction fuel as [|fuel IH]; intros [|a l] cur Hlen Hc Hin; cbn [length] in Hlen; try lia;
    cbn [fields_from]; rewrite ?app_nil_r in Hin; try by apply Hflush.
  destruct (strip_any spaces (a :: l)) as [rest|] eqn:E.
  - apply strip_any_Some in E as (p & Hp & E).
    assert (Hp0 : p <> []) by (intros ->; by apply (proj1 spaces_nonempty)).
    assert (Hrest : (length rest <= fuel)%nat).
    { apply (f_equal length) in E. rewrite length_app in E. cbn [length] in E. destruct p; [done|cbn [length] in E; lia]. }
    apply elem_of_app in Hin as [Hin|Hin].
    + destruct (Hflush _ Hin) as (w & ? & ?). exists w. split; [apply elem_of_app; by left|done].
    + rewrite E in Hin. apply elem_of_app in Hin as [Hin|Hin]; [by destruct (Hc _ Hp)|].
      destruct (IH rest [] Hrest Hc Hin) as (w & ? & ?). exists w. split; [apply elem_of_app; by right|done].
  - apply IH; [lia|done|]. set_solver.
Qed.

Lemma join_fields_keeps c l w : w ∈ l -> c ∈ to_bytes w -> c ∈ to_bytes (join_fields l).
Proof.
  induction l as [|x l IH]; intros Hw Hc; [by apply elem_of_nil in Hw|].
  apply elem_of_cons in Hw as [->|Hw]; destruct l as [|y l]; try done; cbn [join_fields];
    rewrite ?to_bytes_app, ?elem_of_app; [by left|by apply elem_of_nil in Hw|right; right; by apply IH].
Qed.

Lemma length_to_bytes s : length (to_bytes s) = String.length s.
Proof. induction s as [|c s IH]; [done|]. simpl. by rewrite IH. Qed.

Lemma fields_record n l :
  fields_from (27 + n) [] (to_bytes "    InferMesh    REG_SZ    " ++ l) = to_bytes "InferMesh" :: to_bytes "REG_SZ" :: fields_from n [] l.
Proof. reflexivity. Qed.

Lemma reg_record_read d c :
  solid c -> c ∈ to_bytes d ->
  exists data, reg_record autoStartLoginItemName ("    InferMesh    REG_SZ    " +:+ d +:+ String (ascii_of_nat 13) "") = Some data /\
    c ∈ to_bytes data.
Proof.
  intros Hc Hd. set (x := d +:+ String (ascii_of_nat 13) "").
  assert (Hx : c ∈ to_bytes x) by (unfold x; rewrite to_bytes_app, elem_of_app; by left).
  assert (E : Fields ("    InferMesh    REG_SZ    " +:+ x) =
              "InferMesh" :: "REG_SZ" :: map of_bytes (fields_from (String.length x) [] (to_bytes x))).
  { unfold Fields. change (String.length ("    InferMesh    REG_SZ    " +:+ x)) with (27 + String.length x)%nat.
    by rewrite to_bytes_app, fields_record. }
  destruct (fields_keep c (to_bytes x) (String.length x) []) as (w & Hw & Hcw); [by rewrite length_to_bytes|done..|].
  unfold reg_record. rewrite E. destruct (fields_from _ _ _) as [|v ws] eqn:Ef; [by apply elem_of_nil in Hw|]. cbn [map].
  eexists. split; [reflexivity|].
  apply (join_fields_keeps c _ (of_bytes w)); [|by rewrite to_of_bytes].
  change (of_bytes w ∈ map of_bytes (v :: ws)). apply list_elem_of_In, in_map, list_elem_of_In, Hw.
Qed.

Lemma reg_output_read d :
  plain_command d -> exists data, regSzDataForValue (reg_output d) autoStartLoginItemName = Some data /\ TrimSpace data <> "".
Proof.
  intros (Hn & c & Hc & Hd). destruct (reg_record_read d c Hc Hd) as (data & Hdata & Hin).
  exists data. split.
  - unfold regSzDataForValue, reg_output.
    set (cr := String (ascii_of_nat 13) "").
    change (String (ascii_of_nat 13) (String newline ?s)) with (cr +:+ String newline s).
    match goal with |- first_record _ (Split ?s _) = _ =>
      change s with (cr +:+ String newline ("HKEY_CURRENT_USER\Software\Microsoft\Windows\CurrentVersion\Run" +:+ (cr +:+ String newline
        ("    InferMesh    REG_SZ    " +:+ (d +:+ (cr +:+ String newline (cr +:+ String newline ""))))))) end.
    rewrite <-(append_assoc "HKEY_CURRENT_USER\Software\Microsoft\Windows\CurrentVersion\Run"), <-(append_assoc d), <-(append_assoc "    InferMesh    REG_SZ    ").
    rewrite !Split_line by first [no_newline | rewrite !to_bytes_app, !elem_of_app; intros [H|[H|H]]; [|done|]; revert H; no_newline].
    cbn [first_record].
    replace (reg_record autoStartLoginItemName cr) with (@None string) by reflexivity.
    replace (reg_record _ ("HKEY_CURRENT_USER\Software\Microsoft\Windows\CurrentVersion\Run" +:+ cr)) with (@None string) by reflexivity.
    unfold cr. by rewrite Hdata.
  - intros E. unfold TrimSpace in E. apply (f_equal to_bytes) in E. rewrite to_of_bytes in E.
    pose proof (trim_bytes_keeps _ _ Hc Hin) as Ht. rewrite E in Ht. by apply elem_of_nil in Ht.
Qed.

Section windows.
Context {H : Type} (Run : cmdRunner H) (lower : string -> string) (value : H -> option string).
Context (laws : reg_laws Run lower value).

Definition reg_ok (h : H) : Prop := forall d, value h = Some d -> plain_command d.
Definition reg_registered (h : H) : bool := bool_decide (is_Some (value h)).

#[export] Instance windows_lawful x :
  plain_command (wa_exePath x) -> Lawful reg_ok reg_registered (windows_autostarter Run lower x).
Proof using laws.
  intros Hx. unfold reg_registered, reg_ok. split; simpl.
  - intros h Hok. unfold windows_Enable. destruct (requireExePath _); [done|].
    destruct (Run h _ _) as [h' [out err]] eqn:E. pose proof (reg_add _ _ _ laws _ _ _ _ _ Hx E) as Hv.
    destruct err; simpl; rewrite Hv; [done|]. by intros d [= <-].
  - intros h Hok. unfold windows_Disable. destruct (Run h _ _) as [h' [out err]] eqn:E.
    pose proof (reg_delete _ _ _ laws _ _ _ _ E) as Hv.
    destruct err; [destruct Hv as [Hv _]; destruct (regValueAbsent lower out)|]; simpl; by rewrite Hv.
  - intros h Hok. unfold windows_IsEnabled. destruct (Run h _ _) as [h' [out err]] eqn:E.
    destruct (reg_query _ _ _ laws _ _ _ _ E) as [Hv _].
    destruct err; [destruct (regValueAbsent lower out)|destruct (regSzDataForValue _ _)]; simpl; by rewrite Hv.
  - intros h h' Hok. unfold windows_Enable. destruct (requireExePath _); [done|].
    destruct (Run h _ _) as [h1 [out err]] eqn:E. pose proof (reg_add _ _ _ laws _ _ _ _ _ Hx E) as Hv.
    destruct err; intros [= <-]. by rewrite Hv.
  - intros h h' Hok. unfold windows_Disable. destruct (Run h _ _) as [h1 [out err]] eqn:E.
    pose proof (reg_delete _ _ _ laws _ _ _ _ E) as Hv. destruct err; [|intros [= <-]; by rewrite Hv].
    destruct Hv as [Hv Hab]. destruct (regValueAbsent lower out); intros [= <-]. by rewrite Hv, Hab.
  - intros h h' e Hok. unfold windows_Enable. destruct (requireExePath _); [by intros [= <- _]|].
    destruct (Run h _ _) as [h1 [out err]] eqn:E. pose proof (reg_add _ _ _ laws _ _ _ _ _ Hx E) as Hv.
    destruct err; intros [= <- _]. by rewrite Hv.
  - intros h h' e Hok. unfold windows_Disable. destruct (Run h _ _) as [h1 [out err]] eqn:E.
    pose proof (reg_delete _ _ _ laws _ _ _ _ E) as Hv. destruct err; [|done].
    destruct Hv as [Hv _]. destruct (regValueAbsent lower out); intros [= <- _]. by rewrite Hv.
  - intros h h' b Hok. unfold windows_IsEnabled. destruct (Run h _ _) as [h1 [out err]] eqn:E.
    destruct (reg_query _ _ _ laws _ _ _ _ E) as [_ Hv]. destruct err.
    + destruct (regValueAbsent lower out); intros [= _ <-]. by rewrite Hv.
    + destruct Hv as (d & Hd & ->). destruct (reg_output_read d) as (data & -> & Ht); [by apply Hok|].
      intros [= _ <-]. rewrite Hd. destruct (String.eqb_spec (TrimSpace data) ""); [done|]. by rewrite bool_decide_true by eauto.
Qed.
End windows.

(** ** macOS: the login items

    What is taken of System Events, over the names [items] of the login
    items that the host has. *)
Definition plain_item (x : string) : Prop :=
  (~ ","%char ∈ to_bytes x) /\ TrimSpace x = x /\ Trim [dquote; "'"%char] x = x.

(** A path that is no more than text between two double quotes of AppleScript. *)
Definition plain_path (p : string) : Prop := ~ dquote ∈ to_bytes p /\ ~ backslash ∈ to_bytes p.

Fixpoint listing (l : list string) : string :=
  match l with
  | [] => String newline ""
  | [x] => x +:+ String newline ""
  | x :: l => x +:+ ", " +:+ listing l
  end.

Record osascript_laws {H} (Run : cmdRunner H) (lower : string -> string) (items : H -> list string) : Prop := {
  os_list h h' out err :
    Run h "osascript" ["-e"; darwinListLoginItemsScript] = (h', (out, err)) ->
    items h' = items h /\ (err = None -> out = listing (items h));
  os_make h h' p out err :
    plain_path p ->
    Run h "osascript" ["-e"; darwinMakeLoginItemScript autoStartLoginItemName p] = (h', (out, err)) ->
    items h' = match err with None => items h ++ [autoStartLoginItemName] | Some _ => items h end;
  os_delete h h' out err :
    Run h "osascript" ["-e"; darwinDeleteLoginItemScript autoStartLoginItemName] = (h', (out, err)) ->
    match err with
    | None => items h' = filter (.≠ autoStartLoginItemName) (items h)
    | Some e => items h' = items h /\ (darwinItemAbsent lower out e = true -> ~ autoStartLoginItemName ∈ items h)
    end;
}.

Lemma TrimSpace_front s : TrimSpace (String space s) = TrimSpace s.
Proof. reflexivity. Qed.

Lemma TrimSpace_back s : TrimSpace s = s -> TrimSpace (s +:+ String newline "") = s.
Proof.
  intros Hs. pose proof (TrimSpace_id_inv _ Hs) as [Hl Hr]. unfold TrimSpace.
  rewrite <-(of_to_bytes s) at 2. f_equal. rewrite to_bytes_app. cbn [String.list_ascii_of_string].
  destruct (to_bytes s) as [|a l] eqn:E; [done|]. unfold trim_bytes.
  rewrite (trim_left_id _ ((a :: l) ++ [newline])).
  - rewrite rev_app_distr. change (rev [newline] ++ rev (a :: l)) with (newline :: rev (a :: l)).
    change (trim_left (map (@rev ascii) spaces) (newline :: rev (a :: l))) with (trim_left (map (@rev ascii) spaces) (rev (a :: l))).
    by rewrite trim_left_id, rev_involutive.
  - rewrite strip_any_None in *. intros p l' Hp He.
    apply app_eq_app in He as (m & [[He Hm]|[-> Hm]]); [by eapply Hl|].
    destruct m as [|c [|d m]]; [rewrite app_nil_r in Hp; apply (Hl _ [] Hp); by rewrite app_nil_r| |done]. injection Hm as <- _.
    assert (Hall : Forall (fun p => last p = Some newline -> length p = 1%nat) spaces)
      by (apply (bool_decide_unpack (Forall _ _)); vm_compute; exact I).
    rewrite Forall_forall in Hall. specialize (Hall _ Hp). rewrite last_snoc, length_app in Hall. cbn [length] in Hall. specialize (Hall eq_refl). lia.
Qed.

Definition item_is (name item : string) : bool := String.eqb (Trim [dquote; "'"%char] (TrimSpace item)) name.

Lemma item_is_plain name x : plain_item x -> item_is name x = String.eqb x name.
Proof. intros (_ & H1 & H2). unfold item_is. by rewrite H1, H2. Qed.

Lemma Split_cut sep a s : ~ sep ∈ to_bytes a -> Split (a +:+ String sep s) sep = a :: Split s sep.
Proof.
  intros Ha. unfold Split. rewrite to_bytes_app. cbn [String.list_ascii_of_string].
  rewrite split_bytes_app by done. cbn [map]. by rewrite of_to_bytes.
Qed.

Lemma Split_last sep a : ~ sep ∈ to_bytes a -> Split a sep = [a].
Proof. intros Ha. unfold Split. rewrite split_bytes_last by done. cbn [map]. by rewrite of_to_bytes. Qed.

(** The list is read back, after a space or at its start. *)
Lemma listing_read name l front :
  front = "" \/ front = String space "" -> Forall plain_item l -> name <> "" ->
  existsb (item_is name) (Split (front +:+ listing l) ","%char) = bool_decide (name ∈ l).
Proof.
  intros Hf Hl Hname. revert front Hf. induction Hl as [|x l Hx Hl IH]; intros front Hf.
  - rewrite bool_decide_false by apply not_elem_of_nil. destruct Hf as [->| ->]; change ((String.eqb "" name || false)%bool = false);
      destruct (String.eqb_spec "" name) as [Hn|]; done.
  - assert (Hcomma : ~ ","%char ∈ to_bytes (front +:+ x)).
    { rewrite to_bytes_app, elem_of_app. intros [H|H]; [|by apply Hx]. destruct Hf as [->| ->]; revert H; no_newline. }
    assert (Htrim : forall y, item_is name (front +:+ y) = item_is name y) by (intros y; destruct Hf as [->| ->]; reflexivity).
    assert (Hone : bool_decide (name ∈ x :: l) = String.eqb x name || bool_decide (name ∈ l)).
    { rewrite (bool_decide_ext _ (x = name \/ name ∈ l)) by (rewrite elem_of_cons; naive_solver).
      destruct (String.eqb_spec x name), (decide (name ∈ l)); case_bool_decide; case_bool_decide; naive_solver. }
    rewrite Hone. destruct l as [|y l].
    + cbn [listing]. rewrite <-append_assoc, Split_last.
      * cbn [existsb]. rewrite append_assoc, Htrim. unfold item_is. destruct Hx as (_ & H1 & H2). by rewrite TrimSpace_back, H2.
      * rewrite to_bytes_app, elem_of_app. intros [H|H]; [done|]. revert H. no_newline.
    + change (listing (x :: y :: l)) with (x +:+ String ","%char (String space "" +:+ listing (y :: l))).
      rewrite <-append_assoc, Split_cut by done. cbn [existsb].
      rewrite Htrim, item_is_plain, IH by (done || by right). done.
Qed.

Lemma listing_present l : Forall plain_item l -> loginItemPresent (listing l) autoStartLoginItemName = bool_decide (autoStartLoginItemName ∈ l).
Proof. intros H. by apply (listing_read autoStartLoginItemName l "" (or_introl eq_refl)). Qed.

Section darwin.
Context {H : Type} (Run : cmdRunner H) (lower : string -> string) (items : H -> list string).
Context (laws : osascript_laws Run lower items).

Definition items_ok (h : H) : Prop := Forall plain_item (items h).
Definition items_registered (h : H) : bool := bool_decide (autoStartLoginItemName ∈ items h).

Lemma plain_name : plain_item autoStartLoginItemName.
Proof. split; [no_newline|by vm_compute]. Qed.

(** [Enable] at the level of the login items. *)
Lemma darwin_Enable_items d h h' e :
  plain_path (da_exePath d) -> items_ok h -> darwin_Enable Run d h = (h', e) ->
  items h' = match e with
             | None => if items_registered h then items h else items h ++ [autoStartLoginItemName]
             | Some _ => items h
             end.
Proof using laws.
  intros Hp Hok. unfold darwin_Enable, items_registered. destruct (requireExePath _); [by intros [= <- <-]|].
  destruct (Run h _ _) as [h1 [out err]] eqn:E. destruct (os_list _ _ _ laws _ _ _ _ E) as [H1 Hout].
  destruct err; [by intros [= <- <-]|]. rewrite Hout, listing_present by done.
  case_bool_decide; [by intros [= <- <-]|].
  destruct (Run h1 _ _) as [h2 [out2 err2]] eqn:E2. pose proof (os_make _ _ _ laws _ _ _ _ _ Hp E2) as H2.
  destruct err2; intros [= <- <-]; by rewrite H2, H1.
Qed.

Lemma darwin_Disable_items d h h' e :
  darwin_Disable Run lower d h = (h', e) ->
  items h' = match e with None => filter (.≠ autoStartLoginItemName) (items h) | Some _ => items h end.
Proof using laws.
  unfold darwin_Disable. destruct (Run h _ _) as [h1 [out err]] eqn:E. pose proof (os_delete _ _ _ laws _ _ _ _ E) as H1.
  destruct err as [err|]; [|by intros [= <- <-]]. destruct H1 as [H1 Hab].
  destruct (darwinItemAbsent lower out err); intros [= <- <-]; [|done]. rewrite H1. specialize (Hab eq_refl).
  clear -Hab. induction (items h) as [|x l IH]; [done|]. rewrite filter_cons_True by set_solver. by rewrite <-IH by set_solver.
Qed.

#[export] Instance darwin_lawful d :
  plain_path (da_exePath d) -> Lawful items_ok items_registered (darwin_autostarter Run lower d).
Proof using laws.
  intros Hp.
  assert (Hquery : forall h, items (darwin_IsEnabled Run d h).1 = items h).
  { intros h. unfold darwin_IsEnabled. destruct (Run h _ _) as [h1 [out err]] eqn:E.
    destruct (os_list _ _ _ laws _ _ _ _ E) as [H1 _]. by destruct err. }
  unfold items_registered, items_ok. split; simpl.
  - intros h Hok. destruct (darwin_Enable Run d h) as [h' e] eqn:E. apply darwin_Enable_items in E; [|done..]. simpl. rewrite E.
    destruct e; [done|]. destruct (items_registered h); [done|]. apply Forall_app. split; [done|]. by apply Forall_singleton, plain_name.
  - intros h Hok. destruct (darwin_Disable Run lower d h) as [h' e] eqn:E. apply darwin_Disable_items in E. simpl. rewrite E.
    destruct e; [done|]. rewrite Forall_forall in *. intros x [_ Hx]%list_elem_of_filter. by apply Hok.
  - intros h Hok. by rewrite Hquery.
  - intros h h' Hok E. apply darwin_Enable_items in E; [|done..]. rewrite E. unfold items_registered.
    apply bool_decide_eq_true. destruct (bool_decide (autoStartLoginItemName ∈ items h)) eqn:Hb; [by apply bool_decide_eq_true in Hb|set_solver].
  - intros h h' Hok E. apply darwin_Disable_items in E. rewrite E, bool_decide_false; [done|]. by rewrite list_elem_of_filter; intros [].
  - intros h h' e Hok E. apply darwin_Enable_items in E; [|done..]. by rewrite E.
  - intros h h' e Hok E. apply darwin_Disable_items in E. by rewrite E.
  - intros h h' b Hok E. unfold darwin_IsEnabled in E. destruct (Run h _ _) as [h1 [out err]] eqn:E1.
    destruct (os_list _ _ _ laws _ _ _ _ E1) as [H1 Hout]. destruct err; [done|].
    injection E as _ <-. by rewrite Hout, listing_present by done.
Qed.
End darwin.

(** ** The service on every platform *)

Lemma lawful_on_part {V W} (get : W -> V) (put : V -> W -> W) ok reg (a : autostarter V) :
  (forall v w, get (put v w) = v) -> Lawful ok reg a -> Lawful (fun w => ok (get w)) (fun w => reg (get w)) (on_part get put a).
Proof.
  intros Hg L. split; unfold on_part; cbn [Enable Disable IsEnabled]; intros w.
  - intros Hok. pose proof (enable_stays _ Hok). destruct (Enable a (get w)). cbn in *. by rewrite Hg.
  - intros Hok. pose proof (disable_stays _ Hok). destruct (Disable a (get w)). cbn in *. by rewrite Hg.
  - intros Hok. pose proof (query_stays _ Hok). destruct (IsEnabled a (get w)). cbn in *. by rewrite Hg.
  - intros w' Hok. destruct (Enable a (get w)) eqn:E. intros [= <- ->]. rewrite Hg. by eapply enable_registers.
  - intros w' Hok. destruct (Disable a (get w)) eqn:E. intros [= <- ->]. rewrite Hg. by eapply disable_removes.
  - intros w' e Hok. destruct (Enable a (get w)) eqn:E. intros [= <- ->]. rewrite Hg. by eapply enable_fails.
  - intros w' e Hok. destruct (Disable a (get w)) eqn:E. intros [= <- ->]. rewrite Hg. by eapply disable_fails.
  - intros w' b Hok. destruct (IsEnabled a (get w)) eqn:E. intros [= <- ->]. by eapply query_tells.
Qed.

Section platform.
Context {H : Type} (Run : cmdRunner H) (lower : string -> string) (ft : linux_faults).
Context (join : list string -> string) (env : string -> string) (home : string + string) (goos exePath : string).
Context (items : H -> list string) (value : H -> option string).

Definition platform_ok (w : H * linux_fs) : Prop :=
  if String.eqb goos "darwin" then items_ok items w.1
  else if String.eqb goos "windows" then reg_ok value w.1 else True.

Definition platform_registered (w : H * linux_fs) : bool :=
  if String.eqb goos "darwin" then items_registered items w.1
  else if String.eqb goos "windows" then reg_registered value w.1 else linux_registered w.2.

Lemma platform_lawful :
  osascript_laws Run lower items -> reg_laws Run lower value -> plain_path exePath -> plain_command exePath ->
  Lawful platform_ok platform_registered (newPlatformAutostart Run lower ft join env home goos exePath).
Proof using Type.
  intros Hos Hreg Hp Hc. unfold platform_ok, platform_registered, newPlatformAutostart.
  destruct (String.eqb goos "darwin"); [by apply (lawful_on_part fst), darwin_lawful|].
  destruct (String.eqb goos "windows"); [by apply (lawful_on_part fst), windows_lawful|].
  destruct (defaultLinuxConfigDir join env home) as [dir err]. by apply (lawful_on_part snd _ (fun _ => True)), linux_lawful.
Qed.
End platform.

(** A run of calls of [SetAutoStart] with the warnings they return. *)
Fixpoint set_all {W} (s : AutoStartService W) (requests : list bool) (w : W) : W * list string :=
  match requests with
  | [] => (w, [])
  | on :: requests =>
      let '(w, (warning, _)) := SetAutoStart s on w in
      let '(w, warnings) := set_all s requests w in (w, warning :: warnings)
  end.

(** The reference: the last request without a warning. *)
Definition obeyed (initial : bool) (log : list (bool * string)) : bool :=
  foldl (fun r x => if String.eqb x.2 "" then x.1 else r) initial log.

Lemma SetAutoStart_step {W} (ok : W -> Prop) (reg : W -> bool) (a : autostarter W) on w w' warn err :
  Lawful ok reg a -> ok w -> SetAutoStart (Some a) on w = (w', (warn, err)) ->
  ok w' /\ err = None /\ reg w' = if String.eqb warn "" then on else reg w.
Proof.
  intros L Hok. unfold SetAutoStart.
  pose proof (enable_stays w Hok) as He. pose proof (disable_stays w Hok) as Hd.
  destruct on; [destruct (Enable a w) as [w1 e] eqn:E|destruct (Disable a w) as [w1 e] eqn:E];
    destruct e as [e|]; intros [= <- <- <-]; repeat split; try done; cbn [String.eqb];
    eauto using enable_registers, disable_removes, enable_fails, disable_fails.
Qed.

Lemma set_all_obeyed {W} (ok : W -> Prop) (reg : W -> bool) (a : autostarter W) requests : forall w w' warnings,
  Lawful ok reg a -> ok w -> set_all (Some a) requests w = (w', warnings) ->
  ok w' /\ length warnings = length requests /\ reg w' = obeyed (reg w) (zip requests warnings).
Proof.
  induction requests as [|on requests IH]; intros w w' warnings L Hok; cbn [set_all]; [by intros [= <- <-]|].
  destruct (SetAutoStart (Some a) on w) as [w1 [warn err]] eqn:E1. destruct (set_all (Some a) requests w1) as [w2 ws] eqn:E2.
  intros [= <- <-]. destruct (SetAutoStart_step _ _ _ _ _ _ _ _ L Hok E1) as (Hok1 & _ & Hreg).
  destruct (IH _ _ _ L Hok1 E2) as (Hok2 & Hlen & Hreg2). split; [done|]. split; [by cbn [length]; rewrite Hlen|].
  rewrite Hreg2, Hreg. reflexivity.
Qed.

(** A host with both commands: its login items and its Run value. *)
Definition host : Type := list string * option string.

Definition host_Run : cmdRunner host := fun h name args =>
  let absent := ("ERROR: The system was unable to find the specified registry key or value.", Some "exit status 1") in
  match args with
  | ["-e"; script] =>
      if String.eqb script darwinListLoginItemsScript then (h, (listing h.1, None))
      else if String.eqb script (darwinDeleteLoginItemScript autoStartLoginItemName) then
        if bool_decide (autoStartLoginItemName ∈ h.1) then ((filter (.≠ autoStartLoginItemName) h.1, h.2), ("", None))
        else (h, ("execution error: System Events got an error: Can't get login item. (-1728)", Some "exit status 1"))
      else ((h.1 ++ [autoStartLoginItemName], h.2), ("", None))
  | [_; _; _; _; _; _; _; data; _] => ((h.1, Some data), ("The operation completed successfully.", None))
  | [_; _; _; _; _] => match h.2 with Some _ => ((h.1, None), ("The operation completed successfully.", None)) | None => (h, absent) end
  | [_; _; _; _] => match h.2 with Some d => (h, (reg_output d, None)) | None => (h, absent) end
  | _ => (h, ("", Some "exit status 1"))
  end.

Lemma host_osascript : osascript_laws host_Run id fst.
Proof.
  split.
  - intros [l v] h' out err [= <- <- <-]. done.
  - intros [l v] h' p out err _ [= <- <- <-]. done.
  - intros [l v] h' out err. unfold host_Run.
    change (String.eqb (darwinDeleteLoginItemScript autoStartLoginItemName) darwinListLoginItemsScript) with false.
    rewrite String.eqb_refl. cbn [fst snd]. case_bool_decide; intros [= <- <- <-]; done.
Qed.

Lemma host_reg : reg_laws host_Run id snd.
Proof.
  split.
  - intros [l v] h' p out err _ [= <- <- <-]. done.
  - intros [l [d|]] h' out err [= <- <- <-]; done.
  - intros [l [d|]] h' out err [= <- <- <-]; cbn; eauto.
Qed.

(** ** Properties *)

(** On every platform whose commands keep the laws above (so not where
    [osascript] is missing, see [ex_missing_osascript]), for a plain path and
    login items without commas: a run of calls of [SetAutoStart] leaves the login
    item as the last request that came back without a warning asked, and as it
    was before when there is none; every query that succeeds afterwards tells
    that. *)
Theorem autostart_obeyed {H} (Run : cmdRunner H) (lower : string -> string) ft join env home goos exePath items value requests w w' warnings :
  osascript_laws Run lower items -> reg_laws Run lower value -> plain_path exePath -> plain_command exePath ->
  let s := Some (newPlatformAutostart Run lower ft join env home goos exePath) in
  let registered := platform_registered goos items value in
  platform_ok goos items value w ->
  set_all s requests w = (w', warnings) ->
  registered w' = obeyed (registered w) (zip requests warnings) /\
  forall w2 b, IsAutoStartEnabled s w' = (w2, (b, None)) -> b = registered w' /\ registered w2 = registered w'.
Proof.
  intros Hos Hreg Hp Hc s registered Hok Hset.
  pose proof (platform_lawful Run lower ft join env home goos exePath items value Hos Hreg Hp Hc) as L.
  destruct (set_all_obeyed _ _ _ _ _ _ _ L Hok Hset) as (Hok' & _ & Hend). split; [exact Hend|].
  intros w2 b Hq. split; [exact (query_tells _ _ _ Hok' Hq)|].
  pose proof (query_stays w' Hok') as [_ Hs]. cbn [IsAutoStartEnabled s] in Hq. by rewrite Hq in Hs.
Qed.

Definition no_faults : linux_faults :=
  {| ft_mkdir := None; ft_create := None; ft_write := None; ft_chmod := None; ft_close := None; ft_rename := None;
     ft_cleanup := None; ft_remove := None; ft_stat := None |}.

Definition join_slash (l : list string) : string := String.concat "/" l.

Definition an_exe : string := "/opt/Infer Mesh/infermesh".

Lemma an_exe_plain : plain_path an_exe /\ plain_command an_exe.
Proof.
  split; [split; no_newline|split; [no_newline|exists "o"%char]]. split; [by apply solid_dec_true|].
  apply (bool_decide_unpack (_ ∈ _)). vm_compute. exact I.
Qed.

Lemma autostart_obeyed_witness :
  let w : host * linux_fs := ((["Sync"], None), {| fs_entry := None; fs_temps := 0 |}) in
  let s goos := Some (newPlatformAutostart host_Run id no_faults join_slash (fun _ => "") (inl "/root") goos an_exe) in
  Forall (fun goos => (set_all (s goos) [false; true; true] w).2 = [""; ""; ""] /\
    platform_registered goos fst snd (set_all (s goos) [false; true; true] w).1 = true) ["darwin"; "windows"; "linux"].
Proof.
  intros w s. apply Forall_forall. intros goos Hg. rewrite !elem_of_cons, elem_of_nil in Hg. assert (Hw : (set_all (s goos) [false; true; true] w).2 = [""; ""; ""]) by (destruct Hg as [->|[->|[->|[]]]]; by vm_compute).
  split; [exact Hw|]. destruct (set_all (s goos) [false; true; true] w) as [w' warnings] eqn:E. simpl in Hw. subst warnings.
  assert (Hok : platform_ok goos fst snd w).
  { destruct Hg as [->|[->|[->|[]]]]; simpl; [|done|done]. apply Forall_singleton. split; [no_newline|by vm_compute]. }
  destruct (autostart_obeyed host_Run id no_faults join_slash (fun _ => "") (inl "/root") goos an_exe fst snd [false; true; true] w w' _
    host_osascript host_reg (proj1 an_exe_plain) (proj2 an_exe_plain) Hok E) as [Hend _].
  exact Hend.
Defined.

(** *** Linux, without assumptions *)

(** A run of calls of [SetAutoStart], each with the failures of its own. *)
Fixpoint calls_made {W} (s : linux_faults -> autostarter W) (calls : list (bool * linux_faults)) (w : W) : W * list string :=
  match calls with
  | [] => (w, [])
  | (on, ft) :: calls =>
      let '(w, (warning, _)) := SetAutoStart (Some (s ft)) on w in
      let '(w, warnings) := calls_made s calls w in (w, warning :: warnings)
  end.

(** When a request can be obeyed. *)
Definition can_obey (ft : linux_faults) (l : linuxAutostart) (on : bool) (f : linux_fs) : Prop :=
  if on then can_write ft l f
  else la_initErr l = None /\ ft_remove ft = None /\ fs_entry f <> Some (Directory false).

(** The reference: the entry after a request and its warning. *)
Definition entry_left (exePath : string) (entry : option node) (x : bool * string) : option node :=
  if String.eqb x.2 "" then
    if x.1 then Some (Regular (desktopEntry (escapeDesktopExecArg exePath))) else None
  else entry.

Lemma linux_set ft l on f :
  let '(f', (warning, err)) := SetAutoStart (Some (linux_autostarter ft l)) on f in
  err = None /\ (warning = "" <-> can_obey ft l on f) /\
  fs_entry f' = entry_left (la_exePath l) (fs_entry f) (on, warning) /\
  (ft_cleanup ft = None -> fs_temps f' = fs_temps f).
Proof.
  unfold SetAutoStart, entry_left, can_obey. destruct on; cbn [Enable Disable linux_autostarter].
  - destruct (linux_Enable_spec ft l f) as [[Hw ->]|(Hw & e & He & Hentry & Htemps)]; [done|].
    destruct (linux_Enable ft l f) as [f' err]. simpl in *. subst err. done.
  - unfold linux_Disable. destruct (la_initErr l); [naive_solver|]. destruct (ft_remove ft); [naive_solver|].
    destruct (fs_entry f) as [[|[]]|] eqn:E; simpl; naive_solver.
Qed.


Definition faults_of (rename remove : option string) : linux_faults :=
  {| ft_mkdir := None; ft_create := None; ft_write := None; ft_chmod := None; ft_close := None; ft_rename := rename;
     ft_cleanup := None; ft_remove := remove; ft_stat := None |}.


(** An entry for a path without a newline has these lines and no other. *)
Theorem entry_lines path :
  ~ newline ∈ to_bytes path ->
  Split (desktopEntry (escapeDesktopExecArg path)) newline =
    ["[Desktop Entry]"; "Type=Application"; "Name=InferMesh"; "Exec=" +:+ escapeDesktopExecArg path;
     "X-GNOME-Autostart-enabled=true"; ""].
Proof. intros Hn. by apply desktopEntry_lines, escape_newline. Qed.

(** A path with a newline ends the value of the key: the rest is a key of its own. *)
Example ex_newline_in_path :
  let path := "/opt/a" +:+ String newline "Hidden=true" in
  Split (desktopEntry (escapeDesktopExecArg path)) newline =
    ["[Desktop Entry]"; "Type=Application"; "Name=InferMesh"; "Exec=" +:+ quote +:+ "/opt/a"; "Hidden=true" +:+ quote;
     "X-GNOME-Autostart-enabled=true"; ""].
Proof. reflexivity. Qed.

(** A byte that is no valid encoding is registered as U+FFFD. *)
Example ex_invalid_byte : to_bytes (valid_text (of_bytes (encoding [47; 233; 97]%nat))) = encoding [47; 239; 191; 189; 97]%nat.
Proof. reflexivity. Qed.

(** An item whose name contains a comma is read as several. *)
Example ex_item_with_comma : loginItemPresent (listing ["Sync, InferMesh"]) autoStartLoginItemName = true.
Proof. reflexivity. Qed.

(** A missing [osascript] counts as an item that is gone. *)
Example ex_missing_osascript : forall lower : string -> string, (forall s, lower s = s) ->
  darwinItemAbsent lower "" "exec: osascript: executable file not found in $PATH" = true.
Proof. intros lower Hl. unfold darwinItemAbsent. rewrite Hl. reflexivity. Qed.
