(* ===== verification/Wsutil.v ===== *)
(** * Wsutil: the WebSocket helpers ([internal/wsutil/wsutil.go])

    The constants of the transport, the configuration of a dialed connection, and
    the calls that send and receive under a deadline.  The socket library is an
    argument: a call of it is given the connection as it is then. *)

From S2P Require Import Prelude GoStrings Protocol WorkerClient.

#[local] Open Scope list_scope.

Definition MaxMessageSize : Z := Z.shiftl 64 20.
Definition DialTimeout : Duration := 10 * second.
Definition DefaultKeepAlive : Duration := 30 * second.
Definition DefaultPingInterval : Duration := 30 * second.
Definition ReadTimeout : Duration := 90 * second.

(** ** Errors

    The sentinels of the package and of the library, an error with [Timeout]
    and [Temporary] ([net.Error]), one with [Timeout] alone, any other, and an
    error wrapped with [%w]. *)
Inductive wserr :=
| ErrMessageTooLarge
| ErrWriteTimeout
| ErrFrameTooLarge
| NilConnection
| NetError (timeout : bool)
| TimeoutError (timeout : bool)
| OtherError (what : string)
| Wrapped (e : wserr).

#[export] Instance wserr_eq_dec : EqDecision wserr.
Proof. solve_decision. Defined.

(** [errors.Is], [errors.As] for a [net.Error], and [os.IsTimeout], which does
    not unwrap. *)
Fixpoint wserr_Is (target e : wserr) : bool :=
  bool_decide (e = target) || match e with Wrapped e => wserr_Is target e | _ => false end.

Fixpoint wserr_As_net (e : wserr) : option bool :=
  match e with NetError t => Some t | Wrapped e => wserr_As_net e | _ => None end.

Definition os_IsTimeout (e : wserr) : bool := match e with NetError t | TimeoutError t => t | _ => false end.

Definition isWriteTimeout (err : option wserr) : bool :=
  match err with
  | None => false
  | Some e =>
      if wserr_Is ErrWriteTimeout e then true
      else if match wserr_As_net e with Some t => t | None => false end then true
      else os_IsTimeout e
  end.

(** ** Connections *)

(** The deadlines are [None] when none is set; [cn_id] names the socket. *)
Record wsConn := {
  cn_id : nat;
  cn_MaxPayloadBytes : Z;
  cn_read_deadline : option Time;
  cn_write_deadline : option Time;
}.

Definition with_max (n : Z) (ws : wsConn) : wsConn :=
  {| cn_id := cn_id ws; cn_MaxPayloadBytes := n; cn_read_deadline := cn_read_deadline ws; cn_write_deadline := cn_write_deadline ws |}.

(** What [Dial] configures. *)
Record dialConfig := {
  dc_url : string;
  dc_origin : string;
  dc_Timeout : Duration;
  dc_KeepAlive : Duration;
  dc_tls : bool;
}.

Definition dial_config (urlStr origin : string) : dialConfig :=
  {| dc_url := urlStr; dc_origin := if String.eqb origin "" then "http://infermesh.local" else origin;
     dc_Timeout := DialTimeout; dc_KeepAlive := DefaultKeepAlive; dc_tls := HasPrefix urlStr "wss://" |}.

Section library.
(** [websocket.NewConfig] accepts or refuses; [dial] is [DialContext]. *)
Context (valid : string -> string -> option wserr) (dial : dialConfig -> wsConn + wserr).

Definition Dial (urlStr origin : string) : wsConn + wserr :=
  let config := dial_config urlStr origin in
  match valid urlStr (dc_origin config) with
  | Some err => inr err
  | None => match dial config with
            | inr err => inr err
            | inl ws => inl (with_max MaxMessageSize ws)
            end
  end.

(** What the handler of [Server] is given; the handshake accepts every origin. *)
Definition Server {A} (handle : wsConn -> A) (ws : wsConn) : A := handle (with_max MaxMessageSize ws).

(** [fails] says whether the deadline of the connection cannot be set. *)
Context (fails : wsConn -> option wserr).

Definition SetReadDeadline (t : Time) (ws : wsConn) : wsConn * option wserr :=
  match fails ws with
  | Some err => (ws, Some err)
  | None => ({| cn_id := cn_id ws; cn_MaxPayloadBytes := cn_MaxPayloadBytes ws; cn_read_deadline := Some t;
                cn_write_deadline := cn_write_deadline ws |}, None)
  end.

Definition SetWriteDeadline (t : Time) (ws : wsConn) : wsConn * option wserr :=
  match fails ws with
  | Some err => (ws, Some err)
  | None => ({| cn_id := cn_id ws; cn_MaxPayloadBytes := cn_MaxPayloadBytes ws; cn_read_deadline := cn_read_deadline ws;
                cn_write_deadline := Some t |}, None)
  end.

(** [send] and [receive] are the codec's; [marshal] is JSON. *)
Context {V : Type} (marshal : V -> option string) (send : wsConn -> string -> option wserr) (receive : wsConn -> V + wserr).

Definition SendText (ws : wsConn) (data : string) : option wserr := send ws data.

Definition SendJSON (ws : wsConn) (v : V) : option wserr :=
  match marshal v with None => Some (OtherError "json") | Some data => send ws data end.

Definition ReceiveJSON (ws : wsConn) : V + wserr :=
  match receive ws with
  | inr err => if wserr_Is ErrFrameTooLarge err then inr ErrMessageTooLarge else inr err
  | inl v => inl v
  end.

(** [writeTimeout] is the package's variable. *)
Context (writeTimeout : Duration) (now : Time).

Definition WriteJSON (ws : option wsConn) (v : V) : option wsConn * option wserr :=
  match ws with
  | None => (None, Some NilConnection)
  | Some ws =>
      match SetWriteDeadline (time_add now writeTimeout) ws with
      | (ws, Some err) => (Some ws, Some err)
      | (ws, None) =>
          let err := SendJSON ws v in
          if isWriteTimeout err then (Some ws, Some ErrWriteTimeout) else (Some ws, err)
      end
  end.

Definition WriteText (ws : option wsConn) (data : string) : option wsConn * option wserr :=
  match ws with
  | None => (None, Some NilConnection)
  | Some ws =>
      match SetWriteDeadline (time_add now writeTimeout) ws with
      | (ws, Some err) => (Some ws, Some err)
      | (ws, None) =>
          let err := SendText ws data in
          if isWriteTimeout err then (Some ws, Some ErrWriteTimeout) else (Some ws, err)
      end
  end.

(** [SetTCPKeepAlive] does nothing. *)
Definition SetTCPKeepAlive (ws : option wsConn) : option wserr := match ws with None => Some NilConnection | Some _ => None end.

(** ** Lemmas *)

(** A text is sent on a connection whose deadline is set, or not at all. *)
Lemma WriteText_spec ws data :
  (ws = None /\ WriteText ws data = (None, Some NilConnection)) \/
  (exists w err, ws = Some w /\ fails w = Some err /\ WriteText ws data = (Some w, Some err)) \/
  (exists w w', ws = Some w /\ fails w = None /\ cn_id w' = cn_id w /\ cn_write_deadline w' = Some (time_add now writeTimeout) /\
     WriteText ws data = (Some w', if isWriteTimeout (send w' data) then Some ErrWriteTimeout else send w' data)).
Proof using Type.
  destruct ws as [w|]; [|by left]. right. unfold WriteText, SetWriteDeadline.
  destruct (fails w) as [err|] eqn:Ef; [left; by exists w, err|]. right.
  exists w, (SetWriteDeadline (time_add now writeTimeout) w).1. unfold SetWriteDeadline. rewrite Ef.
  repeat (split; [done|]). unfold SendText. cbn [fst]. by destruct (isWriteTimeout (send _ data)).
Qed.
End library.
