(* ===== verification/RelayLink.v ===== *)
(** * RelayLink: the router's connection to the relay ([pkg/router/ws_relay.go])

    [runRelay] dials, waits for the loss of the connection and dials again, with
    a delay that doubles; [DialRelay] publishes a connection and starts its
    reader and its writer.  The loops start late or at once, and every
    interleaving of them with [runRelay] and with the steps of the hub ([step_op]) is a run of
    [link_step].  A connection is named by its generation, and so is the channel
    [done] made with it. *)

From S2P Require Import Prelude GoStrings Errors Protocol Registry QueueStats WorkerClient Wsutil Pending Hub HubCore HubSystem HubSpec.

#[local] Open Scope list_scope.

(** ** The address *)

Definition normalizeRelayURL (parse : string -> option URL) (show : URL -> string) (raw : string) : option string :=
  let s := TrimSpace raw in
  let s := if HasPrefix s "http://" then "ws://" +:+ TrimPrefix s "http://"
           else if HasPrefix s "https://" then "wss://" +:+ TrimPrefix s "https://"
           else if negb (HasPrefix s "ws://") && negb (HasPrefix s "wss://") then "ws://" +:+ s
           else s in
  u ← parse s;
  let path := if String.eqb (u_Path u) canonicalConnectPath || String.eqb (u_Path u) (canonicalConnectPath +:+ "/")
              then "" else u_Path u in
  let path := if String.eqb path "" || String.eqb path "/" then canonicalConnectPath else path in
  Some (show {| u_Base := u_Base u; u_Path := path; u_RawQuery := ""; u_Fragment := "" |}).

Definition relayRetryInitial : Duration := 2 * second.
Definition relayRetryMax : Duration := 30 * second.

(** [backoff *= 2] with its cap. *)
Definition next_backoff (backoff : Duration) : Duration :=
  let backoff := wrap64 (backoff * 2) in
  if relayRetryMax <? backoff then relayRetryMax else backoff.

(** ** The loops *)

(** A loop has its [done] channel, and the connection it captured when it
    started: [None] before that, [Some None] for a nil one. *)
Record loop := mkLoop { lp_done : nat; lp_conn : option (option nat) }.

#[export] Instance loop_eq_dec : EqDecision loop.
Proof. solve_decision. Defined.

(** Where [runRelay] is. *)
Inductive phase := Looping | Sleeping | Linked (done : nat) | Stopped.

#[export] Instance phase_eq_dec : EqDecision phase.
Proof. solve_decision. Defined.

(** [ln_next] counts the connections, [ln_done] are the channels closed,
    [ln_closed] the connections closed by the router, and [ln_waits] the delays
    slept, the latest first. *)
Record linkState := mkState {
  ln_sys : system;
  ln_phase : phase;
  ln_backoff : Duration;
  ln_cancelled : bool;
  ln_next : nat;
  ln_reader : list loop;
  ln_writers : list loop;
  ln_done : list nat;
  ln_closed : list nat;
  ln_waits : list Duration;
}.

Definition ln_hub (s : linkState) : WSHub := sys_hub (ln_sys s).

Definition initial_link (sys : system) : linkState := mkState sys Looping relayRetryInitial false 0 [] [] [] [] [].

Definition set_sys (sys : system) (s : linkState) : linkState :=
  mkState sys (ln_phase s) (ln_backoff s) (ln_cancelled s) (ln_next s) (ln_reader s) (ln_writers s) (ln_done s) (ln_closed s) (ln_waits s).
Definition set_hub (h : WSHub) (s : linkState) : linkState := set_sys (mkSystem h (sys_shakes (ln_sys s))) s.
Definition set_phase (p : phase) (s : linkState) : linkState :=
  mkState (ln_sys s) p (ln_backoff s) (ln_cancelled s) (ln_next s) (ln_reader s) (ln_writers s) (ln_done s) (ln_closed s) (ln_waits s).
Definition set_backoff (b : Duration) (s : linkState) : linkState :=
  mkState (ln_sys s) (ln_phase s) b (ln_cancelled s) (ln_next s) (ln_reader s) (ln_writers s) (ln_done s) (ln_closed s) (ln_waits s).
Definition set_readers (l : list loop) (s : linkState) : linkState :=
  mkState (ln_sys s) (ln_phase s) (ln_backoff s) (ln_cancelled s) (ln_next s) l (ln_writers s) (ln_done s) (ln_closed s) (ln_waits s).
Definition set_writers (l : list loop) (s : linkState) : linkState :=
  mkState (ln_sys s) (ln_phase s) (ln_backoff s) (ln_cancelled s) (ln_next s) (ln_reader s) l (ln_done s) (ln_closed s) (ln_waits s).
Definition close_done (d : nat) (s : linkState) : linkState :=
  mkState (ln_sys s) (ln_phase s) (ln_backoff s) (ln_cancelled s) (ln_next s) (ln_reader s) (ln_writers s) (d :: ln_done s) (ln_closed s) (ln_waits s).
Definition close_conn (g : nat) (s : linkState) : linkState :=
  mkState (ln_sys s) (ln_phase s) (ln_backoff s) (ln_cancelled s) (ln_next s) (ln_reader s) (ln_writers s) (ln_done s) (g :: ln_closed s) (ln_waits s).
Definition sleep (s : linkState) : linkState :=
  mkState (ln_sys s) Sleeping (ln_backoff s) (ln_cancelled s) (ln_next s) (ln_reader s) (ln_writers s) (ln_done s) (ln_closed s)
    (ln_backoff s :: ln_waits s).
Definition cancel_ctx (s : linkState) : linkState :=
  mkState (ln_sys s) (ln_phase s) (ln_backoff s) true (ln_next s) (ln_reader s) (ln_writers s) (ln_done s) (ln_closed s) (ln_waits s).

(** The part of [DialRelay] after [router_ready] was sent. *)
Definition dialed (s : linkState) : linkState :=
  let g := ln_next s in
  mkState (mkSystem (relay_published g (ln_hub s)) (sys_shakes (ln_sys s))) (Linked g) relayRetryInitial (ln_cancelled s) (S g)
    (ln_reader s ++ [mkLoop g None]) (ln_writers s ++ [mkLoop g None]) (ln_done s) (ln_closed s) (ln_waits s).

(** ** Events *)

(** How [runRelay]'s dial ends: no valid URL or no connection; a connection on
    which [router_ready] cannot be written, which is closed; a connection. *)
Inductive dial_outcome := NoConnection | NotReady | Connected.

(** [DialRelay] up to the publication: the arguments are those of [Wsutil]. *)
Definition DialRelay (parse : string -> option URL) (show : URL -> string) (valid : string -> string -> option wserr)
    (dial : dialConfig -> wsConn + wserr) (fails : wsConn -> option wserr) (marshal : Message -> option string)
    (send : wsConn -> string -> option wserr) (writeTimeout : Duration) (now : Time) (url : string) : dial_outcome :=
  match normalizeRelayURL parse show url with
  | None => NoConnection
  | Some normalized =>
      match Dial valid dial normalized "" with
      | inr _ => NoConnection
      | inl conn =>
          let readyMsg := {| msg_ID := ""; msg_Type := MsgRouterReady; msg_WorkerID := ""; msg_Payload := "" |} in
          match WriteJSON fails marshal send writeTimeout now (Some conn) readyMsg with
          | (_, Some _) => NotReady
          | (_, None) => Connected
          end
      end
  end.

Inductive link_event :=
| LCancel
| LRound (d : dial_outcome)
| LSlept (cancelled : bool)
| LWoken (cancelled : bool)
| LReaderStarts
| LReaderFrame (msg : Message)
| LReaderFails
| LWriterStarts (i : nat)
| LWriterFrame (i : nat) (written : bool)
| LWriterStops (i : nat)
| LHub (o : op).

Section link.
Context `{C : Codec}.

(** The deferred function of the reader. *)
Definition reader_exit (ch : choices) (l : loop) (g : nat) (s : linkState) : linkState :=
  close_done (lp_done l) (close_conn g (set_readers [] (set_hub (relay_reader_exit ch g (ln_hub s)) s))).

(** The deferred function of the writer, which is at [i]. *)
Definition writer_exit (i g : nat) (s : linkState) : linkState :=
  close_conn g (set_writers (delete i (ln_writers s)) (set_hub (relay_dropped g (ln_hub s)) s)).

(** The operations on the hub that are the link's. *)
Definition relay_op (o : op) : bool :=
  match o with ORelayUp _ | ORelayFrame _ | ORelayWriter _ _ | ORelayDropped _ | ORelayReaderExit _ => true | _ => false end.

(** One step; one that the state does not allow changes nothing.  A reader whose
    connection is nil panics in [SetReadDeadline]. *)
Definition link_step (ch : choices) (s : linkState) (e : link_event) : out linkState :=
  match e with
  | LCancel => OK (cancel_ctx s)
  | LRound d =>
      match ln_phase s with
      | Looping =>
          if ln_cancelled s then OK (set_phase Stopped s)
          else match d with
               | NoConnection => OK (sleep s)
               | NotReady => OK (sleep s)
               | Connected => OK (dialed s)
               end
      | _ => OK s
      end
  | LSlept cancelled =>
      match ln_phase s with
      | Sleeping =>
          if cancelled then if ln_cancelled s then OK (set_phase Stopped s) else OK s
          else OK (set_phase Looping (set_backoff (next_backoff (ln_backoff s)) s))
      | _ => OK s
      end
  | LWoken cancelled =>
      match ln_phase s with
      | Linked d =>
          if cancelled then if ln_cancelled s then OK (set_phase Stopped s) else OK s
          else if decide (d ∈ ln_done s) then OK (set_phase Looping s) else OK s
      | _ => OK s
      end
  | LReaderStarts =>
      match ln_reader s with
      | [{| lp_done := d; lp_conn := None |}] => OK (set_readers [mkLoop d (Some (relayConn (h_relay (ln_hub s))))] s)
      | _ => OK s
      end
  | LReaderFrame msg =>
      match ln_reader s with
      | [{| lp_conn := Some None |}] => Panicked
      | [{| lp_done := d; lp_conn := Some (Some g) |} as l] =>
          do (h, continues) <- relay_receive ch msg (ln_hub s);
          let s := set_hub h s in
          OK (if continues : bool then s else reader_exit ch l g s)
      | _ => OK s
      end
  | LReaderFails =>
      match ln_reader s with
      | [{| lp_conn := Some None |}] => Panicked
      | [{| lp_done := d; lp_conn := Some (Some g) |} as l] => OK (reader_exit ch l g s)
      | _ => OK s
      end
  | LWriterStarts i =>
      match ln_writers s !! i with
      | Some {| lp_done := d; lp_conn := None |} =>
          match relayConn (h_relay (ln_hub s)) with
          | None => OK (set_writers (delete i (ln_writers s)) s)
          | Some g => OK (set_writers (<[i := mkLoop d (Some (Some g))]> (ln_writers s)) s)
          end
      | _ => OK s
      end
  | LWriterFrame i written =>
      match ln_writers s !! i with
      | Some {| lp_conn := Some (Some g) |} =>
          if decide (written = true /\ g ∈ ln_closed s) then OK s
          else
            let '(h, continues) := relay_writer_round ch g written (ln_hub s) in
            let s := set_hub h s in
            OK (if continues : bool then s else writer_exit i g s)
      | _ => OK s
      end
  | LWriterStops i =>
      match ln_writers s !! i with
      | Some {| lp_done := d; lp_conn := Some (Some g) |} =>
          if decide (ln_cancelled s = true \/ d ∈ ln_done s) then OK (writer_exit i g s) else OK s
      | _ => OK s
      end
  | LHub o =>
      if relay_op o then OK s
      else do sys <- step_op ch (ln_sys s) o;
      OK (set_sys sys s)
  end.

Fixpoint link_run (ch : choices) (s : linkState) (es : list link_event) : out linkState :=
  match es with
  | [] => OK s
  | e :: es => do s <- link_step ch s e; link_run ch s es
  end.
End link.

(** ** Only the link changes the relay's connection *)

Abbreviation conn_of h := (relayConn (h_relay h)) (only parsing).

Section kept.
Context `{C : Codec}.

Ltac crunch := repeat (first [done | case_match | case_decide]); simplify_eq/=; try done.

Lemma kept_finish ch k pc h : conn_of (finish ch k pc h) = conn_of h.
Proof. unfold finish, recordWait, upd_relay, decrementRelayInFlight. crunch. Qed.

Lemma kept_update_call ch k pc pc' h : conn_of (update_call ch k pc pc' h) = conn_of h.
Proof. unfold update_call. case_match; [by rewrite kept_finish|done]. Qed.

Lemma kept_fail_call ch e h k : conn_of (fail_call ch e h k) = conn_of h.
Proof. unfold fail_call. case_match; [apply kept_update_call|done]. Qed.

Lemma kept_fold {A} (f : WSHub -> A -> WSHub) l h : (forall h x, conn_of (f h x) = conn_of h) -> conn_of (foldl f h l) = conn_of h.
Proof. intros Hf. revert h. induction l as [|x l IH]; intros h; [done|]. simpl. by rewrite IH, Hf. Qed.

Lemma kept_failAll ch e h : conn_of (failAllRelayPending ch e h) = conn_of h.
Proof. apply kept_fold. intros. apply kept_fail_call. Qed.

Lemma kept_handle_call ch k msg h h' : handle_call ch k msg h = OK h' -> conn_of h' = conn_of h.
Proof. unfold handle_call. repeat case_match; intros [= <-]; [apply kept_update_call|done]. Qed.

Lemma kept_bridge ch e h : conn_of (bridge ch e h) = conn_of h.
Proof. unfold bridge. crunch. Qed.

Lemma kept_shutdown ch r h : conn_of (shutdown ch r h) = conn_of h.
Proof.
  unfold shutdown. case_match; [|done]. case_match; [done|].
  case_decide; rewrite ?kept_bridge, kept_fold by (intros; apply kept_fail_call); done.
Qed.

Lemma kept_to_relay {A} (P : A -> Prop) data a h :
  (forall h', conn_of h' = conn_of h -> P (a h')) -> Forall P (to_relay data a h).
Proof. intros H. unfold to_relay. case_match; [|constructor]. by apply Forall_singleton, H. Qed.

Lemma kept_to_conn {A} (P : A -> Prop) r c data a h :
  (forall h', conn_of h' = conn_of h -> P (a h')) -> Forall P (to_conn r c data a h).
Proof. intros H. unfold to_conn. case_match; [|constructor]. by apply Forall_singleton, H. Qed.

Lemma kept_enqueue ch r msg h : conn_of (enqueue ch r msg h).1 = conn_of h.
Proof.
  unfold enqueue. destruct (h_heap h !! r) as [c|]; [|done].
  destruct (relayConnected h); (case_match; [|done]); (apply (select_all (fun x => conn_of x.1 = conn_of h)); [|done]);
    (apply Forall_app; split; [by apply kept_to_relay || by apply kept_to_conn|by apply Forall_if]).
Qed.

Lemma kept_enqueueRelay ch ctx msg h : conn_of (enqueueRelay ch ctx msg h).1 = conn_of h.
Proof.
  unfold enqueueRelay. destruct (negb _); [done|]. case_match; [|done].
  apply (select_all (fun x => conn_of x.1 = conn_of h)); [|done]. apply Forall_app.
  split; [by apply kept_to_relay|by apply Forall_ctx_ready].
Qed.

Lemma kept_enqueueClose ch r reason h : conn_of (enqueueClose ch r reason h).1 = conn_of h.
Proof.
  unfold enqueueClose. case_match; [|done]. pose proof (kept_enqueue ch r m h) as He.
  destruct (enqueue ch r m h) as [h' ok]. simpl in He. by destruct (relayConnected h').
Qed.

Lemma kept_enqueueClose_locked ch r reason h h' : enqueueClose_locked ch r reason h = OK h' -> conn_of h' = conn_of h.
Proof. unfold enqueueClose_locked. repeat case_match; intros [= <-]; auto using kept_enqueueClose. Qed.

Lemma kept_SetWorkerMaxInFlight w cap h : conn_of (SetWorkerMaxInFlight w cap h) = conn_of h.
Proof. unfold SetWorkerMaxInFlight. crunch. Qed.

Lemma kept_dispatch ch r msg h h' : dispatch ch r msg h = OK h' -> conn_of h' = conn_of h.
Proof.
  unfold dispatch, routeResponse, failPending.
  repeat (case_match || case_decide); intros Hd; try (by eapply kept_handle_call; eassumption); injection Hd as <-;
    by rewrite ?kept_SetWorkerMaxInFlight, ?kept_bridge, ?kept_shutdown, ?kept_fail_call.
Qed.

Lemma kept_fold_out (f : WSHub -> nat -> out WSHub) l h h' :
  (forall h h' r, f h r = OK h' -> conn_of h' = conn_of h) ->
  foldl (fun h r => do h <- h; f h r) (OK h) l = OK h' -> conn_of h' = conn_of h.
Proof.
  intros Hf. revert h. induction l as [|r l IH]; intros h; simpl; [by intros [= <-]|].
  destruct (f h r) as [h1| |] eqn:E; [|clear; induction l; simpl; [done|exact IHl]..].
  intros H. by rewrite (IH _ H), (Hf _ _ _ E).
Qed.

Lemma kept_handleRelayRegister ch msg h h' : handleRelayRegister ch msg h = OK h' -> conn_of h' = conn_of h.
Proof.
  unfold handleRelayRegister. case_match; [|by intros [= <-]]. case_decide; [by intros [= <-]|]. case_decide; [by intros [= <-]|].
  cbv zeta. match goal with |- context [h_conns ?x !! ?k] => destruct (h_conns x !! k) as [old|] end; simpl.
  - match goal with |- context [enqueueClose_locked ch old ?x ?y] => destruct (enqueueClose_locked ch old x y) as [h1| |] eqn:E end; simpl; try done.
    intros [= <-]. rewrite kept_enqueue, kept_bridge. simpl. by rewrite (kept_enqueueClose_locked _ _ _ _ _ E).
  - intros [= <-]. by rewrite kept_enqueue, kept_bridge.
Qed.

Lemma kept_relay_receive ch msg h h' b : relay_receive ch msg h = OK (h', b) -> conn_of h' = conn_of h.
Proof.
  unfold relay_receive. case_decide.
  { destruct (handleRelayRegister ch msg h) as [h1| |] eqn:E; simpl; try done. intros [= <- _]. by eapply kept_handleRelayRegister. }
  case_decide.
  { match goal with |- context [enqueueRelay ch None ?m h] => pose proof (kept_enqueueRelay ch None m h); destruct (enqueueRelay ch None m h) as [h1 [e|]] end;
      by intros [= <- _]. }
  destruct (relay_routed ch msg h) as [[h1 consumed]| |] eqn:E; simpl; try done.
  assert (H1 : conn_of h1 = conn_of h).
  { revert E. unfold relay_routed, routeRelayResponse. repeat case_match; try (by intros [= <- _]);
      destruct (handle_call ch _ msg h) as [h2| |] eqn:Eh; simpl; try done; intros [= <- _]; by eapply kept_handle_call. }
  case_decide.
  - destruct consumed; [by intros [= <- _]|]. destruct (h_conns h1 !! msg_WorkerID msg); simpl; [|by intros [= <- _]].
    destruct (dispatch ch n msg h1) as [h2| |] eqn:Ed; simpl; try done. intros [= <- _]. by rewrite (kept_dispatch _ _ _ _ _ Ed).
  - destruct (dispatch_all ch msg h1) as [h2| |] eqn:Ed; simpl; try done. intros [= <- _].
    rewrite <-H1. revert Ed. apply (kept_fold_out (fun h r => dispatch ch r msg h)). intros. by eapply kept_dispatch.
Qed.

Lemma kept_releaseSlot r h : conn_of (releaseSlot r h) = conn_of h.
Proof. unfold releaseSlot. crunch. Qed.

Lemma kept_connSemFor h : conn_of (connSemFor h) = conn_of h.
Proof. unfold connSemFor. crunch. Qed.

Lemma kept_acquireConn pick ctx h : conn_of (acquireConn pick ctx h).1 = conn_of h.
Proof.
  unfold acquireConn. apply (select_all (fun x => conn_of x.1 = conn_of h)); [|apply kept_connSemFor].
  apply Forall_app. split; [apply Forall_if|destruct ctx; [apply Forall_singleton|constructor]]; apply kept_connSemFor.
Qed.

Lemma kept_supersede ch id h h' : supersede ch id h = OK h' -> conn_of h' = conn_of h.
Proof.
  unfold supersede. case_match; [|by intros [= <-]]. intros E. by rewrite (kept_enqueueClose_locked _ _ _ _ _ E), kept_releaseSlot.
Qed.

Lemma kept_publish ch w slot h : conn_of (publish ch w slot h).1 = conn_of h.
Proof. unfold publish. cbv zeta. simpl. by rewrite kept_enqueue, kept_bridge. Qed.

Lemma kept_writer_round ch r written h : conn_of (writer_round ch r written h).1 = conn_of h.
Proof.
  unfold writer_round. case_match; [|done]. apply (select_all (fun x => conn_of x.1 = conn_of h)); [|done].
  apply Forall_app. split; [|by apply Forall_if]. case_match; [constructor|]. apply Forall_singleton.
  destruct written; [done|]. simpl. by rewrite kept_shutdown.
Qed.

Lemma kept_send ch r c msg h : conn_of (send ch r c msg h).1 = conn_of h.
Proof.
  unfold send. destruct (relayConnected h); (case_match; [|done]);
    (apply (select_all (fun x => conn_of x.1 = conn_of h)); [|done]); rewrite !Forall_app; split_and!;
    try (by apply kept_to_relay); try (by apply kept_to_conn); try (by apply Forall_ctx_ready); by apply Forall_if.
Qed.

Lemma kept_start_call ch r c stream msg h : conn_of (start_call ch r c stream msg h).1.1 = conn_of h.
Proof.
  unfold start_call. assert (Hr : forall id, conn_of (addPending ch r c id stream h).1 = conn_of h) by (intros id; unfold addPending; crunch).
  replace ((if stream then registerStream else registerCall) ch r c (msg_ID msg) h) with (addPending ch r c (msg_ID msg) stream h) by by destruct stream.
  specialize (Hr (msg_ID msg)). destruct (addPending _ _ _ _ _ _) as [h1 [k|e]]; [|done]. simpl in Hr.
  pose proof (kept_send ch r c msg h1) as Hs. destruct (send ch r c msg h1) as [h2 [e|]]; simpl in *; rewrite ?kept_fail_call; congruence.
Qed.

Lemma kept_start_relay_call ch w stream msg h : conn_of (start_relay_call ch w stream msg h).1.1 = conn_of h.
Proof.
  unfold start_relay_call. cbv zeta. set (m := with_WorkerID (wi_ID w) msg).
  assert (Hr : conn_of (registerRelay ch (msg_ID m) (wi_ID w) stream h).1 = conn_of h) by (unfold registerRelay; crunch).
  replace ((if stream then registerRelayStream else registerRelayCall) ch (msg_ID m) (wi_ID w) h)
    with (registerRelay ch (msg_ID m) (wi_ID w) stream h) by by destruct stream.
  destruct (registerRelay _ _ _ _ _) as [h1 [k|e]]; [|done]. simpl in Hr.
  pose proof (kept_enqueueRelay ch (ch_ctx ch) m h1) as Hs. destruct (enqueueRelay ch (ch_ctx ch) m h1) as [h2 [e|]]; simpl in *; rewrite ?kept_fail_call; congruence.
Qed.

Lemma kept_ping_all ch h : conn_of (ping_all ch h) = conn_of h.
Proof. unfold ping_all. case_match; [|done]. apply (kept_fold (fun h r => (enqueue ch r m h).1)). intros. apply kept_enqueue. Qed.

Lemma kept_step_op ch s o s' : relay_op o = false -> step_op ch s o = OK s' -> conn_of (sys_hub s') = conn_of (sys_hub s).
Proof.
  destruct o; try done; intros _; unfold step_op, try_hub, on_hub.
  - destruct (checkRegister _ _ _) as [[]| |]; simpl; try done; by intros [= <-].
  - repeat case_match; try (by intros [= <-]). destruct (supersede ch _ _) eqn:E; simpl; try done. intros [= <-]. by eapply kept_supersede.
  - repeat case_match; try (by intros [= <-]);
      match goal with E : acquireConn ?p ?c ?h = (?w, _) |- _ => pose proof (kept_acquireConn p c h) as Hk; rewrite E in Hk end; by intros [= <-].
  - repeat case_match; try (by intros [= <-]). intros [= <-]. apply kept_publish.
  - destruct (dispatch _ _ _ _) eqn:E; simpl; try done. intros [= <-]. by eapply kept_dispatch.
  - intros [= <-]. simpl. unfold conn_ended. by rewrite kept_releaseSlot, kept_shutdown.
  - intros [= <-]. simpl. unfold grace_expired. repeat case_match; by rewrite ?kept_shutdown.
  - intros [= <-]. apply kept_writer_round.
  - case_match; intros [= <-]; [apply kept_start_call|done].
  - intros [= <-]. apply kept_start_relay_call.
  - intros [= <-]. apply kept_fail_call.
  - by intros [= <-].
  - intros [= <-]. apply kept_enqueueClose.
  - intros [= <-]. apply kept_ping_all.
  - intros [= <-]. apply kept_SetWorkerMaxInFlight.
  - by intros [= <-].
  - intros [= <-]. simpl. unfold recordRejection, upd_worker. by case_match.
  - intros [= <-]. simpl. unfold recordTimeout, upd_worker. by case_match.
  - by intros [= <-].
  - by intros [= <-].
Qed.
End kept.

(** ** Dialing *)

(** The worker and the router dial the same address for the same setting. *)
Lemma same_address parse show raw : normalizeRelayURL parse show raw = normalizeConnectURL parse show raw.
Proof. reflexivity. Qed.

(** A connection is published only when [router_ready] was written to it, under
    a deadline and with the cap on frames. *)
Lemma DialRelay_connected parse show valid dial fails marshal send writeTimeout now url :
  DialRelay parse show valid dial fails marshal send writeTimeout now url = Connected ->
  exists u ws frame,
    normalizeRelayURL parse show url = Some u /\ cn_MaxPayloadBytes ws = MaxMessageSize /\
    cn_write_deadline ws = Some (time_add now writeTimeout) /\
    marshal {| msg_ID := ""; msg_Type := MsgRouterReady; msg_WorkerID := ""; msg_Payload := "" |} = Some frame /\ send ws frame = None.
Proof.
  unfold DialRelay, Dial, WriteJSON, SetWriteDeadline, SendJSON. destruct (normalizeRelayURL parse show url) as [u|]; [|done].
  destruct (valid u _); [done|]. destruct (dial _) as [ws|]; [|done]. destruct (fails _); [done|].
  set (ready := {| msg_ID := ""; msg_Type := MsgRouterReady; msg_WorkerID := ""; msg_Payload := "" |}).
  destruct (marshal ready) as [frame|] eqn:Em; [|by simpl].
  match goal with |- context [send ?w frame] => set (ws' := w) end.
  destruct (send ws' frame) as [e|] eqn:Es; [|by exists u, ws', frame].
  by destruct (isWriteTimeout (Some e)).
Qed.

(** ** Invariants *)

Definition in_bounds (d : Duration) : Prop := relayRetryInitial <= d <= relayRetryMax.

Record link_inv (s : linkState) : Prop := {
  li_backoff : in_bounds (ln_backoff s);
  li_waits : Forall in_bounds (ln_waits s);
  li_reader : ln_reader s = [] \/ exists l, ln_reader s = [l] /\ S (lp_done l) = ln_next s /\ ~ lp_done l ∈ ln_done s /\
                (lp_conn l = None \/ lp_conn l = Some None \/ lp_conn l = Some (Some (lp_done l)));
  li_conn g : conn_of (ln_hub s) = Some g -> exists c, ln_reader s = [mkLoop g c] /\ c <> Some None;
  li_phase : match ln_phase s with
             | Looping | Sleeping => ln_reader s = []
             | Linked d => S d = ln_next s /\ (d ∈ ln_done s \/ exists c, ln_reader s = [mkLoop d c])
             | Stopped => ln_cancelled s = true
             end;
  li_done : Forall (fun d => (d < ln_next s)%nat) (ln_done s);
}.

Lemma initial_bounds : in_bounds relayRetryInitial.
Proof. split; vm_compute; discriminate. Qed.

Lemma next_backoff_bounds d : in_bounds d -> in_bounds (next_backoff d).
Proof.
  unfold in_bounds, next_backoff, relayRetryInitial, relayRetryMax, second, millisecond. intros H.
  rewrite wrap64_id by (unfold in_int64, min_int64, max_int64; lia). destruct (Z.ltb_spec (30 * (1000 * 1000000)) (d * 2)); lia.
Qed.

Section invariant.
Context `{C : Codec}.

Lemma conn_dropped g h : conn_of (relay_dropped g h) = if decide (conn_of h = Some g) then None else conn_of h.
Proof. unfold relay_dropped. by case_decide. Qed.

Lemma conn_dropped_Some g g' h : conn_of (relay_dropped g h) = Some g' -> conn_of h = Some g'.
Proof. rewrite conn_dropped. by case_decide. Qed.

Lemma conn_reader_exit ch g h : conn_of (relay_reader_exit ch g h) = conn_of (relay_dropped g h).
Proof. unfold relay_reader_exit, cleanupRelayMetrics. simpl. apply kept_failAll. Qed.

Lemma conn_writer_round ch g written h g' :
  conn_of (relay_writer_round ch g written h).1 = Some g' -> conn_of h = Some g'.
Proof.
  unfold relay_writer_round. case_match; [done|]. destruct written; [done|]. simpl. intros Hg%conn_dropped_Some.
  by rewrite kept_failAll in Hg.
Qed.

(** A change of the hub that publishes nothing. *)
Lemma inv_hub sys s : (forall g, conn_of (sys_hub sys) = Some g -> conn_of (ln_hub s) = Some g) -> link_inv s -> link_inv (set_sys sys s).
Proof. intros Hc [H1 H2 H3 H4 H5 H6]. split; try done. intros g Hg. apply H4. by apply Hc. Qed.

(** A writer plays no part in the invariant. *)
Lemma inv_writers l s : link_inv s -> link_inv (set_writers l s).
Proof. intros [H1 H2 H3 H4 H5 H6]. by split. Qed.
Lemma inv_close_conn g s : link_inv s -> link_inv (close_conn g s).
Proof. intros [H1 H2 H3 H4 H5 H6]. by split. Qed.

Lemma inv_writer_exit i g s : link_inv s -> link_inv (writer_exit i g s).
Proof. intros H. apply inv_close_conn, inv_writers, inv_hub; [|done]. intros g'. apply conn_dropped_Some. Qed.

(** The reader of the newest connection ends. *)
Lemma inv_reader_exit ch d g s :
  link_inv s -> ln_reader s = [mkLoop d (Some (Some g))] -> link_inv (reader_exit ch (mkLoop d (Some (Some g))) g s).
Proof.
  intros [H1 H2 H3 H4 H5 H6] Hr. rewrite Hr in *.
  destruct H3 as [?|(l & [= <-] & Hn & Hnd & Hg)]; [done|]. simpl in *.
  assert (g = d) as -> by (destruct Hg as [?|[?|?]]; congruence).
  split; simpl; try done.
  - by left.
  - intros g'. change (conn_of (relay_reader_exit ch d (ln_hub s)) = Some g' -> exists c, [] = [mkLoop g' c] /\ c <> Some None).
    rewrite conn_reader_exit, conn_dropped. case_decide as Hd; [done|]. intros Hg'.
    destruct (H4 _ Hg') as (c & [= E _] & _). congruence.
  - destruct (ln_phase s) as [| |p|]; try done. destruct H5 as [H5 _]. split; [done|]. left. assert (p = d) as -> by lia. by left.
  - apply Forall_cons. split; [lia|done].
Qed.

Lemma inv_step ch s e s' : link_inv s -> link_step ch s e = OK s' -> link_inv s'.
Proof.
  intros Hinv. pose proof Hinv as [H1 H2 H3 H4 H5 H6]. destruct e; cbn [link_step].
  - intros [= <-]. split; try done. simpl. by destruct (ln_phase s).
  - destruct (ln_phase s) eqn:Hp; try (by intros [= <-]). destruct (ln_cancelled s) eqn:Hc; [intros [= <-]; by split|].
    assert (Hsleep : link_inv (sleep s)) by (split; try done; by apply Forall_cons).
    destruct d; intros [= <-]; [done..|].
    split; simpl; try done.
    + rewrite H5. right. eexists. split; [reflexivity|]. simpl. split; [done|]. split; [|by left].
      intros Hin. rewrite Forall_forall in H6. specialize (H6 _ Hin). lia.
    + intros g [= <-]. rewrite H5. by eexists.
    + split; [done|]. right. rewrite H5. by eexists.
    + eapply Forall_impl; [exact H6|]. simpl. lia.
  - destruct (ln_phase s) eqn:Hp; try (by intros [= <-]). destruct cancelled; [case_match|]; intros [= <-]; try done; split; try done.
    by apply next_backoff_bounds.
  - destruct (ln_phase s) as [| |d|] eqn:Hp; try (by intros [= <-]). destruct cancelled; [case_match; intros [= <-]; [by split|done]|].
    case_decide as Hd; intros [= <-]; [|done]. split; try done. simpl.
    destruct H3 as [?|(l & Hl & Hn & Hnd & _)]; [done|]. destruct H5 as [H5 _]. assert (lp_done l = d) by lia. by subst.
  - destruct (ln_reader s) as [|[d [c|]] [|]] eqn:Hr; try (by intros [= <-]). intros [= <-].
    destruct H3 as [?|(l & [= <-] & Hn & Hnd & _)]; [done|]. simpl in *.
    split; simpl; try done.
    + right. eexists. split; [reflexivity|]. simpl. do 2 (split; [done|]). right.
      destruct (conn_of (ln_hub s)) as [g|] eqn:Hc; [|by left]. right.
      destruct (H4 _ eq_refl) as (? & E & _). by simplify_eq.
    + intros g Hg. unfold ln_hub in *. simpl in *. rewrite Hg in *. destruct (H4 _ eq_refl) as (? & E & _). simplify_eq. by eexists.
    + destruct (ln_phase s); try done. destruct H5 as [H5 [Hd|[c E]]]; (split; [done|]); [by left|right; simplify_eq; by eexists].
  - destruct (ln_reader s) as [|[d [[g|]|]] [|]] eqn:Hr; try (by intros [= <-]) ; try done.
    destruct (relay_receive ch msg (ln_hub s)) as [[h b]| |] eqn:E; simpl; try done. apply kept_relay_receive in E.
    assert (Hi : link_inv (set_hub h s)) by (apply inv_hub; [intros g' Hg'; by rewrite <-E|done]).
    destruct b; intros [= <-]; [done|]. by apply inv_reader_exit.
  - destruct (ln_reader s) as [|[d [[g|]|]] [|]] eqn:Hr; try (by intros [= <-]) ; try done. intros [= <-]. by apply inv_reader_exit.
  - destruct (ln_writers s !! i) as [[d [c|]]|]; try (by intros [= <-]). destruct (conn_of (ln_hub s)); intros [= <-]; by apply inv_writers.
  - destruct (ln_writers s !! i) as [[d [[g|]|]]|]; try (by intros [= <-]). case_decide; [by intros [= <-]|].
    pose proof (conn_writer_round ch g written (ln_hub s)) as Hk. destruct (relay_writer_round ch g written (ln_hub s)) as [h b]. simpl in Hk.
    assert (Hi : link_inv (set_hub h s)) by by apply inv_hub.
    destruct b; intros [= <-]; [done|]. by apply inv_writer_exit.
  - destruct (ln_writers s !! i) as [[d [[g|]|]]|]; try (by intros [= <-]). case_decide; intros [= <-]; [by apply inv_writer_exit|done].
  - destruct (relay_op o) eqn:Ho; [by intros [= <-]|]. destruct (step_op ch (ln_sys s) o) as [sys| |] eqn:E; simpl; try done. intros [= <-].
    apply inv_hub; [|done]. intros g. by rewrite (kept_step_op _ _ _ _ Ho E).
Qed.
End invariant.

(** ** A run of the link is a run of the hub *)

Section runs.
Context `{C : Codec}.

Inductive link_sstep (s s' : linkState) : Prop :=
| link_sstep_intro ch e : link_step ch s e = OK s' -> link_sstep s s'.

Lemma sim_op ch s o s' : step_op ch s o = OK s' -> rtc sstep s s'.
Proof. intros H. by apply rtc_once, (sstep_op ch o). Qed.

Lemma sim_writer_exit (ch : choices) sys i g s : rtc sstep sys (ln_sys s) -> rtc sstep sys (ln_sys (writer_exit i g s)).
Proof. intros H. etrans; [exact H|]. by apply (sim_op ch _ (ORelayDropped g)). Qed.

Lemma sim_reader_exit ch sys l g s : rtc sstep sys (ln_sys s) -> rtc sstep sys (ln_sys (reader_exit ch l g s)).
Proof. intros H. etrans; [exact H|]. by apply (sim_op ch _ (ORelayReaderExit g)). Qed.

Lemma link_step_sim ch s e s' : link_step ch s e = OK s' -> rtc sstep (ln_sys s) (ln_sys s').
Proof.
  destruct e; cbn [link_step].
  - by intros [= <-].
  - destruct (ln_phase s); try (by intros [= <-]). destruct (ln_cancelled s); [by intros [= <-]|].
    destruct d; intros [= <-]; try done. by apply (sim_op ch _ (ORelayUp (ln_next s))).
  - destruct (ln_phase s), cancelled, (ln_cancelled s); by intros [= <-].
  - destruct (ln_phase s), cancelled, (ln_cancelled s); try case_decide; by intros [= <-].
  - destruct (ln_reader s) as [|[d [c|]] [|]]; by intros [= <-].
  - destruct (ln_reader s) as [|[d [[g|]|]] [|]]; try (by intros [= <-]); try done.
    destruct (relay_receive ch msg (ln_hub s)) as [[h b]| |] eqn:E; simpl; try done.
    assert (Hs : rtc sstep (ln_sys s) (ln_sys (set_hub h s))).
    { apply (sim_op ch _ (ORelayFrame msg)). unfold step_op, try_hub. unfold ln_hub in E. by rewrite E. }
    destruct b; intros [= <-]; [done|by apply sim_reader_exit].
  - destruct (ln_reader s) as [|[d [[g|]|]] [|]]; try (by intros [= <-]); try done. intros [= <-]. by apply sim_reader_exit.
  - destruct (ln_writers s !! i) as [[d [c|]]|]; try (by intros [= <-]). destruct (conn_of (ln_hub s)); by intros [= <-].
  - destruct (ln_writers s !! i) as [[d [[g|]|]]|]; try (by intros [= <-]). case_decide; [by intros [= <-]|].
    destruct (relay_writer_round ch g written (ln_hub s)) as [h b] eqn:E.
    assert (Hs : rtc sstep (ln_sys s) (ln_sys (set_hub h s))).
    { apply (sim_op ch _ (ORelayWriter g written)). unfold step_op, on_hub. unfold ln_hub in E. by rewrite E. }
    destruct b; intros [= <-]; [done|by apply (sim_writer_exit ch)].
  - destruct (ln_writers s !! i) as [[d [[g|]|]]|]; try (by intros [= <-]).
    case_decide; intros [= <-]; [by apply (sim_writer_exit ch)|done].
  - destruct (relay_op o); [by intros [= <-]|]. destruct (step_op ch (ln_sys s) o) as [sys| |] eqn:E; simpl; try done.
    intros [= <-]. by eapply sim_op.
Qed.

Lemma inv_initial reg cfg : link_inv (initial_link (initial reg cfg)).
Proof. split; try done. by left. Qed.

Lemma link_reachable reg cfg s :
  rtc link_sstep (initial_link (initial reg cfg)) s -> link_inv s /\ rtc sstep (initial reg cfg) (ln_sys s).
Proof.
  intros H. remember (initial_link (initial reg cfg)) as s0 eqn:E.
  assert (Hs : link_inv s0 -> link_inv s /\ rtc sstep (ln_sys s0) (ln_sys s)).
  { clear E. induction H as [|x y z [ch e Hxy] _ IH]; [by split|]. intros Hx.
    destruct (IH (inv_step _ _ _ _ Hx Hxy)) as [Hz Hr]. split; [done|]. etrans; [by eapply link_step_sim|done]. }
  subst s0. apply Hs, inv_initial.
Qed.

(** ** Redialing *)

(** Rounds whose dials fail. *)
Definition failing (ds : list dial_outcome) : list link_event := flat_map (fun d => [LRound d; LSlept false]) ds.

Definition delay (k : nat) : Duration := Z.min relayRetryMax (relayRetryInitial * 2 ^ Z.of_nat k).

Lemma next_delay k : next_backoff (delay k) = delay (S k).
Proof.
  unfold next_backoff, delay. rewrite Nat2Z.inj_succ, Z.pow_succ_r by lia.
  assert (Hp : 0 < 2 ^ Z.of_nat k) by (apply Z.pow_pos_nonneg; lia). revert Hp.
  generalize (2 ^ Z.of_nat k) as p. intros p Hp. unfold relayRetryMax, relayRetryInitial, second, millisecond.
  rewrite wrap64_id by (unfold in_int64, min_int64, max_int64; lia).
  match goal with |- (if ?a <? ?b then _ else _) = _ => destruct (Z.ltb_spec a b) end; lia.
Qed.

Lemma failing_run ch ds : forall k s,
  Forall (.≠ Connected) ds -> ln_phase s = Looping -> ln_cancelled s = false -> ln_backoff s = delay k ->
  exists s', link_run ch s (failing ds) = OK s' /\ ln_phase s' = Looping /\ ln_waits s' = rev (map delay (seq k (length ds))) ++ ln_waits s.
Proof.
  induction ds as [|d ds IH]; intros k s Hds Hp Hc Hb; [by exists s|].
  apply Forall_cons in Hds as [Hd Hds].
  destruct (IH (S k) (set_phase Looping (set_backoff (next_backoff (ln_backoff s)) (sleep s))) Hds) as (s' & Hr & Hp' & Hw); [done|done| |].
  { simpl. by rewrite Hb, next_delay. }
  exists s'. split; [|split; [done|]].
  - rewrite <-Hr. cbn [failing flat_map app link_run link_step]. rewrite Hp, Hc. by destruct d.
  - rewrite Hw. simpl. by rewrite Hb, <-(assoc_L (++)).
Qed.
End runs.

(** ** Properties *)

Section properties.
Context `{C : Codec}.

(** C6: however the loops, [runRelay], the context and the rest of the hub
    interleave, the link is kept up: [runRelay] returns only when the context is
    over, and waits only for a connection whose reader is alive or has closed its
    [done]; the published connection is the newest and has the one reader there
    is; every delay between two dials is between 2 s and 30 s; and the hub goes
    through states that it reaches by its own steps. *)
Theorem relay_link_kept_up reg cfg s :
  rtc link_sstep (initial_link (initial reg cfg)) s ->
  (ln_phase s = Stopped -> ln_cancelled s = true) /\
  (forall d, ln_phase s = Linked d -> d ∈ ln_done s \/ exists c, ln_reader s = [mkLoop d c]) /\
  (length (ln_reader s) <= 1)%nat /\
  (forall g, conn_of (ln_hub s) = Some g -> S g = ln_next s /\ exists c, ln_reader s = [mkLoop g c]) /\
  Forall in_bounds (ln_waits s) /\
  rtc sstep (initial reg cfg) (ln_sys s).
Proof.
  intros H. destruct (link_reachable _ _ _ H) as [[H1 H2 H3 H4 H5 H6] Hr]. split_and!; try done.
  - intros Hp. by rewrite Hp in H5.
  - intros d Hp. rewrite Hp in H5. apply H5.
  - destruct H3 as [->|(l & -> & _)]; simpl; lia.
  - intros g Hg. destruct (H4 _ Hg) as (c & Hc & _). rewrite Hc in H3. destruct H3 as [?|(l & [= <-] & Hn & _)]; [done|].
    split; [done|by exists c].
Qed.

(** While the relay cannot be reached the router dials again and again, after
    2, 4, 8 and 16 seconds and then every 30; it never stops. *)
Theorem relay_redials ch reg cfg ds :
  Forall (.≠ Connected) ds ->
  exists s, link_run ch (initial_link (initial reg cfg)) (failing ds) = OK s /\ ln_phase s = Looping /\
    ln_waits s = rev (map delay (seq 0 (length ds))) /\
    forall k, (4 <= k)%nat -> delay k = relayRetryMax.
Proof.
  intros Hds. destruct (failing_run ch ds 0 (initial_link (initial reg cfg)) Hds eq_refl eq_refl eq_refl) as (s & Hr & Hp & Hw).
  exists s. split_and!; [done|done|by rewrite Hw, app_nil_r|]. intros k Hk. unfold delay.
  assert (2 ^ 4 <= 2 ^ Z.of_nat k) by (apply Z.pow_le_mono_r; lia). unfold relayRetryMax, relayRetryInitial, second, millisecond. lia.
Qed.

(** Fault: a loop captures its connection when it starts, not when it is
    spawned.  A reader that starts after its writer ended has none, and its first
    [SetReadDeadline] panics; a writer that starts after the next dial captures
    the successor's connection, sees that its own [done] is closed, and closes
    that connection. *)
Theorem late_loops reg cfg :
  (exists ch es, link_run ch (initial_link (initial reg cfg)) es = Panicked) /\
  (exists ch es s, link_run ch (initial_link (initial reg cfg)) es = OK s /\
     ln_phase s = Linked 1 /\ ln_reader s = [mkLoop 1 (Some (Some 1%nat))] /\ ~ 1%nat ∈ ln_done s /\
     1%nat ∈ ln_closed s /\ conn_of (ln_hub s) = None).
Proof.
  split; exists (demo_choices 0).
  - exists [LRound Connected; LWriterStarts 0; LCancel; LWriterStops 0; LReaderStarts; LReaderFails]. vm_compute. reflexivity.
  - exists [LRound Connected; LReaderStarts; LReaderFails; LWoken false; LRound Connected; LReaderStarts; LWriterStarts 0; LWriterStops 0].
    eexists. split; [vm_compute; reflexivity|]. split_and!; try reflexivity; set_solver.
Qed.
End properties.

(** ** Concrete runs *)

#[local] Existing Instance HubSpec.demo_codec.

Lemma link_run_reachable ch es : forall s s', link_run ch s es = OK s' -> rtc link_sstep s s'.
Proof.
  induction es as [|e es IH]; intros s s'; cbn [link_run]; [by intros [= <-]|].
  destruct (link_step ch s e) as [s1| |] eqn:E; simpl; try done. intros H. eapply rtc_l; [by exists ch e|by apply IH].
Qed.

(** A connection, its loss, a failed dial and a new connection. *)
Definition demo_events : list link_event :=
  [LRound Connected; LReaderStarts; LWriterStarts 0; LReaderFails; LWriterStops 0; LWoken false; LRound NotReady; LSlept false;
   LRound Connected; LReaderStarts; LWriterStarts 0].

Lemma relay_link_kept_up_witness :
  exists s, link_run (demo_choices 0) (initial_link (initial (Some demo_reg) demo_cfg)) demo_events = OK s /\
    conn_of (ln_hub s) = Some 1%nat /\ exists c, ln_reader s = [mkLoop 1 c].
Proof.
  destruct (link_run (demo_choices 0) (initial_link (initial (Some demo_reg) demo_cfg)) demo_events) as [s| |] eqn:E;
    [|by vm_compute in E..].
  exists s. split; [done|].
  assert (Hc : conn_of (ln_hub s) = Some 1%nat) by (vm_compute in E; by injection E as <-).
  split; [exact Hc|]. apply link_run_reachable in E.
  destruct (relay_link_kept_up _ _ _ E) as (_ & _ & _ & Hg & _). exact (proj2 (Hg _ Hc)).
Defined.

Lemma relay_redials_witness :
  exists s, link_run (demo_choices 0) (initial_link (initial None demo_cfg)) (failing (replicate 6 NoConnection)) = OK s /\
    ln_waits s = [30 * second; 30 * second; 16 * second; 8 * second; 4 * second; 2 * second].
Proof.
  destruct (relay_redials (demo_choices 0) None demo_cfg (replicate 6 NoConnection)) as (s & Hr & _ & Hw & _).
  { by apply Forall_replicate. }
  exists s. split; [exact Hr|]. rewrite Hw. reflexivity.
Defined.

Definition demo_worker : WorkerInfo := with_ID "w" zero_WorkerInfo.
Definition demo_request : Message := demo_msg MsgInferenceRequest "call" "p".

(** The queue of frames outlives a connection: the writer of the lost one takes
    a frame of the new one's, fails to write it, and fails every call in flight
    on the new connection, which stays up. *)
Example ex_old_writer_fails_new_calls :
  exists s,
    link_run (demo_choices 0) (initial_link (initial (Some demo_reg) demo_cfg))
      [LRound Connected; LReaderStarts; LWriterStarts 0; LReaderFails; LWoken false; LRound Connected; LReaderStarts; LWriterStarts 1;
       LHub (ORelayStart demo_worker false demo_request); LWriterFrame 0 false] = OK s /\
    conn_of (ln_hub s) = Some 1%nat /\ relaySendCh (h_relay (ln_hub s)) = [] /\
    map (fun pc => (pc_id pc, pc_closed pc, pc_errCh pc)) (map snd (map_to_list (h_calls (ln_hub s)))) =
      [("call", true, [Sentinel errRelayDisconnected])].
Proof. eexists. split; [vm_compute; reflexivity|]. by repeat split. Qed.

(** A write that fails before the reader has started ends in a panic too. *)
Example ex_failed_write_panics :
  link_run (demo_choices 0) (initial_link (initial (Some demo_reg) demo_cfg))
    [LRound Connected; LHub (ORelayStart demo_worker false demo_request); LWriterStarts 0; LWriterFrame 0 false; LReaderStarts; LReaderFails] = Panicked.
Proof. vm_compute. reflexivity. Qed.
