(* ===== verification/DesktopShell.v ===== *)
(** * DesktopShell: how the desktop application starts ([app/])

    The default paths of [config.go], [main_common.go] (the state that both builds
    share), the tray of [main_gui.go] and the port of [main_server.go].  The GUI
    library, the home directory and the path of the executable are arguments. *)

From S2P Require Import Prelude GoFloat GoStrings Numerals Flags WorkerClient WorkerRun DesktopConfig DesktopArgs RouterClient Supervisor Autostart.

#[local] Open Scope Z_scope.
#[local] Open Scope list_scope.

(** ** The settings at their default path ([config.go]) *)

Section settings.
(** [os.UserHomeDir] and [filepath.Join]; YAML. *)
Context (home : string + string) (join : list string -> string).
Context (marshal : Settings -> option string) (unmarshal : string -> option Settings).

Definition settingsPath : string + string :=
  match home with
  | inr err => inr err
  | inl home => inl (join [join [home; ".config"; "infermesh"]; "settings.yml"])
  end.

(** What [os.Stat] says of the directory of a path. *)
Inductive dir_stat := Missing | IsDirectory | NotDirectory | StatFails.

(** [mkdir_fails]: whether [os.MkdirAll] fails; the result tells an error. *)
Definition ensurePathExists (dir : dir_stat) (mkdir_fails : bool) : bool :=
  match dir with
  | Missing => mkdir_fails
  | IsDirectory => false
  | NotDirectory | StatFails => true
  end.

Definition path_error {A} (a : A) : A * option apperr := (a, Some (DesktopConfig.OtherError "settings path")).

Definition Load (io : load_faults) (d : disk) : Settings * option apperr :=
  match settingsPath with
  | inr _ => path_error empty_Settings
  | inl _ => LoadFrom unmarshal io d
  end.

Definition Save (io : save_faults) (s : Settings) (d : disk) : disk * option apperr :=
  match settingsPath with
  | inr _ => path_error d
  | inl _ => SaveTo marshal io s d
  end.

Definition startupSettings (io : load_faults) (d : disk) : Settings * option apperr :=
  match settingsPath with
  | inr _ => path_error empty_Settings
  | inl _ =>
      match LoadFrom unmarshal io d with
      | (_, Some err) => (empty_Settings, Some err)
      | (s, None) => (mergeDefaults s, None)
      end
  end.

(** ** The common state ([main_common.go]) *)

Section app.
Context {K : Type} `{Keyring K} {T : Type} {W : Type}.

(** A supervisor over the assets of a machine, before any child. *)
Definition NewSupervisorService (a : assets K) : @supervisor K T := mkSupervisor [] None None false None None a None.

Definition SetRouterClient (rc : RouterClient T) (s : @supervisor K T) : @supervisor K T := with_client (Some rc) s.

(** [""] where the code passes it for the directory of the application. *)
Definition base_dir (binaryDir : string) : string := if String.eqb binaryDir "" then "." else binaryDir.

Record app_state := mkApp {
  app_settings : Settings;
  app_settingsPath : string;
  app_supervisor : @supervisor K T;
  app_client : RouterClient T;
  app_autostart : AutoStartService W;
  app_binaryDir : string;
  app_exePath : string;
}.

(** The process ends, or the state is made. *)
Inductive started := Fatal | App (a : app_state).

(** [dir] and [abs] are [filepath.Dir] and [filepath.Abs]; [backend] is
    [newPlatformAutostart] of the path of the executable. *)
Definition binary_dir (dir : string -> string) (abs : string -> option string) (exePath : string) : string :=
  if String.eqb exePath "" then ""
  else
    let up n := abs (join (dir exePath :: repeat ".." n)) in
    match up 5%nat with
    | Some root => root
    | None => match up 4%nat with
              | Some root => root
              | None => default "" (up 3%nat)
              end
    end.

Definition initApp (io : load_faults) (d : disk) (executable : option string) (dir : string -> string) (abs : string -> option string)
    (hostname : option string) (a : assets K) (backend : string -> autostarter W) : started :=
  match startupSettings io d with
  | (_, Some _) => Fatal
  | (settings, None) =>
      match settingsPath with
      | inr _ => Fatal
      | inl settingsPath =>
          let exePath := default "" executable in
          let rc := NewRouterClient hostname (st_RouterAddr settings) in
          App (mkApp settings settingsPath (SetRouterClient rc (NewSupervisorService a)) rc (Some (backend exePath))
                 (binary_dir dir abs exePath) exePath)
      end
  end.
End app.
End settings.
Arguments app_state : clear implicits.
Arguments started : clear implicits.

Definition summarizePoolStatus (st : SupervisorStatus) : string :=
  let up (p : ProcessStatus) := match ps_State p with StateRunning => true | _ => false end in
  if up (ss_Router st) && up (ss_Worker st) then "Router + worker running"
  else if up (ss_Router st) then "Router running"
  else if up (ss_Worker st) then "Worker running"
  else "Stopped".

(** ** The tray and the window ([main_gui.go]) *)

Record tray := { tr_label : string; tr_tooltip : string }.

Definition first_tray : tray := {| tr_label := "Status: Stopped"; tr_tooltip := "InferMesh — Stopped" |}.

(** One tick, with what [Status] returned. *)
Definition tray_tick (st : SupervisorStatus + apperr) : tray :=
  let summary := match st with inl st => summarizePoolStatus st | inr _ => "Stopped" end in
  {| tr_label := "Status: " +:+ summary; tr_tooltip := "InferMesh — " +:+ summary |}.

(** The hook of [registerCloseToTray] runs before the listeners of the library,
    which its second component keeps from running. *)
Record window := { wn_hidden : bool; wn_destroyed : bool }.

Definition registerCloseToTray (w : window) : window * bool := ({| wn_hidden := true; wn_destroyed := wn_destroyed w |}, true).

Definition closing (listeners : window -> window) (w : window) : window :=
  let '(w, cancelled) := registerCloseToTray w in if cancelled then w else listeners w.

(** ** The server build ([main_server.go]) *)

Definition server_port (env : string -> string) : Z :=
  if negb (String.eqb (env "WAILS_SERVER_PORT") "") then default 8080 (Atoi (env "WAILS_SERVER_PORT")) else 8080.

(** ** Lemmas *)

Lemma running_shown info err healthy registered :
  (match ps_State (buildProcessStatus info err healthy registered) with StateRunning => true | _ => false end) = pi_Running info.
Proof. unfold buildProcessStatus. destruct (pi_Running info); [done|]. by repeat case_match. Qed.

(** Without a path [Enable] fails on every platform and runs nothing. *)
Lemma no_path_Enable {H} (Run : cmdRunner H) lower ft join env home goos w :
  exists why, Enable (newPlatformAutostart Run lower ft join env home goos "") w = (w, Some ("autostart enable: " +:+ why)).
Proof.
  unfold newPlatformAutostart, on_commands, on_files, on_part. destruct w as [h f].
  destruct (String.eqb goos "darwin"); [by eexists|]. destruct (String.eqb goos "windows"); [by eexists|].
  destruct (defaultLinuxConfigDir join env home) as [dir [err|]]; by eexists.
Qed.

(** The load of a missing file cannot fail. *)
Lemma startup_missing join home unmarshal io d p :
  settingsPath home join = inl p -> dk_file d = None -> startupSettings home join unmarshal io d = (mergeDefaults zeroSettings, None).
Proof. intros Hp Hd. unfold startupSettings, LoadFrom. by rewrite Hp, Hd. Qed.

(** ** Properties *)

Section startup.
Context {K : Type} `{Keyring K} {T X : Type}.
Context (home : string + string) (join : list string -> string) (unmarshal : string -> option Settings).
Context (Run : cmdRunner X) (lower : string -> string) (ft : linux_faults) (env : string -> string) (goos : string).

(** How the application starts.  It ends at once exactly when the home
    directory is unknown or the settings file is there and cannot be loaded.
    Otherwise it has the settings completed with the defaults, a supervisor
    without children, and one client, shared with it, at the router of the
    settings.  When the path of the executable is unknown every request to start
    at login comes back with a warning and changes nothing on the host. *)
Theorem application_starts io d executable dir abs hostname (a : assets K) w :
  let backend := newPlatformAutostart Run lower ft join env home goos in
  let outcome := initApp (T := T) home join unmarshal io d executable dir abs hostname a backend in
  (outcome = Fatal <-> (exists e, home = inr e) \/ (LoadFrom unmarshal io d).2 <> None) /\
  forall app, outcome = App app ->
    app_settings app = mergeDefaults (LoadFrom unmarshal io d).1 /\
    sv_procs (app_supervisor app) = [] /\ sv_client (app_supervisor app) = Some (app_client app) /\
    cl_baseURL (app_client app) = Normalize (st_RouterAddr (app_settings app)) /\
    (executable = None -> exists why,
       SetAutoStart (app_autostart app) true w = (w, ("Auto-start could not be enabled: autostart enable: " +:+ why, None))).
Proof.
  intros backend outcome. unfold outcome, initApp, startupSettings, settingsPath.
  destruct home as [h|e] eqn:Eh.
  - destruct (LoadFrom unmarshal io d) as [s [err|]] eqn:El; simpl.
    + split; [split; [by right|done]|done].
    + split; [split; [done|intros [[e ?]|?]; done]|]. intros app [= <-]. simpl. split_and!; try done.
      intros ->. unfold backend. destruct (no_path_Enable Run lower ft join env (inl h) goos w) as [why Hwhy].
      exists why. unfold SetAutoStart. cbn [default]. rewrite Hwhy. by rewrite <-append_assoc.
  - simpl. split; [split; [left; by exists e|done]|done].
Qed.
End startup.

Section tray.
Context {K : Type} `{Keyring K} {T : Type} {J : DesktopJSON}.

(** The tray tells what runs: with settings that load, a tick names the router
    exactly when its child runs and the worker exactly when its child runs, in the
    label and in the tooltip alike; without, it says that nothing runs. *)
Theorem tray_tells join load_pair ca_ok (tls : string -> string -> string -> T) new_request Do settings missing hostname worker_up (s : @supervisor K T) :
  let st := (Status join load_pair ca_ok tls new_request Do settings missing hostname worker_up s).2 in
  let up r := match settings with inl _ => pi_Running (child_info s r).1 | inr _ => false end in
  let summary := match up roleRouter, up roleWorker with
                 | true, true => "Router + worker running"
                 | true, false => "Router running"
                 | false, true => "Worker running"
                 | false, false => "Stopped"
                 end in
  tr_label (tray_tick st) = "Status: " +:+ summary /\ tr_tooltip (tray_tick st) = "InferMesh — " +:+ summary.
Proof.
  intros st up summary. subst st summary up. unfold Status. destruct settings as [settings|e]; [|by destruct missing].
  destruct (child_info s roleRouter) as [ri re], (child_info s roleWorker) as [wi we].
  destruct (defaultRouterProbe join load_pair ca_ok tls new_request Do hostname settings s) as [s' pool].
  unfold tray_tick, summarizePoolStatus. cbn [fst snd ss_Router ss_Worker]. rewrite !running_shown.
  by destruct (pi_Running ri), (pi_Running wi).
Qed.
End tray.

(** Closing the window hides it, whatever the library would do. *)
Lemma closing_hides listeners w : wn_destroyed w = false -> closing listeners w = {| wn_hidden := true; wn_destroyed := false |}.
Proof. intros Hd. unfold closing, registerCloseToTray. by rewrite Hd. Qed.

(** [filepath.Abs] of an absolute path succeeds, so the directories nearer to the
    executable are never taken. *)
Lemma binary_dir_first join dir abs exePath root :
  exePath <> "" -> abs (join (dir exePath :: repeat ".." 5)) = Some root -> binary_dir join dir abs exePath = root.
Proof. intros Hp%String.eqb_neq Ha. unfold binary_dir. by rewrite Hp, Ha. Qed.

(** A first start: no settings file, and no path of the executable. *)
Lemma application_starts_witness :
  let backend := newPlatformAutostart host_Run id no_faults join_slash (fun _ => "") (inl "/root") "linux" in
  exists app : app_state memKeyring string (host * linux_fs), initApp (T := string) (inl "/root") join_slash (fun _ => None) no_load_faults {| dk_file := None; dk_temps := [] |} None (fun _ => "") (fun _ => None)
      (Some "desk") no_keys backend = App app /\
    cl_baseURL (app_client app) = "http://127.0.0.1:8080" /\
    (SetAutoStart (app_autostart app) true (([], None), {| fs_entry := None; fs_temps := 0 |})).2.1 <> "".
Proof.
  intros backend. eexists. split; [reflexivity|]. split; [vm_compute; reflexivity|].
  edestruct (application_starts (K := memKeyring) (T := string) (inl "/root") join_slash (fun _ => None) host_Run id no_faults (fun _ => "") "linux"
    no_load_faults {| dk_file := None; dk_temps := [] |} None (fun _ => "") (fun _ => None) (Some "desk") no_keys
    (([], None), {| fs_entry := None; fs_temps := 0 |})) as [_ Happ].
  destruct (Happ _ eq_refl) as (_ & _ & _ & _ & Hw). destruct (Hw eq_refl) as [why Hwhy].
  match goal with |- (?x).2.1 <> "" => replace x with
    ((([], None) : host, {| fs_entry := None; fs_temps := 0 |}), ("Auto-start could not be enabled: autostart enable: " +:+ why, @None string)) by (symmetry; exact Hwhy) end.
  discriminate.
Defined.
