(* ===== verification/Report.v ===== *)
(** * Report: the worker's [--capabilities] report ([pkg/worker/capabilities_display.go])

    The sections are written piece by piece to a writer that may fail at any
    write; the reference is the list of the pieces. *)

From S2P Require Import Prelude GoStrings Protocol Capabilities.
From stdpp Require Import pretty.
From Stdlib Require Import Ascii.

#[local] Open Scope Z_scope.
#[local] Open Scope list_scope.

(** A writer: how many more writes succeed, [None] for all, and what was
    written.  [false] is an error; a failed write is taken to write nothing. *)
Record sink := mkSink { sk_left : option nat; sk_out : string }.

Definition writer : Type := sink -> sink * bool.

Definition fprint (text : string) : writer := fun w =>
  match sk_left w with
  | None => (mkSink None (sk_out w +:+ text), true)
  | Some (S n) => (mkSink (Some n) (sk_out w +:+ text), true)
  | Some O => (w, false)
  end.

Definition done : writer := fun w => (w, true).

(** [if err := a; err != nil { return err }; b]. *)
Definition andThen (a b : writer) : writer := fun w => let '(w, ok) := a w in if ok then b w else (w, false).
#[local] Notation "a >>> b" := (andThen a b) (at level 66, right associativity).

Definition line (text : string) : string := text +:+ String newline "".
Definition bool_text (b : bool) : string := if b then "true" else "false".

(** ** The sections *)

Definition writeGPUDetails (gpu : GPUInfo) : writer :=
  fprint (line ("  Vendor:     " +:+ gpu_Vendor gpu)) >>>
  fprint (line ("  Model:      " +:+ gpu_Model gpu)) >>>
  fprint (line ("  Compute Cores: " +:+ pretty (gpu_ComputeCore gpu))) >>>
  fprint (line ("  Total VRAM: " +:+ pretty (gpu_TotalVRAM gpu) +:+ " MB")) >>>
  fprint (line ("  Free VRAM:  " +:+ pretty (gpu_FreeVRAM gpu) +:+ " MB")) >>>
  done.

Definition writeGPU (caps : Protocol.Capabilities) : writer :=
  fprint (line "GPU:") >>>
  (let hasGPU := negb (String.eqb (gpu_Vendor (cap_GPU caps)) "") && negb (String.eqb (gpu_Model (cap_GPU caps)) "no GPU detected") in
   if negb hasGPU then fprint (line "  No GPU detected") >>> fprint (line "")
   else writeGPUDetails (cap_GPU caps) >>> fprint (line "")).

Definition writeVRAM (caps : Protocol.Capabilities) : writer :=
  fprint (line "VRAM:") >>>
  fprint (line ("  Total: " +:+ pretty (mem_TotalMB (cap_VRAM caps)) +:+ " MB")) >>>
  fprint (line ("  Free: " +:+ pretty (mem_FreeMB (cap_VRAM caps)) +:+ " MB")) >>>
  fprint (line "").

Definition writeSystem (caps : Protocol.Capabilities) : writer :=
  fprint (line "System:") >>>
  fprint (line ("  Total Memory: " +:+ pretty (mem_TotalMB (cap_System caps)) +:+ " MB")) >>>
  fprint (line ("  Free Memory: " +:+ pretty (mem_FreeMB (cap_System caps)) +:+ " MB")) >>>
  fprint (line "").

(** The body of a loop that returns at the first error. *)
Fixpoint each {A} (f : A -> writer) (l : list A) : writer :=
  match l with
  | [] => done
  | x :: l => f x >>> each f l
  end.

Definition model_line (m : ModelInfo) : string :=
  "  " +:+ mi_Name m +:+ " (" +:+ pretty (mi_Size m) +:+ " bytes, " +:+ mi_Quantization m +:+ ", backend: " +:+ mi_Backend m +:+
  ", loaded: " +:+ bool_text (mi_Loaded m) +:+ ")".

Definition writeModels (caps : Protocol.Capabilities) : writer :=
  fprint (line "Models:") >>>
  match cap_Models caps with
  | [] => fprint (line "  No models declared")
  | models => each (fun m => fprint (line (model_line m))) models
  end >>>
  fprint (line "").

Definition writeEngines (caps : Protocol.Capabilities) : writer :=
  fprint (line "Engines:") >>>
  match cap_Engines caps with
  | [] => fprint (line "  No engines detected")
  | engines => each (fun e => fprint (line ("  " +:+ e))) engines
  end >>>
  fprint (line "").

(** [ok] is true of an error, and then [nil] is returned. *)
Definition orNil (a b : writer) : writer := fun w => let '(w, ok) := a w in if ok then b w else (w, true).

Definition writeCapabilities (caps : Protocol.Capabilities) : writer :=
  orNil (fprint (line "=== InferMesh Worker Capabilities ==="))
    (orNil (fprint (line ""))
      (writeGPU caps >>> writeVRAM caps >>> writeSystem caps >>> writeModels caps >>> writeEngines caps >>> done)).

(** [caps] is what the aggregator detected, [None] for an error; the exit code. *)
Definition PrintCapabilities (caps : option Protocol.Capabilities) (w : sink) : sink * Z :=
  match caps with
  | None => (w, 1)
  | Some caps => let '(w, ok) := writeCapabilities caps w in (w, if ok then 0 else 1)
  end.

(** ** The reference: the lines of the report *)

Definition gpu_lines (caps : Protocol.Capabilities) : list string :=
  let gpu := cap_GPU caps in
  "GPU:" ::
  (if String.eqb (gpu_Vendor gpu) "" || String.eqb (gpu_Model gpu) "no GPU detected" then ["  No GPU detected"]
   else ["  Vendor:     " +:+ gpu_Vendor gpu; "  Model:      " +:+ gpu_Model gpu; "  Compute Cores: " +:+ pretty (gpu_ComputeCore gpu);
         "  Total VRAM: " +:+ pretty (gpu_TotalVRAM gpu) +:+ " MB"; "  Free VRAM:  " +:+ pretty (gpu_FreeVRAM gpu) +:+ " MB"]) ++ [""].

Definition memory_lines (title total free : string) (m : MemoryInfo) : list string :=
  [title; "  " +:+ total +:+ ": " +:+ pretty (mem_TotalMB m) +:+ " MB"; "  " +:+ free +:+ ": " +:+ pretty (mem_FreeMB m) +:+ " MB"; ""].

Definition listed (title none : string) (l : list string) : list string := title :: match l with [] => [none] | _ => l end ++ [""].

Definition report_lines (caps : Protocol.Capabilities) : list string :=
  ["=== InferMesh Worker Capabilities ==="; ""] ++ gpu_lines caps ++
  memory_lines "VRAM:" "Total" "Free" (cap_VRAM caps) ++ memory_lines "System:" "Total Memory" "Free Memory" (cap_System caps) ++
  listed "Models:" "  No models declared" (map model_line (cap_Models caps)) ++
  listed "Engines:" "  No engines detected" (map (fun e => "  " +:+ e) (cap_Engines caps)).

Definition text_of (l : list string) : string := foldr (fun x t => line x +:+ t) "" l.

(** ** Lemmas *)

Definition writes (l : list string) : writer := each (fun x => fprint (line x)) l.

Lemma andThen_done a w : (a >>> done) w = a w.
Proof. unfold andThen, done. by destruct (a w) as [w' []]. Qed.

Lemma andThen_assoc a b c w : ((a >>> b) >>> c) w = (a >>> (b >>> c)) w.
Proof. unfold andThen. destruct (a w) as [w' []]; [|done]. by destruct (b w') as [w'' []]. Qed.

Lemma writes_app l l' w : writes (l ++ l') w = (writes l >>> writes l') w.
Proof.
  revert w. induction l as [|x l IH]; intros w; [done|]. unfold writes in *. cbn [app each].
  rewrite andThen_assoc. unfold andThen at 1. destruct (fprint (line x) w) as [w' []] eqn:E; [rewrite IH|]; unfold andThen; by rewrite E.
Qed.

Lemma andThen_ext a a' b b' w : (forall w, a w = a' w) -> (forall w, b w = b' w) -> (a >>> b) w = (a' >>> b') w.
Proof. intros Ha Hb. unfold andThen. rewrite Ha. destruct (a' w) as [w' []]; [apply Hb|done]. Qed.

Lemma each_map {A} (f : A -> string) l w : each (fun x => fprint (line (f x))) l w = writes (map f l) w.
Proof. revert w. induction l as [|x l IH]; intros w; [done|]. by apply andThen_ext. Qed.

Lemma writes_one x w : writes [x] w = fprint (line x) w.
Proof. apply andThen_done. Qed.

Lemma writes_snoc l x w : (writes l >>> fprint (line x)) w = writes (l ++ [x]) w.
Proof. rewrite writes_app. apply andThen_ext; [done|]. intros w'. by rewrite writes_one. Qed.

Lemma writes_cons x l w : (fprint (line x) >>> writes l) w = writes (x :: l) w.
Proof. done. Qed.

Lemma writeGPU_lines caps w : writeGPU caps w = writes (gpu_lines caps) w.
Proof.
  unfold writeGPU, gpu_lines, writeGPUDetails. rewrite <-writes_cons. apply andThen_ext; [done|]. clear w. intros w.
  destruct (String.eqb (gpu_Vendor (cap_GPU caps)) ""), (String.eqb (gpu_Model (cap_GPU caps)) "no GPU detected"); cbn [negb andb orb];
    rewrite <-writes_snoc; apply andThen_ext; try done; intros w'; first [by rewrite writes_one | reflexivity].
Qed.

Lemma memory_section title total free m w :
  (fprint (line title) >>> fprint (line ("  " +:+ total +:+ ": " +:+ pretty (mem_TotalMB m) +:+ " MB")) >>>
   fprint (line ("  " +:+ free +:+ ": " +:+ pretty (mem_FreeMB m) +:+ " MB")) >>> fprint (line "")) w =
  writes (memory_lines title total free m) w.
Proof. unfold memory_lines. repeat (rewrite <-writes_cons; apply andThen_ext; [done|]; intros ?). by rewrite writes_one. Qed.

Lemma listed_section {A} (f : A -> string) title none l w :
  (fprint (line title) >>> match l with [] => fprint (line none) | x :: l' => each (fun x => fprint (line (f x))) (x :: l') end >>> fprint (line "")) w =
  writes (listed title none (map f l)) w.
Proof.
  unfold listed. rewrite <-writes_cons. apply andThen_ext; [done|]. clear w. intros w. rewrite <-writes_snoc. apply andThen_ext; [|done].
  clear w. intros w. destruct l as [|x l]; cbn [map]; [by rewrite writes_one|]. apply (each_map f (x :: l)).
Qed.

(** How a list of lines is written: the first ones, as many as can be. *)
Lemma writes_spec l : forall w,
  writes l w =
    match sk_left w with
    | None => (mkSink None (sk_out w +:+ text_of l), true)
    | Some n => (mkSink (Some (n - length l)%nat) (sk_out w +:+ text_of (take n l)), bool_decide (length l <= n)%nat)
    end.
Proof.
  assert (Hnil : forall s : string, s +:+ "" = s) by (intros s; induction s as [|c s IH]; [reflexivity|by rewrite <-IH at 2]).
  induction l as [|x l IH]; intros [left out].
  - unfold writes, done. cbn [each sk_left sk_out length]. destruct left as [n|]; rewrite ?take_nil, ?Nat.sub_0_r; cbn [text_of foldr]; rewrite Hnil; [|done].
    by rewrite bool_decide_true by lia.
  - unfold writes in *. cbn [each]. unfold andThen, fprint at 1. cbn [sk_left sk_out]. destruct left as [[|n]|].
    + cbn. by rewrite Hnil.
    + rewrite IH. cbn [sk_left sk_out length take text_of foldr Nat.sub]. rewrite append_assoc. f_equal. apply bool_decide_ext. lia.
    + rewrite IH. cbn [sk_left sk_out text_of foldr]. by rewrite append_assoc.
Qed.

Lemma body_lines caps w :
  (writeGPU caps >>> writeVRAM caps >>> writeSystem caps >>> writeModels caps >>> writeEngines caps >>> done) w =
  writes (drop 2 (report_lines caps)) w.
Proof.
  unfold report_lines. cbn [app drop]. rewrite drop_0.
  repeat (rewrite writes_app; apply andThen_ext; [clear w; intros w|clear w; intros w]);
    rewrite ?andThen_done.
  - apply writeGPU_lines.
  - exact (memory_section "VRAM:" "Total" "Free" _ w).
  - exact (memory_section "System:" "Total Memory" "Free Memory" _ w).
  - exact (listed_section model_line "Models:" "  No models declared" (cap_Models caps) w).
  - exact (listed_section (fun e => "  " +:+ e) "Engines:" "  No engines detected" (cap_Engines caps) w).
Qed.

Lemma writeCapabilities_lines caps w :
  writeCapabilities caps w =
    let '(w', ok) := writes (report_lines caps) w in
    (w', ok || match sk_left w with Some n => bool_decide (n < 2)%nat | None => false end).
Proof.
  assert (E : forall w, writes (report_lines caps) w =
    (fprint (line "=== InferMesh Worker Capabilities ===") >>> fprint (line "") >>>
     (writeGPU caps >>> writeVRAM caps >>> writeSystem caps >>> writeModels caps >>> writeEngines caps >>> done)) w).
  { intros w'. symmetry. apply andThen_ext; [done|]. intros w2. apply andThen_ext; [done|]. intros w3. apply body_lines. }
  rewrite E. unfold writeCapabilities. generalize (writeGPU caps >>> writeVRAM caps >>> writeSystem caps >>> writeModels caps >>> writeEngines caps >>> done).
  intros body. unfold orNil, andThen, fprint. destruct w as [[[|[|n]]|] out]; cbn [sk_left sk_out]; [done..| |].
  - destruct (body _) as [w' ok]. by rewrite bool_decide_false, orb_false_r by lia.
  - destruct (body _) as [w' ok]. by rewrite orb_false_r.
Qed.

(** ** Properties *)

(** The report.  A writer that takes everything gets the lines of the report,
    and the exit code is 0; one that fails after some of them has got those, and
    the exit code is 1.  Fault: when one of the first two writes fails the code
    is 0. *)
Theorem report_written caps left :
  let w := mkSink left "" in
  let lines := report_lines caps in
  let '(w', code) := PrintCapabilities (Some caps) w in
  match left with
  | None => sk_out w' = text_of lines /\ code = 0
  | Some n => sk_out w' = text_of (take n lines) /\ (code = 0 <-> (length lines <= n \/ n < 2)%nat) /\ (code = 0 \/ code = 1)
  end.
Proof.
  intros w lines. unfold PrintCapabilities. rewrite writeCapabilities_lines, writes_spec. subst w lines. cbn [sk_left sk_out].
  destruct left as [n|]; cbn [sk_out]; [|done].
  change ("" +:+ ?s) with s. split; [done|].
  destruct (decide (length (report_lines caps) <= n)%nat), (decide (n < 2)%nat);
    rewrite ?bool_decide_false by done; rewrite ?bool_decide_true by done; cbn [orb]; (split; [split; intros; lia|lia]).
Qed.

Example ex_header_fails : PrintCapabilities (Some zero_Capabilities) (mkSink (Some 1%nat) "") = (mkSink (Some 0%nat) (line "=== InferMesh Worker Capabilities ==="), 0).
Proof. reflexivity. Qed.
