(* ===== verification/Regex.v ===== *)
(** * Regex: regular expressions over bytes

    What the code uses of Go's [regexp]: whether an expression matches somewhere,
    at the beginning of the text, or at the beginning of a line.  The language of
    an expression is an inductive relation; the decision by derivatives is proved
    to agree with it.  Every expression here begins and ends its matches at rune
    boundaries of any text, so that its runes may be read as their encodings. *)

From S2P Require Import Prelude GoStrings.
From Stdlib Require Import Ascii.

#[local] Open Scope list_scope.

Inductive re :=
| Void
| Eps
| Byte (p : ascii -> bool)
| Seq (r s : re)
| Alt (r s : re)
| Star (r : re).

Inductive matches : re -> bytes -> Prop :=
| m_eps : matches Eps []
| m_byte p c : p c = true -> matches (Byte p) [c]
| m_seq r s l l' : matches r l -> matches s l' -> matches (Seq r s) (l ++ l')
| m_alt_l r s l : matches r l -> matches (Alt r s) l
| m_alt_r r s l : matches s l -> matches (Alt r s) l
| m_star_nil r : matches (Star r) []
| m_star r l l' : matches r l -> matches (Star r) l' -> matches (Star r) (l ++ l').

(** ** The decision *)

Fixpoint nullable (r : re) : bool :=
  match r with
  | Void | Byte _ => false
  | Eps | Star _ => true
  | Seq r s => nullable r && nullable s
  | Alt r s => nullable r || nullable s
  end.

(** Constructors that drop what cannot match. *)
Definition seq_re (r s : re) : re :=
  match r, s with
  | Void, _ | _, Void => Void
  | Eps, s => s
  | r, s => Seq r s
  end.
Definition alt_re (r s : re) : re :=
  match r, s with
  | Void, s => s
  | r, Void => r
  | r, s => Alt r s
  end.

Fixpoint deriv (c : ascii) (r : re) : re :=
  match r with
  | Void | Eps => Void
  | Byte p => if p c then Eps else Void
  | Seq r s => if nullable r then alt_re (seq_re (deriv c r) s) (deriv c s) else seq_re (deriv c r) s
  | Alt r s => alt_re (deriv c r) (deriv c s)
  | Star r => seq_re (deriv c r) (Star r)
  end.

Definition accepts (r : re) (l : bytes) : bool := nullable (foldl (fun r c => deriv c r) r l).

Lemma seq_inv r s l : matches (Seq r s) l <-> exists a b, l = a ++ b /\ matches r a /\ matches s b.
Proof.
  split; [intros H; inversion H; subst; eauto|]. intros (a & b & -> & ? & ?). by constructor.
Qed.
Lemma alt_inv r s l : matches (Alt r s) l <-> matches r l \/ matches s l.
Proof. split; [intros H; inversion H; subst; auto|]. intros [?|?]; [by apply m_alt_l|by apply m_alt_r]. Qed.
Lemma eps_inv l : matches Eps l <-> l = [].
Proof. split; [by inversion 1|]. intros ->. constructor. Qed.
Lemma byte_inv p l : matches (Byte p) l <-> exists c, l = [c] /\ p c = true.
Proof. split; [inversion 1; eauto|]. intros (c & -> & ?). by constructor. Qed.
Lemma void_inv l : matches Void l <-> False.
Proof. split; [inversion 1|done]. Qed.

Lemma seq_re_spec r s l : matches (seq_re r s) l <-> matches (Seq r s) l.
Proof.
  assert (HE : forall s l, matches (Seq Eps s) l <-> matches s l).
  { intros s' l'. rewrite seq_inv. split; [intros (a & b & -> & Ha & Hb); apply eps_inv in Ha; by subst|].
    intros H. exists [], l'. split_and!; [done|constructor|done]. }
  assert (HV : forall r l, matches (Seq r Void) l <-> False).
  { intros r' l'. rewrite seq_inv. split; [intros (a & b & _ & _ & Hb); by apply void_inv in Hb|done]. }
  assert (HV' : forall s l, matches (Seq Void s) l <-> False).
  { intros s' l'. rewrite seq_inv. split; [intros (a & b & _ & Ha & _); by apply void_inv in Ha|done]. }
  destruct r, s; simpl; rewrite ?HE, ?HV, ?HV', ?void_inv; try done; by rewrite HE.
Qed.

Lemma alt_re_spec r s l : matches (alt_re r s) l <-> matches (Alt r s) l.
Proof.
  assert (H1 : forall s l, matches (Alt Void s) l <-> matches s l) by (intros s' l'; rewrite alt_inv, void_inv; tauto).
  assert (H2 : forall s l, matches (Alt s Void) l <-> matches s l) by (intros s' l'; rewrite alt_inv, void_inv; tauto).
  destruct r, s; simpl; by rewrite ?H1, ?H2.
Qed.

Lemma nullable_spec r : nullable r = true <-> matches r [].
Proof.
  induction r as [| |p|r IHr s IHs|r IHr s IHs|r _]; simpl.
  - by rewrite void_inv.
  - rewrite eps_inv. done.
  - rewrite byte_inv. split; [done|]. by intros (c & ? & _).
  - rewrite andb_true_iff, IHr, IHs, seq_inv. split; [intros []; by exists [], []|].
    intros (a & b & E & Ha & Hb). symmetry in E. apply app_eq_nil in E as [-> ->]. done.
  - by rewrite orb_true_iff, IHr, IHs, alt_inv.
  - split; [intros; constructor|done].
Qed.

(** A match of a star that is not empty begins with one of its body that is not. *)
Lemma star_cons r c l : matches (Star r) (c :: l) <-> exists a b, l = a ++ b /\ matches r (c :: a) /\ matches (Star r) b.
Proof.
  split.
  - intros H. remember (Star r) as s eqn:Es. remember (c :: l) as t eqn:Et. revert l Et.
    induction H as [| | | | |?|r' l1 l2 H1 _ H2 IH]; try done; intros l Et. injection Es as ->.
    destruct l1 as [|c1 l1]; simpl in Et; [by apply IH|]. injection Et as <- <-. by exists l1, l2.
  - intros (a & b & -> & Ha & Hb). change (c :: a ++ b) with ((c :: a) ++ b). by constructor.
Qed.

Lemma deriv_spec c r l : matches (deriv c r) l <-> matches r (c :: l).
Proof.
  revert l. induction r as [| |p|r IHr s IHs|r IHr s IHs|r IHr]; intros l; simpl.
  - by rewrite !void_inv.
  - rewrite void_inv, eps_inv. done.
  - rewrite byte_inv. destruct (p c) eqn:E.
    + rewrite eps_inv. split; [intros ->; by exists c|]. by intros (d & [= _ ->] & _).
    + rewrite void_inv. split; [done|]. intros (d & [= <- _] & ?). congruence.
  - assert (Hs : matches (Seq r s) (c :: l) <->
      (exists a b, l = a ++ b /\ matches r (c :: a) /\ matches s b) \/ (nullable r = true /\ matches s (c :: l))).
    { rewrite seq_inv, nullable_spec. split.
      - intros ([|d a] & b & E & Ha & Hb); simpl in E; [right; by subst|]. injection E as -> ->. left. eauto.
      - intros [(a & b & -> & Ha & Hb)|[Ha Hb]]; [by exists (c :: a), b|by exists [], (c :: l)]. }
    assert (Hd : forall l, matches (Seq (deriv c r) s) l <-> exists a b, l = a ++ b /\ matches r (c :: a) /\ matches s b).
    { intros l'. rewrite seq_inv. by setoid_rewrite IHr. }
    rewrite Hs. destruct (nullable r); rewrite ?alt_re_spec, ?alt_inv, !seq_re_spec, Hd, ?IHs; naive_solver.
  - by rewrite alt_re_spec, !alt_inv, IHr, IHs.
  - rewrite seq_re_spec, seq_inv, star_cons. by setoid_rewrite IHr.
Qed.

Lemma accepts_spec r l : accepts r l = true <-> matches r l.
Proof.
  unfold accepts. revert r. induction l as [|c l IH]; intros r; simpl; [apply nullable_spec|]. by rewrite IH, deriv_spec.
Qed.

(** ** Searching *)

Definition any : re := Star (Byte (fun _ => true)).

Lemma any_matches l : matches any l.
Proof. induction l as [|c l IH]; [constructor|]. change (c :: l) with ([c] ++ l). by constructor; [constructor|]. Qed.

(** [MatchString]; an expression that begins with [^], and with [(?m)^]. *)
Definition somewhere (r : re) (s : string) : bool := accepts (Seq any (Seq r any)) (to_bytes s).
Definition at_start (r : re) (s : string) : bool := accepts (Seq r any) (to_bytes s).
Definition newline : ascii := ascii_of_nat 10.
Definition at_line (r : re) (s : string) : bool :=
  at_start r s || somewhere (Seq (Byte (Ascii.eqb newline)) r) s.

Lemma somewhere_spec r s : somewhere r s = true <-> exists a b c, to_bytes s = a ++ b ++ c /\ matches r b.
Proof.
  unfold somewhere. rewrite accepts_spec, seq_inv. setoid_rewrite seq_inv. split.
  - intros (a & b & E & _ & b' & c & -> & Hb & _). eauto.
  - intros (a & b & c & E & Hb). exists a, (b ++ c). split_and!; [done|apply any_matches|]. exists b, c. split_and!; [done..|apply any_matches].
Qed.

Lemma at_start_spec r s : at_start r s = true <-> exists b c, to_bytes s = b ++ c /\ matches r b.
Proof.
  unfold at_start. rewrite accepts_spec, seq_inv. split; [intros (b & c & E & Hb & _); eauto|].
  intros (b & c & E & Hb). exists b, c. split_and!; [done..|apply any_matches].
Qed.

Lemma at_line_spec r s :
  at_line r s = true <-> exists a b c, to_bytes s = a ++ b ++ c /\ matches r b /\ (a = [] \/ exists a', a = a' ++ [newline]).
Proof.
  unfold at_line. rewrite orb_true_iff, at_start_spec, somewhere_spec. split.
  - intros [(b & c & E & Hb)|(a & b & c & E & Hb)]; [exists [], b, c; auto|].
    apply seq_inv in Hb as (n & b' & -> & Hn & Hb). apply byte_inv in Hn as (d & -> & Hd%Ascii.eqb_eq). subst d.
    exists (a ++ [newline]), b', c. split_and!; [by rewrite E, <-!(assoc_L (++))|done|right; eauto].
  - intros (a & b & c & E & Hb & [->|[a' ->]]); [left; by exists b, c|right]. exists a', (newline :: b), c.
    split; [by rewrite E, <-!(assoc_L (++))|]. change (newline :: b) with ([newline] ++ b). constructor; [|done]. by constructor.
Qed.

(** ** Building blocks *)

Definition byte (c : ascii) : re := Byte (Ascii.eqb c).
Definition word_re (l : bytes) : re := foldr (fun c r => Seq (byte c) r) Eps l.
Definition lit (s : string) : re := word_re (to_bytes s).
Definition opt (r : re) : re := Alt r Eps.
Definition plus (r : re) : re := Seq r (Star r).
Definition in_class (s : string) (c : ascii) : bool := existsb (Ascii.eqb c) (to_bytes s).
Definition between (lo hi : nat) (c : ascii) : bool := Nat.leb lo (nat_of_ascii c) && Nat.leb (nat_of_ascii c) hi.

Fixpoint seqs (l : list re) : re := match l with [] => Eps | [r] => r | r :: l => Seq r (seqs l) end.
Fixpoint alts (l : list re) : re := match l with [] => Void | [r] => r | r :: l => Alt r (alts l) end.

(** [\d] and [\s]. *)
Definition digit : re := Byte (between 48 57).
Definition blank : re := Byte (fun c => between 9 10 c || between 12 13 c || between 32 32 c).

Definition lower_byte (c : ascii) : ascii := if between 65 90 c then ascii_of_nat (nat_of_ascii c + 32) else c.

(** A letter under [(?i)]: Go's folding adds U+017F to [s] and U+212A to [k]. *)
Definition fold_byte (c : ascii) : re :=
  let here := Byte (fun d => Ascii.eqb (lower_byte d) c) in
  if Ascii.eqb c "s"%char then Alt here (word_re (encoding [197; 191]%nat))
  else if Ascii.eqb c "k"%char then Alt here (word_re (encoding [226; 132; 170]%nat))
  else here.

(** A literal in lower case, under [(?i)]. *)
Definition ci (s : string) : re := foldr (fun c r => Seq (fold_byte c) r) Eps (to_bytes s).

(** [\w] under [(?i)]. *)
Definition word_char : re :=
  alts [Byte (fun c => between 48 57 c || between 65 90 c || between 97 122 c || between 95 95 c);
        word_re (encoding [197; 191]%nat); word_re (encoding [226; 132; 170]%nat)].

Lemma word_re_spec w l : matches (word_re w) l <-> l = w.
Proof.
  revert l. induction w as [|c w IH]; intros l; cbn [word_re foldr]; [apply eps_inv|]. rewrite seq_inv. split.
  - intros (a & b & -> & Ha & Hb%IH). apply byte_inv in Ha as (d & -> & Hd%Ascii.eqb_eq). by subst.
  - intros ->. exists [c], w. split_and!; [done| |by apply IH]. constructor. apply Ascii.eqb_refl.
Qed.

