(* ===== verification/Classifier.v ===== *)
(** * Classifier: the expressions of the prompt classifier ([pkg/router/classifier.go])

    The regular expressions that [init] compiles, over which [AutoRouting] is
    parametric, and what they mean for the tier of a request. *)

From S2P Require Import Prelude GoFloat GoStrings Protocol Aliases AutoRouting Regex.
From Stdlib Require Import Ascii.

#[local] Open Scope Z_scope.
#[local] Open Scope list_scope.

(** ** The expressions *)

Definition not_newline : re := Byte (fun c => negb (Ascii.eqb c Regex.newline)).
Definition code_block_re : re := seqs [lit "```"; any; lit "```"].
Definition math_re : re :=
  alts [seqs [lit "$"; plus (Byte (fun c => negb (Ascii.eqb c "$"%char))); lit "$"];
        seqs [lit "\["; Star not_newline; lit "\]"]; lit "\begin{"].
Definition numbered_re : re := seqs [Star blank; plus digit; Byte (in_class ".)")].
Definition bullet_re : re := seqs [Star blank; alts [Byte (in_class "-*"); word_re (encoding [226; 128; 162]%nat)]; blank].
Definition few_shot_re : re :=
  alts [seqs [ci "example"; Star blank; Star digit]; ci "input:"; ci "output:";
        seqs [ci "here'"; opt (ci "s"); plus blank; ci "a"; opt (ci "n"); plus blank; ci "example"]].
Definition role_re : re :=
  alts [ci "act as"; ci "you are a"; ci "pretend to be"; ci "imagine you're";
        seqs [ci "as a"; opt (ci "n"); lit " "; plus word_char; ci " expert"]].
Definition why_how_re : re :=
  seqs [alts [ci "why"; ci "how"]; plus blank;
        alts (map ci ["does"; "do"; "did"; "would"; "could"; "can"; "will"; "should"; "must"; "may"; "might"])].
Definition what_when_re : re :=
  seqs [alts (map ci ["what"; "when"; "where"; "who"; "which"]); plus blank;
        alts (map ci ["is"; "are"; "was"; "were"; "does"; "do"; "did"])].

(** An expression that begins with [^] has at most one match in a text. *)
Definition regexes : classifierRegexes :=
  {| codeBlock := somewhere code_block_re;
     mathNotation := somewhere math_re;
     numberedList := at_line numbered_re;
     bulletPoints := at_line bullet_re;
     fewShotPatterns := somewhere few_shot_re;
     rolePatterns := somewhere role_re;
     whyHowQuestions s := if at_start why_how_re s then 1%nat else 0%nat;
     whatWhenQuestions s := if at_start what_when_re s then 1%nat else 0%nat |}.

(** The text of a request that the signals are read from. *)
Definition full_content (req : ChatRequest) : string :=
  String.concat "" (map (fun m => cm_Content m +:+ " ") (cr_Messages req)).

(** The same expressions with the question depth left out. *)
Definition no_depth (r : classifierRegexes) : classifierRegexes :=
  {| codeBlock := codeBlock r; mathNotation := mathNotation r; numberedList := numberedList r; bulletPoints := bulletPoints r;
     fewShotPatterns := fewShotPatterns r; rolePatterns := rolePatterns r;
     whyHowQuestions _ := 0%nat; whatWhenQuestions _ := 0%nat |}.

Definition question_letter (c : ascii) : bool := in_class "wWhH" c.

(** ** What the expressions say, without expressions *)

(** A text read without case: Go's folding reads U+017F as [s] and U+212A as
    [k]. *)
Inductive spelled : bytes -> bytes -> Prop :=
| spelled_nil : spelled [] []
| spelled_letter c l w : spelled l w -> spelled (c :: l) (lower_byte c :: w)
| spelled_long_s l w : spelled l w -> spelled (encoding [197; 191]%nat ++ l) ("s"%char :: w)
| spelled_kelvin l w : spelled l w -> spelled (encoding [226; 132; 170]%nat ++ l) ("k"%char :: w).

Definition reads (words : list string) (l : bytes) : Prop := exists w, w ∈ words /\ spelled l (to_bytes w).

Definition is_blank (c : ascii) : bool := bool_decide (c ∈ map ascii_of_nat [9; 10; 12; 13; 32]%nat).
Definition blanks (l : bytes) : Prop := Forall (fun c => is_blank c = true) l.
Definition is_digit (c : ascii) : bool := in_class "0123456789" c.
Definition is_word_letter (c : ascii) : bool := in_class "abcdefghijklmnopqrstuvwxyz0123456789_" c.

(** A part of the text, its beginning, and a part at the beginning of a line. *)
Definition within (P : bytes -> Prop) (s : string) : Prop := exists a b c, to_bytes s = a ++ b ++ c /\ P b.
Definition in_front (P : bytes -> Prop) (s : string) : Prop := exists b c, to_bytes s = b ++ c /\ P b.
Definition on_line (P : bytes -> Prop) (s : string) : Prop :=
  exists a b c, to_bytes s = a ++ b ++ c /\ P b /\ (a = [] \/ exists a', a = a' ++ [Regex.newline]).

Definition fenced (m : bytes) : Prop := exists x, m = to_bytes "```" ++ x ++ to_bytes "```".
Definition formula (m : bytes) : Prop :=
  (exists x, m = to_bytes "$" ++ x ++ to_bytes "$" /\ x <> [] /\ "$"%char ∉ x) \/
  (exists x, m = to_bytes "\[" ++ x ++ to_bytes "\]" /\ Regex.newline ∉ x) \/
  m = to_bytes "\begin{".
Definition number_marker (m : bytes) : Prop :=
  exists sp ds c, m = sp ++ ds ++ [c] /\ blanks sp /\ ds <> [] /\ Forall (fun d => is_digit d = true) ds /\ in_class ".)" c = true.
Definition bullet_marker (m : bytes) : Prop :=
  exists sp b c, m = sp ++ b ++ [c] /\ blanks sp /\
    b ∈ [to_bytes "-"; to_bytes "*"; encoding [226; 128; 162]%nat] /\ is_blank c = true.
Definition role (m : bytes) : Prop :=
  reads ["act as"; "you are a"; "pretend to be"; "imagine you're"] m \/
  exists a x e w, m = a ++ to_bytes " " ++ x ++ e /\ reads ["as a"; "as an"] a /\ reads [" expert"] e /\
    spelled x w /\ w <> [] /\ Forall (fun c => is_word_letter c = true) w.
Definition question (first second : list string) (m : bytes) : Prop :=
  exists a sp b, m = a ++ sp ++ b /\ reads first a /\ sp <> [] /\ blanks sp /\ reads second b.

(** ** Lemmas *)

Lemma fold_byte_first c l : fold_byte c = Byte (fun d => Ascii.eqb (lower_byte d) c) ->
  matches (fold_byte c) l -> exists d, l = [d] /\ lower_byte d = c.
Proof. intros ->. rewrite byte_inv. intros (d & -> & Hd%Ascii.eqb_eq). by exists d. Qed.

Lemma lower_w d c : lower_byte d = c -> in_class "wh" c = true -> question_letter d = true.
Proof.
  intros <-. unfold question_letter. destruct d as [[] [] [] [] [] [] [] []]; vm_compute; congruence.
Qed.

(** What begins with a word begins with its letter. *)
Lemma ci_first w c r l :
  to_bytes w = c :: r -> fold_byte c = Byte (fun d => Ascii.eqb (lower_byte d) c) -> matches (ci w) l ->
  exists d l', l = d :: l' /\ lower_byte d = c.
Proof.
  intros Hw Hc. unfold ci. rewrite Hw. cbn [foldr]. rewrite seq_inv. intros (a & b & -> & Ha & _).
  destruct (fold_byte_first _ _ Hc Ha) as (d & -> & Hd). by exists d, b.
Qed.

Lemma alts_inv rs l : matches (alts rs) l -> exists r, r ∈ rs /\ matches r l.
Proof.
  induction rs as [|r [|r' rs] IH]; cbn [alts].
  - by rewrite void_inv.
  - intros H. exists r. split; [by left|done].
  - rewrite alt_inv. intros [H|H]; [exists r; split; [by left|done]|].
    destruct (IH H) as (x & Hx & ?). exists x. split; [by right|done].
Qed.

Lemma question_first ws r l :
  Forall (fun w => exists c t, to_bytes w = c :: t /\ fold_byte c = Byte (fun d => Ascii.eqb (lower_byte d) c) /\ in_class "wh" c = true) ws ->
  matches (Seq (alts (map ci ws)) r) l -> exists d l', l = d :: l' /\ question_letter d = true.
Proof.
  intros Hws. rewrite seq_inv. intros (a & b & -> & Ha & _).
  apply alts_inv in Ha as (x & Hx & Ha). apply list_elem_of_fmap in Hx as (w & -> & Hw).
  rewrite Forall_forall in Hws. destruct (Hws _ Hw) as (c & t & Ht & Hf & Hc).
  destruct (ci_first _ _ _ _ Ht Hf Ha) as (d & l' & -> & Hd). exists d, (l' ++ b). split; [done|]. by eapply lower_w.
Qed.

Lemma no_question r s c rest :
  (forall l, matches r l -> exists d l', l = d :: l' /\ question_letter d = true) ->
  to_bytes s = c :: rest -> question_letter c = false -> at_start r s = false.
Proof.
  intros Hr Hs Hc. apply not_true_iff_false. rewrite at_start_spec. intros (b & t & E & Hb).
  destruct (Hr _ Hb) as (d & l' & -> & Hd). rewrite Hs in E. injection E as -> _. congruence.
Qed.

Lemma why_how_first l : matches why_how_re l -> exists d l', l = d :: l' /\ question_letter d = true.
Proof. apply (question_first ["why"; "how"]). repeat (constructor; [by do 2 eexists|]). constructor. Qed.

Lemma what_when_first l : matches what_when_re l -> exists d l', l = d :: l' /\ question_letter d = true.
Proof.
  apply (question_first ["what"; "when"; "where"; "who"; "which"]). repeat (constructor; [by do 2 eexists|]). constructor.
Qed.

Lemma full_content_first req m ms c t :
  cr_Messages req = m :: ms -> cm_Content m = String c t -> exists rest, to_bytes (full_content req) = c :: rest.
Proof.
  intros Hm Hc. unfold full_content. rewrite Hm. cbn [map]. rewrite Hc. destruct ms as [|m2 ms]; cbn; by eexists.
Qed.

Lemma count_first r s : (if at_start r s then 1%nat else 0%nat) = 1%nat <-> in_front (matches r) s.
Proof. unfold in_front. rewrite <-at_start_spec. by destruct (at_start r s). Qed.

Lemma no_depth_adjust ToLower cfg req :
  (forall s, s = full_content req -> whyHowQuestions regexes s = 0%nat /\ whatWhenQuestions regexes s = 0%nat) ->
  computeSemanticAdjustment ToLower regexes cfg req = computeSemanticAdjustment ToLower (no_depth regexes) cfg req.
Proof.
  intros H. destruct (H _ eq_refl) as [H1 H2]. unfold computeSemanticAdjustment. cbv zeta.
  fold (full_content req). by rewrite H1, H2.
Qed.

(** A word without [s] or [k] folds to nothing but its own letters. *)
Definition plain (w : string) : bool := forallb (fun c => negb (in_class "sk" c)) (to_bytes w).

Lemma ci_lower w l : plain w = true -> matches (ci w) l -> map lower_byte l = to_bytes w.
Proof.
  unfold plain, ci. generalize (to_bytes w). intros v. revert l. induction v as [|c v IH]; intros l Hp; cbn [foldr].
  { rewrite eps_inv. by intros ->. }
  cbn [forallb] in Hp. apply andb_true_iff in Hp as [Hc Hv]. rewrite seq_inv. intros (a & b & -> & Ha & Hb).
  assert (Ef : fold_byte c = Byte (fun d => Ascii.eqb (lower_byte d) c)).
  { unfold fold_byte. destruct (Ascii.eqb_spec c "s") as [->|_]; [discriminate Hc|].
    by destruct (Ascii.eqb_spec c "k") as [->|_]; [discriminate Hc|]. }
  rewrite Ef in Ha.
  apply byte_inv in Ha as (d & -> & <-%Ascii.eqb_eq). cbn. by rewrite (IH _ Hv Hb).
Qed.

(** The words a text begins with agree with one another. *)
Lemma words_lower ws r l :
  forallb plain ws = true -> matches (Seq (alts (map ci ws)) r) l -> exists w, w ∈ ws /\ to_bytes w `prefix_of` map lower_byte l.
Proof.
  rewrite forallb_forall. intros Hp. rewrite seq_inv. intros (a & b & -> & Ha & _).
  apply alts_inv in Ha as (x & Hx & Ha). apply list_elem_of_fmap in Hx as (w & -> & Hw).
  exists w. split; [done|]. rewrite map_app, (ci_lower w a); [by eexists| |done]. by apply Hp, list_elem_of_In.
Qed.

Lemma one_question s : in_front (matches why_how_re) s -> in_front (matches what_when_re) s -> False.
Proof.
  intros (b1 & c1 & E1 & H1) (b2 & c2 & E2 & H2).
  apply (words_lower ["why"; "how"]) in H1 as (w1 & Hw1 & P1); [|done].
  apply (words_lower ["what"; "when"; "where"; "who"; "which"]) in H2 as (w2 & Hw2 & P2); [|done].
  assert (P1' : to_bytes w1 `prefix_of` map lower_byte (to_bytes s)) by (rewrite E1, map_app; by apply prefix_app_r).
  assert (P2' : to_bytes w2 `prefix_of` map lower_byte (to_bytes s)) by (rewrite E2, map_app; by apply prefix_app_r).
  assert (H : Forall (fun a => Forall (fun b => ~ to_bytes a `prefix_of` to_bytes b /\ ~ to_bytes b `prefix_of` to_bytes a)
    ["what"; "when"; "where"; "who"; "which"]) ["why"; "how"]) by (apply (bool_decide_unpack _); vm_compute; exact I).
  rewrite Forall_forall in H. specialize (H _ Hw1). rewrite Forall_forall in H. specialize (H _ Hw2) as [Ha Hb].
  by destruct (prefix_weak_total _ _ _ P1' P2').
Qed.

(** *** From the expressions to what they say *)

Lemma blank_byte c : (between 9 10 c || between 12 13 c || between 32 32 c) = is_blank c.
Proof. by destruct c as [[] [] [] [] [] [] [] []]; vm_compute. Qed.
Lemma digit_byte c : between 48 57 c = is_digit c.
Proof. by destruct c as [[] [] [] [] [] [] [] []]; vm_compute. Qed.
Lemma word_byte c :
  (between 48 57 c || between 65 90 c || between 97 122 c || between 95 95 c) = is_word_letter (lower_byte c).
Proof. by destruct c as [[] [] [] [] [] [] [] []]; vm_compute. Qed.

Lemma star_byte p l : matches (Star (Byte p)) l <-> Forall (fun c => p c = true) l.
Proof.
  induction l as [|c l IH]; [split; [constructor|intros _; constructor]|]. rewrite star_cons, Forall_cons, <-IH. split.
  - intros (a & b & -> & Ha & Hb). apply byte_inv in Ha as (d & [= <- ->] & Hd). done.
  - intros [Hc Hl]. exists [], l. split_and!; [done| |done]. apply byte_inv. by exists c.
Qed.

Lemma plus_byte p l : matches (plus (Byte p)) l <-> l <> [] /\ Forall (fun c => p c = true) l.
Proof.
  unfold plus. rewrite seq_inv. setoid_rewrite star_byte. split.
  - intros (a & b & -> & Ha & Hb). apply byte_inv in Ha as (d & -> & Hd). split; [done|]. by constructor.
  - intros [Hn Hl]. destruct l as [|c l]; [done|]. apply Forall_cons in Hl as [Hc Hl].
    exists [c], l. split_and!; [done|apply byte_inv; by exists c|done].
Qed.

Lemma star_blank l : matches (Star blank) l <-> blanks l.
Proof. unfold blank. rewrite star_byte. unfold blanks. by setoid_rewrite blank_byte. Qed.
Lemma plus_blank l : matches (plus blank) l <-> l <> [] /\ blanks l.
Proof. unfold blank. rewrite plus_byte. unfold blanks. by setoid_rewrite blank_byte. Qed.

Lemma fold_byte_inv c l :
  matches (fold_byte c) l <->
  (exists d, l = [d] /\ lower_byte d = c) \/
  (c = "s"%char /\ l = encoding [197; 191]%nat) \/ (c = "k"%char /\ l = encoding [226; 132; 170]%nat).
Proof.
  unfold fold_byte.
  assert (Hb : matches (Byte (fun d => Ascii.eqb (lower_byte d) c)) l <-> exists d, l = [d] /\ lower_byte d = c).
  { rewrite byte_inv. by setoid_rewrite Ascii.eqb_eq. }
  destruct (Ascii.eqb_spec c "s") as [->|Hs]; [|destruct (Ascii.eqb_spec c "k") as [->|Hk]];
    rewrite ?alt_inv, ?word_re_spec, Hb; naive_solver.
Qed.

Lemma fold_byte_spelled c l w :
  matches (Seq (fold_byte c) w) l <->
  (exists d t, l = d :: t /\ lower_byte d = c /\ matches w t) \/
  (exists t, c = "s"%char /\ l = encoding [197; 191]%nat ++ t /\ matches w t) \/
  (exists t, c = "k"%char /\ l = encoding [226; 132; 170]%nat ++ t /\ matches w t).
Proof.
  rewrite seq_inv. setoid_rewrite fold_byte_inv. split.
  - intros (a & b & -> & [(d & -> & Hd)|[[Hc ->]|[Hc ->]]] & Hb); [left; by exists d, b|right; left; eauto|right; right; eauto].
  - intros [(d & t & -> & Hd & Ht)|[(t & Hc & -> & Ht)|(t & Hc & -> & Ht)]].
    + exists [d], t. split_and!; [done|left; eauto|done].
    + exists (encoding [197; 191]%nat), t. split_and!; [done|auto|done].
    + exists (encoding [226; 132; 170]%nat), t. split_and!; [done|auto|done].
Qed.

Lemma ci_spelled w l : matches (ci w) l <-> spelled l (to_bytes w).
Proof.
  unfold ci. generalize (to_bytes w). intros v. revert l. induction v as [|c v IH]; intros l; cbn [foldr].
  - rewrite eps_inv. split; [intros ->; constructor|by inversion 1].
  - rewrite fold_byte_spelled. setoid_rewrite IH. split.
    + intros [(d & t & -> & <- & H)|[(t & -> & -> & H)|(t & -> & -> & H)]]; by constructor.
    + inversion 1; subst; eauto 10.
Qed.

Lemma cis_spelled ws l : matches (alts (map ci ws)) l <-> reads ws l.
Proof.
  unfold reads. split.
  - intros H. apply alts_inv in H as (x & Hx & Ha). apply list_elem_of_fmap in Hx as (w & -> & Hw).
    exists w. split; [done|]. by apply ci_spelled.
  - intros (w & Hw & Hl). apply ci_spelled in Hl. revert Hw.
    induction ws as [|w1 [|w2 ws] IH]; intros Hw; cbn [map alts]; [set_solver| |].
    + apply list_elem_of_singleton in Hw as ->. done.
    + rewrite alt_inv. apply elem_of_cons in Hw as [->|Hw]; [by left|right]. by apply IH.
Qed.

Lemma star_word l : matches (Star word_char) l <-> exists w, spelled l w /\ Forall (fun c => is_word_letter c = true) w.
Proof.
  assert (Hw : forall l, matches word_char l <->
    (exists c, l = [c] /\ is_word_letter (lower_byte c) = true) \/ l = encoding [197; 191]%nat \/ l = encoding [226; 132; 170]%nat).
  { intros l'. unfold word_char. cbn [alts]. rewrite !alt_inv, byte_inv, !word_re_spec. by setoid_rewrite word_byte. }
  split.
  - intros H. remember (Star word_char) as r eqn:Er.
    induction H as [| | | | |r|r l1 l2 H1 _ H2 IH]; try discriminate Er; injection Er as ->.
    + exists []. split; constructor.
    + destruct (IH eq_refl) as (w & Hs & Hf). apply Hw in H1 as [(c & -> & Hc)|[->| ->]].
      * exists (lower_byte c :: w). split; by constructor.
      * exists ("s"%char :: w). split; by constructor.
      * exists ("k"%char :: w). split; by constructor.
  - intros (w & Hs & Hf). induction Hs as [|c l w Hs IH|l w Hs IH|l w Hs IH]; [constructor|..].
    all: apply Forall_cons in Hf as [Hc Hf].
    + apply (m_star _ [c]); [|auto]. apply Hw. eauto.
    + apply m_star; [|auto]. apply Hw. auto.
    + apply m_star; [|auto]. apply Hw. auto.
Qed.

Lemma within_iff P Q s : (forall m, P m <-> Q m) -> within P s <-> within Q s.
Proof. intros H. unfold within. by setoid_rewrite H. Qed.
Lemma in_front_iff P Q s : (forall m, P m <-> Q m) -> in_front P s <-> in_front Q s.
Proof. intros H. unfold in_front. by setoid_rewrite H. Qed.
Lemma on_line_iff P Q s : (forall m, P m <-> Q m) -> on_line P s <-> on_line Q s.
Proof. intros H. unfold on_line. by setoid_rewrite H. Qed.

Lemma lit_spec w l : matches (lit w) l <-> l = to_bytes w.
Proof. apply word_re_spec. Qed.

(** An expression between two literals. *)
Lemma bracketed w r w' l :
  matches (seqs [lit w; r; lit w']) l <-> exists x, l = to_bytes w ++ x ++ to_bytes w' /\ matches r x.
Proof.
  cbn [seqs]. rewrite seq_inv. setoid_rewrite seq_inv. setoid_rewrite lit_spec. split.
  - intros (a & b & -> & -> & x & c & -> & Hx & ->). eauto.
  - intros (x & -> & Hx). exists (to_bytes w), (x ++ to_bytes w'). split_and!; [done..|]. by exists x, (to_bytes w').
Qed.

Lemma Forall_negb_eq c x : Forall (fun d => negb (Ascii.eqb d c) = true) x <-> c ∉ x.
Proof.
  rewrite Forall_forall. setoid_rewrite negb_true_iff. setoid_rewrite Ascii.eqb_neq. split.
  - intros H Hc. by apply (H c).
  - intros H d Hd ->. done.
Qed.

Lemma code_block_fenced m : matches code_block_re m <-> fenced m.
Proof.
  unfold code_block_re, fenced. rewrite bracketed. split; [intros (x & -> & _); eauto|].
  intros (x & ->). exists x. split; [done|apply any_matches].
Qed.

Lemma math_formula m : matches math_re m <-> formula m.
Proof.
  unfold math_re, formula. cbn [alts]. rewrite !alt_inv, !bracketed, lit_spec. unfold not_newline.
  setoid_rewrite plus_byte. setoid_rewrite star_byte. by setoid_rewrite Forall_negb_eq.
Qed.

Lemma numbered_marker m : matches numbered_re m <-> number_marker m.
Proof.
  unfold numbered_re, number_marker. cbn [seqs]. rewrite seq_inv. setoid_rewrite seq_inv.
  setoid_rewrite star_blank. unfold digit. setoid_rewrite plus_byte. setoid_rewrite byte_inv. setoid_rewrite digit_byte. split.
  - intros (sp & b & -> & Hsp & ds & e & -> & [Hn Hd] & c & -> & Hc). by exists sp, ds, c.
  - intros (sp & ds & c & -> & Hsp & Hn & Hd & Hc). exists sp, (ds ++ [c]). split_and!; [done..|].
    exists ds, [c]. split_and!; [done..|eauto].
Qed.

Lemma bullet_spec m : matches bullet_re m <-> bullet_marker m.
Proof.
  assert (Hb : forall b, matches (alts [Byte (in_class "-*"); word_re (encoding [226; 128; 162]%nat)]) b <->
    b ∈ [to_bytes "-"; to_bytes "*"; encoding [226; 128; 162]%nat]).
  { intros b. cbn [alts]. rewrite alt_inv, byte_inv, word_re_spec, !elem_of_cons, elem_of_nil. split.
    - intros [(c & -> & Hc)| ->]; [|auto]. unfold in_class in Hc.
      apply existsb_exists in Hc as (d & Hd & ->%Ascii.eqb_eq). destruct Hd as [<-|[<-|[]]]; auto.
    - intros [->|[->|[->|[]]]]; [left; by eexists|left; by eexists|by right]. }
  unfold bullet_re, bullet_marker. change (seqs [Star blank; ?x; blank]) with (Seq (Star blank) (Seq x blank)).
  rewrite seq_inv. setoid_rewrite seq_inv. setoid_rewrite star_blank. setoid_rewrite Hb. unfold blank. setoid_rewrite byte_inv.
  setoid_rewrite blank_byte. split.
  - intros (sp & x & -> & Hsp & b & y & -> & Hbm & c & -> & Hc). by exists sp, b, c.
  - intros (sp & b & c & -> & Hsp & Hbm & Hc). exists sp, (b ++ [c]). split_and!; [done..|].
    exists b, [c]. split_and!; [done..|eauto].
Qed.

Lemma question_spec first second m :
  matches (seqs [alts (map ci first); plus blank; alts (map ci second)]) m <-> question first second m.
Proof.
  unfold question. cbn [seqs]. rewrite seq_inv. setoid_rewrite seq_inv. setoid_rewrite plus_blank. setoid_rewrite cis_spelled. split.
  - intros (a & x & -> & Ha & sp & b & -> & [Hn Hs] & Hb). by exists a, sp, b.
  - intros (a & sp & b & -> & Ha & Hn & Hs & Hb). exists a, (sp ++ b). split_and!; [done..|]. by exists sp, b.
Qed.

(** A literal with an optional letter at its end is one of two. *)
Lemma spelled_app l l' w w' : spelled l w -> spelled l' w' -> spelled (l ++ l') (w ++ w').
Proof. induction 1; intros H'; [done|..]; cbn; by constructor; auto. Qed.

Lemma spelled_split l w w' : spelled l (w ++ w') -> exists a b, l = a ++ b /\ spelled a w /\ spelled b w'.
Proof.
  revert l. induction w as [|c w IH]; intros l; cbn.
  - intros H. exists [], l. split_and!; [done|constructor|done].
  - inversion 1 as [|d l1 w1 H1|l1 w1 H1|l1 w1 H1]; subst; destruct (IH _ H1) as (a & b & -> & Ha & Hb).
    + exists (d :: a), b. split_and!; [done|by constructor|done].
    + exists (encoding [197; 191]%nat ++ a), b. split_and!; [done|by constructor|done].
    + exists (encoding [226; 132; 170]%nat ++ a), b. split_and!; [done|by constructor|done].
Qed.

Lemma ci_opt w e l : matches (Seq (ci w) (opt (ci e))) l <-> reads [w; w +:+ e] l.
Proof.
  pose proof (to_bytes_app w e) as He.
  rewrite seq_inv. unfold opt. setoid_rewrite alt_inv. setoid_rewrite eps_inv. setoid_rewrite ci_spelled. unfold reads. split.
  - intros (a & b & -> & Ha & [Hb| ->]).
    + exists (w +:+ e). split; [set_solver|]. rewrite He. by apply spelled_app.
    + exists w. split; [set_solver|]. by rewrite app_nil_r.
  - intros (v & Hv & Hl). rewrite !elem_of_cons, elem_of_nil in Hv. destruct Hv as [->|[->|[]]].
    + exists l, []. split_and!; [by rewrite app_nil_r|done|by right].
    + rewrite He in Hl. destruct (spelled_split _ _ _ Hl) as (a & b & -> & Ha & Hb). exists a, b. auto.
Qed.

Lemma plus_word l :
  matches (plus word_char) l <-> exists w, spelled l w /\ w <> [] /\ Forall (fun c => is_word_letter c = true) w.
Proof.
  assert (Hne : ~ matches word_char []).
  { unfold word_char. cbn [alts]. rewrite !alt_inv, byte_inv, !word_re_spec. by intros [(c & ? & _)|[?|?]]. }
  assert (Hplus : matches (plus word_char) l <-> l <> [] /\ matches (Star word_char) l).
  { unfold plus. rewrite seq_inv. split.
    - intros (a & b & -> & Ha & Hb). split; [|by constructor]. intros [-> _]%app_eq_nil. done.
    - intros [Hn Hs]. destruct l as [|c l]; [done|]. apply star_cons in Hs as (a & b & -> & Ha & Hb). by exists (c :: a), b. }
  rewrite Hplus, star_word. split.
  - intros [Hn (w & Hs & Hf)]. exists w. split_and!; [done| |done]. intros ->. by inversion Hs.
  - intros (w & Hs & Hn & Hf). split; [|eauto]. intros ->. by inversion Hs; subst.
Qed.

Lemma role_spec m : matches role_re m <-> role m.
Proof.
  assert (He : forall e, matches (ci " expert") e <-> reads [" expert"] e) by (intros e; apply (cis_spelled [" expert"])).
  assert (Hl : matches (seqs [ci "as a"; opt (ci "n"); lit " "; plus word_char; ci " expert"]) m <->
    exists a x e w, m = a ++ to_bytes " " ++ x ++ e /\ reads ["as a"; "as an"] a /\ reads [" expert"] e /\
      spelled x w /\ w <> [] /\ Forall (fun c => is_word_letter c = true) w).
  { cbn [seqs]. rewrite seq_inv. setoid_rewrite (seq_inv (opt _)). setoid_rewrite (seq_inv (lit _)). setoid_rewrite (seq_inv (plus _)).
    setoid_rewrite lit_spec. setoid_rewrite plus_word. setoid_rewrite He. split.
    - intros (a1 & b & -> & H1 & a2 & b2 & -> & H2 & sp & b3 & -> & -> & x & e & -> & (w & Hs & Hn & Hf) & Hb).
      exists (a1 ++ a2), x, e, w. split_and!; [by rewrite <-(assoc_L (++))| |done..].
      apply (ci_opt "as a" "n"). by constructor.
    - intros (a & x & e & w & -> & Ha & Hb & Hs & Hn & Hf). apply (ci_opt "as a" "n"), seq_inv in Ha as (a1 & a2 & -> & H1 & H2).
      exists a1, (a2 ++ to_bytes " " ++ x ++ e). split_and!; [by rewrite <-(assoc_L (++))|done|].
      exists a2, (to_bytes " " ++ x ++ e). split_and!; [done..|]. exists (to_bytes " "), (x ++ e). split_and!; [done..|].
      exists x, e. split_and!; [done|eauto|done]. }
  unfold role. rewrite <-Hl, <-(cis_spelled ["act as"; "you are a"; "pretend to be"; "imagine you're"]).
  unfold role_re. cbn [map alts]. rewrite !alt_inv. tauto.
Qed.

Lemma within_part (P : bytes -> Prop) s a m b c d :
  to_bytes s = a ++ (b ++ m ++ c) ++ d -> P m -> within P s.
Proof. intros E H. exists (a ++ b), m, (c ++ d). by rewrite E, <-!(assoc_L (++)). Qed.

(** The optional parts of an example are of no account, and nothing is
    "here's an example" without being an "example". *)
Lemma few_shot_within s : within (matches few_shot_re) s <-> within (reads ["example"; "input:"; "output:"]) s.
Proof.
  assert (Hw : forall w l, w ∈ ["example"; "input:"; "output:"] -> matches (ci w) l -> reads ["example"; "input:"; "output:"] l).
  { intros w l Hw Hl. exists w. split; [done|by apply ci_spelled]. }
  split.
  - intros (a & m & d & E & Hm). unfold few_shot_re in Hm. cbn [alts] in Hm. rewrite !alt_inv in Hm.
    destruct Hm as [Hm|[Hm|[Hm|Hm]]].
    + cbn [seqs] in Hm. apply seq_inv in Hm as (m' & c & -> & Hm & _).
      apply (within_part _ s a m' [] c d); [done|]. by apply (Hw "example"); [set_solver|].
    + exists a, m, d. split; [done|]. by apply (Hw "input:"); [set_solver|].
    + exists a, m, d. split; [done|]. by apply (Hw "output:"); [set_solver|].
    + assert (Hend : exists b m', m = b ++ m' /\ matches (ci "example") m').
      { cbn [seqs] in Hm. do 6 (apply seq_inv in Hm as (? & ? & -> & _ & Hm)).
        eexists _, _. split; [|exact Hm]. by rewrite !(assoc_L (++)). }
      destruct Hend as (b & m' & -> & Hm'). apply (within_part _ s a m' b [] d); [by rewrite E, app_nil_r|].
      by apply (Hw "example"); [set_solver|].
  - intros (a & m & d & E & w & Hin & Hs). exists a, m, d. split; [done|]. apply ci_spelled in Hs.
    unfold few_shot_re. cbn [alts]. rewrite !alt_inv. rewrite !elem_of_cons, elem_of_nil in Hin.
    destruct Hin as [->|[->|[->|[]]]]; [left|by right; left|by right; right; left].
    cbn [seqs]. rewrite <-(app_nil_r m). constructor; [done|]. rewrite <-(app_nil_r []). constructor; constructor.
Qed.

(** ** Properties *)


(** The question depth is read from the beginning of the first message alone: when that text begins with a letter
    that no question word begins with, as a customary system prompt does, the tier of the request is the one computed
    without any question depth, whatever the user then asks. *)
Theorem system_prompt_hides_question ToLower cfg req m ms c t
  (Hm : cr_Messages req = m :: ms) (Hc : cm_Content m = String c t) (Hq : question_letter c = false) :
  Classify ToLower regexes cfg req = Classify ToLower (no_depth regexes) cfg req.
Proof.
  unfold Classify, request_adjust. rewrite no_depth_adjust; [done|]. intros s ->.
  destruct (full_content_first _ _ _ _ _ Hm Hc) as [rest E]. cbn [regexes whyHowQuestions whatWhenQuestions].
  rewrite (no_question why_how_re _ _ _ why_how_first E Hq), (no_question what_when_re _ _ _ what_when_first E Hq). done.
Qed.

Definition chat (l : list (string * string)) : ChatRequest :=
  {| cr_Model := "auto"; cr_Messages := map (fun p => {| cm_Role := p.1; cm_Content := p.2 |}) l; cr_Stream := false;
     cr_MaxTokens := 0; cr_Temperature := f0 |}.
Definition ascii_lower (s : string) : string := of_bytes (map lower_byte (to_bytes s)).
Definition tier (l : list (string * string)) : ComplexityTier :=
  Classify ascii_lower regexes DefaultAutoRoutingConfig (chat l).

Lemma system_prompt_hides_question_witness :
  question_letter "Y" = false /\
  Classify ascii_lower regexes DefaultAutoRoutingConfig (chat [("system", "You are a poet."); ("user", "How can rain fall?")]) =
  Classify ascii_lower (no_depth regexes) DefaultAutoRoutingConfig (chat [("system", "You are a poet."); ("user", "How can rain fall?")]).
Proof.
  split; [reflexivity|].
  exact (system_prompt_hides_question ascii_lower DefaultAutoRoutingConfig
    (chat [("system", "You are a poet."); ("user", "How can rain fall?")]) _ _ "Y" "ou are a poet." eq_refl eq_refl eq_refl).
Defined.

(** A question alone is one tier up; after a plain system prompt it is not. *)
Example ex_question : tier [("user", "How can rain fall?")] = TierMedium /\
  tier [("system", "Be brief."); ("user", "How can rain fall?")] = TierSimple.
Proof. vm_compute. done. Qed.

(** The customary system prompt raises every greeting by one tier. *)
Example ex_assistant : tier [("user", "Hi")] = TierSimple /\
  tier [("system", "You are a helpful assistant."); ("user", "Hi")] = TierMedium.
Proof. vm_compute. done. Qed.

(** A decimal number at the beginning of a line is a numbered list; "document" follows "how" as "do" does. *)
Example ex_decimal : numberedList regexes "3.14 is pi" = true. Proof. vm_compute. done. Qed.
Example ex_how_document : whyHowQuestions regexes "How document stores work" = 1%nat. Proof. vm_compute. done. Qed.
