(* ===== verification/Certs.v ===== *)
(** * Certs: the certificate authority ([pkg/security/certgen.go], [buildTLSClient] of [app/mtls.go])

    Certificates with the fields that the code sets and that verification looks
    at; signatures and encodings are a class with their laws.  The files are a
    map from paths to texts.  The last part joins the generated files to the
    checks and middlewares that use them. *)

From stdpp Require Import pretty.
From S2P Require Import Prelude GoStrings Numerals Http Security RouterMain.
From Stdlib Require Import Ascii.

#[local] Open Scope Z_scope.
#[local] Open Scope list_scope.

(** ** Certificates *)

Record Name := mkName { nm_Organization : list string; nm_CommonName : string }.
Inductive key_usage := CertSign | CRLSign | DigitalSignature | KeyEncipherment.
Inductive ext_key_usage := ClientAuth | ServerAuth.

#[global] Instance Name_eq_dec : EqDecision Name.
Proof. solve_decision. Defined.
#[global] Instance key_usage_eq_dec : EqDecision key_usage.
Proof. solve_decision. Defined.
#[global] Instance ext_key_usage_eq_dec : EqDecision ext_key_usage.
Proof. solve_decision. Defined.

(** Keys and signatures are their bytes; a template has no public key. *)
Record Certificate := mkCertificate {
  x_SerialNumber : Z;
  x_Subject : Name;
  x_Issuer : Name;
  x_NotBefore : Z;
  x_NotAfter : Z;
  x_KeyUsage : list key_usage;
  x_ExtKeyUsage : list ext_key_usage;
  x_BasicConstraintsValid : bool;
  x_IsCA : bool;
  x_DNSNames : list string;
  x_IPAddresses : list string;
  x_PublicKey : option string;
  x_Signature : string;
}.
#[global] Instance Certificate_eq_dec : EqDecision Certificate.
Proof. solve_decision. Defined.

(** A PEM block; the bytes that a text has left after it. *)
Record pem_block := mkBlock { b_Type : string; b_Headers : bool; b_Bytes : string }.

(** The dates of a certificate are whole seconds. *)
Definition second : Z := 1000000000.
Definition whole_seconds (t : Z) : Z := t / second * second.
Definition day : Z := 24 * 3600 * second.

Class Crypto := {
  public : string -> string;
  sign : string -> Certificate -> string;
  check_signature : string -> Certificate -> string -> bool;
  cert_der : Certificate -> string;
  parse_cert : string -> option Certificate;
  key_der : string -> option string;
  parse_key : string -> option string;
  pem_encode : string -> string -> string;
  pem_decode : string -> option (pem_block * string);
}.

(** What was encoded is decoded; what was signed is accepted. *)
Class CryptoLaws (C : Crypto) := {
  sign_checks k c : check_signature (public k) c (sign k c) = true;
  cert_parses c : whole_seconds (x_NotBefore c) = x_NotBefore c -> whole_seconds (x_NotAfter c) = x_NotAfter c ->
    parse_cert (cert_der c) = Some c;
  key_parses k d : key_der k = Some d -> parse_key d = Some k;
  pem_decodes t d : t ∈ ["CERTIFICATE"; "EC PRIVATE KEY"] -> pem_decode (pem_encode t d) = Some (mkBlock t false d, "");
  pem_nothing : pem_decode "" = None;
}.

(** Texts by path. *)
Abbreviation files := (gmap string string).

Section crypto.
Context {C : Crypto}.

(** What is signed. *)
Definition tbs (c : Certificate) : Certificate :=
  mkCertificate (x_SerialNumber c) (x_Subject c) (x_Issuer c) (x_NotBefore c) (x_NotAfter c) (x_KeyUsage c) (x_ExtKeyUsage c)
    (x_BasicConstraintsValid c) (x_IsCA c) (x_DNSNames c) (x_IPAddresses c) (x_PublicKey c) "".

Definition with_signature (s : string) (c : Certificate) : Certificate :=
  mkCertificate (x_SerialNumber c) (x_Subject c) (x_Issuer c) (x_NotBefore c) (x_NotAfter c) (x_KeyUsage c) (x_ExtKeyUsage c)
    (x_BasicConstraintsValid c) (x_IsCA c) (x_DNSNames c) (x_IPAddresses c) (x_PublicKey c) s.

(** The certificate that [x509.CreateCertificate] makes of a template. *)
Definition issued (template parent : Certificate) (pub priv : string) : Certificate :=
  let c := mkCertificate (x_SerialNumber template) (x_Subject template) (x_Subject parent)
    (whole_seconds (x_NotBefore template)) (whole_seconds (x_NotAfter template)) (x_KeyUsage template) (x_ExtKeyUsage template)
    (x_BasicConstraintsValid template) (x_IsCA template) (x_DNSNames template) (x_IPAddresses template) (Some pub) "" in
  with_signature (sign priv c) c.

(** It refuses a negative serial number and a key that is not the parent's;
    [fails] is a failure of the signer. *)
Definition x509_CreateCertificate (fails : bool) (template parent : Certificate) (pub priv : string) : option string :=
  if x_SerialNumber template <? 0 then None
  else if match x_PublicKey parent with Some p => negb (String.eqb p (public priv)) | None => false end then None
  else if fails then None
  else Some (cert_der (issued template parent pub priv)).

(** [cert.CheckSignatureFrom]. *)
Definition CheckSignatureFrom (c parent : Certificate) : bool :=
  x_BasicConstraintsValid parent && x_IsCA parent &&
  (bool_decide (x_KeyUsage parent = []) || bool_decide (CertSign ∈ x_KeyUsage parent)) &&
  match x_PublicKey parent with Some p => check_signature p (tbs c) (x_Signature c) | None => false end.

Definition VerifyCertSignedByCA (cert caCert : Certificate) : bool := CheckSignatureFrom cert caCert.

Definition valid_at (now : Z) (c : Certificate) : bool := (x_NotBefore c <=? now) && (now <=? x_NotAfter c).

Definition allows (usage : ext_key_usage) (c : Certificate) : bool :=
  bool_decide (x_ExtKeyUsage c = []) || bool_decide (usage ∈ x_ExtKeyUsage c).

(** [net.ParseIP] of an IPv4 address: four decimal numbers of a byte without
    leading zeros. *)
Definition octet (s : string) : bool :=
  match Atoi s with Some n => (0 <=? n) && (n <=? 255) && String.eqb (pretty n) s | None => false end.
Definition is_ipv4 (host : string) : bool :=
  match Split host "."%char with [a; b; c; d] => octet a && octet b && octet c && octet d | _ => false end.

(** [cert.VerifyHostname]: an address is one of the addresses of the
    certificate, another name one of its names. *)
Definition VerifyHostname (host : string) (c : Certificate) : bool :=
  if is_ipv4 host then bool_decide (host ∈ x_IPAddresses c) else bool_decide (host ∈ x_DNSNames c).

(** [cert.Verify] without intermediates: the certificate is a root itself or a
    root signed it, in its name; every certificate of the chain is in its
    validity and allows the usage.  No usage asked for is [ServerAuth]; without a
    host none is compared. *)
Definition Verify (roots : list Certificate) (usage : option ext_key_usage) (dns : string) (now : Z) (c : Certificate) : bool :=
  let usage := default ServerAuth usage in
  valid_at now c && allows usage c && (String.eqb dns "" || VerifyHostname dns c) &&
  (bool_decide (c ∈ roots) ||
   existsb (fun root => bool_decide (x_Subject root = x_Issuer c) && CheckSignatureFrom c root && valid_at now root && allows usage root) roots).

(** ** Files *)

(** The PEM blocks of a text; a block takes at least a byte. *)
Fixpoint blocks_fuel (n : nat) (data : string) : list pem_block :=
  match n with
  | O => []
  | S n => match pem_decode data with Some (b, rest) => b :: blocks_fuel n rest | None => [] end
  end.
Definition blocks (data : string) : list pem_block := blocks_fuel (S (String.length data)) data.

(** [tls.LoadX509KeyPair]: the leaf and the key. *)
Definition LoadX509KeyPair (fs : files) (certFile keyFile : string) : option (Certificate * string) :=
  certPEM ← fs !! certFile;
  keyPEM ← fs !! keyFile;
  leaf ← head (List.filter (fun b => String.eqb (b_Type b) "CERTIFICATE") (blocks certPEM)) ≫= (fun b => parse_cert (b_Bytes b));
  key ← head (List.filter (fun b => String.eqb (b_Type b) "PRIVATE KEY" || HasSuffix (b_Type b) " PRIVATE KEY") (blocks keyPEM))
    ≫= (fun b => parse_key (b_Bytes b));
  if bool_decide (x_PublicKey leaf = Some (public key)) then Some (leaf, key) else None.

Definition LoadTLSCertFromFile := LoadX509KeyPair.

(** [AppendCertsFromPEM] on an empty pool. *)
Definition pool_of (data : string) : list Certificate :=
  omap (fun b => if negb (String.eqb (b_Type b) "CERTIFICATE") || b_Headers b then None else parse_cert (b_Bytes b)) (blocks data).

Definition LoadCACertPool (fs : files) (caCertFile : string) : list Certificate :=
  if String.eqb caCertFile "" then [] else match fs !! caCertFile with Some data => pool_of data | None => [] end.

(** [ValidateTLSConfig] on these files. *)
Definition files_valid (fs : files) : string -> string -> string -> bool :=
  ValidateTLSConfig (fun p => bool_decide (is_Some (fs !! p))) (fun p => fs !! p)
    (fun data => b_Type ∘ fst <$> pem_decode data) (fun c k => bool_decide (is_Some (LoadTLSCertFromFile fs c k)))
    (fun data => bool_decide (is_Some (pem_decode data ≫= fun b => parse_cert (b_Bytes b.1)))).

(** ** Generation *)

(** What the system answers during a run: failures, the clock at its readings,
    a random serial number and a new key, and the text that a failing
    [pem.Encode] leaves in a file. *)
Record answers := {
  an_MkdirAll : bool;
  an_rand : option Z;
  an_clock : nat -> Z;
  an_GenerateKey : option string;
  an_sign : bool;
  an_Create : string -> bool;
  an_Encode : string -> option string;
  an_interfaces : option (list (option (string * bool * bool)));
}.

Definition randomSerialNumber (a : answers) : Z := match an_rand a with Some n => n | None => an_clock a 0%nat end.

(** An interface address is an [IPNet] or not; its text, whether it is loopback
    and whether it is IPv4. *)
Fixpoint first_ipv4 (addrs : list (option (string * bool * bool))) : string :=
  match addrs with
  | [] => "127.0.0.1"
  | Some (ip, loopback, v4) :: rest => if negb loopback && v4 then ip else first_ipv4 rest
  | None :: rest => first_ipv4 rest
  end.
Definition getPrimaryIPv4 (a : answers) : string :=
  match an_interfaces a with None => "127.0.0.1" | Some addrs => first_ipv4 addrs end.

Definition validity : Z := 10 * 365 * day.

Definition ca_template (a : answers) : Certificate :=
  mkCertificate (randomSerialNumber a) (mkName ["InferMesh"] "InferMesh CA") (mkName [] "") (an_clock a 1%nat) (an_clock a 2%nat + validity)
    [CertSign; CRLSign] [] true true [] [] None "".

Definition node_template (a : answers) (commonName : string) : Certificate :=
  mkCertificate (randomSerialNumber a) (mkName ["InferMesh"] commonName) (mkName [] "") (an_clock a 1%nat) (an_clock a 2%nat + validity)
    [DigitalSignature; KeyEncipherment] [ClientAuth; ServerAuth] false false ["localhost"] ["127.0.0.1"; getPrimaryIPv4 a] None "".

(** Functions on the files that may fail, with the error's text. *)
Definition M (A : Type) : Type := files -> files * (A + string).
#[local] Instance M_ret : MRet M := fun A a fs => (fs, inl a).
#[local] Instance M_bind : MBind M := fun A B f m fs => match m fs with (fs, inl a) => f a fs | (fs, inr e) => (fs, inr e) end.
Definition throw {A} (e : string) : M A := fun fs => (fs, inr e).
Definition or_throw {A} (x : option A) (e : string) : M A := match x with Some a => mret a | None => throw e end.
Definition read (path : string) : files -> files * (option string + string) := fun fs => (fs, inl (fs !! path)).
Definition write (path text : string) : M unit := fun fs => (<[path := text]> fs, inl tt).

(** [os.Create] truncates the file; [pem.Encode] fills it. *)
Definition Create (a : answers) (path e : string) : M unit := if an_Create a path then throw e else write path "".
Definition Encode (a : answers) (path type data e : string) : M unit :=
  match an_Encode a path with
  | Some partial => _ ← write path partial; throw e
  | None => write path (pem_encode type data)
  end.

Context (join : string -> string -> string).

Definition GenerateSelfSignedCA (a : answers) (dir : string) : M (string * string) :=
  if an_MkdirAll a then throw "failed to create cert dir"
  else
    let ca := ca_template a in
    caKey ← or_throw (an_GenerateKey a) "failed to generate CA key";
    caCertBytes ← or_throw (x509_CreateCertificate (an_sign a) ca ca (public caKey) caKey) "failed to create CA certificate";
    let certPath := join dir "ca.crt" in
    let keyPath := join dir "ca.key" in
    _ ← Create a certPath "failed to write CA cert";
    _ ← Encode a certPath "CERTIFICATE" caCertBytes "failed to encode CA cert";
    _ ← Create a keyPath "failed to write CA key";
    caKeyBytes ← or_throw (key_der caKey) "failed to marshal CA key";
    _ ← Encode a keyPath "EC PRIVATE KEY" caKeyBytes "failed to encode CA key";
    mret (certPath, keyPath).

Definition GenerateNodeCert (a : answers) (dir caCertPath caKeyPath commonName : string) : M (string * string) :=
  if an_MkdirAll a then throw "failed to create cert dir"
  else
    certText ← read caCertPath;
    caCertPEM ← or_throw certText "failed to read CA cert";
    caCertBlock ← or_throw (pem_decode caCertPEM) "failed to decode CA cert";
    caCert ← or_throw (parse_cert (b_Bytes caCertBlock.1)) "failed to parse CA cert";
    keyText ← read caKeyPath;
    caKeyPEM ← or_throw keyText "failed to read CA key";
    caKeyBlock ← or_throw (pem_decode caKeyPEM) "failed to decode CA key";
    caPrivateKey ← or_throw (parse_key (b_Bytes caKeyBlock.1)) "failed to parse CA key";
    nodeKey ← or_throw (an_GenerateKey a) "failed to generate node key";
    nodeCertBytes ← or_throw (x509_CreateCertificate (an_sign a) (node_template a commonName) caCert (public nodeKey) caPrivateKey)
      "failed to create node certificate";
    let certPath := join dir "cert.pem" in
    let keyPath := join dir "key.pem" in
    _ ← Create a certPath "failed to write node cert";
    _ ← Encode a certPath "CERTIFICATE" nodeCertBytes "failed to encode node cert";
    _ ← Create a keyPath "failed to write node key";
    nodeKeyBytes ← or_throw (key_der nodeKey) "failed to marshal node key";
    _ ← Encode a keyPath "EC PRIVATE KEY" nodeKeyBytes "failed to encode node key";
    mret (certPath, keyPath).

(** [buildTLSClient]: the client's certificate and the roots it trusts. *)
Definition buildTLSClient (fs : files) (certPath keyPath caCertDir : string) : option (Certificate * list Certificate) :=
  if String.eqb certPath "" || String.eqb keyPath "" || String.eqb caCertDir "" then None
  else
    cert ← LoadX509KeyPair fs certPath keyPath;
    caPEM ← fs !! join caCertDir "ca.crt";
    match pool_of caPEM with [] => None | pool => Some (cert.1, pool) end.

(** ** What the functions leave in the files *)

Context {L : CryptoLaws C}.

Definition ca_cert (a : answers) (caKey : string) : Certificate := issued (ca_template a) (ca_template a) (public caKey) caKey.
Definition node_cert (a : answers) (cn : string) (ca : Certificate) (nodeKey caKey : string) : Certificate :=
  issued (node_template a cn) ca (public nodeKey) caKey.

Lemma whole_whole t : whole_seconds (whole_seconds t) = whole_seconds t.
Proof. unfold whole_seconds, second. by rewrite Z_div_mult_full. Qed.

Lemma issued_parses template parent pub priv :
  parse_cert (cert_der (issued template parent pub priv)) = Some (issued template parent pub priv).
Proof using L. apply cert_parses; apply whole_whole. Qed.

Lemma one_block t d : t ∈ ["CERTIFICATE"; "EC PRIVATE KEY"] -> blocks (pem_encode t d) = [mkBlock t false d].
Proof using L.
  intros Ht. unfold blocks. cbn [blocks_fuel]. rewrite (pem_decodes _ _ Ht). f_equal.
  destruct (String.length (pem_encode t d)); cbn [blocks_fuel]; [done|]. by rewrite pem_nothing.
Qed.

(** What a run leads to: [Q] of a result and the files, or [E] of an error and
    the files. *)
Definition wp {A} (m : M A) (Q : A -> files -> Prop) (E : string -> files -> Prop) (fs : files) : Prop :=
  match m fs with (fs', inl x) => Q x fs' | (fs', inr e) => E e fs' end.

Lemma wp_ret {A} (x : A) Q E fs : Q x fs -> wp (mret x) Q E fs.
Proof. done. Qed.
Lemma wp_throw {A} e (Q : A -> files -> Prop) E fs : E e fs -> wp (throw e) Q E fs.
Proof. done. Qed.
Lemma wp_bind {A B} (m : M A) (f : A -> M B) Q E fs : wp m (fun x => wp (f x) Q E) E fs -> wp (m ≫= f) Q E fs.
Proof. unfold wp, mbind, M_bind. by destruct (m fs) as [fs1 [x|e]]. Qed.
Lemma wp_or_throw {A} (x : option A) e Q E fs :
  (forall y, x = Some y -> Q y fs) -> (x = None -> E e fs) -> wp (or_throw x e) Q E fs.
Proof. intros H1 H2. destruct x; [by apply H1|by apply H2]. Qed.
Lemma wp_read p Q E fs : Q (fs !! p) fs -> wp (read p) Q E fs.
Proof. done. Qed.
Lemma wp_Create a p e Q E fs : Q tt (<[p := ""]> fs) -> E e fs -> wp (Create a p e) Q E fs.
Proof. unfold wp, Create. by destruct (an_Create a p). Qed.
Lemma wp_Encode a p t d e Q E fs :
  Q tt (<[p := pem_encode t d]> fs) -> (forall text, an_Encode a p = Some text -> E e (<[p := text]> fs)) -> wp (Encode a p t d e) Q E fs.
Proof. intros H1 H2. unfold wp, Encode. destruct (an_Encode a p); [by apply H2|done]. Qed.

Lemma wp_result {A} (m : M A) Q E fs fs' x : wp m Q E fs -> m fs = (fs', inl x) -> Q x fs'.
Proof. unfold wp. intros H Hm. by rewrite Hm in H. Qed.
Lemma wp_error {A} (m : M A) Q E fs fs' e : wp m Q E fs -> m fs = (fs', inr e) -> E e fs'.
Proof. unfold wp. intros H Hm. by rewrite Hm in H. Qed.

(** One step of a run; its failure is left as the last goal. *)
Ltac step :=
  match goal with
  | |- wp (mret _) _ _ _ => apply wp_ret
  | |- wp (throw _) _ _ _ => apply wp_throw
  | |- wp (_ ≫= _) _ _ _ => apply wp_bind; step
  | |- wp (read _) _ _ _ => apply wp_read
  | |- wp (Create _ _ _) _ _ _ => apply wp_Create
  | |- wp (Encode _ _ _ _ _) _ _ _ => apply wp_Encode; [|intros ? _]
  | |- wp (or_throw _ _) _ _ _ => apply wp_or_throw; [intros ? ?|intros _]
  end; cbv beta.

(** A value that was read is the one that is there. *)
Ltac known := match goal with E : Some _ = Some _ |- _ => injection E as <- end.

Lemma create_Some fails t p pub priv d : x509_CreateCertificate fails t p pub priv = Some d ->
  0 <= x_SerialNumber t /\ (forall q, x_PublicKey p = Some q -> q = public priv) /\ d = cert_der (issued t p pub priv).
Proof.
  unfold x509_CreateCertificate. destruct (Z.ltb_spec (x_SerialNumber t) 0); [done|].
  destruct (x_PublicKey p) as [q|]; [destruct (String.eqb_spec q (public priv)); [|done]|]; (destruct fails; [done|]);
    simpl; intros [= <-]; split_and!; try done; by intros ? [= <-].
Qed.

(** The files after a run that wrote [text1] to [p1] and [text2] to [p2]: none,
    the first, or both are touched. *)
Definition interrupted (fs : files) (p1 full1 p2 : string) (fs' : files) : Prop :=
  fs' = fs \/ (exists text, fs' = <[p1 := text]> fs) \/ (exists text, fs' = <[p2 := text]> (<[p1 := full1]> fs)).

Lemma CA_wp a dir fs :
  let crt := join dir "ca.crt" in let key := join dir "ca.key" in
  let full k := pem_encode "CERTIFICATE" (cert_der (ca_cert a k)) in
  wp (GenerateSelfSignedCA a dir)
    (fun paths fs' => exists k d, an_GenerateKey a = Some k /\ key_der k = Some d /\ 0 <= randomSerialNumber a /\ paths = (crt, key) /\
      fs' = <[key := pem_encode "EC PRIVATE KEY" d]> (<[crt := full k]> fs))
    (fun e fs' => fs' = fs \/ exists k, an_GenerateKey a = Some k /\ interrupted fs crt (full k) key fs') fs.
Proof.
  cbv zeta. unfold GenerateSelfSignedCA. destruct (an_MkdirAll a); [by step; left|].
  step; [|by left]. rename y into k, H into Hk. step; [|by left]. apply create_Some in H as (Hs & _ & ->). fold (ca_cert a k).
  assert (HE : forall fs', interrupted fs (join dir "ca.crt") (pem_encode "CERTIFICATE" (cert_der (ca_cert a k))) (join dir "ca.key") fs' ->
    fs' = fs \/ exists k, an_GenerateKey a = Some k /\
      interrupted fs (join dir "ca.crt") (pem_encode "CERTIFICATE" (cert_der (ca_cert a k))) (join dir "ca.key") fs') by eauto.
  step; [|by left].
  step; [|apply HE; right; left; rewrite insert_insert_eq; by eexists].
  rewrite insert_insert_eq. step; [|apply HE; right; left; by eexists].
  step; [|apply HE; right; right; by eexists].
  step; [|apply HE; right; right; rewrite insert_insert_eq; by eexists].
  rewrite insert_insert_eq. step. eauto 10.
Qed.

Lemma node_wp a dir crt ckey cn fs :
  let cert := join dir "cert.pem" in let key := join dir "key.pem" in
  wp (GenerateNodeCert a dir crt ckey cn)
    (fun paths fs' => exists ca ck k d cab ckb,
      (data ← fs !! crt; pem_decode data) = Some cab /\ parse_cert (b_Bytes cab.1) = Some ca /\
      (data ← fs !! ckey; pem_decode data) = Some ckb /\ parse_key (b_Bytes ckb.1) = Some ck /\
      (forall p, x_PublicKey ca = Some p -> p = public ck) /\
      an_GenerateKey a = Some k /\ key_der k = Some d /\ paths = (cert, key) /\
      fs' = <[key := pem_encode "EC PRIVATE KEY" d]> (<[cert := pem_encode "CERTIFICATE" (cert_der (node_cert a cn ca k ck))]> fs))
    (fun e fs' => exists full, interrupted fs cert full key fs') fs.
Proof.
  cbv zeta. unfold GenerateNodeCert.
  assert (H0 : exists full, interrupted fs (join dir "cert.pem") full (join dir "key.pem") fs) by (exists ""; by left).
  destruct (an_MkdirAll a); [by step|].
  step. step; [|done]. step; [|done]. step; [|done]. step. step; [|done]. step; [|done]. step; [|done]. step; [|done]. step; [|done].
  match goal with Hc : x509_CreateCertificate _ _ _ _ _ = Some _ |- _ => apply create_Some in Hc as (_ & Hpub & ->) end.
  step; [|done].
  step; [|exists ""; right; left; rewrite insert_insert_eq; by eexists].
  rewrite insert_insert_eq. step; [|exists ""; right; left; by eexists].
  step; [|eexists; right; right; by eexists].
  step; [|eexists; right; right; rewrite insert_insert_eq; by eexists].
  rewrite insert_insert_eq. step.
  repeat match goal with Hl : fs !! _ = Some _ |- _ => rewrite Hl; clear Hl end. simpl.
  eexists _, _, _, _, _, _. split_and!; done.
Qed.

(** ** What the checks make of the files *)

Lemma text_pool c : whole_seconds (x_NotBefore c) = x_NotBefore c -> whole_seconds (x_NotAfter c) = x_NotAfter c ->
  pool_of (pem_encode "CERTIFICATE" (cert_der c)) = [c].
Proof using L. clear join. intros H1 H2. unfold pool_of. rewrite one_block by set_solver. simpl. by rewrite cert_parses. Qed.

Lemma issued_pool t p pub priv : pool_of (pem_encode "CERTIFICATE" (cert_der (issued t p pub priv))) = [issued t p pub priv].
Proof using L. apply text_pool; apply whole_whole. Qed.

Lemma pair_loads fs cert key t p k d priv :
  fs !! cert = Some (pem_encode "CERTIFICATE" (cert_der (issued t p (public k) priv))) ->
  fs !! key = Some (pem_encode "EC PRIVATE KEY" d) -> key_der k = Some d ->
  LoadTLSCertFromFile fs cert key = Some (issued t p (public k) priv, k).
Proof using L. clear join.
  intros Hc Hk Hd. unfold LoadTLSCertFromFile, LoadX509KeyPair. rewrite Hc, Hk. cbn [mbind option_bind].
  rewrite !one_block by set_solver. cbn [List.filter b_Type]. simpl.
  rewrite issued_parses. simpl. rewrite (key_parses _ _ Hd). simpl. by rewrite bool_decide_eq_true_2.
Qed.

Lemma valid_files fs cert key crt t p k d priv t' p' pub' priv' :
  cert <> "" -> key <> "" -> crt <> "" ->
  fs !! cert = Some (pem_encode "CERTIFICATE" (cert_der (issued t p (public k) priv))) ->
  fs !! key = Some (pem_encode "EC PRIVATE KEY" d) -> key_der k = Some d ->
  fs !! crt = Some (pem_encode "CERTIFICATE" (cert_der (issued t' p' pub' priv'))) ->
  files_valid fs cert key crt = true.
Proof using L. clear join.
  intros N1 N2 N3 Hc Hk Hd Hca. unfold files_valid, ValidateTLSConfig.
  rewrite (pair_loads _ _ _ _ _ _ _ _ Hc Hk Hd), Hc, Hk, Hca, pem_decodes by set_solver. simpl. rewrite issued_parses.
  apply String.eqb_neq in N1, N2, N3. rewrite N1, N2, N3. done.
Qed.

Lemma node_signed a1 k1 a2 cn k2 : CheckSignatureFrom (node_cert a2 cn (ca_cert a1 k1) k2 k1) (ca_cert a1 k1) = true.
Proof using L.
  clear join. unfold CheckSignatureFrom. cbn [ca_cert issued with_signature x_BasicConstraintsValid x_IsCA x_KeyUsage x_PublicKey ca_template].
  rewrite (bool_decide_eq_true_2 (CertSign ∈ _)) by set_solver. rewrite orb_true_r. simpl. apply sign_checks.
Qed.

(** When both certificates of a chain are in their validity. *)
Definition lifetime (a1 a2 : answers) (now : Z) : Prop :=
  whole_seconds (an_clock a1 1%nat) <= now /\ whole_seconds (an_clock a2 1%nat) <= now /\
  now <= whole_seconds (an_clock a1 2%nat + validity) /\ now <= whole_seconds (an_clock a2 2%nat + validity).

(** The hosts a node is reached under: none asked for, the local ones, and its
    address on the network. *)
Definition node_host (a : answers) (host : string) : Prop :=
  host ∈ [""; "localhost"; "127.0.0.1"] \/ host = getPrimaryIPv4 a /\ is_ipv4 host = true.

Lemma node_verifies a1 k1 a2 cn k2 usage dns now : node_host a2 dns ->
  Verify [ca_cert a1 k1] usage dns now (node_cert a2 cn (ca_cert a1 k1) k2 k1) = true <-> lifetime a1 a2 now.
Proof using L.
  clear join. intros Hd. unfold Verify. set (ca := ca_cert a1 k1). set (leaf := node_cert a2 cn ca k2 k1).
  assert (Hu : forall u, allows u leaf = true) by (intros []; done).
  assert (Hr : bool_decide (leaf ∈ [ca]) = false).
  { apply bool_decide_eq_false_2. intros H%list_elem_of_singleton. by apply (f_equal x_IsCA) in H. }
  assert (Hdns : String.eqb dns "" || VerifyHostname dns leaf = true).
  { unfold VerifyHostname. destruct Hd as [Hd|[-> Hip]].
    - rewrite !elem_of_cons in Hd. by destruct Hd as [->|[->|[->|Hd%elem_of_nil]]].
    - rewrite Hip, (bool_decide_eq_true_2 (_ ∈ x_IPAddresses leaf)) by (simpl; set_solver). by rewrite orb_true_r. }
  assert (Hsig : CheckSignatureFrom leaf ca = true) by apply node_signed.
  assert (Hn : bool_decide (x_Subject ca = x_Issuer leaf) = true) by by apply bool_decide_eq_true_2.
  assert (Ha : forall u, allows u ca = true) by done.
  rewrite Hu, Hr, Hdns. cbn [existsb]. rewrite Hsig, Hn, Ha. rewrite !andb_true_r, orb_false_r. simpl.
  unfold valid_at, lifetime. rewrite !andb_true_iff, !Z.leb_le. simpl. tauto.
Qed.

(** The files of an authority; a node's, signed by it. *)
Definition has_ca (fs : files) (crt ckey : string) (a1 : answers) (k1 : string) : Prop :=
  fs !! crt = Some (pem_encode "CERTIFICATE" (cert_der (ca_cert a1 k1))) /\
  exists d1, key_der k1 = Some d1 /\ fs !! ckey = Some (pem_encode "EC PRIVATE KEY" d1).
Definition has_node (fs : files) (cert key cn : string) (a1 : answers) (k1 : string) (a2 : answers) (k2 : string) : Prop :=
  fs !! cert = Some (pem_encode "CERTIFICATE" (cert_der (node_cert a2 cn (ca_cert a1 k1) k2 k1))) /\
  exists d2, key_der k2 = Some d2 /\ fs !! key = Some (pem_encode "EC PRIVATE KEY" d2).

Lemma CA_made a dir fs fs' crt ckey :
  GenerateSelfSignedCA a dir fs = (fs', inl (crt, ckey)) -> crt <> ckey ->
  crt = join dir "ca.crt" /\ exists k, an_GenerateKey a = Some k /\ has_ca fs' crt ckey a k.
Proof.
  intros H Hne. destruct (wp_result _ _ _ _ _ _ (CA_wp a dir fs) H) as (k & d & Hk & Hd & _ & [= -> ->] & ->).
  split; [done|]. exists k. split; [done|]. unfold has_ca. rewrite lookup_insert_ne by done. rewrite !lookup_insert_eq. eauto.
Qed.

(** The paths of two files beside those of the authority. *)
Definition apart (crt ckey cert key : string) : Prop := cert <> key /\ cert <> crt /\ cert <> ckey /\ key <> crt /\ key <> ckey.

Lemma node_made a dir crt ckey cn fs fs' cert key a1 k1 :
  GenerateNodeCert a dir crt ckey cn fs = (fs', inl (cert, key)) -> has_ca fs crt ckey a1 k1 -> apart crt ckey cert key ->
  exists k, an_GenerateKey a = Some k /\ has_ca fs' crt ckey a1 k1 /\ has_node fs' cert key cn a1 k1 a k /\
    forall p, p <> cert -> p <> key -> fs' !! p = fs !! p.
Proof using L.
  intros H (Hcrt & d1 & Hd1 & Hckey) (N1 & N2 & N3 & N4 & N5).
  destruct (wp_result _ _ _ _ _ _ (node_wp a dir crt ckey cn fs) H)
    as (ca & ck & k & d & cab & ckb & Hca & Pca & Hck & Pck & _ & Hk & Hd & [= -> ->] & ->).
  rewrite Hcrt in Hca. cbn in Hca. rewrite pem_decodes in Hca by set_solver. injection Hca as <-. cbn in Pca.
  unfold ca_cert in Pca. rewrite issued_parses in Pca. injection Pca as <-.
  rewrite Hckey in Hck. cbn in Hck. rewrite pem_decodes in Hck by set_solver. injection Hck as <-. cbn in Pck.
  rewrite (key_parses _ _ Hd1) in Pck. injection Pck as <-.
  assert (Hother : forall p x y, p <> join dir "cert.pem" -> p <> join dir "key.pem" ->
    (<[join dir "key.pem" := y]> (<[join dir "cert.pem" := x]> fs)) !! p = fs !! p) by (intros; by rewrite !lookup_insert_ne).
  exists k. split_and!; [done| | |intros; by apply Hother]; unfold has_ca, has_node.
  - rewrite !Hother by done. eauto.
  - rewrite lookup_insert_ne by done. rewrite !lookup_insert_eq. eauto.
Qed.

Lemma node_checks fs crt ckey cert key cn a1 k1 a2 k2 :
  crt <> "" -> cert <> "" -> key <> "" -> has_ca fs crt ckey a1 k1 -> has_node fs cert key cn a1 k1 a2 k2 ->
  files_valid fs cert key crt = true /\ LoadCACertPool fs crt = [ca_cert a1 k1] /\
  LoadTLSCertFromFile fs cert key = Some (node_cert a2 cn (ca_cert a1 k1) k2 k1, k2).
Proof using L.
  clear join. intros N1 N2 N3 (Hcrt & _) (Hcert & d & Hd & Hkey). split_and!.
  - by eapply valid_files.
  - unfold LoadCACertPool. apply String.eqb_neq in N1. rewrite N1, Hcrt. apply issued_pool.
  - by eapply pair_loads.
Qed.

(** ** Properties *)

(** C25: the certificates of the authority are those the program asks for.  After a run of [GenerateSelfSignedCA] and one
    of [GenerateNodeCert] with its files, the start-up check accepts the node's files with the CA file; the pool loaded
    from it is the CA, the key pair loads, carries the name asked for and is signed by the CA; and the certificate
    verifies against the pool, as a client and as a server, without a host name and for localhost, exactly while both
    certificates are valid: from the second of the later beginning to ten years after the CA's or the node's own. *)
Theorem generated_certificates a1 a2 dirA dirN cn fs0 fs1 fs2 crt ckey cert key
  (HA : GenerateSelfSignedCA a1 dirA fs0 = (fs1, inl (crt, ckey)))
  (HN : GenerateNodeCert a2 dirN crt ckey cn fs1 = (fs2, inl (cert, key)))
  (HD : crt <> ckey /\ apart crt ckey cert key) (Hne : crt <> "" /\ cert <> "" /\ key <> "") :
  files_valid fs2 cert key crt = true /\
  exists ca leaf nodeKey,
    LoadCACertPool fs2 crt = [ca] /\ LoadTLSCertFromFile fs2 cert key = Some (leaf, nodeKey) /\
    an_GenerateKey a2 = Some nodeKey /\ nm_CommonName (x_Subject leaf) = cn /\ VerifyCertSignedByCA leaf ca = true /\
    forall usage dns now, dns ∈ [""; "localhost"] -> (Verify [ca] usage dns now leaf = true <-> lifetime a1 a2 now).
Proof using L.
  destruct HD as [H1 H2], Hne as (N1 & N2 & N3).
  destruct (CA_made _ _ _ _ _ _ HA H1) as (_ & k1 & _ & Hca). destruct (node_made _ _ _ _ _ _ _ _ _ _ _ HN Hca H2) as (k2 & Hk2 & Hca2 & Hnode & _).
  destruct (node_checks _ _ _ _ _ _ _ _ _ _ N1 N2 N3 Hca2 Hnode) as (Hv & Hp & Hl).
  split; [done|]. eexists _, _, k2. split_and!; [done..|apply node_signed|]. intros. apply node_verifies. left. set_solver.
Qed.

(** A peer that presents a certificate, to a middleware with a pool at an instant. *)
Definition as_peer (pool : list Certificate) (now : Z) (leaf : Certificate) : certificate :=
  {| ct_CommonName := nm_CommonName (x_Subject leaf); ct_Verifies := Verify pool None "" now leaf |}.

(** C13: the desktop reaches its router in production.  When the authority made a certificate for the router and one for
    the desktop, and the router is configured with its files and trusts the desktop's name, then during the lifetime of
    both certificates the TLS client of the desktop accepts the router under localhost, under 127.0.0.1, which it dials by
    default, and under the router machine's primary address; the router accepts the desktop; and a request of the desktop
    reaches the router's handlers unless its path asks for an API key that the request lacks. *)
Theorem minted_client_served a1 aR aC dirA dirR dirC cnR cnC fs0 fs1 fs2 fs3 crt ckey certR keyR certC keyC
  split_host parse_ip lookup_ip cfg addr now
  (HA : GenerateSelfSignedCA a1 dirA fs0 = (fs1, inl (crt, ckey)))
  (HR : GenerateNodeCert aR dirR crt ckey cnR fs1 = (fs2, inl (certR, keyR)))
  (HC : GenerateNodeCert aC dirC crt ckey cnC fs2 = (fs3, inl (certC, keyC)))
  (HD : crt <> ckey /\ apart crt ckey certR keyR /\ apart crt ckey certC keyC /\ apart certR keyR certC keyC)
  (Hcfg : sc_DevMode cfg = false /\ sc_MTLSCert cfg = certR /\ sc_MTLSKey cfg = keyR /\ sc_CertDir cfg = dirA)
  (Hne : "" ∉ [crt; certR; keyR; certC; keyC; dirA])
  (Hcn : SplitCNs (sc_TrustedCNs cfg) = [] \/ cnC ∈ SplitCNs (sc_TrustedCNs cfg))
  (Hnow : lifetime a1 aR now /\ lifetime a1 aC now) :
  let loads c := files_valid fs3 (sc_MTLSCert c) (sc_MTLSKey c) (join (sc_CertDir c) "ca.crt") in
  exists client pool router k,
    buildTLSClient fs3 certC keyC dirA = Some (client, pool) /\ LoadTLSCertFromFile fs3 certR keyR = Some (router, k) /\
    (forall host, host ∈ ["localhost"; "127.0.0.1"] \/ host = getPrimaryIPv4 aR /\ is_ipv4 host = true ->
       Verify pool (Some ServerAuth) host now router = true) /\
    Verify (LoadCACertPool fs3 crt) (Some ClientAuth) "" now client = true /\
    forall r, rq_TLS r = Some [as_peer (LoadCACertPool fs3 crt) now client] ->
      (served (router_serving split_host parse_ip lookup_ip loads cfg addr) r <->
       (rq_Path r ∈ router_guarded -> sc_APIKey cfg <> "" -> presented_key r = sc_APIKey cfg)).
Proof using L.
  intros loads. destruct HD as (H1 & H2 & H3 & N1 & N2 & N3 & N4 & N5), Hcfg as (Hdev & EC & EK & ED), Hnow as [LR LC].
  destruct (CA_made _ _ _ _ _ _ HA H1) as (Ecrt & k1 & _ & Hca).
  destruct (node_made _ _ _ _ _ _ _ _ _ _ _ HR Hca H2) as (kR & _ & Hca2 & Hnode & _).
  destruct (node_made _ _ _ _ _ _ _ _ _ _ _ HC Hca2 H3) as (kC & _ & Hca3 & HnodeC & Hkeep).
  assert (HnodeR : has_node fs3 certR keyR cnR a1 k1 aR kR) by (unfold has_node; rewrite !Hkeep by done; exact Hnode).
  rewrite !not_elem_of_cons in Hne. destruct Hne as (M1 & M2 & M3 & M4 & M5 & M6 & _).
  destruct (node_checks fs3 crt ckey certR keyR cnR a1 k1 aR kR) as (Hv & Hp & Hl); [done..|].
  destruct (node_checks fs3 crt ckey certC keyC cnC a1 k1 aC kC) as (_ & _ & Hlc); [done..|].
  assert (Hb : buildTLSClient fs3 certC keyC dirA = Some (node_cert aC cnC (ca_cert a1 k1) kC k1, [ca_cert a1 k1])).
  { unfold buildTLSClient. rewrite (proj2 (String.eqb_neq certC "")), (proj2 (String.eqb_neq keyC "")), (proj2 (String.eqb_neq dirA "")) by done.
    unfold LoadTLSCertFromFile in Hlc. rewrite Hlc. simpl. rewrite <-Ecrt, (proj1 Hca3). cbn [mbind option_bind].
    unfold ca_cert. by rewrite issued_pool. }
  eexists _, _, _, _. split_and!; [exact Hb|exact Hl| | |].
  - intros host Hh. apply node_verifies; [|done]. destruct Hh as [Hh|Hh]; [left; set_solver|by right].
  - rewrite Hp. by apply node_verifies; [left; set_solver|].
  - intros r Hr. unfold router_serving, hasAnyMTLSConfig, hasFullMTLSConfig, loads. rewrite Hdev, EC, EK, ED, <-Ecrt, Hv.
    rewrite (proj2 (String.eqb_neq certR "")), (proj2 (String.eqb_neq keyR "")), (proj2 (String.eqb_neq dirA "")) by done. simpl.
    rewrite guard_passes, mtls_passes. unfold mux. split; [by intros [? _]|]. intros Hkey. split; [done|]. split; [|done].
    eexists _, []. split_and!; [exact Hr| |].
    + simpl. rewrite Hp. by apply node_verifies; [left; set_solver|].
    + destruct Hcn as [?|?]; [by left|right]. exists cnC. split; [done|]. simpl. unfold Contains.
      pose proof (contains_inside [] (to_bytes cnC) []) as Hin. by rewrite app_nil_r in Hin.
Qed.

(** A regeneration of the authority that cannot create the key file has already replaced the certificate.  The pool
    is then the new certificate and the key file still the old one; no later run of [GenerateNodeCert] issues anything
    with this pair, or touches a file. *)
Theorem interrupted_authority a dir fs fs' crt ckey a0 k0
  (H : GenerateSelfSignedCA a dir fs = (fs', inr "failed to write CA key"))
  (Ecrt : crt = join dir "ca.crt") (Eckey : ckey = join dir "ca.key") (Hne : crt <> ckey /\ crt <> "")
  (Hold : has_ca fs crt ckey a0 k0) (Hnew : forall k, an_GenerateKey a = Some k -> public k <> public k0) :
  fs' !! ckey = fs !! ckey /\
  (exists k, an_GenerateKey a = Some k /\ LoadCACertPool fs' crt = [ca_cert a k]) /\
  forall a' dirN cn, exists e, GenerateNodeCert a' dirN crt ckey cn fs' = (fs', inr e).
Proof using L.
  assert (HE : exists k, an_GenerateKey a = Some k /\ fs' = <[crt := pem_encode "CERTIFICATE" (cert_der (ca_cert a k))]> fs).
  { assert (Hw : wp (GenerateSelfSignedCA a dir) (fun _ _ => True) (fun e fs' => e = "failed to write CA key" ->
      exists k, an_GenerateKey a = Some k /\ fs' = <[crt := pem_encode "CERTIFICATE" (cert_der (ca_cert a k))]> fs) fs).
    { unfold GenerateSelfSignedCA. rewrite <-Ecrt, <-Eckey. destruct (an_MkdirAll a); [by step|].
      step; [|done]. step; [|done].
      match goal with Hc : x509_CreateCertificate _ _ _ _ _ = Some _ |- _ => apply create_Some in Hc as (_ & _ & ->) end.
      step; [|done]. step; [|done]. rewrite insert_insert_eq. step; [|by eauto]. step; [|done]. step; [|done]. by step. }
    by apply (wp_error _ _ _ _ _ _ Hw H). }
  destruct HE as (k & Hk & ->), Hne as [H1 H2], Hold as (_ & d0 & Hd0 & Hckey). specialize (Hnew _ Hk).
  split; [by apply lookup_insert_ne|]. split.
  { exists k. split; [done|]. unfold LoadCACertPool. apply String.eqb_neq in H2. rewrite H2, lookup_insert_eq. apply issued_pool. }
  intros a' dirN cn.
  assert (Hw : wp (GenerateNodeCert a' dirN crt ckey cn) (fun _ _ => False)
    (fun e fs' => fs' = <[crt := pem_encode "CERTIFICATE" (cert_der (ca_cert a k))]> fs)
    (<[crt := pem_encode "CERTIFICATE" (cert_der (ca_cert a k))]> fs)).
  { unfold GenerateNodeCert. destruct (an_MkdirAll a'); [by step|].
    step. rewrite lookup_insert_eq. step; [|done]. known.
    rewrite pem_decodes by set_solver. step; [|done]. known.
    cbn [fst b_Bytes]. rewrite (issued_parses (ca_template a) (ca_template a) (public k) k : parse_cert (cert_der (ca_cert a k)) = _). step; [|done]. known.
    step. rewrite lookup_insert_ne by done. rewrite Hckey. step; [|done]. known.
    rewrite pem_decodes by set_solver. step; [|done]. known.
    cbn [fst b_Bytes]. rewrite (key_parses _ _ Hd0). step; [|done]. known.
    step; [|done]. step; [|done].
    match goal with Hc : x509_CreateCertificate _ _ _ _ _ = Some _ |- _ => apply create_Some in Hc as (_ & Hp & _) end.
    by destruct (Hnew (Hp _ eq_refl)). }
  destruct (GenerateNodeCert a' dirN crt ckey cn _) as [fs1 [x|e]] eqn:E; [by destruct (wp_result _ _ _ _ _ _ Hw E)|].
  exists e. by rewrite (wp_error _ _ _ _ _ _ Hw E).
Qed.
End crypto.

(** ** A symbolic instance *)

(** Numbers as texts of bits. *)
Fixpoint bits (p : positive) : string :=
  match p with xH => "" | xO p => String "0" (bits p) | xI p => String "1" (bits p) end.
Fixpoint of_bits (s : string) : option positive :=
  match s with
  | EmptyString => Some xH
  | String "0" s => xO <$> of_bits s
  | String "1" s => xI <$> of_bits s
  | _ => None
  end.
Lemma of_bits_bits p : of_bits (bits p) = Some p.
Proof. induction p as [p IH|p IH|]; simpl; by rewrite ?IH. Qed.

Definition usage_code (u : key_usage) : Z := match u with CertSign => 0 | CRLSign => 1 | DigitalSignature => 2 | KeyEncipherment => 3 end.
Definition code_usage (z : Z) : key_usage := if z =? 0 then CertSign else if z =? 1 then CRLSign else if z =? 2 then DigitalSignature else KeyEncipherment.
Definition ext_code (u : ext_key_usage) : bool := match u with ClientAuth => true | ServerAuth => false end.
Definition code_ext (b : bool) : ext_key_usage := if b then ClientAuth else ServerAuth.

Definition pack (c : Certificate) : positive :=
  positives_flatten [encode (x_SerialNumber c); encode (nm_Organization (x_Subject c)); encode (nm_CommonName (x_Subject c));
    encode (nm_Organization (x_Issuer c)); encode (nm_CommonName (x_Issuer c)); encode (x_NotBefore c); encode (x_NotAfter c);
    encode (map usage_code (x_KeyUsage c)); encode (map ext_code (x_ExtKeyUsage c)); encode (x_BasicConstraintsValid c); encode (x_IsCA c);
    encode (x_DNSNames c); encode (x_IPAddresses c); encode (x_PublicKey c); encode (x_Signature c)].
Definition unpack (p : positive) : option Certificate :=
  match positives_unflatten p with
  | Some [n; so; sn; io; in_; b; a; ku; eu; bc; ca; dns; ips; pk; sg] =>
      n ← decode n; so ← decode so; sn ← decode sn; io ← decode io; in_ ← decode in_; b ← decode b; a ← decode a;
      ku ← decode ku; eu ← decode eu; bc ← decode bc; ca ← decode ca; dns ← decode dns; ips ← decode ips; pk ← decode pk; sg ← decode sg;
      Some (mkCertificate n (mkName so sn) (mkName io in_) b a (map code_usage ku) (map code_ext eu) bc ca dns ips pk sg)
  | _ => None
  end.
Lemma unpack_pack c : unpack (pack c) = Some c.
Proof.
  destruct c as [n [so sn] [io in_] b a ku eu bc ca dns ips pk sg]. unfold unpack, pack. rewrite positives_unflatten_flatten.
  cbn [x_SerialNumber x_Subject x_Issuer x_NotBefore x_NotAfter x_KeyUsage x_ExtKeyUsage x_BasicConstraintsValid x_IsCA x_DNSNames
    x_IPAddresses x_PublicKey x_Signature nm_Organization nm_CommonName].
  rewrite !decode_encode. cbn [mbind option_bind]. rewrite !map_map. do 2 f_equal.
  - rewrite <-(map_id ku) at 2. apply map_ext. by intros [].
  - rewrite <-(map_id eu) at 2. apply map_ext. by intros [].
Qed.

(** A signature shows the key and the name that is signed; a PEM text its block. *)
#[local] Instance symbolic : Crypto := {
  public k := "pub " +:+ k;
  sign k c := "pub " +:+ k +:+ " signs " +:+ nm_CommonName (x_Subject c);
  check_signature p c s := String.eqb s (p +:+ " signs " +:+ nm_CommonName (x_Subject c));
  cert_der c := bits (pack c);
  parse_cert s := n ← of_bits s; unpack n;
  key_der k := Some k;
  parse_key s := Some s;
  pem_encode t d := t +:+ ":" +:+ d;
  pem_decode s := '(t, d) ← Cut s ":"%char; Some (mkBlock t false d, "");
}.

#[local] Instance symbolic_laws : CryptoLaws symbolic.
Proof.
  split.
  - intros k c. apply String.eqb_refl.
  - intros c _ _. unfold parse_cert, cert_der, symbolic. rewrite of_bits_bits. apply unpack_pack.
  - by intros k d [= ->].
  - intros t d Ht. unfold pem_decode, pem_encode, symbolic, Cut.
    apply elem_of_cons in Ht as [->|Ht%list_elem_of_singleton]; [|subst t].
    + change (to_bytes _) with (to_bytes "CERTIFICATE" ++ ":"%char :: to_bytes d). cbn. by rewrite String.string_of_list_ascii_of_string.
    + change (to_bytes _) with (to_bytes "EC PRIVATE KEY" ++ ":"%char :: to_bytes d). cbn. by rewrite String.string_of_list_ascii_of_string.
  - done.
Qed.

Definition ex_answers (key : string) (now : Z) : answers :=
  {| an_MkdirAll := false; an_rand := Some 7; an_clock _ := now * second; an_GenerateKey := Some key; an_sign := false;
     an_Create _ := false; an_Encode _ := None; an_interfaces := None |}.
Definition slash (a b : string) : string := a +:+ "/" +:+ b.

Definition ex_ca : files := (GenerateSelfSignedCA slash (ex_answers "kA" 100) "ca" ∅).1.
Definition ex_router : files := (GenerateNodeCert slash (ex_answers "kR" 200) "r" "ca/ca.crt" "ca/ca.key" "router" ex_ca).1.
Definition ex_client : files := (GenerateNodeCert slash (ex_answers "kC" 300) "c" "ca/ca.crt" "ca/ca.key" "desktop" ex_router).1.

Lemma generated_certificates_witness :
  files_valid ex_router "r/cert.pem" "r/key.pem" "ca/ca.crt" = true /\
  exists ca leaf nodeKey,
    LoadCACertPool ex_router "ca/ca.crt" = [ca] /\ LoadTLSCertFromFile ex_router "r/cert.pem" "r/key.pem" = Some (leaf, nodeKey) /\
    Some "kR" = Some nodeKey /\ nm_CommonName (x_Subject leaf) = "router" /\ VerifyCertSignedByCA leaf ca = true /\
    forall usage dns now, dns ∈ [""; "localhost"] ->
      (Verify [ca] usage dns now leaf = true <-> lifetime (ex_answers "kA" 100) (ex_answers "kR" 200) now).
Proof.
  apply (generated_certificates slash (ex_answers "kA" 100) (ex_answers "kR" 200) "ca" "r" "router" ∅ ex_ca ex_router
    "ca/ca.crt" "ca/ca.key" "r/cert.pem" "r/key.pem"); [vm_compute; reflexivity|vm_compute; reflexivity|..]; unfold apart; split_and!; discriminate.
Defined.

Definition ex_cfg : Config :=
  {| sc_DevMode := false; sc_MTLSCert := "r/cert.pem"; sc_MTLSKey := "r/key.pem"; sc_CertDir := "ca"; sc_APIKey := "secret";
     sc_TrustedCNs := "desktop" |}.

Lemma minted_client_served_witness :
  exists client pool router k,
    buildTLSClient slash ex_client "c/cert.pem" "c/key.pem" "ca" = Some (client, pool) /\
    LoadTLSCertFromFile ex_client "r/cert.pem" "r/key.pem" = Some (router, k) /\
    (forall host, host ∈ ["localhost"; "127.0.0.1"] \/ host = getPrimaryIPv4 (ex_answers "kR" 200) /\ is_ipv4 host = true ->
       Verify pool (Some ServerAuth) host (400 * second) router = true) /\
    Verify (LoadCACertPool ex_client "ca/ca.crt") (Some ClientAuth) "" (400 * second) client = true /\
    forall r, rq_TLS r = Some [as_peer (LoadCACertPool ex_client "ca/ca.crt") (400 * second) client] ->
      (served (router_serving (fun _ => None) (fun _ => None) (fun _ => None)
         (fun c => files_valid ex_client (sc_MTLSCert c) (sc_MTLSKey c) (slash (sc_CertDir c) "ca.crt")) ex_cfg ":8080") r <->
       (rq_Path r ∈ router_guarded -> "secret" <> "" -> presented_key r = "secret")).
Proof.
  apply (minted_client_served slash (ex_answers "kA" 100) (ex_answers "kR" 200) (ex_answers "kC" 300) "ca" "r" "c" "router" "desktop"
    ∅ ex_ca ex_router ex_client "ca/ca.crt" "ca/ca.key" "r/cert.pem" "r/key.pem" "c/cert.pem" "c/key.pem"
    (fun _ => None) (fun _ => None) (fun _ => None) ex_cfg ":8080" (400 * second)); [vm_compute; reflexivity|vm_compute; reflexivity|vm_compute; reflexivity|..].
  - unfold apart; split_and!; discriminate.
  - split_and!; reflexivity.
  - apply (bool_decide_unpack _); vm_compute; exact I.
  - right. apply (bool_decide_unpack _); vm_compute; exact I.
  - unfold lifetime; split_and!; vm_compute; discriminate.
Defined.

(** The machine that cannot create the key file. *)
Definition ex_half : answers :=
  {| an_MkdirAll := false; an_rand := Some 8; an_clock _ := 500 * second; an_GenerateKey := Some "kB"; an_sign := false;
     an_Create p := String.eqb p "ca/ca.key"; an_Encode _ := None; an_interfaces := None |}.
Definition ex_interrupted : files := (GenerateSelfSignedCA slash ex_half "ca" ex_ca).1.

Lemma interrupted_authority_witness :
  ex_interrupted !! "ca/ca.key" = ex_ca !! "ca/ca.key" /\
  (exists k, Some "kB" = Some k /\ LoadCACertPool ex_interrupted "ca/ca.crt" = [ca_cert ex_half k]) /\
  forall a' dirN cn, exists e, GenerateNodeCert slash a' dirN "ca/ca.crt" "ca/ca.key" cn ex_interrupted = (ex_interrupted, inr e).
Proof.
  apply (interrupted_authority slash ex_half "ca" ex_ca ex_interrupted "ca/ca.crt" "ca/ca.key" (ex_answers "kA" 100) "kA");
    [vm_compute; reflexivity|reflexivity|reflexivity|split; discriminate| |].
  - split; [vm_compute; reflexivity|]. exists "kA". by split.
  - intros k [= <-]. discriminate.
Defined.

(** The middleware verifies for the default usage, that of a server: a client's
    certificate for clients alone passes the handshake and is refused. *)
Definition client_only (c : Certificate) : Certificate :=
  mkCertificate (x_SerialNumber c) (x_Subject c) (x_Issuer c) (x_NotBefore c) (x_NotAfter c) (x_KeyUsage c) [ClientAuth]
    (x_BasicConstraintsValid c) (x_IsCA c) (x_DNSNames c) (x_IPAddresses c) (x_PublicKey c) (x_Signature c).

Definition ex_client_only : Certificate :=
  issued (client_only (node_template (ex_answers "kC" 300) "desktop")) (ca_cert (ex_answers "kA" 100) "kA") (public "kC") "kA".

Example ex_client_usage :
  let pool := LoadCACertPool ex_client "ca/ca.crt" in
  Verify pool (Some ClientAuth) "" (400 * second) ex_client_only = true /\
  NewMTLSMiddleware true [] Security.mux
    {| rq_Path := "/v1/workers"; rq_XAPIKey := ""; rq_Authorization := ""; rq_TLS := Some [as_peer pool (400 * second) ex_client_only] |} =
  refuse "certificate verification failed" 403.
Proof. vm_compute. done. Qed.

(** A node's pair given as the authority's issues certificates that nothing
    accepts. *)
Example ex_node_as_ca :
  let '(fs, r) := GenerateNodeCert slash (ex_answers "kX" 400) "x" "r/cert.pem" "r/key.pem" "worker" ex_router in
  r = inl ("x/cert.pem", "x/key.pem") /\
  exists leaf k ca, LoadTLSCertFromFile fs "x/cert.pem" "x/key.pem" = Some (leaf, k) /\ LoadCACertPool fs "r/cert.pem" = [ca] /\
    VerifyCertSignedByCA leaf ca = false.
Proof. vm_compute. split; [done|]. by do 3 eexists. Qed.
