(* ===== verification/RouterServer.v ===== *)
(** * RouterServer: the router's start and its routes ([Start], [buildServer] of [pkg/router/server.go])

    [Start] as the sequence of what it starts and the listener it ends in, and
    the way of a request through the middlewares and the [ServeMux] of
    [net/http] to an endpoint.  It is related to the transports of [Security]. *)

From S2P Require Import Prelude GoStrings Registry Proxy Meta Hub Http Security.
From Stdlib Require Import Ascii.

#[local] Open Scope list_scope.

(** ** Routes *)

Inductive endpoint :=
| handleChatCompletions
| handleCompletions
| handleModelsList
| handleWorkersList
| handleInferenceStats
| handleDevRegister
| handlePopularModels
| handleSetAliases
| handleAutoRouting
| handleConnectionCount
| handleInflightRequests
| handleQueueStats
| handleConn.

#[global] Instance endpoint_eq_dec : EqDecision endpoint.
Proof. solve_decision. Defined.

(** The patterns that [Start] registers; [connect] is whether the hub serves
    workers itself. *)
Definition routes (connect : bool) : list (string * endpoint) :=
  [("/v1/chat/completions", handleChatCompletions);
   ("/v1/completions", handleCompletions);
   ("/v1/models", handleModelsList);
   ("/v1/workers", handleWorkersList);
   ("/v1/inference-stats", handleInferenceStats);
   ("/v1/dev/register", handleDevRegister);
   ("/meta/models/popular", handlePopularModels);
   ("/meta/aliases", handleSetAliases);
   ("/meta/auto-routing", handleAutoRouting);
   ("/meta/connections/count", handleConnectionCount);
   ("/meta/requests/inflight", handleInflightRequests);
   ("/v1/queue/stats", handleQueueStats)] ++
  if connect then [("/v1/connect", handleConn)] else [].

(** ** [ServeMux]

    A path is matched in its escaped form, segment by segment. *)

Definition slash : ascii := "/".
Definition percent : ascii := "%".

Definition hex (c : ascii) : option nat :=
  let n := nat_of_ascii c in
  if Nat.leb 48 n && Nat.leb n 57 then Some (n - 48)%nat
  else if Nat.leb 97 n && Nat.leb n 102 then Some (n - 87)%nat
  else if Nat.leb 65 n && Nat.leb n 70 then Some (n - 55)%nat
  else None.

(** [url.PathUnescape]. *)
Fixpoint unescape (l : bytes) : option bytes :=
  match l with
  | [] => Some []
  | c :: l =>
      if ascii_dec c percent then
        match l with
        | a :: b :: l => x ← hex a; y ← hex b; rest ← unescape l; Some (ascii_of_nat (16 * x + y) :: rest)
        | _ => None
        end
      else rest ← unescape l; Some (c :: rest)
  end.

(** The bytes before the first slash, and the rest. *)
Fixpoint to_slash (l : bytes) : bytes * bytes :=
  match l with
  | [] => ([], [])
  | c :: l' => if ascii_dec c slash then ([], l) else let '(seg, rest) := to_slash l' in (c :: seg, rest)
  end.

Definition firstSegment (path : bytes) : bytes * bytes :=
  if decide (path = [slash]) then ([slash], [])
  else let '(seg, rest) := to_slash (tail path) in (default seg (unescape seg), rest).

(** A path against the segments of a pattern without wildcards. *)
Fixpoint match_path (segments : list bytes) (path : bytes) : bool :=
  match path, segments with
  | [], [] => true
  | [], _ :: _ | _ :: _, [] => false
  | _ :: _, s :: segments => let '(seg, rest) := firstSegment path in bool_decide (seg = s) && match_path segments rest
  end.

(** The segments of a pattern that begins with a slash. *)
Definition pattern_segments (pattern : string) : list bytes := split_bytes slash (tail (to_bytes pattern)).

Inductive routed := Serves (e : endpoint) | Redirects (path : string) | NotFound.

Definition find_route (table : list (string * endpoint)) (path : string) : option endpoint :=
  snd <$> List.find (fun pe => match_path (pattern_segments pe.1) (to_bytes path)) table.

(** What of a request the router looks at, beside its headers: the method and
    the escaped path. *)
Record http_request := { hq_Method : string; hq_EscapedPath : string; hq_request : request }.

Section mux.
(** [cleanPath] of [net/http]. *)
Context (cleanPath : string -> string).

Definition mux_route (table : list (string * endpoint)) (r : http_request) : routed :=
  let path := hq_EscapedPath r in
  if String.eqb (hq_Method r) "CONNECT" then from_option Serves NotFound (find_route table path)
  else if String.eqb (cleanPath path) path then from_option Serves NotFound (find_route table path)
  else Redirects (cleanPath path).

(** ** Start *)

(** What [Start] does beside computing: the loops it starts, the client that
    the cache is given, and the listener it ends in. *)
Inductive action :=
| CacheLoop
| CounterLoop
| TrackerLoop
| CacheMTLSClient
| WaitForShutdown
| Listen (tls : bool).

(** [http.Server]: its handler, and whether it has a TLS configuration. *)
Record http_server := { hs_Handler : handler; hs_TLSConfig : bool }.

Context (split_host : string -> option string) (parse_ip : string -> option bool) (lookup_ip : string -> option (list bool)).
Context (ValidateTLSConfig LoadTLSCert : Config -> bool).

Definition buildProdServer (c : Config) (addr : string) (has_cache : bool) (h : handler) : list action * (http_server + string) :=
  if negb (hasAnyMTLSConfig c) && IsLoopbackAddr split_host parse_ip lookup_ip addr then ([], inl {| hs_Handler := h; hs_TLSConfig := false |})
  else if negb (hasFullMTLSConfig c) then
    ([], inr "invalid TLS configuration: mtls-cert, mtls-key, and cert-dir are all required in production mode")
  else if negb (ValidateTLSConfig c) then ([], inr "invalid TLS configuration")
  else
    let h := NewMTLSMiddleware true (SplitCNs (sc_TrustedCNs c)) h in
    if negb (LoadTLSCert c) then ([], inr "failed to load router TLS certificate")
    else (if has_cache then [CacheMTLSClient] else [], inl {| hs_Handler := h; hs_TLSConfig := true |}).

Definition buildServer (c : Config) (addr : string) (has_cache : bool) (h : handler) : list action * (http_server + string) :=
  if negb (sc_DevMode c) then buildProdServer c addr has_cache h else ([], inl {| hs_Handler := h; hs_TLSConfig := false |}).

Definition present {A} (o : option A) : bool := if o then true else false.

(** The loops that are started before the server is built. *)
Definition loops (s : Server) : list action :=
  (if present (rt_cache s) && present (rt_reg s) then [CacheLoop] else []) ++ [CounterLoop] ++ (if present (rt_tracker s) then [TrackerLoop] else []).

(** [Start] until it listens: the actions, and the server and its routes.  Every
    server that [NewServer] makes has a hub. *)
Definition Start (s : Server) (c : Config) (addr : string) : list action * ((http_server * list (string * endpoint)) + string) :=
  let table := routes (match rt_hub s with Some h => Hub.Handler h | None => false end) in
  let '(built, r) := buildServer c addr (present (rt_cache s)) Security.mux in
  match r with
  | inr e => (loops s ++ built, inr e)
  | inl server =>
      let h := if negb (String.eqb (sc_APIKey c) "") then wrap_paths router_guarded (sc_APIKey c) (hs_Handler server) else hs_Handler server in
      let tls := negb (sc_DevMode c) && (hasAnyMTLSConfig c || negb (IsLoopbackAddr split_host parse_ip lookup_ip addr)) in
      (loops s ++ built ++ [WaitForShutdown; Listen tls], inl ({| hs_Handler := h; hs_TLSConfig := hs_TLSConfig server |}, table))
  end.

(** A request to a started router: an answer of a middleware, or a route. *)
Definition serve (st : http_server * list (string * endpoint)) (r : http_request) : ResponseWriter + routed :=
  match hs_Handler st.1 (hq_request r) with Some w => inl w | None => inr (mux_route st.2 r) end.

(** ** Matching *)

Lemma to_slash_spec l : forall seg rest, to_slash l = (seg, rest) ->
  l = seg ++ rest /\ slash ∉ seg /\ (rest = [] \/ exists t, rest = slash :: t).
Proof using.
  induction l as [|c l IH]; intros seg rest; cbn [to_slash].
  { intros [= <- <-]. split_and!; [done|set_solver|by left]. }
  destruct (ascii_dec c slash) as [->|Hc].
  { intros [= <- <-]. split_and!; [done|set_solver|right; eauto]. }
  destruct (to_slash l) as [seg' rest'] eqn:E. intros [= <- <-]. destruct (IH _ _ eq_refl) as (-> & Hs & Hr).
  split_and!; [done|set_solver|done].
Qed.

(** An escape does not reach over a slash. *)
Lemma unescape_app n seg rest : (length seg <= n)%nat -> slash ∉ seg -> (rest = [] \/ exists t, rest = slash :: t) ->
  unescape (seg ++ rest) = (u ← unescape seg; v ← unescape rest; Some (u ++ v)).
Proof using.
  intros Hn Hs Hr. revert seg Hn Hs. induction n as [|n IH]; intros seg Hn Hs.
  { destruct seg; [|simpl in Hn; lia]. simpl. by destruct (unescape rest). }
  destruct seg as [|c seg]; [simpl; by destruct (unescape rest)|]. simpl in Hn.
  assert (Hcons : unescape (seg ++ rest) = (u ← unescape seg; v ← unescape rest; Some (u ++ v))) by (apply IH; [lia|set_solver]).
  cbn [unescape app]. destruct (ascii_dec c percent).
  2: { rewrite Hcons. destruct (unescape seg); [|done]. simpl. by destruct (unescape rest). }
  destruct seg as [|a [|b seg]].
  - simpl. destruct Hr as [->|[t ->]]; [done|]. by destruct t.
  - simpl. destruct Hr as [->|[t ->]]; [done|]. by destruct (hex a).
  - simpl. destruct (hex a); [|done]. destruct (hex b); [|done]. simpl.
    rewrite IH by (simpl in Hn; try lia; set_solver). destruct (unescape seg); [|done]. simpl. by destruct (unescape rest).
Qed.

(** The segments of a pattern, each after a slash. *)
Definition joined (segments : list bytes) : bytes := concat (map (cons slash) segments).

Lemma match_unescape segments path p :
  match_path segments path = true -> Forall (fun s => slash ∉ s) segments -> (path = [] \/ exists t, path = slash :: t) ->
  unescape path = Some p -> p = joined segments.
Proof using.
  revert path p. induction segments as [|s segments IH]; intros [|c path] p Hm Hf Hp Hu; cbn [match_path] in Hm; try done.
  { by injection Hu as <-. }
  destruct Hp as [|[t [= -> ->]]]; [done|]. apply Forall_cons in Hf as [Hs Hf].
  destruct (firstSegment (slash :: t)) as [seg rest] eqn:E. apply andb_true_iff in Hm as [Hseg%bool_decide_eq_true Hm].
  unfold firstSegment in E. destruct (decide _) as [Ht|_]; [injection E as <- <-; subst s; set_solver|].
  cbn [tail] in E. destruct (to_slash t) as [sg rs] eqn:Et. injection E as E <-.
  destruct (to_slash_spec _ _ _ Et) as (-> & Hno & Hr).
  cbn [unescape] in Hu. destruct (ascii_dec slash percent); [done|]. rewrite (unescape_app _ _ _ (le_n _) Hno Hr) in Hu.
  destruct (unescape sg) as [u|]; [|done]. simpl in Hu, E. destruct (unescape rs) as [v|] eqn:Ev; [|done]. simpl in Hu.
  injection Hu as <-. subst. unfold joined. simpl. by rewrite (IH _ _ Hm Hf Hr Ev).
Qed.

(** Every pattern is what its segments say. *)
Definition literal_pattern (p : string) : bool :=
  bool_decide (joined (pattern_segments p) = to_bytes p) && forallb (fun s => negb (bool_decide (slash ∈ s))) (pattern_segments p).

Lemma route_path connect path e p :
  find_route (routes connect) path = Some e -> (exists t, to_bytes path = slash :: t) -> unescape (to_bytes path) = Some (to_bytes p) ->
  (p, e) ∈ routes connect.
Proof using.
  intros Hf Hr Hu. unfold find_route in Hf. destruct (List.find _ _) as [[pat e']|] eqn:E; [|done]. injection Hf as ->.
  apply find_some in E as [Hin Hm]. simpl in Hm.
  assert (Hl : forallb (fun pe => literal_pattern pe.1) (routes connect) = true) by (destruct connect; vm_compute; done).
  rewrite forallb_forall in Hl. specialize (Hl _ Hin). unfold literal_pattern in Hl. simpl in Hl.
  apply andb_true_iff in Hl as [Hj%bool_decide_eq_true Hs].
  assert (Hs' : Forall (fun s => slash ∉ s) (pattern_segments pat)).
  { rewrite forallb_forall in Hs. apply Forall_forall. intros s Hsin%list_elem_of_In. specialize (Hs _ Hsin).
    apply negb_true_iff in Hs. by apply bool_decide_eq_false in Hs. }
  pose proof (match_unescape _ _ _ Hm Hs' (or_intror Hr) Hu) as Hp. rewrite Hj in Hp.
  assert (p = pat) as -> by (rewrite <-(String.string_of_list_ascii_of_string p), Hp; apply String.string_of_list_ascii_of_string).
  by apply list_elem_of_In.
Qed.

Definition hub_serves (s : Server) : bool := match rt_hub s with Some h => Hub.Handler h | None => false end.

Lemma start_inv s c addr acts st :
  Start s c addr = (acts, inl st) ->
  exists h, hs_Handler st.1 = (if String.eqb (sc_APIKey c) "" then h else wrap_paths router_guarded (sc_APIKey c) h) /\
    st.2 = routes (hub_serves s) /\
    (hs_TLSConfig st.1 = true -> h = NewMTLSMiddleware true (SplitCNs (sc_TrustedCNs c)) Security.mux).
Proof using.
  unfold Start, buildServer, buildProdServer. fold (hub_serves s). intros H.
  destruct (String.eqb (sc_APIKey c) ""); simpl in H;
    repeat match type of H with context [if ?b then _ else _] => destruct b; simpl in H; try discriminate H end;
    injection H as _ <-; by eexists; split_and!.
Qed.

(** The guarded patterns are those of every endpoint that is not open. *)
Lemma guarded_routes connect p e : (p, e) ∈ routes connect -> e ∉ [handleModelsList; handleWorkersList; handleConn] -> p ∈ router_guarded.
Proof using.
  intros Hin He.
  assert (H : Forall (fun pe => pe.2 ∈ [handleModelsList; handleWorkersList; handleConn] \/ pe.1 ∈ router_guarded) (routes connect))
    by (destruct connect; apply (bool_decide_unpack _); vm_compute; exact I).
  rewrite Forall_forall in H. by destruct (H _ Hin).
Qed.

Lemma connect_route connect p : (p, handleConn) ∈ routes connect -> connect = true.
Proof using.
  destruct connect; [done|]. intros Hin. exfalso.
  assert (H : Forall (fun pe => pe.2 <> handleConn) (routes false)) by (apply (bool_decide_unpack _); vm_compute; exact I).
  rewrite Forall_forall in H. by apply (H _ Hin).
Qed.

(** ** Properties *)

Definition loads (c : Config) : bool := ValidateTLSConfig c && LoadTLSCert c.

(** [Start] ends as the transport that the access rules are stated of: in an error when it refuses, else listening with
    TLS or without, with the handler of that transport, and with a TLS configuration exactly when it listens with TLS.
    The loops run in every case, also when it refuses; the cache is given its certificates after its loop was started. *)
Theorem start_is_serving s c addr :
  router_serving split_host parse_ip lookup_ip loads c addr =
    match (Start s c addr).2 with
    | inr _ => Refuses
    | inl st => if hs_TLSConfig st.1 then TLS (hs_Handler st.1) else Plain (hs_Handler st.1)
    end /\
  (Start s c addr).1 = loops s ++
    match (Start s c addr).2 with
    | inr _ => []
    | inl st => (if hs_TLSConfig st.1 && present (rt_cache s) then [CacheMTLSClient] else []) ++ [WaitForShutdown; Listen (hs_TLSConfig st.1)]
    end.
Proof using.
  unfold router_serving, Start, buildServer, buildProdServer, loads.
  assert (Hfull : hasFullMTLSConfig c = true -> hasAnyMTLSConfig c = true).
  { unfold hasAnyMTLSConfig, hasFullMTLSConfig. by repeat destruct (String.eqb _ _). }
  destruct (sc_DevMode c), (hasAnyMTLSConfig c), (IsLoopbackAddr split_host parse_ip lookup_ip addr), (hasFullMTLSConfig c),
    (ValidateTLSConfig c), (LoadTLSCert c), (String.eqb (sc_APIKey c) ""), (rt_cache s);
    first [by destruct (Hfull eq_refl) | simpl; rewrite ?app_nil_r; split; reflexivity].
Qed.

(** The endpoints that are served without a key, and the one that checks it
    itself. *)
Definition open_endpoints : list endpoint := [handleModelsList; handleWorkersList; handleConn].

End mux.

(** ** Concrete instances *)

Definition ex_config : Config :=
  {| sc_DevMode := true; sc_MTLSCert := ""; sc_MTLSKey := ""; sc_CertDir := ""; sc_APIKey := "k"; sc_TrustedCNs := "" |}.
Definition ex_start : list action * ((http_server * list (string * endpoint)) + string) :=
  Start (fun _ => None) (fun _ => None) (fun _ => None) (fun _ => true) (fun _ => true) (NewServer None true "k") ex_config ":8080".
Definition ex_server : http_server * list (string * endpoint) :=
  match ex_start.2 with inl st => st | inr _ => ({| hs_Handler := Security.mux; hs_TLSConfig := false |}, []) end.

Definition ex_request (escaped path key : string) : http_request :=
  {| hq_Method := "POST"; hq_EscapedPath := escaped;
     hq_request := {| rq_Path := path; rq_XAPIKey := key; rq_Authorization := ""; rq_TLS := None |} |}.


(** Escaping a letter does not hide the path from the key; an escaped slash is
    no separator for the routes, but is one for the key. *)
Example ex_escapes :
  serve (fun p => p) ex_server (ex_request "/v1/%63hat/completions" "/v1/chat/completions" "") = inl (http_Error "API key required" 401 new_writer) /\
  serve (fun p => p) ex_server (ex_request "/v1/chat%2Fcompletions" "/v1/chat/completions" "") = inl (http_Error "API key required" 401 new_writer) /\
  serve (fun p => p) ex_server (ex_request "/v1/chat%2Fcompletions" "/v1/chat/completions" "k") = inr NotFound /\
  serve (fun p => p) ex_server (ex_request "/v1/workers" "/v1/workers" "") = inr (Serves handleWorkersList) /\
  serve (fun p => p) ex_server (ex_request "/v1/connect" "/v1/connect" "") = inr (Serves handleConn) /\
  serve (fun p => p) ex_server (ex_request "/v1/workers/" "/v1/workers/" "") = inr NotFound.
Proof. vm_compute. done. Qed.

(** In production the loop of the cache runs before the cache has its
    certificates. *)
Example ex_cache_first :
  (Start (fun _ => None) (fun _ => None) (fun _ => None) (fun _ => true) (fun _ => true)
     (NewServer (match Registry.New Registry.Defaults with inl r => Some r | inr _ => None end) false "")
     {| sc_DevMode := false; sc_MTLSCert := "c"; sc_MTLSKey := "k"; sc_CertDir := "d"; sc_APIKey := ""; sc_TrustedCNs := "" |} ":8443").1 =
  [CacheLoop; CounterLoop; TrackerLoop; CacheMTLSClient; WaitForShutdown; Listen true].
Proof. vm_compute. done. Qed.
