(* ===== verification/WorkerLink.v ===== *)
(** * WorkerLink: the worker's connection to its router ([WSRegisterLoop] and [wsConnectOnce] of [pkg/worker/ws_client.go])

    The loop that dials, registers and reads, with the goroutines of each of
    its connections: the heartbeat, the one that closes the connection when the
    worker stops, and those that answer requests.  An event is a step of one of
    them; whether a write or a read works is part of the event. *)

From S2P Require Import Prelude GoFloat GoStrings Protocol Backend WorkerServer WorkerClient.

#[local] Open Scope list_scope.

(** ** State *)

(** A connection: what was written to it, whether it is closed and its context
    cancelled, and whether its heartbeat and its watcher run. *)
Record conn := mkConn { cn_out : wsOutbound; cn_closed : bool; cn_cancelled : bool; cn_heart : bool; cn_watch : bool }.

Inductive phase := Top | Reading (k : nat) | Waiting | Stopped.

(** The loop, and every connection it has made. *)
Record wlink := mkLink { wl_ctx : bool; wl_phase : phase; wl_delay : Duration; wl_conns : list conn }.

Definition initial_link : wlink := mkLink false Top wsRegisterBackoffBase [].

Definition set_phase (p : phase) (s : wlink) : wlink := mkLink (wl_ctx s) p (wl_delay s) (wl_conns s).
Definition set_conns (l : list conn) (s : wlink) : wlink := mkLink (wl_ctx s) (wl_phase s) (wl_delay s) l.
Definition close_conn (c : conn) : conn := mkConn (cn_out c) true (cn_cancelled c) (cn_heart c) (cn_watch c).
Definition cancel_conn (c : conn) : conn := mkConn (cn_out c) (cn_closed c) true (cn_heart c) (cn_watch c).
Definition set_out (o : wsOutbound) (c : conn) : conn := mkConn o (cn_closed c) (cn_cancelled c) (cn_heart c) (cn_watch c).
Definition end_heart (c : conn) : conn := mkConn (cn_out c) (cn_closed c) (cn_cancelled c) false (cn_watch c).
Definition end_watch (c : conn) : conn := mkConn (cn_out c) (cn_closed c) (cn_cancelled c) (cn_heart c) false.

Definition no_frames : wsOutbound := {| wo_sent := []; wo_tried := 0 |}.

(** ** Events *)

(** What a register or a heartbeat is made of, and whether its write works. *)
Record tick := { tk_drawn : string; tk_info : WorkerInfo; tk_works : bool }.

Inductive link_event :=
| ECancel
| ERound (dialed : option tick)
| EFrame (msg : Message) (works : bool)
| EReadFails
| EHeartbeat (k : nat) (t : option tick)
| EWatch (k : nat) (app : bool)
| EAnswer (k : nat) (m : Message) (works : bool)
| ESlept (draw : float64)
| EWoken.

Section link.
Context {J : JSON}.
Context (maxDelay : Duration).

(** After [wsConnectOnce]: the loop ends with the worker, or waits. *)
Definition lost (s : wlink) : wlink := set_phase (if wl_ctx s then Stopped else Waiting) s.

(** The end of [wsConnectOnce] on the connection [k]. *)
Definition torn_down (k : nat) (s : wlink) : wlink := lost (set_conns (alter (cancel_conn ∘ close_conn) k (wl_conns s)) s).

(** [wsConnectOnce] until it reads. *)
Definition wsConnectOnce (dialed : option tick) (s : wlink) : wlink :=
  match dialed with
  | None => lost s
  | Some t =>
      let '(o, sent) := send_register (fun _ => tk_works t) (tk_drawn t) (tk_info t) no_frames in
      if sent then set_phase (Reading (length (wl_conns s))) (set_conns (wl_conns s ++ [mkConn o false false true true]) s)
      else lost (set_conns (wl_conns s ++ [mkConn o true true false false]) s)
  end.

(** [wsHeartbeat] at its [select]: the context or a tick. *)
Definition wsHeartbeat (ctx : bool) (t : option tick) (c : conn) : conn :=
  if negb (cn_heart c) then c
  else
    match t with
    | None => if ctx || cn_cancelled c then end_heart c else c
    | Some t =>
        let '(o, goes_on) := heartbeat_tick (fun _ => tk_works t && negb (cn_closed c)) (tk_drawn t) (tk_info t) (cn_out c) in
        if goes_on then set_out o c else end_heart (close_conn (set_out o c))
    end.

(** The goroutine that waits for the end of the worker or of the connection, whose
    context is that of the worker or shorter: once the worker stops, both are over. *)
Definition watch (ctx app : bool) (c : conn) : conn :=
  if negb (cn_watch c) then c
  else if app then if ctx then end_watch (close_conn c) else c
  else if ctx || cn_cancelled c then end_watch c else c.

(** A round of [wsReaderLoop]; a closed connection reads nothing. *)
Definition wsReaderLoop (msg : Message) (works : bool) (k : nat) (s : wlink) : wlink :=
  match wl_conns s !! k with
  | Some c =>
      if cn_closed c then s
      else
        match handleWSMessage (fun _ => works) msg (cn_out c) with
        | GoOn o => set_conns (alter (set_out o) k (wl_conns s)) s
        | Stops o _ => torn_down k (set_conns (alter (set_out o) k (wl_conns s)) s)
        | StartInference _ | StartModelLoad _ => s
        end
  | None => s
  end.

(** One step; one that the state does not allow changes nothing. *)
Definition link_step (s : wlink) (e : link_event) : wlink :=
  match e, wl_phase s with
  | ECancel, _ => mkLink true (wl_phase s) (wl_delay s) (wl_conns s)
  | ERound dialed, Top => if wl_ctx s then set_phase Stopped s else wsConnectOnce dialed s
  | EFrame msg works, Reading k => wsReaderLoop msg works k s
  | EReadFails, Reading k => torn_down k s
  | EHeartbeat k t, _ => set_conns (alter (wsHeartbeat (wl_ctx s) t) k (wl_conns s)) s
  | EWatch k app, _ => set_conns (alter (watch (wl_ctx s) app) k (wl_conns s)) s
  | EAnswer k m works, _ =>
      set_conns (alter (fun c => set_out (send (fun _ => works && negb (cn_closed c)) m (cn_out c)).1 c) k (wl_conns s)) s
  | ESlept draw, Waiting => mkLink (wl_ctx s) Top (nextBackoff draw (wl_delay s) maxDelay) (wl_conns s)
  | EWoken, Waiting => if wl_ctx s then set_phase Stopped s else s
  | _, _ => s
  end.

Definition link_run (evs : list link_event) : wlink := foldl link_step initial_link evs.

(** ** The invariant *)

Definition registered (c : conn) : Prop := exists m rest, wo_sent (cn_out c) = m :: rest /\ msg_Type m = MsgRegister.

Record link_ok (s : wlink) : Prop := {
  lk_newest k : wl_phase s = Reading k -> S k = length (wl_conns s);
  lk_others k c : wl_conns s !! k = Some c -> wl_phase s = Reading k \/ cn_closed c = true /\ cn_cancelled c = true;
  lk_open k c : wl_conns s !! k = Some c -> registered c \/ wo_sent (cn_out c) = [] /\ cn_closed c = true /\ cn_heart c = false;
  lk_stop : wl_phase s = Stopped -> wl_ctx s = true;
}.

(** What a goroutine may do to a connection: never reopen it, never take a frame
    back, and write nothing once it is closed. *)
Record follows (c c' : conn) : Prop := {
  fo_closed : cn_closed c = true -> cn_closed c' = true;
  fo_cancelled : cn_cancelled c = true -> cn_cancelled c' = true;
  fo_sent : wo_sent (cn_out c) `prefix_of` wo_sent (cn_out c');
  fo_silent : cn_closed c = true -> wo_sent (cn_out c') = wo_sent (cn_out c);
  fo_heart : cn_heart c' = true -> cn_heart c = true;
}.

Lemma send_follows works m o : wo_sent o `prefix_of` wo_sent (send (fun _ => works) m o).1 /\
  (works = false -> wo_sent (send (fun _ => works) m o).1 = wo_sent o).
Proof using. unfold send. destruct works; simpl; [split; [by eexists|done]|done]. Qed.

Lemma heartbeat_follows ctx t c : follows c (wsHeartbeat ctx t c).
Proof using.
  unfold wsHeartbeat. destruct (cn_heart c) eqn:Eh; simpl; [|by split].
  destruct t as [t|]; [|destruct (ctx || cn_cancelled c); by split].
  unfold heartbeat_tick. destruct (NewMessage _ _ _) as [m|]; [|by split].
  pose proof (send_follows (tk_works t && negb (cn_closed c)) m (cn_out c)) as [Hp Hs].
  assert (Hs' : cn_closed c = true -> wo_sent (send (fun _ => tk_works t && negb (cn_closed c)) m (cn_out c)).1 = wo_sent (cn_out c)).
  { intros Hc. apply Hs. by rewrite Hc, andb_false_r. }
  destruct (send _ _ _) as [o []]; simpl in *; by split.
Qed.

Lemma watch_follows ctx app c : follows c (watch ctx app c).
Proof using. unfold watch. destruct (cn_watch c), app, ctx, (cn_cancelled c) eqn:?; by split. Qed.

Lemma answer_follows m works c : follows c (set_out (send (fun _ => works && negb (cn_closed c)) m (cn_out c)).1 c).
Proof using.
  pose proof (send_follows (works && negb (cn_closed c)) m (cn_out c)) as [Hp Hs]. split; simpl; try done.
  intros Hc. apply Hs. by rewrite Hc, andb_false_r.
Qed.

Lemma follows_state c c' : follows c c' ->
  registered c \/ wo_sent (cn_out c) = [] /\ cn_closed c = true /\ cn_heart c = false ->
  registered c' \/ wo_sent (cn_out c') = [] /\ cn_closed c' = true /\ cn_heart c' = false.
Proof using.
  intros F [(m & rest & E & Ht)|(E & Hc & Hh)].
  - left. destruct (fo_sent _ _ F) as [more Hm]. exists m, (rest ++ more). by rewrite Hm, E.
  - right. rewrite (fo_silent _ _ F Hc). split_and!; [done|by apply (fo_closed _ _ F)|].
    destruct (cn_heart c') eqn:E'; [|done]. by rewrite (fo_heart _ _ F E') in Hh.
Qed.

(** A step of a goroutine on one connection keeps the invariant. *)
Lemma alter_ok f k s : (forall c, wl_conns s !! k = Some c -> follows c (f c)) -> link_ok s -> link_ok (set_conns (alter f k (wl_conns s)) s).
Proof using.
  intros Hf H. split; simpl.
  - intros j Hj. rewrite length_alter. by apply (lk_newest s H).
  - intros j c Hc. destruct (decide (j = k)) as [->|Hne]; [|rewrite list_lookup_alter_ne in Hc by done; by apply (lk_others s H)].
    rewrite list_lookup_alter_eq in Hc. apply fmap_Some in Hc as (c0 & Hc0 & ->).
    destruct (lk_others s H _ _ Hc0) as [?|[H1 H2]]; [by left|right]. split; [by apply (fo_closed _ _ (Hf c0 Hc0))|by apply (fo_cancelled _ _ (Hf c0 Hc0))].
  - intros j c Hc. destruct (decide (j = k)) as [->|Hne]; [|rewrite list_lookup_alter_ne in Hc by done; by apply (lk_open s H j)].
    rewrite list_lookup_alter_eq in Hc. apply fmap_Some in Hc as (c0 & Hc0 & ->).
    by apply (follows_state c0 _ (Hf c0 Hc0)), (lk_open s H k).
  - apply (lk_stop s H).
Qed.

Lemma lost_phase s k : wl_phase (lost s) <> Reading k.
Proof using. unfold lost. by destruct (wl_ctx s). Qed.

(** The end of the connection that is read. *)
Lemma torn_down_ok k s : link_ok s -> wl_phase s = Reading k -> link_ok (torn_down k s).
Proof using.
  intros H Hk. assert (Hf : forall c, follows c ((cancel_conn ∘ close_conn) c)) by by split.
  pose proof (alter_ok _ k s (fun c _ => Hf c) H) as [N O R S]. unfold torn_down. split.
  - intros j Hj. by apply lost_phase in Hj.
  - intros j c Hc. right. simpl in Hc. destruct (decide (j = k)) as [->|Hne].
    + rewrite list_lookup_alter_eq in Hc. by apply fmap_Some in Hc as (c0 & _ & ->).
    + rewrite list_lookup_alter_ne in Hc by done. destruct (lk_others s H _ _ Hc) as [E|?]; [congruence|done].
  - exact R.
  - unfold lost. simpl. by destruct (wl_ctx s).
Qed.

Lemma reading_frame msg works k s : link_ok s -> wl_phase s = Reading k -> link_ok (wsReaderLoop msg works k s).
Proof using.
  intros H Hk. unfold wsReaderLoop. destruct (wl_conns s !! k) as [c|] eqn:Hc; [|done]. destruct (cn_closed c) eqn:Ecl; [done|].
  assert (Hset : forall o, wo_sent (cn_out c) `prefix_of` wo_sent o -> link_ok (set_conns (alter (set_out o) k (wl_conns s)) s)).
  { intros o Ho. apply alter_ok; [|done]. intros c' Hc'. rewrite Hc in Hc'. injection Hc' as <-. split; simpl; try done. by rewrite Ecl. }
  unfold handleWSMessage. destruct (msg_Type msg); try done; try (apply Hset; done).
  - pose proof (proj1 (send_follows works (reply (msg_ID msg) MsgPing "") (cn_out c))) as Hp. destruct (send _ _ _) as [o []].
    + by apply Hset.
    + apply torn_down_ok; [by apply Hset|done].
  - apply torn_down_ok; [by apply Hset|done].
Qed.

Lemma connect_ok dialed s : link_ok s -> wl_phase s = Top -> link_ok (wsConnectOnce dialed s).
Proof using.
  intros H Ht. assert (Hold : forall k c, wl_conns s !! k = Some c -> cn_closed c = true /\ cn_cancelled c = true).
  { intros k c Hc. destruct (lk_others s H _ _ Hc); [congruence|done]. }
  assert (Hlost : forall s', link_ok s -> (forall k c, wl_conns s' !! k = Some c -> cn_closed c = true /\ cn_cancelled c = true) ->
    (forall k c, wl_conns s' !! k = Some c -> registered c \/ wo_sent (cn_out c) = [] /\ cn_closed c = true /\ cn_heart c = false) -> link_ok (lost s')).
  { intros s' _ Ho Hr. split; [intros j Hj; by apply lost_phase in Hj|intros; right; by eapply Ho|exact Hr|unfold lost; simpl; by destruct (wl_ctx s')]. }
  unfold wsConnectOnce. destruct dialed as [t|]; [|by apply Hlost; [done|done|apply (lk_open s H)]].
  unfold send_register. destruct (NewMessage _ _ _) as [m|] eqn:Em.
  2: { apply Hlost; [done| |]; simpl; intros k c Hc; apply lookup_snoc_Some in Hc as [[_ Hc]|[_ <-]]; auto; [by apply Hold in Hc|by apply (lk_open s H k)]. }
  assert (Hty : msg_Type m = MsgRegister) by (unfold NewMessage in Em; destruct (marshal_payload _); [by injection Em as <-|done]).
  unfold send. destruct (tk_works t); cbn [wo_tried no_frames].
  - split; simpl.
    + intros j [= <-]. rewrite length_app. simpl. lia.
    + intros j c Hc. apply lookup_snoc_Some in Hc as [[_ Hc]|[-> <-]]; [right; by eapply Hold|by left].
    + intros j c Hc. apply lookup_snoc_Some in Hc as [[_ Hc]|[-> <-]]; [by apply (lk_open s H j)|left; by exists m, []].
    + done.
  - apply Hlost; [done| |]; simpl; intros k c Hc; apply lookup_snoc_Some in Hc as [[_ Hc]|[_ <-]]; auto;
      [by apply Hold in Hc|by apply (lk_open s H k)].
Qed.

Lemma step_ok s e : link_ok s -> link_ok (link_step s e).
Proof using.
  intros H. assert (Hw : forall d p, wl_phase s = Waiting -> (p = Stopped -> wl_ctx s = true) -> (forall k, p <> Reading k) ->
    link_ok (mkLink (wl_ctx s) p d (wl_conns s))).
  { intros d p Hp Hs Hr. split; simpl; [intros j Hj; by destruct (Hr j)| |apply (lk_open s H)|done].
    intros j c Hc. destruct (lk_others s H _ _ Hc); [congruence|by right]. }
  assert (Hc : link_ok (mkLink true (wl_phase s) (wl_delay s) (wl_conns s))).
  { split; simpl; [apply (lk_newest s H)|apply (lk_others s H)|apply (lk_open s H)|done]. }
  destruct e as [|d|msg works| |k t|k app|k m works|draw|]; simpl; try done.
  - destruct (wl_phase s) eqn:Ep; try done. destruct (wl_ctx s) eqn:Ec; [|by apply connect_ok].
    split; simpl; [done| |apply (lk_open s H)|done]. intros j c Hj. destruct (lk_others s H _ _ Hj); [congruence|by right].
  - destruct (wl_phase s) eqn:Ep; try done. by apply reading_frame.
  - destruct (wl_phase s) eqn:Ep; try done. by apply torn_down_ok.
  - apply alter_ok; [|done]. intros. apply heartbeat_follows.
  - apply alter_ok; [|done]. intros. apply watch_follows.
  - apply alter_ok; [|done]. intros. apply answer_follows.
  - destruct (wl_phase s) eqn:Ep; try done. by apply Hw.
  - destruct (wl_phase s) eqn:Ep; try done. destruct (wl_ctx s) eqn:Ec; [|done]. unfold set_phase. rewrite Ec. by apply Hw.
Qed.

Lemma run_ok evs s : link_ok s -> link_ok (foldl link_step s evs).
Proof using. revert s. induction evs as [|e evs IH]; intros s H; [done|]. by apply IH, step_ok. Qed.

Lemma initial_link_ok : link_ok initial_link.
Proof using. by split. Qed.

(** ** The end of the worker *)

(** The steps that end the loop from any state of a stopped worker, and the
    goroutines of every connection. *)
Definition ends_loop (s : wlink) : list link_event :=
  match wl_phase s with Top => [ERound None] | Reading _ => [EReadFails] | Waiting => [EWoken] | Stopped => [] end.
Definition ends_goroutines (n : nat) : list link_event := concat (map (fun k => [EHeartbeat k None; EWatch k true]) (seq 0 n)).

Lemma loop_ends s : wl_ctx s = true ->
  let s' := foldl link_step s (ends_loop s) in wl_phase s' = Stopped /\ wl_ctx s' = true /\ length (wl_conns s') = length (wl_conns s).
Proof using.
  intros Hc. unfold ends_loop. destruct (wl_phase s) eqn:Ep; simpl; rewrite ?Ep, ?Hc; simpl; auto.
  unfold torn_down, lost. simpl. rewrite Hc. split_and!; [done..|]. by rewrite length_alter.
Qed.

Definition quiet (c : conn) : Prop := cn_heart c = false /\ cn_watch c = false.

Lemma heartbeat_stops c : cn_heart (wsHeartbeat true None c) = false /\ cn_watch (wsHeartbeat true None c) = cn_watch c.
Proof using. unfold wsHeartbeat. by destruct (cn_heart c) eqn:E. Qed.
Lemma watch_stops c : cn_watch (watch true true c) = false /\ cn_heart (watch true true c) = cn_heart c.
Proof using. unfold watch. by destruct (cn_watch c) eqn:E. Qed.

Lemma goroutines_end n m s : wl_ctx s = true ->
  let s' := foldl link_step s (concat (map (fun k => [EHeartbeat k None; EWatch k true]) (seq m n))) in
  wl_phase s' = wl_phase s /\ length (wl_conns s') = length (wl_conns s) /\
  forall k c, wl_conns s' !! k = Some c ->
    ((m <= k < m + n)%nat -> quiet c) /\ (~ (m <= k < m + n)%nat -> wl_conns s !! k = Some c).
Proof using.
  revert m s. induction n as [|n IH]; intros m s Hc; [simpl; split_and!; [done..|]; intros; split; [lia|done]|].
  cbn [seq map concat app foldl]. set (s1 := link_step (link_step s (EHeartbeat m None)) (EWatch m true)).
  assert (Hc1 : wl_ctx s1 = true) by done. destruct (IH (S m) s1 Hc1) as (Hp & Hl & Hk).
  split_and!; [exact Hp|by rewrite Hl; unfold s1; simpl; rewrite !length_alter|].
  intros k c Hk'. destruct (Hk k c Hk') as [Hin Hout].
  assert (E1 : wl_conns s1 = alter (watch true true) m (alter (wsHeartbeat true None) m (wl_conns s))) by (unfold s1; simpl; by rewrite Hc).
  split.
  - intros Hr. destruct (decide (k = m)) as [->|]; [|apply Hin; lia]. specialize (Hout ltac:(lia)).
    rewrite E1, list_lookup_alter_eq in Hout. apply fmap_Some in Hout as (c1 & Hout & ->).
    rewrite list_lookup_alter_eq in Hout. apply fmap_Some in Hout as (c0 & _ & ->).
    split; [rewrite (proj2 (watch_stops _)); apply heartbeat_stops|apply watch_stops].
  - intros Hr. specialize (Hout ltac:(lia)). by rewrite E1, !list_lookup_alter_ne in Hout by lia.
Qed.

(** ** Properties *)

(** C7: the worker keeps one registered connection.  Whatever happens and in whatever order, the loop reads from its newest
    connection and every other one is closed with its context cancelled; the first frame of a connection is its register,
    before any heartbeat or answer; and the loop ends only when the worker stops.  Once the worker stops, a failing read,
    the next look at the context and a turn of each goroutine end the loop and every goroutine of every connection. *)
Theorem worker_link_kept_up evs :
  let s := link_run evs in
  (forall k c, wl_conns s !! k = Some c ->
    (wl_phase s = Reading k /\ S k = length (wl_conns s) \/ cn_closed c = true /\ cn_cancelled c = true) /\
    (wo_sent (cn_out c) = [] \/ registered c)) /\
  (wl_phase s = Stopped -> wl_ctx s = true) /\
  (wl_ctx s = true ->
    let s' := foldl link_step s (ends_loop s ++ ends_goroutines (length (wl_conns s))) in
    wl_phase s' = Stopped /\ forall k c, wl_conns s' !! k = Some c -> cn_closed c = true /\ cn_cancelled c = true /\ quiet c).
Proof using.
  intros s. assert (H : link_ok s) by (apply run_ok, initial_link_ok). split_and!.
  - intros k c Hc. split; [destruct (lk_others s H _ _ Hc) as [Hk|?]; [left; split; [done|by apply (lk_newest s H)]|by right]|].
    destruct (lk_open s H _ _ Hc) as [?|[? _]]; [by right|by left].
  - apply (lk_stop s H).
  - intros Hc s'. unfold s'. rewrite foldl_app.
    destruct (loop_ends s Hc) as (Hp1 & Hc1 & Hl1). set (s1 := foldl link_step s (ends_loop s)) in *.
    destruct (goroutines_end (length (wl_conns s)) 0 s1 Hc1) as (Hp2 & Hl2 & Hq). unfold ends_goroutines.
    set (s2 := foldl link_step s1 _) in *.
    assert (H2 : link_ok s2) by (apply run_ok, run_ok, H).
    split; [congruence|]. intros k c Hk. destruct (lk_others s2 H2 _ _ Hk) as [?|[? ?]]; [congruence|]. split_and!; [done..|].
    apply (Hq _ _ Hk). apply lookup_lt_Some in Hk. lia.
Qed.

(** The steps of the goroutines of a connection and of the loop that do not read. *)
Definition no_read (e : link_event) : Prop := match e with EFrame _ _ | EReadFails => False | _ => True end.

(** A fault: when the worker stops, both contexts of the watcher are over at once, and a watcher that looks only then
    may take the one that is the connection's; it leaves without closing, and nothing but the outcome of the read, for
    which the deadline is 90 seconds, ends the loop. *)
Theorem watcher_may_leave t evs
  (Hm : is_Some (marshal_payload (PRegister {| rp_Worker := tk_info t; rp_Relay := false |})))
  (Hw : tk_works t = true) (Hevs : Forall no_read evs) :
  let s := link_run [ERound (Some t); ECancel; EWatch 0 false] in
  (exists c, wl_conns s = [c] /\ cn_closed c = false /\ cn_watch c = false) /\
  wl_phase (foldl link_step s evs) = Reading 0.
Proof using.
  intros s. destruct Hm as [d Hd].
  assert (Es : exists c, s = mkLink true (Reading 0) wsRegisterBackoffBase [c] /\ cn_closed c = false /\ cn_watch c = false).
  { unfold s, link_run. cbn [foldl link_step initial_link wl_phase wl_ctx wl_conns wl_delay]. unfold wsConnectOnce, send_register, NewMessage.
    rewrite Hd. unfold send. rewrite Hw. simpl. by eexists. }
  destruct Es as (c & Es & ? & ?). split; [exists c; by rewrite Es|].
  assert (Hrun : forall s, wl_phase s = Reading 0 -> wl_phase (foldl link_step s evs) = Reading 0).
  { clear -Hevs. induction Hevs as [|e evs He Hevs' IH]; intros s Hp; [done|]. apply IH.
    destruct e; simpl; rewrite ?Hp; try done. }
  apply Hrun. by rewrite Es.
Qed.
End link.

#[local] Instance ex_link_json : JSON :=
  {| decode_register _ := None; decode_heartbeat _ := None; decode_capabilities _ := None; decode_error _ := None;
     decode_inference_request _ := None; decode_chunk _ := None; decode_response _ := None; decode_cancel _ := None;
     decode_model_load_request _ := None; decode_model_load_response _ := None; decode_close _ := None;
     marshal_payload _ := Some "{}" |}.

Definition ex_tick : tick := {| tk_drawn := "id"; tk_info := zero_WorkerInfo; tk_works := true |}.

Lemma watcher_may_leave_witness :
  let s := link_run (J := ex_link_json) (30 * second) [ERound (Some ex_tick); ECancel; EWatch 0 false] in
  (exists c, wl_conns s = [c] /\ cn_closed c = false /\ cn_watch c = false) /\
  wl_phase (foldl (link_step (J := ex_link_json) (30 * second)) s [EHeartbeat 0 None; EWatch 0 true; EWoken]) = Reading 0.
Proof.
  apply (watcher_may_leave (J := ex_link_json) (30 * second) ex_tick [EHeartbeat 0 None; EWatch 0 true; EWoken]);
    [by eexists|reflexivity|repeat constructor].
Defined.
